(* ===== verification/_CoqProject ===== *)
-Q . S2P
Prelude.v
State.v
Model.v
Sample.v
Graph.v
DagBuild.v
Timetable.v
DagRunQuery.v
TaskInstance.v
DagClear.v
PoolSlots.v
TiDeps.v
Skip.v
DagRun.v
MarkTasks.v
Executor.v
ExecutorImpl.v
DebugExecutor.v
Scheduler.v
SchedulerEvents.v
SchedulerRuns.v
SchedulerCreate.v
SchedulerLoop.v
Backfill.v
Dict.v
Serialization.v
SerializedDag.v
DagRoundTrip.v
DagProcessing.v
Sla.v
Sensors.v
LocalTaskJob.v
System.v
DagTable.v
DagBag.v
DagSync.v
DagApi.v
Url.v
Connection.v
Secrets.v
Config.v
Masker.v
