(* ===== verification/Prelude.v ===== *)
(** * A verification library for the scheduling core of Apache Airflow

    This library models the part of the repository that decides what runs and
    when, and proves that it does what it means to.  The sources are under
    [src/airflow/]; every definition is a translation of the code named in the
    comment of its section, in the style of a shallow embedding: pure functions
    are functions, a method that changes an object returns the new object, code
    that writes the metadata database takes a [Session] and returns a new one,
    and code that can raise returns [result].

    ** The program

    Users declare DAGs of tasks ([models/dag.py], [models/baseoperator.py]).  A
    timetable says when the next run of a DAG is due.  For a DAG run
    ([models/dagrun.py]) there is one task instance per task
    ([models/taskinstance.py]), with a state, a pool and a try number.  The
    scheduler ([jobs/scheduler_job.py]) starts queued runs, lets each running
    run decide which of its task instances are ready (the trigger rules and the
    other dependencies of [ti_deps/]), marks those SCHEDULED, and moves
    scheduled task instances to QUEUED within the limits of pools, DAGs and
    tasks.  Queued task instances are handed to an executor ([executors/]),
    which runs a command per task and reports events.  The command checks the
    dependencies once more, sets the task instance to RUNNING, runs the task and
    handles its success, failure, retry or reschedule; the job that watches it
    ([jobs/local_task_job.py]) schedules its child tasks.  A backfill
    ([jobs/backfill_job.py]) runs a range of dates without the scheduler.  DAG
    files are parsed in processes of their own ([dag_processing/]), and the
    scheduler reads the DAGs in their serialized form ([serialization/]).  All
    parts communicate through the rows of the metadata database.

    ** The files

    - [Prelude] (this file): exceptions and the error monad, loops with their
      invariants, filters, counts and sums over rows, Python's stable sort, the
      tactics [bool_to_prop] and [case_ifs], the hint database [airflow].
    - [State]: the enumerations of [utils/state.py], [utils/trigger_rule.py],
      [utils/weight_rule.py], [utils/types.py] and the sets of states of
      [ti_deps/dependencies_states.py].
    - [Model]: the attributes of operators, DAGs and rows, the database
      [Session] (one list of rows per table) and writing rows
      ([session.merge], [UPDATE]).
    - [Sample]: concrete data for witnesses and examples.
    - [Graph]: relatives, priority weights, topological sort of [DAG] and
      [BaseOperator], and [utils/dag_cycle_tester.py].
    - [DagBuild]: the construction of DAGs, over a heap of operators that are
      shared: [add_task], [set_upstream], [chain], the checks of arguments.
    - [Timetable]: [timetables/*.py] and the date methods of [DAG].
    - [DagRunQuery]: setters and queries of [DagRun].
    - [TaskInstance]: keys and try numbers, retries and back-off, failure,
      reschedule, clearing, the command line, [filter_for_tis].
    - [DagClear]: [partial_subset], [DAG.clear] and the queries they use.
    - [PoolSlots]: [models/pool.py].
    - [TiDeps]: [ti_deps/] and the checks of [TaskInstance] that use it.
    - [Skip]: [SkipMixin], the XComs it writes, the branching operators.
    - [DagRun]: [update_state], [schedule_tis], [verify_integrity].
    - [MarkTasks]: [api/common/experimental/mark_tasks.py].
    - [Executor]: [executors/base_executor.py]; a back end is an instance of the
      class [Backend], whose laws say what it may change.
    - [ExecutorImpl]: the sequential and the local executor as instances, the
      worker processes of the latter as a step relation, and the router
      [CeleryKubernetesExecutor].  [DebugExecutor]: the executor that runs tasks
      in its own process.
    - [Scheduler]: the critical section.  [SchedulerEvents]: executor events.
      [SchedulerRuns]: starting runs, deciding for one run, timeouts, orphans,
      clean-up.  [SchedulerCreate]: creating the runs that are due.
      [SchedulerLoop]: one iteration and the whole loop with its timers, and the
      transactions of several schedulers as a step relation.  [System]: the same
      with the transactions of workers.
    - [Backfill]: [jobs/backfill_job.py].
    - [Dict]: Python's dictionaries with string keys, for the files that follow.
    - [Serialization]: values in [serialization/serialized_objects.py];
      [SerializedDag]: operators and DAGs; [DagRoundTrip]: the round trip.
    - [DagProcessing]: [dag_processing/manager.py] and the task callbacks.
    - [Sensors]: [sensors/base.py] in both modes, the external task sensor and
      the sensors of times, week days and SQL.
    - [LocalTaskJob]: [jobs/local_task_job.py] and the heartbeat of [BaseJob].
    - [Sla]: [manage_slas] and the mail of SLA misses of [processor.py].
    - [DagTable]: the tables of serialized DAGs and of their code
      ([models/serialized_dag.py], [models/dagcode.py]).  [DagBag]:
      [models/dagbag.py] over this table: bagging, the cache, look-ups.
      [DagSync]: [bulk_write_to_db], [sync_to_db] and the rows of [DagModel].
      [DagApi]: triggering and deleting DAGs and the API of pools
      ([api/common/experimental/]).
    - [Url]: texts, dictionaries of texts and [urllib.parse].  [Connection]:
      [models/connection.py] and [models/crypto.py].  [Secrets]:
      [models/variable.py] and the backends of [secrets/].  [Config]:
      [AirflowConfigParser] of [configuration.py].  [Masker]:
      [utils/log/secrets_masker.py].

    ** What the theorems show

    - Limits (safety): the critical section never over-commits a pool, a DAG, a
      task or the executor, changes only rows that were scheduled, and leaves out
      a task instance only because of a limit that is still reached when it ends;
      starting runs respects [max_active_runs] in the same two-sided sense.
    - Decisions: the trigger-rule check is met exactly when the documented rule
      holds of the states in which the upstream tasks finished, but for
      [none_failed_or_skipped] with every upstream task skipped, which the check
      passes while it marks the task SKIPPED; states it assigns early are final;
      what a run schedules is ready; a run is marked successful exactly
      when nothing is unfinished and its leaves succeeded; a finished run is
      closed; a round leaves the rows of other runs alone.
    - Attempts: one that starts was allowed to and uses up one try, a refused one
      none; a task that always fails runs once and once per retry, and again so
      after clearing; the back-off stays within its bounds; reschedules round
      trip.
    - Executors: an invariant over all sequences of operations; priorities;
      the local executor loses no task in any interleaving of its workers, except
      that an execution may raise what the worker does not catch, which ends the
      worker without a result; its shutdown ends with a result for every task
      when no worker ended so, and otherwise waits for ever.
    - Recovery: orphans of dead schedulers are reset or adopted and those of live
      ones never touched, under the conditions that the theorem lists; late
      executor events change nothing; timeouts and clean-up.
    - Algorithms: topological sort and cycle check are correct and total; the
      optimised queries ([filter_for_tis], [slots_stats], the WHERE clause of
      clearing) agree with their specifications; timetables enumerate their
      schedule; due runs are created without violating a unique constraint.
    - The whole system: in every interleaving of the transactions of any number
      of schedulers and workers a pool, a DAG or a task exceeds its limit by at
      most what workers started without a slot reserved for it, and by nothing
      when they start queued rows only; the scheduler loop is a sequence of
      transactions of schedulers (refinement).
    - Construction and subsets: every DAG that the API builds is well formed; a
      subset keeps exactly the tasks asked for and the edges between them;
      clearing, marking and skipping change exactly the rows they should.
    - Backfill: one that ends by itself has executed every date, each in a round
      that found its run finished; one that the user ends leaves no unfinished
      run behind; a round keeps the limits.
    - Serialization: a DAG that is read back has the tasks, attributes and edges
      it had, up to what the format does not distinguish.
    - File processing: over any run of the manager a file is queued and processed
      at most once at a time, within the parallelism, and no callback request is
      lost or handed over twice; a turn raises only when a file in progress
      vanished.
    - Sensors: a sensor in poke mode ends within its timeout, or with the errors
      of the exponential back-off when that is on; without it a sensor that is
      rescheduled ends too, over all the attempts of its first try.
    - Local task jobs: callbacks run once; the mini scheduler agrees with the
      scheduler on the children of a task (equivalence).
    - SLAs: what the code counts as a miss is recorded, once; the findings say
      where this differs from the documentation.
    - DAGs in the database: bagging a DAG is all or nothing but for its sub-DAGs;
      the bag of the scheduler converges to the table of serialized DAGs
      (liveness), provided that no row is written between a read of it and the
      stamp of that read; writing DAGs leaves a row per DAG that matches its object, and
      the parser computes the same next run as the scheduler (equivalence) when the
      due run is the latest scheduled or backfill run; triggering creates exactly
      the runs asked for or raises, for an unknown DAG, a bad date, a run that
      exists or a configuration that is no JSON.
    - Settings: the URI of a connection round trips, encrypted or not; variables
      refine a dictionary whose values may be undecryptable, behind the secrets
      backends, over any sequence of operations; a section of the configuration
      agrees with its options; what was masked does not appear in the logs
      (safety), within the depth and the kinds of values that the filter looks at.

    ** Conventions, bounds and fuel

    Dates and time deltas are integers in microseconds (UTC).  Python integers
    are unbounded, so [Z] is exact; [float('inf')] is a constructor of [Slots].
    [Session.utcnow] is the time of one operation.  A query returns rows in the
    order of the table, sorted stably where it has an ORDER BY; [COUNT] and
    [SUM] are [countb] and [sumb].  The uniqueness of primary keys is a
    hypothesis of the theorems that need it ([ti_keys_unique]), and the
    operations keep it.  Loops without a structural argument have fuel: the
    topological sort one unit per task (each pass removes one), the flattening of
    relatives one more than there are tasks, the cycle check two per task,
    [iter_between] one per microsecond of its range.  The theorems about them
    show that this fuel is enough; [OutOfFuel] is a separate error.  The loops of
    the scheduler, the backfill, the file manager and the job run over a list of
    rounds that says what happens around each, so that they need no fuel; the
    loop of a sensor has one unit per poke, and [poke_sensor_ends] bounds the pokes.
    The searches through nested sub-DAGs take the depth of the recursion as fuel,
    as Python's recursion limit does.  The expansion of environment variables in
    an option has no bound in the code; its fuel is an argument of [Config], whose
    theorem holds for any.

    Rows locked by another scheduler are a predicate; what the DAG bag answers,
    how a command ends, croniter, time zones, the site's mutation hook and the
    rendering of dates are parameters.

    The JSON form of a dictionary, Fernet keys, commands, the password database
    and floating point numbers are parameters of [Connection], [Secrets] and
    [Config], with their documented laws where a theorem needs them.

    ** Not modelled

    The web server, REST API and command line, the providers, the operators and
    hooks that only call out, migrations and sessions, the Celery, Kubernetes and
    Dask executors, metrics, e-mails and the handlers of logs: they take no part in
    the decisions above, or are I/O.  The processes that parse files and run tasks,
    pipes and signals are arguments of the models that wait for them.  Of task
    groups only the edges between them are modelled, not their serialized form or
    their view; of sub-DAGs the tables and the triggering, not clearing,
    serializing and backfilling them.  Smart sensors are left out, and so are what
    users change by hand while schedulers and workers run. *)


From stdpp Require Export base decidable sets list list_numbers strings option sorting gmap.
From Stdlib Require Export ZArith Lia.
#[export] Set Default Goal Selector "!".
#[export] Set Warnings "-notation-overridden,-clear-no-such-hyp".

Declare Scope airflow_scope.
Delimit Scope airflow_scope with airflow.

(** ** Python exceptions and the error monad *)

(** The exception classes that the modelled code raises. *)
Inductive exn :=
| AirflowException
| TaskNotFound
| DuplicateTaskIdFound
| AirflowDagCycleException
| KeyError
| IndexError
| TypeError
| ValueError
| AttributeError
| ZeroDivisionError
| OverflowError
| NotImplementedError
| AssertionError
| SerializedDagNotFound
| SerializationError
| RuntimeError
| DagNotFound
| DagRunAlreadyExists
| DagRunNotFound
| AirflowSkipException
| AirflowFailException
| AirflowSensorTimeout
| AirflowRescheduleException
| AirflowConfigException
| AirflowBadRequest
| PoolNotFound
| BackfillUnfinished
| NoAvailablePoolSlot
| DagConcurrencyLimitReached
| TaskConcurrencyLimitReached
| AirflowDagDuplicatedIdException
| AirflowClusterPolicyViolation
| AirflowTimetableInvalid
| DagCodeNotFound
| AirflowNotFoundException
| AirflowFileParseException
| ConnectionNotUnique
| NoOptionError                 (* also for a missing section *)
| InvalidToken                  (* of the cryptography package *)
| DBAPIError                    (* the database refuses the statement *)
| OutOfFuel.                    (* not an exception: the fuel of a loop ran out *)

#[export] Instance exn_eq_dec : EqDecision exn.
Proof. solve_decision. Defined.

Inductive result (A : Type) :=
| Ok (a : A)
| Err (e : exn).
Arguments Ok {A} a.
Arguments Err {A} e.

#[export] Instance result_ret : MRet result := λ A a, Ok a.
#[export] Instance result_bind : MBind result := λ A B f m,
  match m with Ok a => f a | Err e => Err e end.
#[export] Instance result_fmap : FMap result := λ A B f m,
  match m with Ok a => Ok (f a) | Err e => Err e end.

Definition is_ok {A} (m : result A) : bool :=
  match m with Ok _ => true | Err _ => false end.

Lemma result_bind_ok {A B} (m : result A) (f : A → result B) b :
  m ≫= f = Ok b ↔ ∃ a, m = Ok a ∧ f a = Ok b.
Proof. destruct m as [a|e]; simpl; naive_solver. Qed.

Lemma result_fmap_ok {A B} (m : result A) (f : A → B) b :
  f <$> m = Ok b ↔ ∃ a, m = Ok a ∧ f a = b.
Proof. destruct m as [a|e]; simpl; naive_solver. Qed.

(** A Python [for] loop that threads a state and may raise. *)
Fixpoint foldM {A S} (f : S → A → result S) (l : list A) (s : S) : result S :=
  match l with
  | [] => Ok s
  | x :: l => s' ← f s x; foldM f l s'
  end.

Lemma foldM_app {A S} (f : S → A → result S) l1 l2 s :
  foldM f (l1 ++ l2) s = (s' ← foldM f l1 s; foldM f l2 s').
Proof.
  revert s; induction l1 as [|x l1 IH]; intros s; simpl; [done|].
  destruct (f s x); simpl; [apply IH|done].
Qed.

(** Loop invariants: a predicate that every iteration keeps holds at the end. *)
Lemma foldM_invariant {A S} (I : S → Prop) (f : S → A → result S) l s s' :
  (∀ x a b, x ∈ l → I a → f a x = Ok b → I b) →
  I s → foldM f l s = Ok s' → I s'.
Proof.
  revert s; induction l as [|x l IH]; simpl; intros s Hf Hs Hl; [naive_solver|].
  apply result_bind_ok in Hl as (a & Ha & Hl).
  eapply IH; [|eapply Hf; [left|exact Hs|exact Ha]|exact Hl].
  intros y; intros; eapply Hf; [right| |]; eauto.
Qed.

(** The outcome of a loop that keeps an invariant and raises only some
    exceptions. *)
Definition outcome {A} (P : A → Prop) (E : exn → Prop) (m : result A) : Prop :=
  match m with Ok a => P a | Err e => E e end.

Lemma outcome_bind {A B} (P : A → Prop) (Q : B → Prop) E (m : result A) (f : A → result B) :
  outcome P E m → (∀ a, P a → outcome Q E (f a)) → outcome Q E (m ≫= f).
Proof. destruct m; simpl; auto. Qed.

Lemma foldM_outcome {A S} (I : S → Prop) E (f : S → A → result S) l s :
  (∀ x a, x ∈ l → I a → outcome I E (f a x)) → I s → outcome I E (foldM f l s).
Proof.
  revert s; induction l as [|x l IH]; simpl; intros s Hf Hs; [done|].
  eapply outcome_bind; [apply Hf; [left|done]|]. intros a Ha. apply IH; [|done].
  intros y b Hy; apply Hf; by right.
Qed.

Lemma foldl_invariant {A S} (I : S → Prop) (f : S → A → S) l s :
  (∀ x a, x ∈ l → I a → I (f a x)) → I s → I (foldl f s l).
Proof.
  revert s; induction l as [|x l IH]; simpl; intros s Hf Hs; [done|].
  apply IH; [intros y a Hy; apply Hf; by right|apply Hf; [left|done]].
Qed.

(** ** Queries: boolean filters over rows *)

(** [x in l], decided. *)
Notation "x ∈? l" := (bool_decide (x ∈ l)) (at level 70, no associativity) : airflow_scope.
(** [x == y], decided. *)
Notation "x ≟ y" := (bool_decide (x = y)) (at level 70, no associativity) : airflow_scope.
Open Scope airflow_scope.

Lemma elem_of_filterb {A} (f : A → bool) l x :
  x ∈ List.filter f l ↔ f x = true ∧ x ∈ l.
Proof. rewrite !list_elem_of_In, filter_In. tauto. Qed.

Lemma filterb_all {A} (f : A → bool) l :
  (∀ x, x ∈ l → f x = true) → List.filter f l = l.
Proof.
  induction l as [|x l IH]; simpl; intros Hf; [done|].
  rewrite (Hf x) by left. f_equal. apply IH. intros y Hy; apply Hf; by right.
Qed.

Lemma filterb_none {A} (f : A → bool) l :
  (∀ x, x ∈ l → f x = false) → List.filter f l = [].
Proof.
  induction l as [|x l IH]; simpl; intros Hf; [done|].
  rewrite (Hf x) by left. apply IH. intros y Hy; apply Hf; by right.
Qed.

#[export] Instance filterb_Permutation {A} (f : A → bool) :
  Proper ((≡ₚ) ==> (≡ₚ)) (List.filter f).
Proof.
  induction 1 as [|x l l' Hl IH|x y l|l1 l2 l3 H1 IH1 H2 IH2]; simpl.
  - done.
  - destruct (f x); [by rewrite IH|done].
  - destruct (f x), (f y); try done. apply Permutation_swap.
  - by rewrite IH1.
Qed.

Lemma filter_filterb {A} (f g : A → bool) l : List.filter g (List.filter f l) = List.filter (λ x, f x && g x) l.
Proof.
  induction l as [|x l IH]; [done|]. cbn [List.filter]. destruct (f x); cbn [List.filter andb]; by rewrite IH.
Qed.

Lemma filterb_sublist {A} (f : A → bool) l : List.filter f l `sublist_of` l.
Proof. induction l as [|x l IH]; simpl; [done|]. destruct (f x); by constructor. Qed.

(** Keys that are unique stay unique under a filter. *)
Lemma NoDup_fmap_filterb {A B} (g : A → B) (f : A → bool) l :
  NoDup (g <$> l) → NoDup (g <$> List.filter f l).
Proof.
  induction l as [|x l IH]; intros Hl; [constructor|].
  rewrite fmap_cons in Hl. apply NoDup_cons in Hl as [Hx Hl]. cbn [List.filter].
  destruct (f x); [|by apply IH]. rewrite fmap_cons. apply NoDup_cons. split; [|by apply IH].
  intros (y & Hy & [_ Hin]%elem_of_filterb)%list_elem_of_fmap. apply Hx. rewrite Hy.
  apply list_elem_of_fmap. eauto.
Qed.

Lemma existsb_elem {A} (f : A → bool) l :
  existsb f l = true ↔ ∃ x, x ∈ l ∧ f x = true.
Proof. rewrite existsb_exists. by setoid_rewrite list_elem_of_In. Qed.

Lemma existsb_false_elem {A} (f : A → bool) l :
  existsb f l = false ↔ ∀ x, x ∈ l → f x = false.
Proof.
  induction l as [|x l IH]; simpl; [split; [by intros _ ? ?%elem_of_nil|done]|].
  rewrite orb_false_iff, IH. setoid_rewrite elem_of_cons. naive_solver.
Qed.

Lemma forallb_elem {A} (f : A → bool) l :
  forallb f l = true ↔ ∀ x, x ∈ l → f x = true.
Proof. rewrite forallb_forall. by setoid_rewrite list_elem_of_In. Qed.

Lemma forallb_ext_elem {A} (f g : A → bool) l :
  (∀ x, x ∈ l → f x = g x) → forallb f l = forallb g l.
Proof.
  induction l as [|x l IH]; intros H; [done|]. cbn. rewrite (H x) by left. f_equal. apply IH. intros y Hy. apply H. by right.
Qed.

(** The size of the rows a predicate selects, as [COUNT( * )] returns it. *)
Definition countb {A} (f : A → bool) (l : list A) : Z := Z.of_nat (length (List.filter f l)).

(** [SUM(g)] over the rows a predicate selects; 0 when there is none. *)
Definition sumb {A} (f : A → bool) (g : A → Z) (l : list A) : Z :=
  foldr (λ x acc, if f x then g x + acc else acc)%Z 0%Z l.

Section Counting.
Context {A : Type}.
Implicit Types (f : A → bool) (g : A → Z) (l : list A).
Local Open Scope Z_scope.

Lemma countb_nonneg f l : 0 ≤ countb f l.
Proof. unfold countb. lia. Qed.

Lemma countb_cons f x l : countb f (x :: l) = (if f x then 1 else 0) + countb f l.
Proof. unfold countb; simpl. destruct (f x); simpl; lia. Qed.

Lemma countb_nil f : countb f [] = 0.
Proof. done. Qed.

Lemma countb_app f l1 l2 : countb f (l1 ++ l2) = countb f l1 + countb f l2.
Proof. unfold countb. rewrite List.filter_app, length_app. lia. Qed.

Lemma countb_le_length f l : countb f l ≤ Z.of_nat (length l).
Proof. unfold countb. pose proof (List.filter_length_le f l). lia. Qed.

Lemma countb_ext f1 f2 l : (∀ x, x ∈ l → f1 x = f2 x) → countb f1 l = countb f2 l.
Proof.
  induction l as [|x l IH]; intros Hf; [done|]. rewrite !countb_cons.
  rewrite (Hf x) by left. rewrite IH; [done|]. intros y Hy; apply Hf; by right.
Qed.

Lemma countb_le f1 f2 l :
  (∀ x, x ∈ l → f1 x = true → f2 x = true) → countb f1 l ≤ countb f2 l.
Proof.
  induction l as [|x l IH]; intros Hf; [done|]. rewrite !countb_cons.
  assert (countb f1 l ≤ countb f2 l) by (apply IH; intros y Hy; apply Hf; by right).
  specialize (Hf x ltac:(left)). destruct (f1 x), (f2 x); try lia; naive_solver.
Qed.

Lemma countb_zero f l : countb f l = 0 ↔ ∀ x, x ∈ l → f x = false.
Proof.
  induction l as [|x l IH]; [split; [by intros _ ? ?%elem_of_nil|done]|].
  rewrite countb_cons. setoid_rewrite elem_of_cons. pose proof (countb_nonneg f l).
  destruct (f x) eqn:E; split; intros HH.
  - lia.
  - exfalso. specialize (HH x (or_introl eq_refl)). congruence.
  - intros y [->|Hy]; [done|]. apply IH; [lia|done].
  - assert (countb f l = 0) by (apply IH; naive_solver). lia.
Qed.

Lemma countb_pos f l : 0 < countb f l ↔ ∃ x, x ∈ l ∧ f x = true.
Proof.
  pose proof (countb_nonneg f l) as Hn. split.
  - intros Hp. apply existsb_elem. destruct (existsb f l) eqn:E; [done|].
    rewrite existsb_false_elem in E. apply countb_zero in E. lia.
  - intros (x & Hx & Hf). destruct (decide (countb f l = 0)) as [H0|]; [|lia].
    rewrite countb_zero in H0. rewrite H0 in Hf; done.
Qed.

(** Disjoint predicates split a count. *)
Lemma countb_split f1 f2 l :
  (∀ x, x ∈ l → f1 x = true → f2 x = true → False) →
  countb (λ x, f1 x || f2 x) l = countb f1 l + countb f2 l.
Proof.
  induction l as [|x l IH]; intros Hd; [done|]. rewrite !countb_cons, IH.
  - specialize (Hd x ltac:(left)). destruct (f1 x), (f2 x); simpl; try lia; naive_solver.
  - intros y Hy; apply Hd; by right.
Qed.

Lemma countb_all f l : Z.of_nat (length l) ≤ countb f l ↔ ∀ x, x ∈ l → f x = true.
Proof.
  induction l as [|x l IH]; [split; [by intros _ ? ?%elem_of_nil|done]|].
  rewrite countb_cons. setoid_rewrite elem_of_cons. pose proof (countb_le_length f l).
  cbn [length]. destruct (f x) eqn:E; split; intros HH.
  - intros y [->|Hy]; [done|]. apply IH; [lia|done].
  - assert (Z.of_nat (length l) ≤ countb f l) by (apply IH; intros y Hy; apply HH; by right). lia.
  - exfalso. lia.
  - specialize (HH x (or_introl eq_refl)). congruence.
Qed.

Lemma countb_fmap {B} (h : B → A) f (l : list B) : countb f (h <$> l) = countb (λ x, f (h x)) l.
Proof.
  unfold countb. f_equal. induction l as [|x l IH]; [done|].
  rewrite fmap_cons. cbn [List.filter]. destruct (f (h x)); cbn [length]; by rewrite IH.
Qed.

Lemma countb_filter f1 f2 l : countb f1 (List.filter f2 l) = countb (λ x, f2 x && f1 x) l.
Proof.
  induction l as [|x l IH]; [done|]. rewrite countb_cons. cbn [List.filter].
  destruct (f2 x); [rewrite countb_cons|]; simpl; lia.
Qed.

Lemma sumb_nil f g : sumb (A:=A) f g [] = 0.
Proof. done. Qed.

Lemma sumb_cons f g x l : sumb f g (x :: l) = (if f x then g x else 0) + sumb f g l.
Proof. simpl. destruct (f x); lia. Qed.

Lemma sumb_nonneg f g l : (∀ x, x ∈ l → f x = true → 0 ≤ g x) → 0 ≤ sumb f g l.
Proof.
  induction l as [|x l IH]; intros Hg; [done|]. rewrite sumb_cons.
  assert (0 ≤ sumb f g l) by (apply IH; intros y Hy; apply Hg; by right).
  specialize (Hg x ltac:(left)). destruct (f x); [specialize (Hg eq_refl)|]; lia.
Qed.

Lemma sumb_ext f1 f2 g1 g2 l :
  (∀ x, x ∈ l → f1 x = f2 x) → (∀ x, x ∈ l → f1 x = true → g1 x = g2 x) →
  sumb f1 g1 l = sumb f2 g2 l.
Proof.
  induction l as [|x l IH]; intros Hf Hg; [done|]. rewrite !sumb_cons.
  rewrite IH by (intros y Hy; first [apply Hf|apply Hg]; by right).
  rewrite <-(Hf x) by left. destruct (f1 x) eqn:E; [|done].
  by rewrite (Hg x ltac:(left) E).
Qed.

Lemma sumb_split f1 f2 g l :
  (∀ x, x ∈ l → f1 x = true → f2 x = true → False) →
  sumb (λ x, f1 x || f2 x) g l = sumb f1 g l + sumb f2 g l.
Proof.
  induction l as [|x l IH]; intros Hd; [done|]. rewrite !sumb_cons, IH.
  - specialize (Hd x ltac:(left)). destruct (f1 x), (f2 x); simpl; try lia; naive_solver.
  - intros y Hy; apply Hd; by right.
Qed.

Lemma sumb_app f g l1 l2 : sumb f g (l1 ++ l2) = sumb f g l1 + sumb f g l2.
Proof. induction l1 as [|x l1 IH]; [done|]. cbn [app]. rewrite !sumb_cons, IH. lia. Qed.

Lemma sumb_filter f1 f2 g l : sumb f1 g (List.filter f2 l) = sumb (λ x, f2 x && f1 x) g l.
Proof.
  induction l as [|x l IH]; [done|]. rewrite sumb_cons. cbn [List.filter].
  destruct (f2 x); [rewrite sumb_cons|]; simpl; lia.
Qed.

Lemma sumb_none f g l : (∀ x, x ∈ l → f x = false) → sumb f g l = 0.
Proof.
  induction l as [|x l IH]; intros Hf; [done|]. rewrite sumb_cons, (Hf x) by left.
  rewrite IH; [done|]. intros y Hy; apply Hf; by right.
Qed.

#[export] Instance sumb_Permutation f g : Proper ((≡ₚ) ==> (=)) (sumb f g).
Proof. induction 1; rewrite ?sumb_cons; lia. Qed.

Lemma countb_sumb f l : countb f l = sumb f (λ _, 1) l.
Proof. induction l as [|x l IH]; [done|]. by rewrite countb_cons, sumb_cons, IH. Qed.
End Counting.

(** ** Python's stable [sorted] *)

Section Sorted.
Context {A : Type} (leb : A → A → bool).

Fixpoint insert_sorted (x : A) (l : list A) : list A :=
  match l with
  | [] => [x]
  | y :: l' => if leb x y then x :: y :: l' else y :: insert_sorted x l'
  end.

(** [sorted(l, key=...)] where [leb x y] is [key x <= key y]; elements with
    equal keys keep their relative order. *)
Definition py_sorted (l : list A) : list A := foldr insert_sorted [] l.

Lemma insert_sorted_Permutation x l : insert_sorted x l ≡ₚ x :: l.
Proof.
  induction l as [|y l IH]; simpl; [done|].
  destruct (leb x y); [done|]. by rewrite IH, Permutation_swap.
Qed.

Lemma py_sorted_Permutation l : py_sorted l ≡ₚ l.
Proof.
  induction l as [|x l IH]; simpl; [done|].
  by rewrite insert_sorted_Permutation, IH.
Qed.

Lemma elem_of_py_sorted x l : x ∈ py_sorted l ↔ x ∈ l.
Proof. by rewrite py_sorted_Permutation. Qed.

Lemma length_py_sorted l : length (py_sorted l) = length l.
Proof. by rewrite py_sorted_Permutation. Qed.

Context (leb_total : ∀ x y, leb x y = true ∨ leb y x = true)
        (leb_trans : ∀ x y z, leb x y = true → leb y z = true → leb x z = true).

Lemma insert_sorted_StronglySorted x l :
  StronglySorted (λ a b, leb a b = true) l →
  StronglySorted (λ a b, leb a b = true) (insert_sorted x l).
Proof.
  induction 1 as [|y l Hl IH Hy]; simpl; [by repeat constructor|].
  destruct (leb x y) eqn:E.
  - constructor; [by constructor|]. constructor; [done|].
    eapply Forall_impl; [exact Hy|]. intros z; simpl; by apply leb_trans.
  - constructor; [done|]. rewrite insert_sorted_Permutation.
    constructor; [|done]. destruct (leb_total x y); congruence.
Qed.

Lemma py_sorted_StronglySorted l :
  StronglySorted (λ a b, leb a b = true) (py_sorted l).
Proof.
  induction l as [|x l IH]; simpl; [constructor|].
  by apply insert_sorted_StronglySorted.
Qed.

(** Stability: the elements that tie with a given one stay in input order. *)
Definition ties (x y : A) : bool := leb x y && leb y x.

Lemma insert_sorted_stable z x l :
  StronglySorted (λ a b, leb a b = true) l →
  List.filter (ties z) (insert_sorted x l) = List.filter (ties z) (x :: l).
Proof.
  induction 1 as [|y l Hl IH Hy]; simpl; [done|].
  destruct (leb x y) eqn:E; [done|]. simpl. rewrite IH. simpl.
  destruct (ties z x) eqn:Ex, (ties z y) eqn:Ey; try done. exfalso.
  unfold ties in *. apply andb_true_iff in Ex as [? ?], Ey as [? ?].
  rewrite (leb_trans x z y) in E; done.
Qed.

Lemma py_sorted_stable z l :
  List.filter (ties z) (py_sorted l) = List.filter (ties z) l.
Proof.
  induction l as [|x l IH]; simpl; [done|].
  rewrite insert_sorted_stable by apply py_sorted_StronglySorted.
  simpl. by rewrite IH.
Qed.
End Sorted.

(** ** Proof automation *)

Create HintDb airflow discriminated.
Create Rewrite HintDb airflow.
#[export] Hint Resolve countb_nonneg countb_le_length : airflow.
#[export] Hint Rewrite @elem_of_filterb @existsb_elem @forallb_elem @elem_of_py_sorted
  @length_py_sorted @countb_cons @countb_nil @countb_app : airflow.

(** Turn boolean equations over [&&], [||], [negb] and [bool_decide] into
    propositions. *)
Ltac bool_to_prop :=
  repeat match goal with
  | H : _ && _ = true |- _ => apply andb_true_iff in H as [? ?]
  | H : _ || _ = false |- _ => apply orb_false_iff in H as [? ?]
  | H : _ && _ = false |- _ => apply andb_false_iff in H
  | H : _ || _ = true |- _ => apply orb_true_iff in H
  | H : negb _ = true |- _ => apply negb_true_iff in H
  | H : negb _ = false |- _ => apply negb_false_iff in H
  | H : (_ <=? _)%Z = true |- _ => apply Z.leb_le in H
  | H : (_ <=? _)%Z = false |- _ => apply Z.leb_gt in H
  | H : (_ <? _)%Z = true |- _ => apply Z.ltb_lt in H
  | H : (_ <? _)%Z = false |- _ => apply Z.ltb_ge in H
  | H : (_ =? _)%Z = true |- _ => apply Z.eqb_eq in H
  | H : (_ =? _)%Z = false |- _ => apply Z.eqb_neq in H
  | H : bool_decide _ = true |- _ => apply bool_decide_eq_true in H
  | H : bool_decide _ = false |- _ => apply bool_decide_eq_false in H
  end.

(** Split every conditional on a boolean in the goal. *)
Ltac case_ifs :=
  repeat match goal with
  | |- context [if ?b then _ else _] => destruct b eqn:?
  end.
