(* ===== verification/State.v ===== *)
(** * State: task-instance and dag-run states, trigger, weight and run types

    The enumerations of [airflow/utils/state.py], [utils/trigger_rule.py],
    [utils/weight_rule.py] and [utils/types.py], and the state sets of
    [ti_deps/dependencies_states.py].  A task instance's state column is
    [option TaskInstanceState]; [None] is the SQL NULL that the code calls
    [State.NONE]. *)

From S2P Require Import Prelude.

(** ** Enumerations *)

Inductive TaskInstanceState :=
| REMOVED | SCHEDULED | QUEUED | RUNNING | SUCCESS | SHUTDOWN | RESTARTING
| FAILED | UP_FOR_RETRY | UP_FOR_RESCHEDULE | UPSTREAM_FAILED | SKIPPED | SENSING.

#[export] Instance TaskInstanceState_eq_dec : EqDecision TaskInstanceState.
Proof. solve_decision. Defined.

(** The string each member of the enumeration carries. *)
Definition TaskInstanceState_value (s : TaskInstanceState) : string :=
  match s with
  | REMOVED => "removed" | SCHEDULED => "scheduled" | QUEUED => "queued"
  | RUNNING => "running" | SUCCESS => "success" | SHUTDOWN => "shutdown"
  | RESTARTING => "restarting" | FAILED => "failed" | UP_FOR_RETRY => "up_for_retry"
  | UP_FOR_RESCHEDULE => "up_for_reschedule" | UPSTREAM_FAILED => "upstream_failed"
  | SKIPPED => "skipped" | SENSING => "sensing"
  end.

(** [tuple(TaskInstanceState)], in declaration order. *)
Definition all_TaskInstanceState : list TaskInstanceState :=
  [REMOVED; SCHEDULED; QUEUED; RUNNING; SUCCESS; SHUTDOWN; RESTARTING; FAILED;
   UP_FOR_RETRY; UP_FOR_RESCHEDULE; UPSTREAM_FAILED; SKIPPED; SENSING].

(** The members of [DagRunState]; the code compares them with the members of
    the same name of [TaskInstanceState], both being strings. *)
Inductive DagRunState := DR_QUEUED | DR_RUNNING | DR_SUCCESS | DR_FAILED.

#[export] Instance DagRunState_eq_dec : EqDecision DagRunState.
Proof. solve_decision. Defined.

Definition DagRunState_value (s : DagRunState) : string :=
  match s with
  | DR_QUEUED => "queued" | DR_RUNNING => "running"
  | DR_SUCCESS => "success" | DR_FAILED => "failed"
  end.

(** The task-instance state a dag-run state equals as a string. *)
Definition DagRunState_as_ti (s : DagRunState) : TaskInstanceState :=
  match s with
  | DR_QUEUED => QUEUED | DR_RUNNING => RUNNING
  | DR_SUCCESS => SUCCESS | DR_FAILED => FAILED
  end.

Module State.

Definition task_states : list (option TaskInstanceState) :=
  None :: (Some <$> all_TaskInstanceState).

Definition dag_states : list DagRunState := [DR_QUEUED; DR_SUCCESS; DR_RUNNING; DR_FAILED].

(** [state_color], before the site's [STATE_COLORS] overrides are applied. *)
Definition state_color (s : option TaskInstanceState) : string :=
  match s with
  | None => "lightblue"
  | Some QUEUED => "gray" | Some RUNNING => "lime" | Some SUCCESS => "green"
  | Some SHUTDOWN => "blue" | Some RESTARTING => "violet" | Some FAILED => "red"
  | Some UP_FOR_RETRY => "gold" | Some UP_FOR_RESCHEDULE => "turquoise"
  | Some UPSTREAM_FAILED => "orange" | Some SKIPPED => "pink"
  | Some REMOVED => "lightgrey" | Some SCHEDULED => "tan"
  | Some SENSING => "lightseagreen"
  end.

(** [color] with the overrides of [settings.STATE_COLORS]. *)
Definition color (overrides : list (option TaskInstanceState * string))
    (s : option TaskInstanceState) : string :=
  match List.find (λ p, p.1 ≟ s) (rev overrides) with
  | Some (_, c) => c
  | None => state_color s
  end.

Definition color_fg (overrides : list (option TaskInstanceState * string))
    (s : option TaskInstanceState) : string :=
  if color overrides s ∈? ["green"; "red"] then "white" else "black".

Definition running : list (option TaskInstanceState) := [Some RUNNING; Some SENSING].

Definition finished : list (option TaskInstanceState) :=
  [Some SUCCESS; Some FAILED; Some SKIPPED; Some UPSTREAM_FAILED].

Definition unfinished : list (option TaskInstanceState) :=
  [None; Some SCHEDULED; Some QUEUED; Some RUNNING; Some SENSING; Some SHUTDOWN;
   Some RESTARTING; Some UP_FOR_RETRY; Some UP_FOR_RESCHEDULE].

Definition failed_states : list (option TaskInstanceState) :=
  [Some FAILED; Some UPSTREAM_FAILED].

Definition success_states : list (option TaskInstanceState) :=
  [Some SUCCESS; Some SKIPPED].

Definition terminating_states : list (option TaskInstanceState) :=
  [Some SHUTDOWN; Some RESTARTING].

End State.

(** ** Trigger rules, weight rules, run types *)

Inductive TriggerRule :=
| ALL_SUCCESS | ALL_FAILED | ALL_DONE | ONE_SUCCESS | ONE_FAILED
| NONE_FAILED | NONE_FAILED_OR_SKIPPED | NONE_SKIPPED | DUMMY | ALWAYS.

#[export] Instance TriggerRule_eq_dec : EqDecision TriggerRule.
Proof. solve_decision. Defined.

Definition TriggerRule_value (r : TriggerRule) : string :=
  match r with
  | ALL_SUCCESS => "all_success" | ALL_FAILED => "all_failed" | ALL_DONE => "all_done"
  | ONE_SUCCESS => "one_success" | ONE_FAILED => "one_failed"
  | NONE_FAILED => "none_failed" | NONE_FAILED_OR_SKIPPED => "none_failed_or_skipped"
  | NONE_SKIPPED => "none_skipped" | DUMMY => "dummy" | ALWAYS => "always"
  end.

Definition all_triggers : list string :=
  TriggerRule_value <$>
    [ALL_SUCCESS; ALL_FAILED; ALL_DONE; ONE_SUCCESS; ONE_FAILED; NONE_FAILED;
     NONE_FAILED_OR_SKIPPED; NONE_SKIPPED; DUMMY; ALWAYS].

Definition TriggerRule_is_valid (trigger_rule : string) : bool := trigger_rule ∈? all_triggers.

Inductive WeightRule := DOWNSTREAM | UPSTREAM | ABSOLUTE.

#[export] Instance WeightRule_eq_dec : EqDecision WeightRule.
Proof. solve_decision. Defined.

Definition WeightRule_value (r : WeightRule) : string :=
  match r with DOWNSTREAM => "downstream" | UPSTREAM => "upstream" | ABSOLUTE => "absolute" end.

Definition all_weight_rules : list string :=
  WeightRule_value <$> [DOWNSTREAM; UPSTREAM; ABSOLUTE].

Definition WeightRule_is_valid (weight_rule : string) : bool := weight_rule ∈? all_weight_rules.

Inductive DagRunType := BACKFILL_JOB | DRT_SCHEDULED | MANUAL.

#[export] Instance DagRunType_eq_dec : EqDecision DagRunType.
Proof. solve_decision. Defined.

Definition DagRunType_value (t : DagRunType) : string :=
  match t with BACKFILL_JOB => "backfill" | DRT_SCHEDULED => "scheduled" | MANUAL => "manual" end.

(** [run_id.startswith(prefix)]. *)
Definition startswith (prefix s : string) : bool := String.prefix prefix s.

(** [DagRunType.from_run_id]; an empty or missing run id is falsy. *)
Definition from_run_id (run_id : string) : DagRunType :=
  match List.find
          (λ t, negb (run_id ≟ "") && startswith (DagRunType_value t +:+ "__") run_id)
          [BACKFILL_JOB; DRT_SCHEDULED; MANUAL] with
  | Some t => t
  | None => MANUAL
  end.

(** [DagRun.generate_run_id]; [isoformat] is the rendering of the date. *)
Definition generate_run_id (run_type : DagRunType) (isoformat : string) : string :=
  DagRunType_value run_type +:+ "__" +:+ isoformat.

(** ** State sets of the dependency checks *)

Definition EXECUTION_STATES : list (option TaskInstanceState) := [Some RUNNING; Some QUEUED].

Definition SCHEDULEABLE_STATES : list (option TaskInstanceState) :=
  [None; Some UP_FOR_RETRY; Some UP_FOR_RESCHEDULE].

Definition RUNNABLE_STATES : list (option TaskInstanceState) :=
  [None; Some UP_FOR_RETRY; Some UP_FOR_RESCHEDULE; Some QUEUED].

Definition QUEUEABLE_STATES : list (option TaskInstanceState) := [Some SCHEDULED].

Definition BACKFILL_QUEUEABLE_STATES : list (option TaskInstanceState) :=
  [None; Some UP_FOR_RESCHEDULE; Some UP_FOR_RETRY; Some SCHEDULED].

(** ** Facts *)

(** Finished and unfinished states split all states but [REMOVED], and the
    finished ones split into failed and successful ones. *)
Lemma finished_unfinished_partition s :
  s ≠ Some REMOVED →
  (s ∈? State.finished) = negb (s ∈? State.unfinished)
  ∧ (s ∈? State.finished) = ((s ∈? State.failed_states) || (s ∈? State.success_states))
  ∧ (s ∈? State.failed_states) && (s ∈? State.success_states) = false.
Proof. destruct s as [[]|]; done. Qed.

Lemma scheduleable_unfinished s : s ∈ SCHEDULEABLE_STATES → s ∈ State.unfinished.
Proof. unfold SCHEDULEABLE_STATES, State.unfinished. set_solver. Qed.

Lemma finished_not_scheduleable s : s ∈ State.finished → s ∉ SCHEDULEABLE_STATES.
Proof. unfold SCHEDULEABLE_STATES, State.finished. set_solver. Qed.

Lemma startswith_app p s : startswith p (p +:+ s) = true.
Proof.
  unfold startswith. induction p as [|c p IH]; [by destruct s|].
  simpl. destruct (Ascii.ascii_dec c c); [exact IH|done].
Qed.

(** The run type can be read back from a generated run id. *)
Lemma from_generate_run_id t iso : from_run_id (generate_run_id t iso) = t.
Proof. destruct t, iso; reflexivity. Qed.

#[export] Hint Resolve scheduleable_unfinished finished_not_scheduleable : airflow.
