(* ===== verification/Model.v ===== *)
(** * Model: operators, DAGs and the metadata database

    The attributes of [BaseOperator], [DAG], [TaskInstance], [DagRun],
    [DagModel], [Pool], [TaskReschedule] and [XCom] that the modelled code
    reads or writes, and the database [Session] as one list of rows per table,
    in the order in which an unordered query returns them.

    Dates are integers: microseconds since the epoch, in UTC.  Time deltas are
    microseconds.  [Session.utcnow] is what [timezone.utcnow()] returns during
    one operation. *)

From S2P Require Import Prelude State.

Abbreviation datetime := Z (only parsing).
Abbreviation timedelta := Z (only parsing).

(** ** Dependencies a task instance is checked against *)

(** One constructor per subclass of [BaseTIDep].  [ValidStateDep] carries its
    [_valid_states]. *)
Inductive TIDep :=
| RunnableExecDateDep
| ValidStateDep (valid_states : list (option TaskInstanceState))
| DagTISlotsAvailableDep
| TaskConcurrencyDep
| PoolSlotsAvailableDep
| DagrunRunningDep
| DagrunIdDep
| DagUnpausedDep
| ExecDateAfterStartDateDep
| TaskNotRunningDep
| NotInRetryPeriodDep
| PrevDagrunDep
| TriggerRuleDep
| NotPreviouslySkippedDep
| ReadyToRescheduleDep.

#[export] Instance TIDep_eq_dec : EqDecision TIDep.
Proof. solve_decision. Defined.

(** ** Operators and DAGs *)

Record BaseOperator := {
  task_id : string;
  task_type : string;
  retries : Z;
  retry_delay : timedelta;
  retry_exponential_backoff : bool;
  max_retry_delay : option timedelta;
  op_start_date : option datetime;
  op_end_date : option datetime;
  depends_on_past : bool;
  wait_for_downstream : bool;
  trigger_rule : TriggerRule;
  op_priority_weight : Z;
  weight_rule : WeightRule;
  op_queue : string;
  op_pool : string;
  op_pool_slots : Z;
  task_concurrency : option Z;
  on_execute_callback : bool;   (* whether the callback is set *)
  on_success_callback : bool;
  inherits_from_dummy_operator : bool;
  is_SkipMixin : bool;          (* isinstance(self, SkipMixin) *)
  op_executor_config : string;
  deps : list TIDep;
  upstream_task_ids : list string;
  downstream_task_ids : list string;
}.

(** [schedule_interval]: [None], a cron expression or preset, or a delta. *)
Inductive ScheduleInterval :=
| ScheduleCron (expression : string)
| ScheduleDelta (delta : timedelta).

Record DAG := {
  dag_id : string;
  task_dict : list BaseOperator;      (* in insertion order, keyed by task_id *)
  schedule_interval : option ScheduleInterval;
  dag_start_date : option datetime;
  dag_end_date : option datetime;
  catchup : bool;
  max_active_tasks : Z;
  max_active_runs : Z;
  partial : bool;
  fileloc : string;
  has_on_success_callback : bool;
  has_on_failure_callback : bool;
  dagrun_timeout : option timedelta;
}.

(** [DAG.has_task] and [DAG.get_task] (with [include_subdags] false). *)
Definition has_task (dag : DAG) (tid : string) : bool :=
  existsb (λ t, task_id t ≟ tid) (task_dict dag).

Definition lookup_task (dag : DAG) (tid : string) : option BaseOperator :=
  List.find (λ t, task_id t ≟ tid) (task_dict dag).

Definition get_task (dag : DAG) (tid : string) : result BaseOperator :=
  match lookup_task dag tid with
  | Some t => Ok t
  | None => Err TaskNotFound
  end.

Definition task_ids (dag : DAG) : list string := task_id <$> task_dict dag.

(** [[self.dag.get_task(tid) for tid in ids]]. *)
Fixpoint get_tasks (dag : DAG) (ids : list string) : result (list BaseOperator) :=
  match ids with
  | [] => Ok []
  | tid :: ids => t ← get_task dag tid; ts ← get_tasks dag ids; Ok (t :: ts)
  end.

Definition upstream_list (dag : DAG) (t : BaseOperator) : result (list BaseOperator) :=
  get_tasks dag (upstream_task_ids t).

Definition downstream_list (dag : DAG) (t : BaseOperator) : result (list BaseOperator) :=
  get_tasks dag (downstream_task_ids t).

(** ** Rows *)

Module TI.
Record TaskInstance := mk {
  task_id : string;
  dag_id : string;
  execution_date : datetime;
  start_date : option datetime;
  end_date : option datetime;
  duration : option timedelta;
  state : option TaskInstanceState;
  _try_number : Z;
  max_tries : Z;
  hostname : string;
  job_id : option Z;
  pool : string;
  pool_slots : Z;
  queue : string;
  priority_weight : Z;
  operator : string;
  queued_dttm : option datetime;
  queued_by_job_id : option Z;
  pid : option Z;
  executor_config : string;
  external_executor_id : option string;
}.

Definition set_state (v : option TaskInstanceState) (t : TaskInstance) : TaskInstance :=
  mk (task_id t) (dag_id t) (execution_date t) (start_date t) (end_date t) (duration t) v
     (_try_number t) (max_tries t) (hostname t) (job_id t) (pool t) (pool_slots t) (queue t)
     (priority_weight t) (operator t) (queued_dttm t) (queued_by_job_id t) (pid t)
     (executor_config t) (external_executor_id t).

Definition set_dates (sd ed : option datetime) (dur : option timedelta) (t : TaskInstance) :=
  mk (task_id t) (dag_id t) (execution_date t) sd ed dur (state t)
     (_try_number t) (max_tries t) (hostname t) (job_id t) (pool t) (pool_slots t) (queue t)
     (priority_weight t) (operator t) (queued_dttm t) (queued_by_job_id t) (pid t)
     (executor_config t) (external_executor_id t).

Definition set_tries (n m : Z) (t : TaskInstance) :=
  mk (task_id t) (dag_id t) (execution_date t) (start_date t) (end_date t) (duration t) (state t)
     n m (hostname t) (job_id t) (pool t) (pool_slots t) (queue t)
     (priority_weight t) (operator t) (queued_dttm t) (queued_by_job_id t) (pid t)
     (executor_config t) (external_executor_id t).

Definition set_job (h : string) (j p : option Z) (t : TaskInstance) :=
  mk (task_id t) (dag_id t) (execution_date t) (start_date t) (end_date t) (duration t) (state t)
     (_try_number t) (max_tries t) h j (pool t) (pool_slots t) (queue t)
     (priority_weight t) (operator t) (queued_dttm t) (queued_by_job_id t) p
     (executor_config t) (external_executor_id t).

Definition set_queued (at_ : option datetime) (by_ : option Z) (t : TaskInstance) :=
  mk (task_id t) (dag_id t) (execution_date t) (start_date t) (end_date t) (duration t) (state t)
     (_try_number t) (max_tries t) (hostname t) (job_id t) (pool t) (pool_slots t) (queue t)
     (priority_weight t) (operator t) at_ by_ (pid t)
     (executor_config t) (external_executor_id t).

Definition set_external (x : option string) (t : TaskInstance) :=
  mk (task_id t) (dag_id t) (execution_date t) (start_date t) (end_date t) (duration t) (state t)
     (_try_number t) (max_tries t) (hostname t) (job_id t) (pool t) (pool_slots t) (queue t)
     (priority_weight t) (operator t) (queued_dttm t) (queued_by_job_id t) (pid t)
     (executor_config t) x.

Definition set_from_task (q p : string) (slots w m : Z) (cfg op : string) (t : TaskInstance) :=
  mk (task_id t) (dag_id t) (execution_date t) (start_date t) (end_date t) (duration t) (state t)
     (_try_number t) m (hostname t) (job_id t) p slots q
     w op (queued_dttm t) (queued_by_job_id t) (pid t)
     cfg (external_executor_id t).

(** The primary key of the [task_instance] table. *)
Definition primary (t : TaskInstance) : string * string * datetime :=
  (dag_id t, task_id t, execution_date t).
End TI.
Abbreviation TaskInstance := TI.TaskInstance.

Module DR.
Record DagRun := mk {
  dag_id : string;
  queued_at : option datetime;
  execution_date : datetime;
  start_date : option datetime;
  end_date : option datetime;
  _state : DagRunState;
  run_id : option string;
  external_trigger : bool;
  run_type : DagRunType;
  last_scheduling_decision : option datetime;
  dag_hash : option string;
}.
End DR.
Abbreviation DagRun := DR.DagRun.

Record DagModel := {
  dm_dag_id : string;
  is_paused : bool;
  is_active : bool;
  dm_max_active_tasks : Z;
  has_task_concurrency_limits : bool;
  dm_fileloc : string;
  next_dagrun : option datetime;
  next_dagrun_create_after : option datetime;
}.

Record Pool := {
  pool_name : string;
  slots : Z;                 (* -1 for infinite *)
}.

Module TR.
Record TaskReschedule := mk {
  id : Z;
  task_id : string;
  dag_id : string;
  execution_date : datetime;
  try_number : Z;
  start_date : datetime;
  end_date : datetime;
  duration : timedelta;
  reschedule_date : datetime;
}.
End TR.
Abbreviation TaskReschedule := TR.TaskReschedule.

(** An XCom row; the value is the dictionary of lists of task ids that
    [SkipMixin] pushes. *)
Module XC.
Record XCom := mk {
  key : string;
  value : list (string * list string);
  timestamp : datetime;
  execution_date : datetime;
  task_id : string;
  dag_id : string;
}.
End XC.
Abbreviation XCom := XC.XCom.

(** A row of the [job] table. *)
Record BaseJob := {
  bj_id : Z;
  job_type : string;
  bj_state : option TaskInstanceState;
  latest_heartbeat : datetime;
}.

Record Session := {
  task_instance : list TaskInstance;
  dag_run : list DagRun;
  dag_model : list DagModel;
  slot_pool : list Pool;
  task_reschedule : list TaskReschedule;
  xcom : list XCom;
  job : list BaseJob;
  utcnow : datetime;
}.

Definition with_task_instance (tis : list TaskInstance) (s : Session) : Session :=
  {| task_instance := tis; dag_run := dag_run s; dag_model := dag_model s;
     slot_pool := slot_pool s; task_reschedule := task_reschedule s; xcom := xcom s;
     job := job s; utcnow := utcnow s |}.

Definition with_dag_run (drs : list DagRun) (s : Session) : Session :=
  {| task_instance := task_instance s; dag_run := drs; dag_model := dag_model s;
     slot_pool := slot_pool s; task_reschedule := task_reschedule s; xcom := xcom s;
     job := job s; utcnow := utcnow s |}.

Definition with_dag_model (dms : list DagModel) (s : Session) : Session :=
  {| task_instance := task_instance s; dag_run := dag_run s; dag_model := dms;
     slot_pool := slot_pool s; task_reschedule := task_reschedule s; xcom := xcom s;
     job := job s; utcnow := utcnow s |}.

Definition with_task_reschedule (trs : list TaskReschedule) (s : Session) : Session :=
  {| task_instance := task_instance s; dag_run := dag_run s; dag_model := dag_model s;
     slot_pool := slot_pool s; task_reschedule := trs; xcom := xcom s;
     job := job s; utcnow := utcnow s |}.

Definition with_xcom (xs : list XCom) (s : Session) : Session :=
  {| task_instance := task_instance s; dag_run := dag_run s; dag_model := dag_model s;
     slot_pool := slot_pool s; task_reschedule := task_reschedule s; xcom := xs;
     job := job s; utcnow := utcnow s |}.

Definition with_job (js : list BaseJob) (s : Session) : Session :=
  {| task_instance := task_instance s; dag_run := dag_run s; dag_model := dag_model s;
     slot_pool := slot_pool s; task_reschedule := task_reschedule s; xcom := xcom s;
     job := js; utcnow := utcnow s |}.

(** ** Writing rows *)

(** [session.query(TI).filter(p).update(f)]: the new table. *)
Definition update_where {A} (p : A → bool) (f : A → A) (rows : list A) : list A :=
  (λ r, if p r then f r else r) <$> rows.

(** Two task instances denote the same row. *)
Definition same_ti (a b : TaskInstance) : bool := TI.primary a ≟ TI.primary b.

(** [session.merge(ti)]: overwrite the row with the same primary key, or add
    the row when there is none. *)
Definition merge_ti (t : TaskInstance) (s : Session) : Session :=
  if existsb (same_ti t) (task_instance s) then
    with_task_instance (update_where (same_ti t) (λ _, t) (task_instance s)) s
  else with_task_instance (task_instance s ++ [t]) s.

(** The row with a given primary key. *)
Definition find_ti (k : string * string * datetime) (s : Session) : option TaskInstance :=
  List.find (λ t, TI.primary t ≟ k) (task_instance s).

(** ** The database invariant: primary keys are unique *)

Definition ti_keys_unique (tis : list TaskInstance) : Prop := NoDup (TI.primary <$> tis).

Lemma update_where_keys (p : TaskInstance → bool) f tis :
  (∀ t, TI.primary (f t) = TI.primary t) →
  TI.primary <$> update_where p f tis = TI.primary <$> tis.
Proof.
  intros Hf. unfold update_where. rewrite <-list_fmap_compose.
  apply list_fmap_ext. intros i t _. simpl. by destruct (p t).
Qed.

Lemma elem_of_update_where {A} (p : A → bool) f (rows : list A) r :
  r ∈ update_where p f rows ↔
  ∃ r0, r0 ∈ rows ∧ r = (if p r0 then f r0 else r0).
Proof. unfold update_where. rewrite list_elem_of_fmap. naive_solver. Qed.

Lemma length_update_where {A} (p : A → bool) f (rows : list A) :
  length (update_where p f rows) = length rows.
Proof. apply length_fmap. Qed.

Lemma same_ti_eq a b : same_ti a b = true ↔ TI.primary a = TI.primary b.
Proof. unfold same_ti. apply bool_decide_eq_true. Qed.

Lemma merge_ti_present t s :
  (∃ r, r ∈ task_instance s ∧ TI.primary r = TI.primary t) →
  task_instance (merge_ti t s) = update_where (same_ti t) (λ _, t) (task_instance s).
Proof.
  intros (r & Hr & Hk). unfold merge_ti. rewrite (proj2 (existsb_elem _ _)); [done|].
  exists r. by rewrite same_ti_eq.
Qed.

Lemma merge_update_keys t tis :
  TI.primary <$> update_where (same_ti t) (λ _, t) tis = TI.primary <$> tis.
Proof.
  unfold update_where. rewrite <-list_fmap_compose. apply list_fmap_ext.
  intros i r _; simpl. destruct (same_ti t r) eqn:E; [|done]. by apply same_ti_eq in E.
Qed.

Lemma merge_ti_keys t s :
  ti_keys_unique (task_instance s) → ti_keys_unique (task_instance (merge_ti t s)).
Proof.
  unfold ti_keys_unique, merge_ti. intros Hnd.
  destruct (existsb (same_ti t) (task_instance s)) eqn:E; simpl.
  - by rewrite merge_update_keys.
  - rewrite existsb_false_elem in E. rewrite fmap_app. apply NoDup_app. split; [done|].
    split; [|apply NoDup_singleton]. intros k (r & -> & Hr)%list_elem_of_fmap ?%list_elem_of_singleton.
    specialize (E r Hr). unfold same_ti in E. bool_to_prop. congruence.
Qed.

(** With unique keys, equal keys mean equal rows. *)
Lemma ti_key_inj tis a b :
  ti_keys_unique tis → a ∈ tis → b ∈ tis → TI.primary a = TI.primary b → a = b.
Proof.
  unfold ti_keys_unique. intros Hnd (i & Ha)%list_elem_of_lookup (j & Hb)%list_elem_of_lookup Hk.
  assert (i = j) as ->; [|congruence].
  eapply NoDup_lookup; [exact Hnd| |]; rewrite list_lookup_fmap.
  - by rewrite Ha.
  - by rewrite Hb, Hk.
Qed.

Lemma find_ti_elem k s t : find_ti k s = Some t → t ∈ task_instance s ∧ TI.primary t = k.
Proof.
  unfold find_ti. intros [H1 H2]%find_some. apply bool_decide_eq_true in H2.
  by rewrite list_elem_of_In.
Qed.

Lemma find_ti_unique s t :
  ti_keys_unique (task_instance s) → t ∈ task_instance s → find_ti (TI.primary t) s = Some t.
Proof.
  intros Hnd Ht. destruct (find_ti (TI.primary t) s) as [t'|] eqn:E.
  - apply find_ti_elem in E as [? ?]. f_equal. by eapply ti_key_inj.
  - unfold find_ti in E. eapply find_none in E; [|by apply list_elem_of_In].
    by apply bool_decide_eq_false in E.
Qed.

(** After a merge the row is the merged one, and no other row changed. *)
Lemma find_merge_ti t s : find_ti (TI.primary t) (merge_ti t s) = Some t.
Proof.
  unfold find_ti, merge_ti. destruct (existsb (same_ti t) (task_instance s)) eqn:E; simpl.
  - induction (task_instance s) as [|r l IH]; simpl in *; [done|].
    destruct (same_ti t r) eqn:Er; simpl.
    + by rewrite bool_decide_eq_true_2.
    + rewrite bool_decide_eq_false_2; [by apply IH|].
      intros Hk. unfold same_ti in Er. rewrite bool_decide_eq_true_2 in Er; done.
  - induction (task_instance s) as [|r l IH]; simpl in *.
    + by rewrite bool_decide_eq_true_2.
    + apply orb_false_iff in E as [E1 E2]. rewrite bool_decide_eq_false_2; [by apply IH|].
      intros Hk. unfold same_ti in E1. rewrite bool_decide_eq_true_2 in E1; done.
Qed.

Lemma find_merge_ti_ne t k s : k ≠ TI.primary t → find_ti k (merge_ti t s) = find_ti k s.
Proof.
  intros Hk. unfold find_ti, merge_ti.
  destruct (existsb (same_ti t) (task_instance s)) eqn:E; simpl.
  - clear E. induction (task_instance s) as [|r l IH]; simpl; [done|].
    destruct (same_ti t r) eqn:Er; simpl; [|by rewrite IH].
    apply same_ti_eq in Er. rewrite bool_decide_eq_false_2 by congruence.
    rewrite bool_decide_eq_false_2 by congruence. apply IH.
  - clear E. induction (task_instance s) as [|r l IH]; simpl.
    + by rewrite bool_decide_eq_false_2 by congruence.
    + destruct (bool_decide _); [done|apply IH].
Qed.

(** Writing one row back is an update of the rows with its key. *)
Lemma merge_as_update t t' s :
  ti_keys_unique (task_instance s) → t ∈ task_instance s →
  TI.primary t' = TI.primary t →
  ∀ f, f t = t' → merge_ti t' s = with_task_instance (update_where (same_ti t) f (task_instance s)) s.
Proof.
  intros Hk Ht Hp f Hf. unfold merge_ti. rewrite (proj2 (existsb_elem _ _)).
  - f_equal. unfold update_where. apply list_fmap_ext. intros i r Hr. unfold same_ti. rewrite Hp.
    case_bool_decide as E; [|done]. rewrite <-Hf. f_equal.
    eapply (ti_key_inj (task_instance s)); [done|done|by eapply list_elem_of_lookup_2|done].
  - exists t. rewrite same_ti_eq. done.
Qed.

(** With unique keys, the key of a row is among the selected ones exactly if
    the row is selected. *)
Lemma keys_of_filter (f : TaskInstance → bool) rows r :
  ti_keys_unique rows → r ∈ rows → (TI.primary r ∈? TI.primary <$> List.filter f rows) = f r.
Proof.
  intros Hk Hr. destruct (f r) eqn:E.
  - apply bool_decide_eq_true, list_elem_of_fmap. exists r. split; [done|]. by apply elem_of_filterb.
  - apply bool_decide_eq_false. intros (t & Ht & [Hf Hin]%elem_of_filterb)%list_elem_of_fmap.
    rewrite (ti_key_inj rows r t) in E by done. congruence.
Qed.

(** Writing a list of rows back is one update of the rows with their keys. *)
Lemma merge_all_update (f : TaskInstance → TaskInstance) L s :
  (∀ t, TI.primary (f t) = TI.primary t) → ti_keys_unique (task_instance s) →
  NoDup (TI.primary <$> L) → (∀ t, t ∈ L → t ∈ task_instance s) →
  foldl (λ s t, merge_ti (f t) s) s L =
  with_task_instance (update_where (λ r, TI.primary r ∈? TI.primary <$> L) f (task_instance s)) s.
Proof.
  intros Hf. revert s. induction L as [|t L IH]; intros s Hk HL Hin.
  { simpl. trans (with_task_instance (task_instance s) s); [by destruct s|]. f_equal.
    symmetry. etrans; [|apply list_fmap_id]. by apply list_fmap_ext. }
  rewrite fmap_cons in HL. apply NoDup_cons in HL as [Hn HL]. cbn [foldl].
  rewrite (merge_as_update t (f t) s Hk (Hin t (list_elem_of_here _ _)) (Hf t) f eq_refl).
  rewrite IH; cbn [task_instance with_task_instance].
  - match goal with |- with_task_instance ?a (with_task_instance ?b ?s) = _ =>
      change (with_task_instance a (with_task_instance b s)) with (with_task_instance a s) end.
    f_equal. unfold update_where. rewrite <-list_fmap_compose. apply list_fmap_ext. intros i r _.
    rewrite fmap_cons. cbn [compose]. unfold same_ti.
    destruct (decide (TI.primary t = TI.primary r)) as [E|E].
    + rewrite (bool_decide_eq_true_2 (TI.primary t = TI.primary r)) by done.
      rewrite (bool_decide_eq_false_2 (_ ∈ TI.primary <$> L)) by (rewrite Hf; by rewrite <-E).
      rewrite bool_decide_eq_true_2; [done|]. rewrite <-E. left.
    + rewrite (bool_decide_eq_false_2 (TI.primary t = TI.primary r)) by done.
      assert ((TI.primary r ∈? TI.primary t :: (TI.primary <$> L)) = (TI.primary r ∈? TI.primary <$> L)) as ->; [|done].
      apply bool_decide_ext. rewrite elem_of_cons. naive_solver.
  - unfold ti_keys_unique. by rewrite update_where_keys.
  - done.
  - intros t' Ht'. apply elem_of_update_where. exists t'. split; [apply Hin; by right|]. unfold same_ti.
    rewrite bool_decide_eq_false_2; [done|]. intros E. apply Hn. rewrite E. apply list_elem_of_fmap. eauto.
Qed.

(** The same for the rows that a query selects. *)
Lemma merge_filter_update (f : TaskInstance → TaskInstance) p s :
  (∀ t, TI.primary (f t) = TI.primary t) → ti_keys_unique (task_instance s) →
  foldl (λ s t, merge_ti (f t) s) s (List.filter p (task_instance s)) =
  with_task_instance (update_where p f (task_instance s)) s.
Proof.
  intros Hf Hk. rewrite merge_all_update; [|done|done|by apply NoDup_fmap_filterb|by intros t [_ ?]%elem_of_filterb].
  f_equal. apply list_fmap_ext. intros i r Hr.
  rewrite (keys_of_filter p _ r Hk); [done|by eapply list_elem_of_lookup_2].
Qed.

Lemma lookup_task_Some dag tid t :
  lookup_task dag tid = Some t → t ∈ task_dict dag ∧ task_id t = tid.
Proof.
  unfold lookup_task. intros [H1 H2]%find_some. bool_to_prop.
  by rewrite list_elem_of_In.
Qed.

Lemma lookup_task_None dag tid : lookup_task dag tid = None ↔ tid ∉ task_ids dag.
Proof.
  unfold lookup_task, task_ids. split.
  - intros HN (t & -> & Ht)%list_elem_of_fmap. eapply find_none in HN; [|by apply list_elem_of_In].
    by bool_to_prop.
  - intros Hn. destruct (List.find _ _) as [t|] eqn:E; [|done].
    apply find_some in E as [H1 H2]. bool_to_prop. exfalso; apply Hn.
    apply list_elem_of_fmap. exists t. by rewrite list_elem_of_In.
Qed.

Lemma has_task_lookup dag tid : has_task dag tid = true ↔ is_Some (lookup_task dag tid).
Proof.
  rewrite <-not_eq_None_Some, lookup_task_None. unfold has_task. rewrite existsb_elem.
  unfold task_ids. rewrite list_elem_of_fmap. split.
  - intros (t & Ht & E) Hn. bool_to_prop. apply Hn. eauto.
  - intros Hn. destruct (existsb (λ t, task_id t ≟ tid) (task_dict dag)) eqn:E.
    + by apply existsb_elem in E.
    + rewrite existsb_false_elem in E. exfalso. apply Hn. intros (t & -> & Ht).
      specialize (E t Ht). by bool_to_prop.
Qed.

#[export] Hint Resolve merge_ti_keys : airflow.
