(* ===== verification/Sample.v ===== *)
(** * Sample: concrete operators, DAGs and rows

    Small instances of the data of [Model], on which the witnesses of the
    theorems and the worked examples evaluate the definitions. *)

From S2P Require Import Prelude State Model.

Module Sample.

(** The defaults of [BaseOperator.__init__]: the trigger rule [all_success],
    weight 1 with the [downstream] rule, one slot of [default_pool], a retry
    delay of five minutes. *)
Definition mk_op (tid : string) (rule : TriggerRule) (ups downs : list string) : BaseOperator :=
  {| task_id := tid; task_type := "BashOperator"; retries := 1;
     retry_delay := 300000000; retry_exponential_backoff := false; max_retry_delay := None;
     op_start_date := Some 0%Z; op_end_date := None; depends_on_past := false;
     wait_for_downstream := false; trigger_rule := rule; op_priority_weight := 1;
     weight_rule := DOWNSTREAM; op_queue := "default"; op_pool := "default_pool";
     op_pool_slots := 1; task_concurrency := None; on_execute_callback := false;
     on_success_callback := false; inherits_from_dummy_operator := false;
     is_SkipMixin := false; op_executor_config := "";
     deps := [NotInRetryPeriodDep; PrevDagrunDep; TriggerRuleDep; NotPreviouslySkippedDep];
     upstream_task_ids := ups; downstream_task_ids := downs |}.

Definition mk_dag (did : string) (tasks : list BaseOperator) : DAG :=
  {| dag_id := did; task_dict := tasks; schedule_interval := None;
     dag_start_date := Some 0%Z; dag_end_date := None; catchup := true;
     max_active_tasks := 16; max_active_runs := 16; partial := false; fileloc := "dag.py";
     has_on_success_callback := false; has_on_failure_callback := false;
     dagrun_timeout := None |}.

(** The diamond a -> b, c -> d. *)
Definition op_a := mk_op "a" ALL_SUCCESS [] ["b"; "c"].
Definition op_b := mk_op "b" ALL_SUCCESS ["a"] ["d"].
Definition op_c := mk_op "c" ALL_SUCCESS ["a"] ["d"].
Definition op_d := mk_op "d" ALL_SUCCESS ["b"; "c"] [].
Definition diamond : DAG := mk_dag "diamond" [op_d; op_b; op_c; op_a].

(** The cycle x -> y -> x. *)
Definition cyclic : DAG :=
  mk_dag "cyclic" [mk_op "x" ALL_SUCCESS ["y"] ["y"]; mk_op "y" ALL_SUCCESS ["x"] ["x"]].

Definition mk_ti (did tid : string) (st : option TaskInstanceState) : TaskInstance :=
  {| TI.task_id := tid; TI.dag_id := did; TI.execution_date := 1000;
     TI.start_date := None; TI.end_date := None; TI.duration := None; TI.state := st;
     TI._try_number := 0; TI.max_tries := 1; TI.hostname := ""; TI.job_id := None;
     TI.pool := "default_pool"; TI.pool_slots := 1; TI.queue := "default";
     TI.priority_weight := 1; TI.operator := "BashOperator"; TI.queued_dttm := None;
     TI.queued_by_job_id := None; TI.pid := None; TI.executor_config := "";
     TI.external_executor_id := None |}.

Definition mk_run (did : string) (st : DagRunState) : DagRun :=
  {| DR.dag_id := did; DR.queued_at := None; DR.execution_date := 1000;
     DR.start_date := Some 1000%Z; DR.end_date := None; DR._state := st;
     DR.run_id := Some "scheduled__1"; DR.external_trigger := false;
     DR.run_type := DRT_SCHEDULED; DR.last_scheduling_decision := None;
     DR.dag_hash := None |}.

Definition mk_dm (did : string) : DagModel :=
  {| dm_dag_id := did; is_paused := false; is_active := true; dm_max_active_tasks := 16;
     has_task_concurrency_limits := false; dm_fileloc := "dag.py";
     next_dagrun := None; next_dagrun_create_after := None |}.

Definition mk_session (tis : list TaskInstance) (drs : list DagRun) : Session :=
  {| task_instance := tis; dag_run := drs; dag_model := [mk_dm "diamond"];
     slot_pool := [{| pool_name := "default_pool"; slots := 128 |}];
     task_reschedule := []; xcom := []; job := []; utcnow := 5000 |}.

End Sample.
