(* ===== verification/Graph.v ===== *)
(** * Graph: the task graph of a DAG

    [BaseOperator.get_flat_relative_ids] and [priority_weight_total]
    ([models/baseoperator.py]), [DAG.topological_sort] and the roots and leaves
    ([models/dag.py]), and the cycle check of [utils/dag_cycle_tester.py].

    A Python set of task ids is a list in the order the interpreter iterates
    it; the theorems hold for every order. *)

From stdpp Require Import relations.
From S2P Require Import Prelude State Model Sample.

(** ** Operations *)

Module Graph.

Definition get_direct_relative_ids (t : BaseOperator) (upstream : bool) : list string :=
  if upstream then upstream_task_ids t else downstream_task_ids t.

(** [dag.task_dict[task_id]]. *)
Definition task_dict_get (dag : DAG) (tid : string) : result BaseOperator :=
  match lookup_task dag tid with
  | Some t => Ok t
  | None => Err KeyError
  end.

(** The recursive method; [found] is the set shared by all the calls. *)
Fixpoint flat_relative_ids (fuel : nat) (dag : DAG) (upstream : bool)
    (t : BaseOperator) (found : list string) : result (list string) :=
  match fuel with
  | O => Err OutOfFuel
  | S fuel =>
      foldM (λ found rid,
        if rid ∈? found then Ok found
        else rt ← task_dict_get dag rid;
             flat_relative_ids fuel dag upstream rt (found ++ [rid]))
        (get_direct_relative_ids t upstream) found
  end.

(** [get_flat_relative_ids] as the callers use it, with no set passed in. *)
Definition get_flat_relative_ids (dag : DAG) (t : BaseOperator) (upstream : bool)
    : result (list string) :=
  flat_relative_ids (S (length (task_dict dag))) dag upstream t [].

Definition get_flat_relatives (dag : DAG) (t : BaseOperator) (upstream : bool)
    : result (list BaseOperator) :=
  ids ← get_flat_relative_ids dag t upstream;
  foldM (λ acc tid, r ← task_dict_get dag tid; Ok (acc ++ [r])) ids [].

Definition priority_weight_total (dag : DAG) (t : BaseOperator) : result Z :=
  match weight_rule t with
  | ABSOLUTE => Ok (op_priority_weight t)
  | r =>
      ids ← get_flat_relative_ids dag t (match r with UPSTREAM => true | _ => false end);
      foldM (λ acc tid, r ← task_dict_get dag tid; Ok (acc + op_priority_weight r)%Z)
            ids (op_priority_weight t)
  end.

(** [DAG.roots] and [DAG.leaves]. *)
Fixpoint filterM {A} (f : A → result bool) (l : list A) : result (list A) :=
  match l with
  | [] => Ok []
  | x :: l => b ← f x; r ← filterM f l; Ok (if b : bool then x :: r else r)
  end.

Definition is_nil {A} (l : list A) : bool := match l with [] => true | _ => false end.

Definition roots (dag : DAG) : result (list BaseOperator) :=
  filterM (λ t, l ← upstream_list dag t; Ok (is_nil l)) (task_dict dag).

Definition leaves (dag : DAG) : result (list BaseOperator) :=
  filterM (λ t, l ← downstream_list dag t; Ok (is_nil l)) (task_dict dag).

(** *** Topological sort *)

Record TopoState := { unsorted : list BaseOperator; sorted : list BaseOperator; acyclic_flag : bool }.

(** One node of the inner [for] loop: the [else] branch runs when no upstream
    task is still in [graph_unsorted]. *)
Definition topo_visit (dag : DAG) (st : TopoState) (node : BaseOperator) : result TopoState :=
  edges ← upstream_list dag node;
  if existsb (λ e, task_id e ∈? (task_id <$> unsorted st)) edges then Ok st
  else Ok {| unsorted := List.filter (λ t, negb (task_id t ≟ task_id node)) (unsorted st);
             sorted := sorted st ++ [node];
             acyclic_flag := true |}.

(** The outer [while] loop. *)
Fixpoint topo_loop (fuel : nat) (dag : DAG) (graph_unsorted graph_sorted : list BaseOperator)
    : result (list BaseOperator) :=
  match graph_unsorted with
  | [] => Ok graph_sorted
  | _ :: _ =>
      match fuel with
      | O => Err OutOfFuel
      | S fuel =>
          st ← foldM (topo_visit dag) graph_unsorted
                 {| unsorted := graph_unsorted; sorted := graph_sorted; acyclic_flag := false |};
          if acyclic_flag st then topo_loop fuel dag (unsorted st) (sorted st)
          else Err AirflowException
      end
  end.

Definition topological_sort (dag : DAG) : result (list BaseOperator) :=
  topo_loop (length (task_dict dag)) dag (task_dict dag) [].

(** *** Cycle check *)

Inductive Mark := CYCLE_NEW | CYCLE_IN_PROGRESS | CYCLE_DONE.

#[export] Instance Mark_eq_dec : EqDecision Mark.
Proof. solve_decision. Defined.

(** [visited]: a [defaultdict(int)], whose default is [CYCLE_NEW]. *)
Definition visited_get (visited : gmap string Mark) (tid : string) : Mark :=
  default CYCLE_NEW (visited !! tid).

(** The inner function: the first new child; raises at one in progress. *)
Fixpoint check_adjacent_tasks (visited : gmap string Mark) (adjacent : list string)
    : result (option string) :=
  match adjacent with
  | [] => Ok None
  | a :: adjacent =>
      match visited_get visited a with
      | CYCLE_IN_PROGRESS => Err AirflowDagCycleException
      | CYCLE_NEW => Ok (Some a)
      | CYCLE_DONE => check_adjacent_tasks visited adjacent
      end
  end.

(** The [while path_stack] loop; the top of the stack is the head of the list. *)
Fixpoint cycle_loop (fuel : nat) (dag : DAG) (visited : gmap string Mark)
    (path_stack : list string) : result (gmap string Mark) :=
  match path_stack with
  | [] => Ok visited
  | current :: rest =>
      match fuel with
      | O => Err OutOfFuel
      | S fuel =>
          let visited := if visited_get visited current ≟ CYCLE_NEW
                         then <[current := CYCLE_IN_PROGRESS]> visited else visited in
          task ← task_dict_get dag current;
          child ← check_adjacent_tasks visited (get_direct_relative_ids task false);
          match child with
          | None => cycle_loop fuel dag (<[current := CYCLE_DONE]> visited) rest
          | Some "" => cycle_loop fuel dag (<[current := CYCLE_DONE]> visited) rest
          | Some c => cycle_loop fuel dag visited (c :: path_stack)
          end
      end
  end.

(** The body of the [for dag_task_id in dag.task_dict.keys()] loop. *)
Definition check_cycle_from (dag : DAG) (visited : gmap string Mark) (tid : string)
    : result (gmap string Mark) :=
  if visited_get visited tid ≟ CYCLE_DONE then Ok visited
  else cycle_loop (2 * length (task_dict dag)) dag visited [tid].

Definition check_cycle (dag : DAG) : result unit :=
  visited ← foldM (check_cycle_from dag) (task_ids dag) ∅;
  Ok tt.

End Graph.
Import Graph.

(** ** The graph as a relation *)

(** Every id that an operator names is a task of the DAG, ids are unique, and
    the two directions of an edge agree; [BaseOperator._set_relatives] and
    [DAG.add_task] keep these. *)
Record graph_wf (dag : DAG) : Prop := {
  wf_ids : NoDup (task_ids dag);
  wf_closed : ∀ t b x, t ∈ task_dict dag → x ∈ get_direct_relative_ids t b → x ∈ task_ids dag;
  wf_symmetric : ∀ t u, t ∈ task_dict dag → u ∈ task_dict dag →
    task_id u ∈ upstream_task_ids t ↔ task_id t ∈ downstream_task_ids u;
}.

(** [y] is a direct relative of [x], in the given direction. *)
Definition edge (dag : DAG) (upstream : bool) (x y : string) : Prop :=
  ∃ t, lookup_task dag x = Some t ∧ y ∈ get_direct_relative_ids t upstream.

Definition acyclic (dag : DAG) : Prop := ∀ x, ¬ tc (edge dag false) x x.

(** [x] is reachable from the operator [t] by one or more edges. *)
Definition relative_of (dag : DAG) (upstream : bool) (t : BaseOperator) (x : string) : Prop :=
  ∃ y, y ∈ get_direct_relative_ids t upstream ∧ rtc (edge dag upstream) y x.

Section GraphFacts.
Context (dag : DAG) (Hwf : graph_wf dag).

Lemma lookup_task_elem t : t ∈ task_dict dag → lookup_task dag (task_id t) = Some t.
Proof.
  intros Ht. destruct (lookup_task dag (task_id t)) as [t'|] eqn:E.
  - apply lookup_task_Some in E as [Ht' Hid]. f_equal.
    apply list_elem_of_lookup in Ht as [i Hi], Ht' as [j Hj].
    assert (i = j) as ->; [|congruence].
    eapply NoDup_lookup; [apply (wf_ids _ Hwf)| |]; unfold task_ids; rewrite list_lookup_fmap.
    + by rewrite Hi.
    + rewrite Hj; simpl. by rewrite Hid.
  - apply lookup_task_None in E. exfalso; apply E. apply list_elem_of_fmap; eauto.
Qed.

Lemma task_ids_lookup x : x ∈ task_ids dag → ∃ t, lookup_task dag x = Some t.
Proof. intros (t & -> & Ht)%list_elem_of_fmap. exists t. by apply lookup_task_elem. Qed.

Lemma edge_target up x y : edge dag up x y → y ∈ task_ids dag.
Proof.
  intros (t & Ht & Hy). apply lookup_task_Some in Ht as [Ht _]. by eapply wf_closed.
Qed.

Lemma edge_source up x y : edge dag up x y → x ∈ task_ids dag.
Proof.
  intros (t & Ht & _). apply lookup_task_Some in Ht as [Ht <-]. apply list_elem_of_fmap; eauto.
Qed.

Lemma edge_flip x y : edge dag true x y ↔ edge dag false y x.
Proof.
  assert (∀ b u v, edge dag b u v → edge dag (negb b) v u) as Hflip.
  { intros b u v (t & Ht & Hv). pose proof (lookup_task_Some _ _ _ Ht) as [Hin Hid].
    assert (v ∈ task_ids dag) as Hvt by (by eapply wf_closed).
    destruct (task_ids_lookup v Hvt) as [w Hw]. exists w. split; [done|].
    apply lookup_task_Some in Hw as [Hw Hidw]. subst u v. destruct b; simpl in *.
    - by apply (wf_symmetric _ Hwf t w).
    - by apply (wf_symmetric _ Hwf w t). }
  split; [apply (Hflip true)|apply (Hflip false)].
Qed.

(** *** Flat relatives *)

(** What one call (or one run of the loop over [ds]) does to the set. *)
Definition found_post up (ds found found' : list string) : Prop :=
  found ⊆ found' ∧ ds ⊆ found' ∧ (NoDup found → NoDup found') ∧
  (∀ x, x ∈ found' → x ∈ found ∨ ∃ y, y ∈ ds ∧ rtc (edge dag up) y x) ∧
  (∀ x t, x ∈ found' → x ∉ found → lookup_task dag x = Some t →
     get_direct_relative_ids t up ⊆ found').

Lemma found_post_nil up found : found_post up [] found found.
Proof. repeat split; try set_solver. Qed.

Lemma found_post_cons_old up d ds found found' :
  d ∈ found → found_post up ds found found' → found_post up (d :: ds) found found'.
Proof. intros Hd (?&?&?&Hr&Hc). repeat split; [set_solver..| |done]. set_solver. Qed.

Lemma found_post_cons_new up d t ds found f1 f2 :
  d ∉ found → lookup_task dag d = Some t →
  found_post up (get_direct_relative_ids t up) (found ++ [d]) f1 →
  found_post up ds f1 f2 → found_post up (d :: ds) found f2.
Proof.
  intros Hd Ht (S1&D1&N1&R1&C1) (S2&D2&N2&R2&C2). repeat split.
  - set_solver.
  - intros x [->|Hx]%elem_of_cons; [|by apply D2]. apply S2, S1. set_solver.
  - intros Hn. apply N2, N1, NoDup_app. split; [done|]. split; [set_solver|apply NoDup_singleton].
  - intros x Hx. destruct (R2 x Hx) as [H1|(y&Hy&Hyx)]; [|right; exists y; set_solver].
    destruct (R1 x H1) as [H0|(y&Hy&Hyx)].
    + apply elem_of_app in H0 as [?|Hxd%list_elem_of_singleton]; [by left|]. subst x.
      right. exists d. split; [left|constructor].
    + right. exists d. split; [left|]. eapply rtc_l; [|exact Hyx]. exists t. done.
  - intros x u Hx Hxn Hu. destruct (decide (x ∈ f1)) as [H1|H1]; [|by eapply C2].
    destruct (decide (x = d)) as [->|Hxd].
    + simplify_eq. set_solver.
    + etrans; [eapply C1; [done| |done]|done]. set_solver.
Qed.

Lemma flat_relative_ids_post up fuel t found found' :
  flat_relative_ids fuel dag up t found = Ok found' →
  found_post up (get_direct_relative_ids t up) found found'.
Proof.
  revert t found found'. induction fuel as [|fuel IH]; intros t found found'; simpl; [done|].
  generalize (get_direct_relative_ids t up) as ds. intros ds. revert found.
  induction ds as [|d ds IHds]; intros found; simpl.
  - intros [= <-]. apply found_post_nil.
  - case_bool_decide as Hd; simpl.
    + intros Hf. by apply found_post_cons_old, IHds.
    + unfold task_dict_get. destruct (lookup_task dag d) as [u|] eqn:Hu; simpl; [|done].
      intros (f1 & Hf1 & Hf2)%result_bind_ok.
      eapply found_post_cons_new; eauto.
Qed.

Lemma NoDup_subseteq_length (l k : list string) : NoDup l → l ⊆ k → length l ≤ length k.
Proof. intros Hn Hs. apply submseteq_length, NoDup_submseteq; [done|exact Hs]. Qed.

(** The recursion visits each task at most once: fuel above the number of
    tasks not yet found is enough. *)
Lemma flat_relative_ids_total up fuel t found :
  get_direct_relative_ids t up ⊆ task_ids dag →
  NoDup found → found ⊆ task_ids dag →
  length (task_dict dag) < fuel + length found →
  ∃ found', flat_relative_ids fuel dag up t found = Ok found' ∧ found' ⊆ task_ids dag.
Proof.
  revert t found. induction fuel as [|fuel IH]; intros t found Hds Hn Hs Hlen; simpl.
  { apply NoDup_subseteq_length in Hs; [|done]. unfold task_ids in Hs.
    rewrite length_fmap in Hs. lia. }
  revert Hds. generalize (get_direct_relative_ids t up) as ds. intros ds.
  revert found Hn Hs Hlen.
  induction ds as [|d ds IHds]; intros found Hn Hs Hlen Hds; simpl; [by eauto|].
  assert (ds ⊆ task_ids dag) by set_solver.
  case_bool_decide as Hd; simpl; [by apply IHds|].
  destruct (task_ids_lookup d) as [u Hu]; [set_solver|].
  unfold task_dict_get. rewrite Hu; simpl.
  assert (NoDup (found ++ [d])).
  { apply NoDup_app. split; [done|]. split; [set_solver|apply NoDup_singleton]. }
  destruct (IH u (found ++ [d])) as (f1 & Hf1 & Hsub); [|done|set_solver| |].
  { intros x Hx. apply lookup_task_Some in Hu as [Hu _]. by eapply wf_closed. }
  { rewrite length_app; simpl. lia. }
  rewrite Hf1; simpl. apply flat_relative_ids_post in Hf1 as (S1&_&N1&_).
  apply IHds; [by apply N1|done| |done].
  assert (length (found ++ [d]) ≤ length f1) as Hle by (by apply NoDup_subseteq_length).
  rewrite length_app in Hle; simpl in Hle. lia.
Qed.

Lemma found_post_closed up t ids :
  found_post up (get_direct_relative_ids t up) [] ids →
  ∀ x, x ∈ ids ↔ relative_of dag up t x.
Proof.
  intros (_&Hd&_&Hr&Hc) x. split.
  - intros Hx. destruct (Hr x Hx) as [?%elem_of_nil|?]; done.
  - intros (y & Hy & Hyx). apply Hd in Hy.
    induction Hyx as [|y z x (u & Hu & Hz) Hzx IH]; [done|].
    apply IH. eapply Hc; [exact Hy|set_solver|exact Hu|exact Hz].
Qed.
End GraphFacts.

(** *** Acyclicity and ranks *)

Lemma tc_edge_flip dag x y :
  graph_wf dag → tc (edge dag true) x y → tc (edge dag false) y x.
Proof.
  intros Hwf. induction 1 as [x y Hxy|x y z Hxy _ IH].
  - constructor. by apply edge_flip.
  - eapply tc_r; [exact IH|]. by apply edge_flip.
Qed.

Lemma acyclic_upstream dag : graph_wf dag → acyclic dag → Irreflexive (tc (edge dag true)).
Proof. intros Hwf Ha x Hx. apply (Ha x). by apply tc_edge_flip. Qed.

Lemma rank_irreflexive {A} (R : relation A) (f : A → nat) :
  (∀ x y, R x y → f y < f x) → ∀ x, ¬ tc R x x.
Proof.
  intros Hf. assert (∀ x y, tc R x y → f y < f x) as Htc.
  { induction 1 as [x y Hxy|x y z Hxy _ IH]; [by apply Hf|]. specialize (Hf x y Hxy). lia. }
  intros x Hx%Htc. lia.
Qed.

(** The position of the first occurrence. *)
Fixpoint index_of (x : string) (l : list string) : nat :=
  match l with
  | [] => 0
  | y :: l => if x ≟ y then 0 else S (index_of x l)
  end.

Lemma index_of_before l1 l2 x y :
  y ∈ l1 → x ∉ l1 → index_of y (l1 ++ l2) < index_of x (l1 ++ l2).
Proof.
  induction l1 as [|z l1 IH]; simpl; intros Hy Hx; [by apply elem_of_nil in Hy|].
  apply elem_of_cons in Hy. apply not_elem_of_cons in Hx as [Hxz Hx].
  rewrite (bool_decide_eq_false_2 (x = z)) by done.
  case_bool_decide; [lia|]. destruct Hy as [->|Hy]; [done|]. specialize (IH Hy Hx). lia.
Qed.

(** A list of ids in which every task comes after its relatives. *)
Definition ids_ordered dag up (l : list string) : Prop :=
  ∀ l1 x l2, l = l1 ++ x :: l2 → ∀ y, edge dag up x y → y ∈ l1.

Lemma ids_ordered_irreflexive dag up l :
  NoDup l → (∀ x y, edge dag up x y → x ∈ l) → ids_ordered dag up l →
  ∀ x, ¬ tc (edge dag up) x x.
Proof.
  intros Hn Hin Ho. apply (rank_irreflexive _ (λ x, index_of x l)). intros x y Hxy.
  pose proof (Hin x y Hxy) as (l1 & l2 & ->)%list_elem_of_split.
  apply index_of_before; [by eapply Ho|]. apply NoDup_app in Hn as (_ & Hd & _).
  intros Hx. apply (Hd x Hx). left.
Qed.

Lemma ids_ordered_snoc dag up l x :
  (∀ y, edge dag up x y → y ∈ l) → ids_ordered dag up l → ids_ordered dag up (l ++ [x]).
Proof.
  intros Hx Ho l1 z l2 Heq y Hy. destruct l2 as [|w l2 _] using rev_ind.
  - apply app_inj_tail in Heq as [-> ->]. by apply Hx.
  - rewrite app_comm_cons, app_assoc in Heq. apply app_inj_tail in Heq as [-> ->].
    by eapply Ho.
Qed.

Lemma ids_ordered_nil dag up : ids_ordered dag up [].
Proof. intros l1 x l2 H. by destruct l1. Qed.

Lemma tc_edge_target dag up x y : graph_wf dag → tc (edge dag up) x y → y ∈ task_ids dag.
Proof. intros Hwf. induction 1 as [? ? He|]; [by eapply edge_target|done]. Qed.

(** In a finite acyclic graph every non-empty set of tasks has a member with no
    upstream task in the set. *)
Lemma minimal_member dag (U : list string) :
  graph_wf dag → acyclic dag → U ≠ [] → U ⊆ task_ids dag →
  ∃ x, x ∈ U ∧ ∀ y, edge dag true x y → y ∉ U.
Proof.
  intros Hwf Ha HU Hs. destruct U as [|u U']; [done|]. set (U := u :: U') in *.
  assert (sn (edge dag true) u) as Hsn.
  { apply tc_finite_sn; [by apply acyclic_upstream|].
    exists (task_ids dag). intros y Hy. by eapply tc_edge_target. }
  assert (u ∈ U) as Hu by left. clearbody U. clear HU Hs.
  induction Hsn as [x _ IH].
  destruct (lookup_task dag x) as [t|] eqn:Ht.
  - destruct (existsb (λ y, y ∈? U) (upstream_task_ids t)) eqn:E.
    + apply existsb_elem in E as (y & Hy & HyU). bool_to_prop.
      apply (IH y); [|done]. exists t. done.
    + rewrite existsb_false_elem in E. exists x. split; [done|].
      intros y (t' & Ht' & Hy). simplify_eq. specialize (E y Hy). by bool_to_prop.
  - exists x. split; [done|]. intros y (t & ? & _). congruence.
Qed.

(** *** Topological sort *)

Lemma get_tasks_ok dag ids :
  ids ⊆ task_ids dag → graph_wf dag →
  ∃ ts, get_tasks dag ids = Ok ts ∧ task_id <$> ts = ids.
Proof.
  intros Hs Hwf. induction ids as [|x ids IH]; simpl; [by exists []|].
  destruct IH as (ts & Hts & Hid); [set_solver|].
  destruct (task_ids_lookup dag Hwf x) as [t Ht]; [set_solver|].
  unfold get_task. rewrite Ht; simpl. rewrite Hts; simpl. exists (t :: ts). split; [done|].
  rewrite fmap_cons, Hid. by apply lookup_task_Some in Ht as [_ ->].
Qed.

(** Whether a node waits for a task that is still unsorted. *)
Definition blocked (us : list BaseOperator) (node : BaseOperator) : bool :=
  existsb (λ x, x ∈? (task_id <$> us)) (upstream_task_ids node).

Lemma topo_visit_eq dag st node :
  graph_wf dag → node ∈ task_dict dag →
  topo_visit dag st node =
    Ok (if blocked (unsorted st) node then st
        else {| unsorted := List.filter (λ t, negb (task_id t ≟ task_id node)) (unsorted st);
                sorted := sorted st ++ [node]; acyclic_flag := true |}).
Proof.
  intros Hwf Hn. unfold topo_visit, upstream_list.
  destruct (get_tasks_ok dag (upstream_task_ids node)) as (ts & -> & Hid); [|done|].
  { intros x Hx. by apply (wf_closed _ Hwf node true). }
  simpl. unfold blocked. rewrite <-Hid.
  replace (existsb (λ x, x ∈? (task_id <$> unsorted st)) (task_id <$> ts))
    with (existsb (λ e, task_id e ∈? (task_id <$> unsorted st)) ts).
  - by destruct (existsb _ ts).
  - clear. induction ts as [|t ts IH]; simpl; [done|by rewrite IH].
Qed.

Lemma remove_node (us : list BaseOperator) node :
  NoDup (task_id <$> us) → node ∈ us →
  us ≡ₚ node :: List.filter (λ t, negb (task_id t ≟ task_id node)) us.
Proof.
  induction us as [|u us IH]; simpl; intros Hn Hin; [by apply elem_of_nil in Hin|].
  apply NoDup_cons in Hn as [Hu Hn]. apply elem_of_cons in Hin as [->|Hin].
  - rewrite bool_decide_eq_true_2 by done. simpl. rewrite filterb_all; [done|].
    intros t Ht. rewrite bool_decide_eq_false_2; [done|]. intros E. apply Hu.
    rewrite <-E. apply list_elem_of_fmap; eauto.
  - rewrite bool_decide_eq_false_2; simpl.
    + rewrite Permutation_swap, <-IH; done.
    + intros E. apply Hu. rewrite E. apply list_elem_of_fmap; eauto.
Qed.

Record topo_inv (dag : DAG) (st : TopoState) : Prop := {
  ti_perm : sorted st ++ unsorted st ≡ₚ task_dict dag;
  ti_order : ids_ordered dag true (task_id <$> sorted st);
}.

Lemma topo_inv_nodup dag st :
  graph_wf dag → topo_inv dag st → NoDup (task_id <$> unsorted st).
Proof.
  intros Hwf Hi. pose proof (wf_ids _ Hwf) as Hn. unfold task_ids in Hn.
  rewrite <-(ti_perm _ _ Hi), fmap_app in Hn. by apply NoDup_app in Hn as (_&_&?).
Qed.

(** An unblocked node has all its upstream tasks among the sorted ones. *)
Lemma topo_inv_step dag st node :
  graph_wf dag → topo_inv dag st → node ∈ unsorted st → blocked (unsorted st) node = false →
  topo_inv dag {| unsorted := List.filter (λ t, negb (task_id t ≟ task_id node)) (unsorted st);
                  sorted := sorted st ++ [node]; acyclic_flag := true |}.
Proof.
  intros Hwf Hi Hin Hb. pose proof (topo_inv_nodup _ _ Hwf Hi) as Hn.
  destruct Hi as [Hp Ho]. split; simpl.
  - rewrite <-app_assoc; simpl. rewrite <-remove_node; done.
  - rewrite fmap_app; simpl. apply ids_ordered_snoc; [|done]. intros y (t & Ht & Hy).
    assert (node ∈ task_dict dag) as Hnd by (rewrite <-Hp; set_solver).
    assert (t = node) as ->.
    { rewrite (lookup_task_elem dag Hwf node Hnd) in Ht. congruence. }
    assert (y ∈ task_ids dag) as Hyt by (by eapply (wf_closed _ Hwf node true)).
    unfold task_ids in Hyt. rewrite <-Hp, fmap_app in Hyt.
    apply elem_of_app in Hyt as [?|Hyu]; [done|]. exfalso.
    unfold blocked in Hb. rewrite existsb_false_elem in Hb. specialize (Hb y Hy). by bool_to_prop.
Qed.

(** One pass of the inner loop: it never raises, keeps the invariant, and
    either sorts a node or finds every node blocked. *)
Lemma topo_pass dag nodes st :
  graph_wf dag → topo_inv dag st → NoDup (task_id <$> nodes) → nodes ⊆ unsorted st →
  ∃ st', foldM (topo_visit dag) nodes st = Ok st' ∧ topo_inv dag st' ∧
    length (unsorted st') ≤ length (unsorted st) ∧
    (acyclic_flag st' = false →
       st' = st ∧ ∀ n, n ∈ nodes → blocked (unsorted st) n = true) ∧
    (acyclic_flag st' = true →
       acyclic_flag st = true ∨ length (unsorted st') < length (unsorted st)).
Proof.
  intros Hwf. revert st. induction nodes as [|n nodes IH]; intros st Hi Hnd Hs; simpl.
  { exists st. split_and!; auto. intros _. split; [done|]. by intros ? ?%elem_of_nil. }
  apply NoDup_cons in Hnd as [Hn Hnd].
  assert (n ∈ unsorted st) as Hin by (apply Hs; left).
  assert (n ∈ task_dict dag) by (rewrite <-(ti_perm _ _ Hi); set_solver).
  rewrite topo_visit_eq by done. simpl. destruct (blocked (unsorted st) n) eqn:Hb.
  - destruct (IH st Hi Hnd) as (st' & Hf & Hi' & Hle & Hff & Hft); [set_solver|].
    exists st'. split_and!; auto. intros Hfl. destruct (Hff Hfl) as [-> Hall].
    split; [done|]. intros m [->|Hm]%elem_of_cons; [done|by apply Hall].
  - pose proof (remove_node _ _ (topo_inv_nodup _ _ Hwf Hi) Hin) as Hrm.
    assert (length (unsorted st) = S (length (List.filter (λ t, negb (task_id t ≟ task_id n)) (unsorted st))))
      as Hlen by (by rewrite Hrm at 1).
    edestruct IH as (st' & Hf & Hi' & Hle & Hff & Hft); [by apply topo_inv_step|exact Hnd| |].
    { intros m Hm; simpl. apply elem_of_filterb. split; [|apply Hs; by right].
      rewrite bool_decide_eq_false_2; [done|]. intros E. apply Hn. rewrite <-E.
      apply list_elem_of_fmap; eauto. }
    simpl in *. exists st'. split_and!; auto; [lia| |].
    + intros Hfl. by destruct (Hff Hfl) as [-> _].
    + intros _. right. lia.
Qed.

(** The whole loop: enough fuel, and it sorts everything or raises; it raises
    only on a cycle. *)
Lemma topo_loop_spec dag fuel us ss :
  graph_wf dag → topo_inv dag {| unsorted := us; sorted := ss; acyclic_flag := false |} →
  length us ≤ fuel →
  (∃ l, topo_loop fuel dag us ss = Ok l ∧ l ≡ₚ task_dict dag ∧ ids_ordered dag true (task_id <$> l)) ∨
  (topo_loop fuel dag us ss = Err AirflowException ∧ ¬ acyclic dag).
Proof.
  intros Hwf. revert us ss. induction fuel as [|fuel IH]; intros us ss Hi Hlen.
  { destruct us; simpl in *; [|lia]. left. exists ss. destruct Hi as [Hp Ho]; simpl in *.
    by rewrite app_nil_r in Hp. }
  destruct us as [|u us']; simpl.
  { left. exists ss. destruct Hi as [Hp Ho]; simpl in *. by rewrite app_nil_r in Hp. }
  set (us := u :: us') in *.
  destruct (topo_pass dag us _ Hwf Hi) as (st' & Hf & Hi' & Hle & Hff & Hft).
  { apply (topo_inv_nodup _ _ Hwf Hi). }
  { done. }
  change (u :: us') with us. simpl in *. rewrite Hf; simpl.
  destruct (acyclic_flag st') eqn:Hflag.
  - destruct (Hft eq_refl) as [?|Hlt]; [done|]. apply IH; [|simpl in *; lia].
    destruct Hi' as [Hp' Ho']. by split.
  - right. split; [done|]. intros Ha. destruct (Hff eq_refl) as [-> Hall].
    destruct (minimal_member dag (task_id <$> us) Hwf Ha) as (x & Hx & Hmin); [done| |].
    { unfold task_ids. rewrite <-(ti_perm _ _ Hi), fmap_app; simpl. set_solver. }
    apply list_elem_of_fmap in Hx as (n & -> & Hn).
    specialize (Hall n Hn). simpl in Hall. unfold blocked in Hall.
    apply existsb_elem in Hall as (y & Hy & HyU). bool_to_prop.
    apply (Hmin y); [|done]. exists n. split; [|done]. apply lookup_task_elem; [done|].
    rewrite <-(ti_perm _ _ Hi). set_solver.
Qed.

Lemma topological_sort_cases dag :
  graph_wf dag →
  (∃ l, topological_sort dag = Ok l ∧ l ≡ₚ task_dict dag ∧ ids_ordered dag true (task_id <$> l)) ∨
  (topological_sort dag = Err AirflowException ∧ ¬ acyclic dag).
Proof.
  intros Hwf. apply topo_loop_spec; [done| |done]. split; simpl; [done|]. apply ids_ordered_nil.
Qed.

Lemma sorted_acyclic dag l :
  graph_wf dag → l ≡ₚ task_dict dag → ids_ordered dag true (task_id <$> l) → acyclic dag.
Proof.
  intros Hwf Hp Ho x Hx.
  assert (tc (edge dag true) x x) as Hx'.
  { revert Hx. generalize x at 1 4. intros y. induction 1 as [a b Hab|a b c Hab _ IH].
    - constructor. by apply edge_flip.
    - eapply tc_r; [exact IH|]. by apply edge_flip. }
  revert Hx'. apply (ids_ordered_irreflexive dag true (task_id <$> l)); [| |done].
  - rewrite Hp. apply (wf_ids _ Hwf).
  - intros a b Hab. rewrite Hp. by eapply edge_source.
Qed.

(** A task of the sorted list comes after all its upstream tasks. *)
Lemma ids_ordered_upstream dag l l1 t l2 u :
  graph_wf dag → l ≡ₚ task_dict dag → ids_ordered dag true (task_id <$> l) →
  l = l1 ++ t :: l2 → u ∈ upstream_task_ids t → u ∈ (task_id <$> l1).
Proof.
  intros Hwf Hp Ho -> Hu. eapply (Ho (task_id <$> l1) (task_id t) (task_id <$> l2)).
  { by rewrite fmap_app. }
  exists t. split; [|done]. apply lookup_task_elem; [done|]. rewrite <-Hp. set_solver.
Qed.

(** *** Cycle check *)

Fixpoint is_path (dag : DAG) (stack : list string) : Prop :=
  match stack with
  | c :: (p :: _) as rest => edge dag false p c ∧ is_path dag rest
  | _ => True
  end.

Lemma is_path_tail dag c rest : is_path dag (c :: rest) → is_path dag rest.
Proof. destruct rest; simpl; tauto. Qed.

Lemma is_path_reach dag c rest a :
  is_path dag (c :: rest) → a ∈ c :: rest → rtc (edge dag false) a c.
Proof.
  revert c. induction rest as [|p rest IH]; intros c Hp Ha.
  - apply list_elem_of_singleton in Ha as ->. constructor.
  - destruct Hp as [He Hp]. apply elem_of_cons in Ha as [->|Ha]; [constructor|].
    eapply rtc_r; [by apply IH|done].
Qed.

(** [dl] lists the finished tasks in the order they were finished. *)
Record cycle_inv (dag : DAG) (visited : gmap string Mark) (stack dl : list string) : Prop := {
  ci_done : ∀ x, x ∈ dl ↔ visited_get visited x = CYCLE_DONE;
  ci_nodup : NoDup dl;
  ci_order : ids_ordered dag false dl;
  ci_path : is_path dag stack;
  ci_stack_nodup : NoDup stack;
  ci_stack_ids : stack ⊆ task_ids dag;
  ci_progress : ∀ x, visited_get visited x = CYCLE_IN_PROGRESS → x ∈ stack;
  ci_tail : ∀ x, x ∈ tail stack → visited_get visited x = CYCLE_IN_PROGRESS;
  ci_live : ∀ x, x ∈ stack → visited_get visited x ≠ CYCLE_DONE;
}.

(** How many tasks may still be pushed. *)
Definition fresh (dag : DAG) (visited : gmap string Mark) (stack : list string) : Z :=
  countb (λ x, (visited_get visited x ≟ CYCLE_NEW) && negb (x ∈? stack)) (task_ids dag).

Lemma visited_get_insert visited x y m :
  visited_get (<[x := m]> visited) y = if decide (x = y) then m else visited_get visited y.
Proof. unfold visited_get. rewrite lookup_insert. by case_decide. Qed.

Definition mark (visited : gmap string Mark) (c : string) : gmap string Mark :=
  if visited_get visited c ≟ CYCLE_NEW then <[c := CYCLE_IN_PROGRESS]> visited else visited.

Lemma mark_inv dag visited c rest dl :
  cycle_inv dag visited (c :: rest) dl →
  cycle_inv dag (mark visited c) (c :: rest) dl ∧
  (∀ x, visited_get (mark visited c) x = CYCLE_IN_PROGRESS ↔ x ∈ c :: rest) ∧
  (∀ x, x ∉ c :: rest → visited_get (mark visited c) x = visited_get visited x).
Proof.
  intros [Hd Hn Ho Hp Hsn Hsi Hpr Ht Hl]. unfold mark.
  assert (visited_get visited c ≠ CYCLE_DONE) as Hc by (apply Hl; left).
  case_bool_decide as Hnew.
  - assert (∀ x, visited_get (<[c:=CYCLE_IN_PROGRESS]> visited) x = CYCLE_DONE ↔
                 visited_get visited x = CYCLE_DONE) as HD.
    { intros x. rewrite visited_get_insert. case_decide; subst; naive_solver. }
    split; [|split].
    + split; try done; intros x; rewrite ?HD; auto; rewrite visited_get_insert; case_decide;
        subst; auto. intros _; left.
    + intros x. rewrite visited_get_insert. case_decide; subst.
      * split; [by left|done].
      * split; [by apply Hpr|]. intros [->|Hx]%elem_of_cons; [done|by apply Ht].
    + intros x Hx. rewrite visited_get_insert, decide_False; [done|]. set_solver.
  - assert (visited_get visited c = CYCLE_IN_PROGRESS) as Hci.
    { destruct (visited_get visited c); naive_solver. }
    split; [by split|]. split; [|done]. intros x. split; [by apply Hpr|].
    intros [->|Hx]%elem_of_cons; [done|by apply Ht].
Qed.

Lemma check_adjacent_tasks_spec visited adj :
  match check_adjacent_tasks visited adj with
  | Ok None => ∀ a, a ∈ adj → visited_get visited a = CYCLE_DONE
  | Ok (Some c) => c ∈ adj ∧ visited_get visited c = CYCLE_NEW
  | Err e => e = AirflowDagCycleException ∧ ∃ a, a ∈ adj ∧ visited_get visited a = CYCLE_IN_PROGRESS
  end.
Proof.
  induction adj as [|a adj IH]; simpl; [by intros ? ?%elem_of_nil|].
  destruct (visited_get visited a) eqn:E.
  - split; [left|done].
  - split; [done|]. exists a. split; [left|done].
  - destruct (check_adjacent_tasks visited adj) as [[c|]|e].
    + destruct IH. split; [by right|done].
    + intros b [->|Hb]%elem_of_cons; auto.
    + destruct IH as (? & b & ? & ?). split; [done|]. exists b. split; [by right|done].
Qed.

Lemma cycle_inv_push dag visited c rest dl child t :
  cycle_inv dag visited (c :: rest) dl →
  (∀ x, visited_get visited x = CYCLE_IN_PROGRESS ↔ x ∈ c :: rest) →
  lookup_task dag c = Some t → child ∈ get_direct_relative_ids t false →
  visited_get visited child = CYCLE_NEW → graph_wf dag →
  cycle_inv dag visited (child :: c :: rest) dl ∧
  (fresh dag visited (child :: c :: rest) + 1 ≤ fresh dag visited (c :: rest))%Z.
Proof.
  intros [Hd Hn Ho Hp Hsn Hsi Hpr Ht Hl] Hin Hc Hch Hnew Hwf.
  assert (child ∉ c :: rest) as Hns by (rewrite <-Hin; congruence).
  assert (edge dag false c child) as He by (exists t; done).
  pose proof (edge_target dag Hwf _ _ _ He) as Hids.
  split.
  - split; auto.
    + done.
    + by constructor.
    + intros x [->|Hx]%elem_of_cons; auto.
    + intros x Hx. right. by apply Hpr.
    + intros x Hx. by apply Hin.
    + intros x [->|Hx]%elem_of_cons; [congruence|by apply Hl].
  - unfold fresh. set (f1 := λ x, _ && negb (x ∈? child :: c :: rest)).
    set (f2 := λ x, _ && negb (x ∈? c :: rest)).
    rewrite (countb_ext f2 (λ x, f1 x || (x ≟ child))).
    + rewrite countb_split.
      * assert (0 < countb (λ x, x ≟ child) (task_ids dag))%Z; [|lia].
        apply countb_pos. exists child. split; [done|]. by apply bool_decide_eq_true.
      * intros x _ H1 H2. unfold f1 in H1. bool_to_prop. subst. set_solver.
    + intros x _. unfold f1, f2. repeat case_bool_decide; simpl; try done; set_solver.
Qed.

Lemma cycle_inv_pop dag visited c rest dl t :
  cycle_inv dag visited (c :: rest) dl →
  (∀ x, visited_get visited x = CYCLE_IN_PROGRESS ↔ x ∈ c :: rest) →
  lookup_task dag c = Some t →
  (∀ a, a ∈ get_direct_relative_ids t false → visited_get visited a = CYCLE_DONE) →
  cycle_inv dag (<[c := CYCLE_DONE]> visited) rest (dl ++ [c]) ∧
  (fresh dag (<[c := CYCLE_DONE]> visited) rest ≤ fresh dag visited (c :: rest))%Z.
Proof.
  intros [Hd Hn Ho Hp Hsn Hsi Hpr Ht Hl] Hin Hc Hadj. apply NoDup_cons in Hsn as [Hcr Hsn].
  split; [split|].
  - intros x. rewrite elem_of_app, list_elem_of_singleton, Hd, visited_get_insert.
    case_decide; subst; naive_solver.
  - apply NoDup_app. split; [done|]. split; [|apply NoDup_singleton].
    intros x Hx ->%list_elem_of_singleton. apply (Hl c); [left|by apply Hd].
  - apply ids_ordered_snoc; [|done]. intros y (t' & Ht' & Hy). simplify_eq.
    apply Hd. by apply Hadj.
  - by eapply is_path_tail.
  - done.
  - set_solver.
  - intros x. rewrite visited_get_insert. case_decide; [done|]. intros Hx%Hin. set_solver.
  - intros x Hx. rewrite visited_get_insert. rewrite decide_False.
    + apply Hin. right. destruct rest; simpl in *; [done|by right].
    + intros ->. apply Hcr. destruct rest; simpl in *; [done|by right].
  - intros x Hx. rewrite visited_get_insert, decide_False; [|set_solver].
    rewrite (proj2 (Hin x)); [done|by right].
  - unfold fresh. apply countb_le. intros x _. rewrite visited_get_insert.
    case_decide; [done|]. intros Hx. bool_to_prop. apply andb_true_iff.
    split; [by apply bool_decide_eq_true|]. apply negb_true_iff, bool_decide_eq_false. set_solver.
Qed.

Lemma fresh_mark dag visited c rest :
  fresh dag (mark visited c) (c :: rest) = fresh dag visited (c :: rest).
Proof.
  unfold fresh, mark. case_bool_decide as Hn; [|done]. apply countb_ext. intros x _.
  rewrite visited_get_insert. case_decide as E; [|done]. subst.
  rewrite (bool_decide_eq_true_2 (x ∈ x :: rest)) by left. by rewrite !andb_false_r.
Qed.

Lemma cycle_loop_spec dag fuel visited stack dl :
  graph_wf dag → "" ∉ task_ids dag → cycle_inv dag visited stack dl →
  (2 * fresh dag visited stack + Z.of_nat (length stack) ≤ Z.of_nat fuel)%Z →
  match cycle_loop fuel dag visited stack with
  | Ok v' => ∃ dl', cycle_inv dag v' [] dl' ∧ dl ⊆ dl' ∧ stack ⊆ dl'
  | Err e => e = AirflowDagCycleException ∧ ¬ acyclic dag
  end.
Proof.
  intros Hwf Hemp. revert visited stack dl.
  induction fuel as [|fuel IH]; intros visited stack dl Hi Hm.
  { destruct stack as [|c rest]; simpl in *; [exists dl; set_solver|].
    pose proof (countb_nonneg (λ x, (visited_get visited x ≟ CYCLE_NEW) && negb (x ∈? c :: rest))
                  (task_ids dag)). unfold fresh in Hm. lia. }
  destruct stack as [|c rest]; simpl; [exists dl; set_solver|].
  fold (mark visited c). rewrite <-fresh_mark in Hm.
  apply mark_inv in Hi as (Hi & Hin & _). revert Hi Hin Hm. generalize (mark visited c) as v.
  intros v Hi Hin Hm. assert (c ∈ task_ids dag) as Hc by (apply (ci_stack_ids _ _ _ _ Hi); left).
  destruct (task_ids_lookup dag Hwf c Hc) as [t Ht].
  unfold task_dict_get. rewrite Ht; simpl.
  pose proof (check_adjacent_tasks_spec v (downstream_task_ids t)) as Hadj.
  destruct (check_adjacent_tasks v (downstream_task_ids t)) as [[child|]|e]; simpl in *.
  - destruct Hadj as [Hch Hnew].
    destruct (cycle_inv_push dag v c rest dl child t) as [Hi' Hf]; auto.
    assert (child ≠ "") as Hne.
    { intros ->. apply Hemp. apply (ci_stack_ids _ _ _ _ Hi'). left. }
    destruct child as [|ch child]; [done|].
    specialize (IH v _ dl Hi' ltac:(simpl; lia)).
    destruct (cycle_loop fuel dag v _) as [v'|e]; [|done].
    destruct IH as (dl' & ? & ? & ?). exists dl'. split_and!; auto. set_solver.
  - destruct (cycle_inv_pop dag v c rest dl t) as [Hi' Hf]; auto.
    specialize (IH _ rest _ Hi' ltac:(simpl in *; lia)).
    destruct (cycle_loop fuel dag _ rest) as [v'|e]; [|done].
    destruct IH as (dl' & ? & Hs1 & ?). exists dl'. split_and!; auto; [set_solver|].
    intros x [->|Hx]%elem_of_cons; [apply Hs1; set_solver|auto].
  - destruct Hadj as (-> & a & Ha & Hp). split; [done|]. intros Hac. apply Hin in Hp.
    apply (Hac a). eapply tc_rtc_l; [by eapply is_path_reach; [apply (ci_path _ _ _ _ Hi)|]|].
    constructor. exists t. done.
Qed.

Lemma cycle_inv_start dag visited dl x :
  cycle_inv dag visited [] dl → x ∈ task_ids dag → visited_get visited x ≠ CYCLE_DONE →
  cycle_inv dag visited [x] dl ∧
  (2 * fresh dag visited [x] + 1 ≤ Z.of_nat (2 * length (task_dict dag)))%Z.
Proof.
  intros [Hd Hn Ho Hp Hsn Hsi Hpr Ht Hl] Hx Hnd. split; [split|]; try done.
  - apply NoDup_singleton.
  - set_solver.
  - intros y Hy%Hpr. by apply elem_of_nil in Hy.
  - by intros y ->%list_elem_of_singleton.
  - unfold fresh. set (f := λ y, _ && _).
    assert (countb f (task_ids dag) + 1 ≤ countb (λ _, true) (task_ids dag))%Z as Hle.
    { rewrite (countb_ext (λ _, true) (λ y, f y || negb (f y))).
      - rewrite countb_split; [|intros y _ H1 H2; by rewrite H1 in H2].
        assert (0 < countb (λ y, negb (f y)) (task_ids dag))%Z; [|lia].
        apply countb_pos. exists x. split; [done|]. unfold f.
        rewrite (bool_decide_eq_true_2 (x ∈ [x])) by left. by rewrite andb_false_r.
      - intros y _. by destruct (f y). }
    pose proof (countb_le_length (λ _, true) (task_ids dag)) as Hl2.
    unfold task_ids in Hl2 at 2. rewrite length_fmap in Hl2. lia.
Qed.

Lemma cycle_inv_empty dag : cycle_inv dag ∅ [] [].
Proof.
  split; try (intros x; unfold visited_get; rewrite lookup_empty); simpl; try done;
    try apply NoDup_nil_2; try apply ids_ordered_nil; try set_solver.
Qed.

Lemma check_cycle_cases dag :
  graph_wf dag → "" ∉ task_ids dag →
  (check_cycle dag = Ok tt ∧ acyclic dag) ∨
  (check_cycle dag = Err AirflowDagCycleException ∧ ¬ acyclic dag).
Proof.
  intros Hwf Hemp. unfold check_cycle.
  assert (∀ ids visited dl, ids ⊆ task_ids dag → cycle_inv dag visited [] dl →
    match foldM (check_cycle_from dag) ids visited with
    | Ok v' => ∃ dl', cycle_inv dag v' [] dl' ∧ dl ⊆ dl' ∧ ids ⊆ dl'
    | Err e => e = AirflowDagCycleException ∧ ¬ acyclic dag
    end) as Hloop.
  { induction ids as [|x ids IH]; intros visited dl Hs Hi; simpl; [exists dl; set_solver|].
    unfold check_cycle_from at 2. case_bool_decide as Hdone; cbn [mbind result_bind].
    - specialize (IH visited dl ltac:(set_solver) Hi). destruct (foldM (check_cycle_from dag) ids visited); [|done].
      destruct IH as (dl' & ? & Hsub & ?). exists dl'. split_and!; auto.
      intros y [->|Hy]%elem_of_cons; [|auto]. apply Hsub. by apply (ci_done _ _ _ _ Hi).
    - destruct (cycle_inv_start dag visited dl x Hi ltac:(set_solver) Hdone) as [Hi1 Hf].
      pose proof (cycle_loop_spec dag (2 * length (task_dict dag)) _ _ _ Hwf Hemp Hi1) as Hc.
      destruct (cycle_loop _ dag visited [x]) as [v'|e]; simpl.
      + destruct Hc as (dl1 & Hi2 & Hs1 & Hs2); [simpl; lia|].
        specialize (IH v' dl1 ltac:(set_solver) Hi2). destruct (foldM (check_cycle_from dag) ids v'); [|done].
        destruct IH as (dl' & ? & ? & ?). exists dl'. split_and!; auto; set_solver.
      + apply Hc. simpl; lia. }
  specialize (Hloop (task_ids dag) ∅ [] ltac:(done)).
  destruct (foldM (check_cycle_from dag) (task_ids dag) ∅) as [v'|e]; simpl.
  - left. split; [done|]. destruct Hloop as (dl & Hi & _ & Hs).
    { apply cycle_inv_empty. }
    unfold acyclic. apply (ids_ordered_irreflexive dag false dl); [apply (ci_nodup _ _ _ _ Hi)| |apply (ci_order _ _ _ _ Hi)].
    intros x y He. apply Hs. by eapply edge_source.
  - right. destruct Hloop as [-> ?]; [apply cycle_inv_empty|done].
Qed.

(** *** Deciding well-formedness *)

Definition graph_wfb (dag : DAG) : bool :=
  bool_decide (NoDup (task_ids dag)) &&
  forallb (λ t, forallb (λ b, forallb (λ x, x ∈? task_ids dag) (get_direct_relative_ids t b))
                        [true; false]) (task_dict dag) &&
  forallb (λ t, forallb (λ u, Bool.eqb (task_id u ∈? upstream_task_ids t)
                                       (task_id t ∈? downstream_task_ids u)) (task_dict dag))
          (task_dict dag).

Lemma graph_wfb_sound dag : graph_wfb dag = true → graph_wf dag.
Proof.
  unfold graph_wfb. rewrite !andb_true_iff, bool_decide_eq_true, !forallb_elem.
  intros [[HN HC] HS]. split; [done| |].
  - intros t b x Ht Hx. specialize (HC t Ht). rewrite forallb_elem in HC.
    specialize (HC b ltac:(destruct b; set_solver)).
    rewrite forallb_elem in HC. specialize (HC x Hx). by bool_to_prop.
  - intros t u Ht Hu. specialize (HS t Ht). rewrite forallb_elem in HS.
    specialize (HS u Hu). apply Bool.eqb_prop in HS.
    rewrite <-(bool_decide_eq_true (task_id u ∈ _)), <-(bool_decide_eq_true (task_id t ∈ _)).
    by rewrite HS.
Qed.

(** ** Properties *)

(** C6: on a well-formed acyclic DAG [topological_sort] returns every task
    exactly once, each after all its upstream tasks; on a cyclic one it raises
    [AirflowException].  The fuel of the model is never exhausted. *)
Theorem topological_sort_correct dag (Hwf : graph_wf dag) :
  (acyclic dag → ∃ l, topological_sort dag = Ok l ∧ l ≡ₚ task_dict dag ∧
     ∀ l1 t l2 u, l = l1 ++ t :: l2 → u ∈ upstream_task_ids t → u ∈ (task_id <$> l1)) ∧
  (¬ acyclic dag → topological_sort dag = Err AirflowException).
Proof.
  destruct (topological_sort_cases dag Hwf) as [(l & Hl & Hp & Ho)|[He Hn]].
  - split.
    + intros _. exists l. split_and!; [done..|]. intros. by eapply ids_ordered_upstream.
    + intros Hn. exfalso. by eapply Hn, sorted_acyclic.
  - split; [done|auto].
Qed.

(** C7: [check_cycle] accepts a well-formed DAG exactly when its graph has no
    cycle, and raises [AirflowDagCycleException] otherwise; the loop always
    ends. *)
Theorem check_cycle_correct dag (Hwf : graph_wf dag) (Hids : "" ∉ task_ids dag) :
  (acyclic dag ∧ check_cycle dag = Ok tt) ∨
  (¬ acyclic dag ∧ check_cycle dag = Err AirflowDagCycleException).
Proof. destruct (check_cycle_cases dag Hwf Hids); tauto. Qed.

(** The depth-first cycle check and the topological sort agree: the check
    passes if and only if the sort produces an order. *)
Lemma check_cycle_agrees dag (Hwf : graph_wf dag) (Hids : "" ∉ task_ids dag) :
  check_cycle dag = Ok tt ↔ is_ok (topological_sort dag) = true.
Proof.
  destruct (check_cycle_cases dag Hwf Hids) as [[-> Ha]|[-> Ha]];
    destruct (topological_sort_cases dag Hwf) as [(l & -> & Hp & Ho)|[-> Hn]]; simpl; try done.
  exfalso. by eapply Ha, sorted_acyclic.
Qed.

Lemma flat_relative_ids_spec dag t up : graph_wf dag → t ∈ task_dict dag →
  ∃ ids, get_flat_relative_ids dag t up = Ok ids ∧ NoDup ids ∧
         ∀ x, x ∈ ids ↔ relative_of dag up t x.
Proof.
  intros Hwf Ht.
  destruct (flat_relative_ids_total dag Hwf up (S (length (task_dict dag))) t [])
    as (ids & Hids & _); [|constructor|set_solver|simpl; lia|].
  { intros x Hx. by eapply wf_closed. }
  exists ids. pose proof (flat_relative_ids_post dag Hwf up _ _ _ _ Hids) as Hpost.
  split; [done|]. split; [|by apply found_post_closed].
  destruct Hpost as (_&_&Hn&_). apply Hn. constructor.
Qed.

(** [get_flat_relative_ids] terminates on every well-formed DAG, cyclic or
    not, and returns, without repetition, exactly the ids reachable from the
    task by one or more edges in the given direction. *)
Theorem flat_relative_ids_correct dag t up (Hwf : graph_wf dag) (Ht : t ∈ task_dict dag) :
  ∃ ids, get_flat_relative_ids dag t up = Ok ids ∧ NoDup ids ∧
         ∀ x, x ∈ ids ↔ relative_of dag up t x.
Proof. by apply flat_relative_ids_spec. Qed.

Lemma sum_weights dag ids acc :
  graph_wf dag → ids ⊆ task_ids dag →
  foldM (λ acc tid, r ← task_dict_get dag tid; Ok (acc + op_priority_weight r)%Z) ids acc =
  Ok (acc + sumb (λ _, true)
        (λ x, from_option op_priority_weight 0 (lookup_task dag x)) ids)%Z.
Proof.
  intros Hwf. revert acc. induction ids as [|x ids IH]; intros acc Hs; simpl; [f_equal; lia|].
  destruct (task_ids_lookup dag Hwf x) as [t Ht]; [set_solver|].
  unfold task_dict_get. rewrite Ht; simpl. fold (task_dict_get dag).
  rewrite IH by set_solver. f_equal. lia.
Qed.

(** The total priority weight of a task is its own weight under the
    [absolute] rule; under [downstream] (and [upstream]) it is its own weight
    plus that of every task reachable downstream (upstream), each counted
    once, even where several paths lead to it. *)
Theorem priority_weight_total_correct dag t (Hwf : graph_wf dag) (Ht : t ∈ task_dict dag) :
  (weight_rule t = ABSOLUTE → priority_weight_total dag t = Ok (op_priority_weight t)) ∧
  (weight_rule t ≠ ABSOLUTE → ∃ ids, NoDup ids ∧
     (∀ x, x ∈ ids ↔ relative_of dag (bool_decide (weight_rule t = UPSTREAM)) t x) ∧
     priority_weight_total dag t =
       Ok (op_priority_weight t +
           sumb (λ _, true) (λ x, from_option op_priority_weight 0 (lookup_task dag x)) ids)%Z).
Proof.
  unfold priority_weight_total. split; [by intros ->|]. intros Hr.
  set (up := bool_decide (weight_rule t = UPSTREAM)).
  destruct (flat_relative_ids_total dag Hwf up (S (length (task_dict dag))) t [])
    as (ids & Hids & Hsub); [|constructor|set_solver|simpl; lia|].
  { intros x Hx. by eapply wf_closed. }
  pose proof (flat_relative_ids_post dag Hwf up _ _ _ _ Hids) as Hpost.
  exists ids. split_and!.
  - destruct Hpost as (_&_&Hn&_). apply Hn. constructor.
  - by apply found_post_closed.
  - replace (match weight_rule t with
             | ABSOLUTE => Ok (op_priority_weight t)
             | r => ids ← get_flat_relative_ids dag t (match r with UPSTREAM => true | _ => false end);
                    foldM (λ acc tid, r ← task_dict_get dag tid; Ok (acc + op_priority_weight r)%Z)
                          ids (op_priority_weight t)
             end)
      with (ids ← get_flat_relative_ids dag t up;
            foldM (λ acc tid, r ← task_dict_get dag tid; Ok (acc + op_priority_weight r)%Z)
                  ids (op_priority_weight t))
      by (unfold up; by destruct (weight_rule t)).
    unfold get_flat_relative_ids. rewrite Hids. simpl. by apply sum_weights.
Qed.

(** ** Witnesses *)

Lemma diamond_wf : graph_wf Sample.diamond.
Proof. apply graph_wfb_sound. vm_compute. reflexivity. Qed.

Lemma cyclic_wf : graph_wf Sample.cyclic.
Proof. apply graph_wfb_sound. vm_compute. reflexivity. Qed.

Lemma diamond_acyclic : acyclic Sample.diamond.
Proof.
  destruct (check_cycle_cases Sample.diamond diamond_wf) as [[_ ?]|[E _]];
    [apply (bool_decide_unpack _); vm_compute; done|done|vm_compute in E; done].
Qed.

Lemma topological_sort_correct_witness :
  ∃ l, topological_sort Sample.diamond = Ok l ∧ l ≡ₚ task_dict Sample.diamond ∧
     ∀ l1 t l2 u, l = l1 ++ t :: l2 → u ∈ upstream_task_ids t → u ∈ (task_id <$> l1).
Proof. apply (topological_sort_correct Sample.diamond diamond_wf). apply diamond_acyclic. Defined.

Lemma check_cycle_correct_witness :
  (acyclic Sample.cyclic ∧ check_cycle Sample.cyclic = Ok tt) ∨
  (¬ acyclic Sample.cyclic ∧ check_cycle Sample.cyclic = Err AirflowDagCycleException).
Proof.
  apply (check_cycle_correct Sample.cyclic cyclic_wf). apply (bool_decide_unpack _). vm_compute. done.
Defined.

Lemma check_cycle_agrees_witness :
  check_cycle Sample.cyclic = Ok tt ↔ is_ok (topological_sort Sample.cyclic) = true.
Proof.
  apply (check_cycle_agrees Sample.cyclic cyclic_wf). apply (bool_decide_unpack _). vm_compute. done.
Defined.

Lemma flat_relative_ids_correct_witness :
  ∃ ids, get_flat_relative_ids Sample.diamond Sample.op_a false = Ok ids ∧ NoDup ids ∧
         ∀ x, x ∈ ids ↔ relative_of Sample.diamond false Sample.op_a x.
Proof.
  apply (flat_relative_ids_correct Sample.diamond Sample.op_a false diamond_wf).
  right; right; right; left.
Defined.

Lemma priority_weight_total_correct_witness :
  (weight_rule Sample.op_a = ABSOLUTE →
     priority_weight_total Sample.diamond Sample.op_a = Ok (op_priority_weight Sample.op_a)) ∧
  (weight_rule Sample.op_a ≠ ABSOLUTE → ∃ ids, NoDup ids ∧
     (∀ x, x ∈ ids ↔
        relative_of Sample.diamond (bool_decide (weight_rule Sample.op_a = UPSTREAM)) Sample.op_a x) ∧
     priority_weight_total Sample.diamond Sample.op_a =
       Ok (op_priority_weight Sample.op_a +
           sumb (λ _, true)
             (λ x, from_option op_priority_weight 0 (lookup_task Sample.diamond x)) ids)%Z).
Proof.
  apply (priority_weight_total_correct Sample.diamond Sample.op_a diamond_wf).
  right; right; right; left.
Defined.

(** Evaluations: the diamond, visited in the order d, b, c, a. *)
Example diamond_order :
  topological_sort Sample.diamond = Ok [Sample.op_a; Sample.op_b; Sample.op_c; Sample.op_d].
Proof. vm_compute. reflexivity. Qed.

Example cyclic_rejected :
  topological_sort Sample.cyclic = Err AirflowException ∧
  check_cycle Sample.cyclic = Err AirflowDagCycleException.
Proof. vm_compute. split; reflexivity. Qed.

Example diamond_weights :
  (priority_weight_total Sample.diamond <$> [Sample.op_a; Sample.op_b; Sample.op_d])
    = [Ok 4; Ok 2; Ok 1]%Z.
Proof. vm_compute. reflexivity. Qed.
