(* ===== verification/DagBuild.v ===== *)
(** * DagBuild: constructing DAGs

    What a DAG file does: [DAG.__init__], [BaseOperator.__init__], [DAG.add_task],
    the setter of [BaseOperator.dag], [_set_relatives] with [set_upstream] and
    [set_downstream], [chain] and [cross_downstream] ([models/dag.py],
    [models/baseoperator.py]), [TaskGroup] ([utils/task_group.py]), [EdgeModifier]
    ([utils/edgemodifier.py]), [XComArg] ([models/xcom_arg.py]) and the contexts
    that [with dag:] and [with TaskGroup(..):] push.

    The objects are cells of a heap and are compared by their address, as [is]
    does; the relatives are sets of ids, as in the code.  An exception abandons
    the DAG file, so the heap it leaves behind is not kept. *)

From stdpp Require Import relations.
From S2P Require Import Prelude State Model Sample Graph.

Module DagBuild.

(** ** The heap *)

(** An operator; its dates and relatives are attributes of [oc_op]. *)
Record OpCell := { oc_op : BaseOperator; oc_dag : option nat }.

(** A DAG: its scalar attributes are those of [dc_attrs]; the tasks are the
    insertion-ordered dictionary [dc_task_dict] of operator addresses. *)
Record DagCell := {
  dc_attrs : DAG;
  dc_task_dict : list (string * nat);
  dc_task_group : nat;
  dc_edge_info : gmap (string * string) (option string);
}.

Inductive Child := ChildTask (r : nat) | ChildGroup (r : nat).

(** A task group.  All groups of a DAG share the set object [used_group_ids];
    it is kept in the cell of the group [gc_used_in]. *)
Record GroupCell := {
  _group_id : option string;
  prefix_group_id : bool;
  _parent_group : option nat;
  gc_used_in : nat;
  used_group_ids : gset (option string);
  children : list (string * Child);
  upstream_group_ids : gset (option string);
  downstream_group_ids : gset (option string);
  gc_upstream_task_ids : gset string;
  gc_downstream_task_ids : gset string;
}.

Record EdgeModifier := {
  em_label : option string;
  em_upstream : list nat;
  em_downstream : list nat;
}.

Record Heap := {
  h_ops : list OpCell;
  h_dags : list DagCell;
  h_groups : list GroupCell;
  h_edges : list EdgeModifier;
  _context_managed_dag : option nat;
  _previous_context_managed_dags : list nat;
  _context_managed_task_group : option nat;
  _previous_context_managed_task_groups : list nat;
}.

Definition empty_heap : Heap := Build_Heap [] [] [] [] None [] None [].

(** The subclasses of [TaskMixin]; an [XComArg] is known by its operator. *)
Inductive TaskMixin :=
| MTask (r : nat)
| MGroup (r : nat)
| MXComArg (operator : nat)
| MEdge (r : nat).

Definition with_ops (l : list OpCell) (h : Heap) : Heap :=
  Build_Heap l (h_dags h) (h_groups h) (h_edges h) (_context_managed_dag h) (_previous_context_managed_dags h)
    (_context_managed_task_group h) (_previous_context_managed_task_groups h).
Definition with_dags (l : list DagCell) (h : Heap) : Heap :=
  Build_Heap (h_ops h) l (h_groups h) (h_edges h) (_context_managed_dag h) (_previous_context_managed_dags h)
    (_context_managed_task_group h) (_previous_context_managed_task_groups h).
Definition with_groups (l : list GroupCell) (h : Heap) : Heap :=
  Build_Heap (h_ops h) (h_dags h) l (h_edges h) (_context_managed_dag h) (_previous_context_managed_dags h)
    (_context_managed_task_group h) (_previous_context_managed_task_groups h).
Definition with_edges (l : list EdgeModifier) (h : Heap) : Heap :=
  Build_Heap (h_ops h) (h_dags h) (h_groups h) l (_context_managed_dag h) (_previous_context_managed_dags h)
    (_context_managed_task_group h) (_previous_context_managed_task_groups h).
Definition with_dag_context (c : option nat) (p : list nat) (h : Heap) : Heap :=
  Build_Heap (h_ops h) (h_dags h) (h_groups h) (h_edges h) c p
    (_context_managed_task_group h) (_previous_context_managed_task_groups h).
Definition with_group_context (c : option nat) (p : list nat) (h : Heap) : Heap :=
  Build_Heap (h_ops h) (h_dags h) (h_groups h) (h_edges h) (_context_managed_dag h)
    (_previous_context_managed_dags h) c p.

(** ** The monad of operations on the heap *)

Definition HM (A : Type) : Type := Heap → result (A * Heap).

#[export] Instance HM_ret : MRet HM := λ A a h, Ok (a, h).
#[export] Instance HM_bind : MBind HM := λ A B f m h,
  match m h with Ok (a, h') => f a h' | Err e => Err e end.

Definition raise {A} (e : exn) : HM A := λ _, Err e.
Definition get_heap : HM Heap := λ h, Ok (h, h).
Definition put_heap (h : Heap) : HM unit := λ _, Ok (tt, h).
Definition modify (f : Heap → Heap) : HM unit := λ h, Ok (tt, f h).

(** [for x in l: f(x)]. *)
Fixpoint for_each {A} (l : list A) (f : A → HM unit) : HM unit :=
  match l with
  | [] => mret tt
  | x :: l => _ ← f x; for_each l f
  end.

(** Following a reference; references are never dangling. *)
Definition deref {A} (cells : Heap → list A) (r : nat) : HM A := λ h,
  match cells h !! r with Some c => Ok (c, h) | None => Err AttributeError end.

Definition op_at (r : nat) : HM OpCell := deref h_ops r.
Definition dag_at (d : nat) : HM DagCell := deref h_dags d.
Definition group_at (g : nat) : HM GroupCell := deref h_groups g.
Definition edge_at (e : nat) : HM EdgeModifier := deref h_edges e.

Definition alloc_op (c : OpCell) : HM nat := λ h, Ok (length (h_ops h), with_ops (h_ops h ++ [c]) h).
Definition alloc_dag (c : DagCell) : HM nat := λ h, Ok (length (h_dags h), with_dags (h_dags h ++ [c]) h).
Definition alloc_group (c : GroupCell) : HM nat := λ h, Ok (length (h_groups h), with_groups (h_groups h ++ [c]) h).
Definition set_op (r : nat) (c : OpCell) : HM unit := modify (λ h, with_ops (<[r := c]> (h_ops h)) h).
Definition set_dag_cell (d : nat) (c : DagCell) : HM unit := modify (λ h, with_dags (<[d := c]> (h_dags h)) h).
Definition set_group (g : nat) (c : GroupCell) : HM unit := modify (λ h, with_groups (<[g := c]> (h_groups h)) h).
Definition set_edge (e : nat) (c : EdgeModifier) : HM unit := modify (λ h, with_edges (<[e := c]> (h_edges h)) h).

(** ** Keys *)

(** [\w], for the characters of ASCII. *)
Definition is_word (c : Ascii.ascii) : bool :=
  let n := Ascii.nat_of_ascii c in
  ((48 <=? n) && (n <=? 57) || (65 <=? n) && (n <=? 90) || (97 <=? n) && (n <=? 122) || (n =? 95))%nat.

Definition key_char (c : Ascii.ascii) : bool :=
  is_word c || (c ≟ (Ascii.ascii_of_nat 46)) || (c ≟ (Ascii.ascii_of_nat 45)).

(** [KEY_REGEX.match(k)] for [^[\w.-]+$]; [$] also matches before a newline
    that ends the string. *)
Fixpoint key_chars (k : string) : bool :=
  match k with
  | String c EmptyString => key_char c
  | String c (String n EmptyString as k') =>
      key_char c && (key_chars k' || (Ascii.nat_of_ascii n =? 10)%nat)
  | String c k' => key_char c && key_chars k'
  | EmptyString => false
  end.

Definition validate_key (k : string) (max_length : nat) : result unit :=
  if (max_length <? String.length k)%nat then Err AirflowException
  else if negb (key_chars k) then Err AirflowException
  else Ok tt.

Definition lift {A} (m : result A) : HM A := λ h,
  match m with Ok a => Ok (a, h) | Err e => Err e end.

(** ** Contexts *)

Definition push_context_managed_dag (d : nat) : HM unit := modify (λ h,
  with_dag_context (Some d)
    (match _context_managed_dag h with
     | Some c => c :: _previous_context_managed_dags h
     | None => _previous_context_managed_dags h end) h).

Definition pop_context_managed_dag : HM unit := modify (λ h,
  match _previous_context_managed_dags h with
  | c :: p => with_dag_context (Some c) p h
  | [] => with_dag_context None [] h
  end).

Definition get_current_dag : HM (option nat) := λ h, Ok (_context_managed_dag h, h).

Definition push_context_managed_task_group (g : nat) : HM unit := modify (λ h,
  with_group_context (Some g)
    (match _context_managed_task_group h with
     | Some c => c :: _previous_context_managed_task_groups h
     | None => _previous_context_managed_task_groups h end) h).

Definition pop_context_managed_task_group : HM unit := modify (λ h,
  match _previous_context_managed_task_groups h with
  | c :: p => with_group_context (Some c) p h
  | [] => with_group_context None [] h
  end).

Definition get_current_task_group (dag : option nat) : HM (option nat) := λ h,
  match _context_managed_task_group h with
  | Some g => Ok (Some g, h)
  | None =>
      match (match dag with Some d => Some d | None => _context_managed_dag h end) with
      | Some d => (c ← dag_at d; mret (Some (dc_task_group c))) h
      | None => Ok (None, h)
      end
  end.

(** ** Task groups *)

(** [TaskGroup.group_id] and [TaskGroup.child_id]: a parent is allocated before
    its children, so the address of a group is fuel enough. *)
Fixpoint group_id_at (fuel : nat) (groups : list GroupCell) (g : nat) : option string :=
  match fuel, groups !! g with
  | S fuel, Some c =>
      match _parent_group c, groups !! (default 0 (_parent_group c)) with
      | Some p, Some pc =>
          match group_id_at fuel groups p, _group_id c with
          | Some pid, Some gid =>
              if prefix_group_id pc && negb (pid ≟ "")
              then Some (pid +:+ "." +:+ gid) else Some gid
          | _, gid => gid
          end
      | _, _ => _group_id c
      end
  | _, _ => None
  end.

Definition group_id (h : Heap) (g : nat) : option string := group_id_at (S g) (h_groups h) g.

Definition child_id (h : Heap) (g : nat) (label : string) : string :=
  match h_groups h !! g, group_id h g with
  | Some c, Some gid => if prefix_group_id c && negb (gid ≟ "") then gid +:+ "." +:+ label else label
  | _, _ => label
  end.

(** An f-string renders [None] as the text None. *)
Definition fstring (s : option string) : string := default "None" s.

Definition upstream_join_id (h : Heap) (g : nat) : string := fstring (group_id h g) +:+ ".upstream_join_id".
Definition downstream_join_id (h : Heap) (g : nat) : string := fstring (group_id h g) +:+ ".downstream_join_id".

Definition with_children (l : list (string * Child)) (c : GroupCell) : GroupCell :=
  {| _group_id := _group_id c; prefix_group_id := prefix_group_id c; _parent_group := _parent_group c;
     gc_used_in := gc_used_in c; used_group_ids := used_group_ids c; children := l;
     upstream_group_ids := upstream_group_ids c; downstream_group_ids := downstream_group_ids c;
     gc_upstream_task_ids := gc_upstream_task_ids c; gc_downstream_task_ids := gc_downstream_task_ids c |}.

Definition with_used (u : gset (option string)) (c : GroupCell) : GroupCell :=
  {| _group_id := _group_id c; prefix_group_id := prefix_group_id c; _parent_group := _parent_group c;
     gc_used_in := gc_used_in c; used_group_ids := u; children := children c;
     upstream_group_ids := upstream_group_ids c; downstream_group_ids := downstream_group_ids c;
     gc_upstream_task_ids := gc_upstream_task_ids c; gc_downstream_task_ids := gc_downstream_task_ids c |}.

Definition with_group_relatives (ug dg : gset (option string)) (ut dt : gset string) (c : GroupCell) : GroupCell :=
  {| _group_id := _group_id c; prefix_group_id := prefix_group_id c; _parent_group := _parent_group c;
     gc_used_in := gc_used_in c; used_group_ids := used_group_ids c; children := children c;
     upstream_group_ids := ug; downstream_group_ids := dg;
     gc_upstream_task_ids := ut; gc_downstream_task_ids := dt |}.

(** [key in group.used_group_ids] and [group.used_group_ids.add(key)]. *)
Definition is_used (g : nat) (key : option string) : HM bool :=
  c ← group_at g; u ← group_at (gc_used_in c); mret (key ∈? used_group_ids u).

Definition add_used (g : nat) (key : option string) : HM unit :=
  c ← group_at g; u ← group_at (gc_used_in c);
  set_group (gc_used_in c) (with_used ({[key]} ∪ used_group_ids u) u).

(** [TaskGroup.add]: a group has no children yet when its constructor adds it
    to its parent, the only call with a group. *)
Definition task_group_add (g : nat) (key : string) (child : Child) : HM unit :=
  c ← group_at g;
  if key ∈? (children c).*1 then raise DuplicateTaskIdFound
  else set_group g (with_children (children c ++ [(key, child)]) c).

Definition new_group (gid : option string) (prefix : bool) (parent : option nat) (used_in : nat) : GroupCell :=
  {| _group_id := gid; prefix_group_id := prefix; _parent_group := parent; gc_used_in := used_in;
     used_group_ids := ∅; children := []; upstream_group_ids := ∅; downstream_group_ids := ∅;
     gc_upstream_task_ids := ∅; gc_downstream_task_ids := ∅ |}.

Definition register_group (g : nat) : HM unit :=
  h ← get_heap;
  _ ← add_used g (group_id h g);
  _ ← add_used g (Some (downstream_join_id h g));
  add_used g (Some (upstream_join_id h g)).

(** [TaskGroup.create_root]. *)
Definition create_root : HM nat :=
  h ← get_heap;
  g ← alloc_group (new_group None true None (length (h_groups h)));
  _ ← register_group g;
  mret g.

(** [TaskGroup.__init__] with a group id ([add_suffix_on_collision] false). *)
Definition task_group_init (gid : string) (prefix : bool) (parent_group dag : option nat) : HM nat :=
  if gid ≟ "" then raise ValueError else
  cur ← get_current_dag;
  let dag := match dag with Some d => Some d | None => cur end in
  match parent_group, dag with
  | None, None => raise AirflowException
  | _, _ =>
      parent ← match parent_group with Some p => mret (Some p) | None => get_current_task_group dag end;
      match parent with
      | None => raise AirflowException
      | Some p =>
          pc ← group_at p;
          used ← is_used p (Some gid);
          if (used : bool) then raise DuplicateTaskIdFound else
          g ← alloc_group (new_group (Some gid) prefix (Some p) (gc_used_in pc));
          _ ← register_group g;
          h ← get_heap;
          _ ← task_group_add p (fstring (group_id h g)) (ChildGroup g);
          mret g
      end
  end.

(** [TaskGroup.__iter__]: the tasks of the group and of its subgroups. *)
Fixpoint iter_group (fuel : nat) (groups : list GroupCell) (g : nat) : list nat :=
  match fuel, groups !! g with
  | S fuel, Some c =>
      flat_map (λ kc, match kc.2 with ChildTask r => [r] | ChildGroup g' => iter_group fuel groups g' end)
               (children c)
  | _, _ => []
  end.

(** [TaskGroup.has_task]. *)
Fixpoint group_has_task (fuel : nat) (groups : list GroupCell) (g : nat) (tid : string) : bool :=
  match fuel, groups !! g with
  | S fuel, Some c =>
      (tid ∈? (children c).*1) ||
      existsb (λ kc, match kc.2 with ChildTask _ => false | ChildGroup g' => group_has_task fuel groups g' tid end)
              (children c)
  | _, _ => false
  end.

(** [task.get_direct_relatives(upstream)]: the ids of the tasks it returns. *)
Definition direct_relatives (upstream : bool) (r : nat) : HM (list string) :=
  oc ← op_at r;
  let ids := Graph.get_direct_relative_ids (oc_op oc) upstream in
  match ids, oc_dag oc with
  | [], _ => mret []
  | _, None => raise AirflowException
  | _, Some d => dc ← dag_at d; if forallb (λ x, x ∈? (dc_task_dict dc).*1) ids then mret ids else raise TaskNotFound
  end.

(** The test of [get_roots] ([upstream] true) and [get_leaves]. *)
Definition is_end (g : nat) (upstream : bool) (r : nat) : HM bool :=
  ids ← direct_relatives upstream r;
  h ← get_heap;
  mret (negb (existsb (group_has_task (length (h_groups h)) (h_groups h) g) ids)).

Fixpoint filter_ends (g : nat) (upstream : bool) (l : list nat) : HM (list nat) :=
  match l with
  | [] => mret []
  | r :: l => b ← is_end g upstream r; rest ← filter_ends g upstream l; mret (if b : bool then r :: rest else rest)
  end.

(** [TaskGroup.get_roots] ([upstream] true) and [TaskGroup.get_leaves]. *)
Definition get_ends (g : nat) (upstream : bool) : HM (list nat) :=
  h ← get_heap; filter_ends g upstream (iter_group (length (h_groups h)) (h_groups h) g).

(** The properties [roots] and [leaves] of [TaskMixin]. *)
Definition mixin_roots (m : TaskMixin) : HM (list nat) :=
  match m with
  | MTask r | MXComArg r => mret [r]
  | MGroup g => get_ends g true
  | MEdge e => c ← edge_at e; mret (em_downstream c)
  end.

Definition mixin_leaves (m : TaskMixin) : HM (list nat) :=
  match m with
  | MTask r | MXComArg r => mret [r]
  | MGroup g => get_ends g false
  | MEdge e => c ← edge_at e; mret (em_upstream c)
  end.

Fixpoint concat_map {A B} (f : A → HM (list B)) (l : list A) : HM (list B) :=
  match l with
  | [] => mret []
  | x :: l => a ← f x; b ← concat_map f l; mret (a ++ b)
  end.

(** ** Operators and DAGs *)

Definition set_start_end (sd ed : option datetime) (t : BaseOperator) : BaseOperator :=
  {| task_id := task_id t; task_type := task_type t; retries := retries t; retry_delay := retry_delay t;
     retry_exponential_backoff := retry_exponential_backoff t; max_retry_delay := max_retry_delay t;
     op_start_date := sd; op_end_date := ed; depends_on_past := depends_on_past t;
     wait_for_downstream := wait_for_downstream t; trigger_rule := trigger_rule t;
     op_priority_weight := op_priority_weight t; weight_rule := weight_rule t; op_queue := op_queue t;
     op_pool := op_pool t; op_pool_slots := op_pool_slots t; task_concurrency := task_concurrency t;
     on_execute_callback := on_execute_callback t; on_success_callback := on_success_callback t;
     inherits_from_dummy_operator := inherits_from_dummy_operator t; is_SkipMixin := is_SkipMixin t;
     op_executor_config := op_executor_config t; deps := deps t;
     upstream_task_ids := upstream_task_ids t; downstream_task_ids := downstream_task_ids t |}.

Definition set_relative_ids (us ds : list string) (t : BaseOperator) : BaseOperator :=
  {| task_id := task_id t; task_type := task_type t; retries := retries t; retry_delay := retry_delay t;
     retry_exponential_backoff := retry_exponential_backoff t; max_retry_delay := max_retry_delay t;
     op_start_date := op_start_date t; op_end_date := op_end_date t; depends_on_past := depends_on_past t;
     wait_for_downstream := wait_for_downstream t; trigger_rule := trigger_rule t;
     op_priority_weight := op_priority_weight t; weight_rule := weight_rule t; op_queue := op_queue t;
     op_pool := op_pool t; op_pool_slots := op_pool_slots t; task_concurrency := task_concurrency t;
     on_execute_callback := on_execute_callback t; on_success_callback := on_success_callback t;
     inherits_from_dummy_operator := inherits_from_dummy_operator t; is_SkipMixin := is_SkipMixin t;
     op_executor_config := op_executor_config t; deps := deps t;
     upstream_task_ids := us; downstream_task_ids := ds |}.

Definition set_task_dict (l : list (string * nat)) (c : DagCell) : DagCell :=
  {| dc_attrs := dc_attrs c; dc_task_dict := l; dc_task_group := dc_task_group c; dc_edge_info := dc_edge_info c |}.

(** The dates a task gets when it joins a DAG; [None] when both lack a start. *)
Definition joined_start (dag_start task_start : option datetime) : option datetime :=
  match task_start, dag_start with
  | None, d => d
  | Some t, Some d => Some (Z.max t d)
  | Some t, None => Some t
  end.

Definition joined_end (dag_end task_end : option datetime) : option datetime :=
  match task_end, dag_end with
  | None, d => d
  | Some t, Some d => Some (Z.min t d)
  | Some t, None => Some t
  end.

Definition set_oc_dag (d : option nat) (oc : OpCell) : OpCell := {| oc_op := oc_op oc; oc_dag := d |}.

(** [DAG.add_task].  The assignment [task.dag = self] at its end finds the task
    in the dictionary, so that the setter only checks and stores. *)
Definition add_task (d r : nat) : HM unit :=
  dc ← dag_at d;
  oc ← op_at r;
  match joined_start (dag_start_date (dc_attrs dc)) (op_start_date (oc_op oc)) with
  | None => raise AirflowException
  | Some start =>
      let t := set_start_end (Some start)
                 (joined_end (dag_end_date (dc_attrs dc)) (op_end_date (oc_op oc))) (oc_op oc) in
      used ← is_used (dc_task_group dc) (Some (task_id t));
      if existsb (λ kr, (kr.1 ≟ task_id t) && negb (kr.2 ≟ r)) (dc_task_dict dc) || used
      then raise DuplicateTaskIdFound
      else if negb (oc_dag oc ≟ None) && negb (oc_dag oc ≟ Some d) then raise AirflowException
      else
        _ ← set_dag_cell d (set_task_dict
              (if task_id t ∈? (dc_task_dict dc).*1 then dc_task_dict dc
               else dc_task_dict dc ++ [(task_id t, r)]) dc);
        _ ← set_op r {| oc_op := t; oc_dag := Some d |};
        add_used (dc_task_group dc) (Some (task_id t))
  end.

(** The setter of [BaseOperator.dag]. *)
Definition set_dag (r : nat) (dag : option nat) : HM unit :=
  oc ← op_at r;
  match dag with
  | None => set_op r (set_oc_dag None oc)
  | Some d =>
      if negb (oc_dag oc ≟ None) && negb (oc_dag oc ≟ Some d) then raise AirflowException else
      dc ← dag_at d;
      _ ← (if existsb (λ kr, (kr.1 ≟ task_id (oc_op oc)) && (kr.2 ≟ r)) (dc_task_dict dc)
           then mret tt else add_task d r);
      oc ← op_at r;
      set_op r (set_oc_dag (Some d) oc)
  end.

(** The arguments of [BaseOperator.__init__]: the attributes that are stored as
    they are come with [arg_attrs], whose relatives are not used. *)
Record OpArgs := {
  arg_task_id : string;
  arg_trigger_rule : string;
  arg_weight_rule : string;
  arg_pool : option string;
  arg_dag : option nat;
  arg_task_group : option nat;
  arg_illegal : bool;          (* unknown keyword arguments are passed *)
  arg_attrs : BaseOperator;
}.

Definition parse_trigger_rule (s : string) : option TriggerRule :=
  List.find (λ r, TriggerRule_value r ≟ s)
    [ALL_SUCCESS; ALL_FAILED; ALL_DONE; ONE_SUCCESS; ONE_FAILED; NONE_FAILED;
     NONE_FAILED_OR_SKIPPED; NONE_SKIPPED; DUMMY; ALWAYS].

Definition parse_weight_rule (s : string) : option WeightRule :=
  List.find (λ r, WeightRule_value r ≟ s) [DOWNSTREAM; UPSTREAM; ABSOLUTE].

Definition new_operator (tid : string) (tr : TriggerRule) (wr : WeightRule) (a : OpArgs) : BaseOperator :=
  let t := arg_attrs a in
  {| task_id := tid; task_type := task_type t; retries := retries t; retry_delay := retry_delay t;
     retry_exponential_backoff := retry_exponential_backoff t; max_retry_delay := max_retry_delay t;
     op_start_date := op_start_date t; op_end_date := op_end_date t;
     depends_on_past := depends_on_past t || wait_for_downstream t;
     wait_for_downstream := wait_for_downstream t; trigger_rule := tr;
     op_priority_weight := op_priority_weight t; weight_rule := wr; op_queue := op_queue t;
     op_pool := default "default_pool" (arg_pool a); op_pool_slots := op_pool_slots t;
     task_concurrency := task_concurrency t;
     on_execute_callback := on_execute_callback t; on_success_callback := on_success_callback t;
     inherits_from_dummy_operator := inherits_from_dummy_operator t; is_SkipMixin := is_SkipMixin t;
     op_executor_config := op_executor_config t; deps := deps t;
     upstream_task_ids := []; downstream_task_ids := [] |}.

(** [BaseOperator.__init__].  The operator is allocated when the task group
    first stores it.  The message of the exception about the pool slots reads
    [dag.dag_id] of the argument, which may be [None]. *)
Definition operator_init (allow_illegal_arguments : bool) (a : OpArgs) : HM nat :=
  if arg_illegal a && negb allow_illegal_arguments then raise AirflowException else
  _ ← lift (validate_key (arg_task_id a) 250);
  group ← match arg_task_group a with Some g => mret (Some g) | None => get_current_task_group (arg_dag a) end;
  h ← get_heap;
  let r := length (h_ops h) in
  let tid := match group with Some g => child_id h g (arg_task_id a) | None => arg_task_id a end in
  _ ← match group with Some g => task_group_add g tid (ChildTask r) | None => mret tt end;
  let rule := if arg_trigger_rule a ≟ "dummy" then "always" else arg_trigger_rule a in
  match parse_trigger_rule rule with
  | None => raise AirflowException
  | Some tr =>
      if (op_pool_slots (arg_attrs a) <? 1)%Z
      then raise (match arg_dag a with Some _ => AirflowException | None => AttributeError end)
      else
      match parse_weight_rule (arg_weight_rule a) with
      | None => raise AirflowException
      | Some wr =>
          r ← alloc_op {| oc_op := new_operator tid tr wr a; oc_dag := None |};
          cur ← get_current_dag;
          _ ← set_dag r (match arg_dag a with Some d => Some d | None => cur end);
          mret r
      end
  end.

Definition DEFAULT_VIEW_PRESETS : list string := ["tree"; "graph"; "duration"; "gantt"; "landing_times"].
Definition ORIENTATION_PRESETS : list string := ["LR"; "TB"; "RL"; "BT"].

Definition init_attrs (n : Z) (g : DAG) : DAG :=
  {| dag_id := dag_id g; task_dict := []; schedule_interval := schedule_interval g;
     dag_start_date := dag_start_date g; dag_end_date := dag_end_date g; catchup := catchup g;
     max_active_tasks := n; max_active_runs := max_active_runs g; partial := false; fileloc := fileloc g;
     has_on_success_callback := has_on_success_callback g;
     has_on_failure_callback := has_on_failure_callback g; dagrun_timeout := dagrun_timeout g |}.

(** [DAG.__init__]. *)
Definition dag_init (attrs : DAG) (concurrency : option Z) (default_view orientation : string) : HM nat :=
  _ ← lift (validate_key (dag_id attrs) 250);
  let n := match concurrency with
           | Some c => if negb (c =? 0)%Z && (max_active_tasks attrs =? 0)%Z then c else max_active_tasks attrs
           | None => max_active_tasks attrs
           end in
  if negb (default_view ∈? DEFAULT_VIEW_PRESETS) then raise AirflowException else
  if negb (orientation ∈? ORIENTATION_PRESETS) then raise AirflowException else
  g ← create_root;
  alloc_dag {| dc_attrs := init_attrs n attrs; dc_task_dict := []; dc_task_group := g;
               dc_edge_info := ∅ |}.

(** ** Relationships *)

(** [DAG.set_edge_info] and [DAG.get_edge_info]. *)
Definition set_edge_info (d : nat) (up down : string) (label : option string) : HM unit :=
  dc ← dag_at d;
  set_dag_cell d {| dc_attrs := dc_attrs dc; dc_task_dict := dc_task_dict dc;
                    dc_task_group := dc_task_group dc;
                    dc_edge_info := <[(up, down) := label]> (dc_edge_info dc) |}.

(** [self.add_edge_info(operator.dag, ...)]; the property [dag] raises when the
    operator has none. *)
Definition add_edge_info (label : option string) (owner : nat) (up down : string) : HM unit :=
  oc ← op_at owner;
  match oc_dag oc with
  | None => raise AirflowException
  | Some d => set_edge_info d up down label
  end.

Definition task_id_of (r : nat) : HM string := oc ← op_at r; mret (task_id (oc_op oc)).

(** [EdgeModifier.set_upstream] and [set_downstream]; [link] is
    [operator.set_downstream], or nothing when [chain] is false. *)
Definition edge_set_upstream (link : nat → nat → HM unit) (e : nat) (l : list TaskMixin) : HM unit :=
  operators ← concat_map mixin_roots l;
  c ← edge_at e;
  _ ← for_each operators (λ o, for_each (em_downstream c) (λ down,
        uid ← task_id_of o; did ← task_id_of down;
        _ ← add_edge_info (em_label c) o uid did;
        link o down));
  c ← edge_at e;
  set_edge e {| em_label := em_label c; em_upstream := em_upstream c ++ operators;
                em_downstream := em_downstream c |}.

Definition edge_set_downstream (link : nat → nat → HM unit) (e : nat) (l : list TaskMixin) : HM unit :=
  operators ← concat_map mixin_leaves l;
  c ← edge_at e;
  _ ← for_each operators (λ o, for_each (em_upstream c) (λ up,
        uid ← task_id_of up; did ← task_id_of o;
        _ ← add_edge_info (em_label c) up uid did;
        link up o));
  c ← edge_at e;
  set_edge e {| em_label := em_label c; em_upstream := em_upstream c;
                em_downstream := em_downstream c ++ operators |}.

(** [Label(label)], which is [EdgeModifier.__init__]. *)
Definition edge_modifier_init (label : option string) : HM nat := λ h,
  Ok (length (h_edges h),
      with_edges (h_edges h ++ [{| em_label := label; em_upstream := []; em_downstream := [] |}]) h).

Definition no_link (_ _ : nat) : HM unit := mret tt.

(** [TaskGroup.update_relative] with another group and with tasks. *)
Definition group_update_relative_group (g other : nat) (upstream : bool) : HM unit :=
  h ← get_heap;
  let (parent, child) := if upstream then (g, other) else (other, g) in
  p ← group_at parent;
  _ ← set_group parent (with_group_relatives ({[group_id h child]} ∪ upstream_group_ids p)
        (downstream_group_ids p) (gc_upstream_task_ids p) (gc_downstream_task_ids p) p);
  c ← group_at child;
  set_group child (with_group_relatives (upstream_group_ids c)
    ({[group_id h parent]} ∪ downstream_group_ids c) (gc_upstream_task_ids c) (gc_downstream_task_ids c) c).

Definition group_update_relative_tasks (g : nat) (tasks : list nat) (upstream : bool) : HM unit :=
  for_each tasks (λ r,
    tid ← task_id_of r;
    c ← group_at g;
    set_group g
      (if upstream
       then with_group_relatives (upstream_group_ids c) (downstream_group_ids c)
              ({[tid]} ∪ gc_upstream_task_ids c) (gc_downstream_task_ids c) c
       else with_group_relatives (upstream_group_ids c) (downstream_group_ids c)
              (gc_upstream_task_ids c) ({[tid]} ∪ gc_downstream_task_ids c) c)).

(** [task_object.update_relative(self, upstream)] for an operator [self]. *)
Definition update_relative (m : TaskMixin) (self : nat) (upstream : bool) : HM unit :=
  match m with
  | MTask _ | MXComArg _ => mret tt
  | MGroup g => group_update_relative_tasks g [self] upstream
  | MEdge e => if upstream then edge_set_upstream no_link e [MTask self]
               else edge_set_downstream no_link e [MTask self]
  end.

(** [add_only_new] on the set of relatives in the given direction. *)
Definition add_only_new (upstream : bool) (r : nat) (item : string) : HM unit :=
  oc ← op_at r;
  let t := oc_op oc in
  if item ∈? Graph.get_direct_relative_ids t upstream then mret tt
  else set_op r {| oc_op := if upstream
                            then set_relative_ids (upstream_task_ids t ++ [item]) (downstream_task_ids t) t
                            else set_relative_ids (upstream_task_ids t) (downstream_task_ids t ++ [item]) t;
                   oc_dag := oc_dag oc |}.

(** The dictionary of the DAGs by their ids: a later DAG replaces an earlier one
    that has the same id. *)
Fixpoint collect_dags (l : list nat) (acc : gmap string nat) : HM (gmap string nat) :=
  match l with
  | [] => mret acc
  | r :: l =>
      oc ← op_at r;
      match oc_dag oc with
      | None => collect_dags l acc
      | Some d => dc ← dag_at d; collect_dags l (<[dag_id (dc_attrs dc) := d]> acc)
      end
  end.

(** [x.dag = dag] and [dag.task_group.add(x)] for an operator without a DAG. *)
Definition adopt (d r : nat) : HM unit :=
  oc ← op_at r;
  if oc_dag oc ≟ None then
    _ ← set_dag r (Some d);
    dc ← dag_at d;
    task_group_add (dc_task_group dc) (task_id (oc_op oc)) (ChildTask r)
  else mret tt.

Definition relate (self d : nat) (upstream : bool) (edge_modifier : option nat) (r : nat) : HM unit :=
  _ ← adopt d r;
  tid ← task_id_of r;
  sid ← task_id_of self;
  if upstream then
    _ ← add_only_new false r sid;
    _ ← add_only_new true self tid;
    match edge_modifier with
    | Some e => c ← edge_at e; add_edge_info (em_label c) self tid sid
    | None => mret tt
    end
  else
    _ ← add_only_new false self tid;
    _ ← add_only_new true r sid;
    match edge_modifier with
    | Some e => c ← edge_at e; add_edge_info (em_label c) self sid tid
    | None => mret tt
    end.

(** [BaseOperator._set_relatives]. *)
Definition _set_relatives (self : nat) (l : list TaskMixin) (upstream : bool)
    (edge_modifier : option nat) : HM unit :=
  task_list ← concat_map (λ m, _ ← update_relative m self (negb upstream);
                               if upstream then mixin_leaves m else mixin_roots m) l;
  dags ← collect_dags (self :: task_list) ∅;
  match map_to_list dags with
  | [(_, d)] =>
      _ ← adopt d self;
      for_each task_list (relate self d upstream edge_modifier)
  | _ => raise AirflowException
  end.

Definition set_downstream (self : nat) (l : list TaskMixin) (edge_modifier : option nat) : HM unit :=
  _set_relatives self l false edge_modifier.
Definition set_upstream (self : nat) (l : list TaskMixin) (edge_modifier : option nat) : HM unit :=
  _set_relatives self l true edge_modifier.

(** [operator.set_downstream(downstream)] as an edge modifier calls it. *)
Definition link_tasks (o down : nat) : HM unit := set_downstream o [MTask down] None.

(** [TaskGroup._set_relative].  The roots (leaves) are found one by one while
    the relationships are set; a group that gets a new child meanwhile raises. *)
Fixpoint group_relate (g : nat) (size : nat) (l : list TaskMixin) (upstream : bool) (tasks : list nat) : HM unit :=
  match tasks with
  | [] => mret tt
  | r :: tasks =>
      b ← is_end g upstream r;
      _ ← (if b : bool then _set_relatives r l upstream None else mret tt);
      c ← group_at g;
      if (length (children c) =? size)%nat then group_relate g size l upstream tasks else raise RuntimeError
  end.

Definition group_set_relative (g : nat) (l : list TaskMixin) (upstream : bool) : HM unit :=
  h ← get_heap;
  c ← group_at g;
  _ ← group_relate g (length (children c)) l upstream (iter_group (length (h_groups h)) (h_groups h) g);
  for_each l (λ m,
    match m with
    | MGroup other => group_update_relative_group g other upstream
    | _ => tasks ← mixin_roots m; group_update_relative_tasks g tasks upstream
    end).

(** [x.set_downstream(l)] and [x.set_upstream(l)] for any [TaskMixin]. *)
Definition mixin_set_downstream (m : TaskMixin) (l : list TaskMixin) : HM unit :=
  match m with
  | MTask r | MXComArg r => set_downstream r l None
  | MGroup g => group_set_relative g l false
  | MEdge e => edge_set_downstream link_tasks e l
  end.

Definition mixin_set_upstream (m : TaskMixin) (l : list TaskMixin) : HM unit :=
  match m with
  | MTask r | MXComArg r => set_upstream r l None
  | MGroup g => group_set_relative g l true
  | MEdge e => edge_set_upstream link_tasks e l
  end.

(** [DAG.set_dependency]. *)
Definition set_dependency (d : nat) (upstream_task_id downstream_task_id : string) : HM unit :=
  dc ← dag_at d;
  match List.find (λ kr, kr.1 ≟ upstream_task_id) (dc_task_dict dc),
        List.find (λ kr, kr.1 ≟ downstream_task_id) (dc_task_dict dc) with
  | Some (_, u), Some (_, v) => set_downstream u [MTask v] None
  | _, _ => raise TaskNotFound
  end.

(** The arguments of [chain]: one object or a sequence of them. *)
Inductive Chainable := COne (m : TaskMixin) | CSeq (l : list TaskMixin).

Definition chain_list (c : Chainable) : list TaskMixin :=
  match c with COne m => [m] | CSeq l => l end.

(** [isinstance(x, (BaseOperator, XComArg, EdgeModifier))]. *)
Definition chainable_one (c : Chainable) : option TaskMixin :=
  match c with
  | COne (MGroup _) | CSeq _ => None
  | COne m => Some m
  end.

Definition chain_pair (up down : Chainable) : HM unit :=
  match chainable_one up, chainable_one down with
  | Some m, _ => mixin_set_downstream m (chain_list down)
  | None, Some m => mixin_set_upstream m (chain_list up)
  | None, None =>
      match up, down with
      | CSeq ups, CSeq downs =>
          if (length ups =? length downs)%nat
          then for_each (zip ups downs) (λ ud, mixin_set_downstream ud.1 [ud.2])
          else raise AirflowException
      | _, _ => raise TypeError
      end
  end.

Fixpoint chain (tasks : list Chainable) : HM unit :=
  match tasks with
  | up :: ((down :: _) as rest) => _ ← chain_pair up down; chain rest
  | _ => mret tt
  end.

Definition cross_downstream (from_tasks to_tasks : list TaskMixin) : HM unit :=
  for_each from_tasks (λ m, mixin_set_downstream m to_tasks).

(** The DAG as the rest of the program reads it. *)
Definition freeze (h : Heap) (c : DagCell) : DAG :=
  let a := dc_attrs c in
  {| dag_id := dag_id a;
     task_dict := omap (λ kr, oc_op <$> h_ops h !! kr.2) (dc_task_dict c);
     schedule_interval := schedule_interval a;
     dag_start_date := dag_start_date a; dag_end_date := dag_end_date a; catchup := catchup a;
     max_active_tasks := max_active_tasks a; max_active_runs := max_active_runs a; partial := partial a;
     fileloc := fileloc a; has_on_success_callback := has_on_success_callback a;
     has_on_failure_callback := has_on_failure_callback a; dagrun_timeout := dagrun_timeout a |}.
End DagBuild.
Import Graph DagBuild.

(** ** The heap invariant *)

Definition dag_attrs (h : Heap) : list DAG := dc_attrs <$> h_dags h.

(** Different DAG objects have different ids. *)
Definition ids_unique (h : Heap) : Prop := NoDup (dag_id <$> dag_attrs h).

Definition has_dag (h : Heap) (r d : nat) : Prop := ∃ oc, h_ops h !! r = Some oc ∧ oc_dag oc = Some d.

Definition dates_joined (a : DAG) (t : BaseOperator) : Prop :=
  (∃ s, op_start_date t = Some s ∧ ∀ s0, dag_start_date a = Some s0 → (s0 ≤ s)%Z) ∧
  (∀ e0, dag_end_date a = Some e0 → ∃ e, op_end_date t = Some e ∧ (e ≤ e0)%Z).

(** An operator of a DAG is in its dictionary, the dictionary holds only its
    operators under their ids, a relative is an operator of the same DAG that
    has the edge in the other direction, and the dates are within the DAG's. *)
Record heap_ok (h : Heap) : Prop := {
  ok_member : ∀ r oc d, h_ops h !! r = Some oc → oc_dag oc = Some d →
    ∃ dc, h_dags h !! d = Some dc ∧ (task_id (oc_op oc), r) ∈ dc_task_dict dc;
  ok_dict : ∀ d dc tid r, h_dags h !! d = Some dc → (tid, r) ∈ dc_task_dict dc →
    ∃ oc, h_ops h !! r = Some oc ∧ task_id (oc_op oc) = tid ∧ oc_dag oc = Some d;
  ok_keys : ∀ d dc, h_dags h !! d = Some dc → NoDup (dc_task_dict dc).*1;
  ok_edges : ∀ r oc b x, h_ops h !! r = Some oc → x ∈ get_direct_relative_ids (oc_op oc) b →
    ∃ d r' oc', oc_dag oc = Some d ∧ h_ops h !! r' = Some oc' ∧ oc_dag oc' = Some d ∧
      task_id (oc_op oc') = x ∧ task_id (oc_op oc) ∈ get_direct_relative_ids (oc_op oc') (negb b);
  ok_dates : ∀ r oc d dc, h_ops h !! r = Some oc → oc_dag oc = Some d → h_dags h !! d = Some dc →
    dates_joined (dc_attrs dc) (oc_op oc);
  ok_names : ∀ r oc, h_ops h !! r = Some oc → task_id (oc_op oc) ≠ "";
}.

Lemma HM_bind_ok {A B} (m : HM A) (f : A → HM B) h b h' :
  (m ≫= f) h = Ok (b, h') ↔ ∃ a h1, m h = Ok (a, h1) ∧ f a h1 = Ok (b, h').
Proof. unfold mbind, HM_bind. destruct (m h) as [[a h1]|e]; naive_solver. Qed.

Lemma deref_ok {A} (cells : Heap → list A) r h c h' :
  deref cells r h = Ok (c, h') ↔ cells h !! r = Some c ∧ h' = h.
Proof. unfold deref. destruct (cells h !! r); naive_solver. Qed.

(** Invert a successful run, one bind at a time. *)
Ltac run_inv H :=
  repeat (apply HM_bind_ok in H; destruct H as (? & ? & ? & H)).

Tactic Notation "run_step" hyp(H) "as" simple_intropattern(x) simple_intropattern(h) simple_intropattern(Hx) :=
  apply HM_bind_ok in H as (x & h & Hx & H).

(** *** Operations that leave operators, DAGs and dictionaries alone *)

Definition dag_view (h : Heap) : list (DAG * list (string * nat)) :=
  (λ c, (dc_attrs c, dc_task_dict c)) <$> h_dags h.

Definition same_core (h h' : Heap) : Prop := h_ops h' = h_ops h ∧ dag_view h' = dag_view h.

Definition keeps {A} (m : HM A) : Prop := ∀ h a h', m h = Ok (a, h') → same_core h h'.

#[export] Instance same_core_preorder : PreOrder same_core.
Proof. split; [done|]. intros a b c [H1 H2] [H3 H4]. split; congruence. Qed.

Lemma keeps_ret {A} (a : A) : keeps (mret a).
Proof. intros h b h' [= -> ->]. done. Qed.
Lemma keeps_raise {A} e : keeps (raise e : HM A).
Proof. by intros h b h'. Qed.
Lemma keeps_bind {A B} (m : HM A) (f : A → HM B) : keeps m → (∀ a, keeps (f a)) → keeps (m ≫= f).
Proof. intros Hm Hf h b h' H. run_step H as a h1 Ha. etrans; [by eapply Hm|by eapply Hf]. Qed.
Lemma keeps_for_each {A} (l : list A) f : (∀ x, keeps (f x)) → keeps (for_each l f).
Proof. intros Hf. induction l as [|x l IH]; [apply keeps_ret|]. by apply keeps_bind. Qed.
Lemma keeps_concat_map {A B} (f : A → HM (list B)) l : (∀ x, keeps (f x)) → keeps (concat_map f l).
Proof.
  intros Hf. induction l as [|x l IH]; [apply keeps_ret|].
  apply keeps_bind; [done|]. intros a. apply keeps_bind; [done|]. intros b. apply keeps_ret.
Qed.
Lemma keeps_deref {A} (cells : Heap → list A) r : keeps (deref cells r).
Proof. by intros h c h' [_ ->]%deref_ok. Qed.
Lemma keeps_get_heap : keeps get_heap.
Proof. intros h a h' [= -> ->]. done. Qed.
Lemma keeps_set_group g c : keeps (set_group g c).
Proof. intros h a h' [= <- <-]. done. Qed.
Lemma keeps_set_edge g c : keeps (set_edge g c).
Proof. intros h a h' [= <- <-]. done. Qed.
Lemma keeps_alloc_group c : keeps (alloc_group c).
Proof. intros h a h' [= <- <-]. done. Qed.
Lemma keeps_get_current_dag : keeps get_current_dag.
Proof. intros h a h' [= <- <-]. done. Qed.
Lemma keeps_lift {A} (m : result A) : keeps (lift m).
Proof. intros h a h'. unfold lift. destruct m; [|done]. by intros [= <- <-]. Qed.
Lemma keeps_set_edge_info d u v l : keeps (set_edge_info d u v l).
Proof.
  intros h a h' H. run_step H as dc h1 Hd. apply deref_ok in Hd as [Hd ->]. injection H as <- <-.
  split; [done|]. unfold dag_view. cbn. rewrite list_fmap_insert. cbn.
  apply list_insert_id. by rewrite list_lookup_fmap, Hd.
Qed.

Create HintDb keeps.
#[export] Hint Resolve keeps_concat_map keeps_ret keeps_raise keeps_deref keeps_get_heap keeps_set_group keeps_set_edge
  keeps_alloc_group keeps_get_current_dag keeps_lift keeps_set_edge_info : keeps.

(** Decompose a program that only reads, and writes groups and edges. *)
Ltac keeps_tac :=
  repeat first
    [ progress intros
    | progress cbv zeta
    | solve [eauto with keeps]
    | apply keeps_bind | apply keeps_for_each | apply keeps_concat_map
    | match goal with |- keeps (match ?x with _ => _ end) => destruct x end
    | match goal with |- keeps (if ?x then _ else _) => destruct x end ].

Lemma keeps_is_used g k : keeps (is_used g k).
Proof. unfold is_used, group_at. keeps_tac. Qed.
Lemma keeps_add_used g k : keeps (add_used g k).
Proof. unfold add_used, group_at. keeps_tac. Qed.
Lemma keeps_task_group_add g k c : keeps (task_group_add g k c).
Proof. unfold task_group_add, group_at. keeps_tac. Qed.
#[export] Hint Resolve keeps_is_used keeps_add_used keeps_task_group_add : keeps.

Lemma keeps_register_group g : keeps (register_group g).
Proof. unfold register_group. keeps_tac. Qed.
#[export] Hint Resolve keeps_register_group : keeps.

Lemma keeps_create_root : keeps create_root.
Proof. unfold create_root. keeps_tac. Qed.
Lemma keeps_get_current_task_group d : keeps (get_current_task_group d).
Proof.
  intros h a h'. unfold get_current_task_group. destruct (_context_managed_task_group h); [by intros [= <- <-]|].
  destruct (match d with Some _ => _ | None => _ end); [|by intros [= <- <-]].
  apply keeps_bind; [apply keeps_deref|intros; apply keeps_ret].
Qed.
#[export] Hint Resolve keeps_create_root keeps_get_current_task_group : keeps.

Lemma keeps_task_group_init gid p pg d : keeps (task_group_init gid p pg d).
Proof. unfold task_group_init, group_at. keeps_tac. Qed.

Lemma keeps_direct_relatives b r : keeps (direct_relatives b r).
Proof. unfold direct_relatives, op_at, dag_at. keeps_tac. Qed.
#[export] Hint Resolve keeps_direct_relatives : keeps.
Lemma keeps_is_end g b r : keeps (is_end g b r).
Proof. unfold is_end. keeps_tac. Qed.
#[export] Hint Resolve keeps_is_end : keeps.
Lemma keeps_get_ends g b : keeps (get_ends g b).
Proof.
  unfold get_ends. apply keeps_bind; [apply keeps_get_heap|]. intros h.
  generalize (iter_group (length (h_groups h)) (h_groups h) g) as l. induction l as [|r l IH]; simpl; keeps_tac.
Qed.
#[export] Hint Resolve keeps_get_ends : keeps.
Lemma keeps_mixin_roots m : keeps (mixin_roots m).
Proof. unfold mixin_roots, edge_at. keeps_tac. Qed.
Lemma keeps_mixin_leaves m : keeps (mixin_leaves m).
Proof. unfold mixin_leaves, edge_at. keeps_tac. Qed.
Lemma keeps_task_id_of r : keeps (task_id_of r).
Proof. unfold task_id_of, op_at. keeps_tac. Qed.
Lemma keeps_add_edge_info l r u v : keeps (add_edge_info l r u v).
Proof. unfold add_edge_info, op_at. keeps_tac. Qed.
#[export] Hint Resolve keeps_mixin_roots keeps_mixin_leaves keeps_task_id_of keeps_add_edge_info : keeps.
Lemma keeps_no_link a b : keeps (no_link a b).
Proof. apply keeps_ret. Qed.
#[export] Hint Resolve keeps_no_link : keeps.
Lemma keeps_update_relative m r b : keeps (update_relative m r b).
Proof.
  unfold update_relative, group_update_relative_tasks, edge_set_upstream, edge_set_downstream, group_at, edge_at.
  keeps_tac.
Qed.
Lemma keeps_group_update_relative_group g o b : keeps (group_update_relative_group g o b).
Proof. unfold group_update_relative_group, group_at. keeps_tac. Qed.
Lemma keeps_group_update_relative_tasks g l b : keeps (group_update_relative_tasks g l b).
Proof. unfold group_update_relative_tasks, group_at. keeps_tac. Qed.
Lemma keeps_collect_dags l acc : keeps (collect_dags l acc).
Proof. revert acc. induction l as [|r l IH]; intros acc; simpl; unfold op_at, dag_at; keeps_tac. Qed.
#[export] Hint Resolve keeps_update_relative keeps_group_update_relative_group
  keeps_group_update_relative_tasks keeps_collect_dags : keeps.

(** The invariant reads only operators, DAGs and dictionaries. *)
Lemma dag_view_lookup h h' d dc :
  dag_view h' = dag_view h → h_dags h' !! d = Some dc →
  ∃ dc0, h_dags h !! d = Some dc0 ∧ dc_attrs dc0 = dc_attrs dc ∧ dc_task_dict dc0 = dc_task_dict dc.
Proof.
  intros Hv Hd. assert (dag_view h' !! d = Some (dc_attrs dc, dc_task_dict dc)) as Hl.
  { unfold dag_view. by rewrite list_lookup_fmap, Hd. }
  rewrite Hv in Hl. unfold dag_view in Hl. rewrite list_lookup_fmap in Hl.
  destruct (h_dags h !! d) as [dc0|]; naive_solver.
Qed.

Lemma same_core_ok h h' : same_core h h' → heap_ok h → heap_ok h'.
Proof.
  intros [Ho Hv] Hok. split; rewrite ?Ho.
  - intros r oc d Hr Hd. destruct (ok_member h Hok r oc d Hr Hd) as (dc & Hdc & Hin).
    destruct (dag_view_lookup h' h d dc) as (dc' & ? & ? & E); [done|done|]. exists dc'. by rewrite E.
  - intros d dc tid r Hd Hin. destruct (dag_view_lookup h h' d dc) as (dc' & Hd' & _ & E); [done|done|].
    rewrite <-E in Hin. by apply (ok_dict h Hok d dc').
  - intros d dc Hd. destruct (dag_view_lookup h h' d dc) as (dc' & Hd' & _ & E); [done|done|].
    rewrite <-E. by apply (ok_keys h Hok d).
  - apply (ok_edges h Hok).
  - intros r oc d dc Hr Hd Hdc. destruct (dag_view_lookup h h' d dc) as (dc' & Hd' & E & _); [done|done|].
    rewrite <-E. by apply (ok_dates h Hok r oc d).
  - apply (ok_names h Hok).
Qed.

Lemma same_core_attrs h h' : same_core h h' → dag_attrs h' = dag_attrs h.
Proof.
  intros [_ Hv]. apply (f_equal (fmap fst)) in Hv. unfold dag_view, dag_attrs in *.
  by rewrite <-!list_fmap_compose in Hv.
Qed.

Lemma ids_unique_inj h d d' dc dc' :
  ids_unique h → h_dags h !! d = Some dc → h_dags h !! d' = Some dc' →
  dag_id (dc_attrs dc) = dag_id (dc_attrs dc') → d = d'.
Proof.
  intros Hu Hd Hd' E. eapply NoDup_lookup; [exact Hu| |]; unfold dag_attrs; rewrite !list_lookup_fmap.
  - by rewrite Hd.
  - by rewrite Hd', E.
Qed.

(** *** An operator joins a DAG *)

Definition relatives (b : bool) (oc : OpCell) : list string := get_direct_relative_ids (oc_op oc) b.

(** [h'] has the DAGs of [h], and its operators with the DAG they had. *)
Definition evolves (h h' : Heap) : Prop :=
  dag_attrs h' = dag_attrs h ∧
  ∀ r oc, h_ops h !! r = Some oc → ∃ oc', h_ops h' !! r = Some oc' ∧
    task_id (oc_op oc') = task_id (oc_op oc) ∧ ∀ d, oc_dag oc = Some d → oc_dag oc' = Some d.

#[export] Instance evolves_preorder : PreOrder evolves.
Proof.
  split; [split; naive_solver|]. intros a b c [H1 H2] [H3 H4]. split; [congruence|].
  intros r oc Hr. destruct (H2 r oc Hr) as (oc1 & Hr1 & E1 & D1).
  destruct (H4 r oc1 Hr1) as (oc2 & Hr2 & E2 & D2). exists oc2. naive_solver congruence.
Qed.

Lemma same_core_evolves h h' : same_core h h' → evolves h h'.
Proof. intros Hs. split; [by apply same_core_attrs|]. destruct Hs as [-> _]. naive_solver. Qed.

Lemma evolves_has_dag h h' r d : evolves h h' → has_dag h r d → has_dag h' r d.
Proof. intros [_ He] (oc & Hr & Hd). destruct (He r oc Hr) as (oc' & ? & _ & D). exists oc'. eauto. Qed.

(** The operator at [r] may take the DAG [d]. *)
Definition free_for (h : Heap) (d r : nat) : Prop :=
  ∀ oc, h_ops h !! r = Some oc → oc_dag oc = None ∨ oc_dag oc = Some d.

(** As [evolves], and no operator takes a DAG other than [d]. *)
Definition evolves_to (d : nat) (h h' : Heap) : Prop :=
  evolves h h' ∧ ∀ x, free_for h d x → free_for h' d x.

#[export] Instance evolves_to_preorder d : PreOrder (evolves_to d).
Proof. split; [split; [done|naive_solver]|]. intros a b c [H1 H2] [H3 H4]. split; [by etrans|naive_solver]. Qed.

Lemma same_core_evolves_to d h h' : same_core h h' → evolves_to d h h'.
Proof. intros Hs. split; [by apply same_core_evolves|]. destruct Hs as [E _]. unfold free_for. by rewrite E. Qed.

Section Join.
Context (h : Heap) (Hok : heap_ok h) (d r : nat) (dc : DagCell) (oc : OpCell) (t : BaseOperator).
Context (Hd : h_dags h !! d = Some dc) (Hr : h_ops h !! r = Some oc)
        (Hfree : oc_dag oc = None ∨ oc_dag oc = Some d)
        (Hid : task_id t = task_id (oc_op oc))
        (Hrel : ∀ b, get_direct_relative_ids t b = relatives b oc)
        (Hdates : dates_joined (dc_attrs dc) t)
        (Hown : ∀ r', (task_id t, r') ∈ dc_task_dict dc → r' = r).
Let dict' := if task_id t ∈? (dc_task_dict dc).*1 then dc_task_dict dc else dc_task_dict dc ++ [(task_id t, r)].
Let h' := with_ops (<[r := {| oc_op := t; oc_dag := Some d |}]> (h_ops h))
            (with_dags (<[d := set_task_dict dict' dc]> (h_dags h)) h).

Lemma join_dict k r' : (k, r') ∈ dict' ↔ (k, r') ∈ dc_task_dict dc ∨ (k = task_id t ∧ r' = r).
Proof.
  unfold dict'. case_bool_decide as E.
  - split; [by left|]. intros [?|[-> ->]]; [done|].
    apply list_elem_of_fmap in E as ([k' r''] & Hk & Hin). simpl in Hk. subst k'.
    by rewrite (Hown r'') in Hin.
  - rewrite elem_of_app, list_elem_of_singleton. naive_solver.
Qed.

Lemma join_ops x c :
  h_ops h' !! x = Some c ↔ (x = r ∧ c = {| oc_op := t; oc_dag := Some d |}) ∨ (x ≠ r ∧ h_ops h !! x = Some c).
Proof.
  unfold h'. cbn. destruct (decide (x = r)) as [->|Hne].
  - rewrite list_lookup_insert_eq by (by eapply lookup_lt_Some). naive_solver.
  - rewrite list_lookup_insert_ne by done. naive_solver.
Qed.

Lemma join_dags x c :
  h_dags h' !! x = Some c ↔ (x = d ∧ c = set_task_dict dict' dc) ∨ (x ≠ d ∧ h_dags h !! x = Some c).
Proof.
  unfold h'. cbn. destruct (decide (x = d)) as [->|Hne].
  - rewrite list_lookup_insert_eq by (by eapply lookup_lt_Some). naive_solver.
  - rewrite list_lookup_insert_ne by done. naive_solver.
Qed.

Lemma join_keys : NoDup dict'.*1.
Proof.
  unfold dict'. case_bool_decide as E; [by eapply ok_keys|].
  rewrite fmap_app. cbn. apply NoDup_app. split; [by eapply ok_keys|].
  split; [|apply NoDup_singleton]. by intros x Hx ->%list_elem_of_singleton.
Qed.

(** An operator of [h] in [h']. *)
Lemma join_op x c : h_ops h !! x = Some c → ∃ c', h_ops h' !! x = Some c' ∧
  task_id (oc_op c') = task_id (oc_op c) ∧ (∀ b, relatives b c' = relatives b c) ∧
  (∀ e, oc_dag c = Some e → oc_dag c' = Some e).
Proof.
  intros Hx. destruct (decide (x = r)) as [->|Hne].
  - exists {| oc_op := t; oc_dag := Some d |}. rewrite join_ops. simplify_eq.
    split_and!; [by left|done|exact Hrel|]. cbn. intros e He. destruct Hfree; congruence.
  - exists c. rewrite join_ops. naive_solver.
Qed.

Lemma join_evolves : evolves h h'.
Proof.
  split.
  - unfold dag_attrs, h'. cbn. rewrite list_fmap_insert. cbn. apply list_insert_id.
    by rewrite list_lookup_fmap, Hd.
  - intros x c Hx. destruct (join_op x c Hx) as (c' & ? & ? & _ & ?). eauto.
Qed.

Lemma join_ok : heap_ok h'.
Proof.
  split.
  - intros x c e [[-> ->]|[Hne Hx]]%join_ops Hc; cbn in Hc |- *.
    + injection Hc as <-. exists (set_task_dict dict' dc). split; [apply join_dags; by left|].
      cbn. apply join_dict. by right.
    + destruct (ok_member h Hok x c e Hx Hc) as (dc0 & Hdc0 & Hin).
      destruct (decide (e = d)) as [->|He].
      * exists (set_task_dict dict' dc). split; [apply join_dags; by left|]. simplify_eq.
        cbn. apply join_dict. by left.
      * exists dc0. split; [apply join_dags; by right|done].
  - intros e dc0 tid x [[-> ->]|[He Hdc0]]%join_dags Hin; cbn in Hin.
    + apply join_dict in Hin as [Hin|[-> ->]].
      * destruct (ok_dict h Hok d dc tid x Hd Hin) as (c & Hc & Ei & Ed).
        destruct (join_op x c Hc) as (c' & ? & E' & _ & D'). exists c'. split; [done|].
        split; [congruence|]. by apply D'.
      * eexists. split; [apply join_ops; by left|done].
    + destruct (ok_dict h Hok e dc0 tid x Hdc0 Hin) as (c & Hc & Ei & Ed).
      destruct (join_op x c Hc) as (c' & ? & E' & _ & D'). exists c'. split; [done|].
      split; [congruence|]. by apply D'.
  - intros e dc0 [[-> ->]|[He Hdc0]]%join_dags; [apply join_keys|by eapply ok_keys].
  - intros x c b y Hx Hy.
    assert (∃ c0, h_ops h !! x = Some c0 ∧ y ∈ relatives b c0 ∧ task_id (oc_op c) = task_id (oc_op c0) ∧
            ∀ e, oc_dag c0 = Some e → oc_dag c = Some e) as (c0 & Hc0 & Hy0 & Ei & Ed).
    { apply join_ops in Hx as [[-> ->]|[Hne Hx]]; [|by exists c]. exists oc.
      split; [done|]. split; [by rewrite <-Hrel|]. split; [done|]. cbn. intros e He. destruct Hfree; congruence. }
    destruct (ok_edges h Hok x c0 b y Hc0 Hy0) as (e & x' & c' & H1 & H2 & H3 & H4 & H5).
    destruct (join_op x' c' H2) as (c2 & G1 & G2 & G3 & G4).
    exists e, x', c2. split_and!; [by apply Ed|done|by apply G4|congruence|].
    rewrite Ei. specialize (G3 (negb b)). unfold relatives in G3. by rewrite G3.
  - intros x c e dc0 Hx Hc Hdc0.
    apply join_dags in Hdc0 as [[-> ->]|[He Hdc0]]; apply join_ops in Hx as [[-> ->]|[Hne Hx]]; cbn in *.
    + done.
    + by apply (ok_dates h Hok x c d).
    + congruence.
    + by apply (ok_dates h Hok x c e).
  - intros x c [[-> ->]|[Hne Hx]]%join_ops; [|by eapply ok_names].
    cbn. rewrite Hid. by eapply ok_names.
Qed.
End Join.

(** The effect of [op] on the relatives of the operators: none. *)
Definition same_relatives (h h' : Heap) : Prop :=
  ∀ r b, (relatives b <$> h_ops h' !! r) = (relatives b <$> h_ops h !! r).

Lemma same_core_relatives h h' : same_core h h' → same_relatives h h'.
Proof. intros [E _] r b. by rewrite E. Qed.

Lemma joined_dates a t start :
  joined_start (dag_start_date a) (op_start_date t) = Some start →
  dates_joined a (set_start_end (Some start) (joined_end (dag_end_date a) (op_end_date t)) t).
Proof.
  intros Hs. split; cbn.
  - exists start. split; [done|]. intros s0 E. rewrite E in Hs. destruct (op_start_date t); naive_solver lia.
  - intros e0 E. rewrite E. destruct (op_end_date t) as [e|]; cbn; eexists; (split; [done|lia]).
Qed.

Lemma add_task_spec d r h h' :
  add_task d r h = Ok (tt, h') → heap_ok h →
  heap_ok h' ∧ evolves_to d h h' ∧ same_relatives h h' ∧ has_dag h' r d.
Proof.
  unfold add_task. intros H Hok.
  run_step H as dc h1 Hd. apply deref_ok in Hd as [Hd ->].
  run_step H as oc h1 Hr. apply deref_ok in Hr as [Hr ->].
  destruct (joined_start _ _) as [start|] eqn:Es; [|done]. cbv zeta in H.
  run_step H as used h1 Hu. pose proof (keeps_is_used _ _ _ _ _ Hu) as Hs1. destruct Hs1 as [Eo Ev].
  assert (h1 = h) as ->.
  { unfold is_used in Hu. run_step Hu as c1 h2 Hc1. apply deref_ok in Hc1 as [_ ->].
    run_step Hu as c2 h2 Hc2. apply deref_ok in Hc2 as [_ ->]. by injection Hu. }
  destruct (existsb _ _ || used) eqn:Edup; [done|]. apply orb_false_iff in Edup as [Edup _].
  destruct (negb _ && negb _) eqn:Eother; [done|].
  set (t := set_start_end _ _ _) in *.
  run_step H as x1 h2 Hx1. injection Hx1 as <- <-. run_step H as x2 h3 Hx2. injection Hx2 as <- <-.
  pose proof (keeps_add_used _ _ _ _ _ H) as Hs.
  assert (oc_dag oc = None ∨ oc_dag oc = Some d) as Hfree.
  { apply andb_false_iff in Eother as [E|E]; apply negb_false_iff in E; apply bool_decide_eq_true in E; auto. }
  assert (∀ r', (task_id t, r') ∈ dc_task_dict dc → r' = r) as Hown.
  { intros r' Hin. rewrite existsb_false_elem in Edup. specialize (Edup _ Hin). cbn in Edup.
    rewrite bool_decide_eq_true_2 in Edup by done. apply negb_false_iff in Edup. by bool_to_prop. }
  assert (dates_joined (dc_attrs dc) t) as Hdates by by apply joined_dates.
  assert (∀ b, get_direct_relative_ids t b = relatives b oc) as Hrel by by intros [].
  pose proof (join_ok h Hok d r dc oc t Hd Hr Hfree eq_refl Hrel Hdates Hown) as Jok.
  pose proof (join_evolves h d r dc oc t Hd Hr Hfree eq_refl Hrel) as Jev.
  pose proof (join_op h d r dc oc t Hr Hfree eq_refl Hrel) as Jop.
  match type of Jok with heap_ok ?x => set (hj := x) in * end.
  split_and!.
  - by eapply same_core_ok.
  - etrans; [split; [exact Jev|]|by apply same_core_evolves_to]. intros x Hx c. cbn.
    destruct (decide (x = r)) as [->|Hne]; [|rewrite list_lookup_insert_ne by done; apply Hx].
    rewrite list_lookup_insert_eq by (by eapply lookup_lt_Some). intros [= <-]. by right.
  - intros x b. destruct Hs as [-> _]. destruct (decide (x = r)) as [->|Hne].
    + cbn. rewrite list_lookup_insert_eq by (by eapply lookup_lt_Some). rewrite Hr. done.
    + cbn. by rewrite list_lookup_insert_ne.
  - exists {| oc_op := t; oc_dag := Some d |}. destruct Hs as [-> _]. cbn.
    by rewrite list_lookup_insert_eq by (by eapply lookup_lt_Some).
Qed.

(** Storing the DAG an operator already has changes nothing. *)
Lemma set_same_dag h r d oc :
  h_ops h !! r = Some oc → oc_dag oc = Some d →
  with_ops (<[r := set_oc_dag (Some d) oc]> (h_ops h)) h = h.
Proof.
  intros Hr Hd. destruct h; cbn in *. unfold with_ops; cbn. f_equal. apply list_insert_id.
  rewrite Hr. f_equal. destruct oc; cbn in *. unfold set_oc_dag; cbn. by rewrite Hd.
Qed.

Lemma set_dag_spec d r h h' :
  set_dag r (Some d) h = Ok (tt, h') → heap_ok h →
  heap_ok h' ∧ evolves_to d h h' ∧ same_relatives h h' ∧ has_dag h' r d.
Proof.
  unfold set_dag. intros H Hok.
  run_step H as oc h1 Hr. apply deref_ok in Hr as [Hr ->]. destruct (negb _ && negb _); [done|].
  run_step H as dc h1 Hd. apply deref_ok in Hd as [Hd ->]. run_step H as x1 h1 Hx. destruct x1.
  assert (heap_ok h1 ∧ evolves_to d h h1 ∧ same_relatives h h1 ∧ has_dag h1 r d) as (G1 & G2 & G3 & G4).
  { destruct (existsb _ _) eqn:E; [|by apply add_task_spec]. injection Hx as <-.
    apply existsb_elem in E as ([k r'] & Hin & E). cbn in E. bool_to_prop. subst.
    destruct (ok_dict h Hok d dc _ _ Hd Hin) as (oc' & Hoc' & _ & Hd'). split; [done|]. split; [done|]. split; [done|]. by exists oc'. }
  run_step H as oc1 h2 Hr1. apply deref_ok in Hr1 as [Hr1 ->]. injection H as <-.
  destruct G4 as (oc2 & Hr2 & Hd2). simplify_eq. rewrite (set_same_dag h1 r d oc1) by done.
  split_and!; [done..|by exists oc1].
Qed.

Lemma adopt_spec d r h h' :
  adopt d r h = Ok (tt, h') → heap_ok h →
  (∀ oc, h_ops h !! r = Some oc → oc_dag oc = None ∨ oc_dag oc = Some d) →
  heap_ok h' ∧ evolves_to d h h' ∧ same_relatives h h' ∧ has_dag h' r d.
Proof.
  unfold adopt. intros H Hok Hfree. run_step H as oc h1 Hr. apply deref_ok in Hr as [Hr ->].
  case_bool_decide as E.
  - run_step H as x h1 Hx. destruct x. destruct (set_dag_spec d r h h1 Hx Hok) as (G1 & G2 & G3 & G4).
    run_step H as dc h2 Hd. apply deref_ok in Hd as [Hd ->]. pose proof (keeps_task_group_add _ _ _ _ _ _ H) as Hs.
    pose proof (same_core_evolves_to d _ _ Hs) as Hev. split_and!.
    + by eapply same_core_ok.
    + by etrans.
    + intros x b. rewrite <-(G3 x b). by apply same_core_relatives.
    + destruct Hev. by eapply evolves_has_dag.
  - injection H as <-. destruct (Hfree oc Hr) as [?|?]; [done|].
    split; [done|]. split; [done|]. split; [done|]. by exists oc.
Qed.

(** *** Adding an edge *)

Definition cell_add (upstream : bool) (item : string) (oc : OpCell) : OpCell :=
  let t := oc_op oc in
  if item ∈? get_direct_relative_ids t upstream then oc
  else {| oc_op := if upstream
                   then set_relative_ids (upstream_task_ids t ++ [item]) (downstream_task_ids t) t
                   else set_relative_ids (upstream_task_ids t) (downstream_task_ids t ++ [item]) t;
          oc_dag := oc_dag oc |}.

Lemma add_only_new_spec upstream r item h h' :
  add_only_new upstream r item h = Ok (tt, h') →
  h' = with_ops (alter (cell_add upstream item) r (h_ops h)) h ∧ is_Some (h_ops h !! r).
Proof.
  unfold add_only_new. intros H. run_step H as oc h1 Hr. apply deref_ok in Hr as [Hr ->]. cbv zeta in H.
  split; [|by eexists].
  unfold cell_add. destruct (_ ∈? _) eqn:E.
  - injection H as <-. destruct h; cbn in *. unfold with_ops; cbn. f_equal. symmetry.
    apply list_eq. intros i. destruct (decide (i = r)) as [->|Hne].
    + rewrite list_lookup_alter_eq, Hr. cbn. by rewrite E.
    + by rewrite list_lookup_alter_ne.
  - injection H as <-. f_equal. apply list_eq. intros i. destruct (decide (i = r)) as [->|Hne].
    + rewrite list_lookup_alter_eq, Hr, list_lookup_insert_eq by (by eapply lookup_lt_Some). cbn. by rewrite E.
    + by rewrite list_lookup_alter_ne, list_lookup_insert_ne.
Qed.

Lemma cell_add_relatives up item b x oc :
  x ∈ relatives b (cell_add up item oc) ↔ x ∈ relatives b oc ∨ (b = up ∧ x = item).
Proof.
  unfold cell_add, relatives. case_bool_decide as E; [naive_solver|].
  destruct up, b; cbn; rewrite ?elem_of_app, ?list_elem_of_singleton; naive_solver.
Qed.

Lemma cell_add_attrs up item oc :
  task_id (oc_op (cell_add up item oc)) = task_id (oc_op oc) ∧ oc_dag (cell_add up item oc) = oc_dag oc ∧
  op_start_date (oc_op (cell_add up item oc)) = op_start_date (oc_op oc) ∧
  op_end_date (oc_op (cell_add up item oc)) = op_end_date (oc_op oc).
Proof. unfold cell_add. case_bool_decide; [done|]. by destruct up. Qed.

Lemma add_only_new_cell up r item h h' x c :
  add_only_new up r item h = Ok (tt, h') → h_ops h !! x = Some c →
  ∃ c', h_ops h' !! x = Some c' ∧ task_id (oc_op c') = task_id (oc_op c) ∧ oc_dag c' = oc_dag c ∧
    op_start_date (oc_op c') = op_start_date (oc_op c) ∧ op_end_date (oc_op c') = op_end_date (oc_op c) ∧
    ∀ b y, y ∈ relatives b c' ↔ y ∈ relatives b c ∨ (x = r ∧ b = up ∧ y = item).
Proof.
  intros [-> _]%add_only_new_spec Hx. cbn. destruct (decide (x = r)) as [->|Hne].
  - exists (cell_add up item c). rewrite list_lookup_alter_eq, Hx. split; [done|].
    destruct (cell_add_attrs up item c) as (? & ? & ? & ?). split_and!; [done..|].
    intros b y. rewrite cell_add_relatives. naive_solver.
  - exists c. rewrite list_lookup_alter_ne by done. split_and!; [done..|]. naive_solver.
Qed.

Lemma add_only_new_back up r item h h' x :
  add_only_new up r item h = Ok (tt, h') → is_Some (h_ops h' !! x) → is_Some (h_ops h !! x).
Proof.
  intros [-> _]%add_only_new_spec. cbn. rewrite !lookup_lt_is_Some, length_alter. done.
Qed.

Lemma add_only_new_dags up r item h h' : add_only_new up r item h = Ok (tt, h') → h_dags h' = h_dags h.
Proof. by intros [-> _]%add_only_new_spec. Qed.

(** [h'] is [h] with the edge from [a] to [b]. *)
Record linked (h h' : Heap) (a b : nat) (ida idb : string) : Prop := {
  lk_dags : h_dags h' = h_dags h;
  lk_back : ∀ r, is_Some (h_ops h' !! r) → is_Some (h_ops h !! r);
  lk_cell : ∀ r c, h_ops h !! r = Some c →
    ∃ c', h_ops h' !! r = Some c' ∧ task_id (oc_op c') = task_id (oc_op c) ∧ oc_dag c' = oc_dag c ∧
      op_start_date (oc_op c') = op_start_date (oc_op c) ∧ op_end_date (oc_op c') = op_end_date (oc_op c) ∧
      ∀ u y, y ∈ relatives u c' ↔
        y ∈ relatives u c ∨ (r = a ∧ u = false ∧ y = idb) ∨ (r = b ∧ u = true ∧ y = ida);
}.

Lemma link_once h h1 h2 up1 up2 r1 r2 i1 i2 :
  up2 = negb up1 →
  add_only_new up1 r1 i1 h = Ok (tt, h1) → add_only_new up2 r2 i2 h1 = Ok (tt, h2) →
  if up1 then linked h h2 r2 r1 i1 i2 else linked h h2 r1 r2 i2 i1.
Proof.
  intros -> H1 H2.
  assert (h_dags h2 = h_dags h) as Hd
    by (rewrite (add_only_new_dags _ _ _ _ _ H2); by eapply add_only_new_dags).
  assert (∀ r, is_Some (h_ops h2 !! r) → is_Some (h_ops h !! r)) as Hb
    by (intros r ?; eapply add_only_new_back; [exact H1|]; by eapply add_only_new_back).
  destruct up1; (split; [done|done|]); intros r c Hr;
    destruct (add_only_new_cell _ _ _ _ _ r c H1 Hr) as (c1 & Hr1 & E1 & E2 & E3 & E4 & E5);
    destruct (add_only_new_cell _ _ _ _ _ r c1 H2 Hr1) as (c2 & Hr2 & F1 & F2 & F3 & F4 & F5);
    exists c2; (split_and!; [done|congruence..|]); intros u y; rewrite F5, E5; naive_solver.
Qed.

Lemma linked_evolves h h' a b ida idb : linked h h' a b ida idb → evolves h h'.
Proof.
  intros [Hd _ Hc]. split; [unfold dag_attrs; by rewrite Hd|]. intros r c Hr.
  destruct (Hc r c Hr) as (c' & ? & ? & E & _). exists c'. split_and!; [done..|]. by rewrite E.
Qed.

Lemma linked_evolves_to d h h' a b ida idb : linked h h' a b ida idb → evolves_to d h h'.
Proof.
  intros Hl. split; [by eapply linked_evolves|]. intros x Hx c' Hc'. destruct Hl as [_ Hback Hc].
  destruct (Hback x) as [c Hx0]; [by eexists|]. destruct (Hc x c Hx0) as (c1 & ? & _ & E & _). simplify_eq.
  rewrite E. by apply Hx.
Qed.

Lemma linked_ok h h' a b d ca cb :
  heap_ok h → h_ops h !! a = Some ca → h_ops h !! b = Some cb →
  oc_dag ca = Some d → oc_dag cb = Some d →
  linked h h' a b (task_id (oc_op ca)) (task_id (oc_op cb)) → heap_ok h'.
Proof.
  intros Hok Ha Hb Hda Hdb [Hd Hback Hc].
  assert (∀ r c', h_ops h' !! r = Some c' → ∃ c, h_ops h !! r = Some c) as Hback'.
  { intros r c' Hr. destruct (Hback r); [by eexists|]. by eexists. }
  split.
  - intros r c' e Hr He. destruct (Hback' r c' Hr) as [c Hr0].
    destruct (Hc r c Hr0) as (c'' & Hr' & Ei & Ed & _). simplify_eq. rewrite Hd, Ei.
    apply (ok_member h Hok r c); [done|by rewrite <-Ed].
  - intros e dc tid r. rewrite Hd. intros Hdc Hin.
    destruct (ok_dict h Hok e dc tid r Hdc Hin) as (c & Hr & Ei & Ed).
    destruct (Hc r c Hr) as (c' & Hr' & Ei' & Ed' & _). exists c'. split_and!; [done|congruence..].
  - intros e dc. rewrite Hd. apply (ok_keys h Hok).
  - intros r c' u y Hr Hy. destruct (Hback' r c' Hr) as [c Hr0].
    destruct (Hc r c Hr0) as (c1 & Hr1 & Ei & Ed & _ & _ & Erel). simplify_eq.
    apply Erel in Hy. destruct Hy as [Hy|[(Ea & Eu & Ey)|(Ea & Eu & Ey)]]; subst.
    + destruct (ok_edges h Hok r c u y Hr0 Hy) as (e & r' & c2 & G1 & G2 & G3 & G4 & G5).
      destruct (Hc r' c2 G2) as (c3 & Hr3 & Ei3 & Ed3 & _ & _ & Erel3).
      exists e, r', c3. split_and!; [congruence|done|congruence..|].
      rewrite Ei. apply Erel3. by left.
    + destruct (Hc b cb Hb) as (cb' & Hb' & Eib & Edb & _ & _ & Erelb). simplify_eq.
      exists d, b, cb'. split_and!; [congruence|done|congruence|done|].
      apply Erelb. rewrite Ei. cbn. naive_solver.
    + destruct (Hc a ca Ha) as (ca' & Ha' & Eia & Eda & _ & _ & Erela). simplify_eq.
      exists d, a, ca'. split_and!; [congruence|done|congruence|done|].
      apply Erela. rewrite Ei. cbn. naive_solver.
  - intros r c' e dc Hr He. rewrite Hd. intros Hdc. destruct (Hback' r c' Hr) as [c Hr0].
    destruct (Hc r c Hr0) as (c1 & Hr1 & Ei & Ed & Es & Ee & _). simplify_eq. rewrite Ed in He.
    pose proof (ok_dates h Hok r c e dc Hr0 He Hdc) as Hj. unfold dates_joined. by rewrite Es, Ee.
  - intros r c' Hr. destruct (Hback' r c' Hr) as [c Hr0].
    destruct (Hc r c Hr0) as (c1 & Hr1 & Ei & _). simplify_eq. rewrite Ei. by eapply ok_names.
Qed.

(** *** Setting relatives *)

(** [y] is among the relatives of the operator at [x], in direction [u]. *)
Definition rel (h : Heap) (x : nat) (u : bool) (y : string) : Prop :=
  ∃ c, h_ops h !! x = Some c ∧ y ∈ relatives u c.

Definition named (h : Heap) (r : nat) (tid : string) : Prop :=
  ∃ c, h_ops h !! r = Some c ∧ task_id (oc_op c) = tid.

Lemma same_relatives_rel h h' x u y : same_relatives h h' → rel h' x u y ↔ rel h x u y.
Proof.
  intros Hs. specialize (Hs x u). unfold rel.
  destruct (h_ops h !! x) as [c|], (h_ops h' !! x) as [c'|]; cbn in Hs; [|done|done|split; by intros (? & ? & _)].
  injection Hs as Hs. split; intros (c0 & [= <-] & Hy); eexists; (split; [done|congruence]).
Qed.

Lemma evolves_named h h' r tid : evolves h h' → named h r tid → named h' r tid.
Proof. intros [_ He] (c & Hr & E). destruct (He r c Hr) as (c' & ? & ? & _). exists c'. split; congruence. Qed.

Lemma linked_rel h h' a b ida idb x u y :
  linked h h' a b ida idb → is_Some (h_ops h !! a) → is_Some (h_ops h !! b) →
  rel h' x u y ↔ rel h x u y ∨ (x = a ∧ u = false ∧ y = idb) ∨ (x = b ∧ u = true ∧ y = ida).
Proof.
  intros [_ Hback Hc] [ca Ha] [cb Hb]. unfold rel. split.
  - intros (c' & Hx & Hy). destruct (Hback x) as [c Hx0]; [by eexists|].
    destruct (Hc x c Hx0) as (c1 & Hx1 & _ & _ & _ & _ & E). simplify_eq. apply E in Hy. naive_solver.
  - intros HH. assert (∃ c, h_ops h !! x = Some c) as [c Hx] by naive_solver.
    destruct (Hc x c Hx) as (c1 & Hx1 & _ & _ & _ & _ & E). exists c1. split; [done|]. apply E. naive_solver.
Qed.

Definition new_edge (up : bool) (self r : nat) (sid tid : string) (x : nat) (u : bool) (y : string) : Prop :=
  if up then (x = r ∧ u = false ∧ y = sid) ∨ (x = self ∧ u = true ∧ y = tid)
  else (x = self ∧ u = false ∧ y = tid) ∨ (x = r ∧ u = true ∧ y = sid).

Lemma task_id_of_ok r h tid h' : task_id_of r h = Ok (tid, h') → h' = h ∧ named h r tid.
Proof.
  unfold task_id_of. intros H. run_step H as c h1 Hr. apply deref_ok in Hr as [Hr ->]. injection H as <- <-.
  split; [done|by exists c].
Qed.

(** The edge modifier only writes edge information. *)
Lemma keeps_modifier (em : option nat) (f : EdgeModifier → HM unit) :
  (∀ c, keeps (f c)) → keeps (match em with Some e => edge_at e ≫= f | None => mret tt end : HM unit).
Proof. intros Hf. destruct em; [|apply keeps_ret]. apply keeps_bind; [apply keeps_deref|done]. Qed.

Lemma link_step (up : bool) d self r sid tid h h1 h2 :
  heap_ok h → has_dag h self d → has_dag h r d → named h self sid → named h r tid →
  add_only_new false (if up then r else self) (if up then sid else tid) h = Ok (tt, h1) →
  add_only_new true (if up then self else r) (if up then tid else sid) h1 = Ok (tt, h2) →
  heap_ok h2 ∧ evolves_to d h h2 ∧
  ∀ x u y, rel h2 x u y ↔ rel h x u y ∨ new_edge up self r sid tid x u y.
Proof.
  intros Hok (cs & Hs & Ds) (cr & Hr & Dr) (cs' & Hs' & Es) (cr' & Hr' & Er) H1 H2. simplify_eq.
  pose proof (link_once h h1 h2 false true _ _ _ _ eq_refl H1 H2) as Hl. cbn in Hl.
  destruct up; (split_and!;
    [by eapply linked_ok; [exact Hok| | | | |exact Hl]|by eapply linked_evolves_to|]);
    intros x u y; (rewrite (linked_rel _ _ _ _ _ _ x u y Hl) by (by eexists)); unfold new_edge; naive_solver.
Qed.

Lemma relate_spec self d (up : bool) em r h h' :
  relate self d up em r h = Ok (tt, h') → heap_ok h → has_dag h self d → free_for h d r →
  ∃ sid tid, named h self sid ∧ named h r tid ∧
  heap_ok h' ∧ evolves_to d h h' ∧ has_dag h' r d ∧
  ∀ x u y, rel h' x u y ↔ rel h x u y ∨ new_edge up self r sid tid x u y.
Proof.
  unfold relate. intros H Hok Hself Hfree.
  run_step H as [] h1 Ha. destruct (adopt_spec d r h h1 Ha Hok Hfree) as (G1 & G2 & G3 & G4).
  run_step H as tid h2 Ht. apply task_id_of_ok in Ht as [-> Ht].
  run_step H as sid h2 Hs. apply task_id_of_ok in Hs as [-> Hs].
  pose proof (evolves_has_dag _ _ _ _ (proj1 G2) Hself) as Hself1.
  assert (∃ h2 h3, add_only_new false (if up then r else self) (if up then sid else tid) h1 = Ok (tt, h2) ∧
     add_only_new true (if up then self else r) (if up then tid else sid) h2 = Ok (tt, h3) ∧ same_core h3 h')
    as (h2 & h3 & H1 & H2 & Hc).
  { destruct up; run_step H as [] h2 H1; run_step H as [] h3 H2; exists h2, h3; (split_and!; [done..|]);
      eapply (keeps_modifier em) in H; try exact H; intros; auto with keeps. }
  destruct (link_step up d self r sid tid h1 h2 h3) as (K1 & K2 & K3); [done..|].
  assert (named h self sid ∧ named h r tid) as [Hs0 Ht0].
  { assert (∀ x i, is_Some (h_ops h !! x) → named h1 x i → named h x i) as Hback.
    { intros x i [c Hx] (c1 & Hx1 & <-). destruct G2 as [[_ G2] _]. destruct (G2 x c Hx) as (c2 & ? & ? & _).
      simplify_eq. exists c. split; [done|congruence]. }
    split; apply Hback; try done.
    - destruct Hself as (c & ? & _). by exists c.
    - unfold adopt in Ha. run_step Ha as c h4 Hr. apply deref_ok in Hr as [Hr _]. by exists c. }
  exists sid, tid. pose proof (same_core_evolves_to d _ _ Hc) as Hev. split_and!; [done|done| | | |].
  - by eapply same_core_ok.
  - etrans; [exact G2|]. by etrans.
  - eapply evolves_has_dag; [exact (proj1 Hev)|]. eapply evolves_has_dag; [exact (proj1 K2)|done].
  - intros x u y. rewrite (same_relatives_rel h3 h') by (by apply same_core_relatives). rewrite K3.
    by rewrite (same_relatives_rel h h1).
Qed.

Lemma evolves_named_back h h' x i : evolves h h' → is_Some (h_ops h !! x) → named h' x i ↔ named h x i.
Proof.
  intros Hev [c Hx]. split; [|by apply evolves_named]. intros (c1 & Hx1 & <-).
  destruct Hev as [_ G2]. destruct (G2 x c Hx) as (c2 & ? & ? & _). simplify_eq. exists c. split; congruence.
Qed.

Lemma relate_all_spec self d (up : bool) em L h h' :
  for_each L (relate self d up em) h = Ok (tt, h') → heap_ok h → has_dag h self d →
  (∀ r, r ∈ L → is_Some (h_ops h !! r) ∧ free_for h d r) →
  heap_ok h' ∧ evolves_to d h h' ∧
  ∀ x u y, rel h' x u y ↔ rel h x u y ∨
    ∃ r sid tid, r ∈ L ∧ named h self sid ∧ named h r tid ∧ new_edge up self r sid tid x u y.
Proof.
  revert h. induction L as [|r L IH]; intros h H Hok Hself Hfree; cbn in H.
  { injection H as <-. split; [done|]. split; [done|]. intros x u y. split; [by left|].
    intros [?|(? & ? & ? & Hin & _)]; [done|]. by apply elem_of_nil in Hin. }
  run_step H as [] h1 H1.
  destruct (relate_spec self d up em r h h1) as (sid & tid & Hs & Ht & G1 & G2 & G3 & G4); [done..| |].
  { apply Hfree. left. }
  assert (∀ x, is_Some (h_ops h !! x) → is_Some (h_ops h1 !! x)) as Hsome.
  { intros x [c Hx]. destruct G2 as [[_ G2] _]. destruct (G2 x c Hx) as (c' & ? & _). by eexists. }
  destruct (IH h1 H G1) as (K1 & K2 & K3).
  { by eapply evolves_has_dag; [apply G2|]. }
  { intros r' Hr'. destruct (Hfree r') as [? ?]; [by right|]. split; [by apply Hsome|by apply G2]. }
  split; [done|]. split; [by etrans|]. intros x u y. rewrite K3, G4. setoid_rewrite elem_of_cons.
  assert (is_Some (h_ops h !! self)) as Hsv by (destruct Hself as (c & ? & _); by eexists).
  assert (∀ r', r' ∈ L → ∀ i, named h1 r' i ↔ named h r' i) as Hn.
  { intros r' Hr' i. apply evolves_named_back; [apply G2|]. apply Hfree. by right. }
  pose proof (λ i, evolves_named_back h h1 self i (proj1 G2) Hsv) as Hns.
  assert (∀ i, named h self i → i = sid) as Us by (unfold named in *; naive_solver congruence).
  assert (∀ i, named h r i → i = tid) as Ut by (unfold named in *; naive_solver congruence).
  split.
  - intros [[?|?]|(r' & sid' & tid' & Hin & Hs' & Ht' & Hn')]; [by left|right; exists r, sid, tid; by auto|].
    right. exists r', sid', tid'. rewrite <-Hns, <-(Hn r' Hin). auto.
  - intros [?|(r' & sid' & tid' & [->|Hin] & Hs' & Ht' & Hn')]; [by left; left| |].
    + left. right. by rewrite (Us sid' Hs'), (Ut tid' Ht') in Hn'.
    + right. exists r', sid', tid'. rewrite Hns, (Hn r' Hin). auto.
Qed.

(** The DAG that [collect_dags] leaves alone is the DAG of all operators. *)
Lemma collect_dags_spec L acc h m h' :
  collect_dags L acc h = Ok (m, h') →
  h' = h ∧ (∀ r, r ∈ L → is_Some (h_ops h !! r)) ∧
  (∀ k, is_Some (acc !! k) → is_Some (m !! k)) ∧
  (∀ r oc d dc, r ∈ L → h_ops h !! r = Some oc → oc_dag oc = Some d → h_dags h !! d = Some dc →
     is_Some (m !! dag_id (dc_attrs dc))) ∧
  (∀ k d, m !! k = Some d → acc !! k = Some d ∨
     ∃ r dc, r ∈ L ∧ has_dag h r d ∧ h_dags h !! d = Some dc ∧ dag_id (dc_attrs dc) = k).
Proof.
  revert acc. induction L as [|r L IH]; intros acc H; cbn in H.
  { injection H as <- <-. split_and!; try done; try (intros; set_solver). }
  run_step H as oc h1 Hr. apply deref_ok in Hr as [Hr ->].
  destruct (oc_dag oc) as [d|] eqn:Ed.
  - run_step H as dc h1 Hd. apply deref_ok in Hd as [Hd ->].
    destruct (IH _ H) as (-> & I1 & I2 & I3 & I4). split_and!.
    + done.
    + intros r' [->|?]%elem_of_cons; [by eexists|auto].
    + intros k [d0 Hk]. apply I2. destruct (decide (dag_id (dc_attrs dc) = k)) as [->|].
      * rewrite lookup_insert_eq. by eexists.
      * rewrite lookup_insert_ne by done. by eexists.
    + intros r' oc' d' dc' [->|Hin]%elem_of_cons H1 H2 H3; [|by eapply I3].
      simplify_eq. apply I2. rewrite lookup_insert_eq. by eexists.
    + intros k d' Hk. destruct (I4 k d' Hk) as [Hl|(r' & dc' & Hin & HH)].
      * destruct (decide (dag_id (dc_attrs dc) = k)) as [<-|].
        -- rewrite lookup_insert_eq in Hl. injection Hl as <-. right. exists r, dc.
           split_and!; [left|by exists oc|done..].
        -- rewrite lookup_insert_ne in Hl by done. by left.
      * right. exists r', dc'. split; [by right|done].
  - destruct (IH _ H) as (-> & I1 & I2 & I3 & I4). split_and!; [done| |done| |].
    + intros r' [->|?]%elem_of_cons; [by eexists|auto].
    + intros r' oc' d' dc' [->|Hin]%elem_of_cons H1 H2 H3; [congruence|by eapply I3].
    + intros k d' Hk. destruct (I4 k d' Hk) as [?|(r' & dc' & Hin & HH)]; [by left|].
      right. exists r', dc'. split; [by right|done].
Qed.

(** *** Nothing but [DAG.__init__] adds a DAG *)

Definition keeps_attrs {A} (m : HM A) : Prop := ∀ h a h', m h = Ok (a, h') → dag_attrs h' = dag_attrs h.

Lemma keeps_keeps_attrs {A} (m : HM A) : keeps m → keeps_attrs m.
Proof. intros Hk h a h' H. apply same_core_attrs. by eapply Hk. Qed.
Lemma keeps_attrs_bind {A B} (m : HM A) (f : A → HM B) :
  keeps_attrs m → (∀ a, keeps_attrs (f a)) → keeps_attrs (m ≫= f).
Proof. intros Hm Hf h b h' H. run_step H as a h1 Ha. etrans; [by eapply Hf|by eapply Hm]. Qed.
Lemma keeps_attrs_for_each {A} (l : list A) f : (∀ x, keeps_attrs (f x)) → keeps_attrs (for_each l f).
Proof.
  intros Hf. induction l as [|x l IH]; [by apply keeps_keeps_attrs, keeps_ret|]. by apply keeps_attrs_bind.
Qed.
Lemma keeps_attrs_set_op r c : keeps_attrs (set_op r c).
Proof. intros h a h' [= <- <-]. done. Qed.
Lemma keeps_attrs_alloc_op c : keeps_attrs (alloc_op c).
Proof. intros h a h' [= <- <-]. done. Qed.

Create HintDb attrs.
#[export] Hint Resolve keeps_keeps_attrs keeps_attrs_set_op keeps_attrs_alloc_op : attrs.

Ltac attrs_tac :=
  repeat first
    [ progress intros
    | progress cbv zeta
    | solve [eauto with attrs keeps]
    | apply keeps_attrs_bind | apply keeps_attrs_for_each
    | match goal with |- keeps_attrs (match ?x with _ => _ end) => destruct x end
    | match goal with |- keeps_attrs (if ?x then _ else _) => destruct x end ].

Lemma keeps_attrs_set_task_dict d l dc h a h' :
  h_dags h !! d = Some dc → set_dag_cell d (set_task_dict l dc) h = Ok (a, h') → dag_attrs h' = dag_attrs h.
Proof.
  intros Hd [= <- <-]. unfold dag_attrs. cbn. rewrite list_fmap_insert. cbn. apply list_insert_id.
  by rewrite list_lookup_fmap, Hd.
Qed.

Lemma keeps_attrs_add_task d r : keeps_attrs (add_task d r).
Proof.
  intros h a h' H. unfold add_task in H.
  run_step H as dc h1 Hd. apply deref_ok in Hd as [Hd ->].
  run_step H as oc h1 Hr. apply deref_ok in Hr as [Hr ->].
  destruct (joined_start _ _) as [start|]; [|done]. cbv zeta in H.
  run_step H as used h1 Hu. pose proof (keeps_is_used _ _ _ _ _ Hu) as [_ Hv].
  destruct (_ || _); [done|]. destruct (_ && _); [done|].
  run_step H as x h2 Hx.
  destruct (dag_view_lookup h1 h d dc) as (dc1 & Hd1 & Ea & Et); [done|done|].
  trans (dag_attrs h2).
  - eapply (keeps_attrs_bind (set_op _ _)); [..|exact H]; attrs_tac.
  - injection Hx as <- <-. unfold dag_attrs. cbn. rewrite list_fmap_insert. cbn.
    rewrite <-Ea. rewrite list_insert_id by (by rewrite list_lookup_fmap, Hd1).
    apply (f_equal (fmap fst)) in Hv. unfold dag_view in Hv. rewrite <-!list_fmap_compose in Hv. exact Hv.
Qed.
#[export] Hint Resolve keeps_attrs_add_task : attrs.

Lemma keeps_attrs_set_dag r d : keeps_attrs (set_dag r d).
Proof. unfold set_dag, op_at, dag_at. attrs_tac. Qed.
#[export] Hint Resolve keeps_attrs_set_dag : attrs.
Lemma keeps_attrs_adopt d r : keeps_attrs (adopt d r).
Proof. unfold adopt, op_at, dag_at. attrs_tac. Qed.
Lemma keeps_attrs_add_only_new b r i : keeps_attrs (add_only_new b r i).
Proof. unfold add_only_new, op_at. attrs_tac. Qed.
#[export] Hint Resolve keeps_attrs_adopt keeps_attrs_add_only_new : attrs.
Lemma keeps_attrs_relate self d up em r : keeps_attrs (relate self d up em r).
Proof. unfold relate, edge_at. attrs_tac. Qed.
#[export] Hint Resolve keeps_attrs_relate : attrs.

Lemma keeps_collect_relatives self (up : bool) l :
  keeps (concat_map (λ m, _ ← update_relative m self (negb up);
                          if up then mixin_leaves m else mixin_roots m) l).
Proof. keeps_tac. Qed.
#[export] Hint Resolve keeps_collect_relatives : keeps.

Lemma keeps_attrs_set_relatives self l up em : keeps_attrs (_set_relatives self l up em).
Proof. unfold _set_relatives. attrs_tac. Qed.
#[export] Hint Resolve keeps_attrs_set_relatives : attrs.

(** [_set_relatives] adds the edges to all the operators it finds, and no other
    edge. *)
Lemma set_relatives_spec self l (up : bool) em h h' :
  _set_relatives self l up em h = Ok (tt, h') → ids_unique h → heap_ok h →
  ∃ task_list h1,
    concat_map (λ m, _ ← update_relative m self (negb up);
                     if up then mixin_leaves m else mixin_roots m) l h = Ok (task_list, h1) ∧
    heap_ok h' ∧ evolves h h' ∧
    ∀ x u y, rel h' x u y ↔ rel h x u y ∨
      ∃ r sid tid, r ∈ task_list ∧ named h self sid ∧ named h r tid ∧ new_edge up self r sid tid x u y.
Proof.
  unfold _set_relatives. intros H Hu Hok. run_step H as L h1 HL. exists L, h1. split; [done|].
  pose proof (keeps_collect_relatives _ _ _ _ _ _ HL) as Hc.
  run_step H as m h2 Hm. destruct (collect_dags_spec _ _ _ _ _ Hm) as (-> & Hv & _ & Hin & Hfrom).
  destruct (map_to_list m) as [|[k d] [|]] eqn:Em; [done| |done].
  assert (m = {[k := d]}) as ->.
  { apply map_to_list_inj. rewrite Em. by rewrite map_to_list_singleton. }
  pose proof (same_core_ok _ _ Hc Hok) as Hok1.
  assert (ids_unique h1) as Hu1 by (unfold ids_unique; by rewrite (same_core_attrs _ _ Hc)).
  assert (∀ r, r ∈ self :: L → free_for h1 d r) as Hfree.
  { intros r Hr oc Hoc. destruct (oc_dag oc) as [d'|] eqn:Ed; [right|by left]. f_equal.
    destruct (ok_member h1 Hok1 r oc d' Hoc Ed) as (dc' & Hdc' & _).
    destruct (Hin r oc d' dc' Hr Hoc Ed Hdc') as [x Hx]. apply lookup_singleton_Some in Hx as [Hk ->].
    destruct (Hfrom k x) as [Hl|(r0 & dc & _ & _ & Hdc & Ek)]; [apply lookup_singleton_Some; done|by rewrite lookup_empty in Hl|].
    eapply (ids_unique_inj h1); [done|done|done|]. congruence. }
  run_step H as [] h2 Ha.
  destruct (adopt_spec d self h1 h2 Ha Hok1) as (G1 & G2 & G3 & G4); [apply Hfree; left|].
  destruct (relate_all_spec self d up em L h2 h' H G1 G4) as (K1 & K2 & K3).
  { intros r Hr. split; [|apply G2, Hfree; by right]. destruct (Hv r) as [c Hc0]; [by right|].
    destruct G2 as [[_ G2] _]. destruct (G2 r c Hc0) as (c' & ? & _). by eexists. }
  assert (evolves h h2) as Hev by (etrans; [by apply same_core_evolves|apply G2]).
  split; [done|]. split; [etrans; [exact Hev|apply K2]|].
  assert (∀ r i, r ∈ self :: L → named h2 r i ↔ named h r i) as Hn.
  { intros r i Hr. apply evolves_named_back; [done|]. destruct Hc as [E _]. rewrite <-E. by apply Hv. }
  intros x u y. rewrite K3, (same_relatives_rel h1 h2) by done.
  rewrite (same_relatives_rel h h1) by (by apply same_core_relatives). f_equiv.
  split; intros (r & sid & tid & Hr & Hs & Ht & He); exists r, sid, tid;
    (split; [done|]); (split; [apply (Hn self); [left|done]|]); (split; [apply (Hn r); [by right|done]|done]).
Qed.

(** *** Every operation keeps the invariant *)

Definition sound {A} (m : HM A) : Prop :=
  keeps_attrs m ∧ ∀ h a h', m h = Ok (a, h') → ids_unique h → heap_ok h → heap_ok h'.

Lemma sound_keeps {A} (m : HM A) : keeps m → sound m.
Proof. intros Hk. split; [by apply keeps_keeps_attrs|]. intros h a h' H _ Hok. eapply same_core_ok; [by eapply Hk|done]. Qed.
Lemma sound_bind {A B} (m : HM A) (f : A → HM B) : sound m → (∀ a, sound (f a)) → sound (m ≫= f).
Proof.
  intros [Am Hm] Hf. split; [apply keeps_attrs_bind; [done|]; apply Hf|].
  intros h b h' H Hu Hok. run_step H as a h1 Ha. eapply (proj2 (Hf a)); [exact H| |by eapply Hm].
  unfold ids_unique. by rewrite (Am _ _ _ Ha).
Qed.
Lemma sound_for_each {A} (l : list A) f : (∀ x, sound (f x)) → sound (for_each l f).
Proof. intros Hf. induction l as [|x l IH]; [apply sound_keeps, keeps_ret|]. by apply sound_bind. Qed.
Lemma sound_set_relatives self l up em : sound (_set_relatives self l up em).
Proof.
  split; [apply keeps_attrs_set_relatives|]. intros h [] h' H Hu Hok.
  by destruct (set_relatives_spec self l up em h h' H Hu Hok) as (? & ? & _ & ? & _).
Qed.

Create HintDb sound.
#[export] Hint Resolve sound_keeps sound_set_relatives : sound.

Ltac sound_tac :=
  repeat first
    [ progress intros
    | progress cbv zeta
    | solve [eauto with sound keeps]
    | apply sound_bind | apply sound_for_each
    | match goal with |- sound (match ?x with _ => _ end) => destruct x end
    | match goal with |- sound (if ?x then _ else _) => destruct x end ].

Lemma sound_group_set_relative g l up : sound (group_set_relative g l up).
Proof.
  unfold group_set_relative, group_at.
  assert (∀ n ts, sound (group_relate g n l up ts)) as Hg.
  { intros n ts. induction ts as [|r ts IH]; simpl; unfold group_at; sound_tac. }
  sound_tac.
Qed.
Lemma sound_edge_pairs lab (owner up down : nat) :
  sound (uid ← task_id_of up; did ← task_id_of down; _ ← add_edge_info lab owner uid did; link_tasks up down).
Proof.
  apply sound_bind; [apply sound_keeps, keeps_task_id_of|intros uid].
  apply sound_bind; [apply sound_keeps, keeps_task_id_of|intros did].
  apply sound_bind; [apply sound_keeps, keeps_add_edge_info|intros _]. apply sound_set_relatives.
Qed.
Lemma sound_edge_set_upstream e l : sound (edge_set_upstream link_tasks e l).
Proof.
  apply sound_bind; [apply sound_keeps, keeps_concat_map, keeps_mixin_roots|intros ops].
  apply sound_bind; [apply sound_keeps, keeps_deref|intros c].
  apply sound_bind; [do 2 (apply sound_for_each; intros); apply sound_edge_pairs|intros _].
  apply sound_bind; [apply sound_keeps, keeps_deref|intros c']. apply sound_keeps, keeps_set_edge.
Qed.
Lemma sound_edge_set_downstream e l : sound (edge_set_downstream link_tasks e l).
Proof.
  apply sound_bind; [apply sound_keeps, keeps_concat_map, keeps_mixin_leaves|intros ops].
  apply sound_bind; [apply sound_keeps, keeps_deref|intros c].
  apply sound_bind; [do 2 (apply sound_for_each; intros); apply sound_edge_pairs|intros _].
  apply sound_bind; [apply sound_keeps, keeps_deref|intros c']. apply sound_keeps, keeps_set_edge.
Qed.
#[export] Hint Resolve sound_group_set_relative sound_edge_set_upstream sound_edge_set_downstream : sound.
Lemma sound_mixin_set_downstream m l : sound (mixin_set_downstream m l).
Proof.
  destruct m; [apply sound_set_relatives|apply sound_group_set_relative|apply sound_set_relatives|].
  apply sound_edge_set_downstream.
Qed.
Lemma sound_mixin_set_upstream m l : sound (mixin_set_upstream m l).
Proof.
  destruct m; [apply sound_set_relatives|apply sound_group_set_relative|apply sound_set_relatives|].
  apply sound_edge_set_upstream.
Qed.
#[export] Hint Resolve sound_mixin_set_downstream sound_mixin_set_upstream : sound.
Lemma sound_chain tasks : sound (chain tasks).
Proof.
  induction tasks as [|up [|down tasks] IH]; simpl; [sound_tac..|].
  apply sound_bind; [|intros _; exact IH]. unfold chain_pair.
  destruct (chainable_one up); [apply sound_mixin_set_downstream|].
  destruct (chainable_one down); [apply sound_mixin_set_upstream|].
  destruct up as [m|ups]; [apply sound_keeps, keeps_raise|]. destruct down as [m|downs]; [apply sound_keeps, keeps_raise|].
  destruct (_ =? _)%nat; [|apply sound_keeps, keeps_raise]. apply sound_for_each. intros. apply sound_mixin_set_downstream.
Qed.
Lemma sound_cross_downstream a b : sound (cross_downstream a b).
Proof. apply sound_for_each. intros. apply sound_mixin_set_downstream. Qed.
Lemma sound_add_task d r : sound (add_task d r).
Proof. split; [apply keeps_attrs_add_task|]. intros h [] h' H _ Hok. by eapply add_task_spec. Qed.
Lemma sound_set_dag r d : sound (set_dag r (Some d)).
Proof. split; [apply keeps_attrs_set_dag|]. intros h [] h' H _ Hok. by eapply set_dag_spec. Qed.
Lemma sound_set_dependency d u v : sound (set_dependency d u v).
Proof. unfold set_dependency, dag_at, set_downstream. sound_tac. Qed.

Lemma alloc_op_ok h t :
  heap_ok h → (∀ b, get_direct_relative_ids t b = []) → task_id t ≠ "" →
  heap_ok (with_ops (h_ops h ++ [{| oc_op := t; oc_dag := None |}]) h).
Proof.
  intros Hok Hrel Hid.
  assert (∀ r c, (h_ops h ++ [{| oc_op := t; oc_dag := None |}]) !! r = Some c →
    h_ops h !! r = Some c ∨ c = {| oc_op := t; oc_dag := None |}) as Hl.
  { intros r c [?|[_ Hs]]%lookup_app_Some; [by left|right]. by apply list_lookup_singleton_Some in Hs as [_ <-]. }
  assert (∀ r c, h_ops h !! r = Some c → (h_ops h ++ [{| oc_op := t; oc_dag := None |}]) !! r = Some c) as Hold
    by (intros; by apply lookup_app_l_Some).
  split; cbn.
  - intros r c d [Hr| ->]%Hl Hd; [by eapply ok_member|done].
  - intros d dc tid r Hd Hin. destruct (ok_dict h Hok d dc tid r Hd Hin) as (c & ? & ?). eauto.
  - apply (ok_keys h Hok).
  - intros r c b x [Hr| ->]%Hl Hx; [|rewrite Hrel in Hx; by apply elem_of_nil in Hx].
    destruct (ok_edges h Hok r c b x Hr Hx) as (d & r' & c' & ? & ? & ?). exists d, r', c'. eauto.
  - intros r c d dc [Hr| ->]%Hl Hd; [by eapply ok_dates|done].
  - intros r c [Hr| ->]%Hl; [by eapply ok_names|done].
Qed.

Lemma alloc_dag_ok h c :
  heap_ok h → dc_task_dict c = [] → heap_ok (with_dags (h_dags h ++ [c]) h).
Proof.
  intros Hok Hc.
  assert (∀ d dc, (h_dags h ++ [c]) !! d = Some dc → h_dags h !! d = Some dc ∨ dc = c ∧ h_dags h !! d = None) as Hl.
  { intros d dc [?|[Hge Hs]]%lookup_app_Some; [by left|right].
    apply list_lookup_singleton_Some in Hs as [_ <-]. split; [done|by apply lookup_ge_None]. }
  split; cbn.
  - intros r oc d Hr Hd. destruct (ok_member h Hok r oc d Hr Hd) as (dc & ? & ?). exists dc.
    split; [by apply lookup_app_l_Some|done].
  - intros d dc tid r [Hd|[-> _]]%Hl Hin; [by eapply ok_dict|]. rewrite Hc in Hin. by apply elem_of_nil in Hin.
  - intros d dc [Hd|[-> _]]%Hl; [by eapply ok_keys|]. rewrite Hc. constructor.
  - apply (ok_edges h Hok).
  - intros r oc d dc Hr Hd [Hdc|[-> Hn]]%Hl; [by eapply ok_dates|].
    destruct (ok_member h Hok r oc d Hr Hd) as (dc0 & ? & _). congruence.
  - apply (ok_names h Hok).
Qed.

Lemma string_app_nonempty_r a b : b ≠ "" → a +:+ b ≠ "".
Proof. destruct a; [done|]. by destruct b. Qed.

Lemma child_id_nonempty h g label : label ≠ "" → child_id h g label ≠ "".
Proof.
  intros Hl. unfold child_id. destruct (h_groups h !! g), (group_id h g); try done. case_ifs; [|done].
  by apply string_app_nonempty_r, string_app_nonempty_r.
Qed.

Lemma validate_key_nonempty k n : validate_key k n = Ok tt → k ≠ "".
Proof. unfold validate_key. case_ifs; [done..|]. intros _ ->. done. Qed.

Lemma sound_operator_init allow a : sound (operator_init allow a).
Proof.
  unfold operator_init. destruct (_ && _); [sound_tac|].
  split.
  { unfold set_dag, op_at, dag_at. attrs_tac. }
  intros h r h' H Hu Hok.
  run_step H as [] h0 Hk. assert (validate_key (arg_task_id a) 250 = Ok tt ∧ h0 = h) as [Hkey ->].
  { unfold lift in Hk. destruct (validate_key _ _) as [[]|]; [|done]. by injection Hk as <-. }
  apply validate_key_nonempty in Hkey.
  run_step H as g h1 Hg.
  assert (same_core h h1) as Hc1.
  { destruct (arg_task_group a); [by injection Hg as _ <-|by eapply keeps_get_current_task_group]. }
  run_step H as h2 h2' H2. injection H2 as <- <-. cbv zeta in H.
  run_step H as [] h3 H3.
  assert (same_core h1 h3) as Hc3.
  { destruct g; [by eapply keeps_task_group_add|by injection H3 as <-]. }
  destruct (parse_trigger_rule _) as [tr|]; [|done]. destruct (_ <? _)%Z; [done|].
  destruct (parse_weight_rule _) as [wr|]; [|done].
  run_step H as r1 h4 H4. injection H4 as <- <-.
  assert (same_core h h3) as Hc by by etrans.
  match type of H with context [with_ops ?l ?x] => set (h4 := with_ops l x) in * end.
  assert (heap_ok h4) as Hok4.
  { apply alloc_op_ok; [by eapply same_core_ok|by intros []|]. cbn.
    destruct g; [by apply child_id_nonempty|done]. }
  run_step H as cur h5 H5. injection H5 as <- <-. run_step H as [] h6 H6. injection H as _ <-.
  destruct (match arg_dag a with Some _ => _ | None => _ end) as [d|]; [by eapply set_dag_spec|].
  unfold set_dag in H6. run_step H6 as oc h7 H7. apply deref_ok in H7 as [H7 ->]. injection H6 as <-.
  assert (set_oc_dag None oc = oc) as ->.
  { unfold h4 in H7. cbn in H7. rewrite lookup_app_r in H7 by lia. rewrite Nat.sub_diag in H7. by injection H7 as <-. }
  rewrite list_insert_id by done. exact Hok4.
Qed.

Lemma dag_init_spec attrs c v o h r h' :
  dag_init attrs c v o h = Ok (r, h') → heap_ok h →
  heap_ok h' ∧ ∃ a, dag_attrs h' = dag_attrs h ++ [a].
Proof.
  unfold dag_init. intros H Hok. run_step H as x h1 H1. pose proof (keeps_lift _ _ _ _ H1) as Hc1. cbv zeta in H.
  destruct (negb _); [done|]. destruct (negb _); [done|].
  run_step H as g h2 H2. pose proof (keeps_create_root _ _ _ H2) as Hc2. injection H as <- <-.
  assert (same_core h h2) as Hc by by etrans.
  split; [apply alloc_dag_ok; [by eapply same_core_ok|done]|].
  eexists. unfold dag_attrs at 1. cbn. rewrite fmap_app. fold (dag_attrs h2). by rewrite (same_core_attrs _ _ Hc).
Qed.

(** ** Properties *)

(** One statement of a DAG file that returns. *)
Inductive build_step (h h' : Heap) : Prop :=
| BuildDag attrs c v o r (H : dag_init attrs c v o h = Ok (r, h'))
| BuildOperator allow a r (H : operator_init allow a h = Ok (r, h'))
| BuildTaskGroup gid p pg d r (H : task_group_init gid p pg d h = Ok (r, h'))
| BuildLabel l r (H : edge_modifier_init l h = Ok (r, h'))
| BuildAddTask d r (H : add_task d r h = Ok (tt, h'))
| BuildSetDag r d (H : set_dag r (Some d) h = Ok (tt, h'))
| BuildSetDownstream m l (H : mixin_set_downstream m l h = Ok (tt, h'))
| BuildSetUpstream m l (H : mixin_set_upstream m l h = Ok (tt, h'))
| BuildLabelledDownstream r l e (H : set_downstream r l (Some e) h = Ok (tt, h'))
| BuildLabelledUpstream r l e (H : set_upstream r l (Some e) h = Ok (tt, h'))
| BuildSetDependency d u v (H : set_dependency d u v h = Ok (tt, h'))
| BuildChain l (H : chain l h = Ok (tt, h'))
| BuildCross a b (H : cross_downstream a b h = Ok (tt, h'))
| BuildEnterDag d (H : push_context_managed_dag d h = Ok (tt, h'))
| BuildExitDag (H : pop_context_managed_dag h = Ok (tt, h'))
| BuildEnterGroup g (H : push_context_managed_task_group g h = Ok (tt, h'))
| BuildExitGroup (H : pop_context_managed_task_group h = Ok (tt, h')).

Lemma keeps_contexts : (∀ d, keeps (push_context_managed_dag d)) ∧ keeps pop_context_managed_dag ∧
  (∀ g, keeps (push_context_managed_task_group g)) ∧ keeps pop_context_managed_task_group.
Proof.
  unfold push_context_managed_dag, pop_context_managed_dag, push_context_managed_task_group,
    pop_context_managed_task_group, modify.
  split_and!; intros; intros h a h' [= <- <-]; [done| |done|];
    [by destruct (_previous_context_managed_dags h)|by destruct (_previous_context_managed_task_groups h)].
Qed.

Lemma build_step_sound h h' :
  build_step h h' → dag_attrs h `prefix_of` dag_attrs h' ∧ (ids_unique h → heap_ok h → heap_ok h').
Proof.
  assert (∀ A (m : HM A) a, sound m → m h = Ok (a, h') →
    dag_attrs h `prefix_of` dag_attrs h' ∧ (ids_unique h → heap_ok h → heap_ok h')) as Hs.
  { intros A m a [H1 H2] H. rewrite (H1 _ _ _ H). split; [done|]. by eapply H2. }
  destruct keeps_contexts as (K1 & K2 & K3 & K4).
  destruct 1.
  - unfold dag_init in H. split.
    + run_step H as x h1 H1. pose proof (keeps_lift _ _ _ _ H1) as Hc1. cbv zeta in H.
      destruct (negb _); [done|]. destruct (negb _); [done|].
      run_step H as g h2 H2. pose proof (keeps_create_root _ _ _ H2) as Hc2. injection H as <- <-.
      unfold dag_attrs at 2. cbn. rewrite fmap_app. fold (dag_attrs h2).
      rewrite (same_core_attrs _ _ Hc2), (same_core_attrs _ _ Hc1). by apply prefix_app_r.
    + intros _ Hok. by eapply dag_init_spec.
  - eapply Hs; [|exact H]. apply sound_operator_init.
  - eapply Hs; [|exact H]. apply sound_keeps, keeps_task_group_init.
  - eapply Hs; [|exact H]. apply sound_keeps. by intros ? ? ? [= <- <-].
  - eapply Hs; [|exact H]. apply sound_add_task.
  - eapply Hs; [|exact H]. apply sound_set_dag.
  - eapply Hs; [|exact H]. apply sound_mixin_set_downstream.
  - eapply Hs; [|exact H]. apply sound_mixin_set_upstream.
  - eapply Hs; [|exact H]. apply sound_set_relatives.
  - eapply Hs; [|exact H]. apply sound_set_relatives.
  - eapply Hs; [|exact H]. apply sound_set_dependency.
  - eapply Hs; [|exact H]. apply sound_chain.
  - eapply Hs; [|exact H]. apply sound_cross_downstream.
  - eapply Hs; [|exact H]. apply sound_keeps, K1.
  - eapply Hs; [|exact H]. apply sound_keeps, K2.
  - eapply Hs; [|exact H]. apply sound_keeps, K3.
  - eapply Hs; [|exact H]. apply sound_keeps, K4.
Qed.

Lemma ids_unique_prefix h h' : dag_attrs h `prefix_of` dag_attrs h' → ids_unique h' → ids_unique h.
Proof. unfold ids_unique. intros [k ->]. rewrite fmap_app. by intros [? _]%NoDup_app. Qed.

Lemma empty_heap_ok : heap_ok empty_heap.
Proof. split; cbn; intros; by rewrite lookup_nil in *. Qed.

Lemma built_heap_ok h : rtc build_step empty_heap h → ids_unique h → heap_ok h.
Proof.
  intros Hr. revert h Hr. apply (rtc_ind_r (λ h, ids_unique h → heap_ok h) empty_heap).
  { intros _. apply empty_heap_ok. }
  intros h1 h2 _ Hstep IH Hu. destruct (build_step_sound _ _ Hstep) as [Hp Hs].
  pose proof (ids_unique_prefix _ _ Hp Hu) as Hu0. by apply Hs; [|apply IH].
Qed.

(** The DAG that is read off a heap satisfying the invariant. *)
Lemma freeze_elem h c t :
  t ∈ task_dict (freeze h c) ↔ ∃ k r oc, (k, r) ∈ dc_task_dict c ∧ h_ops h !! r = Some oc ∧ oc_op oc = t.
Proof.
  cbn. rewrite list_elem_of_omap. split.
  - intros ([k r] & Hin & E). cbn in E. destruct (h_ops h !! r) as [oc|] eqn:Er; [|done].
    injection E as <-. by exists k, r, oc.
  - intros (k & r & oc & Hin & Hr & <-). exists (k, r). split; [done|]. cbn. by rewrite Hr.
Qed.

Lemma freeze_ids h d c : heap_ok h → h_dags h !! d = Some c → task_ids (freeze h c) = (dc_task_dict c).*1.
Proof.
  intros Hok Hd. unfold task_ids. cbn.
  assert (∀ l, (∀ k r, (k, r) ∈ l → ∃ oc, h_ops h !! r = Some oc ∧ task_id (oc_op oc) = k) →
    task_id <$> omap (λ kr, oc_op <$> h_ops h !! kr.2) l = l.*1) as HH.
  { induction l as [|[k r] l IH]; intros Hl; [done|]. cbn. destruct (Hl k r) as (oc & -> & E); [left|]. cbn.
    rewrite E. f_equal. apply IH. intros; apply Hl; by right. }
  apply HH. intros k r Hin. destruct (ok_dict h Hok d c k r Hd Hin) as (oc & ? & ? & _). eauto.
Qed.

Lemma freeze_wf h d c : heap_ok h → h_dags h !! d = Some c → graph_wf (freeze h c).
Proof.
  intros Hok Hd.
  assert (∀ t b x, t ∈ task_dict (freeze h c) → x ∈ get_direct_relative_ids t b →
    ∃ u, u ∈ task_dict (freeze h c) ∧ task_id u = x ∧ task_id t ∈ get_direct_relative_ids u (negb b)) as Hedge.
  { intros t b x (k & r & oc & Hin & Hr & <-)%freeze_elem Hx.
    destruct (ok_dict h Hok d c k r Hd Hin) as (oc' & Hr' & _ & Hdag). simplify_eq.
    destruct (ok_edges h Hok r oc b x Hr Hx) as (d' & r' & oc2 & E1 & E2 & E3 & E4 & E5). simplify_eq.
    destruct (ok_member h Hok r' oc2 d E2 E3) as (dc & Hdc & Hin'). simplify_eq.
    exists (oc_op oc2). split_and!; [|done|done]. apply freeze_elem. exists (task_id (oc_op oc2)), r', oc2. by split_and!. }
  assert (NoDup (task_ids (freeze h c))) as Hnd
    by (rewrite (freeze_ids h d c) by done; by eapply ok_keys).
  assert (∀ t u, t ∈ task_dict (freeze h c) → u ∈ task_dict (freeze h c) → task_id t = task_id u → t = u) as Hinj.
  { intros t u Ht Hu E. apply list_elem_of_lookup in Ht as [i Hi], Hu as [j Hj].
    assert (i = j) as ->; [|congruence].
    eapply NoDup_lookup; [exact Hnd| |]; unfold task_ids; rewrite list_lookup_fmap; [by rewrite Hi|by rewrite Hj, E]. }
  split; [done| |].
  - intros t b x Ht Hx. destruct (Hedge t b x Ht Hx) as (u & Hu & <- & _). apply list_elem_of_fmap. eauto.
  - intros t u Ht Hu. split; intros Hx.
    + destruct (Hedge t true _ Ht Hx) as (u' & Hu' & E & Hback). by rewrite <-(Hinj u' u Hu' Hu E).
    + destruct (Hedge u false _ Hu Hx) as (t' & Ht' & E & Hback). by rewrite <-(Hinj t' t Ht' Ht E).
Qed.

(** *** Relationships between operators *)

Lemma HM_bind_run {A B} (m : HM A) (f : A → HM B) h a h1 : m h = Ok (a, h1) → (m ≫= f) h = f a h1.
Proof. intros E. unfold mbind, HM_bind. by rewrite E. Qed.

Lemma concat_map_tasks self (up : bool) rs h :
  concat_map (λ m, _ ← update_relative m self (negb up);
                   if up then mixin_leaves m else mixin_roots m) (MTask <$> rs) h = Ok (rs, h).
Proof.
  induction rs as [|r rs IH]; [done|]. rewrite fmap_cons. cbn [concat_map].
  rewrite (HM_bind_run _ _ h [r] h) by (by destruct up). by rewrite (HM_bind_run _ _ h rs h IH).
Qed.

Lemma has_dag_valid h r d : has_dag h r d → is_Some (h_ops h !! r).
Proof. intros (c & ? & _). by eexists. Qed.

Lemma adopt_total d r h : has_dag h r d → adopt d r h = Ok (tt, h).
Proof.
  intros (c & Hr & Hd). unfold adopt, op_at, mbind, HM_bind, deref. rewrite Hr.
  rewrite bool_decide_eq_false_2 by congruence. done.
Qed.

Lemma add_only_new_total up r item h : is_Some (h_ops h !! r) → ∃ h', add_only_new up r item h = Ok (tt, h').
Proof.
  intros [c Hr]. unfold add_only_new, op_at, mbind, HM_bind, deref. rewrite Hr. case_ifs; by eexists.
Qed.

Lemma task_id_of_total r h : is_Some (h_ops h !! r) → ∃ tid, task_id_of r h = Ok (tid, h).
Proof. intros [c Hr]. unfold task_id_of, op_at, mbind, HM_bind, deref. rewrite Hr. by eexists. Qed.

Lemma relate_total self d up r h :
  has_dag h self d → has_dag h r d → ∃ h', relate self d up None r h = Ok (tt, h').
Proof.
  intros Hs Hr. unfold relate.
  rewrite (HM_bind_run _ _ h tt h (adopt_total d r h Hr)).
  destruct (task_id_of_total r h (has_dag_valid _ _ _ Hr)) as [tid Ht]. rewrite (HM_bind_run _ _ h tid h Ht).
  destruct (task_id_of_total self h (has_dag_valid _ _ _ Hs)) as [sid Hsid]. rewrite (HM_bind_run _ _ h sid h Hsid).
  assert (∀ b x i h0 h1 y, add_only_new b x i h0 = Ok (tt, h1) → is_Some (h_ops h0 !! y) → is_Some (h_ops h1 !! y)) as Hk.
  { intros b x i h0 h1 y [-> _]%add_only_new_spec. cbn. by rewrite !lookup_lt_is_Some, length_alter. }
  destruct up.
  - destruct (add_only_new_total false r sid h (has_dag_valid _ _ _ Hr)) as [h1 H1]. rewrite (HM_bind_run _ _ h tt h1 H1).
    destruct (add_only_new_total true self tid h1) as [h2 H2]; [by eapply Hk, has_dag_valid|].
    rewrite (HM_bind_run _ _ h1 tt h2 H2). by eexists.
  - destruct (add_only_new_total false self tid h (has_dag_valid _ _ _ Hs)) as [h1 H1]. rewrite (HM_bind_run _ _ h tt h1 H1).
    destruct (add_only_new_total true r sid h1) as [h2 H2]; [by eapply Hk, has_dag_valid|].
    rewrite (HM_bind_run _ _ h1 tt h2 H2). by eexists.
Qed.

Lemma relate_all_total self d up L h :
  heap_ok h → has_dag h self d → (∀ r, r ∈ L → has_dag h r d) →
  ∃ h', for_each L (relate self d up None) h = Ok (tt, h').
Proof.
  revert h. induction L as [|r L IH]; intros h Hok Hs Hall; [by eexists|]. cbn.
  destruct (relate_total self d up r h Hs) as [h1 H1]; [apply Hall; left|].
  rewrite (HM_bind_run _ _ h tt h1 H1).
  destruct (relate_spec self d up None r h h1 H1 Hok Hs) as (? & ? & _ & _ & G1 & G2 & _).
  { destruct (Hall r) as (c & Hr & Hd); [left|]. intros oc Hoc. simplify_eq. by right. }
  apply IH; [done|by eapply evolves_has_dag; [apply G2|]|].
  intros r' Hr'. eapply evolves_has_dag; [apply G2|]. apply Hall. by right.
Qed.

Lemma collect_dags_total L acc h :
  heap_ok h → (∀ r, r ∈ L → is_Some (h_ops h !! r)) → ∃ m, collect_dags L acc h = Ok (m, h).
Proof.
  intros Hok. revert acc. induction L as [|r L IH]; intros acc Hv; [by eexists|]. cbn.
  destruct (Hv r) as [c Hr]; [left|]. rewrite (HM_bind_run _ _ h c h) by (unfold op_at, deref; by rewrite Hr).
  assert (∀ r', r' ∈ L → is_Some (h_ops h !! r')) as Hv' by (intros; apply Hv; by right).
  destruct (oc_dag c) as [d|] eqn:Ed; [|by apply IH].
  destruct (ok_member h Hok r c d Hr Ed) as (dc & Hdc & _).
  rewrite (HM_bind_run _ _ h dc h) by (unfold dag_at, deref; by rewrite Hdc). by apply IH.
Qed.

(** What [_set_relatives] does with a list of operators, by their DAGs. *)
Lemma set_relatives_outcome self rs (up : bool) h :
  heap_ok h → ids_unique h → (∀ r, r ∈ self :: rs → is_Some (h_ops h !! r)) →
  ((∃ r1 r2 d1 d2, r1 ∈ self :: rs ∧ r2 ∈ self :: rs ∧ has_dag h r1 d1 ∧ has_dag h r2 d2 ∧ d1 ≠ d2) →
     _set_relatives self (MTask <$> rs) up None h = Err AirflowException) ∧
  ((∀ r d, r ∈ self :: rs → ¬ has_dag h r d) →
     _set_relatives self (MTask <$> rs) up None h = Err AirflowException) ∧
  (∀ d, (∀ r, r ∈ self :: rs → has_dag h r d) →
     ∃ h', _set_relatives self (MTask <$> rs) up None h = Ok (tt, h') ∧ heap_ok h' ∧
       ∀ x u y, rel h' x u y ↔ rel h x u y ∨
         ∃ r sid tid, r ∈ rs ∧ named h self sid ∧ named h r tid ∧ new_edge up self r sid tid x u y).
Proof.
  intros Hok Hu Hv. unfold _set_relatives.
  rewrite (HM_bind_run _ _ h rs h (concat_map_tasks self up rs h)).
  destruct (collect_dags_total (self :: rs) ∅ h Hok Hv) as [m Hm].
  rewrite (HM_bind_run _ _ h m h Hm).
  destruct (collect_dags_spec _ _ _ _ _ Hm) as (_ & _ & _ & Hin & Hfrom).
  assert (∀ k d, map_to_list m = [(k, d)] → m = {[k := d]}) as Hsing.
  { intros k d E. apply map_to_list_inj. by rewrite E, map_to_list_singleton. }
  split_and!.
  - intros (r1 & r2 & d1 & d2 & H1 & H2 & (c1 & Hr1 & D1) & (c2 & Hr2 & D2) & Hne).
    destruct (ok_member h Hok r1 c1 d1 Hr1 D1) as (dc1 & Hdc1 & _).
    destruct (ok_member h Hok r2 c2 d2 Hr2 D2) as (dc2 & Hdc2 & _).
    destruct (map_to_list m) as [|[k d] [|]] eqn:Em; [done| |done]. exfalso. apply Hne.
    rewrite (Hsing k d eq_refl) in Hin.
    destruct (Hin _ _ _ _ H1 Hr1 D1 Hdc1) as [x1 [E1 _]%lookup_singleton_Some].
    destruct (Hin _ _ _ _ H2 Hr2 D2 Hdc2) as [x2 [E2 _]%lookup_singleton_Some].
    eapply (ids_unique_inj h); [done..|congruence].
  - intros Hnone. destruct (map_to_list m) as [|[k d] [|]] eqn:Em; [done| |done]. exfalso.
    rewrite (Hsing k d eq_refl) in Hfrom.
    destruct (Hfrom k d) as [Hl|(r & dc & Hr & Hd & _)]; [by apply lookup_singleton_Some|by rewrite lookup_empty in Hl|].
    by apply (Hnone r d).
  - intros d Hall. destruct (Hall self) as (c & Hs & Hd); [left|].
    destruct (ok_member h Hok self c d Hs Hd) as (dc & Hdc & _).
    assert (m = {[dag_id (dc_attrs dc) := d]}) as ->.
    { apply map_eq. intros k. destruct (m !! k) as [d'|] eqn:Ek.
      - destruct (Hfrom k d' Ek) as [Hl|(r & dc' & Hr & (c' & Hc' & Hd') & Hdc' & <-)]; [by rewrite lookup_empty in Hl|].
        destruct (Hall r Hr) as (c2 & ? & ?). simplify_eq. by rewrite lookup_singleton_eq.
      - rewrite lookup_singleton_ne; [done|]. intros <-.
        destruct (Hin self c d dc) as [x Hx]; [left|done..|]. congruence. }
    rewrite map_to_list_singleton. rewrite (HM_bind_run _ _ h tt h) by (apply adopt_total, Hall; left).
    destruct (relate_all_total self d up rs h Hok) as [h' H']; [apply Hall; left|intros; apply Hall; by right|].
    exists h'. split; [done|].
    destruct (relate_all_spec self d up None rs h h' H' Hok) as (G1 & _ & G2); [apply Hall; left| |done].
    intros r Hr. split; [apply Hv; by right|]. intros oc Hoc. destruct (Hall r) as (c2 & ? & ?); [by right|].
    simplify_eq. by right.
Qed.

(** C39: if the DAG objects that a DAG file constructs have different ids ([ids_unique];
    without it an edge can name a task that the DAG lacks, see [same_id_dags_linked]),
    every DAG that it constructs, by any sequence of statements that return, is well
    formed: task ids are unique and not empty, a relative is a task of the DAG and
    the two directions of an edge agree, each task has a start date not before the
    DAG's and ends no later than the DAG; so sorting its tasks returns all of them or
    reports a cycle. *)
Theorem constructed_dag_wf h d c
  (Hb : rtc build_step empty_heap h) (Hu : ids_unique h) (Hd : h_dags h !! d = Some c) :
  graph_wf (freeze h c) ∧ ("" ∉ task_ids (freeze h c)) ∧
  (∀ t, t ∈ task_dict (freeze h c) → dates_joined (dc_attrs c) t) ∧
  ((∃ l, topological_sort (freeze h c) = Ok l ∧ (l ≡ₚ task_dict (freeze h c))) ∨
   topological_sort (freeze h c) = Err AirflowException ∧ ¬ acyclic (freeze h c)).
Proof.
  pose proof (built_heap_ok h Hb Hu) as Hok. pose proof (freeze_wf h d c Hok Hd) as Hwf.
  split_and!; [done| | |].
  - unfold task_ids. intros (t & E & (k & r & oc & Hin & Hr & Ht)%freeze_elem)%list_elem_of_fmap. subst t.
    by eapply (ok_names h Hok r oc Hr).
  - intros t (k & r & oc & Hin & Hr & <-)%freeze_elem.
    destruct (ok_dict h Hok d c k r Hd Hin) as (oc' & Hr' & _ & Hdag). simplify_eq. by eapply ok_dates.
  - destruct (topological_sort_cases _ Hwf) as [(l & ? & ? & _)|[? ?]]; [left; eauto|by right].
Qed.

(** Relationships are set exactly between operators that share one DAG: with
    operators of two DAGs, or of none, [_set_relatives] raises
    [AirflowException]; otherwise it returns, and adds an edge to each of the
    given operators, on both ends, and nothing else. *)
Theorem set_relatives_one_dag self rs (up : bool) h
  (Hok : heap_ok h) (Hu : ids_unique h) (Hv : ∀ r, r ∈ self :: rs → is_Some (h_ops h !! r)) :
  ((∃ r1 r2 d1 d2, r1 ∈ self :: rs ∧ r2 ∈ self :: rs ∧ has_dag h r1 d1 ∧ has_dag h r2 d2 ∧ d1 ≠ d2) →
     _set_relatives self (MTask <$> rs) up None h = Err AirflowException) ∧
  ((∀ r d, r ∈ self :: rs → ¬ has_dag h r d) →
     _set_relatives self (MTask <$> rs) up None h = Err AirflowException) ∧
  (∀ d, (∀ r, r ∈ self :: rs → has_dag h r d) →
     ∃ h', _set_relatives self (MTask <$> rs) up None h = Ok (tt, h') ∧
       ∀ x u y, rel h' x u y ↔ rel h x u y ∨
         ∃ r sid tid, r ∈ rs ∧ named h self sid ∧ named h r tid ∧ new_edge up self r sid tid x u y).
Proof.
  destruct (set_relatives_outcome self rs up h Hok Hu Hv) as (H1 & H2 & H3). split_and!; [done..|].
  intros d Hd. destruct (H3 d Hd) as (h' & ? & _ & ?). eauto.
Qed.

(** [cross_downstream] makes every task of the second list downstream of
    every task of the first, and adds no other edge. *)
Theorem cross_downstream_product froms tos d h
  (Hok : heap_ok h) (Hu : ids_unique h) (Hall : ∀ r, r ∈ froms ++ tos → has_dag h r d) :
  ∃ h', cross_downstream (MTask <$> froms) (MTask <$> tos) h = Ok (tt, h') ∧ heap_ok h' ∧
    ∀ x u y, rel h' x u y ↔ rel h x u y ∨
      ∃ f t fid tid, f ∈ froms ∧ t ∈ tos ∧ named h f fid ∧ named h t tid ∧ new_edge false f t fid tid x u y.
Proof.
  revert h Hok Hu Hall. induction froms as [|f froms IH]; intros h Hok Hu Hall.
  { exists h. split; [done|]. split; [done|]. intros x u y. split; [by left|].
    intros [?|(? & ? & ? & ? & Hin & _)]; [done|]. by apply elem_of_nil in Hin. }
  assert (∀ r, r ∈ f :: tos → has_dag h r d) as Hft by (intros r Hr; apply Hall; set_solver).
  destruct (set_relatives_outcome f tos false h Hok Hu) as (_ & _ & H3).
  { intros r Hr. by eapply has_dag_valid, Hft. }
  destruct (H3 d Hft) as (h1 & H1 & Hok1 & E1).
  destruct (set_relatives_spec f _ false None h h1 H1 Hu Hok) as (tl & hx & _ & _ & Hev & _).
  assert (∀ r i, r ∈ f :: froms ++ tos → named h1 r i ↔ named h r i) as Hn.
  { intros r i Hr. apply evolves_named_back; [done|]. eapply has_dag_valid, Hall. set_solver. }
  destruct (IH h1 Hok1) as (h2 & H2 & Hok2 & E2).
  { unfold ids_unique. by rewrite (proj1 Hev). }
  { intros r Hr. eapply evolves_has_dag; [exact Hev|]. apply Hall. set_solver. }
  exists h2. split; [|split; [done|]].
  { unfold cross_downstream. rewrite fmap_cons. cbn [for_each]. by rewrite (HM_bind_run _ _ h tt h1 H1). }
  intros x u y. rewrite E2, E1. split.
  - intros [[?|(t & fid & tid & Ht & Hf & Htn & He)]|(f' & t & fid & tid & Hf & Ht & Hfn & Htn & He)]; [by left|right..].
    + exists f, t, fid, tid. split_and!; [left|done..].
    + exists f', t, fid, tid. rewrite <-(Hn f'), <-(Hn t) by set_solver. split_and!; [by right|done..].
  - intros [?|(f' & t & fid & tid & [->|Hf]%elem_of_cons & Ht & Hfn & Htn & He)]; [by left; left| |].
    + left. right. exists t, fid, tid. by split_and!.
    + right. exists f', t, fid, tid. rewrite (Hn f'), (Hn t) by set_solver. by split_and!.
Qed.

(** ** Sample: a DAG file *)

Module BuildSample.

Definition heap_of {A} (m : result (A * Heap)) : Heap :=
  match m with Ok (_, h) => h | Err _ => empty_heap end.

Definition args (tid : string) : OpArgs :=
  {| arg_task_id := tid; arg_trigger_rule := "all_success"; arg_weight_rule := "downstream"; arg_pool := None;
     arg_dag := None; arg_task_group := None; arg_illegal := false;
     arg_attrs := Sample.mk_op "" ALL_SUCCESS [] [] |}.

(** with DAG(..): a, b, then with TaskGroup(g): c; then a >> b, a >> c. *)
Definition h1 := heap_of (dag_init (Sample.mk_dag "d" []) None "tree" "LR" empty_heap).
Definition h2 := heap_of (push_context_managed_dag 0 h1).
Definition h3 := heap_of (operator_init false (args "a") h2).
Definition h4 := heap_of (operator_init false (args "b") h3).
Definition h5 := heap_of (task_group_init "g" true None None h4).
Definition h6 := heap_of (push_context_managed_task_group 1 h5).
Definition h7 := heap_of (operator_init false (args "c") h6).
Definition h8 := heap_of (mixin_set_downstream (MTask 0) [MTask 1; MGroup 1] h7).

Definition built : DagCell := Eval vm_compute in
  match h_dags h8 !! 0 with Some c => c | None => {| dc_attrs := Sample.diamond; dc_task_dict := [];
    dc_task_group := 0; dc_edge_info := ∅ |} end.

(** The task of the group got the group's prefix, and the edges are there. *)
Example built_edges : (λ t, (task_id t, upstream_task_ids t, downstream_task_ids t)) <$> task_dict (freeze h8 built)
  = [("a", [], ["b"; "g.c"]); ("b", ["a"], []); ("g.c", ["a"], [])].
Proof. vm_compute. done. Qed.

Lemma built_h7 : rtc build_step empty_heap h7.
Proof.
  eapply rtc_l; [by eapply (BuildDag _ h1 (Sample.mk_dag "d" []) None "tree" "LR" 0); vm_compute|].
  eapply rtc_l; [by eapply (BuildEnterDag _ h2 0); vm_compute|].
  eapply rtc_l; [by eapply (BuildOperator _ h3 false (args "a") 0); vm_compute|].
  eapply rtc_l; [by eapply (BuildOperator _ h4 false (args "b") 1); vm_compute|].
  eapply rtc_l; [by eapply (BuildTaskGroup _ h5 "g" true None None 1); vm_compute|].
  eapply rtc_l; [by eapply (BuildEnterGroup _ h6 1); vm_compute|].
  eapply rtc_l; [by eapply (BuildOperator _ h7 false (args "c") 2); vm_compute|].
  done.
Qed.

Lemma built_ok : rtc build_step empty_heap h8.
Proof.
  eapply rtc_r; [exact built_h7|]. by eapply (BuildSetDownstream _ h8 (MTask 0) [MTask 1; MGroup 1]); vm_compute.
Qed.

Lemma h8_ids : ids_unique h8.
Proof. unfold ids_unique. assert (dag_id <$> dag_attrs h8 = ["d"]) as -> by (by vm_compute). apply NoDup_singleton. Qed.

Lemma h7_ids : ids_unique h7.
Proof. unfold ids_unique. assert (dag_id <$> dag_attrs h7 = ["d"]) as -> by (by vm_compute). apply NoDup_singleton. Qed.

Lemma constructed_dag_wf_witness :
  h_dags h8 !! 0 = Some built ∧ graph_wf (freeze h8 built) ∧ "" ∉ task_ids (freeze h8 built).
Proof.
  split; [by vm_compute|].
  destruct (constructed_dag_wf h8 0 built built_ok h8_ids) as (H1 & H2 & _); [by vm_compute|done].
Defined.

Lemma h7_ok : heap_ok h7.
Proof. exact (built_heap_ok h7 built_h7 h7_ids). Qed.

Lemma h7_dags r : r ∈ [0; 1; 2] → has_dag h7 r 0.
Proof.
  intros Hr. assert (r = 0 ∨ r = 1 ∨ r = 2) as [->|[->| ->]] by set_solver;
    (eexists; split; [by vm_compute|done]).
Qed.

Lemma h7_a : named h7 0 "a".
Proof. eexists; (split; [vm_compute; reflexivity|reflexivity]). Qed.
Lemma h7_b : named h7 1 "b".
Proof. eexists; (split; [vm_compute; reflexivity|reflexivity]). Qed.
Lemma h7_c : named h7 2 "g.c".
Proof. eexists; (split; [vm_compute; reflexivity|reflexivity]). Qed.

Lemma set_relatives_one_dag_witness : ∃ h',
  _set_relatives 0 (MTask <$> [1; 2]) true None h7 = Ok (tt, h') ∧ rel h' 0 true "b" ∧ ¬ rel h7 0 true "b".
Proof.
  destruct (set_relatives_one_dag 0 [1; 2] true h7) as (_ & _ & H3);
    [exact h7_ok|exact h7_ids|intros r Hr; eapply has_dag_valid, h7_dags; set_solver|].
  destruct (H3 0) as (h' & Hh' & E); [intros r Hr; apply h7_dags; set_solver|].
  exists h'. split; [exact Hh'|]. split.
  - apply E. right. exists 1, "a", "b". refine (conj _ (conj h7_a (conj h7_b _))); [left|right; repeat split].
  - clear. intros (c & Hc & Hin). vm_compute in Hc. injection Hc as <-. by apply elem_of_nil in Hin.
Defined.

Lemma cross_downstream_product_witness : ∃ h',
  cross_downstream (MTask <$> [0; 1]) (MTask <$> [2]) h7 = Ok (tt, h') ∧ rel h' 1 false "g.c".
Proof.
  destruct (cross_downstream_product [0; 1] [2] 0 h7) as (h' & Hh' & _ & E);
    [exact h7_ok|exact h7_ids|intros r Hr; apply h7_dags; set_solver|].
  exists h'. split; [exact Hh'|]. apply E. right. exists 1, 2, "b", "g.c".
  refine (conj _ (conj _ (conj h7_b (conj h7_c _)))); [right; left|left|left; repeat split].
Defined.

(** A key may end with a newline. *)
Example newline_key : validate_key ("a" +:+ String (Ascii.ascii_of_nat 10) "") 250 = Ok tt.
Proof. vm_compute. done. Qed.

(** A nested group whose full id b.a is new is refused because of the group a;
    one whose full id is taken by a task is accepted. *)
Example nested_group_refused :
  (_ ← task_group_init "a" true None (Some 0); b ← task_group_init "b" true None (Some 0);
   task_group_init "a" true (Some b) None) h1 = Err DuplicateTaskIdFound.
Proof. vm_compute. done. Qed.

Example nested_group_collides :
  is_ok ((_ ← operator_init false (args "b.a"); b ← task_group_init "b" true None None;
          task_group_init "a" true (Some b) None) h2) = true.
Proof. vm_compute. done. Qed.

(** b << Label << group: the edge comes from the root of the group, not from
    its leaf. *)
Example label_takes_roots :
  match (_ ← operator_init false (args "x"); _ ← link_tasks 2 3;
         l ← edge_modifier_init (Some "l"); _ ← mixin_set_upstream (MTask 1) [MEdge l];
         mixin_set_upstream (MEdge l) [MGroup 1]) h7 with
  | Ok (_, h) => (λ c, upstream_task_ids (oc_op c)) <$> h_ops h !! 1
  | Err _ => None
  end = Some ["g.c"].
Proof. vm_compute. done. Qed.

(** Two DAG objects with one id: the relationship is set across them. *)
Example same_id_dags_linked :
  is_ok ((d ← dag_init (Sample.mk_dag "d" []) None "tree" "LR"; _ ← push_context_managed_dag d;
          r ← operator_init false (args "y"); set_downstream 0 [MTask r] None) h4) = true.
Proof. vm_compute. done. Qed.

(** The pool-slots check raises [AttributeError] inside a [with] block. *)
Example pool_slots_error :
  operator_init false
    {| arg_task_id := "p"; arg_trigger_rule := "all_success"; arg_weight_rule := "downstream"; arg_pool := None;
       arg_dag := None; arg_task_group := None; arg_illegal := false;
       arg_attrs :=
         {| task_id := ""; task_type := ""; retries := 0; retry_delay := 0; retry_exponential_backoff := false;
            max_retry_delay := None; op_start_date := None; op_end_date := None; depends_on_past := false;
            wait_for_downstream := false; trigger_rule := ALL_SUCCESS; op_priority_weight := 1;
            weight_rule := DOWNSTREAM; op_queue := ""; op_pool := ""; op_pool_slots := 0; task_concurrency := None;
            on_execute_callback := false; on_success_callback := false; inherits_from_dummy_operator := false;
            is_SkipMixin := false; op_executor_config := ""; deps := []; upstream_task_ids := [];
            downstream_task_ids := [] |} |} h2 = Err AttributeError.
Proof. vm_compute. done. Qed.

(** [concurrency] without [max_active_tasks] has no effect. *)
Example concurrency_ignored :
  match dag_init (Sample.mk_dag "e" []) (Some 5%Z) "tree" "LR" empty_heap with
  | Ok (_, h) => (λ c, max_active_tasks (dc_attrs c)) <$> h_dags h !! 0
  | Err _ => None
  end = Some 16%Z.
Proof. vm_compute. done. Qed.
End BuildSample.
