(* ===== verification/Timetable.v ===== *)
(** * Timetable: when the next run of a DAG is due

    The schedules and timetables of [timetables/*.py] and the date methods of
    [DAG] ([models/dag.py]).

    [croniter] and the time-zone data are not part of the repository: a cron
    schedule has them as parameters, [cron_next] and [cron_prev] on naive local
    times, and the two conversions between UTC and local time.  Dates are
    microseconds; sub-DAGs and [relativedelta] intervals are not modelled. *)

From S2P Require Import Prelude State Model Sample.

Module Timetable.
Local Open Scope Z_scope.

(** ** [timetables/base.py] *)

Record DataInterval := { di_start : datetime; di_end : datetime }.

Record TimeRestriction := {
  earliest : option datetime;
  latest : option datetime;
  tr_catchup : bool;
}.

Record DagRunInfo := { run_after : datetime; data_interval : DataInterval }.

Definition exact (at_ : datetime) : DagRunInfo :=
  {| run_after := at_; data_interval := {| di_start := at_; di_end := at_ |} |}.

Definition interval (start end_ : datetime) : DagRunInfo :=
  {| run_after := end_; data_interval := {| di_start := start; di_end := end_ |} |}.

(** ** [timetables/schedules.py] *)

(** The protocol [Schedule]; [now] is [DateTime.utcnow()]. *)
Record Schedule := {
  skip_to_latest : datetime → option datetime → result datetime;
  get_next : datetime → datetime;
  get_prev : datetime → datetime;
  align : datetime → datetime;
}.

(** [return max(new_start, earliest)] unless there is no earliest date. *)
Definition max_start (new_start : datetime) (earliest : option datetime) : datetime :=
  match earliest with None => new_start | Some e => Z.max new_start e end.

Definition cron_presets (expression : string) : string :=
  if expression ≟ "@hourly" then "0 * * * *"
  else if expression ≟ "@daily" then "0 0 * * *"
  else if expression ≟ "@weekly" then "0 0 * * 0"
  else if expression ≟ "@monthly" then "0 0 1 * *"
  else if expression ≟ "@quarterly" then "0 0 1 */3 *"
  else if expression ≟ "@yearly" then "0 0 1 1 *"
  else expression.

(** The hour and the minute of a naive date. *)
Definition minute (t : datetime) : Z := (t / 60000000) mod 60.
Definition hour (t : datetime) : Z := (t / 3600000000) mod 24.

Section CronSchedule.
Context (cron_next cron_prev : datetime → datetime)      (* croniter(expression, start_time=..) *)
        (make_naive : datetime → datetime)                (* UTC to local *)
        (make_aware : datetime → datetime)                (* local to UTC *)
        (start_time : datetime).                          (* the default start time of croniter *)

Definition _is_schedule_fixed : bool :=
  let next_a := cron_next start_time in
  let next_b := cron_next next_a in
  (minute next_b =? minute next_a) && (hour next_b =? hour next_a).

Definition _should_fix_dst : bool := negb _is_schedule_fixed.

Definition cron_get_next (current : datetime) : datetime :=
  let naive := make_naive current in
  let scheduled := cron_next naive in
  if negb _should_fix_dst then make_aware scheduled
  else let delta := scheduled - naive in current + delta.

Definition cron_get_prev (current : datetime) : datetime :=
  let naive := make_naive current in
  let scheduled := cron_prev naive in
  if negb _should_fix_dst then make_aware scheduled
  else let delta := naive - scheduled in current - delta.

Definition cron_align (current : datetime) : datetime :=
  let next_time := cron_get_next current in
  if negb (cron_get_prev next_time =? current) then next_time else current.

Definition cron_skip_to_latest (current_time : datetime) (earliest : option datetime) : result datetime :=
  let next_start := cron_get_next current_time in
  let last_start := cron_get_prev current_time in
  new_start ← (if next_start =? current_time then Ok last_start
               else if current_time <? next_start then Ok (cron_get_prev last_start)
               else Err AssertionError);
  Ok (max_start new_start earliest).

Definition CronSchedule : Schedule :=
  {| skip_to_latest := cron_skip_to_latest; get_next := cron_get_next;
     get_prev := cron_get_prev; align := cron_align |}.
End CronSchedule.

Definition DeltaSchedule (delta : timedelta) : Schedule :=
  {| skip_to_latest := λ now earliest, Ok (max_start (now - delta) earliest);
     get_next := λ current, current + delta;
     get_prev := λ current, current - delta;
     align := λ current, current |}.

(** ** [timetables/simple.py] and [timetables/interval.py] *)

Inductive Timetable :=
| NullTimetable
| OnceTimetable
| DataIntervalTimetable (_schedule : Schedule).

Definition after (o : option datetime) (t : datetime) : bool :=
  match o with Some d => d <? t | None => false end.

Definition once_next_dagrun_info (last_automated_dagrun : option datetime) (r : TimeRestriction)
    : option DagRunInfo :=
  match last_automated_dagrun, earliest r with
  | Some _, _ => None
  | None, None => None
  | None, Some run_after => if after (latest r) run_after then None else Some (exact run_after)
  end.

Definition interval_next_dagrun_info (sch : Schedule) (now : datetime)
    (last_automated_dagrun : option datetime) (r : TimeRestriction) : result (option DagRunInfo) :=
  earliest ← (if tr_catchup r then Ok (earliest r)
              else e ← skip_to_latest sch now (earliest r); Ok (Some e));
  let start := match last_automated_dagrun with
               | None => align sch <$> earliest
               | Some d => Some (get_next sch d)
               end in
  Ok match start with
     | None => None
     | Some start =>
         if after (latest r) start then None else Some (interval start (get_next sch start))
     end.

Definition next_dagrun_info (tt : Timetable) (now : datetime) (last_automated_dagrun : option datetime)
    (r : TimeRestriction) : result (option DagRunInfo) :=
  match tt with
  | NullTimetable => Ok None
  | OnceTimetable => Ok (once_next_dagrun_info last_automated_dagrun r)
  | DataIntervalTimetable sch => interval_next_dagrun_info sch now last_automated_dagrun r
  end.

(** ** [Timetable.iter_between] *)

(** The [while] loop of the generator, with fuel. *)
Fixpoint iter_loop (fuel : nat) (tt : Timetable) (now : datetime) (between : TimeRestriction)
    (next_info : option DagRunInfo) : result (list datetime) :=
  match next_info with
  | None => Ok []
  | Some i =>
      match fuel with
      | O => Err OutOfFuel
      | S fuel =>
          let dagrun_start := di_start (data_interval i) in
          next_info ← next_dagrun_info tt now (Some dagrun_start) between;
          rest ← iter_loop fuel tt now between next_info;
          Ok (dagrun_start :: rest)
      end
  end.

Definition iter_between (fuel : nat) (tt : Timetable) (now start end_ : datetime) (align : bool)
    : result (list datetime) :=
  if end_ <? start then Err ValueError
  else
    let between := {| earliest := Some start; latest := Some end_; tr_catchup := true |} in
    if align then
      next_info ← next_dagrun_info tt now None between;
      iter_loop fuel tt now between next_info
    else
      next_info ← next_dagrun_info tt now (Some start) between;
      rest ← iter_loop fuel tt now between next_info;
      Ok (start :: rest).

(** ** The methods of [DAG] *)

Section Dag.
(** The cron schedule of an expression in the DAG's time zone. *)
Context (cron_schedule : string → Schedule).

Definition timetable (dag : DAG) : Timetable :=
  match schedule_interval dag with
  | None => NullTimetable
  | Some (ScheduleCron e) =>
      if e ≟ "@once" then OnceTimetable else DataIntervalTimetable (cron_schedule (cron_presets e))
  | Some (ScheduleDelta d) => DataIntervalTimetable (DeltaSchedule d)
  end.

(** [min] and [max] of a list, None when it is empty. *)
Definition min_date (l : list datetime) : option datetime :=
  match l with [] => None | x :: l => Some (foldl Z.min x l) end.
Definition max_date (l : list datetime) : option datetime :=
  match l with [] => None | x :: l => Some (foldl Z.max x l) end.

Definition _time_restriction (dag : DAG) : TimeRestriction :=
  let start_dates := omap op_start_date (task_dict dag) ++ option_list (dag_start_date dag) in
  let end_dates := omap op_end_date (task_dict dag) ++ option_list (dag_end_date dag) in
  {| earliest := min_date start_dates; latest := max_date end_dates; tr_catchup := catchup dag |}.

Definition dag_next_dagrun_info (dag : DAG) (now : datetime) (date_last_automated_dagrun : option datetime)
    : result (option datetime * option datetime) :=
  next_info ← next_dagrun_info (timetable dag) now date_last_automated_dagrun (_time_restriction dag);
  Ok match next_info with
     | None => (None, None)
     | Some i => (Some (di_start (data_interval i)), Some (run_after i))
     end.

Definition following_schedule (dag : DAG) (now dttm : datetime) : result (option datetime) :=
  next_info ← next_dagrun_info (timetable dag) now (Some dttm)
                {| earliest := None; latest := None; tr_catchup := true |};
  Ok ((λ i, di_start (data_interval i)) <$> (next_info : option DagRunInfo)).

Definition previous_schedule (dag : DAG) (dttm : datetime) : option datetime :=
  match timetable dag with
  | DataIntervalTimetable sch => Some (get_prev sch dttm)
  | _ => None
  end.

Definition normalize_schedule (dag : DAG) (now dttm : datetime) : result datetime :=
  following ← following_schedule dag now dttm;
  Ok match following with
     | None => dttm
     | Some f => if negb (previous_schedule dag f ≟ Some dttm) then f else dttm
     end.

(** [start_date=None] takes the earliest start date; comparing it when there is
    none is a TypeError. *)
Definition get_run_dates (fuel : nat) (dag : DAG) (now : datetime) (start_date end_date : option datetime)
    (align : bool) : result (list datetime) :=
  match match start_date with None => earliest (_time_restriction dag) | Some d => Some d end with
  | None => Err TypeError
  | Some start =>
      py_sorted Z.leb <$> iter_between fuel (timetable dag) now start (default now end_date) align
  end.
End Dag.
End Timetable.
Import Timetable.

(** ** What a schedule promises *)

(** Moving on: the next time is later. *)
Class Advances (sch : Schedule) : Prop := get_next_later : ∀ t, (t < get_next sch t)%Z.

(** A fixed set of times: [get_next], [get_prev] and [align] find the nearest
    one after, before, and at or after a date. *)
Class OnGrid (sch : Schedule) (grid : datetime → Prop) : Prop := {
  next_after t : (t < get_next sch t)%Z ∧ grid (get_next sch t);
  next_first t u : grid u → (t < u)%Z → (get_next sch t ≤ u)%Z;
  prev_before t : (get_prev sch t < t)%Z ∧ grid (get_prev sch t);
  prev_last t u : grid u → (u < t)%Z → (u ≤ get_prev sch t)%Z;
  align_from t : (t ≤ align sch t)%Z ∧ grid (align sch t);
  align_first t u : grid u → (t ≤ u)%Z → (align sch t ≤ u)%Z;
}.

#[export] Instance grid_advances sch grid : OnGrid sch grid → Advances sch.
Proof. intros H t. apply next_after. Qed.

Section Cron.
Local Open Scope Z_scope.
Context (matches : datetime → Prop) (cron_next cron_prev : datetime → datetime) (offset start_time : Z).

(** What croniter documents: the first match after, and the last one before. *)
Hypothesis cron_next_spec : ∀ x, x < cron_next x ∧ matches (cron_next x) ∧
  ∀ y, matches y → x < y → cron_next x ≤ y.
Hypothesis cron_prev_spec : ∀ x, cron_prev x < x ∧ matches (cron_prev x) ∧
  ∀ y, matches y → y < x → y ≤ cron_prev x.

(** A time zone with a constant offset. *)
Abbreviation fixed_cron := (CronSchedule cron_next cron_prev (λ t, t + offset) (λ t, t - offset) start_time).

Lemma cron_get_next_fixed t : get_next fixed_cron t = cron_next (t + offset) - offset.
Proof. cbn. unfold cron_get_next. destruct (negb _); lia. Qed.

Lemma cron_get_prev_fixed t : get_prev fixed_cron t = cron_prev (t + offset) - offset.
Proof. cbn. unfold cron_get_prev. destruct (negb _); lia. Qed.

Lemma fixed_cron_next t : t < get_next fixed_cron t ∧ matches (get_next fixed_cron t + offset) ∧
  ∀ u, matches (u + offset) → t < u → get_next fixed_cron t ≤ u.
Proof.
  rewrite cron_get_next_fixed. destruct (cron_next_spec (t + offset)) as (H1 & H2 & H3).
  split_and!; [lia|by rewrite Z.sub_add|]. intros u Hu Htu. specialize (H3 _ Hu). lia.
Qed.

Lemma fixed_cron_prev t : get_prev fixed_cron t < t ∧ matches (get_prev fixed_cron t + offset) ∧
  ∀ u, matches (u + offset) → u < t → u ≤ get_prev fixed_cron t.
Proof.
  rewrite cron_get_prev_fixed. destruct (cron_prev_spec (t + offset)) as (H1 & H2 & H3).
  split_and!; [lia|by rewrite Z.sub_add|]. intros u Hu Htu. specialize (H3 _ Hu). lia.
Qed.

Lemma fixed_cron_align t :
  t ≤ align fixed_cron t ∧ matches (align fixed_cron t + offset) ∧
  ∀ u, matches (u + offset) → t ≤ u → align fixed_cron t ≤ u.
Proof.
  change (align fixed_cron t) with
    (if negb (get_prev fixed_cron (get_next fixed_cron t) =? t) then get_next fixed_cron t else t).
  destruct (fixed_cron_next t) as (N1 & N2 & N3).
  destruct (fixed_cron_prev (get_next fixed_cron t)) as (P1 & P2 & P3).
  destruct (Z.eqb_spec (get_prev fixed_cron (get_next fixed_cron t)) t) as [E|E]; cbn [negb].
  - rewrite E in P2. split_and!; [lia|done|done].
  - split_and!; [lia|done|]. intros u Hu Htu. destruct (decide (u = t)) as [->|]; [|apply N3; [done|lia]].
    exfalso. pose proof (P3 t Hu N1) as Hle. apply E. apply Z.le_antisymm; [|done].
    apply Z.le_ngt. intros Hgt. pose proof (N3 _ P2 Hgt). lia.
Qed.

Lemma fixed_cron_grid : OnGrid fixed_cron (λ t, matches (t + offset)).
Proof.
  split; intros t.
  - destruct (fixed_cron_next t) as (H1 & H2 & H3). done.
  - destruct (fixed_cron_next t) as (H1 & H2 & H3). apply H3.
  - destruct (fixed_cron_prev t) as (H1 & H2 & H3). done.
  - destruct (fixed_cron_prev t) as (H1 & H2 & H3). apply H3.
  - destruct (fixed_cron_align t) as (H1 & H2 & H3). done.
  - destruct (fixed_cron_align t) as (H1 & H2 & H3). apply H3.
Qed.

(** For a cron schedule in a time zone with a constant offset, [align] gives
    the first scheduled time that is not before the date; and without catch-up
    the first run is the last interval that ended before now: its start is the
    last scheduled time whose successor is also before now, or the start date if
    that is later.  The other branch of [skip_to_latest] is never taken. *)
Theorem cron_first_run_correct now e :
  (∀ t, t ≤ align fixed_cron t ∧ matches (align fixed_cron t + offset) ∧
        ∀ u, matches (u + offset) → t ≤ u → align fixed_cron t ≤ u) ∧
  ∃ new_start, skip_to_latest fixed_cron now e = Ok (max_start new_start e) ∧
    matches (new_start + offset) ∧ get_next fixed_cron new_start < now ∧
    ∀ u, matches (u + offset) → get_next fixed_cron u < now → u ≤ new_start.
Proof.
  split; [apply fixed_cron_align|]. exists (get_prev fixed_cron (get_prev fixed_cron now)).
  destruct (fixed_cron_prev now) as (P1 & P2 & P3).
  destruct (fixed_cron_prev (get_prev fixed_cron now)) as (Q1 & Q2 & Q3).
  destruct (fixed_cron_next (get_prev fixed_cron (get_prev fixed_cron now))) as (N1 & N2 & N3).
  destruct (fixed_cron_next now) as (M1 & _ & _). split_and!.
  - change (skip_to_latest fixed_cron now e) with
      (new_start ← (if get_next fixed_cron now =? now then Ok (get_prev fixed_cron now)
                    else if now <? get_next fixed_cron now then Ok (get_prev fixed_cron (get_prev fixed_cron now))
                    else Err AssertionError); Ok (max_start new_start e)).
    rewrite (proj2 (Z.eqb_neq _ _)) by lia. by rewrite (proj2 (Z.ltb_lt _ _) M1).
  - done.
  - pose proof (N3 _ P2 Q1). lia.
  - intros u Hu Hnext. apply Q3; [done|]. destruct (fixed_cron_next u) as (U1 & U2 & U3).
    pose proof (P3 _ U2 Hnext). lia.
Qed.
End Cron.

#[export] Instance delta_advances d : (0 < d)%Z → Advances (DeltaSchedule d).
Proof. intros Hd t. cbn. lia. Qed.

(** ** Runs follow each other *)

Section Runs.
Local Open Scope Z_scope.

Lemma interval_info_inv sch now last r i :
  interval_next_dagrun_info sch now last r = Ok (Some i) →
  ∃ start, i = interval start (get_next sch start) ∧ (∀ d, last = Some d → start = get_next sch d) ∧
    ∀ l, latest r = Some l → start ≤ l.
Proof.
  unfold interval_next_dagrun_info. intros (e & _ & H)%result_bind_ok.
  assert (∀ start, (if after (latest r) start then None else Some (interval start (get_next sch start))) = Some i →
    i = interval start (get_next sch start) ∧ ∀ l, latest r = Some l → start ≤ l) as Hstart.
  { intros start Hi. destruct (after (latest r) start) eqn:Ea; [done|]. injection Hi as <-. split; [done|].
    intros l Hl. rewrite Hl in Ea. cbn in Ea. by bool_to_prop. }
  destruct last as [d|]; [|destruct e as [e|]; [|done]]; cbn in H; injection H as H;
    apply Hstart in H as [Hi Hl]; eexists; (split; [exact Hi|]); (split; [|exact Hl]).
  - by intros d' [= ->].
  - done.
Qed.

Lemma interval_info_after sch now d r :
  tr_catchup r = true →
  interval_next_dagrun_info sch now (Some d) r =
    Ok (if after (latest r) (get_next sch d) then None
        else Some (interval (get_next sch d) (get_next sch (get_next sch d)))).
Proof. intros Hc. unfold interval_next_dagrun_info. by rewrite Hc. Qed.

(** The runs of a schedule that moves on form a chain: a run is due when
    its non-empty data interval ends, its interval starts after the previous
    run's start and not after the latest date, and the interval of the next run
    starts exactly where it ends; there is no next run only past the latest
    date. *)
Theorem runs_contiguous sch now last r i
    (Hadv : Advances sch) (Hc : tr_catchup r = true)
    (Hi : next_dagrun_info (DataIntervalTimetable sch) now last r = Ok (Some i)) :
  di_start (data_interval i) < di_end (data_interval i) ∧ run_after i = di_end (data_interval i) ∧
  (∀ d, last = Some d → d < di_start (data_interval i)) ∧
  (∀ l, latest r = Some l → di_start (data_interval i) ≤ l) ∧
  ∃ next, next_dagrun_info (DataIntervalTimetable sch) now (Some (di_start (data_interval i))) r = Ok next ∧
    match next with
    | Some j => di_start (data_interval j) = di_end (data_interval i) ∧ run_after i < run_after j
    | None => ∃ l, latest r = Some l ∧ l < di_end (data_interval i)
    end.
Proof.
  cbn in *. apply interval_info_inv in Hi as (start & -> & Hlast & Hl). cbn.
  split_and!; [apply Hadv|done|intros d Hd; rewrite (Hlast d Hd); apply Hadv|done|].
  rewrite interval_info_after by done. eexists. split; [done|].
  destruct (after (latest r) (get_next sch start)) eqn:Ea.
  - destruct (latest r) as [l|]; [|done]. cbn in Ea. bool_to_prop. eauto.
  - cbn. split; [done|apply Hadv].
Qed.

(** With a previous run, [catchup=False] changes nothing: the next run is the
    same as with catch-up, for every current time and every earliest date, so
    missed intervals are scheduled one after the other. *)
Lemma catchup_false_ignored sch now last e l
    (Hskip : is_ok (skip_to_latest sch now e) = true) :
  next_dagrun_info (DataIntervalTimetable sch) now (Some last)
    {| earliest := e; latest := l; tr_catchup := false |} =
  next_dagrun_info (DataIntervalTimetable sch) now (Some last)
    {| earliest := None; latest := l; tr_catchup := true |}.
Proof.
  cbn. unfold interval_next_dagrun_info. cbn. by destruct (skip_to_latest sch now e).
Qed.

(** ** Enumerating the schedule *)

Section Iter.
Context (sch : Schedule) (now start end_ : Z).
Abbreviation tt := (DataIntervalTimetable sch).
Abbreviation between := {| earliest := Some start; latest := Some end_; tr_catchup := true |}.

(** The information about the run that starts at a date, if it is in range. *)
Definition info_at (x : Z) : option DagRunInfo :=
  if end_ <? x then None else Some (interval x (get_next sch x)).

Lemma next_info_after x : next_dagrun_info tt now (Some x) between = Ok (info_at (get_next sch x)).
Proof. done. Qed.

Lemma next_info_first : next_dagrun_info tt now None between = Ok (info_at (align sch start)).
Proof. done. Qed.

Lemma iter_loop_total `{Advances sch} fuel x :
  end_ - x < Z.of_nat fuel →
  ∃ l, iter_loop fuel tt now between (info_at x) = Ok l ∧ StronglySorted Z.lt l ∧
    (∀ t, t ∈ l → x ≤ t ≤ end_).
Proof.
  revert x. induction fuel as [|fuel IH]; intros x Hf; unfold info_at; destruct (end_ <? x) eqn:E; bool_to_prop.
  1,3: exists []; cbn; split_and!; [done|constructor|by intros ? ?%elem_of_nil].
  { lia. }
  cbn [iter_loop di_start data_interval interval]. rewrite next_info_after. cbn [mbind result_bind].
  pose proof (get_next_later (sch := sch) x) as Hlt.
  destruct (IH (get_next sch x)) as (l & Hl & Hs & Hr); [lia|].
  rewrite Hl. cbn. exists (x :: l). split_and!; [done| |].
  - constructor; [done|]. apply Forall_forall. intros t Ht. specialize (Hr t Ht). lia.
  - intros t [->|Ht]%elem_of_cons; [lia|]. specialize (Hr t Ht). lia.
Qed.

Lemma iter_loop_grid grid `{OnGrid sch grid} fuel x l :
  grid x → iter_loop fuel tt now between (info_at x) = Ok l →
  ∀ t, t ∈ l ↔ grid t ∧ x ≤ t ≤ end_.
Proof.
  revert x l. induction fuel as [|fuel IH]; intros x l Hx; unfold info_at; destruct (end_ <? x) eqn:E; bool_to_prop;
    cbn [iter_loop].
  1,3: intros [= <-] t; split; [by intros ?%elem_of_nil|intros [_ ?]; lia].
  { done. }
  cbn [di_start data_interval interval]. rewrite next_info_after. cbn [mbind result_bind].
  intros (rest & Hrest & [= <-])%result_bind_ok t. destruct (next_after x) as [N1 N2].
  rewrite elem_of_cons, (IH _ _ N2 Hrest). split.
  - intros [->|[Hg Ht]]; [split; [done|lia]|split; [done|lia]].
  - intros [Hg Ht]. destruct (decide (t = x)) as [->|Hne]; [by left|right]. split; [done|].
    pose proof (next_first x t Hg). lia.
Qed.
End Iter.

(** C23: for a schedule that is a fixed set of times ([OnGrid], like a cron schedule in a
    time zone with a constant offset), [iter_between] from a start to a later end
    returns: aligned it yields, in increasing order, exactly the scheduled times from
    start to end; unaligned it yields the start first and then those after it.  As
    many steps as there are microseconds in the range are enough.  (For a delta that
    is not positive it never ends, see [nonpositive_delta_never_ends].) *)
Theorem iter_between_correct sch grid now start end_
    (Hgrid : OnGrid sch grid) (Hrange : start ≤ end_) :
  let fuel := Z.to_nat (end_ - start + 1) in
  (∃ l, iter_between fuel (DataIntervalTimetable sch) now start end_ true = Ok l ∧
     StronglySorted Z.lt l ∧ ∀ t, t ∈ l ↔ grid t ∧ start ≤ t ≤ end_) ∧
  (∃ l, iter_between fuel (DataIntervalTimetable sch) now start end_ false = Ok (start :: l) ∧
     StronglySorted Z.lt (start :: l) ∧ ∀ t, t ∈ l ↔ grid t ∧ start < t ≤ end_).
Proof.
  intros fuel. unfold iter_between. rewrite (proj2 (Z.ltb_ge _ _) Hrange).
  rewrite next_info_first, next_info_after. cbn [mbind result_bind].
  destruct (align_from start) as [A1 A2]. destruct (next_after start) as [N1 N2].
  assert (Advances sch) as Hadv by by eapply grid_advances. split.
  - destruct (iter_loop_total sch now start end_ fuel (align sch start)) as (l & Hl & Hs & _); [lia|].
    exists l. split_and!; [done|done|]. intros t.
    rewrite (iter_loop_grid sch now start end_ grid fuel (align sch start) l A2 Hl t).
    split; [intros [? ?]; split; [done|lia]|]. intros [Hg Ht]. split; [done|].
    pose proof (align_first start t Hg). lia.
  - destruct (iter_loop_total sch now start end_ fuel (get_next sch start)) as (l & Hl & Hs & Hr); [lia|].
    exists l. rewrite Hl. cbn. split_and!; [done| |].
    + constructor; [done|]. apply Forall_forall. intros t Ht. specialize (Hr t Ht). lia.
    + intros t. rewrite (iter_loop_grid sch now start end_ grid fuel (get_next sch start) l N2 Hl t).
      split; [intros [? ?]; split; [done|lia]|]. intros [Hg Ht]. split; [done|].
      pose proof (next_first start t Hg). lia.
Qed.

(** A delta that is not positive passes [validate], but then the schedule
    never moves past its end: [iter_between] yields dates for ever. *)
Theorem nonpositive_delta_never_ends fuel d now start end_ aligned
    (Hd : d ≤ 0) (Hrange : start ≤ end_) :
  iter_between fuel (DataIntervalTimetable (DeltaSchedule d)) now start end_ aligned = Err OutOfFuel.
Proof.
  unfold iter_between. rewrite (proj2 (Z.ltb_ge _ _) Hrange).
  assert (∀ fuel x, x ≤ end_ → iter_loop fuel (DataIntervalTimetable (DeltaSchedule d)) now
    {| earliest := Some start; latest := Some end_; tr_catchup := true |} (info_at (DeltaSchedule d) end_ x) = Err OutOfFuel) as Hloop.
  { clear fuel. induction fuel as [|fuel IH]; intros x Hx; unfold info_at; rewrite (proj2 (Z.ltb_ge _ _) Hx); [done|].
    cbn [iter_loop di_start data_interval interval]. rewrite next_info_after. cbn [mbind result_bind].
    rewrite IH; [done|]. cbn. lia. }
  rewrite next_info_first, next_info_after. cbn [mbind result_bind]. destruct aligned.
  - apply Hloop. cbn. lia.
  - rewrite Hloop; [done|]. cbn. lia.
Qed.
End Runs.

(** ** Witnesses *)

Module TimetableSample.
Local Open Scope Z_scope.

(** The cron expression [0 * * * *] in UTC. *)
Definition hour_us : Z := 3600000000.
Definition hourly_next (x : Z) : Z := (x / hour_us + 1) * hour_us.
Definition hourly_prev (x : Z) : Z := ((x - 1) / hour_us) * hour_us.
Definition on_the_hour (x : Z) : Prop := ∃ k, x = k * hour_us.
Definition hourly : Schedule := CronSchedule hourly_next hourly_prev (λ t, t + 0) (λ t, t - 0) 0.

Lemma hourly_next_spec x : x < hourly_next x ∧ on_the_hour (hourly_next x) ∧
  ∀ y, on_the_hour y → x < y → hourly_next x ≤ y.
Proof.
  unfold hourly_next. pose proof (Z.div_mod x hour_us) as Hd. pose proof (Z.mod_pos_bound x hour_us) as Hm.
  unfold hour_us in *. split_and!; [lia|by eexists|]. intros y [k ->] Hk. unfold hour_us in *.
  assert (x / 3600000000 < k) by (apply Z.div_lt_upper_bound; lia). lia.
Qed.

Lemma hourly_prev_spec x : hourly_prev x < x ∧ on_the_hour (hourly_prev x) ∧
  ∀ y, on_the_hour y → y < x → y ≤ hourly_prev x.
Proof.
  unfold hourly_prev. pose proof (Z.div_mod (x - 1) hour_us) as Hd. pose proof (Z.mod_pos_bound (x - 1) hour_us) as Hm.
  unfold hour_us in *. split_and!; [lia|by eexists|]. intros y [k ->] Hk. unfold hour_us in *.
  assert (k ≤ (x - 1) / 3600000000) by (apply Z.div_le_lower_bound; lia). lia.
Qed.

Lemma hourly_grid : OnGrid hourly (λ t, on_the_hour (t + 0)).
Proof. apply fixed_cron_grid; [apply hourly_next_spec|apply hourly_prev_spec]. Qed.

(** Half past six: the last complete hour is from five to six. *)
Lemma cron_first_run_correct_witness :
  ∃ new_start, skip_to_latest hourly (6 * hour_us + 1800000000) None = Ok (max_start new_start None) ∧
    get_next hourly new_start < 6 * hour_us + 1800000000.
Proof.
  destruct (cron_first_run_correct on_the_hour hourly_next hourly_prev 0 0 hourly_next_spec hourly_prev_spec
    (6 * hour_us + 1800000000) None) as [_ (x & H & _ & Hx & _)].
  exists x. split; [exact H|exact Hx].
Defined.

Example last_complete_hour : skip_to_latest hourly (6 * hour_us + 1800000000) None = Ok (5 * hour_us).
Proof. reflexivity. Qed.

Lemma runs_contiguous_witness :
  ∃ next, next_dagrun_info (DataIntervalTimetable hourly) 0 (Some (4 * hour_us))
            {| earliest := Some 0; latest := None; tr_catchup := true |} = Ok next ∧
    match next with
    | Some j => di_start (data_interval j) = 5 * hour_us
    | None => ∃ l, @None Z = Some l ∧ l < 5 * hour_us
    end.
Proof.
  destruct (runs_contiguous hourly 0 (Some (3 * hour_us)) {| earliest := Some 0; latest := None; tr_catchup := true |}
    (interval (4 * hour_us) (5 * hour_us))) as (_ & _ & _ & _ & next & H & Hn);
    [apply (grid_advances _ _ hourly_grid)|done|reflexivity|].
  exists next. split; [exact H|]. destruct next as [j|]; [exact (proj1 Hn)|exact Hn].
Defined.

Lemma iter_between_correct_witness :
  ∃ l, iter_between (Z.to_nat (2 * hour_us - 10 + 1)) (DataIntervalTimetable hourly) 0 10 (2 * hour_us) true = Ok l ∧
    1 * hour_us ∈ l.
Proof.
  destruct (iter_between_correct hourly _ 0 10 (2 * hour_us) hourly_grid) as [(l & H & _ & Hl) _]; [done|].
  exists l. split; [exact H|]. apply Hl. split; [|done]. by exists 1.
Defined.

Example three_hours :
  iter_between 10 (DataIntervalTimetable hourly) 0 10 (3 * hour_us) true = Ok [1 * hour_us; 2 * hour_us; 3 * hour_us].
Proof. reflexivity. Qed.

Lemma nonpositive_delta_never_ends_witness :
  iter_between 1000 (DataIntervalTimetable (DeltaSchedule 0)) 0 10 20 true = Err OutOfFuel.
Proof. apply (nonpositive_delta_never_ends 1000 0 0 10 20 true); done. Defined.

(** A year after the last run, without catch-up, the next run is the hour after
    the last one. *)
Example missed_hours_are_scheduled :
  let r := {| earliest := Some 0; latest := None; tr_catchup := false |} in
  next_dagrun_info (DataIntervalTimetable hourly) (8760 * hour_us) (Some (3 * hour_us)) r =
    Ok (Some (interval (4 * hour_us) (5 * hour_us))).
Proof. reflexivity. Qed.
End TimetableSample.
