(* ===== verification/DagRunQuery.v ===== *)
(** * DagRunQuery: the rows of the [dag_run] table

    The constructor and setters of [DagRun] and its queries
    ([models/dagrun.py]).  The scheduling decisions are in [DagRun]. *)

From S2P Require Import Prelude State Model.

Module DagRunQuery.
Local Open Scope Z_scope.

(** [DagRun.set_state], the setter of the [state] property; [current] is
    [timezone.utcnow()]. *)
Definition set_dagrun_state (current : datetime) (state : DagRunState) (dr : DagRun) : DagRun :=
  if DR._state dr ≟ state then dr
  else
    {| DR.dag_id := DR.dag_id dr;
       DR.queued_at := if state ≟ DR_QUEUED then Some current else DR.queued_at dr;
       DR.execution_date := DR.execution_date dr;
       DR.start_date := DR.start_date dr;
       DR.end_date := if Some (DagRunState_as_ti state) ∈? State.finished then Some current else None;
       DR._state := state;
       DR.run_id := DR.run_id dr;
       DR.external_trigger := DR.external_trigger dr;
       DR.run_type := DR.run_type dr;
       DR.last_scheduling_decision := DR.last_scheduling_decision dr;
       DR.dag_hash := DR.dag_hash dr |}.

Definition set_start_date (d : option datetime) (dr : DagRun) : DagRun :=
  DR.mk (DR.dag_id dr) (DR.queued_at dr) (DR.execution_date dr) d (DR.end_date dr) (DR._state dr)
        (DR.run_id dr) (DR.external_trigger dr) (DR.run_type dr) (DR.last_scheduling_decision dr)
        (DR.dag_hash dr).

Definition set_last_scheduling_decision (d : option datetime) (dr : DagRun) : DagRun :=
  DR.mk (DR.dag_id dr) (DR.queued_at dr) (DR.execution_date dr) (DR.start_date dr) (DR.end_date dr)
        (DR._state dr) (DR.run_id dr) (DR.external_trigger dr) (DR.run_type dr) d (DR.dag_hash dr).

Definition set_dag_hash (h : option string) (dr : DagRun) : DagRun :=
  DR.mk (DR.dag_id dr) (DR.queued_at dr) (DR.execution_date dr) (DR.start_date dr) (DR.end_date dr)
        (DR._state dr) (DR.run_id dr) (DR.external_trigger dr) (DR.run_type dr)
        (DR.last_scheduling_decision dr) h.

(** The unique constraint on [(dag_id, execution_date)]. *)
Definition same_run (a b : DagRun) : bool :=
  (DR.dag_id a ≟ DR.dag_id b) && (DR.execution_date a ≟ DR.execution_date b).

(** [session.merge(dag_run)] for a run that has a row. *)
Definition merge_run (dr : DagRun) (s : Session) : Session :=
  with_dag_run (update_where (same_run dr) (λ _, dr) (dag_run s)) s.

Definition is_backfill (dr : DagRun) : bool := DR.run_type dr ≟ BACKFILL_JOB.

(** [ORDER BY execution_date] and [ORDER BY execution_date DESC]. *)
Definition by_execution_date (a b : DagRun) : bool := DR.execution_date a <=? DR.execution_date b.
Definition by_execution_date_desc (a b : DagRun) : bool := DR.execution_date b <=? DR.execution_date a.

(** An optional filter of a query: no filter when the argument is missing. *)
Definition opt_filter {A} (o : option A) (p : A → bool) : bool :=
  match o with Some x => p x | None => true end.

(** A filter by a list of values, or one value; no filter when it is empty. *)
Definition in_filter {A} `{EqDecision A} (l : list A) (x : A) : bool :=
  match l with [] => true | _ => x ∈? l end.

(** [DagRun.find]. *)
Definition find (dag_ids : list string) (run_id : option string) (execution_dates : list datetime)
    (execution_start_date execution_end_date : option datetime)
    (state : option DagRunState) (external_trigger : option bool)
    (run_type : option DagRunType) (no_backfills : bool) (s : Session) : list DagRun :=
  py_sorted by_execution_date
    (List.filter (λ dr,
       in_filter dag_ids (DR.dag_id dr) &&
       (match run_id with
        | Some r => if r ≟ "" then true else DR.run_id dr ≟ Some r
        | None => true end) &&
       in_filter execution_dates (DR.execution_date dr) &&
       opt_filter execution_start_date (λ d, d <=? DR.execution_date dr) &&
       opt_filter execution_end_date (λ d, DR.execution_date dr <=? d) &&
       opt_filter state (λ st, DR._state dr ≟ st) &&
       opt_filter external_trigger (λ b, Bool.eqb (DR.external_trigger dr) b) &&
       opt_filter run_type (λ t, DR.run_type dr ≟ t) &&
       (negb no_backfills || negb (DR.run_type dr ≟ BACKFILL_JOB)))
     (dag_run s)).

Definition get_previous_dagrun (dr : DagRun) (state : option DagRunState) (s : Session)
    : option DagRun :=
  head (py_sorted by_execution_date_desc
    (List.filter (λ r, (DR.dag_id r ≟ DR.dag_id dr) &&
                       (DR.execution_date r <? DR.execution_date dr) &&
                       opt_filter state (λ st, DR._state r ≟ st)) (dag_run s))).

Definition get_previous_scheduled_dagrun (dr : DagRun) (s : Session) : option DagRun :=
  head (py_sorted by_execution_date_desc
    (List.filter (λ r, (DR.dag_id r ≟ DR.dag_id dr) &&
                       (DR.execution_date r <? DR.execution_date dr) &&
                       negb (DR.run_type r ≟ MANUAL)) (dag_run s))).

(** [get_task_instances]: [state] is a list of states that may contain NULL,
    empty for no filter; [task_filter] is [dag.task_ids] when the run's DAG is
    partial. *)
Definition get_task_instances (dr : DagRun) (state : list (option TaskInstanceState))
    (dag : option DAG) (s : Session) : list TaskInstance :=
  List.filter (λ ti,
    (TI.dag_id ti ≟ DR.dag_id dr) && (TI.execution_date ti ≟ DR.execution_date dr) &&
    in_filter state (TI.state ti) &&
    opt_filter dag (λ d, negb (partial d) || (TI.task_id ti ∈? task_ids d)))
    (task_instance s).

Definition get_task_instance (dr : DagRun) (tid : string) (s : Session) : option TaskInstance :=
  List.find (λ ti, (TI.dag_id ti ≟ DR.dag_id dr) &&
                   (TI.execution_date ti ≟ DR.execution_date dr) &&
                   (TI.task_id ti ≟ tid)) (task_instance s).

Definition get_run (did : string) (d : datetime) (s : Session) : option DagRun :=
  List.find (λ dr, (DR.dag_id dr ≟ did) && negb (DR.external_trigger dr) &&
                   (DR.execution_date dr ≟ d)) (dag_run s).

(** [get_latest_runs]: the runs whose date is the maximum of their DAG's runs. *)
Definition get_latest_runs (s : Session) : list DagRun :=
  List.filter (λ dr, forallb (λ r, negb (DR.dag_id r ≟ DR.dag_id dr) ||
                                   (DR.execution_date r <=? DR.execution_date dr)) (dag_run s))
    (dag_run s).

(** [ORDER BY nulls_first(last_scheduling_decision), execution_date]. *)
Definition examine_order (a b : DagRun) : bool :=
  match DR.last_scheduling_decision a, DR.last_scheduling_decision b with
  | None, Some _ => true
  | Some _, None => false
  | None, None => by_execution_date a b
  | Some x, Some y => (x <? y) || ((x =? y) && by_execution_date a b)
  end.

Definition next_dagruns_to_examine (allow_future_exec_dates : bool) (locked : DagRun → bool)
    (state : DagRunState) (max_number : nat) (s : Session) : list DagRun :=
  take max_number (py_sorted examine_order
    (List.filter (λ dr,
       (DR._state dr ≟ state) && negb (DR.run_type dr ≟ BACKFILL_JOB) &&
       existsb (λ dm, (dm_dag_id dm ≟ DR.dag_id dr) && negb (is_paused dm) && is_active dm)
               (dag_model s) &&
       (allow_future_exec_dates || (DR.execution_date dr <=? utcnow s)) &&
       negb (locked dr))
     (dag_run s))).

End DagRunQuery.

(** ** Facts about the orders *)

Section Orders.
Local Open Scope Z_scope.
Import DagRunQuery.

Lemma by_execution_date_total a b : by_execution_date a b = true ∨ by_execution_date b a = true.
Proof. unfold by_execution_date. lia. Qed.

Lemma by_execution_date_trans a b c :
  by_execution_date a b = true → by_execution_date b c = true → by_execution_date a c = true.
Proof. unfold by_execution_date. lia. Qed.

Lemma by_execution_date_desc_total a b :
  by_execution_date_desc a b = true ∨ by_execution_date_desc b a = true.
Proof. unfold by_execution_date_desc. lia. Qed.

Lemma by_execution_date_desc_trans a b c :
  by_execution_date_desc a b = true → by_execution_date_desc b c = true →
  by_execution_date_desc a c = true.
Proof. unfold by_execution_date_desc. lia. Qed.

Lemma examine_order_total a b : examine_order a b = true ∨ examine_order b a = true.
Proof.
  unfold examine_order, by_execution_date.
  destruct (DR.last_scheduling_decision a), (DR.last_scheduling_decision b); auto; lia.
Qed.

Lemma examine_order_trans a b c :
  examine_order a b = true → examine_order b c = true → examine_order a c = true.
Proof.
  unfold examine_order, by_execution_date.
  destruct (DR.last_scheduling_decision a), (DR.last_scheduling_decision b),
    (DR.last_scheduling_decision c); auto; lia.
Qed.

(** The first row of a descending query is the latest row. *)
Lemma head_sorted_desc (l : list DagRun) r :
  head (py_sorted by_execution_date_desc l) = Some r →
  r ∈ l ∧ ∀ x, x ∈ l → DR.execution_date x ≤ DR.execution_date r.
Proof.
  intros Hh. pose proof (py_sorted_StronglySorted by_execution_date_desc
    by_execution_date_desc_total by_execution_date_desc_trans l) as Hs.
  setoid_rewrite <-(elem_of_py_sorted by_execution_date_desc _ l).
  destruct (py_sorted by_execution_date_desc l) as [|y ys]; simplify_eq/=.
  apply StronglySorted_inv in Hs as [_ Hall]. split; [left|].
  intros x [->|Hx]%elem_of_cons; [lia|]. rewrite Forall_forall in Hall.
  specialize (Hall x Hx). unfold by_execution_date_desc in Hall. lia.
Qed.

Lemma head_sorted_none {A} (leb : A → A → bool) (l : list A) :
  head (py_sorted leb l) = None ↔ l = [].
Proof.
  split; [|by intros ->]. intros Hh. destruct l as [|x l]; [done|].
  pose proof (length_py_sorted leb (x :: l)) as Hl. by destruct (py_sorted leb (x :: l)).
Qed.
End Orders.
