(* ===== verification/TaskInstance.v ===== *)
(** * TaskInstance: operations on one task instance

    The methods of [TaskInstance] and the functions of
    [models/taskinstance.py] that change or read task-instance rows: try
    numbers, refreshing, [set_state], retry dates, failure and reschedule
    handling, clearing.

    A method takes the Python object as a value [ti] and returns the object it
    leaves behind; what it writes to the database is a new [Session].  [dag] and
    [task] are the [task] attribute of the object and its DAG.  The rows of the
    audit tables ([log], [task_fail]) and e-mails are not modelled. *)

From stdpp Require Import pretty.
From S2P Require Import Prelude State Model Sample Graph DagRunQuery.

Module TaskInstance.
Local Open Scope Z_scope.

(** ** Keys and try numbers *)

Record TaskInstanceKey := {
  key_dag_id : string;
  key_task_id : string;
  key_execution_date : datetime;
  key_try_number : Z;
}.

#[export] Instance TaskInstanceKey_eq_dec : EqDecision TaskInstanceKey.
Proof. solve_decision. Defined.

Definition primary (k : TaskInstanceKey) : string * string * datetime :=
  (key_dag_id k, key_task_id k, key_execution_date k).

Definition with_try_number (k : TaskInstanceKey) (n : Z) : TaskInstanceKey :=
  {| key_dag_id := key_dag_id k; key_task_id := key_task_id k;
     key_execution_date := key_execution_date k; key_try_number := n |}.

Definition reduced (k : TaskInstanceKey) : TaskInstanceKey :=
  with_try_number k (Z.max 1 (key_try_number k - 1)).

Definition try_number (ti : TaskInstance) : Z :=
  if TI.state ti ∈? State.running then TI._try_number ti else TI._try_number ti + 1.

Definition prev_attempted_tries (ti : TaskInstance) : Z := TI._try_number ti.

Definition next_try_number (ti : TaskInstance) : Z := TI._try_number ti + 1.

Definition key (ti : TaskInstance) : TaskInstanceKey :=
  {| key_dag_id := TI.dag_id ti; key_task_id := TI.task_id ti;
     key_execution_date := TI.execution_date ti; key_try_number := try_number ti |}.

(** ** Refreshing the object *)

(** [x or y] for strings: the empty string is falsy. *)
Definition or_string (x : option string) (y : string) : string :=
  match x with Some p => if p ≟ "" then y else p | None => y end.

Definition refresh_from_task (dag : DAG) (task : BaseOperator) (pool_override : option string)
    (ti : TaskInstance) : result TaskInstance :=
  w ← Graph.priority_weight_total dag task;
  Ok (TI.set_from_task (op_queue task) (or_string pool_override (op_pool task))
        (op_pool_slots task) w (retries task) (op_executor_config task) (task_type task) ti).

(** [TaskInstance(task, execution_date, state)] for an aware date. *)
Definition ti_init (dag : DAG) (task : BaseOperator) (d : datetime)
    (state : option TaskInstanceState) : result TaskInstance :=
  refresh_from_task dag task None
    {| TI.task_id := task_id task; TI.dag_id := dag_id dag; TI.execution_date := d;
       TI.start_date := None; TI.end_date := None; TI.duration := None; TI.state := state;
       TI._try_number := 0; TI.max_tries := 0; TI.hostname := ""; TI.job_id := None;
       TI.pool := ""; TI.pool_slots := 1; TI.queue := ""; TI.priority_weight := 0;
       TI.operator := ""; TI.queued_dttm := None; TI.queued_by_job_id := None;
       TI.pid := None; TI.executor_config := ""; TI.external_executor_id := None |}.

Definition current_state (ti : TaskInstance) (s : Session) : option TaskInstanceState :=
  match find_ti (TI.primary ti) s with Some r => TI.state r | None => None end.

Definition error (ti : TaskInstance) (s : Session) : TaskInstance * Session :=
  let ti := TI.set_state (Some FAILED) ti in (ti, merge_ti ti s).

(** [refresh_from_db]: the row's columns, [pool_slots] being at least 1 when it
    was 0; an object without a row only loses its state. *)
Definition refresh_from_db (ti : TaskInstance) (s : Session) : TaskInstance :=
  match find_ti (TI.primary ti) s with
  | Some r =>
      TI.mk (TI.task_id ti) (TI.dag_id ti) (TI.execution_date ti) (TI.start_date r)
            (TI.end_date r) (TI.duration r) (TI.state r) (TI._try_number r) (TI.max_tries r)
            (TI.hostname r) (TI.job_id r) (TI.pool r)
            (if TI.pool_slots r =? 0 then 1 else TI.pool_slots r)
            (TI.queue r) (TI.priority_weight r) (TI.operator r) (TI.queued_dttm r)
            (TI.queued_by_job_id r) (TI.pid r) (TI.executor_config r)
            (TI.external_executor_id r)
  | None => TI.set_state None ti
  end.

(** [XCom.clear] for the task instance. *)
Definition clear_xcom_data (ti : TaskInstance) (s : Session) : Session :=
  with_xcom (List.filter (λ x, negb ((XC.dag_id x ≟ TI.dag_id ti) && (XC.task_id x ≟ TI.task_id ti)
                                  && (XC.execution_date x ≟ TI.execution_date ti))) (xcom s)) s.

(** ** State and duration *)

(** [x or y] for dates. *)
Definition or_date (x : option datetime) (y : datetime) : datetime := default y x.

(** [TaskInstance.set_state], on the object. *)
Definition set_state_obj (current_time : datetime) (state : option TaskInstanceState)
    (ti : TaskInstance) : TaskInstance :=
  let ti := TI.set_state state ti in
  let start := or_date (TI.start_date ti) current_time in
  if (state ∈? State.finished) || (state ≟ Some UP_FOR_RETRY) then
    let ende := or_date (TI.end_date ti) current_time in
    TI.set_dates (Some start) (Some ende) (Some (ende - start)) ti
  else TI.set_dates (Some start) (TI.end_date ti) (TI.duration ti) ti.

Definition set_state (state : option TaskInstanceState) (ti : TaskInstance) (s : Session)
    : TaskInstance * Session :=
  let ti := set_state_obj (utcnow s) state ti in (ti, merge_ti ti s).

Definition set_duration (ti : TaskInstance) : TaskInstance :=
  match TI.end_date ti, TI.start_date ti with
  | Some e, Some b => TI.set_dates (Some b) (Some e) (Some (e - b)) ti
  | e, b => TI.set_dates b e None ti
  end.

(** ** Queries *)

Definition get_dagrun (ti : TaskInstance) (s : Session) : option DagRun :=
  List.find (λ dr, (DR.dag_id dr ≟ TI.dag_id ti) && (DR.execution_date dr ≟ TI.execution_date ti))
    (dag_run s).

Definition get_num_running_task_instances (ti : TaskInstance) (s : Session) : Z :=
  countb (λ r, (TI.dag_id r ≟ TI.dag_id ti) && (TI.task_id r ≟ TI.task_id ti) &&
               (TI.state r ≟ Some RUNNING)) (task_instance s).

Definition are_dependents_done (task : BaseOperator) (ti : TaskInstance) (s : Session) : bool :=
  match downstream_task_ids task with
  | [] => true
  | ids =>
      countb (λ r, (TI.dag_id r ≟ TI.dag_id ti) && (TI.task_id r ∈? ids) &&
                   (TI.execution_date r ≟ TI.execution_date ti) &&
                   (TI.state r ∈? [Some SKIPPED; Some SUCCESS])) (task_instance s)
        =? Z.of_nat (length ids)
  end.

(** [get_previous_ti].  [schedule_get_prev] is the [get_prev] of the schedule
    inside the DAG's timetable, when it has one; it serves task instances that
    have no dag run. *)
Definition get_previous_ti (schedule_get_prev : option (datetime → datetime)) (dag : DAG)
    (task : BaseOperator) (ti : TaskInstance) (state : option DagRunState) (s : Session)
    : result (option TaskInstance) :=
  match get_dagrun ti s with
  | None =>
      match schedule_get_prev with
      | None => Ok None
      | Some prev => t ← ti_init dag task (prev (TI.execution_date ti)) None; Ok (Some t)
      end
  | Some dr =>
      let ignore_schedule := match state, schedule_interval dag with
                             | None, Some _ => false | _, _ => true end in
      let last_dagrun :=
        if catchup dag && negb ignore_schedule then DagRunQuery.get_previous_scheduled_dagrun dr s
        else DagRunQuery.get_previous_dagrun dr state s in
      match last_dagrun with
      | Some r => Ok (DagRunQuery.get_task_instance r (TI.task_id ti) s)
      | None => Ok None
      end
  end.

(** [TaskReschedule.query_for_task_instance] with the default [try_number]. *)
Definition query_for_task_instance (ti : TaskInstance) (descending : bool) (s : Session)
    : list TaskReschedule :=
  py_sorted (λ a b, if descending then TR.id b <=? TR.id a else TR.id a <=? TR.id b)
    (List.filter (λ r, (TR.dag_id r ≟ TI.dag_id ti) && (TR.task_id r ≟ TI.task_id ti) &&
                       (TR.execution_date r ≟ TI.execution_date ti) &&
                       (TR.try_number r ≟ try_number ti)) (task_reschedule s)).

(** ** Retries *)

(** [datetime.max] and [timedelta.max.total_seconds() - 1], in microseconds and
    in seconds. *)
Definition datetime_max : datetime := 253402300799999999.
Definition timedelta_max_seconds : Z := 86399999999999.

(** [math.ceil(a / b)]. *)
Definition ceil_div (a b : Z) : Z := - ((- a) / b).

(** [int(math.ceil(delay.total_seconds() * 2 ** (try_number - 2)))]. *)
Definition min_backoff (delay : timedelta) (n : Z) : Z :=
  if 2 <=? n then ceil_div (delay * 2 ^ (n - 2)) 1000000
  else ceil_div delay (1000000 * 2 ^ (2 - n)).

(** [next_retry_datetime]; [ti_hash] is the SHA-1 of the task instance's key,
    as an integer. *)
Definition retry_delay_of (ti_hash : Z) (task : BaseOperator) (ti : TaskInstance)
    : result timedelta :=
  if retry_exponential_backoff task then
    let mb := min_backoff (retry_delay task) (try_number ti) in
    if mb =? 0 then Err ZeroDivisionError
    else
      let modded_hash := mb + ti_hash mod mb in
      let delay := Z.min modded_hash timedelta_max_seconds * 1000000 in
      Ok (match max_retry_delay task with
          | Some mx => if mx =? 0 then delay else Z.min mx delay
          | None => delay
          end)
  else Ok (retry_delay task).

Definition next_retry_datetime (ti_hash : Z) (task : BaseOperator) (ti : TaskInstance)
    : result datetime :=
  delay ← retry_delay_of ti_hash task ti;
  match TI.end_date ti with
  | None => Err TypeError
  | Some e => if e + delay <=? datetime_max then Ok (e + delay) else Err OverflowError
  end.

Definition ready_for_retry (ti_hash : Z) (task : BaseOperator) (ti : TaskInstance) (s : Session)
    : result bool :=
  if TI.state ti ≟ Some UP_FOR_RETRY then
    d ← next_retry_datetime ti_hash task ti; Ok (d <? utcnow s)
  else Ok false.

Definition is_premature (ti_hash : Z) (task : BaseOperator) (ti : TaskInstance) (s : Session)
    : result bool :=
  if TI.state ti ≟ Some UP_FOR_RETRY then
    r ← ready_for_retry ti_hash task ti s; Ok (negb r)
  else Ok false.

Definition is_eligible_to_retry (task : BaseOperator) (ti : TaskInstance) : bool :=
  if TI.state ti ≟ Some RESTARTING then true
  else negb (retries task =? 0) && (try_number ti <=? TI.max_tries ti).

(** ** The end of an attempt *)

Definition handle_failure (task : BaseOperator) (test_mode force_fail : bool)
    (ti : TaskInstance) (s : Session) : TaskInstance * Session :=
  let ti := set_duration (TI.set_dates (TI.start_date ti) (Some (utcnow s)) (TI.duration ti) ti) in
  let ti := if force_fail || negb (is_eligible_to_retry task ti)
            then TI.set_state (Some FAILED) ti
            else TI.set_state (Some UP_FOR_RETRY) ti in
  (ti, if test_mode then s else merge_ti ti s).

(** The next value of the [task_reschedule] table's identity column. *)
Definition next_reschedule_id (s : Session) : Z :=
  1 + foldr (λ r m, Z.max (TR.id r) m) 0 (task_reschedule s).

Definition handle_reschedule (actual_start_date reschedule_date : datetime) (test_mode : bool)
    (ti : TaskInstance) (s : Session) : TaskInstance * Session :=
  if test_mode then (ti, s)
  else
    let ti := set_duration (TI.set_dates (TI.start_date ti) (Some (utcnow s)) (TI.duration ti) ti) in
    let row := {| TR.id := next_reschedule_id s; TR.task_id := TI.task_id ti;
                  TR.dag_id := TI.dag_id ti; TR.execution_date := TI.execution_date ti;
                  TR.try_number := TI._try_number ti; TR.start_date := actual_start_date;
                  TR.end_date := utcnow s; TR.duration := utcnow s - actual_start_date;
                  TR.reschedule_date := reschedule_date |} in
    let s := with_task_reschedule (task_reschedule s ++ [row]) s in
    let ti := TI.set_state (Some UP_FOR_RESCHEDULE) ti in
    let ti := TI.set_tries (TI._try_number ti - 1) (TI.max_tries ti) ti in
    (ti, merge_ti ti s).

(** How the execution of the operator ended. *)
Inductive Outcome :=
| Completed
| AirflowSmartSensorException
| AirflowSkipException
| AirflowRescheduleException (reschedule_date : datetime)
| AirflowFailException                      (* or AirflowSensorTimeout *)
| OtherAirflowException
| OtherException.                           (* or KeyboardInterrupt *)

(** Whether [_run_raw_task] returns or lets the exception through. *)
Inductive Exit := Returned | Raised.

(** [_run_raw_task]: [execute] is the operator with its callbacks, which may
    change the object and the database and ends with an outcome. *)
Definition run_raw_task (hostname : string) (pid : Z)
    (execute : TaskInstance → Session → Outcome * TaskInstance * Session)
    (dag : DAG) (task : BaseOperator) (mark_success test_mode : bool)
    (job_id : option Z) (pool : option string) (ti : TaskInstance) (s : Session)
    : result (Exit * TaskInstance * Session) :=
  ti ← refresh_from_task dag task pool ti;
  let ti := TI.set_job hostname job_id (Some pid) (refresh_from_db ti s) in
  let s := merge_ti ti s in
  let actual_start_date := utcnow s in
  let '(outcome, ti, s) := if mark_success then (Completed, ti, s) else execute ti s in
  let finish st :=
    let ti := TI.set_state (Some st) (refresh_from_db ti s) in
    let ti := set_duration (TI.set_dates (TI.start_date ti) (Some (utcnow s)) (TI.duration ti) ti) in
    (Returned, ti, if test_mode then s else merge_ti ti s) in
  Ok match outcome with
  | Completed => finish SUCCESS
  | AirflowSmartSensorException => (Returned, ti, s)
  | AirflowSkipException => finish SKIPPED
  | AirflowRescheduleException d =>
      let '(ti, s) := handle_reschedule actual_start_date d test_mode (refresh_from_db ti s) s in
      (Returned, ti, s)
  | AirflowFailException =>
      let '(ti, s) := handle_failure task test_mode true (refresh_from_db ti s) s in
      (Raised, ti, s)
  | OtherAirflowException =>
      let ti := refresh_from_db ti s in
      if TI.state ti ∈? [Some SUCCESS; Some FAILED] then (Returned, ti, s)
      else let '(ti, s) := handle_failure task test_mode false ti s in (Raised, ti, s)
  | OtherException =>
      let '(ti, s) := handle_failure task test_mode false ti s in (Raised, ti, s)
  end.

(** The part of [check_and_change_state_before_execution] that starts an
    attempt once the dependencies are met. *)
Definition begin_attempt (ti : TaskInstance) : TaskInstance :=
  let ti := TI.set_tries (TI._try_number ti + 1) (TI.max_tries ti) ti in
  let ti := TI.set_state (Some RUNNING) ti in
  TI.set_dates (TI.start_date ti) None (TI.duration ti) ti.

(** ** The command of a task instance *)

(** The keyword arguments of [generate_command]. *)
Record CommandArgs := {
  mark_success : bool;
  arg_ignore_all_deps : bool;
  arg_ignore_depends_on_past : bool;
  arg_ignore_task_deps : bool;
  arg_ignore_ti_state : bool;
  local : bool;
  pickle_id : option Z;
  file_path : option string;
  raw : bool;
  arg_job_id : option string;
  arg_pool : option string;
  cfg_path : option string;
}.

(** [cmd.extend([...])] under [if flag:] and under [if value:]. *)
Definition flag (b : bool) (name : string) : list string := if b then [name] else [].
Definition opt_arg (name : string) (v : option string) : list string :=
  match v with Some x => if x ≟ "" then [] else [name; x] | None => [] end.

(** An integer argument; 0 is falsy. *)
Definition opt_int_arg (name : string) (v : option Z) : list string :=
  match v with Some n => if n =? 0 then [] else [name; pretty n] | None => [] end.

Definition generate_command (isoformat : datetime → string) (dag_id task_id : string)
    (execution_date : datetime) (a : CommandArgs) : list string :=
  ["airflow"; "tasks"; "run"; dag_id; task_id; isoformat execution_date]
  ++ flag (mark_success a) "--mark-success"
  ++ opt_int_arg "--pickle" (pickle_id a)
  ++ opt_arg "--job-id" (arg_job_id a)
  ++ flag (arg_ignore_all_deps a) "--ignore-all-dependencies"
  ++ flag (arg_ignore_task_deps a) "--ignore-dependencies"
  ++ flag (arg_ignore_depends_on_past a) "--ignore-depends-on-past"
  ++ flag (arg_ignore_ti_state a) "--force"
  ++ flag (local a) "--local"
  ++ opt_arg "--pool" (arg_pool a)
  ++ flag (raw a) "--raw"
  ++ opt_arg "--subdir" (file_path a)
  ++ opt_arg "--cfg-path" (cfg_path a).

(** ** Selecting task instances by key *)

(** [filter_for_tis]: the filter over rows for a list of keys, [None] for an
    empty list; the two first forms are the common-path optimisations. *)
Definition filter_for_tis (tis : list (string * string * datetime)) : option (TaskInstance → bool) :=
  match tis with
  | [] => None
  | (did, tid, d) :: _ =>
      if forallb (λ '(did', _, d'), (did' ≟ did) && (d' ≟ d)) tis then
        Some (λ r, (TI.dag_id r ≟ did) && (TI.execution_date r ≟ d) &&
                   (TI.task_id r ∈? (λ '(_, t, _), t) <$> tis))
      else if forallb (λ '(did', tid', _), (did' ≟ did) && (tid' ≟ tid)) tis then
        Some (λ r, (TI.dag_id r ≟ did) && (TI.execution_date r ∈? (λ '(_, _, d), d) <$> tis) &&
                   (TI.task_id r ≟ tid))
      else Some (λ r, TI.primary r ∈? tis)
  end.

(** ** Clearing *)

(** [task_id_by_key]: dag id, execution date, try number to the task ids. *)
Abbreviation TasksByKey := (gmap string (gmap Z (gmap Z (gset string)))).

(** [task_id_by_key[dag_id][execution_date][try_number].add(task_id)]; the
    nested dictionaries are default dictionaries. *)
Definition add_key (ti : TaskInstance) (m : TasksByKey) : TasksByKey :=
  let dates := default ∅ (m !! TI.dag_id ti) in
  let tries := default ∅ (dates !! TI.execution_date ti) in
  let tasks := default ∅ (tries !! try_number ti) in
  <[TI.dag_id ti :=
     <[TI.execution_date ti :=
        <[try_number ti := {[TI.task_id ti]} ∪ tasks]> tries]> dates]> m.

(** The WHERE clause built from the nested dictionaries. *)
Definition by_key_condition (m : TasksByKey) (r : TaskReschedule) : bool :=
  match m !! TR.dag_id r with
  | None => false
  | Some dates =>
      match dates !! TR.execution_date r with
      | None => false
      | Some tries =>
          match tries !! TR.try_number r with
          | None => false
          | Some tasks => bool_decide (TR.task_id r ∈ tasks)
          end
      end
  end.

Record ClearState := {
  job_ids : list Z;
  task_id_by_key : TasksByKey;
  clear_session : Session;
}.

(** What clearing does to the object of one task instance. *)
Definition clear_ti (dag : option DAG) (ti : TaskInstance) : result TaskInstance :=
  if TI.state ti ≟ Some RUNNING then
    match TI.job_id ti with
    | Some j => Ok (if j =? 0 then ti else TI.set_state (Some RESTARTING) ti)
    | None => Ok ti
    end
  else
    ti' ← match dag with
          | Some d =>
              if has_task d (TI.task_id ti) then
                task ← get_task d (TI.task_id ti);
                r ← refresh_from_task d task None ti;
                Ok (TI.set_tries (TI._try_number r) (try_number r + retries task - 1) r)
              else Ok (TI.set_tries (TI._try_number ti)
                         (Z.max (TI.max_tries ti) (prev_attempted_tries ti)) ti)
          | None => Ok (TI.set_tries (TI._try_number ti)
                          (Z.max (TI.max_tries ti) (prev_attempted_tries ti)) ti)
          end;
    Ok (TI.set_external None (TI.set_state None ti')).

Definition clear_step (dag : option DAG) (st : ClearState) (ti : TaskInstance) : result ClearState :=
  ti' ← clear_ti dag ti;
  Ok {| job_ids := match TI.state ti, TI.job_id ti with
                   | Some RUNNING, Some j => if j =? 0 then job_ids st else job_ids st ++ [j]
                   | _, _ => job_ids st
                   end;
        task_id_by_key := add_key ti' (task_id_by_key st);
        clear_session := merge_ti ti' (clear_session st) |}.

(** [clear_task_instances]; [dag_run_state] is [None] for the literal [False],
    which [activate_dag_runs=False] also selects. *)
Definition clear_task_instances (tis : list TaskInstance) (activate_dag_runs : option bool)
    (dag : option DAG) (dag_run_state : option DagRunState) (s : Session) : result Session :=
  st ← foldM (clear_step dag) tis {| job_ids := []; task_id_by_key := ∅; clear_session := s |};
  let s := clear_session st in
  let s := match tis with
           | [] => s
           | _ => with_task_reschedule
                    (List.filter (λ r, negb (by_key_condition (task_id_by_key st) r))
                       (task_reschedule s)) s
           end in
  let s := with_job (update_where (λ j, bj_id j ∈? job_ids st)
                       (λ j, {| bj_id := bj_id j; job_type := job_type j; bj_state := Some RESTARTING;
                                latest_heartbeat := latest_heartbeat j |}) (job s)) s in
  let dag_run_state := match activate_dag_runs with
                       | Some false => None
                       | _ => dag_run_state
                       end in
  Ok match dag_run_state with
  | None => s
  | Some st =>
      with_dag_run
        (update_where (λ dr, existsb (λ ti, (TI.dag_id ti ≟ DR.dag_id dr) &&
                                            (TI.execution_date ti ≟ DR.execution_date dr)) tis)
           (λ dr, let dr := DagRunQuery.set_start_date None
                              (DagRunQuery.set_dagrun_state (utcnow s) st dr) in
                  if st ≟ DR_QUEUED then DagRunQuery.set_last_scheduling_decision None dr else dr)
           (dag_run s)) s
  end.

End TaskInstance.
Import TaskInstance.

(** ** Facts *)

Section Facts.
Local Open Scope Z_scope.

Lemma primary_set_state st ti : TI.primary (TI.set_state st ti) = TI.primary ti.
Proof. done. Qed.

Lemma primary_set_state_obj n st ti : TI.primary (set_state_obj n st ti) = TI.primary ti.
Proof. unfold set_state_obj. by destruct (_ || _). Qed.

Lemma state_set_state_obj n st ti : TI.state (set_state_obj n st ti) = st.
Proof. unfold set_state_obj. by destruct (_ || _). Qed.

Lemma set_state_stored st ti s :
  find_ti (TI.primary ti) (set_state st ti s).2 = Some (set_state_obj (utcnow s) st ti).
Proof. unfold set_state; simpl. rewrite <-(primary_set_state_obj (utcnow s) st). apply find_merge_ti. Qed.

Lemma set_duration_fields ti :
  TI.state (set_duration ti) = TI.state ti ∧ TI._try_number (set_duration ti) = TI._try_number ti ∧
  TI.max_tries (set_duration ti) = TI.max_tries ti ∧ TI.primary (set_duration ti) = TI.primary ti.
Proof. unfold set_duration. by destruct (TI.end_date ti), (TI.start_date ti). Qed.

Lemma handle_failure_fields task tm ff ti s :
  TI._try_number (handle_failure task tm ff ti s).1 = TI._try_number ti ∧
  TI.max_tries (handle_failure task tm ff ti s).1 = TI.max_tries ti ∧
  TI.primary (handle_failure task tm ff ti s).1 = TI.primary ti ∧
  TI.state (handle_failure task tm ff ti s).1 =
    Some (if ff || negb (is_eligible_to_retry task ti) then FAILED else UP_FOR_RETRY).
Proof.
  unfold handle_failure; simpl. set (t0 := TI.set_dates _ _ _ ti).
  destruct (set_duration_fields t0) as (E1 & E2 & E3 & E4).
  assert (is_eligible_to_retry task (set_duration t0) = is_eligible_to_retry task ti) as ->.
  { unfold is_eligible_to_retry, try_number. by rewrite E1, E2, E3. }
  destruct (ff || negb (is_eligible_to_retry task ti)); simpl; split_and!; auto;
    unfold TI.primary in *; simpl; congruence.
Qed.
End Facts.

(** ** Retries: how often a failing task runs *)

Section Retry.
Local Open Scope Z_scope.

(** One attempt that fails: it starts, raises, and the failure is handled. *)
Definition failing_attempt (task : BaseOperator) (s : Session) (ti : TaskInstance) : TaskInstance :=
  (handle_failure task false false (begin_attempt ti) s).1.

Lemma failing_attempt_fields task s ti :
  TI._try_number (failing_attempt task s ti) = TI._try_number ti + 1 ∧
  TI.max_tries (failing_attempt task s ti) = TI.max_tries ti ∧
  TI.state (failing_attempt task s ti) =
    Some (if negb (retries task =? 0) && (TI._try_number ti + 1 <=? TI.max_tries ti)
          then UP_FOR_RETRY else FAILED).
Proof.
  unfold failing_attempt.
  destruct (handle_failure_fields task false false (begin_attempt ti) s) as (E1 & E2 & _ & E4).
  rewrite E1, E2, E4. split_and!; [done..|]. simpl orb.
  unfold is_eligible_to_retry, begin_attempt, try_number; simpl.
  by destruct (_ && _).
Qed.

Lemma iter_failing_fields task s ti k :
  TI._try_number (Nat.iter k (failing_attempt task s) ti) = TI._try_number ti + Z.of_nat k ∧
  TI.max_tries (Nat.iter k (failing_attempt task s) ti) = TI.max_tries ti.
Proof.
  induction k as [|k [IH1 IH2]]; [simpl; split; lia|].
  rewrite Nat.iter_succ.
  destruct (failing_attempt_fields task s (Nat.iter k (failing_attempt task s) ti)) as (E1 & E2 & _).
  rewrite E1, E2, IH1, IH2. split; lia.
Qed.

(** A task that fails at every attempt is retried as long as
    [max_tries - _try_number] retries are left, and the attempt after the last
    retry marks it failed; with [retries = 0] the first attempt does. *)
Theorem failing_task_attempts task s ti (k : nat)
  (Hfresh : TI._try_number ti ≤ TI.max_tries ti) (Hretries : retries task = 0 → TI._try_number ti = TI.max_tries ti)
  (Hk : 1 ≤ Z.of_nat k ≤ TI.max_tries ti - TI._try_number ti + 1) :
  TI.state (Nat.iter k (failing_attempt task s) ti) =
    Some (if Z.of_nat k <=? TI.max_tries ti - TI._try_number ti then UP_FOR_RETRY else FAILED).
Proof.
  destruct k as [|k]; [lia|]. rewrite Nat.iter_succ.
  destruct (failing_attempt_fields task s (Nat.iter k (failing_attempt task s) ti)) as (_ & _ & ->).
  destruct (iter_failing_fields task s ti k) as [-> ->]. f_equal.
  destruct (Z.eqb_spec (retries task) 0) as [E|E]; cbn [negb andb];
    case_ifs; try done; exfalso; bool_to_prop; try specialize (Hretries E); lia.
Qed.

Lemma clear_ti_fields d ti ti' task :
  TI.state ti ∉ State.running → get_task d (TI.task_id ti) = Ok task →
  clear_ti (Some d) ti = Ok ti' →
  TI.state ti' = None ∧ TI._try_number ti' = TI._try_number ti ∧
  TI.max_tries ti' = TI._try_number ti + retries task ∧ TI.external_executor_id ti' = None ∧
  TI.primary ti' = TI.primary ti.
Proof.
  intros Hr Ht. unfold clear_ti.
  rewrite (bool_decide_eq_false_2 (TI.state ti = Some RUNNING)) by (intros E; apply Hr; rewrite E; left).
  unfold get_task in *. destruct (lookup_task d (TI.task_id ti)) as [t|] eqn:Hl; [|done].
  injection Ht as [= ->].
  rewrite (proj2 (has_task_lookup d (TI.task_id ti))) by (by rewrite Hl). simpl.
  unfold refresh_from_task. destruct (Graph.priority_weight_total d task); simpl; [|done].
  intros [= <-]. simpl. unfold try_number; simpl.
  rewrite (bool_decide_eq_false_2 (TI.state ti ∈ State.running)) by done.
  split_and!; try done. lia.
Qed.

(** Clearing a task instance that is not being executed resets it to no
    state and gives it a full set of retries again: it can then fail
    [retries] times with a retry, and the next failure is final. *)
Theorem cleared_task_attempts d ti ti' task s (k : nat)
  (Hidle : TI.state ti ∉ State.running) (Htask : get_task d (TI.task_id ti) = Ok task)
  (Hclear : clear_ti (Some d) ti = Ok ti') (Hretries : 0 ≤ retries task)
  (Hk : 1 ≤ Z.of_nat k ≤ retries task + 1) :
  TI.state ti' = None ∧
  TI.state (Nat.iter k (failing_attempt task s) ti') =
    Some (if Z.of_nat k <=? retries task then UP_FOR_RETRY else FAILED).
Proof.
  destruct (clear_ti_fields d ti ti' task Hidle Htask Hclear) as (E1 & E2 & E3 & _ & _).
  split; [done|]. destruct k as [|k]; [lia|]. rewrite Nat.iter_succ.
  destruct (failing_attempt_fields task s (Nat.iter k (failing_attempt task s) ti')) as (_ & _ & ->).
  destruct (iter_failing_fields task s ti' k) as [-> ->]. rewrite E2, E3. f_equal.
  destruct (Z.eqb_spec (retries task) 0) as [E|E]; cbn [negb andb];
    case_ifs; try done; exfalso; bool_to_prop; lia.
Qed.

(** *** Retry dates *)

Lemma ceil_div_bounds a b : 0 < b → a ≤ b * ceil_div a b < a + b.
Proof. intros Hb. unfold ceil_div. pose proof (Z.div_mod (- a) b). pose proof (Z.mod_pos_bound (-a) b). nia. Qed.

Lemma min_backoff_pos delay n : 0 < delay → 1 ≤ n → 0 < min_backoff delay n.
Proof.
  intros Hd Hn. unfold min_backoff.
  destruct (Z.leb_spec 2 n).
  - pose proof (Z.pow_pos_nonneg 2 (n - 2)).
    pose proof (ceil_div_bounds (delay * 2 ^ (n - 2)) 1000000). nia.
  - pose proof (Z.pow_pos_nonneg 2 (2 - n)).
    pose proof (ceil_div_bounds delay (1000000 * 2 ^ (2 - n))). nia.
Qed.

(** With exponential backoff and a positive retry delay, the delay before
    the next retry is between the base [ceil(delay * 2^(try-2))] seconds and
    twice that, cut at the largest delta the code allows, and never above
    [max_retry_delay] when that is set; the computation does not divide by
    zero. *)
Theorem retry_backoff_bounds h task ti (Hexp : retry_exponential_backoff task = true)
  (Hdelay : 0 < retry_delay task) (Htry : 1 ≤ try_number ti) (Hhash : 0 ≤ h) :
  let mb := min_backoff (retry_delay task) (try_number ti) in
  ∃ d, retry_delay_of h task ti = Ok d ∧ 0 < mb ∧
    (max_retry_delay task = None →
       Z.min mb timedelta_max_seconds * 1000000 ≤ d ≤
       Z.min (2 * mb - 1) timedelta_max_seconds * 1000000) ∧
    (∀ mx, max_retry_delay task = Some mx → mx ≠ 0 → d ≤ mx).
Proof.
  intros mb. pose proof (min_backoff_pos (retry_delay task) (try_number ti) Hdelay Htry) as Hmb.
  fold mb in Hmb. unfold retry_delay_of. rewrite Hexp. fold mb.
  destruct (Z.eqb_spec mb 0); [lia|]. pose proof (Z.mod_pos_bound h mb Hmb) as Hmod.
  unfold timedelta_max_seconds.
  eexists. split; [reflexivity|]. split; [done|]. split.
  - intros ->. lia.
  - intros mx -> Hmx. destruct (Z.eqb_spec mx 0); lia.
Qed.

(** Exponential backoff with a retry delay of zero makes
    [next_retry_datetime] raise [ZeroDivisionError], whatever the state, hash
    and end date of the task instance. *)
Lemma zero_retry_delay_raises h task ti (Hexp : retry_exponential_backoff task = true)
  (Hdelay : retry_delay task = 0) : next_retry_datetime h task ti = Err ZeroDivisionError.
Proof.
  unfold next_retry_datetime, retry_delay_of. rewrite Hexp, Hdelay.
  replace (min_backoff 0 (try_number ti)) with 0; [done|].
  unfold min_backoff, ceil_div. destruct (2 <=? try_number ti); by rewrite ?Z.mul_0_l, Z.opp_0, Zdiv_0_l.
Qed.

(** A task instance is premature exactly while it is up for retry and its
    retry date has not passed; once the date has passed it is not. *)
Lemma is_premature_spec h task ti s b (Hp : is_premature h task ti s = Ok b) :
  b = true ↔ TI.state ti = Some UP_FOR_RETRY ∧
             ∃ d, next_retry_datetime h task ti = Ok d ∧ utcnow s ≤ d.
Proof.
  unfold is_premature, ready_for_retry in Hp. case_bool_decide as Hs.
  - destruct (next_retry_datetime h task ti) as [d|e]; simpl in Hp; [|done].
    injection Hp as <-. split.
    + intros E. split; [done|]. exists d. split; [done|]. lia.
    + intros (_ & d' & [= <-] & Hd). lia.
  - injection Hp as <-. split; [done|]. intros [? _]. done.
Qed.
End Retry.

(** ** Selecting and clearing rows *)

Section Clear.
Local Open Scope Z_scope.

Lemma forallb_keys {A} (f : A → bool) l : forallb f l = true → ∀ x, x ∈ l → f x = true.
Proof. by rewrite forallb_elem. Qed.

Lemma filter_for_tis_spec tis :
  match filter_for_tis tis with
  | Some f => tis ≠ [] ∧ ∀ r, f r = true ↔ TI.primary r ∈ tis
  | None => tis = []
  end.
Proof.
  unfold filter_for_tis. destruct tis as [|[[did tid] d] l]; [done|].
  set (tis := (did, tid, d) :: l).
  destruct (forallb (λ '(did', _, d'), (did' ≟ did) && (d' ≟ d)) tis) eqn:E1.
  { split; [done|]. intros r. unfold TI.primary. split.
    - intros [[H1 H2]%andb_true_iff H3]%andb_true_iff. bool_to_prop.
      apply list_elem_of_fmap in H3 as ([[a b] c] & Hb & Hin).
      pose proof (forallb_keys _ _ E1 _ Hin) as Hf. simpl in Hf. bool_to_prop. by subst.
    - intros Hin. pose proof (forallb_keys _ _ E1 _ Hin) as Hf. simpl in Hf. bool_to_prop.
      rewrite !bool_decide_eq_true_2; try done.
      apply list_elem_of_fmap. by exists (TI.dag_id r, TI.task_id r, TI.execution_date r). }
  destruct (forallb (λ '(did', tid', _), (did' ≟ did) && (tid' ≟ tid)) tis) eqn:E2.
  { split; [done|]. intros r. unfold TI.primary. split.
    - intros [[H1 H2]%andb_true_iff H3]%andb_true_iff. bool_to_prop.
      apply list_elem_of_fmap in H2 as ([[a b] c] & Hb & Hin).
      pose proof (forallb_keys _ _ E2 _ Hin) as Hf. simpl in Hf. bool_to_prop. by subst.
    - intros Hin. pose proof (forallb_keys _ _ E2 _ Hin) as Hf. simpl in Hf. bool_to_prop.
      rewrite !bool_decide_eq_true_2; try done.
      apply list_elem_of_fmap. by exists (TI.dag_id r, TI.task_id r, TI.execution_date r). }
  split; [done|]. intros r. apply bool_decide_eq_true.
Qed.

(** Whichever of its three forms [filter_for_tis] picks, the filter accepts
    exactly the rows whose primary key is in the list; it is [None] only for
    the empty list. *)
Theorem filter_for_tis_correct tis :
  match filter_for_tis tis with
  | Some f => tis ≠ [] ∧ ∀ r, f r = true ↔ TI.primary r ∈ tis
  | None => tis = []
  end.
Proof. apply filter_for_tis_spec. Qed.

(** The reference reading of the WHERE clause: one row of [tis] matches. *)
Definition reschedule_of (ti : TaskInstance) (r : TaskReschedule) : bool :=
  (TI.dag_id ti ≟ TR.dag_id r) && (TI.execution_date ti ≟ TR.execution_date r) &&
  (try_number ti ≟ TR.try_number r) && (TI.task_id ti ≟ TR.task_id r).

Lemma by_key_condition_add ti m r :
  by_key_condition (add_key ti m) r = reschedule_of ti r || by_key_condition m r.
Proof.
  unfold by_key_condition, add_key, reschedule_of. rewrite lookup_insert.
  case_decide as E1; [|by rewrite (bool_decide_eq_false_2 _ E1)].
  rewrite (bool_decide_eq_true_2 _ E1), lookup_insert, <-E1; cbn [andb].
  case_decide as E2.
  2:{ rewrite (bool_decide_eq_false_2 _ E2); cbn [andb orb].
      destruct (m !! TI.dag_id ti); simpl; [done|by rewrite lookup_empty]. }
  rewrite (bool_decide_eq_true_2 _ E2), lookup_insert, <-E2; cbn [andb].
  case_decide as E3.
  2:{ rewrite (bool_decide_eq_false_2 _ E3); cbn [andb orb].
      destruct (m !! TI.dag_id ti) as [dates|]; simpl; [|by rewrite !lookup_empty].
      destruct (dates !! TI.execution_date ti); simpl; [done|by rewrite lookup_empty]. }
  rewrite (bool_decide_eq_true_2 _ E3), <-E3; cbn [andb].
  rewrite (bool_decide_ext _ (TI.task_id ti = TR.task_id r ∨ TR.task_id r ∈
    (default ∅ (default ∅ (default ∅ (m !! TI.dag_id ti) !! TI.execution_date ti) !! try_number ti)
      : gset string))).
  2:{ rewrite elem_of_union, elem_of_singleton. naive_solver. }
  rewrite bool_decide_or. f_equal.
  destruct (m !! TI.dag_id ti) as [dates|]; simpl; [|by rewrite !lookup_empty].
  destruct (dates !! TI.execution_date ti) as [tries|]; simpl; [|by rewrite !lookup_empty].
  destruct (tries !! try_number ti); simpl; [done|]. by apply bool_decide_eq_false_2.
Qed.

Lemma primary_refresh_from_task d task po ti ti' :
  refresh_from_task d task po ti = Ok ti' → TI.primary ti' = TI.primary ti.
Proof.
  unfold refresh_from_task. destruct (Graph.priority_weight_total d task); simpl; [|done].
  by intros [= <-].
Qed.

Lemma clear_ti_primary dag ti ti' : clear_ti dag ti = Ok ti' → TI.primary ti' = TI.primary ti.
Proof.
  unfold clear_ti. case_bool_decide as E.
  - intros Hok. destruct (TI.job_id ti) as [j|]; [destruct (j =? 0)|]; by injection Hok as <-.
  - intros (t & Ht & Hok)%result_bind_ok. injection Hok as <-.
    change (TI.primary t = TI.primary ti). destruct dag as [d|]; [|by injection Ht as <-].
    destruct (has_task d (TI.task_id ti)); [|by injection Ht as <-].
    apply result_bind_ok in Ht as (task & _ & Ht).
    apply result_bind_ok in Ht as (r & Hr & [= <-]). 
    change (TI.primary r = TI.primary ti). by eapply primary_refresh_from_task.
Qed.

Lemma clear_ti_state dag ti ti' :
  clear_ti dag ti = Ok ti' →
  (TI.state ti ≠ Some RUNNING → TI.state ti' = None) ∧
  (TI.state ti = Some RUNNING → ∀ j, TI.job_id ti = Some j → j ≠ 0 → TI.state ti' = Some RESTARTING).
Proof.
  unfold clear_ti. case_bool_decide as E.
  - intros Hok. split; [done|]. intros _ j Hj Hj0. rewrite Hj in Hok. bool_to_prop.
    destruct (Z.eqb_spec j 0); [done|]. by injection Hok as <-.
  - intros (t & Ht & Hok)%result_bind_ok. injection Hok as <-. by split.
Qed.

(** After the loop of [clear_task_instances] each row of the list holds what
    clearing computed for it, and the other rows are as before. *)
Lemma clear_fold_find dag tis st st' :
  ti_keys_unique tis → foldM (clear_step dag) tis st = Ok st' →
  (∀ ti, ti ∈ tis → ∃ ti', clear_ti dag ti = Ok ti' ∧
     find_ti (TI.primary ti) (clear_session st') = Some ti') ∧
  (∀ k, k ∉ (TI.primary <$> tis) → find_ti k (clear_session st') = find_ti k (clear_session st)).
Proof.
  revert st. induction tis as [|t tis IH]; intros st Hn Hf; simpl in *.
  { injection Hf as <-. split; [by intros ? ?%elem_of_nil|done]. }
  apply NoDup_cons in Hn as [Hnt Hn]. apply result_bind_ok in Hf as (st1 & Hs & Hf).
  unfold clear_step in Hs. apply result_bind_ok in Hs as (t' & Ht' & [= <-]).
  destruct (IH _ Hn Hf) as [H1 H2]. clear IH. simpl in *.
  pose proof (clear_ti_primary _ _ _ Ht') as Hp. split.
  - intros ti [->|Hti]%elem_of_cons; [|by apply H1].
    exists t'. split; [done|]. rewrite H2 by done. rewrite <-Hp. apply find_merge_ti.
  - intros k Hk. apply not_elem_of_cons in Hk as [Hk1 Hk2]. rewrite H2 by done.
    apply find_merge_ti_ne. by rewrite Hp.
Qed.

Lemma clear_task_instances_session tis act dag drs s s' :
  clear_task_instances tis act dag drs s = Ok s' →
  ∃ st, foldM (clear_step dag) tis {| job_ids := []; task_id_by_key := ∅; clear_session := s |} = Ok st ∧
        task_instance s' = task_instance (clear_session st) ∧
        (tis ≠ [] → task_reschedule s' =
           List.filter (λ r, negb (by_key_condition (task_id_by_key st) r))
             (task_reschedule (clear_session st))).
Proof.
  unfold clear_task_instances. intros (st & Hf & Hok)%result_bind_ok. exists st. split; [done|].
  injection Hok as <-. destruct tis, act as [[]|], drs; simpl; split; done.
Qed.

Lemma find_ti_ext k s s' : task_instance s = task_instance s' → find_ti k s = find_ti k s'.
Proof. unfold find_ti. by intros ->. Qed.

(** Clearing a list of task instances leaves every one that was not
    running without a state, every running one that has a job restarting, and
    every row outside the list untouched. *)
Theorem clear_task_instances_correct tis act dag drs s s'
  (Hkeys : ti_keys_unique tis) (Hclear : clear_task_instances tis act dag drs s = Ok s') :
  (∀ ti, ti ∈ tis → ∃ ti', find_ti (TI.primary ti) s' = Some ti' ∧
     (TI.state ti ≠ Some RUNNING → TI.state ti' = None) ∧
     (TI.state ti = Some RUNNING → ∀ j, TI.job_id ti = Some j → j ≠ 0 →
        TI.state ti' = Some RESTARTING)) ∧
  (∀ k, k ∉ (TI.primary <$> tis) → find_ti k s' = find_ti k s).
Proof.
  destruct (clear_task_instances_session _ _ _ _ _ _ Hclear) as (st & Hf & Hti & _).
  destruct (clear_fold_find _ _ _ _ Hkeys Hf) as [H1 H2]. split.
  - intros ti Hin. destruct (H1 ti Hin) as (ti' & Hc & Hfind). exists ti'.
    rewrite (find_ti_ext _ _ _ Hti). split; [done|]. by apply clear_ti_state with dag.
  - intros k Hk. rewrite (find_ti_ext _ _ _ Hti). by apply H2.
Qed.

Lemma clear_fold_reschedules dag tis st st' :
  foldM (clear_step dag) tis st = Ok st' →
  task_reschedule (clear_session st') = task_reschedule (clear_session st) ∧
  ∀ r, by_key_condition (task_id_by_key st') r = true ↔
       by_key_condition (task_id_by_key st) r = true ∨
       ∃ ti ti', ti ∈ tis ∧ clear_ti dag ti = Ok ti' ∧ reschedule_of ti' r = true.
Proof.
  revert st. induction tis as [|t tis IH]; intros st Hf; simpl in *.
  { injection Hf as <-. split; [done|]. set_solver. }
  apply result_bind_ok in Hf as (st1 & Hs & Hf).
  unfold clear_step in Hs. apply result_bind_ok in Hs as (t' & Ht' & [= <-]).
  destruct (IH _ Hf) as [H1 H2]. clear IH. simpl in *. split.
  - rewrite H1. unfold merge_ti. by destruct (existsb _ _).
  - intros r. rewrite H2, by_key_condition_add, orb_true_iff. split.
    + intros [[Hr|Hb]|(ti & ti' & Hin & Hc)]; [|by left|].
      * right. exists t, t'. split; [left|done].
      * right. exists ti, ti'. split; [by right|done].
    + intros [Hb|(ti & ti' & [->|Hin]%elem_of_cons & Hc & Hr)]; [by left; right| |].
      * left; left. congruence.
      * right. by exists ti, ti'.
Qed.

(** Clearing deletes exactly the reschedule requests of the try that each
    cleared task instance will run next (the nested-dictionary WHERE clause
    means the same as comparing row by row). *)
Theorem clear_deletes_reschedules tis act dag drs s s' r
  (Hne : tis ≠ []) (Hclear : clear_task_instances tis act dag drs s = Ok s') :
  r ∈ task_reschedule s' ↔
  r ∈ task_reschedule s ∧
  ¬ ∃ ti ti', ti ∈ tis ∧ clear_ti dag ti = Ok ti' ∧ reschedule_of ti' r = true.
Proof.
  destruct (clear_task_instances_session _ _ _ _ _ _ Hclear) as (st & Hf & _ & Htr).
  destruct (clear_fold_reschedules _ _ _ _ Hf) as [H1 H2]. simpl in *.
  rewrite (Htr Hne), elem_of_filterb, H1. rewrite negb_true_iff, <-not_true_iff_false, H2.
  split.
  { intros [Hn Hr]. split; [done|]. intros HE. apply Hn. by right. }
  intros [Hr Hn]. split; [|done]. intros [Hb|Hb]; [|done]. unfold by_key_condition in Hb. by rewrite lookup_empty in Hb.
Qed.
End Clear.

(** ** Rescheduling *)

Section Reschedule.
Local Open Scope Z_scope.

Lemma next_reschedule_id_fresh s r : r ∈ task_reschedule s → TR.id r < next_reschedule_id s.
Proof.
  unfold next_reschedule_id. induction (task_reschedule s) as [|x l IH]; simpl.
  - by intros ?%elem_of_nil.
  - intros [->|Hr]%elem_of_cons; [lia|]. specialize (IH Hr). lia.
Qed.

Lemma head_py_sorted {A} (leb : A → A → bool) l x :
  (∀ a b, leb a b = true ∨ leb b a = true) →
  (∀ a b c, leb a b = true → leb b c = true → leb a c = true) →
  x ∈ l → (∀ y, y ∈ l → leb y x = true → y = x) → head (py_sorted leb l) = Some x.
Proof.
  intros Htot Htr Hx Hmax. pose proof (py_sorted_StronglySorted leb Htot Htr l) as Hs.
  rewrite <-(elem_of_py_sorted leb) in Hx. setoid_rewrite <-(elem_of_py_sorted leb _ l) in Hmax.
  destruct (py_sorted leb l) as [|y ys]; [by apply elem_of_nil in Hx|]. simpl. f_equal.
  apply StronglySorted_inv in Hs as [_ Hall]. rewrite Forall_forall in Hall.
  apply Hmax; [left|]. apply elem_of_cons in Hx as [->|Hx]; [destruct (Htot y y); done|by apply Hall].
Qed.

(** A reschedule request of a running task instance is found again by the
    check that waits for it: the instance is left up for reschedule with the
    same try number, the latest request for that try is the one just made, and
    starting the next attempt gives back the try number of this one. *)
Theorem reschedule_round_trip start d ti s (Hrun : TI.state ti = Some RUNNING) :
  let '(ti', s') := handle_reschedule start d false ti s in
  TI.state ti' = Some UP_FOR_RESCHEDULE ∧
  try_number ti' = try_number ti ∧
  TR.reschedule_date <$> head (query_for_task_instance ti' true s') = Some d ∧
  TI._try_number (begin_attempt ti') = TI._try_number ti.
Proof.
  unfold handle_reschedule. cbn zeta.
  set (t0 := TI.set_dates _ _ _ ti). set (row := {| TR.id := _ |}).
  destruct (set_duration_fields t0) as (E1 & E2 & E3 & E4).
  set (ti' := TI.set_tries _ _ _). cbn iota beta.
  assert (TI._try_number ti' = TI._try_number ti - 1) as Htn by (unfold ti'; simpl; rewrite E2; done).
  assert (try_number ti' = TI._try_number ti) as Hn by (unfold try_number; rewrite Htn; simpl; lia).
  split; [done|]. split; [rewrite Hn; unfold try_number; by rewrite Hrun|]. split.
  - unfold query_for_task_instance. erewrite (head_py_sorted _ _ row); [done|..].
    + intros a b; cbv beta iota. lia.
    + intros a b c; cbv beta iota. lia.
    + apply elem_of_filterb. split.
      * unfold row; cbn [TR.dag_id TR.task_id TR.execution_date TR.try_number].
        rewrite !bool_decide_eq_true_2; try done. by rewrite E2.
      * unfold merge_ti. destruct (existsb _ _); simpl; set_solver.
    + intros y [_ Hy]%elem_of_filterb. cbv beta iota. intros Hle.
      assert (y ∈ task_reschedule s ++ [row]) as Hy'.
      { revert Hy. unfold merge_ti. by destruct (existsb _ _). }
      apply elem_of_app in Hy' as [Ho|Ho%list_elem_of_singleton]; [|done].
      apply next_reschedule_id_fresh in Ho. bool_to_prop. unfold row in Hle; simpl in Hle. lia.
  - unfold begin_attempt; simpl. rewrite E2. simpl. lia.
Qed.
End Reschedule.

(** ** Witnesses *)

Section Witnesses.
Local Open Scope Z_scope.

Definition w_ti := Sample.mk_ti "diamond" "b" None.
Definition w_session := Sample.mk_session [w_ti] [Sample.mk_run "diamond" DR_RUNNING].
Definition w_exp : BaseOperator :=
  {| task_id := "b"; task_type := "BashOperator"; retries := 3; retry_delay := 300000000;
     retry_exponential_backoff := true; max_retry_delay := None; op_start_date := Some 0;
     op_end_date := None; depends_on_past := false; wait_for_downstream := false;
     trigger_rule := ALL_SUCCESS; op_priority_weight := 1; weight_rule := DOWNSTREAM;
     op_queue := "default"; op_pool := "default_pool"; op_pool_slots := 1;
     task_concurrency := None; on_execute_callback := false; on_success_callback := false;
     inherits_from_dummy_operator := false; is_SkipMixin := false; op_executor_config := "";
     deps := []; upstream_task_ids := ["a"]; downstream_task_ids := ["d"] |}.
Definition w_zero : BaseOperator :=
  {| task_id := "b"; task_type := "BashOperator"; retries := 3; retry_delay := 0;
     retry_exponential_backoff := true; max_retry_delay := None; op_start_date := Some 0;
     op_end_date := None; depends_on_past := false; wait_for_downstream := false;
     trigger_rule := ALL_SUCCESS; op_priority_weight := 1; weight_rule := DOWNSTREAM;
     op_queue := "default"; op_pool := "default_pool"; op_pool_slots := 1;
     task_concurrency := None; on_execute_callback := false; on_success_callback := false;
     inherits_from_dummy_operator := false; is_SkipMixin := false; op_executor_config := "";
     deps := []; upstream_task_ids := ["a"]; downstream_task_ids := ["d"] |}.

Lemma failing_task_attempts_witness :
  TI.state (Nat.iter 2 (failing_attempt Sample.op_b w_session) w_ti) = Some FAILED.
Proof. apply (failing_task_attempts Sample.op_b w_session w_ti 2); vm_compute; [done..|by split]. Defined.

Lemma cleared_task_attempts_witness :
  ∃ ti', clear_ti (Some Sample.diamond) (TI.set_tries 4 1 w_ti) = Ok ti' ∧ TI.state ti' = None ∧
  TI.state (Nat.iter 1 (failing_attempt Sample.op_b w_session) ti') = Some UP_FOR_RETRY.
Proof.
  eexists. split; [vm_compute; reflexivity|].
  eapply (cleared_task_attempts Sample.diamond (TI.set_tries 4 1 w_ti) _ Sample.op_b w_session 1).
  - apply (bool_decide_unpack _). vm_compute. done.
  - vm_compute. reflexivity.
  - vm_compute. reflexivity.
  - vm_compute. done.
  - vm_compute. by split.
Defined.

Lemma retry_backoff_bounds_witness :
  ∃ d, retry_delay_of 7 w_exp w_ti = Ok d ∧ 0 < min_backoff (retry_delay w_exp) (try_number w_ti) ∧
    (max_retry_delay w_exp = None →
       Z.min (min_backoff (retry_delay w_exp) (try_number w_ti)) timedelta_max_seconds * 1000000 ≤ d ≤
       Z.min (2 * min_backoff (retry_delay w_exp) (try_number w_ti) - 1) timedelta_max_seconds * 1000000) ∧
    (∀ mx, max_retry_delay w_exp = Some mx → mx ≠ 0 → d ≤ mx).
Proof. apply (retry_backoff_bounds 7 w_exp w_ti); vm_compute; done. Defined.

Lemma zero_retry_delay_raises_witness : next_retry_datetime 7 w_zero w_ti = Err ZeroDivisionError.
Proof. apply (zero_retry_delay_raises 7 w_zero w_ti); reflexivity. Defined.

Lemma is_premature_spec_witness :
  let ti := TI.set_dates None (Some 4000) None (TI.set_state (Some UP_FOR_RETRY) w_ti) in
  true = true ↔ TI.state ti = Some UP_FOR_RETRY ∧
             ∃ d, next_retry_datetime 0 Sample.op_b ti = Ok d ∧ utcnow w_session ≤ d.
Proof.
  intros ti. apply (is_premature_spec 0 Sample.op_b ti w_session true). vm_compute. reflexivity.
Defined.

Lemma clear_task_instances_correct_witness :
  ∃ s', clear_task_instances [w_ti] None (Some Sample.diamond) (Some DR_QUEUED) w_session = Ok s' ∧
    (∀ k, k ∉ (TI.primary <$> [w_ti]) → find_ti k s' = find_ti k w_session).
Proof.
  eexists. split; [vm_compute; reflexivity|].
  eapply (clear_task_instances_correct [w_ti] None (Some Sample.diamond) (Some DR_QUEUED) w_session).
  - apply NoDup_singleton.
  - vm_compute. reflexivity.
Defined.

Lemma clear_deletes_reschedules_witness :
  ∃ s', clear_task_instances [w_ti] None (Some Sample.diamond) (Some DR_QUEUED) w_session = Ok s' ∧
    ∀ r, r ∈ task_reschedule s' ↔ r ∈ task_reschedule w_session ∧
      ¬ ∃ ti ti', ti ∈ [w_ti] ∧ clear_ti (Some Sample.diamond) ti = Ok ti' ∧ reschedule_of ti' r = true.
Proof.
  eexists. split; [vm_compute; reflexivity|]. intros r.
  eapply (clear_deletes_reschedules [w_ti] None (Some Sample.diamond) (Some DR_QUEUED) w_session).
  - done.
  - vm_compute. reflexivity.
Defined.

Lemma reschedule_round_trip_witness :
  let '(ti', s') := handle_reschedule 1000 9000 false (begin_attempt w_ti) w_session in
  TI.state ti' = Some UP_FOR_RESCHEDULE ∧
  try_number ti' = try_number (begin_attempt w_ti) ∧
  TR.reschedule_date <$> head (query_for_task_instance ti' true s') = Some 9000 ∧
  TI._try_number (begin_attempt ti') = TI._try_number (begin_attempt w_ti).
Proof. apply (reschedule_round_trip 1000 9000 (begin_attempt w_ti) w_session). reflexivity. Defined.
End Witnesses.
