(* ===== verification/DagClear.v ===== *)
(** * DagClear: subsets of a DAG and clearing

    [DAG.partial_subset], [DAG._get_task_instances], [DAG.clear], [DAG.clear_dags]
    and [DAG.set_dag_runs_state] ([models/dag.py]) and [BaseOperator.clear]
    ([models/baseoperator.py]).

    The DAGs have no [SubDagOperator], so [self.subdags] is empty and no DAG has a
    parent DAG.  What [render_templates] makes of an [ExternalTaskMarker] is the
    parameter [marker]. *)

From S2P Require Import Prelude State Model Sample Graph DagRunQuery TaskInstance.

Module DagClear.
Local Open Scope Z_scope.

(** ** [DAG.partial_subset] *)

(** A dictionary comprehension keyed by the task id: the first position and the
    last value of each key. *)
Fixpoint dedup_tasks (seen : list string) (l : list BaseOperator) : list BaseOperator :=
  match l with
  | [] => []
  | t :: l => if task_id t ∈? seen then dedup_tasks seen l else t :: dedup_tasks (task_id t :: seen) l
  end.

Definition concatM {A B} (f : A → result (list B)) (l : list A) : result (list B) :=
  foldM (λ acc x, r ← f x; Ok (acc ++ r)) l [].

(** The relatives that the flags include for one matched task. *)
Definition also_include (dag : DAG) (include_downstream include_upstream include_direct_upstream : bool)
    (t : BaseOperator) : result (list BaseOperator) :=
  d ← (if include_downstream then Graph.get_flat_relatives dag t false else Ok []);
  u ← (if include_upstream then Graph.get_flat_relatives dag t true
       else if include_direct_upstream then upstream_list dag t else Ok []);
  Ok (d ++ u).

Definition restrict_relatives (ids : list string) (t : BaseOperator) : BaseOperator :=
  {| task_id := task_id t; task_type := task_type t; retries := retries t; retry_delay := retry_delay t;
     retry_exponential_backoff := retry_exponential_backoff t; max_retry_delay := max_retry_delay t;
     op_start_date := op_start_date t; op_end_date := op_end_date t; depends_on_past := depends_on_past t;
     wait_for_downstream := wait_for_downstream t; trigger_rule := trigger_rule t;
     op_priority_weight := op_priority_weight t; weight_rule := weight_rule t; op_queue := op_queue t;
     op_pool := op_pool t; op_pool_slots := op_pool_slots t; task_concurrency := task_concurrency t;
     on_execute_callback := on_execute_callback t; on_success_callback := on_success_callback t;
     inherits_from_dummy_operator := inherits_from_dummy_operator t; is_SkipMixin := is_SkipMixin t;
     op_executor_config := op_executor_config t; deps := deps t;
     upstream_task_ids := List.filter (λ x, x ∈? ids) (upstream_task_ids t);
     downstream_task_ids := List.filter (λ x, x ∈? ids) (downstream_task_ids t) |}.

Definition with_tasks (tasks : list BaseOperator) (partial' : bool) (g : DAG) : DAG :=
  {| dag_id := dag_id g; task_dict := tasks; schedule_interval := schedule_interval g;
     dag_start_date := dag_start_date g; dag_end_date := dag_end_date g; catchup := catchup g;
     max_active_tasks := max_active_tasks g; max_active_runs := max_active_runs g; partial := partial';
     fileloc := fileloc g; has_on_success_callback := has_on_success_callback g;
     has_on_failure_callback := has_on_failure_callback g; dagrun_timeout := dagrun_timeout g |}.

(** [matches] is [re.findall(regex, task_id)] or [task_id in task_ids]. *)
Definition partial_subset (dag : DAG) (matches : string → bool)
    (include_downstream include_upstream include_direct_upstream : bool) : result DAG :=
  let matched_tasks := List.filter (λ t, matches (task_id t)) (task_dict dag) in
  also ← concatM (also_include dag include_downstream include_upstream include_direct_upstream) matched_tasks;
  let kept := dedup_tasks [] (matched_tasks ++ also) in
  let tasks := restrict_relatives (task_id <$> kept) <$> kept in
  Ok (with_tasks tasks
        (if (length tasks <? length (task_dict dag))%nat then true else partial dag) dag).

(** ** [DAG._get_task_instances] *)

(** The arguments that the recursive calls pass on. *)
Record TiQuery := {
  q_task_ids : option (list string);
  q_start_date : option datetime;
  q_end_date : option datetime;
  q_state : list (option TaskInstanceState);
}.

(** [if task_ids: ... in_(task_ids)]; an empty list is falsy. *)
Definition in_task_ids (ids : option (list string)) (tid : string) : bool :=
  match ids with Some (_ :: _ as l) => tid ∈? l | _ => true end.

Definition in_states (states : list (option TaskInstanceState)) (st : option TaskInstanceState) : bool :=
  match states with
  | [] => true
  | [x] => match x, st with Some a, Some b => a ≟ b | None, None => true | _, _ => false end
  | _ => st ∈? states
  end.

(** The filter of the query; [allow_future] is [settings.ALLOW_FUTURE_EXEC_DATES]. *)
Definition tis_filter (allow_future : bool) (now : datetime) (dag : DAG) (q : TiQuery) (t : TaskInstance) : bool :=
  (TI.dag_id t ≟ dag_id dag) && (TI.task_id t ∈? task_ids dag) &&
  match q_start_date q with Some d => d <=? TI.execution_date t | None => true end &&
  in_task_ids (q_task_ids q) (TI.task_id t) &&
  match q_end_date q with
  | Some d => TI.execution_date t <=? d
  | None => (allow_future && (match schedule_interval dag with None => true | Some _ => false end)) ||
            (TI.execution_date t <=? now)
  end &&
  in_states (q_state q) (TI.state t).

Definition PrimaryKey : Type := string * string * datetime.

(** What the templates of an [ExternalTaskMarker] render to: the external DAG,
    task and execution date, with its recursion depth. *)
Record Marker := {
  external_dag_id : string;
  external_task_id : string;
  external_execution_date : datetime;
  recursion_depth : Z;
}.

Definition ExternalTaskMarker : string := "ExternalTaskMarker".

Section Query.
Context (allow_future : bool) (marker : DAG → TaskInstance → Marker) (dag_bag : string → option DAG).

(** The keys that the markers among [dag]'s task instances lead to, with the set
    of visited markers that all calls share.  The fuel bounds the nesting. *)
Fixpoint external_keys (fuel : nat) (dag : DAG) (q : TiQuery) (exclude : list string) (depth : Z)
    (max_depth : option Z) (visited : list PrimaryKey) (s : Session)
    : result (list PrimaryKey * list PrimaryKey) :=
  match fuel with
  | O => Err OutOfFuel
  | S fuel =>
      st ← foldM (λ st ti,
        let '(keys, visited, max_depth) := st in
        if TI.primary ti ∈? visited then Ok st
        else
          let visited := visited ++ [TI.primary ti] in
          _ ← get_task dag (TI.task_id ti);
          let mk := marker dag ti in
          let max_depth := default (recursion_depth mk) max_depth in
          if max_depth <? depth + 1 then Err AirflowException
          else
            r ← foldM (λ st tii,
              let '(keys, visited) := st in
              match dag_bag (TI.dag_id tii) with
              | None => Err AirflowException
              | Some external_dag =>
                  downstream ← partial_subset external_dag (λ x, x ≟ TI.task_id tii) true false false;
                  r ← (let q' := {| q_task_ids := None; q_start_date := Some (TI.execution_date tii);
                                    q_end_date := Some (TI.execution_date tii); q_state := q_state q |} in
                       '(nested, visited) ← external_keys fuel downstream q' exclude (depth + 1)
                                              (Some max_depth) visited s;
                       Ok (List.filter (λ k, negb (k.1.2 ∈? exclude))
                             (nested ++ (TI.primary <$>
                                List.filter (tis_filter allow_future (utcnow s) downstream q') (task_instance s))),
                           visited));
                  Ok (keys ++ r.1, r.2)
              end)
              (List.filter (λ t, (TI.dag_id t ≟ external_dag_id mk) && (TI.task_id t ≟ external_task_id mk) &&
                                 (TI.execution_date t ≟ external_execution_date mk)) (task_instance s))
              (keys, visited);
            Ok (r.1, r.2, Some max_depth))
        (List.filter (λ t, tis_filter allow_future (utcnow s) dag q t && (TI.operator t ≟ ExternalTaskMarker))
           (task_instance s))
        ([], visited, max_depth);
      Ok (st.1.1, st.1.2)
  end.

(** The query with [as_pk_tuple] false; [fuel] is one more than there are rows. *)
Definition _get_task_instances (dag : DAG) (q : TiQuery) (include_dependent_dags : bool)
    (exclude_task_ids : list string) (s : Session) : result (list TaskInstance) :=
  let tis := List.filter (tis_filter allow_future (utcnow s) dag q) (task_instance s) in
  ext ← (if include_dependent_dags
         then external_keys (S (length (task_instance s))) dag q exclude_task_ids 0 None [] s
         else Ok ([], []));
  Ok match ext.1 with
     | [] => List.filter (λ t, negb (TI.task_id t ∈? exclude_task_ids)) tis
     | keys => let result := List.filter (λ k, negb (k.1.2 ∈? exclude_task_ids)) (keys ++ (TI.primary <$> tis)) in
               List.filter (λ t, TI.primary t ∈? result) (task_instance s)
     end.

(** ** [DAG.clear] *)

Definition clear_states (only_failed only_running : bool) : list (option TaskInstanceState) :=
  (if only_failed then [Some FAILED; Some UPSTREAM_FAILED] else []) ++
  (if only_running then [Some RUNNING] else []).

(** [confirmed] is what [confirm_prompt] and the answer to it amount to.  The
    result is the number of task instances cleared. *)
Definition dag_clear (dag : DAG) (q : TiQuery) (include_dependent_dags : bool)
    (dag_run_state : option DagRunState) (confirmed : bool) (exclude_task_ids : list string) (s : Session)
    : result (Z * Session) :=
  tis ← _get_task_instances dag q include_dependent_dags exclude_task_ids s;
  match tis with
  | [] => Ok (0, s)
  | _ =>
      if confirmed then
        s ← TaskInstance.clear_task_instances tis None (Some dag) dag_run_state s;
        Ok (Z.of_nat (length tis), s)
      else Ok (0, s)
  end.

(** [DAG.clear_dags]; the second round uses the default [include_parentdag]. *)
Definition clear_dags (dags : list DAG) (q : TiQuery) (include_dependent_dags : bool)
    (dag_run_state : option DagRunState) (confirmed : bool) (s : Session) : result (Z * Session) :=
  all_tis ← concatM (λ dag, _get_task_instances dag q include_dependent_dags [] s) dags;
  match all_tis with
  | [] => Ok (0, s)
  | _ =>
      if confirmed then
        s ← foldM (λ s dag, r ← dag_clear dag q include_dependent_dags dag_run_state true [] s; Ok r.2) dags s;
        Ok (Z.of_nat (length all_tis), s)
      else Ok (0, s)
  end.
End Query.

(** [BaseOperator.clear]; the dag run state is the default of
    [clear_task_instances]. *)
Definition operator_clear (dag : DAG) (task : BaseOperator) (start_date end_date : option datetime)
    (upstream downstream : bool) (s : Session) : result (Z * Session) :=
  up ← (if upstream then Graph.get_flat_relatives dag task true else Ok []);
  down ← (if downstream then Graph.get_flat_relatives dag task false else Ok []);
  let tasks := task_id task :: (task_id <$> up) ++ (task_id <$> down) in
  let results := List.filter (λ t,
    (TI.dag_id t ≟ dag_id dag) &&
    match start_date with Some d => d <=? TI.execution_date t | None => true end &&
    match end_date with Some d => TI.execution_date t <=? d | None => true end &&
    (TI.task_id t ∈? tasks)) (task_instance s) in
  s ← TaskInstance.clear_task_instances results None (Some dag) (Some DR_QUEUED) s;
  Ok (Z.of_nat (length results), s).

(** [DAG.set_dag_runs_state]: the bulk update stores the state; the setter is
    not called. *)
Definition set_raw_state (st : DagRunState) (dr : DagRun) : DagRun :=
  {| DR.dag_id := DR.dag_id dr; DR.queued_at := DR.queued_at dr; DR.execution_date := DR.execution_date dr;
     DR.start_date := DR.start_date dr; DR.end_date := DR.end_date dr; DR._state := st; DR.run_id := DR.run_id dr;
     DR.external_trigger := DR.external_trigger dr; DR.run_type := DR.run_type dr;
     DR.last_scheduling_decision := DR.last_scheduling_decision dr; DR.dag_hash := DR.dag_hash dr |}.

Definition set_dag_runs_state (dag : DAG) (state : DagRunState) (start_date end_date : option datetime)
    (dag_ids : list string) (s : Session) : Session :=
  let dag_ids := match dag_ids with [] => [dag_id dag] | l => l end in
  with_dag_run (update_where (λ dr, (DR.dag_id dr ∈? dag_ids) &&
      match start_date with Some d => d <=? DR.execution_date dr | None => true end &&
      match end_date with Some d => DR.execution_date dr <=? d | None => true end)
    (set_raw_state state) (dag_run s)) s.
End DagClear.
Import Graph TaskInstance DagClear.

(** ** Subsets *)

Lemma concatM_spec {A B} (f : A → result (list B)) (P : A → B → Prop) l :
  (∀ x, x ∈ l → ∃ r, f x = Ok r ∧ ∀ y, y ∈ r ↔ P x y) →
  ∃ r, concatM f l = Ok r ∧ ∀ y, y ∈ r ↔ ∃ x, x ∈ l ∧ P x y.
Proof.
  intros Hf. unfold concatM. assert (∀ acc, ∃ r, foldM (λ acc x, r ← f x; Ok (acc ++ r)) l acc = Ok (acc ++ r) ∧
    ∀ y, y ∈ r ↔ ∃ x, x ∈ l ∧ P x y) as HH; [|apply (HH [])].
  induction l as [|x l IH]; intros acc.
  { exists []. rewrite app_nil_r. split; [done|]. set_solver. }
  destruct (Hf x) as (r1 & E1 & H1); [left|]. cbn [foldM]. rewrite E1. cbn [mbind result_bind].
  destruct (IH (λ y Hy, Hf y (list_elem_of_further _ _ _ Hy)) (acc ++ r1)) as (r2 & E2 & H2).
  exists (r1 ++ r2). rewrite E2, app_assoc. split; [done|]. intros y. rewrite elem_of_app, H1, H2. set_solver.
Qed.

Section SubsetFacts.
Context (dag : DAG) (Hwf : graph_wf dag).

Lemma get_flat_relatives_spec t up :
  t ∈ task_dict dag → ∃ l, get_flat_relatives dag t up = Ok l ∧
    ∀ u, u ∈ l ↔ u ∈ task_dict dag ∧ relative_of dag up t (task_id u).
Proof.
  intros Ht. destruct (flat_relative_ids_total dag Hwf up (S (length (task_dict dag))) t [])
    as (ids & Hids & Hsub); [|constructor|set_solver|simpl; lia|].
  { intros x Hx. by eapply wf_closed. }
  pose proof (found_post_closed dag Hwf up t ids (flat_relative_ids_post dag Hwf up _ _ _ _ Hids)) as Hiff.
  unfold get_flat_relatives, get_flat_relative_ids. rewrite Hids. cbn [mbind result_bind].
  assert (∀ acc, ids ⊆ task_ids dag → ∃ l,
    foldM (λ acc tid, r ← task_dict_get dag tid; Ok (acc ++ [r])) ids acc = Ok (acc ++ l) ∧
    ∀ u, u ∈ l ↔ u ∈ task_dict dag ∧ task_id u ∈ ids) as HH.
  { clear Hids Hiff Hsub Ht t. induction ids as [|x ids IH]; intros acc Hs.
    - exists []. rewrite app_nil_r. split; [done|]. intros u. split; [by intros ?%elem_of_nil|by intros [_ ?%elem_of_nil]].
    - destruct (task_ids_lookup dag Hwf x) as [v Hv]; [set_solver|].
      cbn [foldM]. assert (task_dict_get dag x = Ok v) as -> by (unfold task_dict_get; by rewrite Hv).
      cbn [mbind result_bind].
      destruct (IH (acc ++ [v])) as (l & Hl & Hm); [set_solver|]. exists (v :: l).
      rewrite Hl, <-app_assoc. split; [done|]. apply lookup_task_Some in Hv as [Hvd Hvi].
      intros u. rewrite !elem_of_cons, Hm. split.
      + intros [->|[? ?]]; [split; [done|by left]|auto].
      + intros [Hu [E|?]]; [left|auto].
        pose proof (lookup_task_elem dag Hwf u Hu). pose proof (lookup_task_elem dag Hwf v Hvd). congruence. }
  destruct (HH [] Hsub) as (l & Hl & Hm). exists l. split; [done|]. intros u. by rewrite Hm, Hiff.
Qed.

Lemma upstream_list_spec t :
  t ∈ task_dict dag → ∃ l, upstream_list dag t = Ok l ∧
    ∀ u, u ∈ l ↔ u ∈ task_dict dag ∧ task_id u ∈ upstream_task_ids t.
Proof.
  intros Ht. unfold upstream_list.
  assert (upstream_task_ids t ⊆ task_ids dag) as Hs by (intros x Hx; by eapply (wf_closed dag Hwf t true)).
  revert Hs. generalize (upstream_task_ids t) as ids. induction ids as [|x ids IH]; intros Hs.
  { exists []. split; [done|]. intros u. split; [by intros ?%elem_of_nil|by intros [_ ?%elem_of_nil]]. }
  destruct (task_ids_lookup dag Hwf x) as [v Hv]; [set_solver|].
  destruct IH as (l & Hl & Hm); [set_solver|]. exists (v :: l). cbn [get_tasks]. unfold get_task. rewrite Hv.
  cbn [mbind result_bind]. rewrite Hl. split; [done|]. apply lookup_task_Some in Hv as [Hvd Hvi].
  intros u. rewrite !elem_of_cons, Hm. split.
  - intros [->|[? ?]]; [split; [done|by left]|auto].
  - intros [Hu [E|?]]; [left|auto].
    pose proof (lookup_task_elem dag Hwf u Hu). pose proof (lookup_task_elem dag Hwf v Hvd). congruence.
Qed.

(** The tasks that the flags add for a matched task. *)
Definition included (down up direct : bool) (m u : BaseOperator) : Prop :=
  (down = true ∧ relative_of dag false m (task_id u)) ∨
  (up = true ∧ relative_of dag true m (task_id u)) ∨
  (up = false ∧ direct = true ∧ task_id u ∈ upstream_task_ids m).

Lemma also_include_spec down up direct t :
  t ∈ task_dict dag → ∃ l, also_include dag down up direct t = Ok l ∧
    ∀ u, u ∈ l ↔ u ∈ task_dict dag ∧ included down up direct t u.
Proof.
  intros Ht. unfold also_include.
  assert (∃ l, (if down then get_flat_relatives dag t false else Ok []) = Ok l ∧
    ∀ u, u ∈ l ↔ u ∈ task_dict dag ∧ down = true ∧ relative_of dag false t (task_id u)) as (l1 & -> & H1).
  { destruct down; [|exists []; split; [done|]; set_solver].
    destruct (get_flat_relatives_spec t false Ht) as (l & ? & H). exists l. split; [done|]. naive_solver. }
  assert (∃ l, (if up then get_flat_relatives dag t true
                else if direct then upstream_list dag t else Ok []) = Ok l ∧
    ∀ u, u ∈ l ↔ u ∈ task_dict dag ∧ ((up = true ∧ relative_of dag true t (task_id u)) ∨
      (up = false ∧ direct = true ∧ task_id u ∈ upstream_task_ids t))) as (l2 & -> & H2).
  { destruct up; [|destruct direct].
    - destruct (get_flat_relatives_spec t true Ht) as (l & ? & H). exists l. split; [done|]. naive_solver.
    - destruct (upstream_list_spec t Ht) as (l & ? & H). exists l. split; [done|]. naive_solver.
    - exists []. split; [done|]. set_solver. }
  exists (l1 ++ l2). split; [done|]. intros u. rewrite elem_of_app, H1, H2. unfold included. tauto.
Qed.

Lemma dedup_tasks_spec seen l :
  l ⊆ task_dict dag →
  NoDup (task_id <$> dedup_tasks seen l) ∧
  ∀ u, u ∈ dedup_tasks seen l ↔ u ∈ l ∧ task_id u ∉ seen.
Proof.
  revert seen. induction l as [|t l IH]; intros seen Hs; [split; [constructor|set_solver]|].
  cbn [dedup_tasks]. case_bool_decide as E.
  - destruct (IH seen) as [N M]; [set_solver|]. split; [done|]. intros u. rewrite M, elem_of_cons. naive_solver.
  - destruct (IH (task_id t :: seen)) as [N M]; [set_solver|]. split.
    + rewrite fmap_cons. apply NoDup_cons. split; [|done].
      intros (u & Hu & [_ Hn]%M)%list_elem_of_fmap. apply Hn. rewrite <-Hu. left.
    + intros u. rewrite !elem_of_cons, M, not_elem_of_cons. split.
      * intros [->|(? & ? & ?)]; [split; [by left|done]|by auto].
      * intros [[->|Hu] Hn]; [by left|]. destruct (decide (task_id u = task_id t)) as [Ei|]; [left|right; auto].
        assert (u ∈ task_dict dag) as Hud by set_solver. assert (t ∈ task_dict dag) as Htd by set_solver.
        pose proof (lookup_task_elem dag Hwf u Hud). pose proof (lookup_task_elem dag Hwf t Htd). congruence.
Qed.

(** Restricting the relatives to the tasks that are kept. *)
Lemma restricted_wf kept p :
  kept ⊆ task_dict dag → NoDup (task_id <$> kept) →
  let sub := with_tasks (restrict_relatives (task_id <$> kept) <$> kept) p dag in
  task_ids sub = (task_id <$> kept) ∧ graph_wf sub ∧
  ∀ b x y, edge sub b x y ↔ edge dag b x y ∧ x ∈ task_ids sub ∧ y ∈ task_ids sub.
Proof.
  intros Hs Hn sub.
  assert (task_ids sub = task_id <$> kept) as Hids.
  { unfold sub, task_ids. cbn. rewrite <-list_fmap_compose. by apply list_fmap_ext. }
  assert (∀ u, u ∈ task_dict sub ↔ ∃ t, t ∈ kept ∧ u = restrict_relatives (task_id <$> kept) t) as Hu.
  { intros u. unfold sub. cbn. rewrite list_elem_of_fmap. naive_solver. }
  assert (∀ t b x, x ∈ get_direct_relative_ids (restrict_relatives (task_id <$> kept) t) b ↔
    x ∈ get_direct_relative_ids t b ∧ x ∈ (task_id <$> kept)) as Hr.
  { intros t [] x; cbn; rewrite elem_of_filterb, bool_decide_eq_true; tauto. }
  assert (graph_wf sub) as Hsub.
  { split.
    - by rewrite Hids.
    - intros u b x (t & Ht & ->)%Hu [_ Hx]%Hr. by rewrite Hids.
    - intros u v (t & Ht & ->)%Hu (w & Hw & ->)%Hu.
      pose proof (Hr t true (task_id w)) as R1. pose proof (Hr w false (task_id t)) as R2.
      cbn [get_direct_relative_ids] in R1, R2. cbn [task_id restrict_relatives].
      rewrite R1, R2. rewrite (wf_symmetric dag Hwf t w) by set_solver.
      rewrite !list_elem_of_fmap. naive_solver. }
  split_and!; [done|done|]. intros b x y. unfold edge. split.
  - intros (u & [Hin <-]%lookup_task_Some & Hy). apply Hu in Hin as (t & Ht & ->). apply Hr in Hy as [Hy Hk].
    rewrite Hids. cbn. split_and!; [|apply list_elem_of_fmap; eauto|done].
    exists t. split; [apply lookup_task_elem; set_solver|done].
  - intros ((t & [Hin <-]%lookup_task_Some & Hy) & Hx & Hy'). rewrite Hids in Hx, Hy'.
    apply list_elem_of_fmap in Hx as (t' & Ei & Ht').
    assert (t = t') as <-.
    { pose proof (lookup_task_elem dag Hwf t Hin). pose proof (lookup_task_elem dag Hwf t' (Hs _ Ht')). congruence. }
    exists (restrict_relatives (task_id <$> kept) t). split; [|by apply Hr].
    apply (lookup_task_elem sub Hsub (restrict_relatives (task_id <$> kept) t)). apply Hu. eauto.
Qed.

Lemma partial_subset_spec matches down up direct :
  ∃ sub, partial_subset dag matches down up direct = Ok sub ∧ graph_wf sub ∧
  (∀ x, x ∈ task_ids sub ↔ ∃ u, u ∈ task_dict dag ∧ task_id u = x ∧
     (matches x = true ∨ ∃ m, m ∈ task_dict dag ∧ matches (task_id m) = true ∧ included down up direct m u)) ∧
  (∀ b x y, edge sub b x y ↔ edge dag b x y ∧ x ∈ task_ids sub ∧ y ∈ task_ids sub) ∧
  (partial sub = true ↔ partial dag = true ∨ ∃ x, x ∈ task_ids dag ∧ x ∉ task_ids sub).
Proof.
  unfold partial_subset. set (ms := List.filter _ _).
  assert (∀ m, m ∈ ms ↔ m ∈ task_dict dag ∧ matches (task_id m) = true) as Hms.
  { intros m. unfold ms. rewrite elem_of_filterb. tauto. }
  destruct (concatM_spec (also_include dag down up direct)
    (λ t u, u ∈ task_dict dag ∧ included down up direct t u) ms) as (also & Ha & Hm).
  { intros t [Ht _]%Hms. by apply also_include_spec. }
  rewrite Ha. cbn [mbind result_bind]. set (kept := dedup_tasks [] (ms ++ also)).
  assert (ms ++ also ⊆ task_dict dag) as Hall.
  { intros u [[? _]%Hms|(? & _ & ? & _)%Hm]%elem_of_app; done. }
  destruct (dedup_tasks_spec [] (ms ++ also) Hall) as [Hn Hk]. fold kept in Hn, Hk.
  assert (kept ⊆ task_dict dag) as Hs by (intros u [Hu _]%Hk; by apply Hall).
  set (p := if (_ <? _)%nat then true else partial dag).
  destruct (restricted_wf kept p Hs Hn) as (Hids & Hsub & Hedge).
  eexists. split; [done|]. split; [exact Hsub|]. split_and!.
  - intros x. rewrite Hids, list_elem_of_fmap. setoid_rewrite Hk. setoid_rewrite elem_of_app.
    setoid_rewrite Hms. setoid_rewrite Hm. setoid_rewrite Hms. split.
    + intros (u & -> & [[Hu Hmt]|(m & [Hmd Hmm] & Hu & Hi)] & _); exists u; (split_and!; [done|done|]); [by left|].
      right. eauto.
    + intros (u & Hu & <- & [Hmt|(m & Hmd & Hmm & Hi)]); exists u; (split; [done|]); (split; [|set_solver]); [by left; auto|].
      right. exists m. auto.
  - exact Hedge.
  - rewrite Hids. cbn [partial with_tasks]. unfold p. clear p Hids Hsub Hedge. rewrite length_fmap.
    assert (length (task_dict dag) = length (task_ids dag)) as El by (unfold task_ids; by rewrite length_fmap).
    assert (length kept = length (task_id <$> kept)) as Ek by (by rewrite length_fmap).
    assert (task_id <$> kept ⊆ task_ids dag) as Hsi.
    { intros x (u & -> & Hu)%list_elem_of_fmap. apply list_elem_of_fmap. eauto. }
    destruct (Nat.ltb_spec (length kept) (length (task_dict dag))) as [Hlt|Hge].
    + split; [intros _|done]. right. rewrite El, Ek in Hlt.
      destruct (decide (Forall (λ x, x ∈ task_id <$> kept) (task_ids dag))) as [Hc|Hc].
      * rewrite Forall_forall in Hc. assert (task_ids dag ⊆ task_id <$> kept) as Hc' by exact Hc.
        apply NoDup_subseteq_length in Hc'; [lia|apply (wf_ids dag Hwf)].
      * apply not_Forall_Exists in Hc; [|intros ?; apply _]. apply Exists_exists in Hc as (x & ? & ?). eauto.
    + split; [by left|]. intros [?|(x & Hx & Hnx)]; [done|]. exfalso. apply Hnx.
      assert (task_id <$> kept ≡ₚ task_ids dag) as ->; [|done].
      apply submseteq_length_Permutation; [by apply NoDup_submseteq|lia].
Qed.
End SubsetFacts.

(** ** Following external task markers *)

Section ExternalFacts.
Local Open Scope Z_scope.
Context (allow_future : bool) (marker : DAG → TaskInstance → Marker) (dag_bag : string → option DAG)
        (s : Session) (Hbag : ∀ x d, dag_bag x = Some d → graph_wf d).

Definition row_keys : list PrimaryKey := TI.primary <$> task_instance s.

(** The visited markers: no repetition, all of them rows, [v0] among them. *)
Definition visited_ok (v0 v : list PrimaryKey) : Prop :=
  NoDup v ∧ v ⊆ row_keys ∧ v0 ⊆ v.

Lemma visited_length v0 v : visited_ok v0 v → (length v ≤ length (task_instance s))%nat.
Proof.
  intros (Hn & Hs & _). unfold row_keys in Hs. rewrite <-(length_fmap TI.primary (task_instance s)).
  apply submseteq_length, NoDup_submseteq; [done|exact Hs].
Qed.

Lemma external_keys_outcome fuel dag q exclude depth max_depth visited :
  graph_wf dag → visited_ok visited visited → (length (task_instance s) < fuel + length visited)%nat →
  outcome (λ r : list PrimaryKey * list PrimaryKey, visited_ok visited r.2) (λ e, e = AirflowException)
    (external_keys allow_future marker dag_bag fuel dag q exclude depth max_depth visited s).
Proof.
  revert dag q depth max_depth visited. induction fuel as [|fuel IH]; intros dag q depth max_depth visited Hwf Hv Hlen.
  { pose proof (visited_length _ _ Hv). lia. }
  cbn [external_keys]. eapply outcome_bind; [|intros st Hst; exact Hst].
  apply (foldM_outcome (λ st : list PrimaryKey * list PrimaryKey * option Z, visited_ok visited st.1.2)); [|exact Hv].
  intros ti [[keys v] md] Hti Hvis. cbn in Hvis. case_bool_decide as Hseen; [done|].
  apply elem_of_filterb in Hti as [Hf Hrow]. apply andb_true_iff in Hf as [Hf _].
  destruct (get_task dag (TI.task_id ti)) as [task|e] eqn:Et.
  2: { exfalso. unfold get_task in Et. unfold tis_filter in Hf. bool_to_prop.
       destruct (task_ids_lookup dag Hwf (TI.task_id ti)) as [u Hu]; [done|]. by rewrite Hu in Et. }
  cbn [mbind result_bind]. cbv zeta. destruct (_ <? _); [done|].
  assert (visited_ok visited (v ++ [TI.primary ti])) as Hv1.
  { destruct Hvis as (Hn & Hs & Hi). split_and!.
    - apply NoDup_app. split; [done|]. split; [|apply NoDup_singleton].
      intros x Hx ->%list_elem_of_singleton. done.
    - intros x [?|Hx]%elem_of_app; [by apply Hs|]. apply list_elem_of_singleton in Hx as ->.
      apply list_elem_of_fmap. eauto.
    - set_solver. }
  eapply outcome_bind.
  - apply (foldM_outcome (λ st : list PrimaryKey * list PrimaryKey,
      visited_ok visited st.2 ∧ v ++ [TI.primary ti] ⊆ st.2)); [|by split].
    intros tii [keys1 v1] _ [Hvis1 Hinc]. cbn in Hvis1, Hinc.
    destruct (dag_bag (TI.dag_id tii)) as [ext|] eqn:Eb; [|done].
    destruct (partial_subset_spec ext (Hbag _ _ Eb) (λ x, x ≟ TI.task_id tii) true false false) as (sub & Hsub & Hwfs & _).
    rewrite Hsub. cbn [mbind result_bind].
    assert (visited_ok v1 v1) as Hself by (destruct Hvis1 as (? & ? & ?); by split_and!).
    assert ((length v < length v1)%nat) as Hlt.
    { destruct Hv1 as (Hn1 & _ & _). apply NoDup_submseteq in Hinc; [|done].
      apply submseteq_length in Hinc. rewrite length_app in Hinc. cbn in Hinc. lia. }
    assert ((length visited ≤ length v)%nat) as Hle.
    { destruct Hvis as (_ & _ & Hi), Hv as (Hn & _ & _). by apply submseteq_length, NoDup_submseteq. }
    eapply (outcome_bind (λ r : list PrimaryKey * list PrimaryKey, visited_ok v1 r.2)).
    { eapply outcome_bind; [apply IH; [done|done|lia]|]. intros [nested v2] Hv2. cbn in Hv2 |- *. exact Hv2. }
    intros [k2 v2] Hv2. cbn in Hv2 |- *. destruct Hv2 as (? & ? & Hi2), Hvis1 as (? & ? & ?).
    split; [|set_solver]. split_and!; [done..|set_solver].
  - intros [keys2 v2] [Hv2 _]. exact Hv2.
Qed.

(** The search for the task instances to clear ends, markers that form a
    cycle included: it visits each marker once, and it returns or raises
    [AirflowException] because the recursion is too deep or a DAG is missing.
    Without markers to follow it returns exactly the rows of the query. *)
Theorem get_task_instances_terminates dag q dependent exclude (Hwf : graph_wf dag) :
  outcome (λ rows, ∀ t, t ∈ rows → t ∈ task_instance s ∧ TI.task_id t ∉ exclude)
    (λ e, e = AirflowException)
    (_get_task_instances allow_future marker dag_bag dag q dependent exclude s) ∧
  (dependent = false →
   _get_task_instances allow_future marker dag_bag dag q dependent exclude s =
   Ok (List.filter (λ t, tis_filter allow_future (utcnow s) dag q t && negb (TI.task_id t ∈? exclude))
         (task_instance s))).
Proof.
  split.
  - unfold _get_task_instances. eapply (outcome_bind (λ _, True)).
    + destruct dependent; [|done].
      pose proof (external_keys_outcome (S (length (task_instance s))) dag q exclude 0 None [] Hwf) as H.
      destruct (external_keys _ _ _ _ _ _ _ _ _ _ _); [done|]. apply H; [|cbn; lia].
      split_and!; [constructor|set_solver|set_solver].
    + intros [[|k ks] v] _; cbn -[List.filter].
      * intros t [Hn [_ Ht]%elem_of_filterb]%elem_of_filterb. split; [done|]. by bool_to_prop.
      * intros t [Hk Ht]%elem_of_filterb. split; [done|]. bool_to_prop.
        apply elem_of_filterb in Hk as [Hk _]. by bool_to_prop.
  - intros ->. unfold _get_task_instances. cbn -[List.filter]. by rewrite filter_filterb.
Qed.
End ExternalFacts.

(** ** Clearing *)

Section ClearFacts.
Local Open Scope Z_scope.
Context (dag : DAG) (Hwf : graph_wf dag).

Lemma priority_weight_total_ok t : t ∈ task_dict dag → ∃ w, Graph.priority_weight_total dag t = Ok w.
Proof.
  intros Ht. unfold priority_weight_total.
  assert (∀ up, ∃ ids, get_flat_relative_ids dag t up = Ok ids ∧ ids ⊆ task_ids dag) as Hids.
  { intros up. destruct (flat_relative_ids_total dag Hwf up (S (length (task_dict dag))) t [])
      as (ids & ? & ?); [|constructor|set_solver|simpl; lia|by exists ids]. intros x Hx. by eapply wf_closed. }
  destruct (weight_rule t); [| |by eexists];
    [destruct (Hids false) as (ids & -> & Hs)|destruct (Hids true) as (ids & -> & Hs)];
    cbn [mbind result_bind]; rewrite (sum_weights dag ids _ Hwf Hs); by eexists.
Qed.

Lemma clear_ti_total t : ∃ t', clear_ti (Some dag) t = Ok t'.
Proof.
  unfold clear_ti. case_bool_decide; [destruct (TI.job_id t); by eexists|].
  destruct (has_task dag (TI.task_id t)) eqn:E; [|by eexists].
  apply has_task_lookup in E as [task Hl]. unfold get_task. rewrite Hl. cbn [mbind result_bind].
  apply lookup_task_Some in Hl as [Htd _]. unfold refresh_from_task.
  destruct (priority_weight_total_ok task Htd) as [w ->]. by eexists.
Qed.

Lemma clear_task_instances_total tis act drs s : ∃ s', TaskInstance.clear_task_instances tis act (Some dag) drs s = Ok s'.
Proof.
  unfold TaskInstance.clear_task_instances.
  assert (∀ st, ∃ st', foldM (clear_step (Some dag)) tis st = Ok st') as Hf.
  { induction tis as [|t l IH]; intros st; [by eexists|]. cbn [foldM].
    assert (∃ st1, clear_step (Some dag) st t = Ok st1) as [st1 ->].
    { unfold clear_step. destruct (clear_ti_total t) as [t' ->]. by eexists. }
    cbn [mbind result_bind]. apply IH. }
  destruct (Hf {| job_ids := []; task_id_by_key := ∅; clear_session := s |}) as [st ->]. by eexists.
Qed.
End ClearFacts.

(** [partial_subset] keeps exactly the matched tasks and the relatives that
    the flags ask for, with exactly the edges between kept tasks; the subset is
    well formed, is marked partial when a task is left out, and has no cycle
    that the DAG did not have. *)
Theorem partial_subset_correct dag matches down up direct (Hwf : graph_wf dag) :
  ∃ sub, partial_subset dag matches down up direct = Ok sub ∧ graph_wf sub ∧
  (∀ x, x ∈ task_ids sub ↔ ∃ u, u ∈ task_dict dag ∧ task_id u = x ∧
     (matches x = true ∨ ∃ m, m ∈ task_dict dag ∧ matches (task_id m) = true ∧ included dag down up direct m u)) ∧
  (∀ b x y, edge sub b x y ↔ edge dag b x y ∧ x ∈ task_ids sub ∧ y ∈ task_ids sub) ∧
  (acyclic dag → acyclic sub) ∧
  (partial sub = true ↔ partial dag = true ∨ ∃ x, x ∈ task_ids dag ∧ x ∉ task_ids sub).
Proof.
  destruct (partial_subset_spec dag Hwf matches down up direct) as (sub & H1 & H2 & H3 & H4 & H5).
  exists sub. split_and!; [done..| |done]. intros Ha x Hx. apply (Ha x).
  eapply (tc_congruence (λ y, y)); [|exact Hx]. intros a b Hab. by apply H4 in Hab as [? _].
Qed.

(** C40: clearing a well-formed DAG, no sub-DAG, without sub-DAGs and dependent DAGs (with
    dependent DAGs it can raise at the maximum recursion depth, see [get_task_instances_terminates]), with unique
    keys, returns, and clears exactly the task instances that the arguments select
    and do not exclude: those that were not running lose their state, the running
    ones that have a job are restarted; running ones without a job are selected but
    stay as they are.  Every other row stays as it was, and the number returned is
    how many were selected; a declined prompt changes nothing. *)
Theorem dag_clear_correct allow_future marker bag dag q drs confirmed exclude s
  (Hwf : graph_wf dag) (Hk : ti_keys_unique (task_instance s)) :
  let selected t := tis_filter allow_future (utcnow s) dag q t && negb (TI.task_id t ∈? exclude) in
  ∃ n s', dag_clear allow_future marker bag dag q false drs confirmed exclude s = Ok (n, s') ∧
  if confirmed then
    n = countb selected (task_instance s) ∧
    (∀ t, t ∈ task_instance s → selected t = true → ∃ t', find_ti (TI.primary t) s' = Some t' ∧
       (TI.state t ≠ Some RUNNING → TI.state t' = None) ∧
       (TI.state t = Some RUNNING → ∀ j, TI.job_id t = Some j → j ≠ 0%Z → TI.state t' = Some RESTARTING) ∧
       (TI.state t = Some RUNNING → TI.job_id t ∈ [None; Some 0%Z] → t' = t)) ∧
    (∀ t, t ∈ task_instance s → selected t = false → find_ti (TI.primary t) s' = Some t)
  else n = 0%Z ∧ s' = s.
Proof.
  intros selected. unfold dag_clear, _get_task_instances. cbn -[List.filter TaskInstance.clear_task_instances]. rewrite filter_filterb.
  change (λ x, tis_filter allow_future (utcnow s) dag q x && negb (TI.task_id x ∈? exclude)) with selected.
  set (tis := List.filter selected (task_instance s)).
  assert (∀ t, t ∈ tis ↔ t ∈ task_instance s ∧ selected t = true) as Htis.
  { intros t. unfold tis. rewrite elem_of_filterb. tauto. }
  assert (tis = List.filter selected (task_instance s)) as Hdef by done.
  destruct confirmed.
  2: { destruct tis; by eexists _, _. }
  clearbody tis. assert (tis = [] ∨ ∃ t0 l, tis = t0 :: l) as [E|(t0 & l & E)] by (destruct tis; eauto).
  { eexists _, _. split; [by rewrite E|]. split_and!.
    - unfold countb. by rewrite <-Hdef, E.
    - intros t Ht Hs. assert (t ∈ tis) as Hin by (by apply Htis).
      rewrite E in Hin. by apply elem_of_nil in Hin.
    - intros t Ht _. by apply find_ti_unique. }
  destruct (clear_task_instances_total dag Hwf tis None drs s) as [s' Hs'].
  exists (Z.of_nat (length tis)), s'. split.
  { rewrite E in Hs' |- *. by rewrite Hs'. }
  assert (ti_keys_unique tis) as Hkt by (rewrite Hdef; by apply NoDup_fmap_filterb).
  destruct (clear_task_instances_session _ _ _ _ _ _ Hs') as (st & Hf & Hti & _).
  destruct (clear_fold_find _ _ _ _ Hkt Hf) as [H1 H2]. split_and!.
  - by rewrite Hdef.
  - intros t Ht Hsel. destruct (H1 t) as (t' & Hc & Hfind); [by apply Htis|]. exists t'.
    rewrite (find_ti_ext _ _ _ Hti). split; [done|]. destruct (clear_ti_state _ _ _ Hc) as [E1 E2]. split_and!; [done..|].
    intros Hrun Hj. revert Hc. unfold TaskInstance.clear_ti. rewrite Hrun, bool_decide_eq_true_2 by done.
    apply elem_of_cons in Hj as [->|Hj]; [by intros [= ->]|]. apply list_elem_of_singleton in Hj as ->. by intros [= ->].
  - intros t Ht Hsel. rewrite (find_ti_ext _ _ _ Hti), H2; [by apply find_ti_unique|].
    intros (u & Eu & Hu)%list_elem_of_fmap. apply Htis in Hu as [Hu Hsu].
    rewrite (ti_key_inj _ t u Hk Ht Hu Eu) in Hsel. congruence.
Qed.

(** ** Samples *)

Module ClearSample.
Definition q_all : TiQuery := {| q_task_ids := None; q_start_date := None; q_end_date := None; q_state := [] |}.

Definition rows : Session :=
  Sample.mk_session [Sample.mk_ti "diamond" "a" (Some SUCCESS); Sample.mk_ti "diamond" "b" (Some FAILED);
                     Sample.mk_ti "other" "b" (Some FAILED)] [].

Definition no_marker (_ : DAG) (_ : TaskInstance) : Marker :=
  {| external_dag_id := ""; external_task_id := ""; external_execution_date := 0; recursion_depth := 1 |}.

Lemma partial_subset_correct_witness :
  graph_wf Sample.diamond ∧
  ∃ sub, partial_subset Sample.diamond (λ x, x ≟ "b") true false false = Ok sub ∧ task_ids sub = ["b"; "d"] ∧
    partial sub = true ∧ acyclic sub.
Proof.
  split; [exact diamond_wf|].
  destruct (partial_subset_correct Sample.diamond (λ x, x ≟ "b") true false false diamond_wf)
    as (sub & H & _ & _ & _ & Ha & _).
  exists sub. split; [exact H|]. specialize (Ha diamond_acyclic). vm_compute in H. injection H as <-.
  split; [reflexivity|]. split; [reflexivity|exact Ha].
Defined.

Lemma get_task_instances_terminates_witness :
  outcome (λ rows', ∀ t, t ∈ rows' → t ∈ task_instance rows ∧ TI.task_id t ∉ ["a"]) (λ e, e = AirflowException)
    (_get_task_instances false no_marker (λ _, Some Sample.diamond) Sample.diamond q_all true ["a"] rows).
Proof.
  apply (get_task_instances_terminates false no_marker (λ _, Some Sample.diamond) rows).
  - intros x d [= <-]. exact diamond_wf.
  - exact diamond_wf.
Defined.

Lemma dag_clear_correct_witness : ∃ s',
  dag_clear false no_marker (λ _, None) Sample.diamond q_all false (Some DR_QUEUED) true [] rows = Ok (2%Z, s') ∧
  find_ti ("other", "b", 1000%Z) s' = Some (Sample.mk_ti "other" "b" (Some FAILED)).
Proof.
  destruct (dag_clear_correct false no_marker (λ _, None) Sample.diamond q_all (Some DR_QUEUED) true [] rows)
    as (n & s' & H & En & _ & Hother).
  - exact diamond_wf.
  - apply (bool_decide_unpack _). vm_compute. done.
  - exists s'. split; [rewrite H, En; reflexivity|].
    apply (Hother (Sample.mk_ti "other" "b" (Some FAILED))); [right; right; left|reflexivity].
Defined.

(** A running task instance without a job is counted, but not cleared. *)
Example running_without_job :
  let s := Sample.mk_session [Sample.mk_ti "diamond" "a" (Some RUNNING)] [] in
  (λ x : Z * Session, (x.1, task_instance x.2)) <$> dag_clear false no_marker (λ _, None) Sample.diamond q_all false (Some DR_QUEUED) true [] s =
  Ok (1%Z, task_instance s).
Proof. vm_compute. done. Qed.

(** Clearing an external task instance whose task id is also a task of the DAG
    that is cleared refreshes it from that DAG's task. *)
Example external_refreshed_from_own_dag :
  match TaskInstance.clear_task_instances [TI.set_from_task "q" "p" 7 3 0 "" "Other" (Sample.mk_ti "other" "b" (Some FAILED))]
          None (Some Sample.diamond) None rows with
  | Ok s => (λ t, (TI.pool t, TI.pool_slots t, TI.operator t)) <$> find_ti ("other", "b", 1000%Z) s
  | Err _ => None
  end = Some ("default_pool", 1%Z, "BashOperator").
Proof. vm_compute. done. Qed.
End ClearSample.
