(* ===== verification/PoolSlots.v ===== *)
(** * PoolSlots: the slots of a pool

    [Pool.slots_stats] and the per-pool counters of [models/pool.py].  A pool
    of -1 slots is unlimited; the code then computes with [float('inf')], which
    is [Inf] here. *)

From S2P Require Import Prelude State Model Sample.

Inductive Slots := Fin (n : Z) | Inf.

#[export] Instance Slots_eq_dec : EqDecision Slots.
Proof. solve_decision. Defined.

Module PoolSlots.
Local Open Scope Z_scope.

(** Arithmetic and comparisons with [float('inf')]. *)
Definition slots_sub (a : Slots) (n : Z) : Slots :=
  match a with Fin m => Fin (m - n) | Inf => Inf end.
Definition slots_add (a b : Slots) : Slots :=
  match a, b with Fin m, Fin n => Fin (m + n) | _, _ => Inf end.
Definition slots_leb (a : Slots) (n : Z) : bool :=
  match a with Fin m => m <=? n | Inf => false end.

Record PoolStats := { total : Slots; running : Z; queued : Z; open : Slots }.

Definition get_pool (name : string) (s : Session) : option Pool :=
  List.find (λ p, pool_name p ≟ name) (slot_pool s).

Definition DEFAULT_POOL_NAME : string := "default_pool".

Definition get_default_pool (s : Session) : option Pool := get_pool DEFAULT_POOL_NAME s.

(** [SELECT SUM(pool_slots) ... WHERE pool = p AND state IN states], 0 for NULL. *)
Definition slots_in (p : Pool) (states : list (option TaskInstanceState)) (s : Session) : Z :=
  sumb (λ t, (TI.pool t ≟ pool_name p) && (TI.state t ∈? states)) TI.pool_slots (task_instance s).

Definition occupied_slots (p : Pool) (s : Session) : Z := slots_in p EXECUTION_STATES s.

Definition running_slots (p : Pool) (s : Session) : Z := slots_in p [Some RUNNING] s.

Definition queued_slots (p : Pool) (s : Session) : Z := slots_in p [Some QUEUED] s.

Definition open_slots (p : Pool) (s : Session) : Slots :=
  if slots p =? -1 then Inf else Fin (slots p - occupied_slots p s).

(** *** [slots_stats] *)

(** [SELECT pool, state, SUM(pool_slots) ... WHERE state IN EXECUTION_STATES
    GROUP BY pool, state]. *)
Definition state_count_by_pool (s : Session) : list (string * option TaskInstanceState * Z) :=
  let rows := List.filter (λ t, TI.state t ∈? EXECUTION_STATES) (task_instance s) in
  (λ '(p, st), (p, st, sumb (λ t, (TI.pool t ≟ p) && (TI.state t ≟ st)) TI.pool_slots rows))
    <$> remove_dups ((λ t, (TI.pool t, TI.state t)) <$> rows).

(** The loop over the pool rows: the dictionary with nothing counted yet. *)
Definition init_stats (p : Pool) : PoolStats :=
  {| total := if slots p =? -1 then Inf else Fin (slots p);
     running := 0; queued := 0; open := Fin 0 |}.

Definition init_pools (ps : list Pool) : gmap string PoolStats :=
  foldl (λ pools p, <[pool_name p := init_stats p]> pools) ∅ ps.

(** The loop over the counts: [pools.get(pool_name)], and the assignment to the
    dictionary found. *)
Definition count_step (pools : gmap string PoolStats)
    (row : string * option TaskInstanceState * Z) : result (gmap string PoolStats) :=
  let '(name, state, count) := row in
  match pools !! name with
  | None => Ok pools
  | Some st =>
      match state with
      | Some RUNNING => Ok (<[name := {| total := total st; running := count;
                                         queued := queued st; open := open st |}]> pools)
      | Some QUEUED => Ok (<[name := {| total := total st; running := running st;
                                        queued := count; open := open st |}]> pools)
      | _ => Err AirflowException
      end
  end.

(** The loop that computes the [open] metric. *)
Definition open_step (st : PoolStats) : PoolStats :=
  {| total := total st; running := running st; queued := queued st;
     open := if total st ≟ Fin (-1) then Fin (-1)
             else slots_sub (slots_sub (total st) (running st)) (queued st) |}.

Definition slots_stats (s : Session) : result (gmap string PoolStats) :=
  pools ← foldM count_step (state_count_by_pool s) (init_pools (slot_pool s));
  Ok (fmap (M := gmap string) open_step pools).

End PoolSlots.
Import PoolSlots.

(** ** Facts *)

Section PoolFacts.
Local Open Scope Z_scope.
Context (s : Session).

Lemma occupied_split p : occupied_slots p s = running_slots p s + queued_slots p s.
Proof.
  unfold occupied_slots, running_slots, queued_slots, slots_in. rewrite <-sumb_split.
  - apply sumb_ext; [|done]. intros t _. unfold EXECUTION_STATES.
    destruct (TI.pool t ≟ pool_name p); simpl; [|done].
    destruct (TI.state t) as [[]|]; reflexivity.
  - intros t _ H1 H2. bool_to_prop. set_solver.
Qed.

Definition group_sum (name : string) (st : option TaskInstanceState) : Z :=
  sumb (λ t, (TI.pool t ≟ name) && (TI.state t ∈? [st])) TI.pool_slots (task_instance s).

(** A filter that keeps every row of the sum does not change it. *)
Lemma sumb_filter_kept {A} (f g : A → bool) h (l : list A) :
  (∀ x, g x = true → f x = true) → sumb g h (List.filter f l) = sumb g h l.
Proof.
  intros Hfg. rewrite sumb_filter. apply sumb_ext; [|done]. intros x _.
  destruct (g x) eqn:E; [by rewrite (Hfg x E)|by rewrite andb_false_r].
Qed.

Lemma state_count_elem name st c :
  (name, st, c) ∈ state_count_by_pool s → st ∈ EXECUTION_STATES ∧ c = group_sum name st.
Proof.
  unfold state_count_by_pool. intros ([p q] & Heq & Hin)%list_elem_of_fmap.
  simplify_eq. apply elem_of_remove_dups, list_elem_of_fmap in Hin as (t & [= -> ->] & Ht).
  apply elem_of_filterb in Ht as [Hst _]. bool_to_prop. split; [done|].
  rewrite sumb_filter_kept.
  - unfold group_sum. apply sumb_ext; [|done]. intros x _. f_equal.
    apply bool_decide_ext. by rewrite list_elem_of_singleton.
  - intros x Hx. bool_to_prop. apply bool_decide_eq_true. congruence.
Qed.

(** A group without a row contributes nothing. *)
Lemma state_count_missing name st :
  st ∈ EXECUTION_STATES → (∀ c, (name, st, c) ∉ state_count_by_pool s) → group_sum name st = 0.
Proof.
  intros Hst Hno. unfold group_sum. replace 0 with (sumb (λ _ : TaskInstance, false) TI.pool_slots (task_instance s)).
  - apply sumb_ext.
    + intros t Ht. destruct (TI.pool t ≟ name) eqn:E1; [|done].
      destruct (TI.state t ∈? [st]) eqn:E2; [|done]. exfalso. bool_to_prop.
      apply list_elem_of_singleton in E2. eapply Hno. apply list_elem_of_fmap.
      exists (name, st). split; [reflexivity|]. apply elem_of_remove_dups, list_elem_of_fmap.
      exists t. split; [by rewrite E1, E2|]. apply elem_of_filterb. split; [|done].
      apply bool_decide_eq_true. by rewrite E2.
    + intros t Ht. done.
  - generalize (task_instance s). induction l; simpl; done.
Qed.

(** The count a list of rows leaves in one entry: the last one for its key. *)
Definition row_count (name : string) (st : option TaskInstanceState) (dflt : Z)
    (rows : list (string * option TaskInstanceState * Z)) : Z :=
  foldl (λ acc '(n, st', c), if (n ≟ name) && (st' ≟ st) then c else acc) dflt rows.

Lemma row_count_cases name st dflt rows :
  (name, st, row_count name st dflt rows) ∈ rows ∨
  row_count name st dflt rows = dflt ∧ ∀ c, (name, st, c) ∉ rows.
Proof.
  unfold row_count. revert dflt. induction rows as [|[[n st'] c] rows IH]; intros dflt; simpl.
  { right. split; [done|]. set_solver. }
  destruct (IH (if (n ≟ name) && (st' ≟ st) then c else dflt)) as [H|[H1 H2]].
  { left. by right. }
  destruct ((n ≟ name) && (st' ≟ st)) eqn:E; bool_to_prop.
  - left. subst. rewrite H1. left.
  - right. split; [done|]. intros c'. rewrite not_elem_of_cons. split; [|done].
    intros [= -> -> ->]. destruct E; by bool_to_prop.
Qed.

Lemma row_count_group name st :
  st ∈ EXECUTION_STATES → row_count name st 0 (state_count_by_pool s) = group_sum name st.
Proof.
  intros Hst. destruct (row_count_cases name st 0 (state_count_by_pool s)) as [H|[-> H]].
  - by apply state_count_elem in H as [_ H].
  - symmetry. by apply state_count_missing.
Qed.

(** The counting loop never raises, and sets each entry's two counts. *)
Lemma count_loop rows pools :
  (∀ n st c, (n, st, c) ∈ rows → st ∈ EXECUTION_STATES) →
  ∃ pools', foldM count_step rows pools = Ok pools' ∧
  ∀ name, pools' !! name =
    (λ st, {| total := total st; running := row_count name (Some RUNNING) (running st) rows;
              queued := row_count name (Some QUEUED) (queued st) rows; open := open st |})
      <$> pools !! name.
Proof.
  revert pools. induction rows as [|[[n st] c] rows IH]; intros pools Hst.
  { exists pools. split; [done|]. intros name. by destruct (pools !! name) as [[]|]. }
  assert (st ∈ EXECUTION_STATES) as Hst0 by (eapply Hst; left).
  assert (∀ n' st' c', (n', st', c') ∈ rows → st' ∈ EXECUTION_STATES) as Hst1.
  { intros n' st' c' Hin. eapply Hst. by right. }
  simpl. destruct (pools !! n) as [e|] eqn:E.
  - unfold EXECUTION_STATES in Hst0.
    apply elem_of_cons in Hst0 as [->|Hq]; [|apply list_elem_of_singleton in Hq as ->]; simpl;
      (edestruct IH as (p' & Hp & Hl); [exact Hst1|]); exists p'; (split; [exact Hp|]); intros name;
      rewrite Hl; destruct (decide (n = name)) as [->|Hne];
      rewrite ?lookup_insert_eq, ?lookup_insert_ne, ?E by done; simpl;
      rewrite ?bool_decide_eq_true_2, ?(bool_decide_eq_false_2 (n = name)) by done; done.
  - simpl. destruct (IH pools Hst1) as (p' & Hp & Hl). exists p'. split; [exact Hp|].
    intros name. rewrite Hl. destruct (decide (n = name)) as [->|Hne]; [by rewrite E|].
    unfold row_count. simpl. by rewrite (bool_decide_eq_false_2 (n = name)) by done.
Qed.

Lemma init_pools_lookup ps p :
  NoDup (pool_name <$> ps) → p ∈ ps → init_pools ps !! pool_name p = Some (init_stats p).
Proof.
  unfold init_pools. generalize (∅ : gmap string PoolStats).
  induction ps as [|q ps IH]; intros m Hnd Hp; [by apply elem_of_nil in Hp|].
  apply NoDup_cons in Hnd as [Hq Hnd]. cbn [foldl]. apply elem_of_cons in Hp as [->|Hp]; [|by apply IH].
  clear IH Hnd. assert (∀ m : gmap string PoolStats, m !! pool_name q = Some (init_stats q) →
    foldl (λ pools p, <[pool_name p := init_stats p]> pools) m ps !! pool_name q
      = Some (init_stats q)) as Hkeep.
  { clear m. revert Hq. induction ps as [|r ps IH]; intros Hq m Hm; [done|]. cbn [foldl].
    apply not_elem_of_cons in Hq as [Hr Hq]. apply IH; [done|]. by rewrite lookup_insert_ne. }
  apply Hkeep. by rewrite lookup_insert_eq.
Qed.

Lemma slots_stats_spec (Hnames : NoDup (pool_name <$> slot_pool s)) :
  ∃ d, slots_stats s = Ok d ∧
  ∀ p, p ∈ slot_pool s →
    d !! pool_name p =
      Some {| total := if slots p =? -1 then Inf else Fin (slots p);
              running := running_slots p s; queued := queued_slots p s;
              open := open_slots p s |}.
Proof.
  destruct (count_loop (state_count_by_pool s) (init_pools (slot_pool s))) as (d & Hd & Hl).
  { intros n st c Hin. by apply state_count_elem in Hin as [? _]. }
  exists (open_step <$> d). unfold slots_stats. rewrite Hd. split; [done|]. intros p Hp.
  rewrite lookup_fmap, Hl, init_pools_lookup by done. simpl.
  rewrite !row_count_group by (unfold EXECUTION_STATES; set_solver).
  change (group_sum (pool_name p) (Some RUNNING)) with (running_slots p s).
  change (group_sum (pool_name p) (Some QUEUED)) with (queued_slots p s).
  do 2 f_equal. unfold open_step, open_slots. simpl. rewrite occupied_split.
  destruct (Z.eqb_spec (slots p) (-1)) as [|Hne]; [done|].
  rewrite bool_decide_eq_false_2 by congruence. cbn [slots_sub]. f_equal; f_equal. lia.
Qed.

(** [slots_stats] never raises, and for every pool its entry agrees with
    the pool's own counters: the running and queued sums, and [open_slots]. *)
Theorem slots_stats_correct (Hnames : NoDup (pool_name <$> slot_pool s)) :
  ∃ d, slots_stats s = Ok d ∧
  ∀ p, p ∈ slot_pool s →
    d !! pool_name p =
      Some {| total := if slots p =? -1 then Inf else Fin (slots p);
              running := running_slots p s; queued := queued_slots p s;
              open := open_slots p s |}.
Proof. by apply slots_stats_spec. Qed.
End PoolFacts.

(** ** Witness *)

Definition w_pool : Pool := {| pool_name := "default_pool"; slots := 128 |}.
Definition w_session : Session :=
  Sample.mk_session [Sample.mk_ti "diamond" "a" (Some RUNNING); Sample.mk_ti "diamond" "b" (Some QUEUED);
                     Sample.mk_ti "diamond" "c" (Some QUEUED); Sample.mk_ti "diamond" "d" None] [].

Lemma slots_stats_correct_witness :
  ∃ d, slots_stats w_session = Ok d ∧
  d !! "default_pool" = Some {| total := Fin 128; running := 1; queued := 2; open := Fin 125 |}.
Proof.
  destruct (slots_stats_correct w_session) as (d & Hd & Hl); [apply NoDup_singleton|].
  exists d. split; [exact Hd|]. apply (Hl w_pool). left.
Defined.
