(* ===== verification/TiDeps.v ===== *)
(** * TiDeps: the dependencies of a task instance

    [ti_deps/dep_context.py], [ti_deps/deps/*.py], [ti_deps/dependencies_deps.py]
    and the methods of [TaskInstance] that check them.

    Checking is not pure: [TriggerRuleDep] and [NotPreviouslySkippedDep] may set
    the task instance's state, and the context caches the list of finished
    tasks.  The object and the context are threaded as a [DepState].  The
    database sessions are configured with [autoflush=False] (settings.py), so a
    [session.merge(ti)] is pending until the caller flushes or commits, and the
    queries of the checks read the rows as they were: the [Session] is an
    argument, and [ds_merged] says that the object is to be written.  A Python set of dependencies is a list without repetition, in
    an iteration order the theorems do not fix.  A status keeps the message it
    was given as a constructor of [Reason] with the values formatted into it. *)

From S2P Require Import Prelude State Model Sample Graph DagRunQuery TaskInstance PoolSlots.

(** The settings and the hash function the checks depend on: the configuration
    [core.allow_trigger_in_future], and the SHA-1 of a task instance's key that
    spreads retries. *)
Class Settings := {
  ALLOW_FUTURE_EXEC_DATES : bool;
  ti_hash : TaskInstance → Z;
}.

Module TiDeps.
Local Open Scope Z_scope.

(** ** The context *)

Record DepContext := {
  dc_deps : list TIDep;
  flag_upstream_failed : bool;
  ignore_all_deps : bool;
  ignore_depends_on_past : bool;
  ignore_in_retry_period : bool;
  ignore_in_reschedule_period : bool;
  ignore_task_deps : bool;
  ignore_ti_state : bool;
  finished_tasks : option (list TaskInstance);
}.

(** [DepContext()]. *)
Definition default_context : DepContext :=
  {| dc_deps := []; flag_upstream_failed := false; ignore_all_deps := false;
     ignore_depends_on_past := false; ignore_in_retry_period := false;
     ignore_in_reschedule_period := false; ignore_task_deps := false;
     ignore_ti_state := false; finished_tasks := None |}.

Definition with_finished_tasks (l : list TaskInstance) (c : DepContext) : DepContext :=
  {| dc_deps := dc_deps c; flag_upstream_failed := flag_upstream_failed c;
     ignore_all_deps := ignore_all_deps c; ignore_depends_on_past := ignore_depends_on_past c;
     ignore_in_retry_period := ignore_in_retry_period c;
     ignore_in_reschedule_period := ignore_in_reschedule_period c;
     ignore_task_deps := ignore_task_deps c; ignore_ti_state := ignore_ti_state c;
     finished_tasks := Some l |}.

Record DepState := {
  ds_ti : TaskInstance;
  ds_merged : bool;
  ds_context : DepContext;
}.

(** ** Statuses *)

Inductive Reason :=
| AllDepsIgnored
| TaskDepsIgnored
| DagSlotsReached (max_active_tasks : Z) (dag_id : string)
| DagPaused (dag_id : string)
| DagrunMissing (max_active_runs_reached : option (Z * string))
| DagrunNotRunning (state : DagRunState)
| DagrunNotBackfill
| DagrunBackfill
| BeforeTaskStart (execution_date start_date : datetime)
| BeforeDagStart (execution_date start_date : datetime)
| RetryPeriodPermitted
| NotMarkedForRetry
| NotReadyForRetry (current retry_at : datetime)
| SkippedByParent (parent : string)
| NoSuchPool (pool : string)
| NotEnoughSlots (open_slots : Slots) (pool : string) (required : Z)
| EnoughSlots (pool : string)
| PastIgnored
| NotDependsOnPast
| NoDagrun
| FirstTaskInstance
| PreviousMissing
| PreviousNotSuccessful (state : option TaskInstanceState)
| PreviousDownstreamNotDone
| ReschedulePeriodPermitted
| NotRescheduleable
| NoRescheduleRequest
| ReadyForReschedule
| NotReadyForReschedule (current reschedule_at : datetime)
| FutureDate (execution_date current : datetime)
| AfterTaskEnd (execution_date end_date : datetime)
| AfterDagEnd (execution_date end_date : datetime)
| NoTaskConcurrency
| TaskConcurrencyReached
| TaskConcurrencyFree
| NotRunning
| AlreadyRunning
| NoUpstream
| AlwaysRule
| RuleNotMet (rule : TriggerRule) (found : Z)
| RuleNotDone (rule : TriggerRule) (found : bool)
| NoStrategy (rule : TriggerRule)
| StateIgnored
| StateValid (state : option TaskInstanceState)
| StateInvalid (state : option TaskInstanceState).

Record TIDepStatus := {
  dep_name : string;
  passed : bool;
  reason : Reason;
}.

Definition NAME (d : TIDep) : string :=
  match d with
  | RunnableExecDateDep => "Execution Date"
  | ValidStateDep _ => "Task Instance State"
  | DagTISlotsAvailableDep => "Task Instance Slots Available"
  | TaskConcurrencyDep => "Task Concurrency"
  | PoolSlotsAvailableDep => "Pool Slots Available"
  | DagrunRunningDep => "Dagrun Running"
  | DagrunIdDep => "Dagrun run_id is not backfill job ID"
  | DagUnpausedDep => "Dag Not Paused"
  | ExecDateAfterStartDateDep => "Execution Date"
  | TaskNotRunningDep => "Task Instance Not Running"
  | NotInRetryPeriodDep => "Not In Retry Period"
  | PrevDagrunDep => "Previous Dagrun State"
  | TriggerRuleDep => "Trigger Rule"
  | NotPreviouslySkippedDep => "Not Previously Skipped"
  | ReadyToRescheduleDep => "Ready To Reschedule"
  end.

Definition IGNORABLE (d : TIDep) : bool :=
  match d with TaskNotRunningDep => false | _ => true end.

Definition IS_TASK_DEP (d : TIDep) : bool :=
  match d with
  | TaskConcurrencyDep | NotInRetryPeriodDep | PrevDagrunDep | TriggerRuleDep
  | NotPreviouslySkippedDep | ReadyToRescheduleDep => true
  | _ => false
  end.

Definition failing_status (d : TIDep) (r : Reason) : TIDepStatus :=
  {| dep_name := NAME d; passed := false; reason := r |}.

Definition passing_status (d : TIDep) (r : Reason) : TIDepStatus :=
  {| dep_name := NAME d; passed := true; reason := r |}.

(** ** The sets of dependencies *)

Definition SCHEDULED_DEPS : list TIDep :=
  [RunnableExecDateDep; ValidStateDep SCHEDULEABLE_STATES; TaskNotRunningDep].

Definition REQUEUEABLE_DEPS : list TIDep :=
  [DagTISlotsAvailableDep; TaskConcurrencyDep; PoolSlotsAvailableDep].

Definition RUNNING_DEPS : list TIDep :=
  [RunnableExecDateDep; ValidStateDep RUNNABLE_STATES; DagTISlotsAvailableDep;
   TaskConcurrencyDep; PoolSlotsAvailableDep; TaskNotRunningDep].

Definition BACKFILL_QUEUED_DEPS : list TIDep :=
  [RunnableExecDateDep; ValidStateDep BACKFILL_QUEUEABLE_STATES; DagrunRunningDep;
   TaskNotRunningDep].

Definition SCHEDULER_QUEUED_DEPS : list TIDep :=
  [RunnableExecDateDep; ValidStateDep QUEUEABLE_STATES; DagTISlotsAvailableDep;
   TaskConcurrencyDep; PoolSlotsAvailableDep; DagrunRunningDep; DagrunIdDep; DagUnpausedDep;
   ExecDateAfterStartDateDep; TaskNotRunningDep].

(** [a | b] and [a - b] on sets. *)
Definition set_union (a b : list TIDep) : list TIDep := a ++ List.filter (λ d, negb (d ∈? a)) b.
Definition set_minus (a b : list TIDep) : list TIDep := List.filter (λ d, negb (d ∈? b)) a.

(** ** Queries of the DAG *)

(** [DAG.get_task_instances] with both dates given. *)
Definition dag_get_task_instances (dag : DAG) (start_date end_date : datetime)
    (states : list (option TaskInstanceState)) (s : Session) : list TaskInstance :=
  py_sorted (λ a b, TI.execution_date a <=? TI.execution_date b)
    (List.filter (λ t, (TI.dag_id t ≟ dag_id dag) && (TI.task_id t ∈? task_ids dag) &&
                       (start_date <=? TI.execution_date t) && (TI.execution_date t <=? end_date) &&
                       DagRunQuery.in_filter states (TI.state t)) (task_instance s)).

Definition ensure_finished_tasks (dag : DAG) (execution_date : datetime) (s : Session)
    (c : DepContext) : list TaskInstance * DepContext :=
  match finished_tasks c with
  | Some l => (l, c)
  | None =>
      let l := dag_get_task_instances dag execution_date execution_date State.finished s in
      (l, with_finished_tasks l c)
  end.

Definition get_concurrency_reached (dag : DAG) (s : Session) : bool :=
  max_active_tasks dag <=?
  countb (λ t, (TI.dag_id t ≟ dag_id dag) && (TI.state t ≟ Some RUNNING)) (task_instance s).

(** [get_is_paused]: falsy when the DAG has no row. *)
Definition get_is_paused (dag : DAG) (s : Session) : bool :=
  match List.find (λ dm, dm_dag_id dm ≟ dag_id dag) (dag_model s) with
  | Some dm => is_paused dm
  | None => false
  end.

Definition allow_future_exec_dates `{Settings} (dag : DAG) : bool :=
  ALLOW_FUTURE_EXEC_DATES && match schedule_interval dag with None => true | Some _ => false end.

(** ** The checks that read the database only *)

Section Statuses.
Context `{Settings} (dag : DAG) (task : BaseOperator).
Implicit Types (ti : TaskInstance) (c : DepContext) (s : Session).

Definition dag_ti_slots_available_statuses ti s : list TIDepStatus :=
  if get_concurrency_reached dag s then
    [failing_status DagTISlotsAvailableDep (DagSlotsReached (max_active_tasks dag) (TI.dag_id ti))]
  else [].

Definition dag_unpaused_statuses ti s : list TIDepStatus :=
  if get_is_paused dag s then [failing_status DagUnpausedDep (DagPaused (TI.dag_id ti))] else [].

Definition dagrun_running_statuses ti s : list TIDepStatus :=
  match TaskInstance.get_dagrun ti s with
  | None =>
      let running := DagRunQuery.find [dag_id dag] None [] None None (Some DR_RUNNING)
                       (Some false) None false s in
      [failing_status DagrunRunningDep (DagrunMissing
         (if max_active_runs dag <=? Z.of_nat (length running)
          then Some (max_active_runs dag, TI.dag_id ti) else None))]
  | Some dr =>
      if DR._state dr ≟ DR_RUNNING then []
      else [failing_status DagrunRunningDep (DagrunNotRunning (DR._state dr))]
  end.

Definition dagrun_id_statuses ti s : list TIDepStatus :=
  match TaskInstance.get_dagrun ti s with
  | None => [passing_status DagrunIdDep DagrunNotBackfill]
  | Some dr =>
      match DR.run_id dr with
      | None => [passing_status DagrunIdDep DagrunNotBackfill]
      | Some r =>
          if (r ≟ "") || negb (DR.run_type dr ≟ BACKFILL_JOB)
          then [passing_status DagrunIdDep DagrunNotBackfill]
          else [failing_status DagrunIdDep DagrunBackfill]
      end
  end.

(** [if d and test(d): yield failing]. *)
Definition date_status (d : option datetime) (test : datetime → bool) (st : datetime → TIDepStatus)
    : list TIDepStatus :=
  match d with Some d => if test d then [st d] else [] | None => [] end.

Definition exec_date_after_start_date_statuses ti : list TIDepStatus :=
  let d := TI.execution_date ti in
  date_status (op_start_date task) (λ x, d <? x)
    (λ x, failing_status ExecDateAfterStartDateDep (BeforeTaskStart d x)) ++
  date_status (dag_start_date dag) (λ x, d <? x)
    (λ x, failing_status ExecDateAfterStartDateDep (BeforeDagStart d x)).

Definition runnable_exec_date_statuses ti s : list TIDepStatus :=
  let d := TI.execution_date ti in
  (if (utcnow s <? d) && negb (allow_future_exec_dates dag)
   then [failing_status RunnableExecDateDep (FutureDate d (utcnow s))] else []) ++
  date_status (op_end_date task) (λ x, x <? d)
    (λ x, failing_status RunnableExecDateDep (AfterTaskEnd d x)) ++
  date_status (dag_end_date dag) (λ x, x <? d)
    (λ x, failing_status RunnableExecDateDep (AfterDagEnd d x)).

Definition not_in_retry_period_statuses ti c s : result (list TIDepStatus) :=
  if ignore_in_retry_period c then Ok [passing_status NotInRetryPeriodDep RetryPeriodPermitted]
  else if negb (TI.state ti ≟ Some UP_FOR_RETRY)
  then Ok [passing_status NotInRetryPeriodDep NotMarkedForRetry]
  else
    next ← TaskInstance.next_retry_datetime (ti_hash ti) task ti;
    premature ← TaskInstance.is_premature (ti_hash ti) task ti s;
    Ok (if (premature : bool) then [failing_status NotInRetryPeriodDep (NotReadyForRetry (utcnow s) next)]
        else []).

Definition pool_slots_available_statuses ti s : list TIDepStatus :=
  match List.filter (λ p, pool_name p ≟ TI.pool ti) (slot_pool s) with
  | [] => [failing_status PoolSlotsAvailableDep (NoSuchPool (TI.pool ti))]
  | p :: _ =>
      let open_slots := PoolSlots.open_slots p s in
      let open_slots := if TI.state ti ∈? EXECUTION_STATES
                        then PoolSlots.slots_sub open_slots (- TI.pool_slots ti) else open_slots in
      if PoolSlots.slots_leb open_slots (TI.pool_slots ti - 1)
      then [failing_status PoolSlotsAvailableDep
              (NotEnoughSlots open_slots (TI.pool ti) (TI.pool_slots ti))]
      else [passing_status PoolSlotsAvailableDep (EnoughSlots (TI.pool ti))]
  end.

Definition task_concurrency_statuses ti s : list TIDepStatus :=
  match task_concurrency task with
  | None => [passing_status TaskConcurrencyDep NoTaskConcurrency]
  | Some n =>
      if n <=? TaskInstance.get_num_running_task_instances ti s
      then [failing_status TaskConcurrencyDep TaskConcurrencyReached]
      else [passing_status TaskConcurrencyDep TaskConcurrencyFree]
  end.

Definition task_not_running_statuses ti : list TIDepStatus :=
  if negb (TI.state ti ≟ Some RUNNING) then [passing_status TaskNotRunningDep NotRunning]
  else [failing_status TaskNotRunningDep AlreadyRunning].

Definition valid_state_statuses valid ti c : list TIDepStatus :=
  let dep := ValidStateDep valid in
  if ignore_ti_state c then [passing_status dep StateIgnored]
  else if TI.state ti ∈? valid then [passing_status dep (StateValid (TI.state ti))]
  else [failing_status dep (StateInvalid (TI.state ti))].

Definition RESCHEDULEABLE_STATES : list (option TaskInstanceState) :=
  [Some UP_FOR_RESCHEDULE; None].

Definition ready_to_reschedule_statuses ti c s : list TIDepStatus :=
  let dep := ReadyToRescheduleDep in
  if ignore_in_reschedule_period c then [passing_status dep ReschedulePeriodPermitted]
  else if negb (TI.state ti ∈? RESCHEDULEABLE_STATES) then [passing_status dep NotRescheduleable]
  else match head (TaskInstance.query_for_task_instance ti true s) with
  | None => [passing_status dep NoRescheduleRequest]
  | Some r =>
      if TR.reschedule_date r <=? utcnow s then [passing_status dep ReadyForReschedule]
      else [failing_status dep (NotReadyForReschedule (utcnow s) (TR.reschedule_date r))]
  end.

Definition prev_dagrun_statuses ti c s : result (list TIDepStatus) :=
  let dep := PrevDagrunDep in
  if ignore_depends_on_past c then Ok [passing_status dep PastIgnored]
  else if negb (depends_on_past task) then Ok [passing_status dep NotDependsOnPast]
  else match TaskInstance.get_dagrun ti s with
  | None => Ok [passing_status dep NoDagrun]
  | Some dr =>
      let last_dagrun := if catchup dag then DagRunQuery.get_previous_scheduled_dagrun dr s
                         else DagRunQuery.get_previous_dagrun dr None s in
      match last_dagrun with
      | None => Ok [passing_status dep FirstTaskInstance]
      | Some last =>
          inactive ← (if catchup dag then
                        match op_start_date task with
                        | Some d => Ok (DR.execution_date last <? d)
                        | None => Err TypeError
                        end
                      else Ok false);
          if (inactive : bool) then Ok [passing_status dep FirstTaskInstance]
          else match DagRunQuery.get_task_instance last (TI.task_id ti) s with
          | None => Ok [failing_status dep PreviousMissing]
          | Some p =>
              Ok ((if TI.state p ∈? [Some SKIPPED; Some SUCCESS] then []
                   else [failing_status dep (PreviousNotSuccessful (TI.state p))]) ++
                  (if wait_for_downstream task && negb (TaskInstance.are_dependents_done task p s)
                   then [failing_status dep PreviousDownstreamNotDone] else []))
          end
      end
  end.
End Statuses.

(** ** The trigger rule *)

Record Counts := {
  successes : Z;
  skipped : Z;
  failed : Z;
  upstream_failed : Z;
  done : Z;
}.

Definition _get_states_count_upstream_ti (task : BaseOperator) (finished : list TaskInstance) : Counts :=
  let ups := List.filter (λ t, TI.task_id t ∈? upstream_task_ids task) finished in
  let counter st := countb (λ t, TI.state t ≟ Some st) ups in
  {| successes := counter SUCCESS; skipped := counter SKIPPED; failed := counter FAILED;
     upstream_failed := counter UPSTREAM_FAILED; done := Z.of_nat (length ups) |}.

(** Python's truth of an integer. *)
Definition truthy (n : Z) : bool := negb (n =? 0).

(** The instant state assignment under [flag_upstream_failed]. *)
Definition instant_state (rule : TriggerRule) (upstream : Z) (n : Counts) : option TaskInstanceState :=
  let upstream_done := upstream <=? done n in
  match rule with
  | ALL_SUCCESS =>
      if truthy (upstream_failed n) || truthy (failed n) then Some UPSTREAM_FAILED
      else if truthy (skipped n) then Some SKIPPED else None
  | ALL_FAILED => if truthy (successes n) || truthy (skipped n) then Some SKIPPED else None
  | ONE_SUCCESS =>
      if upstream_done && (done n =? skipped n) then Some SKIPPED
      else if upstream_done && (successes n <=? 0) then Some UPSTREAM_FAILED else None
  | ONE_FAILED =>
      if upstream_done && negb (truthy (failed n) || truthy (upstream_failed n))
      then Some SKIPPED else None
  | NONE_FAILED =>
      if truthy (upstream_failed n) || truthy (failed n) then Some UPSTREAM_FAILED else None
  | NONE_FAILED_OR_SKIPPED =>
      if truthy (upstream_failed n) || truthy (failed n) then Some UPSTREAM_FAILED
      else if skipped n =? upstream then Some SKIPPED else None
  | NONE_SKIPPED => if truthy (skipped n) then Some SKIPPED else None
  | ALL_DONE | DUMMY | ALWAYS => None
  end.

(** The failing status of a rule that is not met. *)
Definition rule_failure (rule : TriggerRule) (upstream : Z) (n : Counts) : option Reason :=
  let upstream_done := upstream <=? done n in
  match rule with
  | ONE_SUCCESS => if successes n <=? 0 then Some (RuleNotMet rule 0) else None
  | ONE_FAILED =>
      if negb (truthy (failed n)) && negb (truthy (upstream_failed n))
      then Some (RuleNotMet rule 0) else None
  | ALL_SUCCESS =>
      let num_failures := upstream - successes n in
      if 0 <? num_failures then Some (RuleNotMet rule num_failures) else None
  | ALL_FAILED =>
      let num_successes := upstream - failed n - upstream_failed n in
      if 0 <? num_successes then Some (RuleNotMet rule num_successes) else None
  | ALL_DONE => if negb upstream_done then Some (RuleNotDone rule upstream_done) else None
  | NONE_FAILED | NONE_FAILED_OR_SKIPPED =>
      let num_failures := upstream - successes n - skipped n in
      if 0 <? num_failures then Some (RuleNotMet rule num_failures) else None
  | NONE_SKIPPED =>
      if negb upstream_done || (0 <? skipped n) then Some (RuleNotMet rule (skipped n)) else None
  | DUMMY | ALWAYS => Some (NoStrategy rule)
  end.

(** [ti.set_state(state, session)]: the object changes, its row is pending. *)
Definition ds_set_state (now : datetime) (state : TaskInstanceState) (st : DepState) : DepState :=
  {| ds_ti := TaskInstance.set_state_obj now (Some state) (ds_ti st); ds_merged := true;
     ds_context := ds_context st |}.

Definition _evaluate_trigger_rule (task : BaseOperator) (n : Counts) (flag : bool) (s : Session)
    (st : DepState) : list TIDepStatus * DepState :=
  let upstream := Z.of_nat (length (upstream_task_ids task)) in
  let st := if flag then
              match instant_state (trigger_rule task) upstream n with
              | Some new => ds_set_state (utcnow s) new st
              | None => st
              end
            else st in
  (match rule_failure (trigger_rule task) upstream n with
   | Some r => [failing_status TriggerRuleDep r]
   | None => []
   end, st).

(** The list of finished tasks, cached in the context. *)
Definition ds_finished_tasks (dag : DAG) (s : Session) (st : DepState)
    : list TaskInstance * DepState :=
  let '(l, c) := ensure_finished_tasks dag (TI.execution_date (ds_ti st)) s (ds_context st) in
  (l, {| ds_ti := ds_ti st; ds_merged := ds_merged st; ds_context := c |}).

Definition trigger_rule_statuses (dag : DAG) (task : BaseOperator) (s : Session) (st : DepState)
    : result (list TIDepStatus * DepState) :=
  ups ← upstream_list dag task;
  if bool_decide (ups = []) then Ok ([passing_status TriggerRuleDep NoUpstream], st)
  else if trigger_rule task ≟ ALWAYS then Ok ([passing_status TriggerRuleDep AlwaysRule], st)
  else
    let '(finished, st) := ds_finished_tasks dag s st in
    Ok (_evaluate_trigger_rule task (_get_states_count_upstream_ti task finished)
          (flag_upstream_failed (ds_context st)) s st).

(** ** Tasks that a parent decided to skip *)

Definition XCOM_SKIPMIXIN_KEY : string := "skipmixin_key".
Definition XCOM_SKIPMIXIN_SKIPPED : string := "skipped".
Definition XCOM_SKIPMIXIN_FOLLOWED : string := "followed".

(** [XCom.get_many] for one key, task and DAG at one date, newest first. *)
Definition xcom_get_many (execution_date : datetime) (key tid did : string) (s : Session) : list XCom :=
  py_sorted (λ a b, XC.timestamp b <=? XC.timestamp a)
    (List.filter (λ x, (XC.key x ≟ key) && (XC.task_id x ≟ tid) && (XC.dag_id x ≟ did) &&
                       (XC.execution_date x ≟ execution_date)) (xcom s)).

(** [ti.xcom_pull(task_ids=tid, key=key)] for one task. *)
Definition xcom_pull (tid key : string) (ti : TaskInstance) (s : Session)
    : option (list (string * list string)) :=
  XC.value <$> head (xcom_get_many (TI.execution_date ti) key tid (TI.dag_id ti) s).

(** [d.get(k)] on the dictionary of an XCom value. *)
Definition dict_get (k : string) (d : list (string * list string)) : option (list string) :=
  snd <$> List.find (λ e, e.1 ≟ k) d.

Definition should_skip (tid : string) (prev_result : list (string * list string)) : bool :=
  if match dict_get XCOM_SKIPMIXIN_FOLLOWED prev_result with
     | Some followed => negb (tid ∈? followed) | None => false end then true
  else match dict_get XCOM_SKIPMIXIN_SKIPPED prev_result with
       | Some skipped => tid ∈? skipped | None => false end.

(** Whether a parent that has finished decided to skip the task instance. *)
Definition skipped_by (finished : list TaskInstance) (ti : TaskInstance) (s : Session)
    (parent : BaseOperator) : bool :=
  is_SkipMixin parent && (task_id parent ∈? (TI.task_id <$> finished)) &&
  match xcom_pull (task_id parent) XCOM_SKIPMIXIN_KEY ti s with
  | Some prev_result => should_skip (TI.task_id ti) prev_result
  | None => false
  end.

Definition not_previously_skipped_statuses (dag : DAG) (task : BaseOperator) (s : Session)
    (st : DepState) : result (list TIDepStatus * DepState) :=
  ups ← upstream_list dag task;
  let '(finished, st) := ds_finished_tasks dag s st in
  Ok match List.find (skipped_by finished (ds_ti st) s) ups with
  | Some parent =>
      ([failing_status NotPreviouslySkippedDep (SkippedByParent (task_id parent))],
       ds_set_state (utcnow s) SKIPPED st)
  | None => ([], st)
  end.

(** ** Checking a dependency, and all of them *)

Section Check.
Context `{Settings} (dag : DAG) (task : BaseOperator) (s : Session).

Definition _get_dep_statuses (dep : TIDep) (st : DepState) : result (list TIDepStatus * DepState) :=
  let ti := ds_ti st in let c := ds_context st in
  match dep with
  | RunnableExecDateDep => Ok (runnable_exec_date_statuses dag task ti s, st)
  | ValidStateDep valid => Ok (valid_state_statuses valid ti c, st)
  | DagTISlotsAvailableDep => Ok (dag_ti_slots_available_statuses dag ti s, st)
  | TaskConcurrencyDep => Ok (task_concurrency_statuses task ti s, st)
  | PoolSlotsAvailableDep => Ok (pool_slots_available_statuses ti s, st)
  | DagrunRunningDep => Ok (dagrun_running_statuses dag ti s, st)
  | DagrunIdDep => Ok (dagrun_id_statuses ti s, st)
  | DagUnpausedDep => Ok (dag_unpaused_statuses dag ti s, st)
  | ExecDateAfterStartDateDep => Ok (exec_date_after_start_date_statuses dag task ti, st)
  | TaskNotRunningDep => Ok (task_not_running_statuses ti, st)
  | NotInRetryPeriodDep => l ← not_in_retry_period_statuses task ti c s; Ok (l, st)
  | PrevDagrunDep => l ← prev_dagrun_statuses dag task ti c s; Ok (l, st)
  | TriggerRuleDep => trigger_rule_statuses dag task s st
  | NotPreviouslySkippedDep => not_previously_skipped_statuses dag task s st
  | ReadyToRescheduleDep => Ok (ready_to_reschedule_statuses ti c s, st)
  end.

Definition get_dep_statuses (dep : TIDep) (st : DepState) : result (list TIDepStatus * DepState) :=
  if IGNORABLE dep && ignore_all_deps (ds_context st) then
    Ok ([passing_status dep AllDepsIgnored], st)
  else if IS_TASK_DEP dep && ignore_task_deps (ds_context st) then
    Ok ([passing_status dep TaskDepsIgnored], st)
  else _get_dep_statuses dep st.

Definition is_met (dep : TIDep) (st : DepState) : result (bool * DepState) :=
  '(l, st) ← get_dep_statuses dep st; Ok (forallb passed l, st).

Definition get_failure_reasons (dep : TIDep) (st : DepState) : result (list Reason * DepState) :=
  '(l, st) ← get_dep_statuses dep st;
  Ok (reason <$> List.filter (λ x, negb (passed x)) l, st).

(** The loop of [get_failed_dep_statuses]: the failing statuses so far. *)
Definition failed_step (acc : list TIDepStatus * DepState) (dep : TIDep)
    : result (list TIDepStatus * DepState) :=
  '(l, st) ← get_dep_statuses dep acc.2;
  Ok (acc.1 ++ List.filter (λ x, negb (passed x)) l, st).

Definition get_failed_dep_statuses (st : DepState) : result (list TIDepStatus * DepState) :=
  foldM failed_step (set_union (dc_deps (ds_context st)) (deps task)) ([], st).

Definition are_dependencies_met (st : DepState) : result (bool * DepState) :=
  '(l, st) ← get_failed_dep_statuses st; Ok (bool_decide (length l = 0%nat), st).

End Check.

(** ** Before execution *)

Section Execution.
Context `{Settings} (dag : DAG) (task : BaseOperator).

Definition check_context (ds : list TIDep) (all past tdeps tstate : bool) : DepContext :=
  {| dc_deps := ds; flag_upstream_failed := false; ignore_all_deps := all;
     ignore_depends_on_past := past; ignore_in_retry_period := false;
     ignore_in_reschedule_period := false; ignore_task_deps := tdeps;
     ignore_ti_state := tstate; finished_tasks := None |}.

(** [session.commit()] after a check: the pending row is written. *)
Definition commit_ti (merged : bool) (ti : TaskInstance) (s : Session) : Session :=
  if merged then merge_ti ti s else s.

(** The two rounds of checks: whether the attempt may start, the object and the
    database they leave. *)
Definition check_rounds (all past tdeps tstate : bool) (ti : TaskInstance) (s : Session)
    : result (bool * TaskInstance * Session) :=
  '(met, st) ← are_dependencies_met dag task s
     {| ds_ti := ti; ds_merged := false;
        ds_context := check_context (set_minus RUNNING_DEPS REQUEUEABLE_DEPS) all past tdeps tstate |};
  let ti := ds_ti st in
  if negb met then Ok (false, ti, commit_ti (ds_merged st) ti s)
  else
    let start :=
      if TI.state ti ≟ Some UP_FOR_RESCHEDULE then
        match head (TaskInstance.query_for_task_instance ti false s) with
        | Some r => TR.start_date r
        | None => utcnow s
        end
      else utcnow s in
    let ti := TI.set_dates (Some start) (TI.end_date ti) (TI.duration ti) ti in
    '(met, st) ← are_dependencies_met dag task s
       {| ds_ti := ti; ds_merged := ds_merged st;
          ds_context := check_context REQUEUEABLE_DEPS all past tdeps tstate |};
    let ti := ds_ti st in
    if negb met then
      let ti := TI.set_state None ti in
      let ti := TI.set_queued (Some (utcnow s)) (TI.queued_by_job_id ti) ti in
      Ok (false, ti, merge_ti ti s)
    else Ok (true, ti, s).

Definition check_and_change_state_before_execution (hostname : string)
    (all past tdeps tstate mark_success test_mode : bool) (job_id : option Z)
    (pool : option string) (ti : TaskInstance) (s : Session)
    : result (bool * TaskInstance * Session) :=
  ti ← TaskInstance.refresh_from_task dag task pool ti;
  let ti := TI.set_job hostname job_id None (TaskInstance.refresh_from_db ti s) in
  '(go, ti, s) ← (if mark_success then Ok (true, ti, s) else check_rounds all past tdeps tstate ti s);
  if negb go then Ok (false, ti, s)
  else
    let ti := TaskInstance.begin_attempt ti in
    Ok (true, ti, if test_mode then s else merge_ti ti s).

End Execution.
End TiDeps.
Import TiDeps.

(** ** Trigger rules: what they mean *)

Section TriggerRules.
Local Open Scope Z_scope.

(** The state in which an upstream task finished, if it did. *)
Definition upstream_state (finished : list TaskInstance) (u : string) : option TaskInstanceState :=
  match List.find (λ t, TI.task_id t ≟ u) finished with Some t => TI.state t | None => None end.

(** The documented meaning of a rule ([docs/apache-airflow/concepts/dags.rst]) over the
    states of the upstream tasks. *)
Definition rule_holds (rule : TriggerRule) (sts : list (option TaskInstanceState)) : Prop :=
  match rule with
  | ALL_SUCCESS => ∀ st, st ∈ sts → st = Some SUCCESS
  | ALL_FAILED => ∀ st, st ∈ sts → st ∈ State.failed_states
  | ALL_DONE => ∀ st, st ∈ sts → st ∈ State.finished
  | ONE_SUCCESS => ∃ st, st ∈ sts ∧ st = Some SUCCESS
  | ONE_FAILED => ∃ st, st ∈ sts ∧ st ∈ State.failed_states
  | NONE_FAILED => ∀ st, st ∈ sts → st ∈ State.success_states
  | NONE_FAILED_OR_SKIPPED => (∀ st, st ∈ sts → st ∈ State.success_states) ∧ ∃ st, st ∈ sts ∧ st = Some SUCCESS
  | NONE_SKIPPED => ∀ st, st ∈ sts → st ∈ State.finished ∧ st ≠ Some SKIPPED
  | DUMMY => False
  | ALWAYS => True
  end.

(** What the check accepts beyond the documented meaning: [none_failed_or_skipped] when
    every upstream task was skipped. *)
Definition all_skipped (rule : TriggerRule) (sts : list (option TaskInstanceState)) : Prop :=
  rule = NONE_FAILED_OR_SKIPPED ∧ ∀ st, st ∈ sts → st = Some SKIPPED.

(** The finished task instances of one run: one per task, each finished. *)
Definition finished_ok (finished : list TaskInstance) : Prop :=
  NoDup (TI.task_id <$> finished) ∧ ∀ t, t ∈ finished → TI.state t ∈ State.finished.

Lemma count_one_task (f : option TaskInstanceState → bool) finished u :
  f None = false → NoDup (TI.task_id <$> finished) →
  countb (λ t, (TI.task_id t ≟ u) && f (TI.state t)) finished
    = if f (upstream_state finished u) then 1 else 0.
Proof.
  intros HN. unfold upstream_state. induction finished as [|t l IH]; intros Hnd.
  { simpl. rewrite HN. done. }
  apply NoDup_cons in Hnd as [Ht Hnd]. rewrite countb_cons. simpl.
  destruct (decide (TI.task_id t = u)) as [<-|Hne].
  - rewrite !bool_decide_eq_true_2 by done. simpl.
    rewrite (proj2 (countb_zero _ l)); [lia|]. intros x Hx.
    rewrite bool_decide_eq_false_2; [done|]. intros Heq. apply Ht.
    apply list_elem_of_fmap. exists x. done.
  - rewrite !bool_decide_eq_false_2 by done. simpl. rewrite IH by done. lia.
Qed.

(** Counting finished rows is counting the states of the upstream tasks. *)
Lemma count_upstream (f : option TaskInstanceState → bool) finished ups :
  f None = false → NoDup ups → NoDup (TI.task_id <$> finished) →
  countb (λ t, f (TI.state t)) (List.filter (λ t, TI.task_id t ∈? ups) finished)
    = countb f (upstream_state finished <$> ups).
Proof.
  intros HN Hups Hnd. rewrite countb_filter, countb_fmap.
  induction ups as [|u ups IH].
  { apply countb_zero. intros x _. rewrite bool_decide_eq_false_2; [done|]. apply not_elem_of_nil. }
  apply NoDup_cons in Hups as [Hu Hups]. rewrite countb_cons, <-IH by done.
  rewrite <-(count_one_task f finished u) by done. rewrite <-countb_split.
  - apply countb_ext. intros t _. rewrite <-andb_orb_distrib_l. f_equal.
    rewrite <-bool_decide_or. apply bool_decide_ext. by rewrite elem_of_cons.
  - intros t _ H1 H2. bool_to_prop. congruence.
Qed.

(** The counters as a function of the upstream states. *)
Definition counts_of (sts : list (option TaskInstanceState)) : Counts :=
  let counter st := countb (λ x, x ≟ Some st) sts in
  {| successes := counter SUCCESS; skipped := counter SKIPPED; failed := counter FAILED;
     upstream_failed := counter UPSTREAM_FAILED; done := countb (λ x, x ∈? State.finished) sts |}.

Lemma states_count_spec task finished :
  NoDup (upstream_task_ids task) → finished_ok finished →
  _get_states_count_upstream_ti task finished
    = counts_of (upstream_state finished <$> upstream_task_ids task).
Proof.
  intros Hups [Hnd Hst]. unfold _get_states_count_upstream_ti, counts_of.
  rewrite <-!(count_upstream _ _ _) by done.
  f_equal. set (l := List.filter _ _). symmetry.
  apply Z.le_antisymm; [apply countb_le_length|]. apply countb_all.
  intros t Ht. apply elem_of_filterb in Ht as [_ Ht]. apply bool_decide_eq_true. by apply Hst.
Qed.

Section States.
Context (sts : list (option TaskInstanceState)).
Let n := counts_of sts.
Let upstream := Z.of_nat (length sts).

Lemma counts_nonneg : 0 ≤ successes n ∧ 0 ≤ skipped n ∧ 0 ≤ failed n ∧ 0 ≤ upstream_failed n.
Proof. split_and!; apply countb_nonneg. Qed.

(** Every finished state is counted once. *)
Lemma counts_done : done n = successes n + skipped n + failed n + upstream_failed n.
Proof.
  unfold n, counts_of; simpl. rewrite <-!countb_split.
  - apply countb_ext. intros [[]|] _; reflexivity.
  - intros [[]|] _; done.
  - intros [[]|] _; done.
  - intros [[]|] _; done.
Qed.

Lemma counts_failed : failed n + upstream_failed n = countb (λ x, x ∈? State.failed_states) sts.
Proof.
  unfold n, counts_of; simpl. rewrite <-!countb_split.
  - apply countb_ext. intros [[]|] _; reflexivity.
  - intros x _ H1 H2. bool_to_prop. congruence.
Qed.

Lemma counts_succeeded : successes n + skipped n = countb (λ x, x ∈? State.success_states) sts.
Proof.
  unfold n, counts_of; simpl. rewrite <-!countb_split.
  - apply countb_ext. intros [[]|] _; reflexivity.
  - intros x _ H1 H2. bool_to_prop. congruence.
Qed.

Lemma done_le_upstream : done n ≤ upstream.
Proof. apply countb_le_length. Qed.

Lemma all_iff (f : option TaskInstanceState → bool) (P : option TaskInstanceState → Prop) :
  (∀ st, f st = true ↔ P st) → (upstream ≤ countb f sts ↔ ∀ st, st ∈ sts → P st).
Proof.
  intros HP. unfold upstream. rewrite countb_all. split; intros Hall st Hst; by apply HP, Hall.
Qed.

Lemma one_iff (f : option TaskInstanceState → bool) (P : option TaskInstanceState → Prop) :
  (∀ st, f st = true ↔ P st) → (0 < countb f sts ↔ ∃ st, st ∈ sts ∧ P st).
Proof.
  intros HP. rewrite countb_pos. split; intros (st & Hst & H); exists st; split; auto; by apply HP.
Qed.

(** Successes and skips are one success at least, or skips only. *)
Lemma succeeded_iff :
  (∀ st, st ∈ sts → st ∈ State.success_states) ↔
  ((∀ st, st ∈ sts → st ∈ State.success_states) ∧ ∃ st, st ∈ sts ∧ st = Some SUCCESS) ∨ ∀ st, st ∈ sts → st = Some SKIPPED.
Proof.
  unfold State.success_states. split; [|intros [[? _]|H]; [done|]; intros st Hst; rewrite (H st Hst); set_solver].
  intros H. destruct (decide (Some SUCCESS ∈ sts)) as [Hs|Hs]; [left; eauto|]. right. intros st Hst. specialize (H st Hst). set_solver.
Qed.

(** A rule other than [ALWAYS], which is decided before, fails exactly when its
    meaning does not hold, but for the rule that accepts skips only. *)
Lemma rule_failure_spec rule :
  rule ≠ ALWAYS → rule_failure rule upstream n = None ↔ rule_holds rule sts ∨ all_skipped rule sts.
Proof.
  intros Hr. transitivity (if rule ≟ NONE_FAILED_OR_SKIPPED then ∀ st, st ∈ sts → st ∈ State.success_states else rule_holds rule sts).
  2: { unfold all_skipped. destruct (decide (rule = NONE_FAILED_OR_SKIPPED)) as [->|Hne].
       - rewrite bool_decide_eq_true_2 by done. rewrite succeeded_iff at 1. cbn [rule_holds]. naive_solver.
       - rewrite bool_decide_eq_false_2 by done. naive_solver. } pose proof counts_nonneg as (H1 & H2 & H3 & H4). pose proof counts_done as Hd.
  pose proof counts_failed as Hf. pose proof counts_succeeded as Hs. pose proof done_le_upstream as Hu.
  assert (∀ (b : bool) (r : Reason), (if b then Some r else None) = None ↔ b = false) as Hif
    by (intros [] ?; split; done).
  destruct rule; cbn [rule_failure rule_holds]; rewrite ?bool_decide_eq_true_2, ?bool_decide_eq_false_2 by done; cbv zeta; rewrite ?Hif; try done.
  - rewrite <-(all_iff (λ x, x ≟ Some SUCCESS)) by (intros; apply bool_decide_eq_true).
    rewrite Z.ltb_ge. change (countb _ sts) with (successes n). lia.
  - rewrite <-(all_iff (λ x, x ∈? State.failed_states)) by (intros; apply bool_decide_eq_true).
    rewrite <-Hf, Z.ltb_ge. lia.
  - rewrite <-(all_iff (λ x, x ∈? State.finished)) by (intros; apply bool_decide_eq_true).
    rewrite negb_false_iff, Z.leb_le. done.
  - rewrite <-(one_iff (λ x, x ≟ Some SUCCESS)) by (intros; apply bool_decide_eq_true).
    rewrite Z.leb_gt. done.
  - rewrite <-(one_iff (λ x, x ∈? State.failed_states)) by (intros; apply bool_decide_eq_true).
    rewrite <-Hf. unfold truthy.
    rewrite andb_false_iff, !negb_involutive, !Z.eqb_neq. lia.
  - rewrite <-(all_iff (λ x, x ∈? State.success_states)) by (intros; apply bool_decide_eq_true).
    rewrite <-Hs, Z.ltb_ge. lia.
  - rewrite <-(all_iff (λ x, x ∈? State.success_states)) by (intros; apply bool_decide_eq_true).
    rewrite <-Hs, Z.ltb_ge. lia.
  - rewrite <-(all_iff (λ x, (x ∈? State.finished) && negb (x ≟ Some SKIPPED))).
    2:{ intros st. by rewrite andb_true_iff, negb_true_iff, bool_decide_eq_true, bool_decide_eq_false. }
    assert (done n - skipped n = countb (λ x, (x ∈? State.finished) && negb (x ≟ Some SKIPPED)) sts) as <-.
    { assert (done n = countb (λ x, (x ∈? State.finished) && negb (x ≟ Some SKIPPED)) sts + skipped n)
        as ->; [|lia]. unfold n, counts_of; simpl. rewrite <-countb_split.
      - apply countb_ext. intros [[]|] _; reflexivity.
      - intros [[]|] _; done. }
    rewrite orb_false_iff, negb_false_iff, Z.leb_le, Z.ltb_ge. lia.
Qed.
End States.
End TriggerRules.

(** ** The trigger rule dependency *)

Section TriggerRuleDep.
Local Open Scope Z_scope.
Context `{Settings} (s : Session).

Lemma get_tasks_nil dag ids l : get_tasks dag ids = Ok l → l = [] ↔ ids = [].
Proof.
  destruct ids as [|i ids]; simpl; [by intros [= <-]|].
  destruct (get_task dag i); simpl; [|done]. destruct (get_tasks dag ids); simpl; [|done].
  by intros [= <-].
Qed.

(** With skips only, [flag_upstream_failed] assigns the state [skipped]. *)
Lemma instant_all_skipped (sts : list (option TaskInstanceState)) upstream :
  (∀ st, st ∈ sts → st = Some SKIPPED) → length sts = upstream →
  instant_state NONE_FAILED_OR_SKIPPED (Z.of_nat upstream) (counts_of sts) = Some SKIPPED.
Proof.
  intros Hsk <-. assert (∀ f : option TaskInstanceState → bool, f (Some SKIPPED) = false → countb f sts = 0) as H0.
  { intros f Hf. apply countb_zero. intros st Hst. by rewrite (Hsk st Hst). }
  assert (countb (λ x, x ≟ Some SKIPPED) sts = Z.of_nat (length sts)) as H1.
  { apply Z.le_antisymm; [apply countb_le_length|]. apply countb_all. intros st Hst. by rewrite (Hsk st Hst). }
  unfold instant_state, counts_of. cbv zeta. cbn [upstream_failed failed skipped]. rewrite !H0, H1, Z.eqb_refl by done. done.
Qed.

(** What [TriggerRuleDep] yields when the finished tasks are in the context. *)
Lemma trigger_rule_statuses_eq dag task st ups fin :
  upstream_list dag task = Ok ups → finished_tasks (ds_context st) = Some fin →
  upstream_task_ids task ≠ [] → trigger_rule task ≠ ALWAYS →
  trigger_rule_statuses dag task s st =
  Ok (_evaluate_trigger_rule task (_get_states_count_upstream_ti task fin)
        (flag_upstream_failed (ds_context st)) s st).
Proof.
  intros Hups Hfin Hne Hr. unfold trigger_rule_statuses. rewrite Hups. simpl.
  rewrite bool_decide_eq_false_2 by (intros ->; by apply Hne, (get_tasks_nil _ _ _ Hups)).
  rewrite bool_decide_eq_false_2 by done.
  unfold ds_finished_tasks, ensure_finished_tasks. rewrite Hfin. by destruct st.
Qed.

Lemma trigger_rule_is_met dag task st ups fin
  (Hups : upstream_list dag task = Ok ups) (Hnd : NoDup (upstream_task_ids task))
  (Hfin : finished_tasks (ds_context st) = Some fin) (Hok : finished_ok fin)
  (Hall : ignore_all_deps (ds_context st) = false)
  (Htask : ignore_task_deps (ds_context st) = false) :
  let sts := upstream_state fin <$> upstream_task_ids task in
  ∃ b st', is_met dag task s TriggerRuleDep st = Ok (b, st') ∧
  (b = true ↔ upstream_task_ids task = [] ∨ rule_holds (trigger_rule task) sts ∨ all_skipped (trigger_rule task) sts) ∧
  (flag_upstream_failed (ds_context st) = false → st' = st) ∧
  (flag_upstream_failed (ds_context st) = true → upstream_task_ids task ≠ [] → all_skipped (trigger_rule task) sts →
   TI.state (ds_ti st') = Some SKIPPED).
Proof.
  intros sts. unfold is_met, get_dep_statuses. rewrite Hall, Htask. cbn [IGNORABLE IS_TASK_DEP andb _get_dep_statuses].
  destruct (decide (upstream_task_ids task = [])) as [Hnil|Hne].
  { exists true, st. unfold trigger_rule_statuses. rewrite Hups. simpl.
    rewrite bool_decide_eq_true_2 by (by apply (get_tasks_nil _ _ _ Hups)).
    split_and!; [done| |done|by intros _ []]. split; [by left|done]. }
  destruct (decide (trigger_rule task = ALWAYS)) as [Hr|Hr].
  { exists true, st. unfold trigger_rule_statuses. rewrite Hups. simpl.
    rewrite bool_decide_eq_false_2 by (intros ->; by apply Hne, (get_tasks_nil _ _ _ Hups)).
    rewrite Hr. rewrite bool_decide_eq_true_2 by done.
    split_and!; [done| |done|by intros _ _ [? _]]. split; [by right; left|done]. }
  rewrite (trigger_rule_statuses_eq dag task st ups fin) by done. simpl.
  eexists _, _. split; [done|]. rewrite states_count_spec by done. fold sts. split; [|split; [by intros ->|]].
  - pose proof (rule_failure_spec sts _ Hr) as Hspec. unfold sts in Hspec at 1. rewrite length_fmap in Hspec.
    destruct (rule_failure _ _ _); simpl; [split; [done|]; intros [?|Hh]; [done|]; by apply Hspec in Hh|].
    split; [|done]. intros _. right. by apply Hspec.
  - intros -> _ [-> Hsk]. rewrite (instant_all_skipped sts) by (done || unfold sts; by rewrite length_fmap).
    unfold ds_set_state. cbn [ds_ti]. apply state_set_state_obj.
Qed.

(** C4: let the DAG know the upstream tasks, each once, let the context have the
    finished rows of the run, and let it not ignore the dependencies.  The trigger-rule
    dependency of a task is met exactly when the task has no upstream task, or its
    rule, as it is documented, holds of the states in which the upstream tasks
    finished (an upstream task that has not finished counts as such for every rule),
    or the rule is [none_failed_or_skipped] and every upstream task was skipped,
    where the documentation requires a success.  Without [flag_upstream_failed] the
    check changes nothing; with it, it marks the task instance as skipped in the
    latter case, though it is met. *)
Theorem trigger_rule_dep_correct dag task st ups fin
  (Hups : upstream_list dag task = Ok ups) (Hnd : NoDup (upstream_task_ids task))
  (Hfin : finished_tasks (ds_context st) = Some fin) (Hok : finished_ok fin)
  (Hall : ignore_all_deps (ds_context st) = false)
  (Htask : ignore_task_deps (ds_context st) = false) :
  let sts := upstream_state fin <$> upstream_task_ids task in
  ∃ b st', is_met dag task s TriggerRuleDep st = Ok (b, st') ∧
  (b = true ↔ upstream_task_ids task = [] ∨ rule_holds (trigger_rule task) sts ∨ all_skipped (trigger_rule task) sts) ∧
  (flag_upstream_failed (ds_context st) = false → st' = st) ∧
  (flag_upstream_failed (ds_context st) = true → upstream_task_ids task ≠ [] → all_skipped (trigger_rule task) sts →
   TI.state (ds_ti st') = Some SKIPPED).
Proof. by eapply trigger_rule_is_met. Qed.

(** More tasks have finished in [sts'] than in [sts]. *)
Definition later (sts sts' : list (option TaskInstanceState)) : Prop :=
  Forall2 (λ a b, a ∈ State.finished → b = a) sts sts'.

Lemma later_keeps sts sts' st :
  later sts sts' → st ∈ sts → st ∈ State.finished → st ∈ sts'.
Proof.
  intros Hl (i & Hi)%list_elem_of_lookup Hf.
  destruct (Forall2_lookup_l _ _ _ _ _ Hl Hi) as (b & Hb & Heq).
  apply list_elem_of_lookup. exists i. by rewrite Hb, Heq.
Qed.

(** Once every upstream task has finished nothing changes any more. *)
Lemma later_done sts sts' :
  Z.of_nat (length sts) ≤ done (counts_of sts) → later sts sts' → sts' = sts.
Proof.
  intros Hd Hl. cbn in Hd. rewrite countb_all in Hd.
  induction Hl as [|a b l l' Hab Hl IH]; [done|]. f_equal.
  - apply Hab. specialize (Hd a ltac:(left)). by bool_to_prop.
  - apply IH. intros x Hx. apply Hd. by right.
Qed.

(** A counter that is not 0 has an upstream task behind it. *)
Lemma truthy_failed sts :
  truthy (upstream_failed (counts_of sts)) || truthy (failed (counts_of sts)) = true ↔
  ∃ st, st ∈ sts ∧ st ∈ State.failed_states.
Proof.
  rewrite <-(one_iff sts (λ x, x ∈? State.failed_states)) by (intros; apply bool_decide_eq_true).
  rewrite <-counts_failed. pose proof (counts_nonneg sts) as (H1 & H2 & H3 & H4). unfold truthy.
  rewrite orb_true_iff, !negb_true_iff, !Z.eqb_neq. lia.
Qed.

Lemma truthy_skipped sts : truthy (skipped (counts_of sts)) = true ↔ Some SKIPPED ∈ sts.
Proof.
  transitivity (0 < countb (λ x, x ≟ Some SKIPPED) sts).
  - pose proof (counts_nonneg sts) as (H1 & H2 & H3 & H4). unfold truthy.
    rewrite negb_true_iff, Z.eqb_neq. change (countb _ sts) with (skipped (counts_of sts)). lia.
  - rewrite (one_iff sts _ (λ st, st = Some SKIPPED)) by (intros; apply bool_decide_eq_true).
    split; [by intros (st & ? & ->)|eauto].
Qed.

Lemma truthy_succeeded sts :
  truthy (successes (counts_of sts)) || truthy (skipped (counts_of sts)) = true ↔
  ∃ st, st ∈ sts ∧ st ∈ State.success_states.
Proof.
  rewrite <-(one_iff sts (λ x, x ∈? State.success_states)) by (intros; apply bool_decide_eq_true).
  rewrite <-counts_succeeded. pose proof (counts_nonneg sts) as (H1 & H2 & H3 & H4). unfold truthy.
  rewrite orb_true_iff, !negb_true_iff, !Z.eqb_neq. lia.
Qed.

Lemma no_success sts : successes (counts_of sts) ≤ 0 → Some SUCCESS ∉ sts.
Proof.
  intros Hle Hin. assert (0 < countb (λ x, x ≟ Some SUCCESS) sts); [|cbn in Hle; lia].
  apply countb_pos. exists (Some SUCCESS). by rewrite bool_decide_eq_true_2.
Qed.

(** A rule whose instant assignment fired cannot hold later. *)
Lemma instant_state_never rule sts sts' x :
  instant_state rule (Z.of_nat (length sts)) (counts_of sts) = Some x → later sts sts' → ¬ rule_holds rule sts'.
Proof.
  intros Hi Hl Hh.
  assert (∀ st, st ∈ sts → st ∈ State.finished → st ∈ sts') as Hkeep by (intros; by eapply later_keeps).
  assert (∀ st, st ∈ State.failed_states → st ∈ State.finished) as Hff
    by (unfold State.failed_states, State.finished; set_solver).
  assert (∀ st, st ∈ State.success_states → st ∈ State.finished) as Hsf
    by (unfold State.success_states, State.finished; set_solver).
  assert (Some SKIPPED ∈ State.finished) as Hskf by (unfold State.finished; set_solver).
  pose proof (counts_nonneg sts) as (N1 & N2 & N3 & N4). pose proof (counts_done sts) as Hd.
  destruct rule; cbn [instant_state rule_holds] in Hi, Hh; cbv zeta in Hi; try done.
  - destruct (_ || _) eqn:E in Hi.
    + apply truthy_failed in E as (st & Hst & Hf). specialize (Hh st (Hkeep st Hst (Hff _ Hf))).
      subst. revert Hf. unfold State.failed_states. set_solver.
    + destruct (truthy _) eqn:E2 in Hi; [|done]. apply truthy_skipped in E2.
      by specialize (Hh _ (Hkeep _ E2 Hskf)).
  - destruct (_ || _) eqn:E in Hi; [|done]. apply truthy_succeeded in E as (st & Hst & Hf).
    specialize (Hh st (Hkeep st Hst (Hsf _ Hf))).
    revert Hh Hf. unfold State.failed_states, State.success_states. set_solver.
  - destruct Hh as (st & Hst & ->). destruct (_ && _) eqn:E in Hi.
    + bool_to_prop. rewrite (later_done sts sts') in Hst by done. eapply no_success; [|done]. lia.
    + destruct (_ <=? _) eqn:E1 in Hi; [|done]. cbn [andb] in Hi. destruct (_ <=? _) eqn:E2 in Hi; [|done].
      bool_to_prop. rewrite (later_done sts sts') in Hst by done. eapply no_success; [|done]. done.
  - destruct Hh as (st & Hst & Hf). destruct (_ <=? _) eqn:E1 in Hi; [|done]. cbn [andb] in Hi.
    destruct (_ || _) eqn:E2 in Hi; [done|]. bool_to_prop. rewrite (later_done sts sts') in Hst by done.
    assert (truthy (upstream_failed (counts_of sts)) || truthy (failed (counts_of sts)) = true) as HT
      by (apply truthy_failed; eauto).
    rewrite orb_comm in HT. apply orb_true_iff in HT. destruct HT; congruence.
  - destruct (_ || _) eqn:E in Hi; [|done].
    apply truthy_failed in E as (st & Hst & Hf). specialize (Hh st (Hkeep st Hst (Hff _ Hf))).
    revert Hh Hf. unfold State.failed_states, State.success_states. set_solver.
  - destruct (_ || _) eqn:E in Hi.
    + apply truthy_failed in E as (st & Hst & Hf). destruct Hh as [Hh _]. specialize (Hh st (Hkeep st Hst (Hff _ Hf))).
      revert Hh Hf. unfold State.failed_states, State.success_states. set_solver.
    + destruct (_ =? _) eqn:E2 in Hi; [|done]. apply Z.eqb_eq in E2. destruct Hh as (_ & st & Hst & ->).
      rewrite (later_done sts sts') in Hst by (done || lia).
      assert (Z.of_nat (length sts) ≤ countb (λ x, x ≟ Some SKIPPED) sts) as Hall by (cbn in E2; lia).
      rewrite countb_all in Hall. by specialize (Hall _ Hst).
  - destruct (truthy _) eqn:E in Hi; [|done]. apply truthy_skipped in E.
    by destruct (Hh _ (Hkeep _ E Hskf)).
Qed.

Lemma find_task_unique fin t :
  NoDup (TI.task_id <$> fin) → t ∈ fin → upstream_state fin (TI.task_id t) = TI.state t.
Proof.
  unfold upstream_state. induction fin as [|x fin IH]; intros Hnd Ht; [by apply elem_of_nil in Ht|].
  apply NoDup_cons in Hnd as [Hx Hnd]. simpl. apply elem_of_cons in Ht as [->|Ht].
  - by rewrite bool_decide_eq_true_2.
  - rewrite bool_decide_eq_false_2; [by apply IH|]. intros Heq. apply Hx. rewrite Heq.
    apply list_elem_of_fmap. eauto.
Qed.

Lemma upstream_state_later fin fin' ups :
  finished_ok fin → finished_ok fin' → fin ⊆ fin' →
  later (upstream_state fin <$> ups) (upstream_state fin' <$> ups).
Proof.
  intros [Hn Hf] [Hn' Hf'] Hsub. unfold later. apply Forall2_fmap, Forall_Forall2_diag, Forall_forall.
  intros u _ Hfin. unfold upstream_state at 2. unfold upstream_state at 1 in Hfin.
  destruct (List.find _ fin) as [t|] eqn:E; [|by apply (bool_decide_eq_true _) in Hfin].
  apply find_some in E as [Ht Hu]. bool_to_prop. subst u. apply find_task_unique; [done|].
  apply Hsub. by apply list_elem_of_In.
Qed.

(** When [flag_upstream_failed] makes the trigger-rule check assign a state
    to the task instance, the rule can never hold again, however the run goes
    on, with at least the same finished tasks. *)
Theorem instant_state_final dag task st st' l ups fin fin'
  (Hups : upstream_list dag task = Ok ups) (Hnd : NoDup (upstream_task_ids task))
  (Hfin : finished_tasks (ds_context st) = Some fin)
  (Hok : finished_ok fin) (Hok' : finished_ok fin') (Hsub : fin ⊆ fin')
  (Hrun : trigger_rule_statuses dag task s st = Ok (l, st'))
  (Hchg : TI.state (ds_ti st') ≠ TI.state (ds_ti st)) :
  TI.state (ds_ti st') ∈ [Some SKIPPED; Some UPSTREAM_FAILED] ∧
  ¬ rule_holds (trigger_rule task) (upstream_state fin' <$> upstream_task_ids task).
Proof.
  destruct (decide (upstream_task_ids task = [])) as [Hnil|Hne].
  { unfold trigger_rule_statuses in Hrun. rewrite Hups in Hrun. simpl in Hrun.
    rewrite bool_decide_eq_true_2 in Hrun by (by apply (get_tasks_nil _ _ _ Hups)).
    by injection Hrun as <- <-. }
  destruct (decide (trigger_rule task = ALWAYS)) as [Hr|Hr].
  { unfold trigger_rule_statuses in Hrun. rewrite Hups in Hrun. simpl in Hrun.
    rewrite bool_decide_eq_false_2 in Hrun by (intros ->; by apply Hne, (get_tasks_nil _ _ _ Hups)).
    rewrite Hr in Hrun. rewrite bool_decide_eq_true_2 in Hrun by done. by injection Hrun as <- <-. }
  rewrite (trigger_rule_statuses_eq dag task st ups fin) in Hrun by done.
  unfold _evaluate_trigger_rule in Hrun. rewrite states_count_spec in Hrun by done.
  set (sts := upstream_state fin <$> upstream_task_ids task) in *.
  replace (length (upstream_task_ids task)) with (length sts) in Hrun by apply length_fmap.
  injection Hrun as _ <-.
  destruct (flag_upstream_failed (ds_context st)); [|done].
  destruct (instant_state _ _ _) as [x|] eqn:E; [|done].
  unfold ds_set_state in *; cbn [ds_ti] in *. rewrite !state_set_state_obj in *. split.
  - destruct (trigger_rule task); cbn [instant_state] in E; repeat case_match; simplify_eq; set_solver.
  - eapply instant_state_never; [exact E|by apply upstream_state_later].
Qed.
End TriggerRuleDep.

(** ** Checks that pass *)

Section Passing.
Local Open Scope Z_scope.
Context `{Settings} (dag : DAG) (task : BaseOperator) (s : Session).

(** Contexts that differ in the cached list only. *)
Definition same_flags (c c' : DepContext) : Prop :=
  with_finished_tasks [] c = with_finished_tasks [] c'.

Lemma ds_finished_tasks_eq st l st' :
  ds_finished_tasks dag s st = (l, st') →
  ds_ti st' = ds_ti st ∧ ds_merged st' = ds_merged st ∧ same_flags (ds_context st') (ds_context st).
Proof.
  unfold ds_finished_tasks, ensure_finished_tasks.
  destruct (finished_tasks (ds_context st)); intros [= _ <-]; done.
Qed.

(** What a check may do to the task instance without [flag_upstream_failed]:
    nothing, or mark it skipped and fail. *)
Lemma get_dep_statuses_effect dep st l st' :
  flag_upstream_failed (ds_context st) = false →
  get_dep_statuses dag task s dep st = Ok (l, st') →
  same_flags (ds_context st') (ds_context st) ∧
  (ds_ti st' = ds_ti st ∧ ds_merged st' = ds_merged st ∨
   ds_ti st' = TaskInstance.set_state_obj (utcnow s) (Some SKIPPED) (ds_ti st) ∧ ds_merged st' = true ∧
   forallb passed l = false).
Proof.
  intros Hflag. unfold get_dep_statuses.
  destruct (IGNORABLE dep && _); [intros [= _ <-]; split; auto; done|].
  destruct (IS_TASK_DEP dep && _); [intros [= _ <-]; split; auto; done|].
  destruct dep; cbn [_get_dep_statuses]; try (intros [= _ <-]; split; [done|by left]).
  - intros (x & _ & [= _ <-])%result_bind_ok. split; [done|by left].
  - intros (x & _ & [= _ <-])%result_bind_ok. split; [done|by left].
  - unfold trigger_rule_statuses. intros (ups & _ & Hok)%result_bind_ok.
    do 2 (case_bool_decide; [injection Hok as _ <-; split; [done|by left]|]).
    destruct (ds_finished_tasks dag s st) as [fin st1] eqn:E.
    apply ds_finished_tasks_eq in E as (E1 & E2 & E3).
    assert (flag_upstream_failed (ds_context st1) = false) as Hf1.
    { unfold same_flags, with_finished_tasks in E3. congruence. }
    unfold _evaluate_trigger_rule in Hok. rewrite Hf1 in Hok. injection Hok as _ <-.
    split; [done|by left].
  - unfold not_previously_skipped_statuses. intros (ups & _ & Hok)%result_bind_ok.
    destruct (ds_finished_tasks dag s st) as [fin st1] eqn:E.
    apply ds_finished_tasks_eq in E as (E1 & E2 & E3).
    destruct (List.find _ _); injection Hok as <- <-.
    + split; [done|]. right. simpl. by rewrite E1.
    + split; [done|by left].
Qed.

Definition passes (ti : TaskInstance) (c : DepContext) (dep : TIDep) : Prop :=
  ∃ st l st', ds_ti st = ti ∧ same_flags (ds_context st) c ∧
    get_dep_statuses dag task s dep st = Ok (l, st') ∧ forallb passed l = true.

Lemma filter_failing_nil l : List.filter (λ x, negb (passed x)) l = [] → forallb passed l = true.
Proof. induction l as [|x l IH]; simpl; [done|]. by destruct (passed x). Qed.

(** A loop that collected no failing status met every dependency on the same
    task instance, which it left as it was. *)
Lemma failed_loop_nil ds acc st st' :
  flag_upstream_failed (ds_context st) = false →
  foldM (failed_step dag task s) ds (acc, st) = Ok ([], st') →
  acc = [] ∧ ds_ti st' = ds_ti st ∧ ds_merged st' = ds_merged st ∧
  ∀ dep, dep ∈ ds → passes (ds_ti st) (ds_context st) dep.
Proof.
  revert acc st. induction ds as [|d ds IH]; intros acc st Hflag Hf; simpl in Hf.
  { injection Hf as -> ->. split_and!; [done..|]. by intros ? ?%elem_of_nil. }
  apply result_bind_ok in Hf as ([a1 st1] & Hstep & Hf). unfold failed_step in Hstep; simpl in Hstep.
  apply result_bind_ok in Hstep as ([l st2] & Hget & [= <- <-]).
  destruct (get_dep_statuses_effect _ _ _ _ Hflag Hget) as [Hsame Heff].
  assert (flag_upstream_failed (ds_context st2) = false) as Hflag2.
  { unfold same_flags, with_finished_tasks in Hsame. congruence. }
  destruct (IH _ _ Hflag2 Hf) as (Hnil & Hti & Hm & Hpass).
  apply app_eq_nil in Hnil as [-> Hl]. apply filter_failing_nil in Hl.
  destruct Heff as [[E1 E2]|(_ & _ & ?)]; [|congruence].
  split; [done|]. split; [congruence|]. split; [congruence|].
  intros dep [->|Hd]%elem_of_cons.
  - exists st, l, st2. done.
  - destruct (Hpass dep Hd) as (x & l' & x' & Hx1 & Hx2 & Hx3 & Hx4). exists x, l', x'.
    split_and!; [congruence| |done|done]. unfold same_flags in *. congruence.
Qed.

Lemma are_dependencies_met_true st st' :
  flag_upstream_failed (ds_context st) = false →
  are_dependencies_met dag task s st = Ok (true, st') →
  ds_ti st' = ds_ti st ∧ ds_merged st' = ds_merged st ∧
  ∀ dep, dep ∈ dc_deps (ds_context st) ∨ dep ∈ deps task → passes (ds_ti st) (ds_context st) dep.
Proof.
  intros Hflag. unfold are_dependencies_met, get_failed_dep_statuses.
  intros ([l st1] & Hf & Hok)%result_bind_ok. injection Hok as Hl <-.
  apply bool_decide_eq_true, nil_length_inv in Hl as ->.
  destruct (failed_loop_nil _ _ _ _ Hflag Hf) as (_ & H1 & H2 & H3).
  split_and!; [done..|]. intros dep Hd. apply H3. unfold set_union. rewrite elem_of_app, elem_of_filterb.
  destruct (decide (dep ∈ dc_deps (ds_context st))) as [|Hn]; [by left|]. right.
  destruct Hd; [done|]. by rewrite bool_decide_eq_false_2.
Qed.

(** A failing round changes the task instance only by marking it skipped. *)
Lemma failed_loop_effect ds acc st l st' :
  flag_upstream_failed (ds_context st) = false →
  foldM (failed_step dag task s) ds (acc, st) = Ok (l, st') →
  TI._try_number (ds_ti st') = TI._try_number (ds_ti st) ∧
  TI.primary (ds_ti st') = TI.primary (ds_ti st) ∧
  (TI.state (ds_ti st') = TI.state (ds_ti st) ∨ TI.state (ds_ti st') = Some SKIPPED).
Proof.
  revert acc st. induction ds as [|d ds IH]; intros acc st Hflag Hf; simpl in Hf.
  { injection Hf as _ ->. split_and!; auto. }
  apply result_bind_ok in Hf as ([a1 st1] & Hstep & Hf). unfold failed_step in Hstep; simpl in Hstep.
  apply result_bind_ok in Hstep as ([l1 st2] & Hget & [= <- <-]).
  destruct (get_dep_statuses_effect _ _ _ _ Hflag Hget) as [Hsame Heff].
  assert (flag_upstream_failed (ds_context st2) = false) as Hflag2.
  { unfold same_flags, with_finished_tasks in Hsame. congruence. }
  destruct (IH _ _ Hflag2 Hf) as (H1 & H2 & H3).
  destruct Heff as [[E1 E2]|(E1 & _ & _)]; rewrite E1 in H1, H2, H3; [by split_and!|].
  rewrite primary_set_state_obj in H2. rewrite state_set_state_obj in H3.
  split_and!; [|done|tauto]. rewrite H1. unfold TaskInstance.set_state_obj. by destruct (_ || _).
Qed.
End Passing.

(** ** Forcing a task instance *)

Section Forced.
Local Open Scope Z_scope.
Context `{Settings} (dag : DAG) (task : BaseOperator) (s : Session).

Lemma ignored_dep dep st :
  ignore_all_deps (ds_context st) = true → IGNORABLE dep = true →
  get_dep_statuses dag task s dep st = Ok ([passing_status dep AllDepsIgnored], st).
Proof. intros Hall Hi. unfold get_dep_statuses. by rewrite Hi, Hall. Qed.

Lemma ignored_loop ds acc st :
  ignore_all_deps (ds_context st) = true →
  ∃ l, foldM (failed_step dag task s) ds (acc, st) = Ok (acc ++ l, st) ∧
       (l = [] ↔ ¬ (TaskNotRunningDep ∈ ds ∧ TI.state (ds_ti st) = Some RUNNING)).
Proof.
  intros Hall. revert acc. induction ds as [|d ds IH]; intros acc; simpl.
  { exists []. rewrite app_nil_r. split; [done|]. set_solver. }
  destruct (decide (d = TaskNotRunningDep)) as [->|Hd].
  - unfold failed_step at 1. unfold get_dep_statuses. simpl.
    unfold task_not_running_statuses. simpl. case_bool_decide as E; simpl.
    + destruct (IH (acc ++ [failing_status TaskNotRunningDep AlreadyRunning])) as (l & Hl & _).
      exists (failing_status TaskNotRunningDep AlreadyRunning :: l).
      split; [etransitivity; [exact Hl|by rewrite <-app_assoc]|]. split; [done|]. set_solver.
    + rewrite app_nil_r. destruct (IH acc) as (l & Hl & Hn). exists l. split; [done|].
      rewrite Hn. set_solver.
  - assert (failed_step dag task s (acc, st) d = Ok (acc, st)) as ->.
    { unfold failed_step. cbn [snd fst]. rewrite ignored_dep by (done || by destruct d).
      cbn. by rewrite app_nil_r. }
    cbn [mbind result_bind]. destruct (IH acc) as (l & Hl & Hn). exists l. split; [done|].
    rewrite Hn. set_solver.
Qed.

(** With [ignore_all_deps] the checks never raise and change nothing, and
    the only thing that can refuse the task instance is that it is already
    running (the one dependency that is not ignorable). *)
Lemma ignore_all_deps_correct st (Hall : ignore_all_deps (ds_context st) = true) :
  ∃ b, are_dependencies_met dag task s st = Ok (b, st) ∧
  (b = false ↔ (TaskNotRunningDep ∈ dc_deps (ds_context st) ∨ TaskNotRunningDep ∈ deps task) ∧
               TI.state (ds_ti st) = Some RUNNING).
Proof.
  unfold are_dependencies_met, get_failed_dep_statuses.
  destruct (ignored_loop (set_union (dc_deps (ds_context st)) (deps task)) [] st Hall) as (l & Hl & Hn).
  rewrite Hl. simpl. eexists. split; [done|]. rewrite bool_decide_eq_false.
  assert (length l = 0%nat ↔ l = []) as -> by (destruct l; split; done).
  rewrite Hn. unfold set_union. rewrite elem_of_app, elem_of_filterb, negb_true_iff, bool_decide_eq_false.
  destruct (decide (TaskNotRunningDep ∈ dc_deps (ds_context st))),
    (decide (TaskNotRunningDep ∈ deps task)), (decide (TI.state (ds_ti st) = Some RUNNING)); tauto.
Qed.
End Forced.

(** ** Starting an attempt *)

Section Attempt.
Local Open Scope Z_scope.
Context `{Settings} (dag : DAG) (task : BaseOperator).

Lemma passes_not_running s ti c :
  passes dag task s ti c TaskNotRunningDep → TI.state ti ≠ Some RUNNING.
Proof.
  intros (st & l & st' & <- & _ & Hget & Hp) Hrun. unfold get_dep_statuses in Hget. simpl in Hget.
  rewrite ?andb_false_r in Hget. unfold task_not_running_statuses in Hget. rewrite Hrun in Hget.
  simpl in Hget. injection Hget as <- _. done.
Qed.

Lemma passes_valid_state s ti c valid :
  ignore_all_deps c = false → ignore_ti_state c = false →
  passes dag task s ti c (ValidStateDep valid) → TI.state ti ∈ valid.
Proof.
  intros Hall Hst (st & l & st' & <- & Hc & Hget & Hp).
  unfold same_flags, with_finished_tasks in Hc. injection Hc as _ _ E1 _ _ _ _ E2.
  unfold get_dep_statuses in Hget. rewrite E1, Hall in Hget. simpl in Hget.
  unfold valid_state_statuses in Hget. rewrite E2, Hst in Hget.
  injection Hget as <- _. case_bool_decide; done.
Qed.

Lemma passes_slots s ti c :
  ignore_all_deps c = false → passes dag task s ti c DagTISlotsAvailableDep →
  get_concurrency_reached dag s = false.
Proof.
  intros Hall (st & l & st' & <- & Hc & Hget & Hp).
  unfold same_flags, with_finished_tasks in Hc. injection Hc as _ _ E1 _ _ _ _ E2.
  unfold get_dep_statuses in Hget. rewrite E1, Hall in Hget. simpl in Hget.
  unfold dag_ti_slots_available_statuses in Hget. destruct (get_concurrency_reached dag s); [|done].
  by injection Hget as <- _.
Qed.

(** The object with which the checks start: the row, with the job's fields. *)
Lemma check_rounds_true all past tdeps tstate ti s ti' s' :
  check_rounds dag task all past tdeps tstate ti s = Ok (true, ti', s') →
  s' = s ∧ ti' = TI.set_dates (TI.start_date ti') (TI.end_date ti) (TI.duration ti) ti ∧
  TI.state ti ≠ Some RUNNING ∧
  (all = false → tstate = false → TI.state ti ∈ RUNNABLE_STATES) ∧
  (all = false → get_concurrency_reached dag s = false).
Proof.
  unfold check_rounds. intros ([m1 st1] & H1 & Hok)%result_bind_ok.
  destruct m1; [|done]. simpl in Hok.
  apply are_dependencies_met_true in H1 as (E1 & E2 & P1); [|done].
  simpl in E1, E2, P1. apply result_bind_ok in Hok as ([m2 st2] & H2 & Hok).
  destruct m2; [|done]. simpl in Hok.
  apply are_dependencies_met_true in H2 as (F1 & F2 & P2); [|done].
  simpl in F1, F2, P2. injection Hok as <- <-. split; [done|]. split; [by rewrite F1, E1|].
  split; [eapply passes_not_running, P1; set_solver|]. split.
  - intros -> ->. eapply passes_valid_state; [| |apply P1; left; right; left]; done.
  - intros ->. eapply passes_slots; [|apply P2; left; left]. done.
Qed.


(** An attempt that is refused uses up no try and leaves the object in the
    state it had, skipped because a parent decided so, or without a state so
    that the scheduler takes it up again. *)
Theorem attempt_refused host all past tdeps tstate test job pool ti s row ti' s'
  (Hrow : find_ti (TI.primary ti) s = Some row)
  (Hgo : check_and_change_state_before_execution dag task host all past tdeps tstate false test
           job pool ti s = Ok (false, ti', s')) :
  TI._try_number ti' = TI._try_number row ∧
  TI.state ti' ∈ [TI.state row; Some SKIPPED; None].
Proof.
  unfold check_and_change_state_before_execution in Hgo.
  apply result_bind_ok in Hgo as (t1 & Ht1 & Hgo). apply primary_refresh_from_task in Ht1.
  unfold TaskInstance.refresh_from_db in Hgo. rewrite Ht1, Hrow in Hgo.
  apply result_bind_ok in Hgo as ([[go t2] s2] & Hr & Hgo). destruct go; [done|].
  injection Hgo as <- <-. unfold check_rounds in Hr.
  apply result_bind_ok in Hr as ([m1 st1] & Hm1 & Hr).
  unfold are_dependencies_met, get_failed_dep_statuses in Hm1.
  apply result_bind_ok in Hm1 as ([l1 st1'] & Hf1 & [= Hm1 ->]).
  apply failed_loop_effect in Hf1 as (E1 & _ & E3); [|done].
  simpl in E1, E3. destruct m1; simpl in Hr.
  - apply result_bind_ok in Hr as ([m2 st2] & Hm2 & Hr).
    unfold are_dependencies_met, get_failed_dep_statuses in Hm2.
    apply result_bind_ok in Hm2 as ([l2 st2'] & Hf2 & [= Hm2 ->]).
    apply failed_loop_effect in Hf2 as (F1 & _ & F3); [|done].
    simpl in F1, F3. destruct m2; simpl in Hr; [done|]. injection Hr as <- <-. simpl.
    split; [congruence|]. set_solver.
  - injection Hr as <- <-. split; [congruence|]. destruct E3 as [->| ->]; set_solver.
Qed.
End Attempt.

(** ** Witnesses *)

Section Witnesses.
Local Open Scope Z_scope.
Import Sample.

#[local] Instance w_settings : Settings :=
  {| ALLOW_FUTURE_EXEC_DATES := false; ti_hash := λ _, 0 |}.

Definition w_tis : list TaskInstance :=
  [mk_ti "diamond" "a" (Some SUCCESS); mk_ti "diamond" "b" (Some FAILED);
   mk_ti "diamond" "c" (Some QUEUED); mk_ti "diamond" "d" None].
Definition w_db : Session := mk_session w_tis [mk_run "diamond" DR_RUNNING].
Definition w_fin : list TaskInstance :=
  [mk_ti "diamond" "a" (Some SUCCESS); mk_ti "diamond" "b" (Some FAILED)].
Definition w_fin' : list TaskInstance := mk_ti "diamond" "c" (Some SUCCESS) :: w_fin.
Definition w_context : DepContext :=
  {| dc_deps := []; flag_upstream_failed := true; ignore_all_deps := false;
     ignore_depends_on_past := false; ignore_in_retry_period := false;
     ignore_in_reschedule_period := false; ignore_task_deps := false;
     ignore_ti_state := false; finished_tasks := Some w_fin |}.
Definition w_st : DepState :=
  {| ds_ti := mk_ti "diamond" "d" None; ds_merged := false; ds_context := w_context |}.

Lemma w_fin_ok : finished_ok w_fin.
Proof.
  split; [apply (bool_decide_unpack _); vm_compute; done|].
  intros t Ht. unfold w_fin, State.finished in *. set_solver.
Qed.

Lemma w_fin_ok' : finished_ok w_fin'.
Proof.
  split; [apply (bool_decide_unpack _); vm_compute; done|].
  intros t Ht. unfold w_fin', w_fin, State.finished in *. set_solver.
Qed.

Lemma trigger_rule_dep_correct_witness :
  ∃ b st', is_met diamond op_d w_db TriggerRuleDep w_st = Ok (b, st') ∧
  (b = true ↔ upstream_task_ids op_d = [] ∨ rule_holds ALL_SUCCESS [Some FAILED; None] ∨ all_skipped ALL_SUCCESS [Some FAILED; None]).
Proof.
  destruct (trigger_rule_dep_correct w_db diamond op_d w_st [op_b; op_c] w_fin) as (b & st' & H1 & H2 & _); [..|by exists b, st'].
  - vm_compute; reflexivity.
  - apply (bool_decide_unpack _); vm_compute; done.
  - reflexivity.
  - apply w_fin_ok.
  - reflexivity.
  - reflexivity.
Defined.

Lemma instant_state_final_witness :
  ∃ l st', trigger_rule_statuses diamond op_d w_db w_st = Ok (l, st') ∧
  TI.state (ds_ti st') ∈ [Some SKIPPED; Some UPSTREAM_FAILED] ∧
  ¬ rule_holds (trigger_rule op_d) (upstream_state w_fin' <$> upstream_task_ids op_d).
Proof.
  eexists _, _. split; [vm_compute; reflexivity|].
  eapply (instant_state_final w_db diamond op_d w_st _ _ [op_b; op_c] w_fin w_fin').
  - vm_compute; reflexivity.
  - apply (bool_decide_unpack _); vm_compute; done.
  - reflexivity.
  - apply w_fin_ok.
  - apply w_fin_ok'.
  - intros x Hx. by right.
  - vm_compute; reflexivity.
  - done.
Defined.

Lemma ignore_all_deps_correct_witness :
  let st := {| ds_ti := mk_ti "diamond" "c" (Some QUEUED); ds_merged := false;
               ds_context := check_context RUNNING_DEPS true false false false |} in
  ∃ b, are_dependencies_met diamond op_c w_db st = Ok (b, st) ∧
  (b = false ↔ (TaskNotRunningDep ∈ RUNNING_DEPS ∨ TaskNotRunningDep ∈ deps op_c) ∧
               Some QUEUED = Some RUNNING).
Proof. intros st. apply (ignore_all_deps_correct diamond op_c w_db st). reflexivity. Defined.


Lemma attempt_refused_witness :
  ∃ ti' s', check_and_change_state_before_execution diamond op_d "host" false false false false
              false false (Some 7) None (mk_ti "diamond" "d" None) w_db = Ok (false, ti', s') ∧
  TI._try_number ti' = 0 ∧ TI.state ti' ∈ [None; Some SKIPPED; None].
Proof.
  eexists _, _. split; [vm_compute; reflexivity|].
  eapply (attempt_refused diamond op_d "host" false false false false false (Some 7) None
            (mk_ti "diamond" "d" None) w_db (mk_ti "diamond" "d" None)).
  - vm_compute; reflexivity.
  - vm_compute; reflexivity.
Defined.
End Witnesses.
