(* ===== verification/Skip.v ===== *)
(** * Skip: XComs, [SkipMixin] and the branching operators

    [XCom.set] ([models/xcom.py]) and [TaskInstance.xcom_push], the decisions of
    [SkipMixin] ([models/skipmixin.py]), and [execute] of [BaseBranchOperator],
    [BranchPythonOperator], [ShortCircuitOperator], [LatestOnlyOperator],
    [BranchDateTimeOperator] and [BranchDayOfWeekOperator]
    ([operators/branch.py], [python.py], [latest_only.py], [datetime.py],
    [weekday.py]).  What the callables of the users return is an argument.

    The theorems connect the writing side to [NotPreviouslySkippedDep] of
    [TiDeps]: what a branch decided is decided again when a task is cleared. *)

From S2P Require Import Prelude State Model Sample Graph Timetable TaskInstance TiDeps DagClear.

Local Open Scope Z_scope.

Import TiDeps.

Module Skip.

(** ** XComs *)

(** The rows with a primary key. *)
Definition xcom_match (key : string) (execution_date : datetime) (tid did : string) (x : XCom) : bool :=
  (XC.key x ≟ key) && (XC.execution_date x ≟ execution_date) && (XC.task_id x ≟ tid) && (XC.dag_id x ≟ did).

(** [XCom.set]: delete, then insert. *)
Definition xcom_set (key : string) (value : list (string * list string)) (execution_date : datetime)
    (tid did : string) (s : Session) : Session :=
  with_xcom (List.filter (λ x, negb (xcom_match key execution_date tid did x)) (xcom s) ++
             [{| XC.key := key; XC.value := value; XC.timestamp := utcnow s; XC.execution_date := execution_date;
                 XC.task_id := tid; XC.dag_id := did |}]) s.

Definition xcom_push (ti : TaskInstance) (key : string) (value : list (string * list string))
    (execution_date : option datetime) (s : Session) : result Session :=
  match execution_date with
  | Some d =>
      if d <? TI.execution_date ti then Err ValueError
      else Ok (xcom_set key value d (TI.task_id ti) (TI.dag_id ti) s)
  | None => Ok (xcom_set key value (TI.execution_date ti) (TI.task_id ti) (TI.dag_id ti) s)
  end.

(** ** [SkipMixin] *)

Definition skip_row (now : datetime) (t : TaskInstance) : TaskInstance :=
  TI.set_state (Some SKIPPED) (TI.set_dates (Some now) (Some now) (TI.duration t) t).

(** [_set_state_to_skipped]; [dag] is the DAG of the tasks. *)
Definition _set_state_to_skipped (dag : DAG) (dag_run : option DagRun) (execution_date : option datetime)
    (tasks : list BaseOperator) (s : Session) : result Session :=
  let ids := task_id <$> tasks in
  let now := utcnow s in
  match dag_run with
  | Some dr =>
      Ok (with_task_instance
            (update_where (λ t, (TI.dag_id t ≟ DR.dag_id dr) && (TI.execution_date t ≟ DR.execution_date dr) &&
                                (TI.task_id t ∈? ids)) (skip_row now) (task_instance s)) s)
  | None =>
      match execution_date with
      | None => Err ValueError
      | Some d =>
          foldM (λ s task, ti ← TaskInstance.ti_init dag task d None; Ok (merge_ti (skip_row now ti) s)) tasks s
      end
  end.

(** [skip]; [self_task_id] is None for a mixin without a [task_id].  The states
    are committed before the XCom is written, so that an error there leaves
    them in place. *)
Definition skip (dag : DAG) (self_task_id : option string) (dag_run : option DagRun)
    (execution_date : option datetime) (tasks : list BaseOperator) (s : Session) : result unit * Session :=
  match tasks with
  | [] => (Ok tt, s)
  | _ =>
      match _set_state_to_skipped dag dag_run execution_date tasks s with
      | Err e => (Err e, s)
      | Ok s =>
          match self_task_id, dag_run with
          | None, _ => (Ok tt, s)
          | Some tid, None => (Err AttributeError, s)
          | Some tid, Some dr =>
              (Ok tt, xcom_set XCOM_SKIPMIXIN_KEY [(XCOM_SKIPMIXIN_SKIPPED, task_id <$> tasks)]
                        (DR.execution_date dr) tid (DR.dag_id dr) s)
          end
      end
  end.

(** The ids that a branching callable returns: one or several. *)
Inductive Branch :=
| BranchTask (tid : string)
| BranchTasks (tids : list string).

Definition branch_task_ids (b : Branch) : list string :=
  match b with BranchTask tid => [tid] | BranchTasks tids => tids end.

(** The chosen ids with everything downstream of them. *)
Definition followed_ids (dag : DAG) (ids : list string) : result (list string) :=
  foldM (λ acc bid, t ← get_task dag bid; r ← Graph.get_flat_relative_ids dag t false; Ok (acc ++ r)) ids ids.

Definition skip_all_except (dag : DAG) (task : BaseOperator) (ti : TaskInstance) (branch : Branch)
    (s : Session) : result Session :=
  let dag_run := TaskInstance.get_dagrun ti s in
  downstream_tasks ← downstream_list dag task;
  match downstream_tasks with
  | [] => Ok s
  | _ =>
      ids ← followed_ids dag (branch_task_ids branch);
      let skip_tasks := List.filter (λ t, negb (task_id t ∈? ids)) downstream_tasks in
      let follow_task_ids := task_id <$> List.filter (λ t, task_id t ∈? ids) downstream_tasks in
      s ← _set_state_to_skipped dag dag_run (Some (TI.execution_date ti)) skip_tasks s;
      xcom_push ti XCOM_SKIPMIXIN_KEY [(XCOM_SKIPMIXIN_FOLLOWED, follow_task_ids)] None s
  end.

(** ** Operators *)

(** [BaseBranchOperator.execute] and [BranchPythonOperator.execute], with what
    [choose_branch] or the callable returns. *)
Definition branch_execute (dag : DAG) (task : BaseOperator) (ti : TaskInstance) (chosen : result Branch)
    (s : Session) : result (Branch * Session) :=
  b ← chosen; s ← skip_all_except dag task ti b s; Ok (b, s).

(** [ShortCircuitOperator.execute]; [condition] is the truth of the result. *)
Definition short_circuit_execute (dag : DAG) (task : BaseOperator) (ti : TaskInstance)
    (dag_run : option DagRun) (condition : bool) (s : Session) : result unit * Session :=
  if condition then (Ok tt, s)
  else
    match Graph.get_flat_relatives dag task false with
    | Err e => (Err e, s)
    | Ok [] => (Ok tt, s)
    | Ok l => skip dag (Some (task_id task)) dag_run (Some (TI.execution_date ti)) l s
    end.

Section LatestOnly.
Context (cron_schedule : string → Timetable.Schedule).

(** [LatestOnlyOperator.choose_branch].  [pendulum.instance(None)] raises
    ValueError, comparing None with a date TypeError. *)
Definition latest_only_choose_branch (dag : DAG) (task : BaseOperator) (dag_run : option DagRun)
    (execution_date now : datetime) : result Branch :=
  if match dag_run with Some dr => DR.external_trigger dr | None => false end
  then Ok (BranchTasks (downstream_task_ids task))
  else
    left_window ← Timetable.following_schedule cron_schedule dag now execution_date;
    match left_window with
    | None => Err ValueError
    | Some l =>
        right_window ← Timetable.following_schedule cron_schedule dag now l;
        if negb (l <? now) then Ok (BranchTasks [])
        else match right_window with
             | None => Err TypeError
             | Some r => if now <=? r then Ok (BranchTasks (downstream_task_ids task)) else Ok (BranchTasks [])
             end
    end.
End LatestOnly.

(** A bound of [BranchDateTimeOperator]: a datetime or a time of the day. *)
Inductive Target :=
| TargetDate (d : datetime)
| TargetTime (t : timedelta).

Definition day : timedelta := 86400000000.

(** [datetime.combine(base_date, t)]. *)
Definition combine (base_date : datetime) (t : timedelta) : datetime := base_date / day * day + t.

Definition target_date (base_date : datetime) (t : Target) : datetime :=
  match t with TargetDate d => d | TargetTime t => combine base_date t end.

Definition target_times_as_dates (base_date : datetime) (lower upper : option Target)
    : option datetime * option datetime :=
  match lower, upper with
  | Some (TargetDate l), Some (TargetDate u) => (Some l, Some u)
  | _, _ =>
      match target_date base_date <$> lower, target_date base_date <$> upper with
      | Some l, Some u => (Some l, Some (if u <? l then u + day else u))
      | l, u => (l, u)
      end
  end.

(** [BranchDateTimeOperator.__init__] and [choose_branch]; [now] is naive, in
    the DAG's time zone. *)
Record BranchDateTimeOperator := {
  follow_task_ids_if_true : Branch;
  follow_task_ids_if_false : Branch;
  target_lower : option Target;
  target_upper : option Target;
}.

Definition branch_datetime_init (t f : Branch) (lower upper : option Target) : result BranchDateTimeOperator :=
  match lower, upper with
  | None, None => Err AirflowException
  | _, _ => Ok {| follow_task_ids_if_true := t; follow_task_ids_if_false := f;
                  target_lower := lower; target_upper := upper |}
  end.

Definition branch_datetime_choose (op : BranchDateTimeOperator) (now : datetime) : Branch :=
  let '(lower, upper) := target_times_as_dates now (target_lower op) (target_upper op) in
  if match upper with Some u => u <? now | None => false end then follow_task_ids_if_false op
  else if match lower with Some l => now <? l | None => false end then follow_task_ids_if_false op
  else follow_task_ids_if_true op.

(** [BranchDayOfWeekOperator.choose_branch]; the days are those of
    [isoweekday], 1 for Monday.  1970-01-01 was a Thursday. *)
Definition isoweekday (d : datetime) : Z := (d / day + 3) mod 7 + 1.

Definition branch_weekday_choose (week_days : list Z) (t f : Branch) (now : datetime) : Branch :=
  if isoweekday now ∈? week_days then t else f.

End Skip.
Import Graph Timetable TaskInstance Skip.

(** ** XComs round trip *)

Lemma py_sorted_singleton {A} (leb : A → A → bool) x : py_sorted leb [x] = [x].
Proof. done. Qed.

Lemma xcom_set_get key value d tid did s : xcom_get_many d key tid did (xcom_set key value d tid did s) =
  [{| XC.key := key; XC.value := value; XC.timestamp := utcnow s; XC.execution_date := d;
      XC.task_id := tid; XC.dag_id := did |}].
Proof.
  unfold xcom_get_many, xcom_set. cbn [with_xcom xcom]. rewrite List.filter_app. cbn [List.filter XC.key XC.task_id XC.dag_id XC.execution_date].
  rewrite !bool_decide_eq_true_2 by done. cbn [andb].
  rewrite filterb_none; [apply py_sorted_singleton|].
  intros x [Hx _]%elem_of_filterb. apply negb_true_iff in Hx. unfold xcom_match in Hx.
  by destruct (XC.key x ≟ key), (XC.execution_date x ≟ d), (XC.task_id x ≟ tid), (XC.dag_id x ≟ did).
Qed.

(** What was pushed last is what is pulled. *)
Lemma xcom_push_pull ti key value s s' ti' :
  xcom_push ti key value None s = Ok s' → TI.dag_id ti' = TI.dag_id ti →
  TI.execution_date ti' = TI.execution_date ti → xcom_pull (TI.task_id ti) key ti' s' = Some value.
Proof. intros [= <-] Hd He. unfold xcom_pull. rewrite Hd, He, xcom_set_get. done. Qed.

(** Other keys, tasks and runs keep what they have. *)
Lemma xcom_set_frame key value d tid did s key' d' tid' did' :
  (key', d', tid', did') ≠ (key, d, tid, did) →
  xcom_get_many d' key' tid' did' (xcom_set key value d tid did s) = xcom_get_many d' key' tid' did' s.
Proof.
  intros Hne. unfold xcom_get_many, xcom_set. cbn [with_xcom xcom]. f_equal. rewrite List.filter_app, filter_filterb.
  cbn [List.filter XC.key XC.task_id XC.dag_id XC.execution_date].
  assert ((key ≟ key') && (tid ≟ tid') && (did ≟ did') && (d ≟ d') = false) as ->.
  { apply not_true_iff_false. rewrite !andb_true_iff, !bool_decide_eq_true. naive_solver. }
  rewrite app_nil_r. apply List.filter_ext_in. intros x _.
  destruct (xcom_match key d tid did x) eqn:E; [|done]. cbn [negb andb]. symmetry.
  unfold xcom_match in E. rewrite !andb_true_iff, !bool_decide_eq_true in E.
  apply not_true_iff_false. rewrite !andb_true_iff, !bool_decide_eq_true. naive_solver.
Qed.

(** ** What branching follows *)

Section BranchFacts.
Context (dag : DAG) (Hwf : graph_wf dag).

(** A chosen task, or one downstream of it. *)
Definition followed (ids : list string) (x : string) : Prop :=
  ∃ b, b ∈ ids ∧ (x = b ∨ tc (edge dag false) b x).

Lemma relative_of_tc up t x : t ∈ task_dict dag → relative_of dag up t x ↔ tc (edge dag up) (task_id t) x.
Proof.
  intros Ht. pose proof (lookup_task_elem dag Hwf t Ht) as Hl. split.
  - intros (y & Hy & Hr). eapply tc_rtc_r; [|exact Hr]. constructor. exists t. done.
  - intros H. assert (∃ y, edge dag up (task_id t) y ∧ rtc (edge dag up) y x) as (y & (t' & Hl' & Hy) & Hr).
    { destruct H as [? y He|? y z He Hr]; exists y; split; try done. by apply tc_rtc. }
    exists y. split; [congruence|done].
Qed.

Lemma followed_fold ids acc : outcome
  (λ r, ids ⊆ task_ids dag ∧ ∀ x, x ∈ r ↔ x ∈ acc ∨ ∃ b, b ∈ ids ∧ tc (edge dag false) b x)
  (λ e, e = TaskNotFound ∧ ∃ b, b ∈ ids ∧ b ∉ task_ids dag)
  (foldM (λ acc bid, t ← get_task dag bid; r ← Graph.get_flat_relative_ids dag t false; Ok (acc ++ r)) ids acc).
Proof.
  revert acc. induction ids as [|b ids IH]; intros acc; cbn [foldM].
  { split; [set_solver|]. set_solver. }
  unfold get_task. destruct (lookup_task dag b) as [t|] eqn:Hb; cbn [mbind result_bind].
  - pose proof (lookup_task_Some _ _ _ Hb) as [Ht <-].
    destruct (flat_relative_ids_spec dag t false Hwf Ht) as (r & -> & _ & Hr). cbn [mbind result_bind].
    setoid_rewrite (relative_of_tc false t _ Ht) in Hr.
    specialize (IH (acc ++ r)). destruct (foldM _ _ _) as [r'|e]; cbn [outcome] in *.
    + destruct IH as [Hs IH]. split.
      * intros x [->|Hx]%elem_of_cons; [apply list_elem_of_fmap; eauto|by apply Hs].
      * intros x. rewrite IH, elem_of_app, Hr. setoid_rewrite elem_of_cons. naive_solver.
    + destruct IH as [-> (b & Hb' & Hn)]. split; [done|]. exists b. split; [by right|done].
  - cbn [outcome]. split; [done|]. exists b. split; [left|]. by apply lookup_task_None.
Qed.

Lemma followed_ids_spec ids : outcome
  (λ r, ids ⊆ task_ids dag ∧ ∀ x, x ∈ r ↔ followed ids x)
  (λ e, e = TaskNotFound ∧ ∃ b, b ∈ ids ∧ b ∉ task_ids dag) (followed_ids dag ids).
Proof.
  pose proof (followed_fold ids ids) as H. unfold followed_ids. destruct (foldM _ _ _); [|done]. cbn [outcome] in *.
  destruct H as [Hs H]. split; [done|]. intros x. rewrite H. unfold followed. naive_solver.
Qed.
End BranchFacts.

(** ** Branching, and the check that repeats its decision *)

(** A row of the task instance's run. *)
Definition in_run (ti r : TaskInstance) : Prop :=
  TI.dag_id r = TI.dag_id ti ∧ TI.execution_date r = TI.execution_date ti.

(** The rows of the run whose task is in [S] become skipped, the others stay. *)
Definition exactly_skipped (ti : TaskInstance) (S : string → Prop) (s s' : Session) : Prop :=
  dag_run s' = dag_run s ∧ task_reschedule s' = task_reschedule s ∧
  Forall2 (λ r r', (in_run ti r ∧ S (TI.task_id r) → r' = skip_row (utcnow s) r) ∧
                   (¬ (in_run ti r ∧ S (TI.task_id r)) → r' = r)) (task_instance s) (task_instance s').

(** A check of task [c] in the run, by a context that ignores nothing and in
    which the task [t] is among the finished ones, skips the task instance. *)
Definition skipped_again (dag : DAG) (t c : BaseOperator) (ti : TaskInstance) (s : Session) : Prop :=
  ∀ st, TI.task_id (ds_ti st) = task_id c → in_run ti (ds_ti st) →
    task_id t ∈ (TI.task_id <$> (ds_finished_tasks dag s st).1) →
    ∃ p st', not_previously_skipped_statuses dag c s st =
             Ok ([failing_status NotPreviouslySkippedDep (SkippedByParent p)], st') ∧
             TI.state (ds_ti st') = Some SKIPPED.

Lemma set_skipped_exactly dag ti dr tasks s s' (S : string → Prop) :
  get_dagrun ti s = Some dr → (∀ x, x ∈ (task_id <$> tasks) ↔ S x) →
  _set_state_to_skipped dag (Some dr) (Some (TI.execution_date ti)) tasks s = Ok s' →
  exactly_skipped ti S s s' ∧ utcnow s' = utcnow s.
Proof.
  intros [Hin Hk]%List.find_some HS [= <-]. unfold exactly_skipped. cbn [with_task_instance dag_run task_reschedule task_instance utcnow].
  split; [|done]. split; [done|]. split; [done|]. rewrite andb_true_iff, !bool_decide_eq_true in Hk. destruct Hk as [Hd He].
  unfold update_where. apply Forall2_fmap_r, Forall_Forall2_diag, Forall_forall. intros r _.
  assert ((TI.dag_id r ≟ DR.dag_id dr) && (TI.execution_date r ≟ DR.execution_date dr) && (TI.task_id r ∈? (task_id <$> tasks)) = true
          ↔ in_run ti r ∧ S (TI.task_id r)) as Hiff.
  { rewrite !andb_true_iff, !bool_decide_eq_true, HS. unfold in_run. rewrite Hd, He. done. }
  split; intros HH.
  - by rewrite (proj2 Hiff HH).
  - rewrite <-Hiff, not_true_iff_false in HH. by rewrite HH.
Qed.

(** The parent that decided is found. *)
Lemma skipped_by_again dag t c ti s :
  graph_wf dag → t ∈ task_dict dag → c ∈ task_dict dag → task_id c ∈ downstream_task_ids t →
  (∀ fin ti', task_id t ∈ (TI.task_id <$> fin) → in_run ti ti' → TI.task_id ti' = task_id c →
     skipped_by fin ti' s t = true) →
  skipped_again dag t c ti s.
Proof.
  intros Hwf Ht Hc Hd Hs st Hid Hrun Hfin.
  destruct (upstream_list_spec dag Hwf c Hc) as (ups & Hups & Hin).
  unfold not_previously_skipped_statuses. rewrite Hups. cbn [mbind result_bind].
  destruct (ds_finished_tasks dag s st) as [fin st'] eqn:E. cbn [fst] in Hfin.
  assert (ds_ti st' = ds_ti st) as Hti by (unfold ds_finished_tasks in E; destruct (ensure_finished_tasks _ _ _ _); by injection E as <- <-).
  rewrite <-Hti in Hid, Hrun.
  destruct (List.find _ ups) as [p|] eqn:Ef.
  - exists (task_id p), (ds_set_state (utcnow s) SKIPPED st'). split; [done|]. apply state_set_state_obj.
  - exfalso. assert (t ∈ ups) as Htu.
    { apply Hin. split; [done|]. by apply (wf_symmetric dag Hwf c t). }
    pose proof (List.find_none _ _ Ef t) as Hf. cbv beta in Hf. rewrite Hs in Hf by done.
    by discriminate Hf; apply list_elem_of_In.
Qed.

Lemma skip_all_except_spec dag task ti branch s dr :
  graph_wf dag → task ∈ task_dict dag → TI.task_id ti = task_id task → get_dagrun ti s = Some dr →
  outcome
    (λ s', let skipped x := x ∈ downstream_task_ids task ∧ ¬ followed dag (branch_task_ids branch) x in
       exactly_skipped ti skipped s s' ∧
       (∀ fin ti', is_SkipMixin task = true → task_id task ∈ (TI.task_id <$> fin) → in_run ti ti' →
          TI.task_id ti' ∈ downstream_task_ids task →
          skipped_by fin ti' s' task = true ↔ skipped (TI.task_id ti')))
    (λ e, e = TaskNotFound ∧ downstream_task_ids task ≠ [] ∧ ∃ b, b ∈ branch_task_ids branch ∧ b ∉ task_ids dag)
    (skip_all_except dag task ti branch s).
Proof.
  intros Hwf Ht Htid Hdr. unfold skip_all_except.
  destruct (get_tasks_ok dag (downstream_task_ids task)) as (ds & Hds & Hids); [|done|].
  { intros x Hx. by eapply (wf_closed dag Hwf task false). }
  unfold downstream_list. rewrite Hds. cbn [mbind result_bind].
  destruct ds as [|d ds]; [|remember (d :: ds) as l eqn:El].
  { cbn in Hids. rewrite <-Hids. cbn [outcome]. split.
    - split; [done|]. split; [done|]. apply Forall_Forall2_diag, Forall_forall. intros r _. split; [|done].
      intros (_ & ?%elem_of_nil & _). done.
    - intros fin ti' _ _ _ ?%elem_of_nil. done. }
  pose proof (followed_ids_spec dag Hwf (branch_task_ids branch)) as Hf.
  destruct (followed_ids dag _) as [ids|e]; cbn [mbind result_bind outcome] in *; subst l; cbn [mbind result_bind outcome];
    [|destruct Hf as [-> Hb]; split; [done|]; split; [by rewrite <-Hids|done]].
  destruct Hf as [_ Hf]. rewrite Hdr. set (l := d :: ds) in *.
  destruct (_set_state_to_skipped dag _ _ _ s) as [s1|e] eqn:Es; [|done].
  cbn [mbind result_bind]. destruct (xcom_push _ _ _ _ s1) as [s'|] eqn:Ep; [|done]. cbn [outcome].
  assert (∀ x (p : string → bool), x ∈ (task_id <$> List.filter (λ t, p (task_id t)) l) ↔ x ∈ downstream_task_ids task ∧ p x = true) as Hfil.
  { intros x p. rewrite <-Hids, !list_elem_of_fmap. setoid_rewrite elem_of_filterb. naive_solver. }
  eapply (set_skipped_exactly dag ti dr _ s s1 (λ x, x ∈ downstream_task_ids task ∧ ¬ followed dag (branch_task_ids branch) x)) in Es
    as [He Hnow]; [|done|]; cycle 1.
  { intros x. pose proof (Hfil x (λ y, negb (y ∈? ids))) as Hx. etrans; [exact Hx|]. rewrite negb_true_iff, bool_decide_eq_false, Hf. done. }
  split.
  - injection Ep as <-. unfold exactly_skipped in *. exact He.
  - intros fin ti' Hsm Hfin [Hd Hx] Hdn. unfold skipped_by. rewrite Hsm, bool_decide_eq_true_2 by done. cbn [andb].
    rewrite <-Htid, (xcom_push_pull _ _ _ _ _ ti' Ep Hd Hx). unfold should_skip.
    cbn [dict_get XCOM_SKIPMIXIN_FOLLOWED]. unfold dict_get. cbn [List.find fst snd]. rewrite bool_decide_eq_true_2 by done.
    cbn [fmap option_fmap option_map snd]. rewrite <-(Hf (TI.task_id ti')).
    pose proof (Hfil (TI.task_id ti') (λ y, y ∈? ids)) as Hfol. cbv beta in Hfol.
    destruct (TI.task_id ti' ∈? (task_id <$> _)) eqn:Em; cbn [negb].
    + apply bool_decide_eq_true, Hfol in Em as [_ Em%bool_decide_eq_true]. split; [done|naive_solver].
    + split; [intros _|done]. split; [done|]. intros Hm.
      apply bool_decide_eq_false in Em. apply Em, Hfol. split; [done|]. by apply bool_decide_eq_true.
Qed.

(** A branching operator raises TaskNotFound, and only then, when it has
    downstream tasks and chose an id that is not a task of the DAG.  Otherwise
    exactly the rows of its run for direct downstream tasks that are neither
    chosen nor downstream of a chosen task become skipped; and when such a task
    is cleared and checked again, [NotPreviouslySkippedDep] skips it again,
    while the branch is no reason to skip a task it followed. *)
Theorem skip_all_except_correct dag task ti branch s dr
  (Hwf : graph_wf dag) (Ht : task ∈ task_dict dag) (Hsm : is_SkipMixin task = true)
  (Hid : TI.task_id ti = task_id task) (Hdr : get_dagrun ti s = Some dr) :
  match skip_all_except dag task ti branch s with
  | Ok s' =>
      let skipped x := x ∈ downstream_task_ids task ∧ ¬ followed dag (branch_task_ids branch) x in
      exactly_skipped ti skipped s s' ∧
      (∀ c, c ∈ task_dict dag → skipped (task_id c) → skipped_again dag task c ti s') ∧
      (∀ fin ti', in_run ti ti' → TI.task_id ti' ∈ downstream_task_ids task →
         followed dag (branch_task_ids branch) (TI.task_id ti') → skipped_by fin ti' s' task = false)
  | Err e => e = TaskNotFound ∧ downstream_task_ids task ≠ [] ∧
             ∃ b, b ∈ branch_task_ids branch ∧ b ∉ task_ids dag
  end.
Proof.
  pose proof (skip_all_except_spec dag task ti branch s dr Hwf Ht Hid Hdr) as H.
  destruct (skip_all_except dag task ti branch s) as [s'|e]; [|exact H]. cbn [outcome] in H.
  destruct H as [He Hs]. split; [exact He|]. split.
  - intros c Hc [Hd Hn]. apply skipped_by_again; [done..|]. intros fin ti' Hfin Hrun Hti.
    apply Hs; [done..|by rewrite Hti|]. by rewrite Hti.
  - intros fin ti' Hrun Hd Hf. apply not_true_iff_false. intros Hb.
    assert (task_id task ∈ (TI.task_id <$> fin)) as Hfin.
    { unfold skipped_by in Hb. rewrite !andb_true_iff, bool_decide_eq_true in Hb. tauto. }
    apply Hs in Hb; [|done..]. naive_solver.
Qed.

Lemma skip_spec dag t ti dr (l : list BaseOperator) s s' r (S : string → Prop) :
  l ≠ [] → get_dagrun ti s = Some dr → (∀ x, x ∈ (task_id <$> l) ↔ S x) →
  skip dag (Some (task_id t)) (Some dr) (Some (TI.execution_date ti)) l s = (r, s') →
  r = Ok tt ∧ exactly_skipped ti S s s' ∧
  ∀ fin ti', is_SkipMixin t = true → task_id t ∈ (TI.task_id <$> fin) → in_run ti ti' →
    skipped_by fin ti' s' t = true ↔ S (TI.task_id ti').
Proof.
  intros Hne Hdr HS. unfold skip. destruct l as [|x l]; [done|]. set (k := x :: l) in *.
  destruct (_set_state_to_skipped dag (Some dr) _ k s) as [s1|e] eqn:Es; [|done].
  intros [= <- <-]. split; [done|]. split.
  - by apply (set_skipped_exactly dag ti dr k s s1 S) in Es as [He _].
  - intros fin ti' Hsm Hfin [Hd Hx]. apply List.find_some in Hdr as [_ Hk].
    rewrite andb_true_iff, !bool_decide_eq_true in Hk. destruct Hk as [Hd' Hx'].
    unfold skipped_by, xcom_pull. rewrite Hsm, bool_decide_eq_true_2 by done. cbn [andb].
    rewrite Hd, Hx, <-Hd', <-Hx', xcom_set_get. cbn [head fmap option_fmap option_map XC.value].
    unfold should_skip, dict_get. cbn [List.find fst snd]. rewrite bool_decide_eq_false_2 by done.
    cbn [fmap option_fmap option_map]. rewrite bool_decide_eq_true_2 by done. cbn [fmap option_fmap option_map snd].
    by rewrite bool_decide_eq_true.
Qed.

(** A short-circuit operator whose condition holds changes nothing; otherwise it
    skips exactly the tasks downstream of it, direct or not, in its run, and
    its direct downstream tasks are skipped again after they are cleared. *)
Theorem short_circuit_correct dag task ti condition s dr
  (Hwf : graph_wf dag) (Ht : task ∈ task_dict dag) (Hsm : is_SkipMixin task = true)
  (Hdr : get_dagrun ti s = Some dr) :
  let '(r, s') := short_circuit_execute dag task ti (Some dr) condition s in
  r = Ok tt ∧
  if condition then s' = s
  else exactly_skipped ti (relative_of dag false task) s s' ∧
       ∀ c, c ∈ task_dict dag → task_id c ∈ downstream_task_ids task → skipped_again dag task c ti s'.
Proof.
  unfold short_circuit_execute. destruct condition; [done|].
  destruct (get_flat_relatives_spec dag Hwf task false Ht) as (l & -> & Hl).
  assert (∀ x, x ∈ (task_id <$> l) ↔ relative_of dag false task x) as HS.
  { intros x. rewrite list_elem_of_fmap. setoid_rewrite Hl. split; [naive_solver|]. intros Hx.
    destruct (task_ids_lookup dag Hwf x) as [u Hu].
    - apply (relative_of_tc dag Hwf) in Hx; [|done]. by eapply (tc_edge_target dag false).
    - apply lookup_task_Some in Hu as [Hu <-]. naive_solver. }
  destruct l as [|u l].
  - split; [done|]. split.
    + split; [done|]. split; [done|]. apply Forall_Forall2_diag, Forall_forall. intros r _. split; [|done].
      intros [_ ?%HS%elem_of_nil]. done.
    + intros c _ Hc. assert (relative_of dag false task (task_id c)) as ?%HS%elem_of_nil; [|done].
      exists (task_id c). split; [done|constructor].
  - destruct (skip _ _ _ _ _ _) as [r s'] eqn:Es. apply (skip_spec dag task ti dr _ _ _ _ _) with (2 := Hdr) (3 := HS) in Es
      as (-> & He & Hs); [|done]. split; [done|]. split; [exact He|].
    intros c Hc Hd. apply skipped_by_again; [done..|]. intros fin ti' Hfin Hrun Hti. apply Hs; [done..|].
    rewrite Hti. exists (task_id c). split; [done|constructor].
Qed.

(** ** Windows of time *)

(** Two dates, or two times of the day in order: the true branch is followed
    exactly inside the closed window. *)
Lemma branch_datetime_window t f l u now :
  branch_datetime_init t f (Some l) (Some u) = Ok {| follow_task_ids_if_true := t; follow_task_ids_if_false := f;
    target_lower := Some l; target_upper := Some u |} ∧
  (target_date now l ≤ target_date now u →
   branch_datetime_choose {| follow_task_ids_if_true := t; follow_task_ids_if_false := f;
     target_lower := Some l; target_upper := Some u |} now =
   if (target_date now l <=? now) && (now <=? target_date now u) then t else f).
Proof.
  split; [done|]. intros Hle. unfold branch_datetime_choose, target_times_as_dates.
  cbn [target_lower target_upper follow_task_ids_if_true follow_task_ids_if_false fmap option_fmap option_map].
  destruct l, u; cbn [target_date] in *; try (rewrite (proj2 (Z.ltb_ge _ _) Hle));
    repeat case_match; lia || done.
Qed.

(** ** Samples *)

Module SkipSample.

(** br -> a -> join, br -> b -> join, br -> join. *)
Definition branching (t : BaseOperator) : BaseOperator :=
  {| task_id := task_id t; task_type := "BranchPythonOperator"; retries := 1;
     retry_delay := 300000000; retry_exponential_backoff := false; max_retry_delay := None;
     op_start_date := Some 0; op_end_date := None; depends_on_past := false;
     wait_for_downstream := false; trigger_rule := ALL_SUCCESS; op_priority_weight := 1;
     weight_rule := DOWNSTREAM; op_queue := "default"; op_pool := "default_pool";
     op_pool_slots := 1; task_concurrency := None; on_execute_callback := false;
     on_success_callback := false; inherits_from_dummy_operator := false;
     is_SkipMixin := true; op_executor_config := ""; deps := deps t;
     upstream_task_ids := upstream_task_ids t; downstream_task_ids := downstream_task_ids t |}.

Definition br : BaseOperator := branching (Sample.mk_op "br" ALL_SUCCESS [] ["a"; "b"; "join"]).
Definition br_dag : DAG := Sample.mk_dag "diamond"
  [br; Sample.mk_op "a" ALL_SUCCESS ["br"] ["join"]; Sample.mk_op "b" ALL_SUCCESS ["br"] ["join"];
   Sample.mk_op "join" NONE_FAILED ["br"; "a"; "b"] []].

Definition br_ti : TaskInstance := Sample.mk_ti "diamond" "br" (Some RUNNING).
Definition br_run : DagRun := Sample.mk_run "diamond" DR_RUNNING.
Definition br_session : Session :=
  Sample.mk_session (br_ti :: ((λ x, Sample.mk_ti "diamond" x None) <$> ["a"; "b"; "join"])) [br_run].

Lemma br_dag_wf : graph_wf br_dag.
Proof. apply graph_wfb_sound. by vm_compute. Qed.

(** Choosing a follows a and join, and skips b. *)
Example branch_states :
  (λ s, TI.state <$> task_instance s) <$> skip_all_except br_dag br br_ti (BranchTask "a") br_session =
  Ok [Some RUNNING; None; Some SKIPPED; None].
Proof. by vm_compute. Qed.

Example branch_unknown : skip_all_except br_dag br br_ti (BranchTask "x") br_session = Err TaskNotFound.
Proof. by vm_compute. Qed.

Lemma skip_all_except_correct_witness :
  match skip_all_except br_dag br br_ti (BranchTask "a") br_session with
  | Ok s' => skipped_again br_dag br (Sample.mk_op "b" ALL_SUCCESS ["br"] ["join"]) br_ti s'
  | Err _ => False
  end.
Proof.
  pose proof (skip_all_except_correct br_dag br br_ti (BranchTask "a") br_session br_run br_dag_wf
    (list_elem_of_here _ _) eq_refl eq_refl eq_refl) as H.
  destruct (skip_all_except br_dag br br_ti (BranchTask "a") br_session) as [s'|] eqn:E.
  - destruct H as (_ & H & _). apply H; [right; right; left|].
    split; [apply (bool_decide_unpack _); by vm_compute|].
    pose proof (followed_ids_spec br_dag br_dag_wf ["a"]) as Hf.
    assert (followed_ids br_dag ["a"] = Ok ["a"; "join"]) as Ef by (by vm_compute).
    rewrite Ef in Hf. destruct Hf as [_ Hf]. cbn [branch_task_ids task_id Sample.mk_op]. rewrite <-Hf.
    apply (bool_decide_unpack _). by vm_compute.
  - clear H. vm_compute in E. discriminate E.
Defined.

Lemma short_circuit_correct_witness :
  (short_circuit_execute br_dag br br_ti (Some br_run) false br_session).1 = Ok tt.
Proof.
  pose proof (short_circuit_correct br_dag br br_ti false br_session br_run br_dag_wf
    (list_elem_of_here _ _) eq_refl eq_refl) as H.
  destruct (short_circuit_execute _ _ _ _ _ _) as [r s']. by destruct H as [-> _].
Defined.

(** A window from 23:00 to 01:00 does not contain 00:30 of either day. *)
Example window_over_midnight :
  let hours n := n * 3600000000 in
  branch_datetime_choose {| follow_task_ids_if_true := BranchTask "in"; follow_task_ids_if_false := BranchTask "out";
    target_lower := Some (TargetTime (hours 23)); target_upper := Some (TargetTime (hours 1)) |}
    (5 * day + hours 1 / 2) = BranchTask "out".
Proof. by vm_compute. Qed.

(** In the one run of an [@once] DAG the operator raises. *)
Example latest_only_once :
  latest_only_choose_branch (λ _, Timetable.DeltaSchedule 1)
    {| dag_id := "once"; task_dict := [br]; schedule_interval := Some (ScheduleCron "@once");
       dag_start_date := Some 0; dag_end_date := None; catchup := true;
       max_active_tasks := 16; max_active_runs := 16; partial := false; fileloc := "dag.py";
       has_on_success_callback := false; has_on_failure_callback := false; dagrun_timeout := None |}
    br (Some br_run) 0 1000 = Err ValueError.
Proof. by vm_compute. Qed.

End SkipSample.
