(* ===== verification/DagRun.v ===== *)
(** * DagRun: the scheduling decisions of a dag run

    [DagRun.update_state], [task_instance_scheduling_decisions], [_get_ready_tis],
    [_are_premature_tis], [schedule_tis] and [verify_integrity]
    ([models/dagrun.py]).

    The task instances of the run are objects attached to one database session
    that does not flush by itself: a check that sets a state changes the object,
    every list that holds the object sees it, and the row is written when the
    session commits.  An attached object is an [Attached]: the row as it was
    loaded and the object as it is.  Lists of task instances of the run hold task
    ids, which name the objects.  The metrics ([Stats]) are not modelled. *)

From S2P Require Import Prelude State Model Sample Graph DagRunQuery TaskInstance PoolSlots TiDeps.

Module DagRun.
Local Open Scope Z_scope.
Import TiDeps.

(** ** Attached objects *)

Record Attached := {
  loaded : TaskInstance;
  current : TaskInstance;
}.

Definition attach (t : TaskInstance) : Attached := {| loaded := t; current := t |}.

Definition lookup_obj (objs : list Attached) (tid : string) : option Attached :=
  List.find (λ a, TI.task_id (current a) ≟ tid) objs.

Definition set_obj (t : TaskInstance) (objs : list Attached) : list Attached :=
  (λ a, if TI.task_id (current a) ≟ TI.task_id t then {| loaded := loaded a; current := t |} else a)
    <$> objs.

(** Flushing writes the columns that changed since the row was loaded. *)
Definition flush_row (a : Attached) (row : TaskInstance) : TaskInstance :=
  let pick {A} `{EqDecision A} (col : TaskInstance → A) : A :=
    if col (current a) ≟ col (loaded a) then col row else col (current a) in
  TI.set_dates (pick TI.start_date) (pick TI.end_date) (pick TI.duration)
    (TI.set_state (pick TI.state) row).

(** [session.commit()] with these objects attached. *)
Definition commit (objs : list Attached) (s : Session) : Session :=
  foldl (λ s a, with_task_instance
                  (update_where (same_ti (loaded a)) (flush_row a) (task_instance s)) s) s objs.

(** ** The decisions *)

Record TISchedulingDecision := {
  tis : list Attached;
  schedulable_tis : list string;
  changed_tis : bool;
  unfinished_tasks : list string;
  sd_finished_tasks : list TaskInstance;
}.

Section Decisions.
Context `{Settings} (dag : DAG) (dr : DagRun).

(** The loop that finds the task of each object, and marks as removed (and
    flushes) those whose task is gone. *)
Definition mark_removed (st : list Attached * Session) (ti : TaskInstance)
    : list Attached * Session :=
  let '(objs, s) := st in
  if has_task dag (TI.task_id ti) then (objs ++ [attach ti], s)
  else
    let ti := TI.set_state (Some REMOVED) ti in
    (objs ++ [attach ti], merge_ti ti s).

Definition load_tis (s : Session) : list Attached * Session :=
  foldl mark_removed ([], s) (DagRunQuery.get_task_instances dr State.task_states (Some dag) s).

Definition ready_context (fin : list TaskInstance) : DepContext :=
  {| dc_deps := []; flag_upstream_failed := true; ignore_all_deps := false;
     ignore_depends_on_past := false; ignore_in_retry_period := false;
     ignore_in_reschedule_period := false; ignore_task_deps := false;
     ignore_ti_state := false; finished_tasks := Some fin |}.

Definition premature_context (fin : list TaskInstance) : DepContext :=
  {| dc_deps := []; flag_upstream_failed := true; ignore_all_deps := false;
     ignore_depends_on_past := false; ignore_in_retry_period := true;
     ignore_in_reschedule_period := true; ignore_task_deps := false;
     ignore_ti_state := false; finished_tasks := Some fin |}.

(** [ti.are_dependencies_met(...)] on an attached object. *)
Definition check_obj (c : DepContext) (s : Session) (tid : string) (objs : list Attached)
    : result (bool * list Attached) :=
  task ← get_task dag tid;
  match lookup_obj objs tid with
  | None => Err KeyError
  | Some a =>
      '(met, st) ← are_dependencies_met dag task s
                     {| ds_ti := current a; ds_merged := false; ds_context := c |};
      Ok (met, set_obj (ds_ti st) objs)
  end.

Record ReadyState := {
  rs_objs : list Attached;
  ready_tis : list string;
  old_states : list (string * option TaskInstanceState);
}.

Definition ready_step (fin : list TaskInstance) (s : Session) (st : ReadyState) (tid : string)
    : result ReadyState :=
  let old_state := match lookup_obj (rs_objs st) tid with
                   | Some a => TI.state (current a) | None => None end in
  '(met, objs) ← check_obj (ready_context fin) s tid (rs_objs st);
  Ok (if (met : bool)
      then {| rs_objs := objs; ready_tis := ready_tis st ++ [tid]; old_states := old_states st |}
      else {| rs_objs := objs; ready_tis := ready_tis st;
              old_states := old_states st ++ [(tid, old_state)] |}).

(** Whether a task instance that is not ready changed its state: the rows of
    [old_states] are queried, and come back as the attached objects. *)
Definition states_changed (st : ReadyState) (s : Session) : bool :=
  match TaskInstance.filter_for_tis
          ((λ e, (DR.dag_id dr, e.1, DR.execution_date dr)) <$> old_states st) with
  | None => false
  | Some f =>
      existsb (λ row,
        match lookup_obj (rs_objs st) (TI.task_id row),
              List.find (λ e, e.1 ≟ TI.task_id row) (old_states st) with
        | Some a, Some e => negb (TI.state (current a) ≟ e.2)
        | _, _ => false
        end) (List.filter f (task_instance s))
  end.

Definition _get_ready_tis (scheduleable : list string) (fin : list TaskInstance)
    (objs : list Attached) (s : Session) : result (list string * bool * list Attached) :=
  match scheduleable with
  | [] => Ok ([], false, objs)
  | _ =>
      st ← foldM (ready_step fin s) scheduleable
             {| rs_objs := objs; ready_tis := []; old_states := [] |};
      Ok (ready_tis st, states_changed st s, rs_objs st)
  end.

Fixpoint _are_premature_tis (unfinished : list string) (fin : list TaskInstance)
    (objs : list Attached) (s : Session) : result (bool * list Attached) :=
  match unfinished with
  | [] => Ok (false, objs)
  | ut :: rest =>
      '(met, objs) ← check_obj (premature_context fin) s ut objs;
      if (met : bool) then Ok (true, objs) else _are_premature_tis rest fin objs s
  end.

Definition ids_in (states : list (option TaskInstanceState)) (objs : list Attached) : list string :=
  (λ a, TI.task_id (current a)) <$> List.filter (λ a, TI.state (current a) ∈? states) objs.

Definition task_instance_scheduling_decisions (s : Session)
    : result (TISchedulingDecision * Session) :=
  let '(objs, s) := load_tis s in
  let unfinished := ids_in State.unfinished objs in
  let fin := List.filter (λ t, TI.state t ∈? State.finished) (current <$> objs) in
  '(ready, changed, objs') ← match unfinished with
    | [] => Ok ([], false, objs)
    | _ =>
        (* the unfinished tasks that are in a scheduleable state *)
        let scheduleable := List.filter
          (λ tid, match lookup_obj objs tid with
                  | Some a => TI.state (current a) ∈? SCHEDULEABLE_STATES | None => false end)
          unfinished in
        _get_ready_tis scheduleable fin objs s
    end;
  Ok ({| tis := objs'; schedulable_tis := ready; changed_tis := changed;
         unfinished_tasks := unfinished; sd_finished_tasks := fin |}, s).

(** ** The state of the run *)

Inductive Callback :=
| NoCallback
| Executed (success : bool) (reason : string)         (* dag.handle_callback *)
| Requested (is_failure_callback : bool) (msg : string).   (* DagCallbackRequest *)

Definition callback_for (execute_callbacks success has_callback : bool) (reason : string) : Callback :=
  if execute_callbacks then Executed success reason
  else if has_callback then Requested (negb success) reason else NoCallback.

Record UpdateResult := {
  ur_schedulable : list string;
  ur_callback : Callback;
  ur_run : DagRun;
  ur_objs : list Attached;
  ur_session : Session;
}.

(** [unfinished_tasks and none_depends_on_past and none_task_concurrency], over
    the tasks of the unfinished task instances. *)
Definition deadlock_detectable (tasks : list BaseOperator) : bool :=
  negb (Graph.is_nil tasks) && forallb (λ t, negb (depends_on_past t)) tasks &&
  forallb (λ t, match task_concurrency t with None => true | Some _ => false end) tasks.

Definition are_runnable_tasks (info : TISchedulingDecision) (tasks : list BaseOperator) (s : Session)
    : result (bool * list Attached) :=
  if deadlock_detectable tasks then
    if negb (Graph.is_nil (schedulable_tis info)) then Ok (true, tis info)
    else
      '(premature, objs) ← _are_premature_tis (unfinished_tasks info) (sd_finished_tasks info)
                             (tis info) s;
      Ok ((premature : bool) || changed_tis info, objs)
  else Ok (false, tis info).

Definition leaf_tis (leaves : list BaseOperator) (objs : list Attached) : list TaskInstance :=
  List.filter (λ t, TI.task_id t ∈? (task_id <$> leaves)) (current <$> objs).

(** The four branches that decide the state of the run. *)
Definition verdict (execute_callbacks : bool) (tasks : list BaseOperator) (runnable : bool)
    (leaves : list BaseOperator) (objs : list Attached) : DagRunState * Callback :=
  let unfinished := negb (Graph.is_nil tasks) in
  if negb unfinished && existsb (λ t, TI.state t ∈? State.failed_states) (leaf_tis leaves objs) then
    (DR_FAILED, callback_for execute_callbacks false (has_on_failure_callback dag) "task_failure")
  else if negb unfinished && forallb (λ t, TI.state t ∈? State.success_states) (leaf_tis leaves objs) then
    (DR_SUCCESS, callback_for execute_callbacks true (has_on_success_callback dag) "success")
  else if deadlock_detectable tasks && negb runnable then
    (DR_FAILED, callback_for execute_callbacks false (has_on_failure_callback dag)
                  "all_tasks_deadlocked")
  else (DR_RUNNING, NoCallback).

Definition update_state (execute_callbacks : bool) (s : Session) : result UpdateResult :=
  let dr1 := DagRunQuery.set_last_scheduling_decision (Some (utcnow s)) dr in
  '(info, s) ← task_instance_scheduling_decisions s;
  tasks ← get_tasks dag (unfinished_tasks info);
  '(runnable, objs) ← are_runnable_tasks info tasks s;
  leaves ← Graph.leaves dag;
  let '(state, callback) := verdict execute_callbacks tasks runnable leaves objs in
  let dr2 := DagRunQuery.set_dagrun_state (utcnow s) state dr1 in
  Ok {| ur_schedulable := schedulable_tis info; ur_callback := callback; ur_run := dr2;
        ur_objs := objs; ur_session := DagRunQuery.merge_run dr2 s |}.

(** ** Scheduling *)

(** [schedule_tis]: bulk updates of rows, which the attached objects do not see. *)
Definition is_dummy (t : BaseOperator) : bool :=
  inherits_from_dummy_operator t && negb (on_execute_callback t) && negb (on_success_callback t).

Definition of_run (ids : list string) (t : TaskInstance) : bool :=
  (TI.dag_id t ≟ DR.dag_id dr) && (TI.execution_date t ≟ DR.execution_date dr) &&
  (TI.task_id t ∈? ids).

Definition schedule_tis (ids : list string) (s : Session) : result (Z * Session) :=
  tasks ← get_tasks dag ids;
  let dummy_ti_ids := task_id <$> List.filter is_dummy tasks in
  let schedulable_ti_ids := task_id <$> List.filter (λ t, negb (is_dummy t)) tasks in
  let '(count, s) :=
    match schedulable_ti_ids with
    | [] => (0, s)
    | ids => (countb (of_run ids) (task_instance s),
              with_task_instance (update_where (of_run ids) (TI.set_state (Some SCHEDULED))
                                    (task_instance s)) s)
    end in
  Ok match dummy_ti_ids with
  | [] => (count, s)
  | ids => (count + countb (of_run ids) (task_instance s),
            with_task_instance (update_where (of_run ids)
              (λ t, TI.set_dates (Some (utcnow s)) (Some (utcnow s)) (Some 0)
                      (TI.set_state (Some SUCCESS) t)) (task_instance s)) s)
  end.

(** One scheduling round of the run: decide, schedule, commit. *)
Definition schedule_round (execute_callbacks : bool) (s : Session) : result (Z * UpdateResult * Session) :=
  r ← update_state execute_callbacks s;
  '(n, s) ← schedule_tis (ur_schedulable r) (ur_session r);
  Ok (n, r, commit (ur_objs r) s).

(** ** Integrity *)

(** The loop over the rows: [hook] is the site's [task_instance_mutation_hook]. *)
Definition verify_row (hook : TaskInstance → TaskInstance) (ti : TaskInstance) : TaskInstance :=
  let ti := hook ti in
  let known := has_task dag (TI.task_id ti) in
  let ti :=
    if known then ti
    else if TI.state ti ≟ Some REMOVED then ti
    else if negb (DR._state dr ≟ DR_RUNNING) && negb (partial dag)
    then TI.set_state (Some REMOVED) ti
    else ti in
  if known && (TI.state ti ≟ Some REMOVED) then TI.set_state None ti else ti.

(** The loop over the tasks that have no row. *)
Definition create_missing (hook : TaskInstance → TaskInstance) (have : list string)
    (s : Session) (task : BaseOperator) : result Session :=
  match op_start_date task with
  | None => Err TypeError
  | Some d =>
      if (DR.execution_date dr <? d) && negb (DagRunQuery.is_backfill dr) then Ok s
      else if task_id task ∈? have then Ok s
      else ti ← TaskInstance.ti_init dag task (DR.execution_date dr) None;
           Ok (with_task_instance (task_instance s ++ [hook ti]) s)
  end.

Definition verify_integrity (hook : TaskInstance → TaskInstance) (s : Session) : result Session :=
  let tis := DagRunQuery.get_task_instances dr [] (Some dag) s in
  let s := foldl (λ s ti, merge_ti (verify_row hook ti) s) s tis in
  foldM (create_missing hook ((λ ti, TI.task_id (hook ti)) <$> tis)) (task_dict dag) s.

End Decisions.
End DagRun.
Import TiDeps DagRun.

(** ** Checks on attached objects *)

Section Checks.
Context `{Settings} (dag : DAG) (task : BaseOperator) (s : Session).

Lemma ds_finished_tasks_some st fin :
  finished_tasks (ds_context st) = Some fin → ds_finished_tasks dag s st = (fin, st).
Proof.
  intros Hf. unfold ds_finished_tasks, ensure_finished_tasks. rewrite Hf. by destruct st.
Qed.

(** A check whose context holds the finished tasks changes the state and dates
    of the task instance at most. *)
Lemma get_dep_statuses_frame dep st fin l st' :
  finished_tasks (ds_context st) = Some fin →
  get_dep_statuses dag task s dep st = Ok (l, st') →
  ds_context st' = ds_context st ∧ TI.primary (ds_ti st') = TI.primary (ds_ti st).
Proof.
  intros Hfin. unfold get_dep_statuses.
  destruct (IGNORABLE dep && _); [by intros [= _ <-]|].
  destruct (IS_TASK_DEP dep && _); [by intros [= _ <-]|].
  destruct dep; cbn [_get_dep_statuses]; try (by intros [= _ <-]).
  - by intros (x & _ & [= _ <-])%result_bind_ok.
  - by intros (x & _ & [= _ <-])%result_bind_ok.
  - unfold trigger_rule_statuses. intros (ups & _ & Hok)%result_bind_ok.
    do 2 (case_bool_decide; [by injection Hok as _ <-|]).
    rewrite (ds_finished_tasks_some _ fin) in Hok by done. injection Hok as _ <-.
    destruct (flag_upstream_failed _); [|done]. destruct (instant_state _ _ _); [|done].
    split; [done|apply primary_set_state_obj].
  - unfold not_previously_skipped_statuses. intros (ups & _ & Hok)%result_bind_ok.
    rewrite (ds_finished_tasks_some _ fin) in Hok by done.
    destruct (List.find _ _); injection Hok as _ <-; [|done]. split; [done|apply primary_set_state_obj].
Qed.

Lemma failed_loop_frame ds acc st fin l st' :
  finished_tasks (ds_context st) = Some fin →
  foldM (failed_step dag task s) ds (acc, st) = Ok (l, st') →
  TI.primary (ds_ti st') = TI.primary (ds_ti st) ∧
  (l = [] → ∀ dep, dep ∈ ds → ∃ st0 l0 st1, ds_context st0 = ds_context st ∧
     get_dep_statuses dag task s dep st0 = Ok (l0, st1) ∧ forallb passed l0 = true) ∧
  ∃ l', l = acc ++ l'.
Proof.
  revert acc st. induction ds as [|d ds IH]; intros acc st Hfin Hf; simpl in Hf.
  { injection Hf as <- <-. split_and!; [done| |exists []; by rewrite app_nil_r].
    by intros _ ? ?%elem_of_nil. }
  apply result_bind_ok in Hf as ([a1 st1] & Hstep & Hf). unfold failed_step in Hstep; simpl in Hstep.
  apply result_bind_ok in Hstep as ([l1 st2] & Hget & [= <- <-]).
  destruct (get_dep_statuses_frame _ _ _ _ _ Hfin Hget) as [Hc Hp].
  destruct (IH _ _ ltac:(by rewrite Hc) Hf) as (H1 & H2 & l' & Hl'). rewrite <-app_assoc in Hl'.
  split_and!; [congruence| |by eexists].
  intros -> dep [->|Hd]%elem_of_cons.
  - exists st, l1, st2. split_and!; [done..|]. apply filter_failing_nil.
    symmetry in Hl'. apply app_eq_nil in Hl' as [_ Hl']. by apply app_eq_nil in Hl' as [? _].
  - destruct (H2 eq_refl dep Hd) as (x & y & z & Hx & Hy & Hz). exists x, y, z. by rewrite Hx, Hc.
Qed.

Lemma are_dependencies_met_frame st fin b st' :
  finished_tasks (ds_context st) = Some fin →
  are_dependencies_met dag task s st = Ok (b, st') →
  TI.primary (ds_ti st') = TI.primary (ds_ti st) ∧
  (b = true → ∀ dep, dep ∈ deps task → ∃ st0 l0 st1, ds_context st0 = ds_context st ∧
     get_dep_statuses dag task s dep st0 = Ok (l0, st1) ∧ forallb passed l0 = true).
Proof.
  intros Hfin. unfold are_dependencies_met, get_failed_dep_statuses.
  intros ([l st1] & Hf & [= <- <-])%result_bind_ok.
  destruct (failed_loop_frame _ _ _ _ _ _ Hfin Hf) as (H1 & H2 & _). split; [done|].
  intros Hl dep Hd. apply bool_decide_eq_true, nil_length_inv in Hl. apply (H2 Hl).
  unfold set_union. rewrite elem_of_app, elem_of_filterb.
  destruct (decide (dep ∈ dc_deps (ds_context st))); [by left|right]. by rewrite bool_decide_eq_false_2.
Qed.
End Checks.

(** ** Objects by task id *)

Section Objects.

Lemma lookup_obj_Some objs tid a :
  lookup_obj objs tid = Some a → a ∈ objs ∧ TI.task_id (current a) = tid.
Proof.
  unfold lookup_obj. intros [Hin Heq]%find_some. bool_to_prop. by rewrite list_elem_of_In.
Qed.

Lemma lookup_set_obj_ne t objs tid :
  TI.task_id t ≠ tid → lookup_obj (set_obj t objs) tid = lookup_obj objs tid.
Proof.
  intros Hne. unfold lookup_obj, set_obj. induction objs as [|a objs IH]; [done|]. simpl.
  destruct (decide (TI.task_id (current a) = TI.task_id t)) as [E|E].
  - rewrite (bool_decide_eq_true_2 (TI.task_id (current a) = TI.task_id t)) by done. simpl.
    rewrite (bool_decide_eq_false_2 (TI.task_id t = tid)) by done.
    rewrite (bool_decide_eq_false_2 (TI.task_id (current a) = tid)) by congruence. apply IH.
  - rewrite (bool_decide_eq_false_2 (TI.task_id (current a) = TI.task_id t)) by done.
    destruct (TI.task_id (current a) ≟ tid); [done|apply IH].
Qed.

(** Writing the object of one task leaves the others. *)
Lemma elem_of_set_obj t objs a :
  a ∈ set_obj t objs → ∃ a0, a0 ∈ objs ∧ loaded a = loaded a0 ∧
    (a = a0 ∨ current a = t ∧ TI.task_id (current a0) = TI.task_id t).
Proof.
  unfold set_obj. intros (a0 & -> & Ha0)%list_elem_of_fmap. exists a0. split; [done|].
  case_bool_decide; simpl; auto.
Qed.
End Objects.

(** ** How the objects of a run evolve *)

Section Evolution.
Context `{Settings} (dag : DAG) (dr : DagRun).

(** The objects are those of before, and only those of the tasks in [U]
    changed. *)
Definition evolves (U : list string) (objs0 objs : list Attached) : Prop :=
  Forall2 (λ a0 a, loaded a = loaded a0 ∧ TI.task_id (current a) = TI.task_id (current a0) ∧
                   (TI.task_id (current a0) ∉ U → a = a0)) objs0 objs.

Lemma evolves_refl U objs : evolves U objs objs.
Proof. apply Forall_Forall2_diag, Forall_forall. done. Qed.

Lemma evolves_set_obj U objs0 objs t :
  TI.task_id t ∈ U → evolves U objs0 objs → evolves U objs0 (set_obj t objs).
Proof.
  intros Ht Hev. unfold set_obj. apply Forall2_fmap_r. eapply Forall2_impl; [exact Hev|].
  intros a0 a (H1 & H2 & H3); simpl. case_bool_decide as E; simpl; [|done].
  split_and!; [done|congruence|]. intros Hn. exfalso. apply Hn. congruence.
Qed.

Lemma check_obj_spec c fin s tid objs b objs' :
  finished_tasks c = Some fin → check_obj dag c s tid objs = Ok (b, objs') →
  ∃ task t, lookup_task dag tid = Some task ∧ objs' = set_obj t objs ∧ TI.task_id t = tid ∧
    (b = true → ∀ dep, dep ∈ deps task → ∃ st0 l0 st1, ds_context st0 = c ∧
       get_dep_statuses dag task s dep st0 = Ok (l0, st1) ∧ forallb passed l0 = true).
Proof.
  intros Hfin. unfold check_obj. intros (task & Ht & Hok)%result_bind_ok.
  unfold get_task in Ht. destruct (lookup_task dag tid) as [task'|]; [|done]. injection Ht as ->.
  destruct (lookup_obj objs tid) as [a|] eqn:Ea; [|done].
  apply result_bind_ok in Hok as ([met st] & Hmet & [= <- <-]).
  apply are_dependencies_met_frame with (fin := fin) in Hmet as [Hp Hall]; [|done]. simpl in *.
  exists task, (ds_ti st). split_and!; [done..| |done].
  apply lookup_obj_Some in Ea as [_ <-]. unfold TI.primary in Hp. congruence.
Qed.

Lemma ready_loop U fin s ids objs0 st st' :
  ids ⊆ U → evolves U objs0 (rs_objs st) → foldM (ready_step dag fin s) ids st = Ok st' →
  evolves U objs0 (rs_objs st') ∧
  ∀ tid, tid ∈ ready_tis st' → tid ∈ ready_tis st ∨ tid ∈ ids ∧
    ∃ task, lookup_task dag tid = Some task ∧
      ∀ dep, dep ∈ deps task → ∃ st0 l0 st1, ds_context st0 = ready_context fin ∧
        get_dep_statuses dag task s dep st0 = Ok (l0, st1) ∧ forallb passed l0 = true.
Proof.
  revert st. induction ids as [|i ids IH]; intros st Hsub Hev Hf; simpl in Hf.
  { injection Hf as <-. split; [done|]. by left. }
  apply result_bind_ok in Hf as (st1 & Hstep & Hf). unfold ready_step in Hstep.
  apply result_bind_ok in Hstep as ([met objs1] & Hchk & [= Hst1]).
  apply check_obj_spec with (fin := fin) in Hchk as (task & t & Hl & -> & Ht & Hmet); [|done].
  assert (evolves U objs0 (rs_objs st1)) as Hev1.
  { subst st1. assert (evolves U objs0 (set_obj t (rs_objs st))); [|by destruct met].
    apply evolves_set_obj; [|done]. rewrite Ht. set_solver. }
  destruct (IH st1 ltac:(set_solver) Hev1 Hf) as [H1 H2]. split; [done|].
  intros tid Htid. destruct (H2 tid Htid) as [Hin|(Hin & Hx)]; [|right; split; [by right|done]].
  subst st1. destruct met; simpl in Hin; [|by left].
  apply elem_of_app in Hin as [Hin|Hin%list_elem_of_singleton]; [by left|]. subst tid.
  right. split; [left|]. exists task. auto.
Qed.

Lemma premature_loop U fin s ids objs0 objs b objs' :
  ids ⊆ U → evolves U objs0 objs → _are_premature_tis dag ids fin objs s = Ok (b, objs') →
  evolves U objs0 objs'.
Proof.
  revert objs. induction ids as [|i ids IH]; intros objs Hsub Hev Hf; simpl in Hf.
  { by injection Hf as _ <-. }
  apply result_bind_ok in Hf as ([met objs1] & Hchk & Hf).
  apply check_obj_spec with (fin := fin) in Hchk as (task & t & Hl & -> & Ht & _); [|done].
  assert (evolves U objs0 (set_obj t objs)) as Hev1.
  { apply evolves_set_obj; [|done]. rewrite Ht. set_solver. }
  destruct met; [by injection Hf as _ <-|]. eapply IH; [|exact Hev1|done]. set_solver.
Qed.

(** The objects when the rows are loaded. *)
Lemma load_tis_objs s objs s' :
  load_tis dag dr s = (objs, s') →
  objs = (λ t, attach (if has_task dag (TI.task_id t) then t else TI.set_state (Some REMOVED) t))
           <$> DagRunQuery.get_task_instances dr State.task_states (Some dag) s.
Proof.
  unfold load_tis. generalize (DagRunQuery.get_task_instances dr State.task_states (Some dag) s) as rows.
  intros rows. change objs with (objs, s').1 at 2. intros <-.
  assert (∀ acc s0, (foldl (mark_removed dag) (acc, s0) rows).1 = acc ++
    ((λ t, attach (if has_task dag (TI.task_id t) then t else TI.set_state (Some REMOVED) t)) <$> rows))
    as Hgen; [|by rewrite Hgen].
  induction rows as [|t rows IH]; intros acc s0; [by rewrite app_nil_r|].
  cbn [foldl]. unfold mark_removed at 2.
  destruct (has_task dag (TI.task_id t)) eqn:E; rewrite IH, <-app_assoc; simpl; by rewrite E.
Qed.

Lemma load_tis_rows s objs s' k row :
  load_tis dag dr s = (objs, s') → find_ti k s = Some row → has_task dag (k.1.2) = true →
  find_ti k s' = Some row ∧ utcnow s' = utcnow s.
Proof.
  unfold load_tis. generalize (DagRunQuery.get_task_instances dr State.task_states (Some dag) s) as rows.
  intros rows Hl Hk Hh.
  assert (∀ acc s0, find_ti k (foldl (mark_removed dag) (acc, s0) rows).2 = find_ti k s0 ∧
    utcnow (foldl (mark_removed dag) (acc, s0) rows).2 = utcnow s0) as Hgen.
  { clear Hl Hk. induction rows as [|t rows IH]; intros acc s0; [done|].
    cbn [foldl]. unfold mark_removed at 2 4.
    destruct (has_task dag (TI.task_id t)) eqn:E; destruct (IH (acc ++ [attach t]) s0); [done|].
    edestruct IH as [-> ->]. rewrite find_merge_ti_ne.
    - split; [done|]. unfold merge_ti. by destruct (existsb _ _).
    - unfold TI.primary. simpl. intros ->. simpl in Hh. congruence. }
  specialize (Hgen [] s). rewrite Hl in Hgen. simpl in Hgen. destruct Hgen as [-> ->]. done.
Qed.
End Evolution.

(** ** A rule that accepts skips only *)

(** A check with [flag_upstream_failed] marks a task of [none_failed_or_skipped] whose
    upstream tasks were all skipped, and the object stays marked. *)
Section SkippedJoin.
Context `{Settings} (dag : DAG) (s : Session) (fin : list TaskInstance) (tid : string) (task : BaseOperator).
Context (Htask : lookup_task dag tid = Some task) (Hnd : NoDup (upstream_task_ids task)) (Hok : finished_ok fin)
  (Hdep : TriggerRuleDep ∈ deps task) (Hne : upstream_task_ids task ≠ [])
  (Hsk : all_skipped (trigger_rule task) (upstream_state fin <$> upstream_task_ids task)).

Definition marked (objs : list Attached) : Prop :=
  ∀ a, a ∈ objs → TI.task_id (current a) = tid → TI.state (current a) = Some SKIPPED.

Definition flagging (c : DepContext) : Prop :=
  finished_tasks c = Some fin ∧ flag_upstream_failed c = true ∧ ignore_all_deps c = false ∧ ignore_task_deps c = false.

Lemma skip_step dep st l st' : flagging (ds_context st) → get_dep_statuses dag task s dep st = Ok (l, st') →
  TI.state (ds_ti st') = Some SKIPPED ∨ dep ≠ TriggerRuleDep ∧ TI.state (ds_ti st') = TI.state (ds_ti st).
Proof.
  intros (Hfin & Hflag & Hall & Htd). unfold get_dep_statuses. rewrite Hall, Htd, !andb_false_r.
  destruct dep; cbn [_get_dep_statuses]; try (intros [= _ <-]; by right); try (intros (x & _ & [= _ <-])%result_bind_ok; by right).
  - intros Hok1. left. destruct Hsk as [Hr Hs]. assert (∃ ups, upstream_list dag task = Ok ups) as [ups Hups].
    { unfold trigger_rule_statuses in Hok1. destruct (upstream_list dag task); [eauto|done]. }
    rewrite (trigger_rule_statuses_eq s dag task st ups fin) in Hok1 by (done || by rewrite Hr). injection Hok1 as _ <-.
    rewrite Hflag, states_count_spec, Hr, instant_all_skipped by (done || by rewrite length_fmap).
    unfold ds_set_state. cbn [ds_ti]. apply state_set_state_obj.
  - unfold not_previously_skipped_statuses. intros (ups & _ & Hx)%result_bind_ok.
    rewrite (ds_finished_tasks_some _ _ _ fin) in Hx by done. destruct (List.find _ _); injection Hx as _ <-; [|by right].
    left. unfold ds_set_state. cbn [ds_ti]. apply state_set_state_obj.
Qed.

Lemma skip_loop ds acc st l st' : flagging (ds_context st) → foldM (failed_step dag task s) ds (acc, st) = Ok (l, st') →
  TriggerRuleDep ∈ ds ∨ TI.state (ds_ti st) = Some SKIPPED → TI.state (ds_ti st') = Some SKIPPED.
Proof.
  revert acc st. induction ds as [|d ds IH]; intros acc st Hc; simpl.
  { intros [= _ <-] [?%elem_of_nil|?]; done. }
  intros ([a1 st1] & Hstep & Hf)%result_bind_ok Hin. unfold failed_step in Hstep; simpl in Hstep.
  apply result_bind_ok in Hstep as ([l1 st2] & Hget & [= _ <-]).
  pose proof (get_dep_statuses_frame _ _ _ _ _ fin _ _ (proj1 Hc) Hget) as [Hc2 _].
  apply (IH _ _ ltac:(by rewrite Hc2) Hf). destruct (skip_step _ _ _ _ Hc Hget) as [?|[Hd Heq]]; [by right|].
  rewrite Heq. destruct Hin as [[E|?]%elem_of_cons|?]; [congruence|by left|by right].
Qed.

Lemma check_obj_marks c i objs b objs' : flagging c → dc_deps c = [] → check_obj dag c s i objs = Ok (b, objs') →
  i = tid ∨ marked objs → marked objs'.
Proof.
  intros Hc Hds. unfold check_obj. intros (task' & Ht & Hx)%result_bind_ok.
  unfold get_task in Ht. destruct (lookup_task dag i) as [u|] eqn:Ei; [|done]. injection Ht as ->.
  destruct (lookup_obj objs i) as [a0|] eqn:Ea; [|done]. apply result_bind_ok in Hx as ([met st] & Hmet & [= <- <-]).
  pose proof Hmet as [Hp _]%(are_dependencies_met_frame _ _ _ _ fin); [|by apply Hc]. cbn [ds_ti] in Hp. unfold TI.primary in Hp.
  apply lookup_obj_Some in Ea as [Ha0 Hid]. assert (TI.task_id (ds_ti st) = i) as Hi by congruence.
  intros Hor a Ha Htid. unfold set_obj in Ha. apply list_elem_of_fmap in Ha as (a1 & -> & Ha1). rewrite Hi in *.
  destruct (bool_decide_reflect (TI.task_id (current a1) = i)) as [E|E]; cbn [current] in *.
  - unfold are_dependencies_met, get_failed_dep_statuses in Hmet. apply result_bind_ok in Hmet as ([l st'] & Hf & [= _ <-]).
    assert (task' = task) as -> by congruence. eapply skip_loop; [|exact Hf|left]; [done|].
    cbn [ds_context]. rewrite Hds. unfold set_union. cbn [app]. apply elem_of_filterb. split; [|done].
    by rewrite bool_decide_eq_false_2 by apply not_elem_of_nil.
  - destruct Hor as [->|Hm]; [done|by apply Hm].
Qed.

Lemma ready_loop_marks ids st st' : foldM (ready_step dag fin s) ids st = Ok st' → tid ∈ ids ∨ marked (rs_objs st) → marked (rs_objs st').
Proof.
  revert st. induction ids as [|i ids IH]; intros st; simpl; [by intros [= <-] [?%elem_of_nil|?]|].
  intros (st1 & Hstep & Hf)%result_bind_ok Hor. unfold ready_step in Hstep.
  apply result_bind_ok in Hstep as ([met objs1] & Hchk & [= Hst1]). apply (IH st1 Hf).
  assert (i = tid ∨ marked (rs_objs st) → marked (rs_objs st1)) as H1.
  { intros Hx. subst st1. apply check_obj_marks in Hchk; [by destruct met|by split_and!|done|done]. }
  destruct Hor as [[->|?]%elem_of_cons|?]; auto.
Qed.

Lemma premature_marks ids objs b objs' : _are_premature_tis dag ids fin objs s = Ok (b, objs') → marked objs → marked objs'.
Proof.
  revert objs. induction ids as [|i ids IH]; intros objs; simpl; [by intros [= _ <-]|].
  intros ([met objs1] & Hchk & Hf)%result_bind_ok Hm. apply check_obj_marks in Hchk; [|by split_and!|done|by right].
  destruct met; [by injection Hf as _ <-|]. by eapply IH.
Qed.
End SkippedJoin.

(** ** The decisions and the update *)

Section Update.
Context `{Settings} (dag : DAG) (dr : DagRun).

(** The rows of the run, as the queries return them. *)
Definition run_rows (s : Session) : list TaskInstance :=
  DagRunQuery.get_task_instances dr State.task_states (Some dag) s.

Lemma elem_of_run_rows t s :
  t ∈ run_rows s → t ∈ task_instance s ∧ TI.dag_id t = DR.dag_id dr ∧
                   TI.execution_date t = DR.execution_date dr.
Proof.
  unfold run_rows, DagRunQuery.get_task_instances. intros [Hf Ht]%elem_of_filterb. by bool_to_prop.
Qed.

(** The ready tasks of a decision: each has an unfinished, scheduleable row and
    passed all the dependencies of its task. *)
Definition ready_ok (s0 s : Session) (fin : list TaskInstance) (tid : string) : Prop :=
  (∃ row, row ∈ run_rows s0 ∧ TI.task_id row = tid ∧ TI.state row ∈ SCHEDULEABLE_STATES) ∧
  ∃ task, lookup_task dag tid = Some task ∧
    ∀ dep, dep ∈ deps task → ∃ st0 l0 st1, ds_context st0 = ready_context fin ∧
      get_dep_statuses dag task s dep st0 = Ok (l0, st1) ∧ forallb passed l0 = true.

Lemma ids_in_elem states objs tid :
  tid ∈ ids_in states objs ↔
  ∃ a, a ∈ objs ∧ TI.task_id (current a) = tid ∧ TI.state (current a) ∈ states.
Proof.
  unfold ids_in. rewrite list_elem_of_fmap. split.
  - intros (a & -> & [Hs Ha]%elem_of_filterb). bool_to_prop. eauto.
  - intros (a & Ha & <- & Hs). exists a. split; [done|]. apply elem_of_filterb. split; [|done].
    by apply bool_decide_eq_true.
Qed.

Lemma obj_of_row s objs s1 a :
  load_tis dag dr s = (objs, s1) → a ∈ objs → ∃ t, t ∈ run_rows s ∧
    a = attach (if has_task dag (TI.task_id t) then t else TI.set_state (Some REMOVED) t).
Proof. intros ->%load_tis_objs (t & -> & Ht)%list_elem_of_fmap. eauto. Qed.

Lemma obj_unremoved s objs s1 a :
  load_tis dag dr s = (objs, s1) → a ∈ objs → TI.state (current a) ≠ Some REMOVED →
  current a ∈ run_rows s ∧ loaded a = current a ∧ has_task dag (TI.task_id (current a)) = true.
Proof.
  intros Hl Ha Hr. destruct (obj_of_row _ _ _ _ Hl Ha) as (t & Ht & ->). simpl in *.
  by destruct (has_task dag (TI.task_id t)) eqn:E.
Qed.

Lemma decisions_spec s info s1 :
  task_instance_scheduling_decisions dag dr s = Ok (info, s1) →
  ∃ objs, load_tis dag dr s = (objs, s1) ∧ unfinished_tasks info = ids_in State.unfinished objs ∧
    sd_finished_tasks info = List.filter (λ t, TI.state t ∈? State.finished) (current <$> objs) ∧
    evolves (unfinished_tasks info) objs (tis info) ∧
    (unfinished_tasks info = [] → tis info = objs ∧ schedulable_tis info = []) ∧
    ∀ tid, tid ∈ schedulable_tis info →
      tid ∈ unfinished_tasks info ∧ ready_ok s s1 (sd_finished_tasks info) tid.
Proof.
  unfold task_instance_scheduling_decisions. destruct (load_tis dag dr s) as [objs s'] eqn:El.
  intros ([[ready changed] objs'] & Hr & [= <- <-])%result_bind_ok. exists objs. simpl.
  do 3 (split; [done|]).
  destruct (ids_in State.unfinished objs) as [|u us] eqn:Eu.
  { injection Hr as <- <- <-. split_and!; [apply evolves_refl|done|]. by intros ? ?%elem_of_nil. }
  rewrite <-Eu in *. set (U := ids_in State.unfinished objs) in *.
  set (sc := List.filter _ U) in Hr.
  assert (sc ⊆ U) as Hsub by (intros x [_ ?]%elem_of_filterb; done).
  assert (∀ tid, tid ∈ sc → ∃ row, row ∈ run_rows s ∧ TI.task_id row = tid ∧
            TI.state row ∈ SCHEDULEABLE_STATES) as Hsc.
  { intros tid [Hs _]%elem_of_filterb. destruct (lookup_obj objs tid) as [a|] eqn:Ea; [|done].
    bool_to_prop. apply lookup_obj_Some in Ea as [Ha <-].
    destruct (obj_unremoved _ _ _ _ El Ha) as (Hrow & _ & _); [|eauto].
    intros Hrem. rewrite Hrem in Hs. revert Hs. unfold SCHEDULEABLE_STATES. set_solver. }
  unfold _get_ready_tis in Hr. destruct sc as [|x sc'] eqn:Esc.
  { injection Hr as <- <- <-. split_and!; [apply evolves_refl|done|]. by intros ? ?%elem_of_nil. }
  rewrite <-Esc in *. apply result_bind_ok in Hr as (st & Hf & [= <- <- <-]).
  apply (ready_loop dag U _ s' sc objs) in Hf as [Hev Hready]; [|done|apply evolves_refl].
  split_and!; [done|by rewrite Eu|]. intros tid Htid.
  destruct (Hready tid Htid) as [?%elem_of_nil|[Hin Ht]]; [done|].
  split; [by apply Hsub|]. split; [by apply Hsc|exact Ht].
Qed.

Lemma get_tasks_ids ids l : get_tasks dag ids = Ok l → task_id <$> l = ids.
Proof.
  revert l. induction ids as [|i ids IH]; intros l; simpl; [by intros [= <-]|].
  intros (t & Ht & Hl)%result_bind_ok. apply result_bind_ok in Hl as (ts & Hts & [= <-]).
  unfold get_task in Ht. destruct (lookup_task dag i) as [t'|] eqn:E; [|done].
  injection Ht as ->. apply lookup_task_Some in E as [_ <-]. rewrite fmap_cons. f_equal. by apply IH.
Qed.

Lemma update_state_spec ec s r :
  update_state dag dr ec s = Ok r →
  ∃ objs s1 U fin, load_tis dag dr s = (objs, s1) ∧ U = ids_in State.unfinished objs ∧
    fin = List.filter (λ t, TI.state t ∈? State.finished) (current <$> objs) ∧
    evolves U objs (ur_objs r) ∧ task_instance (ur_session r) = task_instance s1 ∧
    utcnow (ur_session r) = utcnow s1 ∧
    ∀ tid, tid ∈ ur_schedulable r → tid ∈ U ∧ ready_ok s s1 fin tid.
Proof.
  unfold update_state. intros ([info s1] & Hi & Hok)%result_bind_ok.
  destruct (decisions_spec _ _ _ Hi) as (objs & Hl & HU & Hfin & Hev & _ & Hready).
  apply result_bind_ok in Hok as (tasks & Ht & Hok).
  apply result_bind_ok in Hok as ([runnable objs'] & Hrun & Hok).
  apply result_bind_ok in Hok as (leaves & Hlv & Hok).
  destruct (verdict _ _ _ _ _ _) as [state cb]. injection Hok as <-. simpl.
  exists objs, s1, (ids_in State.unfinished objs), (sd_finished_tasks info).
  rewrite HU in *. split_and!; try done.
  unfold are_runnable_tasks in Hrun. destruct (deadlock_detectable tasks); [|by injection Hrun as _ <-].
  destruct (negb _); [by injection Hrun as _ <-|].
  apply result_bind_ok in Hrun as ([p objs1] & Hp & [= _ <-]). rewrite HU in Hp.
  by eapply premature_loop.
Qed.
End Update.

(** ** Correctness of a scheduling round *)

Section Round.
Local Open Scope Z_scope.
Context `{Settings} (dag : DAG) (dr : DagRun).

(** The finished rows of the run, of tasks that the DAG has. *)
Definition finished_rows (s : Session) : list TaskInstance :=
  List.filter (λ t, has_task dag (TI.task_id t) && (TI.state t ∈? State.finished)) (run_rows dag dr s).

Lemma finished_objs s objs s1 :
  load_tis dag dr s = (objs, s1) →
  List.filter (λ t, TI.state t ∈? State.finished) (current <$> objs) = finished_rows s.
Proof.
  intros ->%load_tis_objs. unfold finished_rows, run_rows.
  induction (DagRunQuery.get_task_instances _ _ _ _) as [|t rows IH]; [done|].
  rewrite !fmap_cons. cbn [List.filter attach current].
  destruct (has_task dag (TI.task_id t)); cbn [andb].
  - destruct (TI.state t ∈? State.finished); [by f_equal|done].
  - change (TI.state (TI.set_state (Some REMOVED) t)) with (Some REMOVED). exact IH.
Qed.

Lemma finished_rows_ok s : ti_keys_unique (task_instance s) → finished_ok (finished_rows s).
Proof.
  intros Hk. split.
  - apply (NoDup_fmap_1 (λ t, (DR.dag_id dr, t, DR.execution_date dr))).
    rewrite <-list_fmap_compose.
    assert ((λ t, (DR.dag_id dr, t, DR.execution_date dr)) ∘ TI.task_id <$> finished_rows s
            = TI.primary <$> finished_rows s) as ->.
    { apply list_fmap_ext. intros i t Ht%list_elem_of_lookup_2. apply elem_of_filterb in Ht as [_ Ht].
      apply elem_of_run_rows in Ht as (_ & <- & <-). done. }
    by apply NoDup_fmap_filterb, NoDup_fmap_filterb.
  - intros t [Ht _]%elem_of_filterb. by bool_to_prop.
Qed.

(** In a decision for which a task of [none_failed_or_skipped] is ready though all its
    upstream tasks were skipped, its object is marked as skipped. *)
Lemma update_state_marks ec s r tid task
  (Hkeys : ti_keys_unique (task_instance s)) (Htask : lookup_task dag tid = Some task) (Hnd : NoDup (upstream_task_ids task))
  (Hdep : TriggerRuleDep ∈ deps task) (Hne : upstream_task_ids task ≠ [])
  (Hsk : all_skipped (trigger_rule task) (upstream_state (finished_rows s) <$> upstream_task_ids task)) :
  update_state dag dr ec s = Ok r → tid ∈ ur_schedulable r → marked tid (ur_objs r).
Proof.
  unfold update_state. intros ([info s1] & Hi & Hok)%result_bind_ok.
  apply result_bind_ok in Hok as (tasks & _ & Hok). apply result_bind_ok in Hok as ([runnable objs'] & Hrun & Hok).
  apply result_bind_ok in Hok as (leaves & _ & Hok). destruct (verdict _ _ _ _ _ _) as [state cb]. injection Hok as <-. cbn [ur_schedulable ur_objs].
  revert Hi. unfold task_instance_scheduling_decisions. destruct (load_tis dag dr s) as [objs s'] eqn:El.
  rewrite (finished_objs _ _ _ El). intros ([[ready changed] objs1] & Hr & [= <- <-])%result_bind_ok. cbn [schedulable_tis] in *. intros Htid.
  assert (marked tid objs1) as Hm.
  { destruct (ids_in State.unfinished objs) as [|u us] eqn:Eu; [injection Hr as <- <- <-; by apply elem_of_nil in Htid|]. rewrite <-Eu in Hr.
    unfold _get_ready_tis in Hr. destruct (List.filter _ _) as [|i ids] eqn:Es; [injection Hr as <- <- <-; by apply elem_of_nil in Htid|].
    apply result_bind_ok in Hr as (st & Hf & [= <- <- <-]). pose proof Hf as Hf'.
    apply (ready_loop dag (i :: ids) _ s' (i :: ids) objs) in Hf' as [_ Hready]; [|done|apply evolves_refl].
    destruct (Hready tid Htid) as [?%elem_of_nil|[Hin _]]; [done|].
    eapply (ready_loop_marks dag s' (finished_rows s) tid task); [done|done|by apply finished_rows_ok|done|done|done|exact Hf|by left]. }
  unfold are_runnable_tasks in Hrun. cbn [tis schedulable_tis unfinished_tasks sd_finished_tasks] in Hrun.
  destruct (deadlock_detectable tasks); [|by injection Hrun as _ <-]. destruct (negb _); [by injection Hrun as _ <-|].
  apply result_bind_ok in Hrun as ([p objs2] & Hp & [= _ <-]).
  eapply (premature_marks dag s' (finished_rows s) tid task); [done|done|by apply finished_rows_ok|done|done|done|exact Hp|done].
Qed.

(** C14: if the keys of the task instances are unique and no task lists an upstream
    task twice, a task instance that the scheduler is told to schedule has a row of the
    run in a scheduleable state, its task is in the DAG, and (for every task
    that has the trigger-rule dependency, as all operators do) it has no upstream
    tasks, or its trigger rule, as documented, holds of the states in which its
    upstream tasks finished in this run.  The one exception is a task of
    [none_failed_or_skipped] whose upstream tasks were all skipped, which the
    documentation excludes: it is handed over too, but its object is marked as skipped,
    so that the commit after the round leaves it skipped. *)
Theorem schedulable_sound ec s r tid
  (Hkeys : ti_keys_unique (task_instance s))
  (Hnd : ∀ t, t ∈ task_dict dag → NoDup (upstream_task_ids t))
  (Hup : update_state dag dr ec s = Ok r) (Hin : tid ∈ ur_schedulable r) :
  ∃ row task, row ∈ run_rows dag dr s ∧ TI.task_id row = tid ∧
    TI.state row ∈ SCHEDULEABLE_STATES ∧ lookup_task dag tid = Some task ∧
    (TriggerRuleDep ∈ deps task →
     upstream_task_ids task = [] ∨
     rule_holds (trigger_rule task) (upstream_state (finished_rows s) <$> upstream_task_ids task) ∨
     all_skipped (trigger_rule task) (upstream_state (finished_rows s) <$> upstream_task_ids task) ∧
     ∀ a, a ∈ ur_objs r → TI.task_id (current a) = tid → TI.state (current a) = Some SKIPPED).
Proof.
  destruct (update_state_spec _ _ _ _ _ Hup) as (objs & s1 & U & fin & Hl & _ & Hfin & _ & _ & _ & Hr).
  destruct (Hr tid Hin) as [_ [(row & H1 & H2 & H3) (task & Ht & Hdeps)]].
  exists row, task. split_and!; [done..|]. intros Hd.
  destruct (Hdeps _ Hd) as (st0 & l0 & st1 & Hc & Hget & Hp).
  rewrite (finished_objs _ _ _ Hl) in Hfin. subst fin.
  assert (is_ok (upstream_list dag task) = true) as Hok.
  { unfold get_dep_statuses in Hget. rewrite Hc in Hget. simpl in Hget.
    unfold trigger_rule_statuses in Hget. by destruct (upstream_list dag task). }
  destruct (upstream_list dag task) as [ups|] eqn:Eups; [|done].
  destruct (trigger_rule_is_met s1 dag task st0 ups (finished_rows s)) as (b & st' & Hm & Hb & _).
  - done.
  - apply Hnd. by apply lookup_task_Some in Ht as [? _].
  - by rewrite Hc.
  - by apply finished_rows_ok.
  - by rewrite Hc.
  - by rewrite Hc.
  - assert (b = true) as Hbt by (unfold is_met in Hm; rewrite Hget in Hm; simpl in Hm; rewrite Hp in Hm; congruence).
    destruct (decide (upstream_task_ids task = [])) as [Hnil|Hne]; [by left|]. apply Hb in Hbt as [?|[?|Hsk]]; [by left|by right; left|].
    right. right. split; [done|]. apply (update_state_marks ec s r tid task); try done. apply Hnd. by apply lookup_task_Some in Ht as [? _].
Qed.

(** ** Rows that a round does not touch *)

Lemma find_ti_update_where p f k rows s :
  (∀ t, TI.primary (f t) = TI.primary t) →
  find_ti k (with_task_instance (update_where p f rows) s)
    = (λ r, if p r then f r else r) <$> find_ti k (with_task_instance rows s).
Proof.
  intros Hf. unfold find_ti, update_where. simpl.
  induction rows as [|t l IH]; [done|]. simpl.
  assert (TI.primary (if p t then f t else t) = TI.primary t) as -> by (destruct (p t); auto).
  destruct (TI.primary t ≟ k); [done|apply IH].
Qed.

Lemma find_ti_same_rows k s s' : find_ti k (with_task_instance (task_instance s) s') = find_ti k s.
Proof. done. Qed.

Lemma flush_row_clean a row : current a = loaded a → flush_row a row = row.
Proof.
  intros Ha. unfold flush_row. rewrite Ha. rewrite !bool_decide_eq_true_2 by done. by destruct row.
Qed.

Lemma commit_untouched objs s k row :
  find_ti k s = Some row →
  (∀ a, a ∈ objs → TI.primary (loaded a) = k → current a = loaded a) →
  find_ti k (commit objs s) = Some row.
Proof.
  unfold commit. revert s. induction objs as [|a objs IH]; intros s Hk Hc; [done|]. simpl.
  apply IH; [|intros x Hx; apply Hc; by right].
  rewrite find_ti_update_where, find_ti_same_rows, Hk by done. simpl. f_equal.
  destruct (same_ti (loaded a) row) eqn:E; [|done]. apply same_ti_eq in E.
  apply flush_row_clean, Hc; [left|]. apply find_ti_elem in Hk as [_ <-]. done.
Qed.

Lemma schedule_tis_untouched ids s n s' k row :
  schedule_tis dag dr ids s = Ok (n, s') → find_ti k s = Some row → of_run dr ids row = false →
  find_ti k s' = Some row.
Proof.
  unfold schedule_tis. intros (tasks & Ht & Hok)%result_bind_ok Hk Hrow. apply get_tasks_ids in Ht.
  assert (∀ p, of_run dr (task_id <$> List.filter p tasks) row = false) as Hno.
  { intros p. unfold of_run in *. destruct ((TI.dag_id row ≟ DR.dag_id dr) && (TI.execution_date row ≟ DR.execution_date dr)); [|done]. simpl in *. bool_to_prop.
    apply bool_decide_eq_false. intros (t & Heq & Hin)%list_elem_of_fmap. apply Hrow. rewrite Heq, <-Ht.
    apply list_elem_of_fmap. exists t. split; [done|]. by apply elem_of_filterb in Hin as [_ ?]. }
  pose proof (Hno is_dummy) as Hd. pose proof (Hno (λ t, negb (is_dummy t))) as Hs. clear Hno.
  revert Hok Hd Hs.
  destruct (task_id <$> List.filter (λ t, negb (is_dummy t)) tasks) as [|x xs];
    destruct (task_id <$> List.filter is_dummy tasks) as [|y ys];
    intros [= _ <-] Hd Hs; rewrite ?find_ti_update_where by done;
    rewrite ?find_ti_same_rows, ?Hk; cbn [fmap option_fmap option_map]; rewrite ?Hs; rewrite ?Hd; done.
Qed.

(** A scheduling round (update the run's state, schedule what is ready,
    commit) leaves every row of another run untouched, and every finished row
    of this run whose task is in the DAG. *)
Theorem round_frame ec s n r s' k row
  (Hkeys : ti_keys_unique (task_instance s))
  (Hround : schedule_round dag dr ec s = Ok (n, r, s'))
  (Hk : find_ti k s = Some row) (Htask : has_task dag (TI.task_id row) = true)
  (Hrow : (TI.dag_id row, TI.execution_date row) ≠ (DR.dag_id dr, DR.execution_date dr) ∨
          TI.state row ∈ State.finished) :
  find_ti k s' = Some row.
Proof.
  unfold schedule_round in Hround. apply result_bind_ok in Hround as (r1 & Hup & Hround).
  apply result_bind_ok in Hround as ([n1 s2] & Hs & [= <- <- <-]).
  destruct (update_state_spec _ _ _ _ _ Hup) as (objs & s1 & U & fin & Hl & HU & _ & Hev & Hti & _ & Hr).
  destruct (find_ti_elem _ _ _ Hk) as [Hin Hkey].
  (* the row is not one of the unfinished objects *)
  assert (∀ a, a ∈ objs → TI.task_id (loaded a) = TI.task_id row →
            TI.dag_id row = DR.dag_id dr → TI.execution_date row = DR.execution_date dr →
            current a = row) as Hobj.
  { intros a Ha Hid Hd Hx. destruct (obj_of_row _ _ _ _ _ _ Hl Ha) as (t & Ht & ->).
    destruct (elem_of_run_rows _ _ _ _ Ht) as (Ht1 & Ht2 & Ht3).
    assert (TI.task_id t = TI.task_id row) as Hid' by (by destruct (has_task dag (TI.task_id t))).
    rewrite Hid', Htask. simpl. eapply ti_key_inj; [exact Hkeys|done|done|].
    unfold TI.primary. congruence. }
  assert (TI.dag_id row = DR.dag_id dr → TI.execution_date row = DR.execution_date dr →
          TI.task_id row ∉ U) as HnU.
  { intros Hd Hx. rewrite HU. intros (a & Ha & Hid & Hst)%ids_in_elem.
    destruct (obj_of_row _ _ _ _ _ _ Hl Ha) as (t & _ & Hat).
    rewrite (Hobj a) in Hst; [|done|by rewrite <-Hid, Hat|done|done].
    destruct Hrow as [Hne|Hf]; [apply Hne; congruence|].
    revert Hf Hst. unfold State.finished, State.unfinished. set_solver. }
  apply commit_untouched.
  - eapply schedule_tis_untouched; [exact Hs| |].
    + rewrite (find_ti_ext _ _ s1) by done. eapply load_tis_rows; [exact Hl|done|].
      rewrite <-Hkey. exact Htask.
    + unfold of_run. apply not_true_iff_false. intros Ht. bool_to_prop.
      apply HnU; [done..|]. by apply Hr.
  - intros a Ha Hka. unfold evolves in Hev. apply list_elem_of_lookup in Ha as (i & Hi).
    destruct (Forall2_lookup_r _ _ _ _ _ Hev Hi) as (a0 & Hi0 & E1 & E2 & E3).
    apply list_elem_of_lookup_2 in Hi0. destruct (obj_of_row _ _ _ _ _ _ Hl Hi0) as (t & Ht & Hat).
    destruct (elem_of_run_rows _ _ _ _ Ht) as (_ & Ht2 & Ht3).
    assert (loaded a0 = current a0) as Hlc by (by rewrite Hat).
    assert (TI.dag_id (loaded a0) = DR.dag_id dr ∧ TI.execution_date (loaded a0) = DR.execution_date dr)
      as [Hd Hx] by (rewrite Hat; simpl; by destruct (has_task dag (TI.task_id t))).
    rewrite E1, <-Hkey in Hka. unfold TI.primary in Hka. injection Hka as K1 K2 K3.
    rewrite E3; [done|]. rewrite <-Hlc, K2. apply HnU; congruence.
Qed.
End Round.

(** ** The state of the run *)

Section Verdict.
Local Open Scope Z_scope.
Context `{Settings} (dag : DAG) (dr : DagRun).

Lemma dr_state_set_state now st d : DR._state (DagRunQuery.set_dagrun_state now st d) = st.
Proof. unfold DagRunQuery.set_dagrun_state. case_bool_decide as E; [by rewrite E|done]. Qed.

Lemma leaves_have_task leaves u :
  Graph.leaves dag = Ok leaves → u ∈ (task_id <$> leaves) → has_task dag u = true.
Proof.
  intros Hl (t & -> & Ht)%list_elem_of_fmap. apply existsb_elem. exists t. split; [|by apply bool_decide_eq_true].
  unfold Graph.leaves in Hl. revert leaves Hl Ht. induction (task_dict dag) as [|x l IH]; intros leaves.
  - intros [= <-] ?%elem_of_nil. done.
  - cbn [Graph.filterM]. intros (b & _ & Hb)%result_bind_ok Ht.
    apply result_bind_ok in Hb as (ys & Hys & [= <-]). destruct b.
    + apply elem_of_cons in Ht as [->|Ht]; [left|right; by eapply IH].
    + right. by eapply IH.
Qed.

(** The rows of the run's leaf tasks. *)
Definition leaf_rows (leaves : list BaseOperator) (s : Session) : list TaskInstance :=
  List.filter (λ t, TI.task_id t ∈? (task_id <$> leaves)) (run_rows dag dr s).

Lemma leaf_tis_rows leaves s objs s1 :
  Graph.leaves dag = Ok leaves → load_tis dag dr s = (objs, s1) →
  leaf_tis leaves objs = leaf_rows leaves s.
Proof.
  intros Hlv ->%load_tis_objs. unfold leaf_tis, leaf_rows, run_rows.
  induction (DagRunQuery.get_task_instances _ _ _ _) as [|t rows IH]; [done|].
  rewrite !fmap_cons. cbn [List.filter attach current].
  destruct (decide (TI.task_id t ∈ (task_id <$> leaves))) as [Hin|Hn].
  - rewrite (leaves_have_task leaves (TI.task_id t)) by done.
    rewrite !bool_decide_eq_true_2 by done. by f_equal.
  - destruct (has_task dag (TI.task_id t)); simpl; rewrite !bool_decide_eq_false_2 by done; exact IH.
Qed.

Definition all_finished (s : Session) : Prop :=
  ∀ t, t ∈ run_rows dag dr s → has_task dag (TI.task_id t) = true → TI.state t ∈ State.finished.

Lemma no_unfinished s objs s1 :
  load_tis dag dr s = (objs, s1) → all_finished s → ids_in State.unfinished objs = [].
Proof.
  intros Hl Hall. destruct (ids_in State.unfinished objs) as [|u us] eqn:E; [done|]. exfalso.
  assert (u ∈ ids_in State.unfinished objs) as Hu by (rewrite E; left).
  apply ids_in_elem in Hu as (a & Ha & _ & Hst).
  destruct (obj_unremoved _ _ _ _ _ _ Hl Ha) as (Hrow & _ & Ht).
  - intros Hr. rewrite Hr in Hst. revert Hst. unfold State.unfinished. set_solver.
  - specialize (Hall _ Hrow Ht). revert Hall Hst. unfold State.finished, State.unfinished. set_solver.
Qed.

(** C15: a run whose tasks have all finished is closed by the next update, which
    never raises: it fails when the row of a leaf task failed, and succeeds
    otherwise; nothing is left to schedule. *)
Theorem finished_run_closed ec s leaves
  (Hleaves : Graph.leaves dag = Ok leaves) (Hall : all_finished s) :
  ∃ r, update_state dag dr ec s = Ok r ∧ ur_schedulable r = [] ∧
  DR._state (ur_run r) =
    if existsb (λ t, TI.state t ∈? State.failed_states) (leaf_rows leaves s)
    then DR_FAILED else DR_SUCCESS.
Proof.
  unfold update_state, task_instance_scheduling_decisions.
  destruct (load_tis dag dr s) as [objs s1] eqn:El.
  rewrite (no_unfinished _ _ _ El Hall). cbn. rewrite Hleaves. cbn.
  unfold verdict. cbn. rewrite (leaf_tis_rows _ _ _ _ Hleaves El).
  destruct (existsb _ _) eqn:Ef; cbn.
  { eexists. split; [done|]. cbn. split; [done|apply dr_state_set_state]. }
  assert (forallb (λ t, TI.state t ∈? State.success_states) (leaf_rows leaves s) = true) as ->.
  { apply forallb_elem. intros t Ht. rewrite existsb_false_elem in Ef. specialize (Ef t Ht).
    apply elem_of_filterb in Ht as [Hlt Ht]. bool_to_prop.
    specialize (Hall t Ht (leaves_have_task _ _ Hleaves Hlt)).
    revert Hall Ef. unfold State.finished, State.failed_states, State.success_states.
    destruct (TI.state t) as [[]|]; set_solver. }
  eexists. split; [done|]. cbn. split; [done|apply dr_state_set_state].
Qed.

(** No task of the DAG has an unfinished row. *)
Definition none_unfinished (s : Session) : Prop :=
  ∀ t, t ∈ run_rows dag dr s → has_task dag (TI.task_id t) = true → TI.state t ∉ State.unfinished.

Lemma none_unfinished_ids s objs s1 :
  load_tis dag dr s = (objs, s1) → none_unfinished s ↔ ids_in State.unfinished objs = [].
Proof.
  intros Hl. split.
  - intros Hno. destruct (ids_in State.unfinished objs) as [|u us] eqn:E; [done|]. exfalso.
    assert (u ∈ ids_in State.unfinished objs) as Hu by (rewrite E; left).
    apply ids_in_elem in Hu as (a & Ha & _ & Hst).
    destruct (obj_unremoved _ _ _ _ _ _ Hl Ha) as (Hrow & _ & Ht); [|by eapply Hno].
    intros Hr. rewrite Hr in Hst. revert Hst. unfold State.unfinished. set_solver.
  - intros Hnil t Hin Hh Hst. assert (TI.task_id t ∈ ids_in State.unfinished objs) as Hu.
    { apply ids_in_elem. exists (attach t). split_and!; [|done..].
      rewrite (load_tis_objs _ _ _ _ _ Hl). apply list_elem_of_fmap. exists t. by rewrite Hh. }
    rewrite Hnil in Hu. by apply elem_of_nil in Hu.
Qed.

(** C5: an update marks the run successful exactly when no task of the DAG has
    an unfinished row and the row of every leaf task succeeded or was
    skipped. *)
Theorem run_success_iff ec s leaves r
  (Hleaves : Graph.leaves dag = Ok leaves) (Hup : update_state dag dr ec s = Ok r) :
  DR._state (ur_run r) = DR_SUCCESS ↔
  none_unfinished s ∧ ∀ t, t ∈ leaf_rows leaves s → TI.state t ∈ State.success_states.
Proof.
  unfold update_state in Hup. apply result_bind_ok in Hup as ([info s1] & Hi & Hok).
  destruct (decisions_spec _ _ _ _ _ Hi) as (objs & Hl & HU & _ & _ & Hnil & _).
  apply result_bind_ok in Hok as (tasks & Ht & Hok). apply get_tasks_ids in Ht.
  apply result_bind_ok in Hok as ([runnable objs'] & Hrun & Hok).
  rewrite Hleaves in Hok. cbn [mbind result_bind] in Hok.
  destruct (verdict _ _ _ _ _ _) as [state cb] eqn:Ev. injection Hok as <-. cbn.
  rewrite dr_state_set_state, (none_unfinished_ids _ _ _ Hl), <-HU, <-Ht.
  destruct tasks as [|t0 ts]; cbn in Ht.
  - destruct (Hnil (eq_sym Ht)) as [Htis _]. cbn in Hrun. injection Hrun as <- <-. rewrite Htis in Ev.
    unfold verdict in Ev. cbn in Ev. rewrite (leaf_tis_rows _ _ _ _ Hleaves Hl) in Ev.
    destruct (existsb _ _) eqn:Ef; [|destruct (forallb _ _) eqn:Es]; injection Ev as <- _.
    + split; [done|]. intros [_ Hs]. apply existsb_elem in Ef as (t & Hlt & Hf). specialize (Hs t Hlt).
      bool_to_prop. exfalso. revert Hs Hf. unfold State.failed_states, State.success_states. set_solver.
    + split; [|done]. intros _. split; [done|]. intros t Hlt. rewrite forallb_elem in Es.
      specialize (Es t Hlt). by bool_to_prop.
    + split; [done|]. intros [_ Hs]. apply not_true_iff_false in Es. exfalso. apply Es, forallb_elem.
      intros t Hlt. by apply bool_decide_eq_true, Hs.
  - split; [|by intros [? _]]. intros ->. unfold verdict in Ev. cbn in Ev. by destruct (_ && _) in Ev.
Qed.
End Verdict.

(** ** Integrity *)

Section Integrity.
Local Open Scope Z_scope.
Context (dag : DAG) (dr : DagRun) (hook : TaskInstance → TaskInstance).
(** The site's hook may change anything but the key and the state. *)
Hypothesis hook_primary : ∀ t, TI.primary (hook t) = TI.primary t.
Hypothesis hook_state : ∀ t, TI.state (hook t) = TI.state t.

Lemma merge_ti_same_keys t s :
  TI.primary t ∈ (TI.primary <$> task_instance s) →
  TI.primary <$> task_instance (merge_ti t s) = TI.primary <$> task_instance s.
Proof.
  intros (r & Hk & Hr)%list_elem_of_fmap. rewrite merge_ti_present by eauto. apply merge_update_keys.
Qed.

(** Merging a list of changed rows: each is found changed, the keys stay. *)
Lemma merge_fold (f : TaskInstance → TaskInstance) l s :
  (∀ t, TI.primary (f t) = TI.primary t) → ti_keys_unique l →
  (∀ t, t ∈ l → TI.primary t ∈ (TI.primary <$> task_instance s)) →
  let s' := foldl (λ s ti, merge_ti (f ti) s) s l in
  TI.primary <$> task_instance s' = TI.primary <$> task_instance s ∧
  (∀ t, t ∈ l → find_ti (TI.primary t) s' = Some (f t)) ∧
  (∀ k, k ∉ (TI.primary <$> l) → find_ti k s' = find_ti k s).
Proof.
  intros Hf. revert s. induction l as [|x l IH]; intros s Hnd Hin; simpl.
  { split_and!; [done| |done]. by intros ? ?%elem_of_nil. }
  apply NoDup_cons in Hnd as [Hx Hnd].
  assert (TI.primary <$> task_instance (merge_ti (f x) s) = TI.primary <$> task_instance s) as Hk.
  { apply merge_ti_same_keys. rewrite Hf. apply Hin. left. }
  destruct (IH (merge_ti (f x) s) Hnd) as (H1 & H2 & H3).
  { intros t Ht. rewrite Hk. apply Hin. by right. }
  split; [congruence|]. split.
  - intros t [->|Ht]%elem_of_cons; [|by apply H2]. rewrite H3 by done. rewrite <-(Hf x). apply find_merge_ti.
  - intros k [Hkx Hkl]%not_elem_of_cons. rewrite H3 by done. apply find_merge_ti_ne. by rewrite Hf.
Qed.

Lemma verify_row_primary t : TI.primary (verify_row dag dr hook t) = TI.primary t.
Proof.
  rewrite <-(hook_primary t). unfold verify_row. cbv zeta. case_ifs; done.
Qed.

(** A task gets a row when it starts by the run's date, or in a backfill. *)
Definition eligible (t : BaseOperator) : bool :=
  match op_start_date t with
  | Some d => negb ((DR.execution_date dr <? d) && negb (DagRunQuery.is_backfill dr))
  | None => false
  end.

Lemma init_primary task d st ti :
  TaskInstance.ti_init dag task d st = Ok ti →
  TI.primary ti = (dag_id dag, task_id task, d) ∧ TI.state ti = st.
Proof.
  unfold TaskInstance.ti_init, TaskInstance.refresh_from_task.
  intros (w & _ & [= <-])%result_bind_ok. done.
Qed.

Lemma create_loop have tasks s s' :
  foldM (create_missing dag dr hook have) tasks s = Ok s' →
  ∃ new, task_instance s' = task_instance s ++ new ∧
    TI.primary <$> new = (λ t, (dag_id dag, task_id t, DR.execution_date dr)) <$>
      List.filter (λ t, eligible t && negb (task_id t ∈? have)) tasks ∧
    ∀ t, t ∈ new → TI.state t = None.
Proof.
  revert s. induction tasks as [|x tasks IH]; intros s Hf; cbn [foldM] in Hf.
  { injection Hf as <-. exists []. rewrite app_nil_r. split_and!; [done..|]. by intros ? ?%elem_of_nil. }
  apply result_bind_ok in Hf as (s1 & Hs & Hf). destruct (IH _ Hf) as (new & H1 & H2 & H3). clear IH Hf.
  unfold create_missing in Hs. cbn [List.filter]. unfold eligible at 1.
  destruct (op_start_date x) as [d|]; [|done]. destruct (_ && _) eqn:E in Hs.
  { injection Hs as <-. rewrite E. cbn. eauto. }
  rewrite E. cbn. case_bool_decide as Hin; cbn.
  { injection Hs as <-. eauto. }
  apply result_bind_ok in Hs as (ti & Hti & [= <-]). apply init_primary in Hti as [Hp Hst].
  exists (hook ti :: new). cbn in H1. rewrite <-app_assoc in H1. split; [done|].
  rewrite !fmap_cons, hook_primary, Hp, H2. split; [done|].
  intros t [->|Ht]%elem_of_cons; [by rewrite hook_state|by apply H3].
Qed.

(** The rows that [verify_integrity] looks at. *)
Definition integrity_rows (s : Session) : list TaskInstance :=
  DagRunQuery.get_task_instances dr [] (Some dag) s.

Lemma integrity_rows_elem t s :
  t ∈ integrity_rows s ↔ t ∈ task_instance s ∧ TI.dag_id t = DR.dag_id dr ∧
    TI.execution_date t = DR.execution_date dr ∧ (partial dag = true → TI.task_id t ∈ task_ids dag).
Proof.
  unfold integrity_rows, DagRunQuery.get_task_instances. rewrite elem_of_filterb. cbn.
  rewrite !andb_true_iff, !bool_decide_eq_true. destruct (partial dag); cbn.
  - rewrite bool_decide_eq_true. naive_solver.
  - naive_solver.
Qed.

Lemma integrity_rows_unique s : ti_keys_unique (task_instance s) → ti_keys_unique (integrity_rows s).
Proof.
  apply NoDup_fmap_filterb.
Qed.

Lemma created_keys_unique (p : BaseOperator → bool) d tasks :
  NoDup (task_id <$> tasks) →
  NoDup ((λ t, (dag_id dag, task_id t, d : datetime)) <$> List.filter p tasks).
Proof.
  intros Hnd. apply NoDup_fmap_filterb. apply (NoDup_fmap_1 (λ k, k.1.2)).
  rewrite <-list_fmap_compose. exact Hnd.
Qed.

(** What the state of a checked row becomes. *)
Definition verified_state (t : TaskInstance) : option TaskInstanceState :=
  if has_task dag (TI.task_id t) then
    if TI.state t ≟ Some REMOVED then None else TI.state t
  else if negb (DR._state dr ≟ DR_RUNNING) && negb (partial dag) then Some REMOVED
  else TI.state t.

Lemma verify_row_state t : TI.state (verify_row dag dr hook t) = verified_state t.
Proof.
  unfold verify_row, verified_state. cbv zeta.
  assert (TI.task_id (hook t) = TI.task_id t) as ->.
  { pose proof (hook_primary t) as Hp. unfold TI.primary in Hp. congruence. }
  rewrite hook_state. destruct (has_task dag (TI.task_id t)); cbn [andb].
  - rewrite hook_state. by case_bool_decide; [|rewrite hook_state].
  - case_bool_decide as E; [|by destruct (_ && _); [|rewrite hook_state]].
    rewrite hook_state, E. by destruct (_ && _).
Qed.

(** The rows after [verify_integrity]. *)
Lemma verify_integrity_spec s s'
  (Hkeys : ti_keys_unique (task_instance s)) (Hids : NoDup (task_ids dag))
  (Hdag : DR.dag_id dr = dag_id dag) (Hver : verify_integrity dag dr hook s = Ok s') :
  ti_keys_unique (task_instance s') ∧
  (∀ t, t ∈ task_dict dag → eligible t = true →
     ∃ row, row ∈ task_instance s' ∧
            TI.primary row = (dag_id dag, task_id t, DR.execution_date dr)) ∧
  (∀ t, t ∈ integrity_rows s →
     ∃ row, row ∈ task_instance s' ∧ TI.primary row = TI.primary t ∧
            TI.state row = verified_state t).
Proof.
  unfold verify_integrity in Hver. fold (integrity_rows s) in Hver.
  set (rows := integrity_rows s) in *.
  set (s1 := foldl _ s rows) in Hver. set (have := _ <$> rows) in Hver.
  assert (∀ t, t ∈ rows → TI.primary t ∈ (TI.primary <$> task_instance s)) as Hin.
  { intros t [Ht _]%integrity_rows_elem. by apply list_elem_of_fmap_2. }
  destruct (merge_fold (verify_row dag dr hook) rows s verify_row_primary
    (integrity_rows_unique s Hkeys) Hin) as (M1 & M2 & M3). fold s1 in M1, M2, M3.
  destruct (create_loop _ _ _ _ Hver) as (new & C1 & C2 & C3).
  assert (∀ tid, (dag_id dag, tid, DR.execution_date dr) ∈ (TI.primary <$> task_instance s) →
            tid ∈ task_ids dag → tid ∈ have) as Hhave.
  { intros tid (r & Hr & Hrin)%list_elem_of_fmap Htid. unfold TI.primary in Hr. injection Hr as R1 R2 R3.
    unfold have. apply list_elem_of_fmap. exists r. split.
    - pose proof (hook_primary r) as Hp. unfold TI.primary in Hp. congruence.
    - apply integrity_rows_elem. split_and!; [done|congruence|done|]. intros _. by rewrite <-R2. }
  assert (∀ t, t ∈ task_dict dag → task_id t ∈ task_ids dag) as Hid
    by (intros t Ht; by apply list_elem_of_fmap_2).
  split; [|split].
  - unfold ti_keys_unique. rewrite C1, fmap_app, M1. apply NoDup_app. split; [done|]. split.
    + intros k Hk. rewrite C2. intros (t & -> & [Ht Htd]%elem_of_filterb)%list_elem_of_fmap.
      bool_to_prop. match goal with H : _ ∉ have |- _ => apply H end. apply Hhave; [done|by apply Hid].
    + rewrite C2. by apply created_keys_unique.
  - intros t Ht Hel. destruct (decide (task_id t ∈ have)) as [Hh|Hh].
    + unfold have in Hh. apply list_elem_of_fmap in Hh as (r & Hr & Hrin).
      pose proof (M2 r Hrin) as Hf. apply find_ti_elem in Hf as [Hf1 Hf2].
      exists (verify_row dag dr hook r). split; [rewrite C1; apply elem_of_app; by left|].
      rewrite Hf2. apply integrity_rows_elem in Hrin as (_ & D1 & D2 & _).
      pose proof (hook_primary r) as Hp. unfold TI.primary in *. congruence.
    + assert ((dag_id dag, task_id t, DR.execution_date dr) ∈ (TI.primary <$> new)) as Hn.
      { rewrite C2. apply list_elem_of_fmap. exists t. split; [done|]. apply elem_of_filterb.
        split; [|done]. by rewrite Hel, bool_decide_eq_false_2. }
      apply list_elem_of_fmap in Hn as (row & Hk & Hrow). exists row. rewrite C1, elem_of_app. auto.
  - intros t Ht. pose proof (M2 t Ht) as Hf. apply find_ti_elem in Hf as [Hf1 Hf2].
    exists (verify_row dag dr hook t). rewrite C1, elem_of_app. split_and!; [by left|done|apply verify_row_state].
Qed.

(** C20: let the keys of the rows and the ids of the tasks be unique, the run be one
    of the DAG, and the mutation hook of the site keep the key and the state of a
    task instance.  When [verify_integrity] of a run returns, every task of the DAG
    that starts by the run's date (every task, in a backfill) has a row; a row whose
    task is gone is marked removed unless the run is running or the DAG is partial; a
    removed row whose task is back loses its state; the states of the others
    are kept; keys stay unique. *)
Theorem verify_integrity_correct s s'
  (Hkeys : ti_keys_unique (task_instance s)) (Hids : NoDup (task_ids dag))
  (Hdag : DR.dag_id dr = dag_id dag) (Hver : verify_integrity dag dr hook s = Ok s') :
  ti_keys_unique (task_instance s') ∧
  (∀ t, t ∈ task_dict dag → eligible t = true →
     ∃ row, row ∈ task_instance s' ∧
            TI.primary row = (dag_id dag, task_id t, DR.execution_date dr)) ∧
  (∀ t, t ∈ integrity_rows s →
     ∃ row, row ∈ task_instance s' ∧ TI.primary row = TI.primary t ∧
            TI.state row = verified_state t).
Proof. exact (verify_integrity_spec s s' Hkeys Hids Hdag Hver). Qed.
End Integrity.

(** ** Worked examples and witnesses *)

Section Witnesses.
Local Open Scope Z_scope.
Import Sample.

#[local] Instance w_settings : Settings :=
  {| ALLOW_FUTURE_EXEC_DATES := false; ti_hash := λ _, 0 |}.

Definition w_run : DagRun := mk_run "diamond" DR_RUNNING.
Definition w_rows (a b c d : option TaskInstanceState) : Session :=
  mk_session [mk_ti "diamond" "a" a; mk_ti "diamond" "b" b; mk_ti "diamond" "c" c;
              mk_ti "diamond" "d" d] [w_run].

Definition states_of (s : Session) : list (option TaskInstanceState) := TI.state <$> task_instance s.

(** Once [a] has succeeded a round schedules [b] and [c] together. *)
Example round_schedules_branches :
  (λ '(n, r, s'), (n, ur_schedulable r, states_of s', DR._state (ur_run r)))
    <$> schedule_round diamond w_run false (w_rows (Some SUCCESS) None None None)
  = Ok (2, ["b"; "c"], [Some SUCCESS; Some SCHEDULED; Some SCHEDULED; None], DR_RUNNING).
Proof. vm_compute. reflexivity. Qed.

(** The failure of [b] fails the downstream [d] at once. *)
Example round_fails_downstream :
  (λ '(n, r, s'), (n, ur_schedulable r, states_of s', DR._state (ur_run r)))
    <$> schedule_round diamond w_run false (w_rows (Some SUCCESS) (Some FAILED) (Some RUNNING) None)
  = Ok (0, [], [Some SUCCESS; Some FAILED; Some RUNNING; Some UPSTREAM_FAILED], DR_RUNNING).
Proof. vm_compute. reflexivity. Qed.

(** The check for premature tasks looks at every unfinished task instance with
    [flag_upstream_failed]: a task instance that is running while an upstream
    task failed (after the upstream task was cleared and failed again) is marked
    upstream-failed under its running process, and the run fails as deadlocked. *)
Example deadlock_check_overwrites_running :
  (λ '(n, r, s'), (n, states_of s', DR._state (ur_run r), ur_callback r))
    <$> schedule_round diamond w_run true
          (w_rows (Some SUCCESS) (Some FAILED) (Some SUCCESS) (Some RUNNING))
  = Ok (0, [Some SUCCESS; Some FAILED; Some SUCCESS; Some UPSTREAM_FAILED], DR_FAILED,
        Executed false "all_tasks_deadlocked").
Proof. vm_compute. reflexivity. Qed.

(** A join with [none_failed_or_skipped] whose upstream task was skipped is marked
    skipped by the check, which passes nevertheless: the bulk update schedules it, and
    the flush of the object overwrites this. *)
Example skipped_join_scheduled :
  (λ '(n, r, s'), (n, ur_schedulable r, TI.state ∘ current <$> ur_objs r, states_of s'))
    <$> schedule_round (mk_dag "diamond" [mk_op "a" ALL_SUCCESS [] ["b"]; mk_op "b" NONE_FAILED_OR_SKIPPED ["a"] []]) w_run false
          (mk_session [mk_ti "diamond" "a" (Some SKIPPED); mk_ti "diamond" "b" None] [w_run])
  = Ok (1, ["b"], [Some SKIPPED; Some SKIPPED], [Some SKIPPED; Some SKIPPED]).
Proof. vm_compute. reflexivity. Qed.

Lemma schedulable_sound_witness :
  ∃ r row task, update_state diamond w_run false (w_rows (Some SUCCESS) None None None) = Ok r ∧
    "b" ∈ ur_schedulable r ∧ TI.task_id row = "b" ∧ lookup_task diamond "b" = Some task.
Proof.
  eexists.
  destruct (schedulable_sound diamond w_run false (w_rows (Some SUCCESS) None None None)
    (match update_state diamond w_run false (w_rows (Some SUCCESS) None None None) with
     | Ok r => r | Err _ => {| ur_schedulable := []; ur_callback := NoCallback; ur_run := w_run;
                               ur_objs := []; ur_session := w_rows None None None None |} end) "b")
    as (row & task & _ & Hrow & _ & Ht & _).
  - apply (bool_decide_unpack _). vm_compute. done.
  - intros t Ht. apply (bool_decide_unpack _).
    repeat (apply elem_of_cons in Ht as [->|Ht]; [vm_compute; done|]). by apply elem_of_nil in Ht.
  - vm_compute. reflexivity.
  - apply (bool_decide_unpack _). vm_compute. done.
  - exists row, task. split; [vm_compute; reflexivity|]. split; [|done].
    apply (bool_decide_unpack _). vm_compute. done.
Defined.

Lemma round_frame_witness :
  ∃ n r s', schedule_round diamond w_run false (w_rows (Some SUCCESS) None None None) = Ok (n, r, s') ∧
    find_ti ("diamond", "a", 1000) s' = Some (mk_ti "diamond" "a" (Some SUCCESS)).
Proof.
  eexists _, _, _. split; [vm_compute; reflexivity|].
  eapply (round_frame diamond w_run false (w_rows (Some SUCCESS) None None None)).
  - apply (bool_decide_unpack _). vm_compute. done.
  - vm_compute. reflexivity.
  - vm_compute. reflexivity.
  - vm_compute. reflexivity.
  - right. apply (bool_decide_unpack _). vm_compute. done.
Defined.

Definition w_done : Session := w_rows (Some SUCCESS) (Some FAILED) (Some SUCCESS) (Some UPSTREAM_FAILED).

Lemma w_done_finished : all_finished diamond w_run w_done.
Proof.
  intros t Ht _. apply (bool_decide_unpack _).
  assert (run_rows diamond w_run w_done = task_instance w_done) as Heq by (vm_compute; reflexivity).
  rewrite Heq in Ht. simpl in Ht.
  repeat (apply elem_of_cons in Ht as [->|Ht]; [vm_compute; done|]). by apply elem_of_nil in Ht.
Qed.

Lemma finished_run_closed_witness :
  ∃ r, update_state diamond w_run false w_done = Ok r ∧ ur_schedulable r = [] ∧
       DR._state (ur_run r) = DR_FAILED.
Proof.
  apply (finished_run_closed diamond w_run false w_done [op_d]).
  - vm_compute. reflexivity.
  - apply w_done_finished.
Defined.

Lemma run_success_iff_witness :
  ∃ r, update_state diamond w_run false w_done = Ok r ∧
  (DR._state (ur_run r) = DR_SUCCESS ↔
   none_unfinished diamond w_run w_done ∧
   ∀ t, t ∈ leaf_rows diamond w_run [op_d] w_done → TI.state t ∈ State.success_states).
Proof.
  eexists. split; [vm_compute; reflexivity|].
  eapply (run_success_iff diamond w_run false w_done [op_d]).
  - vm_compute. reflexivity.
  - vm_compute. reflexivity.
Defined.

Lemma verify_integrity_correct_witness :
  ∃ s', verify_integrity diamond w_run id (mk_session [mk_ti "diamond" "a" (Some REMOVED)] [w_run]) = Ok s' ∧
    ti_keys_unique (task_instance s').
Proof.
  eexists. split; [vm_compute; reflexivity|].
  eapply (verify_integrity_correct diamond w_run id (λ _, eq_refl) (λ _, eq_refl)
            (mk_session [mk_ti "diamond" "a" (Some REMOVED)] [w_run])).
  - apply NoDup_singleton.
  - apply (bool_decide_unpack _). vm_compute. done.
  - reflexivity.
  - vm_compute. reflexivity.
Defined.
End Witnesses.
