(* ===== verification/MarkTasks.v ===== *)
(** * MarkTasks: marking task instances and runs

    [api/common/experimental/mark_tasks.py] and [DAG.set_task_instance_state]
    ([models/dag.py]): setting the state of tasks, of their relatives and of past
    and future runs, and the state of a whole run.

    The DAGs have no [SubDagOperator], so [get_subdag_runs] finds none.  The query
    locks and the objects are those of one session; [verify_integrity] commits
    before the query. *)

From S2P Require Import Prelude State Model Sample Graph Timetable DagRunQuery TaskInstance DagClear PoolSlots TiDeps DagRun.
Import Graph DagClear.

Module MarkTasks.
Local Open Scope Z_scope.

Section Mark.
Context (cron_schedule : string → Timetable.Schedule) (hook : TaskInstance → TaskInstance).

(** [sorted(set(l))]. *)
Fixpoint dedup_dates (l : list datetime) : list datetime :=
  match l with
  | [] => []
  | d :: l => if d ∈? l then dedup_dates l else d :: dedup_dates l
  end.

(** [DAG.get_latest_execution_date] and [DAG.get_dagruns_between]. *)
Definition get_latest_execution_date (dag : DAG) (s : Session) : option datetime :=
  Timetable.max_date (DR.execution_date <$> List.filter (λ dr, DR.dag_id dr ≟ dag_id dag) (dag_run s)).

Definition get_dagruns_between (dag : DAG) (start_date end_date : datetime) (s : Session) : list DagRun :=
  List.filter (λ dr, (DR.dag_id dr ≟ dag_id dag) && (start_date <=? DR.execution_date dr) &&
                     (DR.execution_date dr <=? end_date)) (dag_run s).

(** A schedule interval that is falsy: [None], an empty string, a zero delta. *)
Definition no_schedule (dag : DAG) : bool :=
  match schedule_interval dag with
  | None => true
  | Some (ScheduleCron e) => e ≟ ""
  | Some (ScheduleDelta d) => d =? 0
  end.

(** [default_start] is [dag.default_args['start_date']] when it is there. *)
Definition get_execution_dates (fuel : nat) (dag : DAG) (default_start : option datetime)
    (execution_date : datetime) (future past : bool) (s : Session) : result (list datetime) :=
  match get_latest_execution_date dag s with
  | None => Err ValueError
  | Some latest =>
      let end_date := if future then latest else execution_date in
      let start_date := match default_start, dag_start_date dag with
                        | Some d, _ => d
                        | None, Some d => d
                        | None, None => execution_date
                        end in
      let start_date := if past then start_date else execution_date in
      match schedule_interval dag with
      | Some (ScheduleCron "@once") => Ok [start_date]
      | _ =>
          if no_schedule dag then
            Ok (py_sorted Z.leb (dedup_dates (DR.execution_date <$> get_dagruns_between dag start_date end_date s)))
          else Timetable.get_run_dates cron_schedule fuel dag (utcnow s) (Some start_date) (Some end_date) false
      end
  end.

(** [find_task_relatives]: the ids it yields. *)
Definition find_task_relatives (dag : DAG) (tasks : list BaseOperator) (downstream upstream : bool)
    : result (list string) :=
  concatM (λ task,
    d ← (if downstream then Graph.get_flat_relatives dag task false else Ok []);
    u ← (if upstream then Graph.get_flat_relatives dag task true else Ok []);
    Ok (task_id task :: (task_id <$> d) ++ (task_id <$> u))) tasks.

Definition verify_dag_run_integrity (dag : DAG) (dates : list datetime) (s : Session)
    : result (list datetime * Session) :=
  foldM (λ st dag_run,
    s ← DagRun.verify_integrity dag dag_run hook st.2;
    Ok (st.1 ++ [DR.execution_date dag_run], s))
    (DagRunQuery.find [dag_id dag] None dates None None None None None false s) ([], s).

(** The filter of [get_all_dag_task_query]. *)
Definition get_all_dag_task_query (dag : DAG) (state : TaskInstanceState) (task_ids' : list string)
    (confirmed_dates : list datetime) (t : TaskInstance) : bool :=
  (TI.dag_id t ≟ dag_id dag) && (TI.execution_date t ∈? confirmed_dates) &&
  (TI.task_id t ∈? task_ids') && negb (TI.state t ≟ Some state).

(** What [set_state] does to one row. *)
Definition mark_ti (now : datetime) (state : TaskInstanceState) (t : TaskInstance) : TaskInstance :=
  let t := TI.set_state (Some state) t in
  if Some state ∈? State.finished
  then TaskInstance.set_duration (TI.set_dates (TI.start_date t) (Some now) (TI.duration t) t) else t.

(** [set_state]; the result is the list of the altered task instances. *)
Definition mark_set_state (fuel : nat) (dag : DAG) (default_start : option datetime) (tasks : list BaseOperator)
    (execution_date : datetime) (upstream downstream future past : bool) (state : TaskInstanceState)
    (commit : bool) (s : Session) : result (list TaskInstance * Session) :=
  match tasks with
  | [] => Ok ([], s)
  | _ =>
      dates ← get_execution_dates fuel dag default_start execution_date future past s;
      ids ← find_task_relatives dag tasks downstream upstream;
      '(confirmed_dates, s) ← verify_dag_run_integrity dag dates s;
      let tis := List.filter (get_all_dag_task_query dag state ids confirmed_dates) (task_instance s) in
      if commit then Ok (mark_ti (utcnow s) state <$> tis,
                         foldl (λ s t, merge_ti (mark_ti (utcnow s) state t) s) s tis)
      else Ok (tis, s)
  end.

(** [_set_dag_run_state]: [.one()] raises unless exactly one run matches. *)
Definition _set_dag_run_state (did : string) (execution_date : datetime) (state : DagRunState) (s : Session)
    : result Session :=
  match List.filter (λ dr, (DR.dag_id dr ≟ did) && (DR.execution_date dr ≟ execution_date)) (dag_run s) with
  | [dr] =>
      let dr := DagRunQuery.set_dagrun_state (utcnow s) state dr in
      let dr := if state ≟ DR_RUNNING
                then {| DR.dag_id := DR.dag_id dr; DR.queued_at := DR.queued_at dr;
                        DR.execution_date := DR.execution_date dr; DR.start_date := Some (utcnow s);
                        DR.end_date := None; DR._state := DR._state dr; DR.run_id := DR.run_id dr;
                        DR.external_trigger := DR.external_trigger dr; DR.run_type := DR.run_type dr;
                        DR.last_scheduling_decision := DR.last_scheduling_decision dr; DR.dag_hash := DR.dag_hash dr |}
                else {| DR.dag_id := DR.dag_id dr; DR.queued_at := DR.queued_at dr;
                        DR.execution_date := DR.execution_date dr; DR.start_date := DR.start_date dr;
                        DR.end_date := Some (utcnow s); DR._state := DR._state dr; DR.run_id := DR.run_id dr;
                        DR.external_trigger := DR.external_trigger dr; DR.run_type := DR.run_type dr;
                        DR.last_scheduling_decision := DR.last_scheduling_decision dr; DR.dag_hash := DR.dag_hash dr |} in
      Ok (DagRunQuery.merge_run dr s)
  | _ => Err DBAPIError
  end.

Definition set_dag_run_state_to_success (fuel : nat) (dag : DAG) (default_start : option datetime)
    (execution_date : datetime) (commit : bool) (s : Session) : result (list TaskInstance * Session) :=
  s ← (if commit then _set_dag_run_state (dag_id dag) execution_date DR_SUCCESS s else Ok s);
  mark_set_state fuel dag default_start (task_dict dag) execution_date false false false false SUCCESS commit s.

Definition set_dag_run_state_to_failed (fuel : nat) (dag : DAG) (default_start : option datetime)
    (execution_date : datetime) (commit : bool) (s : Session) : result (list TaskInstance * Session) :=
  s ← (if commit then _set_dag_run_state (dag_id dag) execution_date DR_FAILED s else Ok s);
  let running := TI.task_id <$> List.filter (λ t,
    (TI.dag_id t ≟ dag_id dag) && (TI.execution_date t ≟ execution_date) &&
    (TI.task_id t ∈? task_ids dag) && (TI.state t ≟ Some RUNNING)) (task_instance s) in
  mark_set_state fuel dag default_start (List.filter (λ t, task_id t ∈? running) (task_dict dag))
    execution_date false false false false FAILED commit s.

Definition set_dag_run_state_to_running (dag : DAG) (execution_date : datetime) (commit : bool) (s : Session)
    : result Session :=
  if commit then _set_dag_run_state (dag_id dag) execution_date DR_RUNNING s else Ok s.

(** [DAG.set_task_instance_state]: mark the task, then clear the failed tasks
    downstream of it.  [subdag.clear] follows external markers. *)
Definition set_task_instance_state (allow_future : bool) (marker : DAG → TaskInstance → Marker)
    (dag_bag : string → option DAG) (fuel : nat) (dag : DAG) (default_start : option datetime)
    (tid : string) (execution_date : datetime) (state : TaskInstanceState)
    (upstream downstream future past commit : bool) (s : Session) : result (list TaskInstance * Session) :=
  task ← get_task dag tid;
  '(altered, s) ← mark_set_state fuel dag default_start [task] execution_date upstream downstream future past
                    state commit s;
  if negb commit then Ok (altered, s)
  else
    subdag ← partial_subset dag (λ x, x ≟ tid) true false false;
    let q := {| q_task_ids := None; q_start_date := if past then None else Some execution_date;
                q_end_date := if future then None else Some execution_date;
                q_state := clear_states true false |} in
    r ← dag_clear allow_future marker dag_bag subdag q true (Some DR_QUEUED) true [tid] s;
    Ok (altered, r.2).
End Mark.
End MarkTasks.
Import TiDeps DagRun MarkTasks.

Section MarkFacts.
Local Open Scope Z_scope.
Context (cron_schedule : string → Timetable.Schedule) (hook : TaskInstance → TaskInstance)
        (hook_primary : ∀ t, TI.primary (hook t) = TI.primary t)
        (hook_state : ∀ t, TI.state (hook t) = TI.state t).
Context (dag : DAG) (Hwf : graph_wf dag).

Lemma primary_mark_ti now st t : TI.primary (mark_ti now st t) = TI.primary t.
Proof.
  unfold mark_ti. destruct (_ ∈? _); [|done].
  by destruct (TaskInstance.set_duration_fields (TI.set_dates (TI.start_date (TI.set_state (Some st) t)) (Some now)
    (TI.duration (TI.set_state (Some st) t)) (TI.set_state (Some st) t))) as (_ & _ & _ & ->).
Qed.

Lemma state_mark_ti now st t : TI.state (mark_ti now st t) = Some st.
Proof.
  unfold mark_ti. destruct (_ ∈? _); [|done].
  by destruct (TaskInstance.set_duration_fields (TI.set_dates (TI.start_date (TI.set_state (Some st) t)) (Some now)
    (TI.duration (TI.set_state (Some st) t)) (TI.set_state (Some st) t))) as (-> & _).
Qed.

(** A task that is to be marked: one of the given ones or, with the flags, a
    relative of one. *)
Definition to_mark (tasks : list BaseOperator) (downstream upstream : bool) (x : string) : Prop :=
  ∃ t, t ∈ tasks ∧ (x = task_id t ∨ (downstream = true ∧ relative_of dag false t x) ∨
                    (upstream = true ∧ relative_of dag true t x)).

Lemma relative_in_dag up t x :
  t ∈ task_dict dag → relative_of dag up t x → ∃ u, u ∈ task_dict dag ∧ task_id u = x.
Proof.
  intros Ht (y & Hy & Hyx). assert (x ∈ task_ids dag) as (u & -> & Hu)%list_elem_of_fmap; [|eauto].
  assert (y ∈ task_ids dag) as Hyd by (by eapply wf_closed).
  clear Hy. induction Hyx as [|y z x Hyz _ IH]; [done|]. apply IH. by eapply edge_target.
Qed.

Lemma find_task_relatives_spec tasks downstream upstream :
  (∀ t, t ∈ tasks → t ∈ task_dict dag) →
  ∃ ids, find_task_relatives dag tasks downstream upstream = Ok ids ∧
    ∀ x, x ∈ ids ↔ to_mark tasks downstream upstream x.
Proof.
  intros Hall. unfold find_task_relatives, to_mark. apply (concatM_spec _ (λ t x, x = task_id t ∨
    (downstream = true ∧ relative_of dag false t x) ∨ (upstream = true ∧ relative_of dag true t x))).
  intros t Ht. specialize (Hall t Ht).
  assert (∀ (b up : bool), ∃ l, (if b then get_flat_relatives dag t up else Ok []) = Ok l ∧
    ∀ x, x ∈ (task_id <$> l) ↔ b = true ∧ relative_of dag up t x) as HH.
  { intros [] up; [|exists []; split; [done|]; set_solver].
    destruct (get_flat_relatives_spec dag Hwf t up Hall) as (l & -> & Hl). exists l. split; [done|].
    intros x. rewrite list_elem_of_fmap. setoid_rewrite Hl. split; [naive_solver|]. intros [_ Hx].
    destruct (relative_in_dag up t x Hall Hx) as (u & Hu & <-). eauto. }
  destruct (HH downstream false) as (d & -> & Hd), (HH upstream true) as (u & -> & Hu).
  eexists. split; [done|]. intros x. rewrite elem_of_cons, elem_of_app, Hd, Hu. done.
Qed.

Lemma verify_dag_run_integrity_keys dates s confirmed s1 :
  verify_dag_run_integrity hook dag dates s = Ok (confirmed, s1) →
  ti_keys_unique (task_instance s) → ti_keys_unique (task_instance s1).
Proof.
  unfold verify_dag_run_integrity. intros Hv Hk.
  assert (ti_keys_unique (task_instance ((confirmed, s1).2))) as H; [|exact H].
  eapply (foldM_invariant (λ st : list datetime * Session, ti_keys_unique (task_instance st.2)) _ _ ([], s)); [|exact Hk|exact Hv].
  intros dr [c a] [c' b] Hdr Ha Hb. cbn in Ha, Hb |- *. apply result_bind_ok in Hb as (s2 & Hs2 & [= <- <-]).
  eapply (verify_integrity_spec dag dr hook hook_primary hook_state); [exact Ha|apply (wf_ids dag Hwf)| |exact Hs2].
  apply elem_of_py_sorted, elem_of_filterb in Hdr as [Hf _]. unfold DagRunQuery.in_filter in Hf. bool_to_prop.
  repeat match goal with H : _ && _ = true |- _ => apply andb_true_iff in H as [H _] end.
  bool_to_prop. set_solver.
Qed.

(** Marking tasks sets the state of exactly the task instances, in the
    confirmed runs, of the given tasks and of the relatives that the flags ask
    for; every other row stays as the integrity check left it; the list returned
    is the rows that changed, and without [commit] nothing is set. *)
Theorem mark_set_state_correct fuel ds tasks d up down future past st commit s altered s'
  (Hk : ti_keys_unique (task_instance s)) (Htasks : ∀ t, t ∈ tasks → t ∈ task_dict dag) (Hne : tasks ≠ [])
  (Hrun : mark_set_state cron_schedule hook fuel dag ds tasks d up down future past st commit s = Ok (altered, s')) :
  ∃ dates confirmed s1,
    get_execution_dates cron_schedule fuel dag ds d future past s = Ok dates ∧
    verify_dag_run_integrity hook dag dates s = Ok (confirmed, s1) ∧
    let in_scope t := TI.dag_id t = dag_id dag ∧ TI.execution_date t ∈ confirmed ∧
                      to_mark tasks down up (TI.task_id t) in
    (∀ t, t ∈ task_instance s1 → commit = true → in_scope t →
       ∃ t', find_ti (TI.primary t) s' = Some t' ∧ TI.state t' = Some st) ∧
    (∀ t, t ∈ task_instance s1 → (commit = false ∨ ¬ in_scope t ∨ TI.state t = Some st) →
       find_ti (TI.primary t) s' = Some t) ∧
    (∀ k, k ∈ (TI.primary <$> altered) ↔
       ∃ t, t ∈ task_instance s1 ∧ TI.primary t = k ∧ in_scope t ∧ TI.state t ≠ Some st).
Proof.
  unfold mark_set_state in Hrun. destruct tasks as [|t0 tl]; [done|]. set (ts := t0 :: tl) in *.
  apply result_bind_ok in Hrun as (dates & Hdates & Hrun). apply result_bind_ok in Hrun as (ids & Hids & Hrun).
  apply result_bind_ok in Hrun as ([confirmed s1] & Hver & Hrun). exists dates, confirmed, s1.
  split; [done|]. split; [done|].
  destruct (find_task_relatives_spec ts down up Htasks) as (ids' & Hids' & Hm). rewrite Hids in Hids'.
  injection Hids' as <-. pose proof (verify_dag_run_integrity_keys _ _ _ _ Hver Hk) as Hk1.
  set (q := get_all_dag_task_query dag st ids confirmed) in *. cbv zeta in Hrun |- *.
  assert (∀ t, q t = true ↔ (TI.dag_id t = dag_id dag ∧ TI.execution_date t ∈ confirmed ∧
    to_mark ts down up (TI.task_id t)) ∧ TI.state t ≠ Some st) as Hq.
  { intros t. unfold q, get_all_dag_task_query. rewrite !andb_true_iff, negb_true_iff, !bool_decide_eq_true,
      bool_decide_eq_false, Hm. tauto. }
  assert (∀ t, t ∈ task_instance s1 → find_ti (TI.primary t) s' =
    Some (if commit && q t then mark_ti (utcnow s1) st t else t)) as Hfind.
  { intros t Ht. destruct commit; injection Hrun as _ <-; [|by apply find_ti_unique].
    pose proof (merge_fold (mark_ti (utcnow s1) st) (List.filter q (task_instance s1)) s1
      (primary_mark_ti _ _) (NoDup_fmap_filterb _ _ _ Hk1)) as MF. cbv zeta in MF.
    assert (∀ l a, utcnow a = utcnow s1 → foldl (λ s0 t1, merge_ti (mark_ti (utcnow s0) st t1) s0) a l =
      foldl (λ s0 t1, merge_ti (mark_ti (utcnow s1) st t1) s0) a l) as Hnow.
    { induction l as [|x l IH]; intros a Ha; [done|]. cbn [foldl]. rewrite Ha. apply IH.
      unfold merge_ti. by destruct (existsb _ _). }
    rewrite Hnow by done. destruct MF as (_ & M2 & M3).
    { intros x [_ Hx]%elem_of_filterb. by apply list_elem_of_fmap_2. }
    cbn [andb]. destruct (q t) eqn:Eq; [apply M2, elem_of_filterb; done|].
    rewrite M3; [by apply find_ti_unique|]. intros (u & Eu & [Hqu Hu]%elem_of_filterb)%list_elem_of_fmap.
    rewrite (ti_key_inj _ t u Hk1 Ht Hu Eu) in Eq. congruence. }
  split_and!.
  - intros t Ht -> Hin. rewrite (Hfind t Ht). cbn [andb]. destruct (q t) eqn:Eq.
    + eexists. split; [done|]. apply state_mark_ti.
    + exists t. split; [done|]. destruct (decide (TI.state t = Some st)) as [|Hs]; [done|].
      assert (q t = true) by (by apply Hq). congruence.
  - intros t Ht Hor. rewrite (Hfind t Ht). destruct (commit && q t) eqn:Eq; [|done]. exfalso.
    apply andb_true_iff in Eq as [-> Eq]. apply Hq in Eq. naive_solver.
  - intros k. assert (TI.primary <$> altered = TI.primary <$> List.filter q (task_instance s1)) as ->.
    { destruct commit; injection Hrun as <- _; [|done]. rewrite <-list_fmap_compose.
      apply list_fmap_ext. intros i t _. apply primary_mark_ti. }
    rewrite list_elem_of_fmap. setoid_rewrite elem_of_filterb. setoid_rewrite Hq. naive_solver.
Qed.
End MarkFacts.

(** ** Samples *)

Module MarkSample.
Local Open Scope Z_scope.

(** Rows of the run at 1000 of the diamond, which has no schedule. *)
Definition rows : Session :=
  Sample.mk_session [Sample.mk_ti "diamond" "a" (Some SUCCESS); Sample.mk_ti "diamond" "b" (Some FAILED);
                     Sample.mk_ti "diamond" "c" None; Sample.mk_ti "diamond" "d" (Some UPSTREAM_FAILED)]
    [Sample.mk_run "diamond" DR_RUNNING].

Definition no_cron (_ : string) : Timetable.Schedule := Timetable.DeltaSchedule 1.

Definition mark_b (d : datetime) : result (list TaskInstance * Session) :=
  mark_set_state no_cron (λ t, t) 10 Sample.diamond None [Sample.op_b] d false false false false SUCCESS true rows.

Definition marked : list TaskInstance * Session := Eval vm_compute in
  match mark_b 1000 with Ok r => r | Err _ => ([], rows) end.

Lemma mark_set_state_correct_witness :
  mark_b 1000 = Ok marked ∧
  ∃ t', find_ti ("diamond", "b", 1000) marked.2 = Some t' ∧ TI.state t' = Some SUCCESS.
Proof.
  assert (mark_b 1000 = Ok marked) as H by (vm_compute; reflexivity). split; [exact H|].
  destruct (mark_set_state_correct no_cron (λ t, t) (λ t, eq_refl) (λ t, eq_refl) Sample.diamond diamond_wf 10 None
    [Sample.op_b] 1000 false false false false SUCCESS true rows marked.1 marked.2)
    as (dates & confirmed & s1 & Hd & Hv & Hin & _).
  - apply (bool_decide_unpack _). vm_compute. done.
  - intros t Ht%list_elem_of_singleton. subst t. right. left.
  - done.
  - exact H.
  - vm_compute in Hd. injection Hd as <-. vm_compute in Hv. injection Hv as <- <-.
    apply (Hin (Sample.mk_ti "diamond" "b" (Some FAILED))); [right; left|done|].
    split; [done|]. split; [left|]. exists Sample.op_b. split; [left|by left].
Defined.

(** There is no run at 2000, so no date is found; then every run is confirmed
    and the task is marked in the run at 1000. *)
Example no_run_marks_all_runs :
  match mark_b 2000 with Ok r => TI.primary <$> r.1 | Err _ => [] end = [("diamond", "b", 1000)].
Proof. vm_compute. done. Qed.
End MarkSample.
