(* ===== verification/Executor.v ===== *)
(** * Executor: the executors

    [executors/base_executor.py] with the back ends of
    [sequential_executor.py] and [local_executor.py], and
    the router of [celery_kubernetes_executor.py].

    [BaseExecutor] is an abstract class: its heartbeat calls [execute_async] and
    [sync], which the subclasses implement.  Here the class is the record
    [Executor X], where [X] holds the attributes a subclass adds, and the
    methods a subclass provides are the type class [Backend X], with what the
    base class relies on as its laws.  The theorems about the base class are
    proved against that interface, and each back end is an instance of it.

    Python's ordered dictionaries are association lists in insertion order. *)

From S2P Require Import Prelude State Model Sample Graph DagRunQuery TaskInstance.

Abbreviation TaskInstanceKey := TaskInstance.TaskInstanceKey.

#[export] Existing Instance TaskInstance.TaskInstanceKey_eq_dec.

#[export] Instance TaskInstanceKey_countable : Countable TaskInstanceKey.
Proof.
  apply (inj_countable'
    (λ k, (TaskInstance.key_dag_id k, TaskInstance.key_task_id k,
           TaskInstance.key_execution_date k, TaskInstance.key_try_number k))
    (λ '(d, t, e, n), TaskInstance.Build_TaskInstanceKey d t e n)).
  by intros [].
Defined.

(** ** Dictionaries *)

Section Dict.
Context {V : Type}.

Definition dict_in (k : TaskInstanceKey) (d : list (TaskInstanceKey * V)) : bool :=
  existsb (λ e, e.1 ≟ k) d.

Definition dict_get (k : TaskInstanceKey) (d : list (TaskInstanceKey * V)) : option V :=
  snd <$> List.find (λ e, e.1 ≟ k) d.

(** [d[k] = v]: an existing key keeps its position. *)
Definition dict_set (k : TaskInstanceKey) (v : V) (d : list (TaskInstanceKey * V)) :=
  if dict_in k d then (λ e, if e.1 ≟ k then (k, v) else e) <$> d else d ++ [(k, v)].

(** [d.pop(k)]. *)
Definition dict_pop (k : TaskInstanceKey) (d : list (TaskInstanceKey * V)) :=
  List.filter (λ e, negb (e.1 ≟ k)) d.

(** [{**a, **b}]. *)
Definition dict_update (a b : list (TaskInstanceKey * V)) :=
  foldl (λ d e, dict_set e.1 e.2 d) a b.
End Dict.

Module Executor.
Local Open Scope Z_scope.

(** ** The base class *)

Record QueuedTaskInstance := {
  qt_command : list string;
  qt_priority : Z;
  qt_queue : option string;
  qt_ti : TaskInstance;
}.

Record Executor (X : Type) := mkExecutor {
  parallelism : Z;
  queued_tasks : list (TaskInstanceKey * QueuedTaskInstance);
  running : gset TaskInstanceKey;
  event_buffer : list (TaskInstanceKey * (option TaskInstanceState * option string));
  impl : X;
}.
Arguments mkExecutor {X} _ _ _ _ _.
Arguments parallelism {X} _.
Arguments queued_tasks {X} _.
Arguments running {X} _.
Arguments event_buffer {X} _.
Arguments impl {X} _.

(** [BaseExecutor.__init__]. *)
Definition init {X} (parallelism : Z) (x : X) : Executor X := mkExecutor parallelism [] ∅ [] x.

Section Base.
Context {X : Type}.

Definition with_queued q (e : Executor X) := mkExecutor (parallelism e) q (running e) (event_buffer e) (impl e).
Definition with_running r (e : Executor X) := mkExecutor (parallelism e) (queued_tasks e) r (event_buffer e) (impl e).
Definition with_events b (e : Executor X) := mkExecutor (parallelism e) (queued_tasks e) (running e) b (impl e).
Definition with_impl (x : X) (e : Executor X) := mkExecutor (parallelism e) (queued_tasks e) (running e) (event_buffer e) x.

Definition queue_command (ti : TaskInstance) (command : list string) (priority : Z)
    (queue : option string) (e : Executor X) : Executor X :=
  let key := TaskInstance.key ti in
  if negb (dict_in key (queued_tasks e)) && negb (bool_decide (key ∈ running e)) then
    with_queued (dict_set key {| qt_command := command; qt_priority := priority;
                                 qt_queue := queue; qt_ti := ti |} (queued_tasks e)) e
  else e.

(** [queue_task_instance]; [command_as_list] builds the command line for the
    pool that is used. *)
Definition queue_task_instance (command_as_list : TaskInstance → string → list string)
    (dag : DAG) (task : BaseOperator) (ti : TaskInstance) (pool : option string) (e : Executor X)
    : result (Executor X) :=
  let pool := TaskInstance.or_string pool (TI.pool ti) in
  priority ← Graph.priority_weight_total dag task;
  Ok (queue_command ti (command_as_list ti pool) priority (Some (op_queue task)) e).

Definition executor_has_task (ti : TaskInstance) (e : Executor X) : bool :=
  dict_in (TaskInstance.key ti) (queued_tasks e) || bool_decide (TaskInstance.key ti ∈ running e).

(** [sorted(..., reverse=True)] is stable: equal priorities stay in queue order. *)
Definition higher_priority (a b : TaskInstanceKey * QueuedTaskInstance) : bool :=
  qt_priority b.2 <=? qt_priority a.2.

Definition order_queued_tasks_by_priority (e : Executor X) : list (TaskInstanceKey * QueuedTaskInstance) :=
  py_sorted higher_priority (queued_tasks e).

Definition change_state (key : TaskInstanceKey) (state : option TaskInstanceState)
    (info : option string) (e : Executor X) : Executor X :=
  let e := with_running (running e ∖ {[key]}) e in
  with_events (dict_set key (state, info) (event_buffer e)) e.

Definition fail key info (e : Executor X) := change_state key (Some FAILED) info e.
Definition success key info (e : Executor X) := change_state key (Some SUCCESS) info e.

Definition get_event_buffer (dag_ids : option (list string)) (e : Executor X)
    : list (TaskInstanceKey * (option TaskInstanceState * option string)) * Executor X :=
  match dag_ids with
  | None => (event_buffer e, with_events [] e)
  | Some ids =>
      foldl (λ '(cleared, e) k,
               if TaskInstance.key_dag_id k ∈? ids then
                 match dict_get k (event_buffer e) with
                 | Some v => (dict_set k v cleared, with_events (dict_pop k (event_buffer e)) e)
                 | None => (cleared, e)
                 end
               else (cleared, e))
        ([], e) (fst <$> event_buffer e)
  end.

Definition sys_maxsize : Z := 9223372036854775807.

Definition slots_available (e : Executor X) : Z :=
  if parallelism e =? 0 then sys_maxsize
  else parallelism e - Z.of_nat (size (running e)) - Z.of_nat (length (queued_tasks e)).

Definition validate_command (command : list string) : result unit :=
  if bool_decide (take 3 command = ["airflow"; "tasks"; "run"]) then Ok tt else Err ValueError.

Definition try_adopt_task_instances (tis : list TaskInstance) (e : Executor X)
    : list TaskInstance * Executor X := (tis, e).
End Base.

(** ** The interface to a back end *)

(** What a subclass provides.  [execute_async] may only change its own
    attributes; [sync] may report tasks, which removes them from [running]. *)
Class Backend (X : Type) := {
  execute_async : TaskInstanceKey → list string → option string → string →
                  Executor X → result (Executor X);
  sync : Executor X → result (Executor X);
  execute_async_frame : ∀ k c q cfg e e', execute_async k c q cfg e = Ok e' →
    parallelism e' = parallelism e ∧ queued_tasks e' = queued_tasks e ∧ running e' = running e ∧
    event_buffer e' = event_buffer e;
  sync_frame : ∀ e e', sync e = Ok e' →
    parallelism e' = parallelism e ∧ queued_tasks e' = queued_tasks e ∧ running e' ⊆ running e;
}.

Section Heartbeat.
Context `{Backend X}.

Definition trigger_step (e : Executor X) (entry : TaskInstanceKey * QueuedTaskInstance)
    : result (Executor X) :=
  let '(key, q) := entry in
  let e := with_queued (dict_pop key (queued_tasks e)) e in
  let e := with_running ({[key]} ∪ running e) e in
  execute_async key (qt_command q) (qt_queue q) (TI.executor_config (qt_ti q)) e.

Definition trigger_tasks (open_slots : Z) (e : Executor X) : result (Executor X) :=
  let sorted_queue := order_queued_tasks_by_priority e in
  let n := Z.to_nat (Z.min open_slots (Z.of_nat (length (queued_tasks e)))) in
  foldM trigger_step (take n sorted_queue) e.

Definition heartbeat_open_slots (e : Executor X) : Z :=
  if parallelism e =? 0 then Z.of_nat (length (queued_tasks e))
  else parallelism e - Z.of_nat (size (running e)).

Definition heartbeat (e : Executor X) : result (Executor X) :=
  e ← trigger_tasks (heartbeat_open_slots e) e; sync e.

End Heartbeat.
End Executor.
Import Executor.

(** ** Facts about dictionaries *)

Section DictFacts.
Context {V : Type}.
Implicit Types (d : list (TaskInstanceKey * V)).

Lemma dict_in_elem k d : dict_in k d = true ↔ k ∈ (fst <$> d).
Proof.
  unfold dict_in. rewrite existsb_elem, list_elem_of_fmap. split.
  - intros (e & He & Hk). bool_to_prop. eauto.
  - intros (e & -> & He). exists e. split; [done|]. by apply bool_decide_eq_true.
Qed.

Lemma dict_in_not_elem k d : dict_in k d = false ↔ k ∉ (fst <$> d).
Proof. rewrite <-dict_in_elem. destruct (dict_in k d); split; congruence || done. Qed.

Lemma dict_set_new k v d : k ∉ (fst <$> d) → dict_set k v d = d ++ [(k, v)].
Proof. intros Hk. unfold dict_set. by rewrite (proj2 (dict_in_not_elem k d) Hk). Qed.

Lemma dict_set_keys k v d :
  k ∈ (fst <$> d) → fst <$> dict_set k v d = fst <$> d.
Proof.
  intros Hk. unfold dict_set. rewrite (proj2 (dict_in_elem k d) Hk), <-list_fmap_compose.
  apply list_fmap_ext. intros i e _. simpl. case_bool_decide; [by subst|done].
Qed.

Lemma dict_set_NoDup k v d : NoDup (fst <$> d) → NoDup (fst <$> dict_set k v d).
Proof.
  intros Hd. destruct (decide (k ∈ (fst <$> d))) as [Hk|Hk].
  - by rewrite dict_set_keys.
  - rewrite dict_set_new, fmap_app by done. apply NoDup_app. split_and!; [done| |apply NoDup_singleton].
    intros x Hx ->%list_elem_of_singleton. done.
Qed.

Lemma dict_get_set k v d : dict_get k (dict_set k v d) = Some v.
Proof.
  unfold dict_get. destruct (decide (k ∈ (fst <$> d))) as [Hk|Hk].
  - unfold dict_set. rewrite (proj2 (dict_in_elem k d) Hk).
    induction d as [|e d IH]; [by apply elem_of_nil in Hk|].
    rewrite fmap_cons in Hk. apply elem_of_cons in Hk as [->|Hk]; simpl.
    + rewrite (bool_decide_eq_true_2 (e.1 = e.1)) by done. simpl. by rewrite bool_decide_eq_true_2.
    + destruct (decide (e.1 = k)) as [Hek|Hek].
      * rewrite (bool_decide_eq_true_2 (e.1 = k)) by done. simpl. by rewrite bool_decide_eq_true_2.
      * rewrite !(bool_decide_eq_false_2 (e.1 = k)) by done. by apply IH.
  - rewrite dict_set_new by done. induction d as [|e d IH]; simpl; [by rewrite bool_decide_eq_true_2|].
    rewrite fmap_cons in Hk. apply not_elem_of_cons in Hk as [Hk1 Hk2].
    rewrite bool_decide_eq_false_2 by congruence. by apply IH.
Qed.

Lemma dict_pop_elem k d x : x ∈ dict_pop k d ↔ x ∈ d ∧ x.1 ≠ k.
Proof.
  unfold dict_pop. rewrite elem_of_filterb, negb_true_iff, bool_decide_eq_false. tauto.
Qed.

Lemma dict_pop_NoDup k d : NoDup (fst <$> d) → NoDup (fst <$> dict_pop k d).
Proof.
  apply NoDup_fmap_filterb.
Qed.
Lemma dict_pop_filter k ks d :
  List.filter (λ x, negb (x.1 ∈? ks)) (dict_pop k d) = List.filter (λ x, negb (x.1 ∈? k :: ks)) d.
Proof.
  unfold dict_pop. induction d as [|x xs IH]; [done|]. cbn [List.filter].
  destruct (decide (x.1 = k)) as [->|Hne].
  - rewrite (bool_decide_eq_true_2 (k = k)) by done. rewrite (bool_decide_eq_true_2 (k ∈ _)) by left. exact IH.
  - rewrite (bool_decide_eq_false_2 (x.1 = k)) by done. cbn [List.filter negb].
    assert ((x.1 ∈? k :: ks) = (x.1 ∈? ks)) as ->.
    { apply bool_decide_ext. rewrite elem_of_cons. naive_solver. }
    destruct (negb (x.1 ∈? ks)); [by f_equal|done].
Qed.
End DictFacts.

(** ** The invariant of the base class *)

Section Invariant.
Local Open Scope Z_scope.
Context `{Backend X}.
Implicit Types (e : Executor X).

(** A task is queued once, is not queued and running at the same time, and no
    more tasks run than the parallelism allows (0 means no limit). *)
Record exec_ok (e : Executor X) : Prop := {
  queued_once : NoDup (fst <$> queued_tasks e);
  queued_not_running : ∀ k, k ∈ (fst <$> queued_tasks e) → k ∉ running e;
  running_bounded : 0 < parallelism e → Z.of_nat (size (running e)) ≤ parallelism e;
}.

Lemma init_ok p (x : X) : 0 ≤ p → exec_ok (Executor.init p x).
Proof.
  intros Hp. split.
  - constructor.
  - by intros k ?%elem_of_nil.
  - intros _. change (Z.of_nat (size (∅ : gset TaskInstanceKey)) ≤ p). rewrite size_empty. lia.
Qed.

Lemma queue_command_ok ti c p q e : exec_ok e → exec_ok (queue_command ti c p q e).
Proof.
  intros [H1 H2 H3]. unfold queue_command.
  destruct (_ && _) eqn:E; [|done]. bool_to_prop. 
  match goal with H : dict_in _ _ = false |- _ => apply dict_in_not_elem in H as Hq end.
  split; simpl; [by apply dict_set_NoDup| |done].
  intros k. rewrite dict_set_new, fmap_app by done. intros [Hk|Hk%list_elem_of_singleton]%elem_of_app; [by apply H2|].
  by subst k.
Qed.

Lemma change_state_ok k st i e : exec_ok e → exec_ok (change_state k st i e).
Proof.
  intros [H1 H2 H3]. split; simpl; [done| |].
  - intros x Hx. specialize (H2 x Hx). set_solver.
  - intros Hp. specialize (H3 Hp).
    assert (size (running e ∖ {[k]}) ≤ size (running e))%nat by (apply subseteq_size; set_solver). lia.
Qed.

(** Triggering a list of queued tasks moves exactly these to [running]. *)
Lemma trigger_loop l e e' :
  NoDup (fst <$> l) → foldM trigger_step l e = Ok e' →
  parallelism e' = parallelism e ∧ event_buffer e' = event_buffer e ∧
  running e' = running e ∪ list_to_set (fst <$> l) ∧
  queued_tasks e' = List.filter (λ x, negb (x.1 ∈? (fst <$> l))) (queued_tasks e).
Proof.
  revert e. induction l as [|[k q] l IH]; intros e Hl Hf; simpl in Hf.
  { injection Hf as <-. split_and!; [done..|set_solver|]. symmetry. by apply filterb_all. }
  rewrite fmap_cons in Hl. apply NoDup_cons in Hl as [Hk Hl].
  apply result_bind_ok in Hf as (e1 & Hx & Hf). apply execute_async_frame in Hx as (P1 & P2 & P3 & P4).
  destruct (IH e1 Hl Hf) as (Q1 & Q2 & Q3 & Q4). simpl in *.
  split_and!; [congruence..| |].
  - rewrite Q3, P3. set_solver.
  - rewrite Q4, P2. apply dict_pop_filter.
Qed.

Lemma sorted_NoDup e : NoDup (fst <$> queued_tasks e) → NoDup (fst <$> order_queued_tasks_by_priority e).
Proof. intros Hd. unfold order_queued_tasks_by_priority. by rewrite py_sorted_Permutation. Qed.

Lemma take_NoDup {A} n (l : list A) : NoDup l → NoDup (take n l).
Proof. intros Hl. eapply sublist_NoDup; [exact Hl|apply sublist_take]. Qed.

Lemma trigger_tasks_spec n e e' :
  exec_ok e → trigger_tasks n e = Ok e' →
  let triggered := take (Z.to_nat (Z.min n (Z.of_nat (length (queued_tasks e)))))
                     (order_queued_tasks_by_priority e) in
  parallelism e' = parallelism e ∧ event_buffer e' = event_buffer e ∧
  running e' = running e ∪ list_to_set (fst <$> triggered) ∧
  queued_tasks e' = List.filter (λ x, negb (x.1 ∈? (fst <$> triggered))) (queued_tasks e).
Proof.
  intros [H1 H2 H3] Ht triggered. apply trigger_loop; [|exact Ht].
  unfold triggered. rewrite fmap_take. by apply take_NoDup, sorted_NoDup.
Qed.

Lemma triggered_length n e :
  Z.of_nat (length (take (Z.to_nat (Z.min n (Z.of_nat (length (queued_tasks e)))))
    (order_queued_tasks_by_priority e))) = Z.max 0 (Z.min n (Z.of_nat (length (queued_tasks e)))).
Proof.
  rewrite length_take. unfold order_queued_tasks_by_priority. rewrite length_py_sorted. lia.
Qed.

Lemma trigger_tasks_ok n e e' :
  exec_ok e → (0 < parallelism e → n ≤ parallelism e - Z.of_nat (size (running e))) →
  trigger_tasks n e = Ok e' → exec_ok e'.
Proof.
  intros Hok Hn Ht. pose proof (trigger_tasks_spec n e e' Hok Ht) as Hs. cbv zeta in Hs.
  pose proof (triggered_length n e) as Hlen. set (tr := take _ _) in *.
  destruct Hs as (P1 & P2 & P3 & P4), Hok as [H1 H2 H3]. split.
  - rewrite P4. by apply NoDup_fmap_filterb.
  - rewrite P4, P3. intros k (x & -> & [Hx Hin]%elem_of_filterb)%list_elem_of_fmap. bool_to_prop.
    rewrite not_elem_of_union, elem_of_list_to_set. split; [|done]. apply H2. by apply list_elem_of_fmap_2.
  - rewrite P1, P3. intros Hp. specialize (Hn Hp). specialize (H3 Hp).
    assert (size (running e ∪ list_to_set (fst <$> tr)) ≤ size (running e) + length tr)%nat as Hsz.
    { rewrite size_union_alt. apply Nat.add_le_mono_l. transitivity (size (list_to_set (fst <$> tr) : gset TaskInstanceKey)).
      - apply subseteq_size. set_solver.
      - rewrite size_list_to_set; [by rewrite length_fmap|].
        unfold tr. rewrite fmap_take. by apply take_NoDup, sorted_NoDup. }
    lia.
Qed.
End Invariant.

(** ** Runs of an executor *)

Section Runs.
Local Open Scope Z_scope.
Context `{Backend X}.
Implicit Types (e : Executor X).

(** What the scheduler, the back end and the caller of the executor may do. *)
Inductive exec_step : Executor X → Executor X → Prop :=
| step_queue ti c p q e : exec_step e (queue_command ti c p q e)
| step_heartbeat e e' : heartbeat e = Ok e' → exec_step e e'
| step_change k st i e : exec_step e (change_state k st i e)
| step_events ids e : exec_step e (get_event_buffer ids e).2.

Lemma get_event_buffer_frame ids e :
  queued_tasks (get_event_buffer ids e).2 = queued_tasks e ∧
  running (get_event_buffer ids e).2 = running e ∧
  parallelism (get_event_buffer ids e).2 = parallelism e.
Proof.
  unfold get_event_buffer. destruct ids as [ids|]; [|done].
  apply (foldl_invariant (λ acc, queued_tasks acc.2 = queued_tasks e ∧ running acc.2 = running e ∧
                                 parallelism acc.2 = parallelism e)); [|done].
  intros k [cleared e'] _ Hacc. simpl in *. case_bool_decide; [|done].
  by destruct (dict_get k (event_buffer e')).
Qed.

Lemma exec_step_ok e e' : exec_step e e' → exec_ok e → exec_ok e'.
Proof.
  destruct 1 as [ti c p q e|e e' Hh|k st i e|ids e]; intros Hok.
  - by apply queue_command_ok.
  - unfold heartbeat in Hh. apply result_bind_ok in Hh as (e1 & Ht & Hs).
    apply sync_frame in Hs as (S1 & S2 & S3).
    assert (exec_ok e1) as [H1 H2 H3].
    { eapply trigger_tasks_ok; [exact Hok| |exact Ht]. intros Hp. unfold heartbeat_open_slots.
      destruct (Z.eqb_spec (parallelism e) 0); lia. }
    split; rewrite ?S1, ?S2; [done| |].
    + intros k Hk Hr. by apply (H2 k Hk), S3.
    + intros Hp. specialize (H3 Hp). apply subseteq_size in S3. lia.
  - by apply change_state_ok.
  - destruct (get_event_buffer_frame ids e) as (E1 & E2 & E3), Hok as [H1 H2 H3].
    split; rewrite ?E1, ?E2, ?E3; done.
Qed.

(** C11: whatever the order of queueing commands, heartbeats, state changes and
    event reads, and whatever the back end, an executor never queues a task
    twice, never has a task queued and running at once, and never runs more
    tasks than its parallelism allows. *)
Theorem executor_invariant p (x : X) e
  (Hp : 0 ≤ p) (Hrun : rtc exec_step (Executor.init p x) e) : exec_ok e.
Proof.
  apply (rtc_ind_r exec_ok (Executor.init p x)) in Hrun; [done|by apply init_ok|].
  intros y z _ Hstep Hy. by eapply exec_step_ok.
Qed.

Lemma higher_priority_total a b : higher_priority a b = true ∨ higher_priority b a = true.
Proof. unfold higher_priority. lia. Qed.

Lemma higher_priority_trans a b c :
  higher_priority a b = true → higher_priority b c = true → higher_priority a c = true.
Proof. unfold higher_priority. lia. Qed.

(** The first [n] elements of a sorted list dominate the rest. *)
Lemma take_dominates {A} (leb : A → A → bool) n l a b :
  StronglySorted (λ x y, leb x y = true) l → a ∈ take n l → b ∈ drop n l → leb a b = true.
Proof.
  intros Hs. revert n. induction Hs as [|x l Hs IH Hx]; intros [|n]; simpl; try by intros ?%elem_of_nil.
  intros [->|Ha]%elem_of_cons Hb; [|by eapply IH].
  rewrite Forall_forall in Hx. apply Hx. eapply elem_of_submseteq; [exact Hb|].
  apply sublist_submseteq, sublist_drop.
Qed.

(** A trigger with [n] open slots moves to [running] as many queued tasks
    as fit ([n] or all of them), each of at least the priority of every task
    that stays queued, and among equal priorities those that were queued
    first. *)
Theorem trigger_tasks_priority n e e'
  (Hok : exec_ok e) (Htrig : trigger_tasks n e = Ok e') :
  ∃ triggered,
    running e' = running e ∪ list_to_set (fst <$> triggered) ∧
    Z.of_nat (length triggered) = Z.max 0 (Z.min n (Z.of_nat (length (queued_tasks e)))) ∧
    triggered ++ queued_tasks e' ≡ₚ queued_tasks e ∧
    (∀ a b, a ∈ triggered → b ∈ queued_tasks e' → qt_priority b.2 ≤ qt_priority a.2) ∧
    (∀ z, List.filter (ties higher_priority z) triggered
            `prefix_of` List.filter (ties higher_priority z) (queued_tasks e)).
Proof.
  pose proof (trigger_tasks_spec n e e' Hok Htrig) as Hs. cbv zeta in Hs.
  pose proof (triggered_length n e) as Hlen.
  set (k := Z.to_nat _) in *. set (tr := take k _) in *. exists tr.
  destruct Hs as (_ & _ & P3 & P4).
  pose proof (py_sorted_Permutation higher_priority (queued_tasks e)) as Hperm.
  fold (order_queued_tasks_by_priority e) in Hperm.
  set (srt := order_queued_tasks_by_priority e) in *.
  assert (NoDup (fst <$> srt)) as Hnd by (unfold srt; apply sorted_NoDup, Hok).
  assert (srt = tr ++ drop k srt) as Hsplit by (symmetry; apply take_drop).
  assert (queued_tasks e' ≡ₚ drop k srt) as Hrest.
  { rewrite P4, <-Hperm. rewrite Hsplit at 1. rewrite List.filter_app, filterb_none, filterb_all; [done| |].
    - intros x Hx. apply negb_true_iff, bool_decide_eq_false. intros Hin.
      rewrite Hsplit, fmap_app in Hnd. apply NoDup_app in Hnd as (_ & Hd & _).
      apply (Hd _ Hin). by apply list_elem_of_fmap_2.
    - intros x Hx. apply negb_false_iff, bool_decide_eq_true. by apply list_elem_of_fmap_2. }
  split_and!; [done|done| | |].
  - by rewrite Hrest, <-Hsplit.
  - intros a b Ha Hb. rewrite Hrest in Hb. apply Z.leb_le.
    apply (take_dominates higher_priority k srt a b); [|done|done].
    apply py_sorted_StronglySorted; [apply higher_priority_total|apply higher_priority_trans].
  - intros z. exists (List.filter (ties higher_priority z) (drop k srt)).
    rewrite <-List.filter_app, <-Hsplit. unfold srt, order_queued_tasks_by_priority. symmetry.
    apply py_sorted_stable; [apply higher_priority_total|apply higher_priority_trans].
Qed.

(** ** Events *)

Lemma get_event_loop (ids : list string) events cleared e :
  NoDup (fst <$> events) →
  (∀ k, k ∈ (fst <$> events) → k ∉ (fst <$> cleared)) →
  ∀ kept, event_buffer e = kept ++ events → NoDup (fst <$> kept ++ events) →
  let r := foldl (λ '(cleared, e) k,
               if TaskInstance.key_dag_id k ∈? ids then
                 match dict_get k (event_buffer e) with
                 | Some v => (dict_set k v cleared, with_events (dict_pop k (event_buffer e)) e)
                 | None => (cleared, e)
                 end
               else (cleared, e)) (cleared, e) (fst <$> events) in
  r.1 = cleared ++ List.filter (λ x, TaskInstance.key_dag_id x.1 ∈? ids) events ∧
  event_buffer r.2 = kept ++ List.filter (λ x, negb (TaskInstance.key_dag_id x.1 ∈? ids)) events.
Proof.
  revert cleared e. induction events as [|[k v] events IH]; intros cleared e Hnd Hc kept He Hk.
  { cbn. by rewrite !app_nil_r in *. }
  rewrite fmap_cons in Hnd. apply NoDup_cons in Hnd as [Hkn Hnd].
  cbn [fmap list_fmap foldl fst List.filter].
  rewrite fmap_app, fmap_cons in Hk. apply NoDup_app in Hk as (K1 & K2 & K3).
  destruct (TaskInstance.key_dag_id k ∈? ids) eqn:E; cbn [negb].
  - assert (dict_get k (event_buffer e) = Some v) as ->.
    { unfold dict_get. rewrite He. clear -K2. induction kept as [|x kept IH].
      - cbn [app List.find fst]. by rewrite (bool_decide_eq_true_2 (k = k)).
      - cbn [app List.find]. rewrite (bool_decide_eq_false_2 (x.1 = k)).
        + apply IH. intros y Hy. apply K2. by right.
        + intros Hx. apply (K2 x.1); [left|]. rewrite Hx. left. }
    assert (dict_pop k (event_buffer e) = kept ++ events) as Hpop.
    { unfold dict_pop. rewrite He, List.filter_app. cbn [List.filter].
      rewrite (bool_decide_eq_true_2 (k = k)) by done. cbn [negb].
      f_equal; apply filterb_all; intros x Hx; apply negb_true_iff, bool_decide_eq_false; intros <-.
      - apply (K2 x.1); [by apply list_elem_of_fmap_2|left].
      - apply Hkn. cbn [fst]. by apply (list_elem_of_fmap_2 fst). }
    rewrite dict_set_new by (apply Hc; left).
    destruct (IH (cleared ++ [(k, v)]) (with_events (dict_pop k (event_buffer e)) e) Hnd) with (kept := kept)
      as [I1 I2].
    + intros x Hx. rewrite fmap_app, not_elem_of_app. split; [apply Hc; by right|].
      cbn. intros ->%list_elem_of_singleton. done.
    + exact Hpop.
    + rewrite fmap_app. apply NoDup_app. split_and!; [done| |done]. intros x Hx Hin. apply (K2 x Hx). by right.
    + rewrite I1, <-app_assoc. done.
  - destruct (IH cleared e Hnd) with (kept := kept ++ [(k, v)]) as [I1 I2].
    + intros x Hx. apply Hc. by right.
    + by rewrite He, <-app_assoc.
    + rewrite <-app_assoc, fmap_app. apply NoDup_app. done.
    + rewrite I1, I2, <-app_assoc. done.
Qed.

(** Reading the events of some DAGs returns exactly the events of these
    DAGs, in order, and leaves exactly the others in the buffer: no event is
    lost or reported twice. *)
Lemma event_buffer_partition ids e (Hnd : NoDup (fst <$> event_buffer e)) :
  let '(cleared, e') := get_event_buffer (Some ids) e in
  cleared = List.filter (λ x, TaskInstance.key_dag_id x.1 ∈? ids) (event_buffer e) ∧
  event_buffer e' = List.filter (λ x, negb (TaskInstance.key_dag_id x.1 ∈? ids)) (event_buffer e).
Proof.
  pose proof (get_event_loop ids (event_buffer e) [] e Hnd ltac:(by intros k _ ?%elem_of_nil) []
    eq_refl Hnd) as Hl.
  unfold get_event_buffer. by destruct (foldl _ _ _).
Qed.
End Runs.

(** ** Witnesses *)

Section Witnesses.
Local Open Scope Z_scope.
Import Sample.

(** A back end that accepts every command and never reports. *)
Definition null_backend : Backend unit.
Proof.
  refine {| execute_async := λ _ _ _ _ e, Ok e; sync := λ e, Ok e |}.
  - by intros k c q cfg e e' [= <-].
  - by intros e e' [= <-].
Defined.
#[local] Existing Instance null_backend.

Definition w_cmd : list string := ["airflow"; "tasks"; "run"].
Definition w_key (tid : string) : TaskInstanceKey := TaskInstance.key (mk_ti "diamond" tid (Some QUEUED)).

(** Three tasks of priorities 1, 5 and 5, queued in this order. *)
Definition w_exec : Executor unit :=
  queue_command (mk_ti "diamond" "c" (Some QUEUED)) w_cmd 5 None
    (queue_command (mk_ti "diamond" "b" (Some QUEUED)) w_cmd 5 None
       (queue_command (mk_ti "diamond" "a" (Some QUEUED)) w_cmd 1 None (Executor.init 2 tt))).

Lemma w_exec_ok : exec_ok w_exec.
Proof. unfold w_exec. do 3 apply queue_command_ok. by apply init_ok. Qed.

Lemma executor_invariant_witness : exec_ok w_exec.
Proof.
  apply (executor_invariant 2 tt w_exec); [lia|]. unfold w_exec.
  eapply rtc_l; [apply step_queue|]. eapply rtc_l; [apply step_queue|].
  eapply rtc_l; [apply step_queue|]. apply rtc_refl.
Defined.

Lemma trigger_tasks_priority_witness :
  ∃ e' (triggered : list (TaskInstanceKey * QueuedTaskInstance)), trigger_tasks 1 w_exec = Ok e' ∧
    running e' = running w_exec ∪ list_to_set (fst <$> triggered) ∧
    Z.of_nat (length triggered) = 1.
Proof.
  eexists.
  destruct (trigger_tasks_priority 1 w_exec
    (match trigger_tasks 1 w_exec with Ok e => e | Err _ => w_exec end)) as (tr & H1 & H2 & _).
  - apply w_exec_ok.
  - vm_compute. reflexivity.
  - exists tr. split; [vm_compute; reflexivity|]. split; [exact H1|exact H2].
Defined.

(** [b] was queued before [c] and has the same priority. *)
Example trigger_takes_b :
  (λ e, fst <$> queued_tasks e) <$> trigger_tasks 1 w_exec = Ok [w_key "a"; w_key "c"].
Proof. vm_compute. reflexivity. Qed.

Lemma event_buffer_partition_witness :
  let e := change_state (w_key "a") (Some SUCCESS) None w_exec in
  let '(cleared, e') := get_event_buffer (Some ["diamond"]) e in
  cleared = List.filter (λ x, TaskInstance.key_dag_id x.1 ∈? ["diamond"]) (event_buffer e) ∧
  event_buffer e' = List.filter (λ x, negb (TaskInstance.key_dag_id x.1 ∈? ["diamond"])) (event_buffer e).
Proof.
  intros e. apply (event_buffer_partition ["diamond"] e). apply NoDup_singleton.
Defined.
End Witnesses.
