(* ===== verification/ExecutorImpl.v ===== *)
(** * ExecutorImpl: back ends of the executor

    [SequentialExecutor] and [LocalExecutor] as instances of [Backend], the
    worker processes of [LocalExecutor] as a step relation, and the router
    [CeleryKubernetesExecutor].  The commands themselves run in other
    processes; how they end is a parameter. *)

From S2P Require Import Prelude State Model Sample Graph DagRunQuery TaskInstance Executor.
Import Executor.

Module ExecutorImpl.
Local Open Scope Z_scope.

(** ** Reporting a list of results *)

Definition report {X} (results : list (TaskInstanceKey * TaskInstanceState)) (e : Executor X)
    : Executor X :=
  foldl (λ e '(k, st), change_state k (Some st) None e) e results.

(** ** SequentialExecutor *)

Record Sequential := { commands_to_run : list (TaskInstanceKey * list string) }.

(** How the command ends: [check_call] returns, raises CalledProcessError ([Ok false]),
    or raises another exception, as when the program cannot be started. *)
Definition call_state (check_call : list string → result bool) (command : list string) : result TaskInstanceState :=
  b ← check_call command; Ok (if b : bool then SUCCESS else FAILED).
Definition call_step (check_call : list string → result bool) (rs : list (TaskInstanceKey * TaskInstanceState))
    (w : TaskInstanceKey * list string) : result (list (TaskInstanceKey * TaskInstanceState)) :=
  st ← call_state check_call w.2; Ok (rs ++ [(w.1, st)]).

Definition sequential_execute_async (key : TaskInstanceKey) (command : list string)
    (queue : option string) (executor_config : string) (e : Executor Sequential)
    : result (Executor Sequential) :=
  _ ← validate_command command;
  Ok (with_impl {| commands_to_run := commands_to_run (impl e) ++ [(key, command)] |} e).

Definition sequential_sync (check_call : list string → result bool) (e : Executor Sequential)
    : result (Executor Sequential) :=
  rs ← foldM (call_step check_call) (commands_to_run (impl e)) [];
  Ok (with_impl {| commands_to_run := [] |} (report rs e)).

(** ** LocalExecutor *)

Abbreviation Work := (TaskInstanceKey * list string)%type.

(** A worker process: waiting for work, executing a command, gone after a pill (or
    after its one command), or killed by an exception while it executed a command. *)
Inductive Worker := Idle | Busy (w : Work) | Dead | Crashed (w : Work).

Record Local := {
  started : bool;                                   (* impl is set *)
  workers : list Worker;                            (* the processes; in the unlimited mode no list holds them *)
  workers_used : Z;
  workers_active : Z;
  task_queue : list (option Work);                  (* None is the poison pill *)
  result_queue : list (TaskInstanceKey * TaskInstanceState);
}.

Definition local_init : Local :=
  {| started := false; workers := []; workers_used := 0; workers_active := 0;
     task_queue := []; result_queue := [] |}.

(** [parallelism == 0] selects UnlimitedParallelism, else LimitedParallelism. *)
Definition unlimited (e : Executor Local) : bool := parallelism e =? 0.

Definition local_start (e : Executor Local) : Executor Local :=
  let n := if unlimited e then 0%nat else Z.to_nat (parallelism e) in
  with_impl {| started := true; workers := repeat Idle n; workers_used := Z.of_nat n;
               workers_active := 0; task_queue := []; result_queue := [] |} e.

Definition unlimited_execute (w : Work) (l : Local) : Local :=
  {| started := started l; workers := workers l ++ [Busy w];
     workers_used := workers_used l + 1; workers_active := workers_active l + 1;
     task_queue := task_queue l; result_queue := result_queue l |}.

Definition limited_execute (w : Work) (l : Local) : Local :=
  {| started := started l; workers := workers l; workers_used := workers_used l;
     workers_active := workers_active l; task_queue := task_queue l ++ [Some w];
     result_queue := result_queue l |}.

Definition local_execute_async (key : TaskInstanceKey) (command : list string)
    (queue : option string) (executor_config : string) (e : Executor Local)
    : result (Executor Local) :=
  if negb (started (impl e)) then Err AirflowException
  else
    _ ← validate_command command;
    Ok (with_impl ((if unlimited e then unlimited_execute else limited_execute) (key, command) (impl e)) e).

(** [sync] empties the result queue. *)
Definition drained (unlimited : bool) (l : Local) : Local :=
  {| started := started l; workers := workers l; workers_used := workers_used l;
     workers_active := if unlimited then workers_active l - Z.of_nat (length (result_queue l))
                       else workers_active l;
     task_queue := task_queue l; result_queue := [] |}.

Definition local_sync (e : Executor Local) : result (Executor Local) :=
  if negb (started (impl e)) then Err AirflowException
  else Ok (with_impl (drained (unlimited e) (impl e)) (report (result_queue (impl e)) e)).

(** The first part of [LimitedParallelism.end]: a pill for every worker. *)
Definition send_pills (l : Local) : Local :=
  {| started := started l; workers := workers l; workers_used := workers_used l;
     workers_active := workers_active l;
     task_queue := task_queue l ++ (const None <$> workers l); result_queue := result_queue l |}.

Definition set_worker (i : nat) (w : Worker) (q : list (option Work))
    (rs : list (TaskInstanceKey * TaskInstanceState)) (l : Local) : Local :=
  {| started := started l; workers := <[i := w]> (workers l); workers_used := workers_used l;
     workers_active := workers_active l; task_queue := q; result_queue := rs |}.

(** What the worker processes do, in any interleaving: [QueuedLocalWorker.do_work]
    takes work or a pill from the queue; [execute_work] puts the result of a
    command into the result queue.  An exception other than CalledProcessError (of
    [check_call], of [os.fork] or of the queue) is not handled: it ends the process,
    without a result, though [do_work] counts the work as done.  A [LocalWorker] (of
    the unlimited mode) ends after its command. *)
Inductive worker_step (one_shot : bool) : Local → Local → Prop :=
| take_work i w q l :
    workers l !! i = Some Idle → task_queue l = Some w :: q →
    worker_step one_shot l (set_worker i (Busy w) q (result_queue l) l)
| take_pill i q l :
    workers l !! i = Some Idle → task_queue l = None :: q →
    worker_step one_shot l (set_worker i Dead q (result_queue l) l)
| finish_work i w st l :
    workers l !! i = Some (Busy w) → st = SUCCESS ∨ st = FAILED →
    worker_step one_shot l
      (set_worker i (if one_shot then Dead else Idle) (task_queue l)
         (result_queue l ++ [(w.1, st)]) l)
| crash_work i w l :
    workers l !! i = Some (Busy w) →
    worker_step one_shot l (set_worker i (Crashed w) (task_queue l) (result_queue l) l).

(** [queue.join()] of [LimitedParallelism.end] returns: all that was put into the task
    queue was taken and counted as done. *)
Definition joined (l : Local) : bool :=
  bool_decide (task_queue l = []) && forallb (λ w, match w with Busy _ => false | _ => true end) (workers l).

(** ** CeleryKubernetesExecutor *)

Record CeleryKubernetes (C K : Type) := mkCK { celery_executor : Executor C; kubernetes_executor : Executor K }.
Arguments mkCK {C K} _ _.
Arguments celery_executor {C K} _.
Arguments kubernetes_executor {C K} _.

Section CeleryKubernetes.
Context {C K : Type} (KUBERNETES_QUEUE : string).

(** [_router]: whether the Kubernetes executor runs the task. *)
Definition router (ti : TaskInstance) : bool := TI.queue ti ≟ KUBERNETES_QUEUE.

Definition ck_queued_tasks (e : CeleryKubernetes C K) :=
  dict_update (queued_tasks (celery_executor e)) (queued_tasks (kubernetes_executor e)).

Definition ck_running (e : CeleryKubernetes C K) : gset TaskInstanceKey :=
  running (celery_executor e) ∪ running (kubernetes_executor e).

Definition ck_slots_available (e : CeleryKubernetes C K) : Z := slots_available (celery_executor e).

Definition ck_queue_command (ti : TaskInstance) (command : list string) (priority : Z)
    (queue : option string) (e : CeleryKubernetes C K) : CeleryKubernetes C K :=
  if router ti
  then mkCK (celery_executor e) (queue_command ti command priority queue (kubernetes_executor e))
  else mkCK (queue_command ti command priority queue (celery_executor e)) (kubernetes_executor e).

Definition ck_has_task (ti : TaskInstance) (e : CeleryKubernetes C K) : bool :=
  executor_has_task ti (celery_executor e) || executor_has_task ti (kubernetes_executor e).

Definition ck_heartbeat `{Backend C} `{Backend K} (e : CeleryKubernetes C K)
    : result (CeleryKubernetes C K) :=
  c ← heartbeat (celery_executor e); k ← heartbeat (kubernetes_executor e); Ok (mkCK c k).

Definition ck_get_event_buffer (dag_ids : option (list string)) (e : CeleryKubernetes C K) :=
  let '(a, c) := get_event_buffer dag_ids (celery_executor e) in
  let '(b, k) := get_event_buffer dag_ids (kubernetes_executor e) in
  (dict_update a b, mkCK c k).

Definition ck_try_adopt_task_instances
    (adopt_c : list TaskInstance → list TaskInstance) (adopt_k : list TaskInstance → list TaskInstance)
    (tis : list TaskInstance) : list TaskInstance :=
  adopt_c (List.filter (λ t, negb (TI.queue t ≟ KUBERNETES_QUEUE)) tis) ++
  adopt_k (List.filter (λ t, TI.queue t ≟ KUBERNETES_QUEUE) tis).
End CeleryKubernetes.
End ExecutorImpl.
Import ExecutorImpl.

(** ** The back ends keep the interface *)

Section Instances.

Lemma report_frame {X} rs (e : Executor X) :
  parallelism (report rs e) = parallelism e ∧ queued_tasks (report rs e) = queued_tasks e ∧
  running (report rs e) = running e ∖ list_to_set (fst <$> rs) ∧ impl (report rs e) = impl e.
Proof.
  unfold report. revert e. induction rs as [|[k st] rs IH]; intros e.
  { cbn. split_and!; [done..|set_solver|done]. }
  cbn [foldl]. destruct (IH (change_state k (Some st) None e)) as (H1 & H2 & H3 & H4).
  split_and!; [done..| |done]. rewrite H3. cbn. set_solver.
Qed.

Lemma call_loop_keys check_call ws rs0 rs : foldM (call_step check_call) ws rs0 = Ok rs → fst <$> rs = (fst <$> rs0) ++ (fst <$> ws).
Proof.
  revert rs0. induction ws as [|w ws IH]; intros rs0; cbn [foldM]; [intros [= <-]; by rewrite app_nil_r|].
  intros (rs1 & (st & _ & [= <-])%result_bind_ok & H%IH)%result_bind_ok. rewrite H, fmap_app, <-app_assoc. done.
Qed.

Definition sequential_backend (check_call : list string → result bool) : Backend Sequential.
Proof.
  refine {| execute_async := sequential_execute_async; sync := sequential_sync check_call |}.
  - unfold sequential_execute_async. intros k c q cfg e e' (u & _ & [= <-])%result_bind_ok. done.
  - unfold sequential_sync. intros e e' (rs & _ & [= <-])%result_bind_ok. cbn.
    destruct (report_frame rs e) as (H1 & H2 & H3 & _). rewrite H1, H2, H3. split_and!; [done..|set_solver].
Defined.

#[export] Instance local_backend : Backend Local.
Proof.
  refine {| execute_async := local_execute_async; sync := local_sync |}.
  - unfold local_execute_async. intros k c q cfg e e'. destruct (negb _); [done|].
    intros (u & _ & [= <-])%result_bind_ok. done.
  - unfold local_sync. intros e e'. destruct (negb _); [done|]. intros [= <-]. cbn.
    destruct (report_frame (result_queue (impl e)) e) as (H1 & H2 & H3 & _).
    rewrite H1, H2, H3. split_and!; [done..|set_solver].
Defined.
End Instances.

(** ** LocalExecutor: no task is lost between the processes *)

Section LocalRuns.
Local Open Scope Z_scope.

Definition busy_key (w : Worker) : list TaskInstanceKey :=
  match w with Busy w | Crashed w => [w.1] | _ => [] end.
Definition busy_keys (ws : list Worker) : list TaskInstanceKey := ws ≫= busy_key.
Definition work_key (o : option Work) : list TaskInstanceKey :=
  match o with Some w => [w.1] | None => [] end.
Definition queue_keys (q : list (option Work)) : list TaskInstanceKey := q ≫= work_key.

(** Where a task that was handed to the back end can be: in the task queue, in
    a worker, also in one that it crashed, or in the result queue. *)
Definition places (l : Local) : list TaskInstanceKey :=
  queue_keys (task_queue l) ++ busy_keys (workers l) ++ (fst <$> result_queue l).

Lemma busy_keys_insert ws i w0 w :
  ws !! i = Some w0 → busy_key w0 ++ busy_keys (<[i := w]> ws) ≡ₚ busy_key w ++ busy_keys ws.
Proof.
  unfold busy_keys. revert i. induction ws as [|x ws IH]; intros [|i]; [done..| |].
  - intros [= ->]. cbn. by rewrite !app_assoc, (Permutation_app_comm (busy_key w0)).
  - cbn. intros Hi. specialize (IH i Hi). unfold busy_keys in IH.
    rewrite !app_assoc, (Permutation_app_comm (busy_key w0)), (Permutation_app_comm (busy_key w)),
      <-!app_assoc. by f_equiv.
Qed.

Lemma queue_keys_cons o q : queue_keys (o :: q) = work_key o ++ queue_keys q.
Proof. done. Qed.

(** A step of a worker moves a task between the places. *)
Lemma worker_step_places os l l' : worker_step os l l' → places l' ≡ₚ places l.
Proof.
  unfold places. destruct 1 as [i w q l Hi Hq|i q l Hi Hq|i w st l Hi Hst|i w l Hi];
    cbn [set_worker task_queue workers result_queue].
  - rewrite Hq, queue_keys_cons. apply (busy_keys_insert _ _ _ (Busy w)) in Hi.
    cbn [busy_key app] in Hi. rewrite Hi. cbn [work_key app]. by rewrite <-Permutation_middle.
  - rewrite Hq, queue_keys_cons. apply (busy_keys_insert _ _ _ Dead) in Hi.
    cbn [busy_key app] in Hi. by rewrite Hi.
  - apply (busy_keys_insert _ _ _ (if os then Dead else Idle)) in Hi.
    assert (busy_key (if os then Dead else Idle) = []) as E by (by destruct os). rewrite E in Hi.
    cbn [busy_key app] in Hi. rewrite <-Hi, fmap_app. cbn [fmap list_fmap fst]. f_equiv.
    rewrite (Permutation_app_comm (fst <$> result_queue l)). cbn [app]. by rewrite Permutation_middle.
  - apply (busy_keys_insert _ _ _ (Crashed w)) in Hi. apply Permutation_cons_inv in Hi. by rewrite Hi.
Qed.

Lemma queue_keys_app a b : queue_keys (a ++ b) = queue_keys a ++ queue_keys b.
Proof. unfold queue_keys. apply bind_app. Qed.

Lemma busy_keys_app a b : busy_keys (a ++ b) = busy_keys a ++ busy_keys b.
Proof. unfold busy_keys. apply bind_app. Qed.

Lemma execute_places e k c q cfg e' :
  local_execute_async k c q cfg e = Ok e' →
  started (impl e') = true ∧ places (impl e') ≡ₚ k :: places (impl e).
Proof.
  unfold local_execute_async. destruct (started (impl e)) eqn:Es; [|done]. cbn [negb].
  intros (u & _ & [= <-])%result_bind_ok. unfold places.
  destruct (unlimited e); cbn [with_impl impl unlimited_execute limited_execute task_queue workers result_queue];
    (split; [done|]).
  - rewrite busy_keys_app. change (busy_keys [Busy (k, c)]) with [k].
    rewrite <-(app_assoc _ [k]). cbn [app]. by rewrite <-!Permutation_middle.
  - rewrite queue_keys_app. change (queue_keys [Some (k, c)]) with [k].
    rewrite <-(app_assoc _ [k]). cbn [app]. by rewrite <-!Permutation_middle.
Qed.

Lemma trigger_places l e e' :
  foldM trigger_step l e = Ok e' → started (impl e) = true →
  started (impl e') = true ∧ places (impl e') ≡ₚ (fst <$> l) ++ places (impl e).
Proof.
  revert e. induction l as [|[k q] l IH]; intros e Hf Hs; cbn [foldM] in Hf.
  { by injection Hf as <-. }
  apply result_bind_ok in Hf as (e1 & Hx & Hf). cbn in Hx. apply execute_places in Hx as [Hs1 Hp].
  destruct (IH _ Hf Hs1) as [Hs2 Hp2]. split; [done|]. rewrite Hp2, Hp. cbn. by rewrite <-Permutation_middle.
Qed.

(** The invariant: the tasks that the executor believes to be running are those
    in the places, and each is in one place only. *)
Record local_ok (e : Executor Local) : Prop := {
  lo_exec : exec_ok e;
  lo_started : started (impl e) = true;
  lo_once : NoDup (places (impl e));
  lo_running : running e = list_to_set (places (impl e));
}.

Inductive local_step : Executor Local → Executor Local → Prop :=
| ls_queue ti c p q e : local_step e (queue_command ti c p q e)
| ls_heartbeat e e' : heartbeat e = Ok e' → local_step e e'
| ls_events ids e : local_step e (get_event_buffer ids e).2
| ls_worker e l : worker_step (unlimited e) (impl e) l → local_step e (with_impl l e).

Lemma get_event_buffer_impl {X} ids (e : Executor X) : impl (get_event_buffer ids e).2 = impl e.
Proof.
  unfold get_event_buffer. destruct ids as [ids|]; [|done].
  apply (foldl_invariant (λ acc, impl acc.2 = impl e)); [|done].
  intros k [cleared e'] _ Hacc. simpl in *. case_bool_decide; [|done].
  by destruct (dict_get k (event_buffer e')).
Qed.

Lemma trigger_local_ok n e e' :
  local_ok e → trigger_tasks n e = Ok e' →
  started (impl e') = true ∧ NoDup (places (impl e')) ∧ running e' = list_to_set (places (impl e')).
Proof.
  intros [Hok Hs Hn Hr] Ht. destruct (trigger_tasks_spec n e e' Hok Ht) as (_ & _ & P3 & _).
  unfold trigger_tasks in Ht. apply trigger_places in Ht as [Hs' Hp]; [|done].
  set (tr := take _ _) in *. split; [done|]. split.
  - rewrite Hp. apply NoDup_app. split_and!; [|..|done].
    + unfold tr. rewrite fmap_take. apply take_NoDup, sorted_NoDup, Hok.
    + intros k Hk Hin. apply (queued_not_running e Hok k).
      * unfold tr in Hk. rewrite fmap_take in Hk. apply elem_of_take in Hk as (i & Hi & _).
        apply list_elem_of_lookup_2 in Hi. unfold order_queued_tasks_by_priority in Hi.
        by rewrite py_sorted_Permutation in Hi.
      * rewrite Hr. by apply elem_of_list_to_set.
  - rewrite P3, Hr. apply set_eq. intros k. rewrite elem_of_union, !elem_of_list_to_set, Hp, elem_of_app. tauto.
Qed.

Lemma local_sync_ok e e' :
  started (impl e) = true → NoDup (places (impl e)) → running e = list_to_set (places (impl e)) →
  local_sync e = Ok e' →
  started (impl e') = true ∧ NoDup (places (impl e')) ∧ running e' = list_to_set (places (impl e')) ∧
  places (impl e') = queue_keys (task_queue (impl e)) ++ busy_keys (workers (impl e)).
Proof.
  intros Hs Hn Hr. unfold local_sync. rewrite Hs. cbn [negb]. intros [= <-]. cbn.
  destruct (report_frame (result_queue (impl e)) e) as (_ & _ & H3 & _). rewrite H3, Hr.
  unfold places in *. cbn. rewrite app_nil_r. rewrite app_assoc in Hn. apply NoDup_app in Hn as (N1 & N2 & N3).
  split_and!; [done|done| |done]. apply set_eq. intros k.
  rewrite elem_of_difference, !elem_of_list_to_set, !elem_of_app. split.
  - intros [[?|[?|?]] ?]; [by left|by right|done].
  - intros Hk. split; [tauto|]. intros Hres. apply (N2 k); [by apply elem_of_app|done].
Qed.

Lemma local_step_ok e e' : local_step e e' → local_ok e → local_ok e'.
Proof.
  destruct 1 as [ti c p q e|e e' Hh|ids e|e l Hw]; intros Hok.
  - destruct Hok as [H1 H2 H3 H4]. split; [by apply queue_command_ok|..];
      unfold queue_command; by destruct (_ && _).
  - pose proof (exec_step_ok e e' (step_heartbeat e e' Hh) (lo_exec e Hok)) as Hexec.
    unfold heartbeat in Hh. apply result_bind_ok in Hh as (e1 & Ht & Hs).
    destruct (trigger_local_ok _ _ _ Hok Ht) as (T1 & T2 & T3).
    destruct (local_sync_ok _ _ T1 T2 T3 Hs) as (S1 & S2 & S3 & _). by split.
  - pose proof (exec_step_ok e _ (step_events ids e) (lo_exec e Hok)) as Hexec.
    destruct (get_event_buffer_frame ids e) as (_ & E2 & _), Hok as [H1 H2 H3 H4].
    split; rewrite ?get_event_buffer_impl, ?E2; done.
  - apply worker_step_places in Hw as Hp. destruct Hok as [[X1 X2 X3] H2 H3 H4]. split; cbn.
    + by split.
    + destruct Hw; done.
    + by rewrite Hp.
    + rewrite H4. apply set_eq. intros k. by rewrite !elem_of_list_to_set, Hp.
Qed.

Lemma local_start_ok p : 0 ≤ p → local_ok (local_start (Executor.init p local_init)).
Proof.
  intros Hp.
  assert (busy_keys (repeat Idle (if p =? 0 then 0%nat else Z.to_nat p)) = []) as Hb.
  { generalize (if p =? 0 then 0%nat else Z.to_nat p). intros n. unfold busy_keys. by induction n. }
  assert (places (impl (local_start (Executor.init p local_init))) = []) as Hpl.
  { unfold places, local_start. cbn [with_impl impl workers task_queue result_queue].
    unfold unlimited. cbn [Executor.init parallelism]. by rewrite Hb. }
  split.
  - destruct (init_ok p local_init Hp) as [X1 X2 X3]. by split.
  - done.
  - rewrite Hpl. constructor.
  - by rewrite Hpl.
Qed.

(** C12: in every interleaving of the scheduler's calls with the steps of the
    worker processes, the tasks that [LocalExecutor] believes to be running are
    exactly those in the task queue, in a worker (be it that the worker executes the
    task, or that an exception killed it while it did) or in the result queue, each
    in one place: no task is run twice or forgotten, and none is lost but with the
    worker that it killed. *)
Theorem local_executor_conservation p e
  (Hp : 0 ≤ p) (Hrun : rtc local_step (local_start (Executor.init p local_init)) e) : local_ok e.
Proof.
  apply (rtc_ind_r local_ok (local_start (Executor.init p local_init))) in Hrun;
    [done|by apply local_start_ok|]. intros y z _ Hstep Hy. by eapply local_step_ok.
Qed.
End LocalRuns.

(** ** Shutting down LocalExecutor *)

Section LocalEnd.
Local Open Scope Z_scope.

(** The worker took no pill. *)
Definition alive (w : Worker) : bool := match w with Dead => false | _ => true end.
Definition crashed (w : Worker) : bool := match w with Crashed _ => true | _ => false end.
Definition busy (w : Worker) : bool := match w with Busy _ => true | _ => false end.

Lemma countb_insert {A} (f : A → bool) (l : list A) i x0 x :
  l !! i = Some x0 →
  countb f (<[i := x]> l) = countb f l - (if f x0 then 1 else 0) + (if f x then 1 else 0).
Proof.
  revert i. induction l as [|y l IH]; intros [|i]; [done..| |].
  - intros [= ->]. change (<[0%nat := x]> (x0 :: l)) with (x :: l). rewrite !countb_cons. lia.
  - intros Hi. change (<[S i := x]> (y :: l)) with (y :: <[i := x]> l).
    rewrite !countb_cons, (IH i Hi). lia.
Qed.

(** The queue holds the remaining work and then a pill for every worker that took
    none; a worker takes its pill only once the work has been taken. *)
Definition end_inv (l : Local) : Prop :=
  workers l ≠ [] ∧
  ∃ ws n, task_queue l = (Some <$> ws) ++ replicate n None ∧
    Z.of_nat n = countb alive (workers l) ∧ (Dead ∈ workers l → ws = []).

Lemma Dead_insert (ws : list Worker) i w0 w :
  ws !! i = Some w0 → w ≠ Dead → w0 ≠ Dead → Dead ∈ <[i := w]> ws → Dead ∈ ws.
Proof.
  intros Hi Hw Hw0 (j & Hj)%list_elem_of_lookup.
  destruct (decide (i = j)) as [->|Hne].
  - rewrite list_lookup_insert_eq in Hj by (by eapply lookup_lt_Some). congruence.
  - rewrite list_lookup_insert_ne in Hj by done. by eapply list_elem_of_lookup_2.
Qed.

Lemma end_inv_step l l' : worker_step false l l' → end_inv l → end_inv l'.
Proof.
  destruct 1 as [i w q l Hi Hq|i q l Hi Hq|i w st l Hi Hst|i w l Hi]; intros [Hne (ws & n & Hws & Hn & Hd)].
  - split; [cbn; intros E; apply (f_equal length) in E; rewrite length_insert in E; by destruct (workers l)|].
    rewrite Hq in Hws. destruct ws as [|w' ws]; [by destruct n|]. injection Hws as <- ->.
    exists ws, n. cbn [set_worker workers task_queue]. split; [done|].
    rewrite (countb_insert _ _ _ _ _ Hi). cbn [alive]. split; [lia|].
    intros HD. apply (Dead_insert _ _ _ _ Hi) in HD; [|done|done]. by specialize (Hd HD).
  - split; [cbn; intros E; apply (f_equal length) in E; rewrite length_insert in E; by destruct (workers l)|].
    rewrite Hq in Hws. destruct ws as [|w' ws]; [|done]. destruct n as [|n]; [done|]. injection Hws as ->.
    exists [], n. cbn [set_worker workers task_queue]. split; [done|].
    rewrite (countb_insert _ _ _ _ _ Hi). cbn [alive]. split; [lia|done].
  - split; [cbn; intros E; apply (f_equal length) in E; rewrite length_insert in E; by destruct (workers l)|].
    exists ws, n. cbn [set_worker workers task_queue]. split; [done|].
    rewrite (countb_insert _ _ _ _ _ Hi). cbn [alive]. split; [lia|].
    intros HD. apply Hd. by apply (Dead_insert _ _ _ _ Hi) in HD.
  - split; [cbn; intros E; apply (f_equal length) in E; rewrite length_insert in E; by destruct (workers l)|].
    exists ws, n. cbn [set_worker workers task_queue]. split; [done|].
    rewrite (countb_insert _ _ _ _ _ Hi). cbn [alive]. split; [lia|].
    intros HD. apply Hd. by apply (Dead_insert _ _ _ _ Hi) in HD.
Qed.

(** Steps left: two per queued item, one per command being executed. *)
Definition end_measure (l : Local) : Z :=
  2 * Z.of_nat (length (task_queue l)) + countb busy (workers l).

Lemma end_measure_step l l' : worker_step false l l' → end_measure l' < end_measure l.
Proof.
  unfold end_measure. destruct 1 as [i w q l Hi Hq|i q l Hi Hq|i w st l Hi Hst|i w l Hi];
    cbn [set_worker workers task_queue]; rewrite (countb_insert _ _ _ _ _ Hi); cbn [busy];
    rewrite ?Hq; cbn [length]; lia.
Qed.

(** Where the workers cannot go on: nobody is busy, and who waits has nothing to
    take. *)
Lemma stuck_workers l : (∀ l', ¬ worker_step false l l') → ∀ w, w ∈ workers l → busy w = false ∧ (w = Idle → task_queue l = []).
Proof.
  intros Hstuck w (i & Hi)%list_elem_of_lookup. destruct w as [|w| |w]; [|exfalso|by split..].
  - split; [done|]. intros _. destruct (task_queue l) as [|[w|] q] eqn:E; [done|exfalso..].
    + eapply Hstuck. by eapply (take_work false i w).
    + eapply Hstuck. by eapply (take_pill false i).
  - eapply Hstuck, (finish_work false i w SUCCESS); auto.
Qed.

(** With a crashed worker, its pill stays in the queue; and work stays there only if
    every worker crashed. *)
Lemma end_progress l :
  end_inv l → (∀ l', ¬ worker_step false l l') →
  countb busy (workers l) = 0 ∧ (task_queue l = [] ↔ countb crashed (workers l) = 0) ∧
  (queue_keys (task_queue l) ≠ [] → ∀ w, w ∈ workers l → crashed w = true).
Proof.
  intros [Hne (ws & n & Hq & Hn & Hd)] Hstuck. pose proof (stuck_workers l Hstuck) as Hw.
  split; [apply countb_zero; intros w ?; by apply Hw|]. split; [split|].
  - intros E. rewrite E in Hq. destruct ws, n; try done. apply countb_zero. intros w Hin.
    assert (countb alive (workers l) = 0) as H0 by lia. rewrite countb_zero in H0. specialize (H0 w Hin). by destruct w.
  - intros Hc. rewrite countb_zero in Hc. destruct (task_queue l) as [|o q] eqn:E; [done|]. exfalso.
    assert (∀ w, w ∈ workers l → w = Dead) as Hdead.
    { intros w Hin. destruct (Hw w Hin) as [Hb Hi]. specialize (Hc w Hin). destruct w; [by specialize (Hi eq_refl)|done..]. }
    assert (countb alive (workers l) = 0) as H0.
    { apply countb_zero. intros w Hin. by rewrite (Hdead w Hin). }
    assert (Dead ∈ workers l) as HD.
    { destruct (workers l) as [|w ws']; [done|]. rewrite <-(Hdead w ltac:(left)). left. }
    rewrite (Hd HD) in Hq. destruct n as [|n]; [done|]. lia.
  - intros Hk w Hin. destruct (Hw w Hin) as [Hb Hi]. assert (ws ≠ []) as Hws.
    { intros ->. apply Hk. rewrite Hq. unfold queue_keys. clear. by induction n. }
    destruct w; [|done| |done].
    + rewrite Hi in Hq by done. by destruct ws.
    + by specialize (Hd Hin).
Qed.

Lemma worker_steps_places l l' : rtc (worker_step false) l l' → places l' ≡ₚ places l.
Proof.
  induction 1 as [l|l l1 l2 Hs _ IH]; [done|]. rewrite IH. by apply (worker_step_places false).
Qed.

(** The tasks of the workers that crashed. *)
Definition crashed_key (w : Worker) : list TaskInstanceKey := match w with Crashed w => [w.1] | _ => [] end.
Definition crashed_keys (ws : list Worker) : list TaskInstanceKey := ws ≫= crashed_key.

Lemma busy_keys_none ws : countb busy ws = 0 → busy_keys ws = crashed_keys ws.
Proof.
  intros H0. rewrite countb_zero in H0. unfold busy_keys, crashed_keys. induction ws as [|w ws IH]; [done|]. cbn.
  pose proof (H0 w ltac:(left)) as Hw. rewrite IH by (intros y Hy; apply H0; by right).
  by destruct w.
Qed.

Lemma crashed_keys_none ws : countb crashed ws = 0 → crashed_keys ws = [].
Proof.
  intros H0. rewrite countb_zero in H0. unfold crashed_keys. induction ws as [|w ws IH]; [done|]. cbn.
  pose proof (H0 w ltac:(left)) as Hw. rewrite IH by (intros y Hy; apply H0; by right). by destruct w.
Qed.

(** C19: when [LocalExecutor] with limited parallelism shuts down, before any pill was
    taken, the workers can only take a bounded number of steps in every interleaving.
    Where they end, nobody is busy, and every task that was handed over either has
    exactly one result to sync, or its execution killed a worker by an exception, or
    it is still queued, which is only the case if every worker was killed so.  If no
    worker was killed, the queue is joined and every task has its result; if one was,
    its pill is never taken, and [queue.join()] waits for ever. *)
Theorem local_end_complete l0
  (Hworkers : workers l0 ≠ []) (Halive : Dead ∉ workers l0) (Hnopill : None ∉ task_queue l0) :
  (∀ n l, nsteps (worker_step false) n (send_pills l0) l →
     Z.of_nat n ≤ end_measure (send_pills l0)) ∧
  (∀ l, rtc (worker_step false) (send_pills l0) l → (∀ l', ¬ worker_step false l l') →
     (fst <$> result_queue l) ++ crashed_keys (workers l) ++ queue_keys (task_queue l) ≡ₚ places l0 ∧
     (queue_keys (task_queue l) ≠ [] → ∀ w, w ∈ workers l → crashed w = true) ∧
     (countb crashed (workers l) = 0 → joined l = true ∧ (fst <$> result_queue l) ≡ₚ places l0) ∧
     (0 < countb crashed (workers l) → joined l = false)).
Proof.
  assert (end_inv (send_pills l0)) as Hinv.
  { split; [done|].
    assert (∃ ws, task_queue l0 = Some <$> ws) as (ws & Hws).
    { clear -Hnopill. induction (task_queue l0) as [|o q IH]; [by exists []|].
      apply not_elem_of_cons in Hnopill as [Ho Hq]. destruct (IH Hq) as (ws & ->).
      destruct o as [w|]; [|done]. by exists (w :: ws). }
    exists ws, (length (workers l0)). cbn. rewrite Hws. split_and!.
    - f_equal. induction (workers l0) as [|w l IH]; [done|]. cbn. f_equal. destruct l; [done|].
      apply IH; [done|]. by apply not_elem_of_cons in Halive as [_ ?].
    - apply Z.le_antisymm; [|apply countb_le_length]. apply countb_all. intros w Hw.
      destruct w; [done|done|by destruct Halive|done].
    - done. }
  split.
  - intros n l Hn. assert (end_measure l + Z.of_nat n ≤ end_measure (send_pills l0)) as Hle.
    { revert Hn. generalize (send_pills l0). clear. intros l0 Hn.
      induction Hn as [l|n l1 l2 l3 Hs _ IH]; [lia|]. apply end_measure_step in Hs. lia. }
    assert (0 ≤ end_measure l); [|lia]. unfold end_measure. pose proof (countb_nonneg busy (workers l)). lia.
  - intros l Hl Hstuck. assert (end_inv l) as Hi.
    { apply (rtc_ind_r end_inv (send_pills l0)) in Hl; [done|done|].
      intros y z _ Hs Hy. by eapply end_inv_step. }
    destruct (end_progress l Hi Hstuck) as (Hb & Hq & Hwork).
    assert ((fst <$> result_queue l) ++ crashed_keys (workers l) ++ queue_keys (task_queue l) ≡ₚ places l0) as Hpl.
    { apply worker_steps_places in Hl. unfold places in Hl at 1. rewrite (busy_keys_none _ Hb) in Hl.
      rewrite (Permutation_app_comm (fst <$> result_queue l)), (Permutation_app_comm (crashed_keys (workers l))), <-app_assoc, Hl.
      unfold places. cbn [send_pills task_queue workers result_queue]. rewrite queue_keys_app. f_equiv.
      assert (queue_keys (const None <$> workers l0) = []) as ->; [|by rewrite app_nil_r].
      clear. unfold queue_keys. by induction (workers l0). }
    split_and!; [done|done| |].
    + intros Hc. pose proof (proj2 Hq Hc) as E. split.
      * unfold joined. rewrite E, bool_decide_eq_true_2 by done. apply forallb_forall. intros w Hw%list_elem_of_In.
        rewrite countb_zero in Hb. specialize (Hb w Hw). by destruct w.
      * rewrite E, (crashed_keys_none _ Hc) in Hpl. by rewrite app_nil_r in Hpl.
    + intros Hc. unfold joined. rewrite bool_decide_eq_false_2; [done|]. intros E. apply Hq in E. lia.
Qed.
End LocalEnd.

(** ** SequentialExecutor and the router *)

Section Others.
Local Open Scope Z_scope.

(** With [SequentialExecutor] a heartbeat ends with nothing running: every
    command it triggered was executed and reported, success or failure. *)
Lemma sequential_heartbeat_drains check_call e e'
  (Hinv : running e ⊆ list_to_set (fst <$> commands_to_run (impl e)))
  (Hbeat : @heartbeat Sequential (sequential_backend check_call) e = Ok e') :
  running e' = ∅ ∧ commands_to_run (impl e') = [].
Proof.
  unfold heartbeat in Hbeat. apply result_bind_ok in Hbeat as (e1 & Ht & Hs).
  assert (running e1 ⊆ list_to_set (fst <$> commands_to_run (impl e1))) as Hinv1.
  { unfold trigger_tasks in Ht. revert Ht. generalize (take (Z.to_nat
      (Z.min (heartbeat_open_slots e) (Z.of_nat (length (queued_tasks e))))) (order_queued_tasks_by_priority e)).
    intros l. revert e Hinv. induction l as [|[k q] l IH]; intros e Hinv Hf; cbn [foldM] in Hf.
    { by injection Hf as <-. }
    apply result_bind_ok in Hf as (e2 & Hx & Hf). eapply IH; [|exact Hf].
    cbn in Hx. unfold sequential_execute_async in Hx. apply result_bind_ok in Hx as (u & _ & [= <-]).
    cbn. rewrite fmap_app, list_to_set_app_L. set_solver. }
  cbn in Hs. unfold sequential_sync in Hs. apply result_bind_ok in Hs as (rs & Hrs & [= <-]). cbn. split; [|done].
  destruct (report_frame rs e1) as (_ & _ & -> & _). apply call_loop_keys in Hrs. cbn [fmap list_fmap app] in Hrs.
  rewrite Hrs. set_solver.
Qed.

(** The router queues a task on one side only, and then knows it. *)
Lemma ck_queue_command_routes {C K} kq ti c p q (e : CeleryKubernetes C K) :
  let e' := ck_queue_command kq ti c p q e in
  ck_has_task ti e' = true ∧
  (router kq ti = true → celery_executor e' = celery_executor e) ∧
  (router kq ti = false → kubernetes_executor e' = kubernetes_executor e).
Proof.
  assert (∀ Y (x : Executor Y), executor_has_task ti (queue_command ti c p q x) = true) as Hh.
  { intros Y x. unfold executor_has_task, queue_command.
    destruct (negb (dict_in _ _) && _) eqn:E.
    - cbn. bool_to_prop. rewrite dict_set_new by (by apply dict_in_not_elem). unfold dict_in.
      rewrite existsb_app. cbn. rewrite bool_decide_eq_true_2 by done. by rewrite orb_true_r.
    - bool_to_prop. destruct E as [E|E]; bool_to_prop; [by rewrite E|].
      rewrite (bool_decide_eq_true_2 _ E). by rewrite orb_true_r. }
  unfold ck_queue_command, ck_has_task. destruct (router kq ti); cbn; rewrite Hh; [|done].
  by rewrite orb_true_r.
Qed.
End Others.

(** ** Witnesses *)

Section Witnesses.
Local Open Scope Z_scope.
Import Sample.

Definition w_local : Executor Local :=
  queue_command (mk_ti "diamond" "a" (Some QUEUED)) w_cmd 1 None
    (local_start (Executor.init 2 local_init)).

Definition w_beat : Executor Local :=
  match heartbeat w_local with Ok e => e | Err _ => w_local end.

Lemma local_executor_conservation_witness : local_ok w_beat.
Proof.
  apply (local_executor_conservation 2 w_beat); [lia|].
  eapply rtc_l; [apply (ls_queue (mk_ti "diamond" "a" (Some QUEUED)) w_cmd 1 None)|].
  eapply rtc_l; [apply ls_heartbeat; vm_compute; reflexivity|]. apply rtc_refl.
Defined.

Lemma local_end_complete_witness :
  (∀ n l, nsteps (worker_step false) n (send_pills (impl w_beat)) l →
     Z.of_nat n ≤ end_measure (send_pills (impl w_beat))) ∧
  (∀ l, rtc (worker_step false) (send_pills (impl w_beat)) l → (∀ l', ¬ worker_step false l l') →
    countb crashed (workers l) = 0 → joined l = true ∧ (fst <$> result_queue l) ≡ₚ places (impl w_beat)).
Proof.
  destruct (local_end_complete (impl w_beat)) as [H1 H2]; [..|split; [exact H1|]; intros l Hl Hs; by apply (H2 l Hl Hs)].
  - vm_compute. done.
  - intros Hd. vm_compute in Hd. set_solver.
  - intros Hd. vm_compute in Hd. set_solver.
Defined.

(** A task whose execution raises an exception kills its worker: the executor
    believes it to be running ever after, and the shutdown waits for ever for a pill
    that nobody takes. *)
Example crash_blocks_end :
  ∃ l1 l2 l3, worker_step false (impl w_beat) l1 ∧ worker_step false l1 l2 ∧ worker_step false (send_pills l2) l3 ∧
    (∀ l', ¬ worker_step false l3 l') ∧ joined l3 = false ∧ result_queue l3 = [] ∧
    local_sync (with_impl l3 w_beat) = Ok (with_impl l3 w_beat) ∧ size (running w_beat) = 1%nat.
Proof.
  do 3 eexists. split; [by eapply (take_work false 0)|]. split; [by eapply (crash_work false 0)|].
  split; [by eapply (take_pill false 1)|]. split; [|by vm_compute].
  intros l' H. inversion H as [i ? ? ? Hi|i ? ? Hi|i ? ? ? Hi|i ? ? Hi]; subst; destruct i as [|[|i]]; vm_compute in Hi; done.
Qed.

Lemma sequential_heartbeat_drains_witness :
  let e := queue_command (mk_ti "diamond" "a" (Some QUEUED)) w_cmd 1 None
             (Executor.init 2 {| commands_to_run := [] |}) in
  ∃ e', @heartbeat Sequential (sequential_backend (λ _, Ok false)) e = Ok e' ∧
        running e' = ∅ ∧ commands_to_run (impl e') = [].
Proof.
  intros e. eexists. split; [vm_compute; reflexivity|].
  eapply (sequential_heartbeat_drains (λ _, Ok false) e).
  - cbn. set_solver.
  - vm_compute. reflexivity.
Defined.
End Witnesses.
