(* ===== verification/DebugExecutor.v ===== *)
(** * DebugExecutor: tasks run one after the other in the process

    [executors/debug_executor.py].  The executor overrides the methods of the base class
    that trigger tasks and change their states, so that it is no back end in the
    sense of the interface of [Executor]; its attributes are those of the base class with
    the record [Debug]. *)

From S2P Require Import Prelude State Model Sample Graph DagRunQuery TaskInstance Executor.
Import Executor.

Module DebugExecutor.
Local Open Scope Z_scope.

Record Debug := {
  tasks_to_run : list TaskInstance;
  tasks_params : list (TaskInstanceKey * (bool * option string));      (* mark_success and pool *)
  fail_fast : bool;
  _terminated : bool;
}.

Definition debug_init (parallelism : Z) (fail_fast : bool) : Executor Debug :=
  Executor.init parallelism {| tasks_to_run := []; tasks_params := []; fail_fast := fail_fast; _terminated := false |}.

Definition with_tasks_to_run (l : list TaskInstance) (e : Executor Debug) : Executor Debug :=
  let d := impl e in
  with_impl {| tasks_to_run := l; tasks_params := tasks_params d; fail_fast := fail_fast d; _terminated := _terminated d |} e.
Definition with_params (p : list (TaskInstanceKey * (bool * option string))) (e : Executor Debug) : Executor Debug :=
  let d := impl e in
  with_impl {| tasks_to_run := tasks_to_run d; tasks_params := p; fail_fast := fail_fast d; _terminated := _terminated d |} e.

Definition debug_queue_task_instance (str : TaskInstance → string) (dag : DAG) (task : BaseOperator) (ti : TaskInstance)
    (mark_success : bool) (pool : option string) (e : Executor Debug) : result (Executor Debug) :=
  priority ← Graph.priority_weight_total dag task;
  let e := queue_command ti [str ti] priority (Some (op_queue task)) e in
  Ok (with_params (dict_set (TaskInstance.key ti) (mark_success, pool) (tasks_params (impl e))) e).

Definition debug_trigger_step (e : Executor Debug) (entry : TaskInstanceKey * QueuedTaskInstance) : Executor Debug :=
  let '(key, q) := entry in
  let e := with_queued (dict_pop key (queued_tasks e)) e in
  let e := with_running ({[key]} ∪ running e) e in
  with_tasks_to_run (tasks_to_run (impl e) ++ [qt_ti q]) e.

Definition debug_trigger_tasks (open_slots : Z) (e : Executor Debug) : Executor Debug :=
  let n := Z.to_nat (Z.min open_slots (Z.of_nat (length (queued_tasks e)))) in
  foldl debug_trigger_step e (take n (order_queued_tasks_by_priority e)).

(** [running.remove] raises for a key that is not there. *)
Definition debug_change_state (key : TaskInstanceKey) (state : option TaskInstanceState) (e : Executor Debug) : result (Executor Debug) :=
  if bool_decide (key ∈ running e) then Ok (change_state key state None e) else Err KeyError.

(** The executor, the database and the states that the callbacks of finished tasks saw. *)
Record DebugWorld := {
  executor : Executor Debug;
  session : Session;
  finished_callbacks : list (option TaskInstanceState);
}.

Section Running.
(** How a task instance is run: the arguments of [_run_raw_task]. *)
Context (hostname : string) (pid : Z) (execute : TaskInstance → Session → TaskInstance.Outcome * TaskInstance * Session)
  (dag_of : TaskInstance → DAG) (task_of : TaskInstance → BaseOperator).

(** A state that is set and reported. *)
Definition set_and_report (state : TaskInstanceState) (key : TaskInstanceKey) (ti : TaskInstance) (w : DebugWorld) : result (TaskInstance * DebugWorld) :=
  let (ti, s) := TaskInstance.set_state (Some state) ti (session w) in
  e ← debug_change_state key (Some state) (executor w);
  Ok (ti, {| executor := e; session := s; finished_callbacks := finished_callbacks w |}).

Definition debug_run_finished_callback (ti : TaskInstance) (w : DebugWorld) : DebugWorld :=
  {| executor := executor w; session := session w; finished_callbacks := finished_callbacks w ++ [TI.state ti] |}.

Definition _run_task (ti : TaskInstance) (w : DebugWorld) : result (bool * DebugWorld) :=
  let key := TaskInstance.key ti in
  let params := default (false, None) (dict_get key (tasks_params (impl (executor w)))) in
  let e := with_params (dict_pop key (tasks_params (impl (executor w)))) (executor w) in
  let failed ti w := '(ti, w) ← set_and_report FAILED key ti w; Ok (false, debug_run_finished_callback ti w) in
  match TaskInstance.run_raw_task hostname pid execute (dag_of ti) (task_of ti) params.1 false (TI.job_id ti) params.2 ti (session w) with
  | Ok (TaskInstance.Returned, ti, s) =>
      let w := {| executor := e; session := s; finished_callbacks := finished_callbacks w |} in
      match debug_change_state key (Some SUCCESS) e with
      | Ok e => Ok (true, debug_run_finished_callback ti {| executor := e; session := s; finished_callbacks := finished_callbacks w |})
      | Err _ => failed ti w
      end
  | Ok (TaskInstance.Raised, ti, s) => failed ti {| executor := e; session := s; finished_callbacks := finished_callbacks w |}
  | Err _ => failed ti {| executor := e; session := session w; finished_callbacks := finished_callbacks w |}
  end.

(** One turn of the loop of [sync]; the flag says whether the task before succeeded. *)
Definition sync_step (x : bool * DebugWorld) (ti : TaskInstance) : result (bool * DebugWorld) :=
  let '(task_succeeded, w) := x in
  let d := impl (executor w) in
  let w := {| executor := with_tasks_to_run (tail (tasks_to_run d)) (executor w); session := session w; finished_callbacks := finished_callbacks w |} in
  if fail_fast d && negb task_succeeded then
    '(_, w) ← set_and_report UPSTREAM_FAILED (TaskInstance.key ti) ti w; Ok (task_succeeded, w)
  else if _terminated d then
    '(ti, w) ← set_and_report FAILED (TaskInstance.key ti) ti w; Ok (task_succeeded, debug_run_finished_callback ti w)
  else _run_task ti w.

Definition debug_sync (w : DebugWorld) : result DebugWorld :=
  snd <$> foldM sync_step (tasks_to_run (impl (executor w))) (true, w).

(** [end] leaves the list of tasks as it is. *)
Definition debug_end (w : DebugWorld) : result DebugWorld :=
  foldM (λ w ti, snd <$> set_and_report UPSTREAM_FAILED (TaskInstance.key ti) ti w) (tasks_to_run (impl (executor w))) w.

Definition debug_terminate (e : Executor Debug) : Executor Debug :=
  let d := impl e in
  with_impl {| tasks_to_run := tasks_to_run d; tasks_params := tasks_params d; fail_fast := fail_fast d; _terminated := true |} e.
End Running.
End DebugExecutor.

Import DebugExecutor.

(** ** A synchronisation runs everything *)
Section SyncFacts.
Context (hostname : string) (pid : Z) (execute : TaskInstance → Session → TaskInstance.Outcome * TaskInstance * Session)
  (dag_of : TaskInstance → DAG) (task_of : TaskInstance → BaseOperator).
Implicit Types (w : DebugWorld) (ti : TaskInstance) (e : Executor Debug).

Definition ended (st : TaskInstanceState) : Prop := st ∈ [SUCCESS; FAILED; UPSTREAM_FAILED].

(** The executor after the result of one task. *)
Definition reported (key : TaskInstanceKey) e e' : Prop :=
  tasks_to_run (impl e') = tasks_to_run (impl e) ∧ running e' = running e ∖ {[key]} ∧
  ∃ st, ended st ∧ event_buffer e' = dict_set key (Some st, None) (event_buffer e).

Lemma change_state_reported key st e : key ∈ running e → ended st →
  ∃ e', debug_change_state key (Some st) e = Ok e' ∧ reported key e e'.
Proof.
  intros Hk Hst. unfold debug_change_state. rewrite bool_decide_eq_true_2 by done. eexists. split; [done|].
  unfold reported. split_and!; [done|done|by exists st].
Qed.

Lemma set_and_report_ok st key ti w : key ∈ running (executor w) → ended st →
  ∃ ti' w', set_and_report st key ti w = Ok (ti', w') ∧ reported key (executor w) (executor w').
Proof.
  intros Hk Hst. unfold set_and_report. destruct (TaskInstance.set_state (Some st) ti (session w)) as [ti' s].
  destruct (change_state_reported key st (executor w) Hk Hst) as (e' & -> & He). by eexists _, _.
Qed.

Lemma run_task_ok ti w : TaskInstance.key ti ∈ running (executor w) →
  ∃ b w', _run_task hostname pid execute dag_of task_of ti w = Ok (b, w') ∧ reported (TaskInstance.key ti) (executor w) (executor w').
Proof.
  intros Hk. unfold _run_task. set (key := TaskInstance.key ti) in *. set (params := default _ _).
  set (e := with_params (dict_pop key (tasks_params (impl (executor w)))) (executor w)).
  assert (∀ ti' s, ∃ b w', ('(ti, w) ← set_and_report FAILED key ti' {| executor := e; session := s; finished_callbacks := finished_callbacks w |};
    Ok (false, debug_run_finished_callback ti w)) = Ok (b, w') ∧ reported key (executor w) (executor w')) as Hf.
  { intros ti' s. destruct (set_and_report_ok FAILED key ti' {| executor := e; session := s; finished_callbacks := finished_callbacks w |})
      as (ti2 & w2 & -> & Hr); [done|unfold ended; set_solver|]. by eexists _, _. }
  destruct (TaskInstance.run_raw_task _ _ _ _ _ _ _ _ _ _ _) as [[[[] ti'] s]|x]; [|by apply Hf|by apply Hf].
  destruct (change_state_reported key SUCCESS e Hk) as (e' & -> & He); [unfold ended; set_solver|]. by eexists _, _.
Qed.

Lemma sync_step_ok b ti w : TaskInstance.key ti ∈ running (executor w) →
  ∃ b' w', sync_step hostname pid execute dag_of task_of (b, w) ti = Ok (b', w') ∧
    tasks_to_run (impl (executor w')) = tail (tasks_to_run (impl (executor w))) ∧
    running (executor w') = running (executor w) ∖ {[TaskInstance.key ti]} ∧
    ∃ st, ended st ∧ event_buffer (executor w') = dict_set (TaskInstance.key ti) (Some st, None) (event_buffer (executor w)).
Proof.
  intros Hk. unfold sync_step. set (w1 := {| executor := _ |}).
  destruct (_ && _); [|destruct (_terminated _)].
  - destruct (set_and_report_ok UPSTREAM_FAILED (TaskInstance.key ti) ti w1) as (ti' & w' & -> & Hr); [done|unfold ended; set_solver|].
    by eexists _, _.
  - destruct (set_and_report_ok FAILED (TaskInstance.key ti) ti w1) as (ti' & w' & -> & Hr); [done|unfold ended; set_solver|]. by eexists _, _.
  - destruct (run_task_ok ti w1 Hk) as (b' & w' & -> & Hr). by eexists _, _.
Qed.

Lemma dict_get_set_ne {V} k k' (v : V) d : k ≠ k' → dict_get k (dict_set k' v d) = dict_get k d.
Proof.
  intros Hk. unfold dict_get. destruct (decide (k' ∈ d.*1)) as [Hin|Hin].
  - unfold dict_set. rewrite (proj2 (dict_in_elem k' d) Hin). clear Hin. induction d as [|[k0 v0] d IH]; [done|]. cbn.
    destruct (bool_decide_reflect (k0 = k')) as [->|]; cbn; [rewrite !bool_decide_eq_false_2 by congruence; exact IH|].
    by destruct (k0 ≟ k).
  - rewrite dict_set_new by done. clear Hin. induction d as [|[k0 v0] d IH]; cbn; [by rewrite bool_decide_eq_false_2 by congruence|].
    by destruct (k0 ≟ k).
Qed.

(** When the tasks to run are distinct and known as running, a synchronisation ends
    without an error, leaves no task behind, and every task has an event. *)
Lemma debug_sync_complete w : let l := tasks_to_run (impl (executor w)) in
  NoDup (TaskInstance.key <$> l) → (∀ ti, ti ∈ l → TaskInstance.key ti ∈ running (executor w)) →
  ∃ w', debug_sync hostname pid execute dag_of task_of w = Ok w' ∧ tasks_to_run (impl (executor w')) = [] ∧
    running (executor w') = running (executor w) ∖ list_to_set (TaskInstance.key <$> l) ∧
    ∀ ti, ti ∈ l → ∃ st, ended st ∧ dict_get (TaskInstance.key ti) (event_buffer (executor w')) = Some (Some st, None).
Proof.
  intros l Hd Hr. unfold debug_sync. fold l.
  assert (∀ b w, l = tasks_to_run (impl (executor w)) → (∀ ti, ti ∈ l → TaskInstance.key ti ∈ running (executor w)) →
    ∃ b' w', foldM (sync_step hostname pid execute dag_of task_of) l (b, w) = Ok (b', w') ∧ tasks_to_run (impl (executor w')) = [] ∧
      running (executor w') = running (executor w) ∖ list_to_set (TaskInstance.key <$> l) ∧
      (∀ k, k ∉ TaskInstance.key <$> l → dict_get k (event_buffer (executor w')) = dict_get k (event_buffer (executor w))) ∧
      ∀ ti, ti ∈ l → ∃ st, ended st ∧ dict_get (TaskInstance.key ti) (event_buffer (executor w')) = Some (Some st, None)) as H.
  { clear Hr. induction l as [|ti l IH]; intros b w1 Hl Hr1.
    - exists b, w1. split_and!; [done|done|set_solver|done|by intros ti ?%elem_of_nil].
    - rewrite fmap_cons in Hd. apply NoDup_cons in Hd as [Hti Hd]. cbn [foldM].
      destruct (sync_step_ok b ti w1) as (b2 & w2 & -> & Ht & Hrun & st & Hst & Hev); [apply Hr1; left|]. cbn [mbind result_bind].
      destruct (IH Hd b2 w2) as (b3 & w3 & -> & H1 & H2 & H3 & H4); [by rewrite Ht, <-Hl| |].
      + intros x Hx. rewrite Hrun. apply elem_of_difference. split; [apply Hr1; by right|]. intros E%elem_of_singleton. destruct Hti. rewrite <-E.
        apply list_elem_of_fmap. by exists x.
      + exists b3, w3. split_and!; [done|done|rewrite H2, Hrun; set_solver| |].
        * rewrite fmap_cons. intros k [Hk Hk']%not_elem_of_cons. rewrite H3, Hev by done. by apply dict_get_set_ne.
        * intros x [->|Hx]%elem_of_cons; [|auto]. exists st. split; [done|]. rewrite H3, Hev by done. apply dict_get_set. }
  destruct (H true w) as (b & w' & -> & H1 & H2 & _ & H4); [done|done|]. by exists w'.
Qed.
End SyncFacts.

(** ** A sample *)
Module DebugSample.
Import Sample.
Local Open Scope Z_scope.

(** A task instance in its first of two tries that fails. *)
Definition ti : TaskInstance := mk_ti "diamond" "a" (Some RUNNING).
Definition failing (t : TaskInstance) (s : Session) : TaskInstance.Outcome * TaskInstance * Session := (TaskInstance.OtherAirflowException, t, s).
Definition world : DebugWorld :=
  {| executor := with_running {[TaskInstance.key ti]} (with_tasks_to_run [ti] (debug_init 0 false)); session := mk_session [ti] [];
     finished_callbacks := [] |}.

(** The task is to be tried again, but the executor fails it. *)
Example retry_lost :
  (λ x, TI.state x.1.2) <$> TaskInstance.run_raw_task "host" 7 failing diamond op_a false false None None ti (session world) =
    Ok (Some UP_FOR_RETRY) ∧
  (λ w, TI.state <$> task_instance (session w)) <$> debug_sync "host" 7 failing (λ _, diamond) (λ _, op_a) world = Ok [Some FAILED].
Proof. by vm_compute. Qed.
End DebugSample.
