(* ===== verification/Scheduler.v ===== *)
(** * Scheduler: the critical section and the executor's events

    The part of [SchedulerJob] ([jobs/scheduler_job.py]) that moves task
    instances from SCHEDULED to QUEUED within the limits of pools, DAGs and
    tasks, hands them to the executor, and reads the executor's events back.

    The section [Scheduler] has as variables: [dagbag], what
    [DagBag.get_dag] answers; [locked], the rows that another transaction has
    locked, which [SKIP LOCKED] leaves out of a query; [id], the job's id. *)

From S2P Require Import Prelude State Model Sample Graph DagRunQuery TaskInstance PoolSlots Executor.
Import PoolSlots.
Import Executor.

Module Scheduler.
Local Open Scope Z_scope.

Section Scheduler.
Context (dagbag : string → result (option DAG)) (locked : TaskInstance → bool) (id : Z).

(** ** Concurrency maps *)

(** [GROUP BY task_id, dag_id] with [COUNT( * )], over the given states. *)
Definition ti_concurrency_query (states : list (option TaskInstanceState)) (s : Session)
    : list (string * string * Z) :=
  let rows := List.filter (λ t, TI.state t ∈? states) (task_instance s) in
  (λ '(tid, did), (tid, did, countb (λ t, (TI.task_id t ≟ tid) && (TI.dag_id t ≟ did)) rows))
    <$> remove_dups ((λ t, (TI.task_id t, TI.dag_id t)) <$> rows).

(** [defaultdict(int)]. *)
Definition dget {K} `{Countable K} (m : gmap K Z) (k : K) : Z := default 0 (m !! k).

Definition __get_concurrency_maps (states : list (option TaskInstanceState)) (s : Session)
    : gmap string Z * gmap (string * string) Z :=
  foldl (λ '(dag_map, task_map) '(tid, did, count),
           (<[did := dget dag_map did + count]> dag_map, <[(did, tid) := count]> task_map))
        (∅, ∅) (ti_concurrency_query states s).

(** ** The query for the task instances to examine *)

Definition dag_model_of (did : string) (s : Session) : option DagModel :=
  List.find (λ dm, dm_dag_id dm ≟ did) (dag_model s).

(** The relationship [TI.dag_run]. *)
Definition run_of (t : TaskInstance) (s : Session) : option DagRun :=
  List.find (λ dr, (DR.dag_id dr ≟ TI.dag_id t) && (DR.execution_date dr ≟ TI.execution_date t))
            (dag_run s).

Definition opens (pools : gmap string PoolStats) : list Slots := (λ e, open e.2) <$> map_to_list pools.

(** [max(0, sum(pool['open'] for pool in pools.values()))]. *)
Definition pool_slots_free (pools : gmap string PoolStats) : Slots :=
  match foldr slots_add (Fin 0) (opens pools) with Fin n => Fin (Z.max 0 n) | Inf => Inf end.

Definition slots_min (n : Z) (a : Slots) : Z := match a with Fin m => Z.min n m | Inf => n end.

(** [ORDER BY -priority_weight, execution_date], and the sort key of the loop. *)
Definition before (a b : TaskInstance) : bool :=
  (TI.priority_weight b <? TI.priority_weight a) ||
  ((TI.priority_weight a =? TI.priority_weight b) && (TI.execution_date a <=? TI.execution_date b)).

Definition starved_pools (pools : gmap string PoolStats) : list string :=
  fst <$> List.filter (λ e, slots_leb (open e.2) 0) (map_to_list pools).

(** The WHERE clause: the run, if there is one, is not a backfill (a run
    without a run id counts as none); the DAG has a row and is not paused. *)
Definition to_examine (pools : gmap string PoolStats) (s : Session) (t : TaskInstance) : bool :=
  match run_of t s with
  | None => true
  | Some dr => (DR.run_id dr ≟ None) || negb (DagRunQuery.is_backfill dr)
  end &&
  match dag_model_of (TI.dag_id t) s with None => false | Some dm => negb (is_paused dm) end &&
  (TI.state t ≟ Some SCHEDULED) &&
  negb (TI.pool t ∈? starved_pools pools) &&
  negb (locked t).

(** [LIMIT n]: a negative limit is an error of the database. *)
Definition sql_limit {A} (n : Z) (rows : list A) : result (list A) :=
  if n <? 0 then Err DBAPIError else Ok (take (Z.to_nat n) rows).

(** ** The limits *)

(** [pool_to_task_instances[ti.pool].append(ti)]: the dictionary keeps the order
    in which its keys were added. *)
Fixpoint group_append (t : TaskInstance) (d : list (string * list TaskInstance)) :=
  match d with
  | [] => [(TI.pool t, [t])]
  | (k, l) :: d => if k ≟ TI.pool t then (k, l ++ [t]) :: d else (k, l) :: group_append t d
  end.

Definition pool_to_task_instances (tis : list TaskInstance) : list (string * list TaskInstance) :=
  foldl (λ d t, group_append t d) [] tis.

(** What the loops accumulate. *)
Record QState := {
  executable_tis : list TaskInstance;
  dag_max_active_tasks_map : gmap string Z;
  task_concurrency_map : gmap (string * string) Z;
}.

Definition task_key (t : TaskInstance) : string * string := (TI.dag_id t, TI.task_id t).

Definition task_concurrency_limit (dm : DagModel) (t : TaskInstance) : result (option Z) :=
  if has_task_concurrency_limits dm then
    serialized_dag ← dagbag (TI.dag_id t);
    match serialized_dag with
    | None => Err AttributeError
    | Some dag =>
        if Model.has_task dag (TI.task_id t)
        then task ← get_task dag (TI.task_id t); Ok (task_concurrency task)
        else Ok None
    end
  else Ok None.

(** One iteration of the inner loop up to its [continue]s: may the task
    instance be queued? *)
Definition fits (s : Session) (open_slots : Slots) (q : QState) (t : TaskInstance) : result bool :=
  match dag_model_of (TI.dag_id t) s with
  | None => Err AttributeError
  | Some dm =>
      if dm_max_active_tasks dm <=? dget (dag_max_active_tasks_map q) (TI.dag_id t) then Ok false
      else
        limit ← task_concurrency_limit dm t;
        Ok (match limit with
            | Some l => negb (l <=? dget (task_concurrency_map q) (task_key t))
            | None => true
            end &&
            (match open_slots with Fin n => TI.pool_slots t <=? n | Inf => true end))
  end.

Definition take_ti (t : TaskInstance) (q : QState) : QState :=
  {| executable_tis := executable_tis q ++ [t];
     dag_max_active_tasks_map :=
       <[TI.dag_id t := dget (dag_max_active_tasks_map q) (TI.dag_id t) + 1]> (dag_max_active_tasks_map q);
     task_concurrency_map :=
       <[task_key t := dget (task_concurrency_map q) (task_key t) + 1]> (task_concurrency_map q) |}.

(** The inner loop over the task instances of one pool, with its [break]. *)
Fixpoint pool_loop (s : Session) (tis : list TaskInstance) (open_slots : Slots) (q : QState)
    : result QState :=
  match tis with
  | [] => Ok q
  | t :: tis =>
      if slots_leb open_slots 0 then Ok q
      else
        ok ← fits s open_slots q t;
        if (ok : bool) then pool_loop s tis (slots_sub open_slots (TI.pool_slots t)) (take_ti t q)
        else pool_loop s tis open_slots q
  end.

(** The outer loop's body. *)
Definition pool_step (s : Session) (pools : gmap string PoolStats) (q : QState)
    (group : string * list TaskInstance) : result QState :=
  match pools !! group.1 with
  | None => Ok q
  | Some st => pool_loop s (py_sorted before group.2) (open st) q
  end.

Definition to_queued (now : datetime) (t : TaskInstance) : TaskInstance :=
  TI.set_queued (Some now) (Some id) (TI.set_state (Some QUEUED) t).

(** The single [UPDATE]. *)
Definition queue_rows (tis : list TaskInstance) (s : Session) : Session :=
  match TaskInstance.filter_for_tis (TI.primary <$> tis) with
  | None => s
  | Some f => with_task_instance (update_where f (to_queued (utcnow s)) (task_instance s)) s
  end.

Definition task_instances_to_examine (max_tis : Z) (pools : gmap string PoolStats) (s : Session)
    : result (list TaskInstance) :=
  sql_limit max_tis (py_sorted before (List.filter (to_examine pools s) (task_instance s))).

Definition _executable_task_instances_to_queued (max_tis : Z) (s : Session)
    : result (list TaskInstance * Session) :=
  pools ← slots_stats s;
  if pool_slots_free pools ≟ Fin 0 then Ok ([], s)
  else
    tis ← task_instances_to_examine (slots_min max_tis (pool_slots_free pools)) pools s;
    match tis with
    | [] => Ok ([], s)
    | _ =>
        let '(dag_map, task_map) := __get_concurrency_maps EXECUTION_STATES s in
        q ← foldM (pool_step s pools) (pool_to_task_instances tis)
              {| executable_tis := []; dag_max_active_tasks_map := dag_map;
                 task_concurrency_map := task_map |};
        Ok (executable_tis q, queue_rows (executable_tis q) s)
    end.

(** ** Handing over to the executor *)

Section Enqueue.
Context {X : Type} (isoformat : datetime → string) (pickle_id : TaskInstance → option Z)
        (path : TaskInstance → option string).

(** [ti.command_as_list(local=True, pickle_id=ti.dag_model.pickle_id)]. *)
Definition local_command (t : TaskInstance) : list string :=
  TaskInstance.generate_command isoformat (TI.dag_id t) (TI.task_id t) (TI.execution_date t)
    {| TaskInstance.mark_success := false; TaskInstance.arg_ignore_all_deps := false;
       TaskInstance.arg_ignore_depends_on_past := false;
       TaskInstance.arg_ignore_task_deps := false; TaskInstance.arg_ignore_ti_state := false;
       TaskInstance.local := true; TaskInstance.pickle_id := pickle_id t;
       TaskInstance.file_path := path t; TaskInstance.raw := false;
       TaskInstance.arg_job_id := None; TaskInstance.arg_pool := None;
       TaskInstance.cfg_path := None |}.

Definition _enqueue_task_instances_with_queued_state (tis : list TaskInstance) (e : Executor X)
    : Executor X :=
  foldl (λ e t, queue_command t (local_command t) (TI.priority_weight t) (Some (TI.queue t)) e) e tis.

Definition _critical_section_execute_task_instances (max_tis_per_query : Z) (e : Executor X)
    (s : Session) : result (Z * Executor X * Session) :=
  let max_tis := if max_tis_per_query =? 0 then slots_available e
                 else Z.min max_tis_per_query (slots_available e) in
  '(queued_tis, s) ← _executable_task_instances_to_queued max_tis s;
  Ok (Z.of_nat (length queued_tis), _enqueue_task_instances_with_queued_state queued_tis e, s).
End Enqueue.
End Scheduler.
End Scheduler.
Import Scheduler.

(** ** The concurrency maps count the rows *)

Section Counts.
Local Open Scope Z_scope.

(** Task instances of a DAG, and of a task, that are running or queued. *)
Definition active (t : TaskInstance) : bool := TI.state t ∈? EXECUTION_STATES.
Definition dag_active (did : string) (s : Session) : Z :=
  countb (λ t, active t && (TI.dag_id t ≟ did)) (task_instance s).
Definition task_active (k : string * string) (s : Session) : Z :=
  countb (λ t, active t && (task_key t ≟ k)) (task_instance s).

(** Summing the sizes of groups counts the rows of the groups. *)
Lemma group_count {A B} `{EqDecision B} (f : A → B) (P : B → bool) (G : list B) (R : list A) :
  NoDup G →
  sumb P (λ g, countb (λ x, f x ≟ g) R) G = countb (λ x, P (f x) && (f x ∈? G)) R.
Proof.
  induction 1 as [|g G Hg HG IH].
  - symmetry. apply countb_zero. intros x _. apply andb_false_iff. right. by apply bool_decide_eq_false, not_elem_of_nil.
  - rewrite sumb_cons, IH. destruct (P g) eqn:E.
    + rewrite <-countb_split.
      * apply countb_ext. intros x _. apply eq_bool_prop_intro. rewrite !orb_True, !andb_True, !bool_decide_spec, elem_of_cons.
        split; [intros [->|?]; [rewrite E|]; naive_solver|naive_solver].
      * intros x _ H1 H2. bool_to_prop. by subst.
    + cbn. apply countb_ext. intros x _. apply eq_bool_prop_intro.
      rewrite !andb_True, !bool_decide_spec, elem_of_cons. split; [naive_solver|].
      intros [HP [Hx|?]]; [by rewrite Hx, E in HP|done].
Qed.

Lemma dget_insert {K} `{Countable K} (m : gmap K Z) k k' v :
  dget (<[k := v]> m) k' = if k ≟ k' then v else dget m k'.
Proof.
  unfold dget. case_bool_decide as E; [subst; by rewrite lookup_insert_eq|by rewrite lookup_insert_ne].
Qed.

(** What the loop over the groups leaves in the two maps. *)
Lemma maps_loop (L : list (string * string * Z)) (dm : gmap string Z)
    (tm : gmap (string * string) Z) dm' tm' :
  NoDup (fst <$> L) →
  foldl (λ '(dag_map, task_map) '(tid, did, count),
    (<[did := dget dag_map did + count]> dag_map, <[(did, tid) := count]> task_map)) (dm, tm) L = (dm', tm') →
  (∀ d, dget dm' d = dget dm d + sumb (λ r, r.1.2 ≟ d) snd L) ∧
  (∀ d t, dget tm' (d, t) =
     if existsb (λ r, r.1 ≟ (t, d)) L then sumb (λ r, r.1 ≟ (t, d)) snd L else dget tm (d, t)).
Proof.
  revert dm tm. induction L as [|[[tid did] c] L IH]; intros dm tm Hnd Hf.
  { simpl in Hf. simplify_eq. split; intros; simpl; [lia|done]. }
  rewrite fmap_cons in Hnd. apply NoDup_cons in Hnd as [Hn Hnd]. cbn [foldl] in Hf.
  destruct (IH _ _ Hnd Hf) as [IH1 IH2]. split.
  - intros d. rewrite IH1, dget_insert, sumb_cons. cbn. case_bool_decide; [subst|]; lia.
  - intros d t. rewrite IH2, dget_insert, sumb_cons. cbn [existsb fst snd].
    destruct (decide ((tid, did) = (t, d))) as [[= -> ->]|Hne].
    + rewrite !bool_decide_eq_true_2 by done. cbn [orb].
      assert (∀ r : string * string * Z, r ∈ L → (r.1 ≟ (t, d)) = false) as Hno.
      { intros r Hr. apply bool_decide_eq_false. intros E. apply Hn. cbn [fst]. rewrite <-E.
        apply list_elem_of_fmap. eauto. }
      rewrite (proj2 (existsb_false_elem _ _) Hno), sumb_none by exact Hno. lia.
    + rewrite (bool_decide_eq_false_2 ((tid, did) = (t, d))) by done.
      rewrite (bool_decide_eq_false_2 ((did, tid) = (d, t))) by congruence. done.
Qed.

Lemma ti_concurrency_sum states s (P : string * string → bool) :
  sumb (λ r, P r.1) snd (ti_concurrency_query states s) =
  countb (λ t, (TI.state t ∈? states) && P (TI.task_id t, TI.dag_id t)) (task_instance s).
Proof.
  unfold ti_concurrency_query. set (rows := List.filter _ _). set (f := λ t : TaskInstance, (TI.task_id t, TI.dag_id t)).
  trans (sumb P (λ g, countb (λ x, f x ≟ g) rows) (remove_dups (f <$> rows))).
  - induction (remove_dups (f <$> rows)) as [|[tid did] G IH]; [done|].
    rewrite fmap_cons, !sumb_cons, IH. cbn [fst snd]. destruct (P (tid, did)); [|done]. f_equal.
    apply countb_ext. intros x _. apply eq_bool_prop_intro. rewrite andb_True, !bool_decide_spec.
    unfold f. naive_solver.
  - rewrite group_count by apply NoDup_remove_dups.
    trans (countb (λ x, P (f x)) rows); [|by unfold rows; rewrite countb_filter].
    apply countb_ext. intros x Hx. rewrite (bool_decide_eq_true_2 (f x ∈ _)), andb_true_r; [done|].
    apply elem_of_remove_dups, list_elem_of_fmap. eauto.
Qed.

Lemma ti_concurrency_keys states s : NoDup (fst <$> ti_concurrency_query states s).
Proof.
  unfold ti_concurrency_query. rewrite <-list_fmap_compose.
  rewrite (list_fmap_ext _ (λ x, x)); [rewrite list_fmap_id; apply NoDup_remove_dups|].
  by intros i [tid did] _.
Qed.

Lemma concurrency_maps_count s dm tm :
  __get_concurrency_maps EXECUTION_STATES s = (dm, tm) →
  (∀ d, dget dm d = dag_active d s) ∧ (∀ k, dget tm k = task_active k s).
Proof.
  intros Hm. apply maps_loop in Hm as [H1 H2]; [|apply ti_concurrency_keys]. split.
  - intros d. rewrite H1. unfold dget at 1. rewrite lookup_empty.
    exact (ti_concurrency_sum EXECUTION_STATES s (λ k, k.2 ≟ d)).
  - intros [d t]. rewrite H2. assert (task_active (d, t) s =
      sumb (λ r, r.1 ≟ (t, d)) snd (ti_concurrency_query EXECUTION_STATES s)) as ->.
    { etrans; [|symmetry; exact (ti_concurrency_sum EXECUTION_STATES s (λ k, k ≟ (t, d)))].
      apply countb_ext. intros x _. unfold active, task_key.
      f_equal. apply bool_decide_ext. naive_solver. }
    destruct (existsb _ _) eqn:E; [done|]. rewrite existsb_false_elem in E. by rewrite sumb_none.
Qed.
End Counts.

(** ** The loops keep the limits *)

Section Loops.
Local Open Scope Z_scope.
Context (dagbag : string → result (option DAG)) (s : Session).
Implicit Types (q : QState) (t : TaskInstance).

(** What holds of the accumulators: the maps count the rows and the task
    instances taken so far, and whoever was taken stayed within its limits. *)
Record qinv q : Prop := {
  qi_dag d : dget (dag_max_active_tasks_map q) d =
    dag_active d s + countb (λ t, TI.dag_id t ≟ d) (executable_tis q);
  qi_task k : dget (task_concurrency_map q) k =
    task_active k s + countb (λ t, task_key t ≟ k) (executable_tis q);
  qi_dag_limit t dm : t ∈ executable_tis q → dag_model_of (TI.dag_id t) s = Some dm →
    dget (dag_max_active_tasks_map q) (TI.dag_id t) ≤ dm_max_active_tasks dm;
  qi_task_limit t dm l : t ∈ executable_tis q → dag_model_of (TI.dag_id t) s = Some dm →
    task_concurrency_limit dagbag dm t = Ok (Some l) →
    dget (task_concurrency_map q) (task_key t) ≤ l;
}.

Lemma limit_of_key dm t t' :
  task_key t = task_key t' → task_concurrency_limit dagbag dm t = task_concurrency_limit dagbag dm t'.
Proof. unfold task_key, task_concurrency_limit. by intros [= -> ->]. Qed.

(** Why a task instance is not taken. *)
Definition refused q (open : Slots) t : Prop :=
  (∃ dm, dag_model_of (TI.dag_id t) s = Some dm ∧
     (dm_max_active_tasks dm ≤ dget (dag_max_active_tasks_map q) (TI.dag_id t) ∨
      ∃ l, task_concurrency_limit dagbag dm t = Ok (Some l) ∧
           l ≤ dget (task_concurrency_map q) (task_key t))) ∨
  (∃ n, open = Fin n ∧ (n ≤ 0 ∨ n < TI.pool_slots t)).

Lemma fits_false q open t : fits dagbag s open q t = Ok false → refused q open t.
Proof.
  unfold fits. destruct (dag_model_of (TI.dag_id t) s) as [dm|] eqn:Edm; [|done].
  destruct (_ <=? _) eqn:E1; [intros _; left; exists dm; bool_to_prop; eauto|].
  intros (limit & El & [= H])%result_bind_ok. bool_to_prop. destruct H as [H|H].
  - destruct limit as [l|]; [|done]. bool_to_prop. left. exists dm. eauto.
  - destruct open as [n|]; [|done]. bool_to_prop. right. eauto.
Qed.

Lemma fits_true q open t : fits dagbag s open q t = Ok true →
  ∃ dm, dag_model_of (TI.dag_id t) s = Some dm ∧
    dget (dag_max_active_tasks_map q) (TI.dag_id t) < dm_max_active_tasks dm ∧
    (∀ l, task_concurrency_limit dagbag dm t = Ok (Some l) →
          dget (task_concurrency_map q) (task_key t) < l) ∧
    ∀ n, open = Fin n → TI.pool_slots t ≤ n.
Proof.
  unfold fits. destruct (dag_model_of (TI.dag_id t) s) as [dm|] eqn:Edm; [|done].
  destruct (_ <=? _) eqn:E1; [done|]. intros (limit & El & [= H])%result_bind_ok. bool_to_prop.
  exists dm. split; [done|]. split; [done|]. split.
  - intros l Hl. rewrite Hl in El. simplify_eq. by bool_to_prop.
  - intros n ->. by bool_to_prop.
Qed.

Lemma take_inv q open t : qinv q → fits dagbag s open q t = Ok true → qinv (take_ti t q).
Proof.
  intros [I1 I2 I3 I4] (dm & Hdm & Hd & Ht & _)%fits_true. constructor; cbn.
  - intros d. rewrite dget_insert, countb_app, countb_cons, countb_nil, I1.
    case_bool_decide; subst; rewrite ?I1; lia.
  - intros k. rewrite dget_insert, countb_app, countb_cons, countb_nil, I2.
    case_bool_decide; subst; rewrite ?I2; lia.
  - intros t' dm' Hin Hdm'. rewrite dget_insert. case_bool_decide as E.
    + rewrite E in Hdm. simplify_eq. rewrite E in *. lia.
    + apply elem_of_app in Hin as [Hin|Hin]; [by eapply I3|]. apply list_elem_of_singleton in Hin. congruence.
  - intros t' dm' l Hin Hdm' Hl. rewrite dget_insert. case_bool_decide as E.
    + assert (TI.dag_id t = TI.dag_id t') as Ed by (unfold task_key in E; congruence).
      rewrite Ed, Hdm' in Hdm. injection Hdm as ->. rewrite <-(limit_of_key _ _ _ E) in Hl.
      specialize (Ht l Hl). lia.
    + apply elem_of_app in Hin as [Hin|Hin]; [by eapply I4|]. apply list_elem_of_singleton in Hin. congruence.
Qed.

(** The maps only grow. *)
Definition qle q q' : Prop :=
  (∀ d, dget (dag_max_active_tasks_map q) d ≤ dget (dag_max_active_tasks_map q') d) ∧
  (∀ k, dget (task_concurrency_map q) k ≤ dget (task_concurrency_map q') k).

Lemma qle_app q q' A : qinv q → qinv q' → executable_tis q' = executable_tis q ++ A → qle q q'.
Proof.
  intros I I' E. split; intros x.
  - rewrite (qi_dag _ I), (qi_dag _ I'), E, countb_app. pose proof (countb_nonneg (λ t, TI.dag_id t ≟ x) A). lia.
  - rewrite (qi_task _ I), (qi_task _ I'), E, countb_app. pose proof (countb_nonneg (λ t, task_key t ≟ x) A). lia.
Qed.

(** The open slots left after a list of task instances. *)
Definition slots_after (open : Slots) (A : list TaskInstance) : Slots :=
  match open with Fin n => Fin (n - sumb (λ _, true) TI.pool_slots A) | Inf => Inf end.

Lemma slots_after_cons open t A :
  slots_after (slots_sub open (TI.pool_slots t)) A = slots_after open (t :: A).
Proof. destruct open; [|done]. cbn [slots_sub slots_after]. rewrite sumb_cons. f_equal. lia. Qed.

Lemma refused_mono q q' open A t :
  qle q q' → (∀ t', t' ∈ A → 0 ≤ TI.pool_slots t') →
  refused q open t → refused q' (slots_after open A) t.
Proof.
  intros [H1 H2] Hpos [(dm & Hdm & Hl)|(n & -> & Hn)]; [left|right].
  - exists dm. split; [done|]. destruct Hl as [Hl|(l & Hl & Hle)].
    + left. specialize (H1 (TI.dag_id t)). lia.
    + right. exists l. split; [done|]. specialize (H2 (task_key t)). lia.
  - cbn [slots_after]. eexists; split; [done|].
    assert (0 ≤ sumb (λ _, true) TI.pool_slots A) by (apply sumb_nonneg; intros; auto).
    lia.
Qed.

Lemma pool_loop_spec tis open q q' :
  pool_loop dagbag s tis open q = Ok q' → qinv q →
  ∃ A, executable_tis q' = executable_tis q ++ A ∧ qinv q' ∧ A `sublist_of` tis ∧
    (∀ n, open = Fin n → A = [] ∨ sumb (λ _, true) TI.pool_slots A ≤ n) ∧
    ((∀ t, t ∈ tis → 0 ≤ TI.pool_slots t) →
     ∀ t, t ∈ tis → t ∈ A ∨ refused q' (slots_after open A) t).
Proof.
  revert open q. induction tis as [|t tis IH]; cbn [pool_loop]; intros open q Hl Hq.
  { injection Hl as <-. exists []. rewrite app_nil_r.
    split_and!; [done|done|constructor|by left|by intros _ ? ?%elem_of_nil]. }
  destruct (slots_leb open 0) eqn:Eo.
  { injection Hl as <-. exists []. rewrite app_nil_r.
    split_and!; [done|done|apply sublist_nil_l|by left|]. intros _ t' _. right. right.
    destruct open as [n|]; [|done]. cbn in Eo. bool_to_prop. cbn. eexists; split; [done|]. lia. }
  apply result_bind_ok in Hl as ([] & Hf & Hl).
  - destruct (IH _ _ Hl (take_inv _ _ _ Hq Hf)) as (A & HE & Hq' & Hsub & Hsum & Hmax).
    exists (t :: A). cbn in HE. rewrite <-app_assoc in HE.
    split_and!; [done|done|by constructor| |].
    + intros n ->. right. rewrite sumb_cons. apply fits_true in Hf as (_ & _ & _ & _ & Hn).
      specialize (Hn n eq_refl). destruct (Hsum _ eq_refl) as [->|Hs]; cbn in *; lia.
    + intros Hpos t' [->|Ht']%elem_of_cons; [left; left|].
      destruct (Hmax (λ x Hx, Hpos x (list_elem_of_further _ _ _ Hx)) t' Ht') as [?|Hr]; [left; by right|].
      right. by rewrite slots_after_cons in Hr.
  - destruct (IH _ _ Hl Hq) as (A & HE & Hq' & Hsub & Hsum & Hmax). exists A.
    split_and!; [done|done|by constructor|done|].
    intros Hpos t' [->|Ht']%elem_of_cons.
    + right. eapply refused_mono; [exact (qle_app _ _ _ Hq Hq' HE)| |by apply fits_false].
      intros x Hx. apply Hpos. right. by eapply elem_of_sublist.
    + apply Hmax; [|done]. intros x Hx. apply Hpos. by right.
Qed.

Definition in_pool (k : string) (t : TaskInstance) : bool := TI.pool t ≟ k.

(** One pool: what is taken from its group. *)
Lemma pool_step_spec pools q q' group :
  pool_step dagbag s pools q group = Ok q' → qinv q →
  ∃ A, executable_tis q' = executable_tis q ++ A ∧ qinv q' ∧ A ⊆+ group.2 ∧
    (∀ t, t ∈ A → is_Some (pools !! group.1)) ∧
    (∀ st n, pools !! group.1 = Some st → open st = Fin n →
       A = [] ∨ sumb (λ _, true) TI.pool_slots A ≤ n) ∧
    ((∀ t, t ∈ group.2 → 0 ≤ TI.pool_slots t) → ∀ st t, pools !! group.1 = Some st → t ∈ group.2 →
       t ∈ A ∨ refused q' (slots_after (open st) A) t).
Proof.
  unfold pool_step. intros Hs Hq. destruct (pools !! group.1) as [st|] eqn:Ek.
  - apply pool_loop_spec in Hs as (A & HA & Hq1 & Asub & Asum & Amax); [|done]. exists A.
    split_and!; [done|done| |by eauto| |].
    + rewrite <-(py_sorted_Permutation before group.2). by apply sublist_submseteq.
    + intros st' n [= ->]. apply Asum.
    + intros Hpos st' t [= ->] Ht. apply Amax; [|by apply elem_of_py_sorted].
      intros x Hx. apply Hpos. by apply elem_of_py_sorted in Hx.
  - injection Hs as <-. exists []. rewrite app_nil_r.
    split_and!; [done|done|apply submseteq_nil_l| |by left|done]. by intros ? ?%elem_of_nil.
Qed.

(** The outer loop over pools with distinct names. *)
Lemma pools_loop_spec pools groups q q' :
  foldM (pool_step dagbag s pools) groups q = Ok q' → qinv q →
  NoDup (fst <$> groups) → (∀ k l t, (k, l) ∈ groups → t ∈ l → TI.pool t = k) →
  ∃ B, executable_tis q' = executable_tis q ++ B ∧ qinv q' ∧ B ⊆+ mjoin (snd <$> groups) ∧
    (∀ t, t ∈ B → is_Some (pools !! TI.pool t)) ∧
    (∀ k st n, pools !! k = Some st → open st = Fin n →
       List.filter (in_pool k) B = [] ∨ sumb (in_pool k) TI.pool_slots B ≤ n) ∧
    ((∀ k l t, (k, l) ∈ groups → t ∈ l → 0 ≤ TI.pool_slots t) →
     ∀ k l t st, (k, l) ∈ groups → t ∈ l → pools !! k = Some st →
       t ∈ B ∨ refused q' (slots_after (open st) (List.filter (in_pool k) B)) t).
Proof.
  revert q. induction groups as [|[k0 l0] groups IH]; intros q Hf Hq Hnd Hgrp.
  { injection Hf as <-. exists []. rewrite app_nil_r.
    split_and!; [done|done|done|by intros ? ?%elem_of_nil|by left|by intros _ ? ? ? ? ?%elem_of_nil]. }
  rewrite fmap_cons in Hnd. apply NoDup_cons in Hnd as [Hk0 Hnd].
  cbn [foldM] in Hf. apply result_bind_ok in Hf as (q1 & Hs & Hf).
  apply pool_step_spec in Hs as (A & HA & Hq1 & Asub & Apool & Asum & Amax); [|done].
  cbn [fst snd] in *.
  destruct (IH q1 Hf Hq1 Hnd) as (B & HB & Hq' & Bsub & Bpool & Bsum & Bmax).
  { intros k l t Hin. apply Hgrp. by right. }
  assert (∀ t, t ∈ A → TI.pool t = k0) as HAk.
  { intros t Ht. eapply Hgrp; [left|]. by eapply elem_of_submseteq. }
  assert (∀ t, t ∈ B → in_pool k0 t = false) as HBk.
  { intros t Ht. apply bool_decide_eq_false. intros E. apply Hk0.
    eapply elem_of_submseteq in Ht; [|exact Bsub]. apply list_elem_of_join in Ht as (l & Ht & Hl).
    apply list_elem_of_fmap in Hl as ([k l'] & -> & Hl).
    apply list_elem_of_fmap. exists (k, l'). split; [|done].
    rewrite <-E. cbn. eapply Hgrp; [by right|done]. }
  assert (List.filter (in_pool k0) A = A) as FA0.
  { apply filterb_all. intros t Ht. apply bool_decide_eq_true. by apply HAk. }
  assert (∀ k, k ≠ k0 → List.filter (in_pool k) A = []) as FAne.
  { intros k Hne. apply filterb_none. intros t Ht. apply bool_decide_eq_false. rewrite HAk by done. done. }
  assert (List.filter (in_pool k0) B = []) as FB0 by by apply filterb_none.
  exists (A ++ B). split_and!.
  - by rewrite HB, HA, app_assoc.
  - done.
  - cbn [fmap list_fmap mjoin list_join]. by apply submseteq_app.
  - intros t [Ht|Ht]%elem_of_app; [|by apply Bpool]. rewrite HAk by done. by eapply Apool.
  - intros k st n Hk Hn. rewrite List.filter_app, sumb_app. destruct (decide (k = k0)) as [->|Hne].
    + rewrite FA0, FB0, app_nil_r, (sumb_none _ _ B) by done.
      destruct (Asum st n Hk Hn) as [?|Hle]; [by left|right].
      rewrite (sumb_ext _ (λ _, true) _ TI.pool_slots A); [lia| |done].
      intros t Ht. apply bool_decide_eq_true. by apply HAk.
    + rewrite FAne by done. rewrite (sumb_none _ _ A); [by apply Bsum with st|].
      intros t Ht. apply bool_decide_eq_false. rewrite HAk by done. done.
  - intros Hpos k l t st Hkl Ht Hst. rewrite List.filter_app.
    apply elem_of_cons in Hkl as [[= -> ->]|Hkl].
    + rewrite FA0, FB0, app_nil_r. destruct (Amax (λ x, Hpos k0 l0 x (list_elem_of_here _ _)) st t Hst Ht) as [?|Hr];
        [left; set_solver|right].
      replace (slots_after (open st) A) with (slots_after (slots_after (open st) A) []).
      * eapply refused_mono; [exact (qle_app _ _ _ Hq1 Hq' HB)| |done]. by intros ? ?%elem_of_nil.
      * destruct (open st); cbn; [|done]. f_equal. lia.
    + rewrite FAne, app_nil_l.
      * destruct (Bmax (λ k l t Hin, Hpos k l t (list_elem_of_further _ _ _ Hin)) k l t st Hkl Ht Hst);
          [left; set_solver|by right].
      * intros ->. apply Hk0. apply list_elem_of_fmap. by exists (k0, l).
Qed.
End Loops.

(** ** Grouping by pool *)

Section Grouping.
Abbreviation groups_t := (list (string * list TaskInstance)).

Record grouped (d : groups_t) (tis : list TaskInstance) : Prop := {
  gr_keys : NoDup (fst <$> d);
  gr_pool k l t : (k, l) ∈ d → t ∈ l → TI.pool t = k;
  gr_all : mjoin (snd <$> d) ≡ₚ tis;
}.

Lemma group_append_keys t d k : k ∈ fst <$> group_append t d ↔ k ∈ fst <$> d ∨ k = TI.pool t.
Proof.
  induction d as [|[k0 l0] d IH]; cbn [group_append]; [set_solver|].
  case_bool_decide; rewrite !fmap_cons, !elem_of_cons, ?IH; cbn [fst]; naive_solver.
Qed.

Lemma group_append_grouped t d tis : grouped d tis → grouped (group_append t d) (t :: tis).
Proof.
  intros [H1 H2 H3]. constructor.
  - clear H2 H3. induction d as [|[k0 l0] d IH]; cbn [group_append]; [apply NoDup_singleton|].
    rewrite fmap_cons in H1. apply NoDup_cons in H1 as [Hn Hnd].
    case_bool_decide; rewrite fmap_cons; apply NoDup_cons; [done|].
    split; [|by apply IH]. rewrite group_append_keys. cbn. naive_solver.
  - clear H1 H3. induction d as [|[k0 l0] d IH]; cbn [group_append]; intros k l t' Hkl Ht'.
    { apply list_elem_of_singleton in Hkl. simplify_eq. by apply list_elem_of_singleton in Ht' as ->. }
    revert Hkl. case_bool_decide as E; intros [[= -> ->]|Hkl]%elem_of_cons.
    + apply elem_of_app in Ht' as [Ht'|Ht']; [eapply H2; [left|done]|].
      by apply list_elem_of_singleton in Ht' as ->.
    + eapply H2; [by right|done].
    + eapply H2; [left|done].
    + eapply IH; [|done|done]. intros k1 l1 t1 Hin. apply H2. by right.
  - rewrite <-H3. clear H1 H2 H3. induction d as [|[k0 l0] d IH]; cbn [group_append]; [done|].
    change (mjoin (snd <$> (k0, l0) :: d)) with (l0 ++ mjoin (snd <$> d)). case_bool_decide.
    + change (mjoin (snd <$> (k0, l0 ++ [t]) :: d)) with ((l0 ++ [t]) ++ mjoin (snd <$> d)).
      rewrite <-app_assoc. cbn [app]. by rewrite Permutation_middle.
    + change (mjoin (snd <$> (k0, l0) :: group_append t d)) with (l0 ++ mjoin (snd <$> group_append t d)).
      rewrite IH. by rewrite Permutation_middle.
Qed.

Lemma pool_groups tis : grouped (pool_to_task_instances tis) tis.
Proof.
  unfold pool_to_task_instances. cut (∀ d acc, grouped d acc →
    ∃ out, out ≡ₚ acc ++ tis ∧ grouped (foldl (λ d t, group_append t d) d tis) out).
  { intros H. destruct (H [] []) as (out & Hout & G).
    - constructor; [constructor|by intros ? ? ? ?%elem_of_nil|done].
    - destruct G as [G1 G2 G3]. constructor; [done|done|]. by rewrite G3, Hout. }
  induction tis as [|t tis IH]; intros d acc G; [exists acc; by rewrite app_nil_r|].
  destruct (IH _ _ (group_append_grouped t d acc G)) as (out & Hout & G'). exists out.
  split; [|done]. rewrite Hout. cbn. by rewrite Permutation_middle.
Qed.

Lemma grouped_elem d tis t : grouped d tis → t ∈ tis → ∃ l, (TI.pool t, l) ∈ d ∧ t ∈ l.
Proof.
  intros [H1 H2 H3] Ht. rewrite <-H3 in Ht.
  apply list_elem_of_join in Ht as (l & Ht & ([k l'] & -> & Hl)%list_elem_of_fmap).
  exists l'. cbn in Ht. by rewrite (H2 _ _ _ Hl Ht).
Qed.
End Grouping.

(** ** The update of the rows *)

Section Rows.
Local Open Scope Z_scope.
Context (id : Z) (s : Session) (E : list TaskInstance).
Context (Hkeys : ti_keys_unique (task_instance s)) (Hsub : E ⊆+ task_instance s)
        (Hsched : ∀ t, t ∈ E → TI.state t = Some SCHEDULED).

Lemma queue_rows_table :
  task_instance (queue_rows id E s) =
  update_where (λ r, TI.primary r ∈? TI.primary <$> E) (to_queued id (utcnow s)) (task_instance s).
Proof.
  unfold queue_rows. pose proof (TaskInstance.filter_for_tis_spec (TI.primary <$> E)) as Hf.
  destruct (TaskInstance.filter_for_tis (TI.primary <$> E)) as [f|].
  - destruct Hf as [_ Hf]. cbn. unfold update_where. apply list_fmap_ext. intros i r _.
    destruct (f r) eqn:Er.
    + apply Hf in Er. by rewrite bool_decide_eq_true_2.
    + rewrite bool_decide_eq_false_2; [done|]. intros Hin%Hf. congruence.
  - rewrite Hf. unfold update_where. symmetry. etrans; [|apply list_fmap_id].
    apply list_fmap_ext. intros i r _. done.
Qed.

(** The rows selected by key are the task instances of the list. *)
Lemma selected_rows :
  List.filter (λ r, TI.primary r ∈? TI.primary <$> E) (task_instance s) ≡ₚ E.
Proof.
  assert (NoDup (task_instance s)) as Hnd by (eapply NoDup_fmap_1; exact Hkeys).
  assert (NoDup E) as HndE.
  { destruct (submseteq_Permutation _ _ Hsub) as [k Hk]. rewrite Hk in Hnd. by apply NoDup_app in Hnd as [? _]. }
  apply NoDup_Permutation.
  - rewrite <-(list_fmap_id (List.filter _ _)). apply NoDup_fmap_filterb. by rewrite list_fmap_id.
  - done.
  - intros r. rewrite elem_of_filterb, bool_decide_eq_true, list_elem_of_fmap. split.
    + intros [(t & Hk & Ht) Hr]. replace r with t; [done|].
      eapply (ti_key_inj (task_instance s)); [exact Hkeys|by eapply elem_of_submseteq|done|done].
    + intros Hr. split; [by exists r|by eapply elem_of_submseteq].
Qed.

(** Queueing adds the list to every sum over the active rows. *)
Lemma active_sum_queued (P : TaskInstance → bool) (w : TaskInstance → Z) :
  (∀ t, P (to_queued id (utcnow s) t) = P t) → (∀ t, w (to_queued id (utcnow s) t) = w t) →
  sumb (λ t, active t && P t) w (task_instance (queue_rows id E s)) =
  sumb (λ t, active t && P t) w (task_instance s) + sumb P w E.
Proof.
  intros HP Hw. rewrite queue_rows_table. set (sel := λ r, TI.primary r ∈? TI.primary <$> E).
  assert (∀ r, r ∈ task_instance s → sel r = true → r ∈ E) as Hsel.
  { intros r Hr Hs. rewrite <-selected_rows. by apply elem_of_filterb. }
  trans (sumb (λ t, (active t && P t) || (sel t && P t)) w (task_instance s)).
  - clear Hsel. fold sel. unfold update_where. generalize (task_instance s). intros rows.
    induction rows as [|r rows IH]; [done|].
    rewrite fmap_cons, !sumb_cons, IH. f_equal. destruct (sel r) eqn:Er.
    + rewrite HP, Hw. change (active (to_queued id (utcnow s) r)) with true. cbn [andb].
      by destruct (active r), (P r).
    + by rewrite andb_false_l, orb_false_r.
  - rewrite sumb_split.
    + f_equal. trans (sumb P w (List.filter sel (task_instance s))); [by rewrite sumb_filter|].
      unfold sel. by rewrite selected_rows.
    + intros r Hr H1 H2. bool_to_prop. unfold active in *. bool_to_prop.
      assert (r ∈ E) as Hin by (apply Hsel; done). apply Hsched in Hin.
      rewrite Hin in *. unfold EXECUTION_STATES in *. set_solver.
Qed.
End Rows.

(** ** The critical section *)

Section CriticalSection.
Local Open Scope Z_scope.
Context (dagbag : string → result (option DAG)) (locked : TaskInstance → bool) (id : Z).

Lemma queue_rows_nil s : queue_rows id [] s = s.
Proof. done. Qed.

Lemma init_qinv s dm tm :
  __get_concurrency_maps EXECUTION_STATES s = (dm, tm) →
  qinv dagbag s {| executable_tis := []; dag_max_active_tasks_map := dm; task_concurrency_map := tm |}.
Proof.
  intros [H1 H2]%concurrency_maps_count. constructor; cbn.
  - intros d. rewrite H1, countb_nil. lia.
  - intros k. rewrite H2, countb_nil. lia.
  - by intros ? ? ?%elem_of_nil.
  - by intros ? ? ? ?%elem_of_nil.
Qed.

(** What one call establishes, through the accumulators it ends with. *)
Record queued_ok (max_tis : Z) (pools : gmap string PoolStats) (s : Session) (q : QState) : Prop := {
  qo_inv : qinv dagbag s q;
  qo_sub : executable_tis q ⊆+ List.filter (to_examine locked pools s) (task_instance s);
  qo_max : Z.of_nat (length (executable_tis q)) ≤ max_tis;
  qo_pool t : t ∈ executable_tis q → is_Some (pools !! TI.pool t);
  qo_slots k st n : pools !! k = Some st → open st = Fin n →
    List.filter (in_pool k) (executable_tis q) = [] ∨
    sumb (in_pool k) TI.pool_slots (executable_tis q) ≤ n;
  qo_maximal tis t st :
    task_instances_to_examine locked (slots_min max_tis (pool_slots_free pools)) pools s = Ok tis →
    (∀ t, t ∈ tis → 0 ≤ TI.pool_slots t) → t ∈ tis → pools !! TI.pool t = Some st →
    t ∈ executable_tis q ∨
    refused dagbag s q (slots_after (open st) (List.filter (in_pool (TI.pool t)) (executable_tis q))) t;
}.

Lemma nothing_queued max_tis pools s dm tm :
  0 ≤ max_tis →
  task_instances_to_examine locked (slots_min max_tis (pool_slots_free pools)) pools s = Ok [] →
  __get_concurrency_maps EXECUTION_STATES s = (dm, tm) →
  queued_ok max_tis pools s
    {| executable_tis := []; dag_max_active_tasks_map := dm; task_concurrency_map := tm |}.
Proof.
  intros Hmax He Hm. constructor; cbn [executable_tis].
  - by apply init_qinv.
  - apply submseteq_nil_l.
  - done.
  - by intros ? ?%elem_of_nil.
  - intros. by left.
  - intros tis t st Ht _ Hin. rewrite He in Ht. simplify_eq. by apply elem_of_nil in Hin.
Qed.

Lemma executable_spec max_tis s E s' :
  0 ≤ max_tis →
  _executable_task_instances_to_queued dagbag locked id max_tis s = Ok (E, s') →
  ∃ pools q, slots_stats s = Ok pools ∧ executable_tis q = E ∧ s' = queue_rows id E s ∧
    queued_ok max_tis pools s q.
Proof.
  intros Hmax. unfold _executable_task_instances_to_queued.
  intros (pools & Hp & H)%result_bind_ok. exists pools.
  destruct (__get_concurrency_maps EXECUTION_STATES s) as [dm tm] eqn:Em.
  case_bool_decide as Efree.
  { simplify_eq. eexists. split_and!; [done| |done|eapply nothing_queued; [done| |exact Em]].
    - done.
    - rewrite Efree. unfold task_instances_to_examine, sql_limit. cbn [slots_min].
      rewrite Z.min_r by done. done. }
  apply result_bind_ok in H as (tis & Ht & H). destruct tis as [|t0 tis0].
  { simplify_eq. eexists. split_and!; [done| |done|by eapply nothing_queued]. done. }
  set (tis := t0 :: tis0) in *. apply result_bind_ok in H as (q & Hq & [= <- <-]). exists q.
  destruct (pool_groups tis) as [G1 G2 G3] eqn:EG. clear EG.
  apply pools_loop_spec in Hq as (B & HB & Hinv & Bsub & Bpool & Bsum & Bmax);
    [|by apply init_qinv|done|done].
  cbn in HB. rewrite G3 in Bsub. rewrite <-HB in *. split_and!; [done..|].
  pose proof Ht as Ht'. unfold task_instances_to_examine, sql_limit in Ht'.
  destruct (_ <? 0) eqn:Eneg; [done|]. bool_to_prop. injection Ht' as Ht'.
  constructor; [done| | |done|done|].
  - rewrite Bsub, <-Ht'. etrans; [apply sublist_submseteq, sublist_take|].
    by rewrite py_sorted_Permutation.
  - apply submseteq_length in Bsub. rewrite <-Ht', length_take in Bsub.
    enough (slots_min max_tis (pool_slots_free pools) ≤ max_tis) by lia.
    destruct (pool_slots_free pools); cbn; lia.
  - intros tis' t st Ht2 Hpos Hin Hst. rewrite Ht in Ht2. injection Ht2 as <-.
    destruct (grouped_elem _ _ _ (pool_groups tis) Hin) as (l & Hkl & Hl).
    eapply Bmax; [|done|done|done]. intros k l' t' Hk Ht3. apply Hpos. rewrite <-G3.
    apply list_elem_of_join. exists l'. split; [done|]. apply list_elem_of_fmap. by exists (k, l').
Qed.

(** The new rows of one call, for unique keys. *)
Section After.
Context (max_tis : Z) (s : Session) (pools : gmap string PoolStats) (q : QState).
Context (Hkeys : ti_keys_unique (task_instance s)) (Hok : queued_ok max_tis pools s q).
Abbreviation s' := (queue_rows id (executable_tis q) s).

Lemma queued_from_rows : executable_tis q ⊆+ task_instance s.
Proof.
  rewrite (qo_sub _ _ _ _ Hok). apply sublist_submseteq, filterb_sublist.
Qed.

Lemma queued_examined t : t ∈ executable_tis q → to_examine locked pools s t = true.
Proof. intros Ht. eapply elem_of_submseteq in Ht; [|apply Hok]. by apply elem_of_filterb in Ht as [? _]. Qed.

Lemma queued_scheduled t : t ∈ executable_tis q → TI.state t = Some SCHEDULED.
Proof. intros Ht%queued_examined. unfold to_examine in Ht. by bool_to_prop. Qed.

Lemma dag_active_after d : dag_active d s' = dget (dag_max_active_tasks_map q) d.
Proof.
  rewrite (qi_dag _ _ _ (qo_inv _ _ _ _ Hok)). unfold dag_active. rewrite !countb_sumb.
  apply active_sum_queued; [done|apply queued_from_rows|apply queued_scheduled|done|done].
Qed.

Lemma task_active_after k : task_active k s' = dget (task_concurrency_map q) k.
Proof.
  rewrite (qi_task _ _ _ (qo_inv _ _ _ _ Hok)). unfold task_active. rewrite !countb_sumb.
  apply active_sum_queued; [done|apply queued_from_rows|apply queued_scheduled|done|done].
Qed.

Lemma occupied_active p s0 :
  occupied_slots p s0 = sumb (λ t, active t && in_pool (pool_name p) t) TI.pool_slots (task_instance s0).
Proof. apply sumb_ext; [|done]. intros t _. apply andb_comm. Qed.

Lemma occupied_after p :
  occupied_slots p s' = occupied_slots p s + sumb (in_pool (pool_name p)) TI.pool_slots (executable_tis q).
Proof.
  rewrite !occupied_active.
  apply active_sum_queued; [done|apply queued_from_rows|apply queued_scheduled|done|done].
Qed.

Lemma open_slots_after p :
  PoolSlots.open_slots p s' = slots_after (PoolSlots.open_slots p s) (List.filter (in_pool (pool_name p)) (executable_tis q)).
Proof.
  unfold PoolSlots.open_slots. destruct (slots p =? -1); [done|]. cbn [slots_after]. f_equal.
  rewrite occupied_after, sumb_filter.
  assert (sumb (λ t, in_pool (pool_name p) t && true) TI.pool_slots (executable_tis q) =
          sumb (in_pool (pool_name p)) TI.pool_slots (executable_tis q)) as ->; [|lia].
  apply sumb_ext; [|done]. intros t _. apply andb_true_r.
Qed.
End After.

Lemma pool_limit_spec max_tis s E s' p
    (Hmax : 0 ≤ max_tis) (Hkeys : ti_keys_unique (task_instance s))
    (Hnames : NoDup (pool_name <$> slot_pool s)) (Hp : p ∈ slot_pool s) (Hlim : slots p ≠ -1)
    (Hrun : _executable_task_instances_to_queued dagbag locked id max_tis s = Ok (E, s')) :
  occupied_slots p s' ≤ Z.max (occupied_slots p s) (slots p).
Proof.
  apply executable_spec in Hrun as (pools & q & Hst & <- & -> & Hok); [|done].
  destruct (slots_stats_spec s Hnames) as (d & Hd & Hl). rewrite Hst in Hd. simplify_eq.
  rewrite (occupied_after max_tis s d q) by done. specialize (Hl p Hp).
  destruct (qo_slots _ _ _ _ Hok _ _ (slots p - occupied_slots p s) Hl) as [Hno|Hle].
  - cbn [open]. unfold PoolSlots.open_slots. by rewrite (proj2 (Z.eqb_neq _ _) Hlim).
  - rewrite sumb_none; [lia|]. intros t Ht. destruct (in_pool (pool_name p) t) eqn:E; [|done].
    assert (t ∈ List.filter (in_pool (pool_name p)) (executable_tis q)) as Hin by by apply elem_of_filterb.
    rewrite Hno in Hin. by apply elem_of_nil in Hin.
  - lia.
Qed.

(** C2: however many task instances are waiting, the critical section does not
    over-commit a pool: after it the occupied slots of a pool with a limit
    are at most its size, or what was occupied before if that was more. *)
Theorem pool_never_overcommitted max_tis s E s' p
    (Hmax : 0 ≤ max_tis) (Hkeys : ti_keys_unique (task_instance s))
    (Hnames : NoDup (pool_name <$> slot_pool s)) (Hp : p ∈ slot_pool s) (Hlim : slots p ≠ -1)
    (Hrun : _executable_task_instances_to_queued dagbag locked id max_tis s = Ok (E, s')) :
  occupied_slots p s' ≤ Z.max (occupied_slots p s) (slots p).
Proof. exact (pool_limit_spec max_tis s E s' p Hmax Hkeys Hnames Hp Hlim Hrun). Qed.

Lemma concurrency_limits_spec max_tis s E s'
    (Hmax : 0 ≤ max_tis) (Hkeys : ti_keys_unique (task_instance s))
    (Hrun : _executable_task_instances_to_queued dagbag locked id max_tis s = Ok (E, s')) :
  (∀ did dm, dag_model_of did s = Some dm →
     dag_active did s' ≤ Z.max (dag_active did s) (dm_max_active_tasks dm)) ∧
  (∀ did dm dag tid task l, dag_model_of did s = Some dm → has_task_concurrency_limits dm = true →
     dagbag did = Ok (Some dag) → lookup_task dag tid = Some task → task_concurrency task = Some l →
     task_active (did, tid) s' ≤ Z.max (task_active (did, tid) s) l).
Proof.
  apply executable_spec in Hrun as (pools & q & Hst & <- & -> & Hok); [|done].
  pose proof (qo_inv _ _ _ _ Hok) as Hq. split.
  - intros did dm Hdm. rewrite (dag_active_after max_tis s pools q) by done.
    destruct (decide (countb (λ t, TI.dag_id t ≟ did) (executable_tis q) = 0)) as [H0|Hne].
    + rewrite (qi_dag _ _ _ Hq). lia.
    + assert (0 < countb (λ t, TI.dag_id t ≟ did) (executable_tis q)) as (t & Ht & Hd)%countb_pos.
      { pose proof (countb_nonneg (λ t, TI.dag_id t ≟ did) (executable_tis q)). lia. }
      bool_to_prop. subst did. pose proof (qi_dag_limit _ _ _ Hq t dm Ht Hdm). lia.
  - intros did dm dag tid task l Hdm Hhas Hdag Htask Hl.
    rewrite (task_active_after max_tis s pools q) by done.
    destruct (decide (countb (λ t, task_key t ≟ (did, tid)) (executable_tis q) = 0)) as [H0|Hne].
    + rewrite (qi_task _ _ _ Hq). lia.
    + assert (0 < countb (λ t, task_key t ≟ (did, tid)) (executable_tis q)) as (t & Ht & Hd)%countb_pos.
      { pose proof (countb_nonneg (λ t, task_key t ≟ (did, tid)) (executable_tis q)). lia. }
      bool_to_prop. rewrite <-Hd. injection Hd as <- <-.
      enough (dget (task_concurrency_map q) (task_key t) ≤ l) by lia.
      apply (qi_task_limit _ _ _ Hq t dm l); [done|done|]. unfold task_concurrency_limit.
      rewrite Hhas, Hdag. cbn. assert (Model.has_task dag (TI.task_id t) = true) as ->.
      { apply has_task_lookup. by rewrite Htask. }
      unfold get_task. rewrite Htask. cbn. by rewrite Hl.
Qed.

(** C3: the critical section respects both concurrency limits: after it a DAG
    has at most [max_active_tasks] running or queued task instances, and a task
    at most [task_concurrency], or as many as it had before if that was more. *)
Theorem concurrency_limits_respected max_tis s E s'
    (Hmax : 0 ≤ max_tis) (Hkeys : ti_keys_unique (task_instance s))
    (Hrun : _executable_task_instances_to_queued dagbag locked id max_tis s = Ok (E, s')) :
  (∀ did dm, dag_model_of did s = Some dm →
     dag_active did s' ≤ Z.max (dag_active did s) (dm_max_active_tasks dm)) ∧
  (∀ did dm dag tid task l, dag_model_of did s = Some dm → has_task_concurrency_limits dm = true →
     dagbag did = Ok (Some dag) → lookup_task dag tid = Some task → task_concurrency task = Some l →
     task_active (did, tid) s' ≤ Z.max (task_active (did, tid) s) l).
Proof. exact (concurrency_limits_spec max_tis s E s' Hmax Hkeys Hrun). Qed.

Lemma queued_rows_spec max_tis s E s'
    (Hmax : 0 ≤ max_tis) (Hkeys : ti_keys_unique (task_instance s))
    (Hrun : _executable_task_instances_to_queued dagbag locked id max_tis s = Ok (E, s')) :
  Z.of_nat (length E) ≤ max_tis ∧ NoDup (TI.primary <$> E) ∧
  (∀ t, t ∈ E → t ∈ task_instance s ∧ TI.state t = Some SCHEDULED ∧ locked t = false ∧
     (∃ dm, dag_model_of (TI.dag_id t) s = Some dm ∧ is_paused dm = false) ∧
     (∀ dr, run_of t s = Some dr → DR.run_id dr ≠ None → DR.run_type dr ≠ BACKFILL_JOB)) ∧
  s' = with_task_instance
         ((λ r, if TI.primary r ∈? TI.primary <$> E
                then TI.set_queued (Some (utcnow s)) (Some id) (TI.set_state (Some QUEUED) r)
                else r) <$> task_instance s) s.
Proof.
  apply executable_spec in Hrun as (pools & q & Hst & <- & -> & Hok); [|done].
  pose proof (queued_from_rows max_tis s pools q Hok) as Hsub. split_and!.
  - apply Hok.
  - destruct (submseteq_Permutation _ _ Hsub) as [k Hk]. unfold ti_keys_unique in Hkeys.
    rewrite Hk, fmap_app in Hkeys. by apply NoDup_app in Hkeys as [? _].
  - intros t Ht. split; [by eapply elem_of_submseteq|]. eapply queued_examined in Ht; [|done].
    unfold to_examine in Ht. bool_to_prop. split_and!; [done|done| |].
    + destruct (dag_model_of (TI.dag_id t) s) as [dm|]; [|done]. bool_to_prop. eauto.
    + intros dr Hdr Hid. rewrite Hdr in *. bool_to_prop.
      match goal with H : _ ∨ _ |- _ => destruct H as [H|H] end; bool_to_prop; [done|].
      unfold DagRunQuery.is_backfill in *. by bool_to_prop.
  - trans (with_task_instance (task_instance (queue_rows id (executable_tis q) s)) s).
    + unfold queue_rows. destruct (TaskInstance.filter_for_tis _); by destruct s.
    + by rewrite queue_rows_table.
Qed.

(** The critical section queues at most [max_tis] task instances, each of
    them a row that was SCHEDULED, not locked by another scheduler, of a pool
    that exists, of a DAG that is not paused and not of a backfill run; these
    rows become QUEUED by this job, and no other row and no other table
    changes. *)
Theorem queued_rows_correct max_tis s E s'
    (Hmax : 0 ≤ max_tis) (Hkeys : ti_keys_unique (task_instance s))
    (Hrun : _executable_task_instances_to_queued dagbag locked id max_tis s = Ok (E, s')) :
  Z.of_nat (length E) ≤ max_tis ∧ NoDup (TI.primary <$> E) ∧
  (∀ t, t ∈ E → t ∈ task_instance s ∧ TI.state t = Some SCHEDULED ∧ locked t = false ∧
     (∃ dm, dag_model_of (TI.dag_id t) s = Some dm ∧ is_paused dm = false) ∧
     (∀ dr, run_of t s = Some dr → DR.run_id dr ≠ None → DR.run_type dr ≠ BACKFILL_JOB)) ∧
  s' = with_task_instance
         ((λ r, if TI.primary r ∈? TI.primary <$> E
                then TI.set_queued (Some (utcnow s)) (Some id) (TI.set_state (Some QUEUED) r)
                else r) <$> task_instance s) s.
Proof. exact (queued_rows_spec max_tis s E s' Hmax Hkeys Hrun). Qed.

(** C13: the critical section leaves no slot idle without a reason: a task
    instance it examined and did not queue names a pool that does not exist, or
    when the section ends its DAG or its task is at its limit, or its pool has
    fewer open slots than the task instance needs, or none. *)
Theorem queueing_maximal max_tis s E s' pools tis t
    (Hmax : 0 ≤ max_tis) (Hkeys : ti_keys_unique (task_instance s))
    (Hnames : NoDup (pool_name <$> slot_pool s))
    (Hpos : ∀ r, r ∈ task_instance s → 0 ≤ TI.pool_slots r)
    (Hrun : _executable_task_instances_to_queued dagbag locked id max_tis s = Ok (E, s'))
    (Hpools : slots_stats s = Ok pools)
    (Hexam : task_instances_to_examine locked (slots_min max_tis (pool_slots_free pools)) pools s = Ok tis)
    (Ht : t ∈ tis) :
  t ∈ E ∨
  (∀ p, p ∈ slot_pool s → pool_name p ≠ TI.pool t) ∨
  (∃ dm, dag_model_of (TI.dag_id t) s = Some dm ∧
     (dm_max_active_tasks dm ≤ dag_active (TI.dag_id t) s' ∨
      ∃ l, task_concurrency_limit dagbag dm t = Ok (Some l) ∧ l ≤ task_active (task_key t) s')) ∨
  (∃ p n, p ∈ slot_pool s ∧ pool_name p = TI.pool t ∧ PoolSlots.open_slots p s' = Fin n ∧
     (n ≤ 0 ∨ n < TI.pool_slots t)).
Proof.
  apply executable_spec in Hrun as (pools' & q & Hst & <- & -> & Hok); [|done].
  rewrite Hpools in Hst. injection Hst as <-.
  destruct (slots_stats_spec s Hnames) as (d & Hd & Hl). rewrite Hpools in Hd. injection Hd as <-.
  destruct (existsb (λ p, pool_name p ≟ TI.pool t) (slot_pool s)) eqn:Ep.
  2: { right; left. intros p Hp. rewrite existsb_false_elem in Ep. specialize (Ep p Hp). by bool_to_prop. }
  apply existsb_elem in Ep as (p & Hp & Hname). bool_to_prop. specialize (Hl p Hp). rewrite Hname in Hl.
  assert (∀ r, r ∈ tis → 0 ≤ TI.pool_slots r) as Hpos'.
  { intros r Hr. apply Hpos. unfold task_instances_to_examine, sql_limit in Hexam.
    destruct (_ <? 0); [done|]. injection Hexam as <-.
    eapply elem_of_sublist in Hr; [|apply sublist_take].
    apply elem_of_py_sorted, elem_of_filterb in Hr as [_ Hr]. done. }
  destruct (qo_maximal _ _ _ _ Hok tis t _ Hexam Hpos' Ht Hl)
    as [Hin|[(dm & Hdm & Hlim)|(n & Hn & Hle)]]; [by left| |].
  - right; right; left. exists dm. split; [done|].
    by rewrite (dag_active_after max_tis s pools q), (task_active_after max_tis s pools q).
  - right; right; right. exists p, n. split_and!; [done|done| |done].
    rewrite (open_slots_after max_tis s pools q) by done. cbn [open] in Hn. by rewrite Hname.
Qed.
End CriticalSection.

(** ** The critical section returns *)

Section Total.
Local Open Scope Z_scope.
Context (dagbag : string → result (option DAG)) (locked : TaskInstance → bool) (id : Z).

(** The DAG bag knows the DAGs whose limits the section has to look up. *)
Definition bag_complete (s : Session) : Prop :=
  ∀ did dm, dag_model_of did s = Some dm → has_task_concurrency_limits dm = true →
    ∃ dag, dagbag did = Ok (Some dag).

Lemma limit_total s dm t :
  bag_complete s → dag_model_of (TI.dag_id t) s = Some dm →
  ∃ o, task_concurrency_limit dagbag dm t = Ok o.
Proof.
  intros Hbag Hdm. unfold task_concurrency_limit.
  destruct (has_task_concurrency_limits dm) eqn:E; [|eauto].
  destruct (Hbag _ _ Hdm E) as [dag ->]. cbn. destruct (Model.has_task dag (TI.task_id t)) eqn:Eh; [|eauto].
  apply has_task_lookup in Eh as [task Ht]. unfold get_task. rewrite Ht. cbn. eauto.
Qed.

Lemma pool_loop_total s tis open q :
  bag_complete s → (∀ t, t ∈ tis → is_Some (dag_model_of (TI.dag_id t) s)) →
  ∃ q', pool_loop dagbag s tis open q = Ok q'.
Proof.
  intros Hbag. revert open q. induction tis as [|t tis IH]; intros open q Hdm; [by exists q|].
  cbn [pool_loop]. destruct (slots_leb open 0); [eauto|].
  destruct (Hdm t ltac:(left)) as [dm Hd]. assert (∃ b, fits dagbag s open q t = Ok b) as [b ->].
  { unfold fits. rewrite Hd. destruct (_ <=? _); [eauto|].
    destruct (limit_total s dm t Hbag Hd) as [o ->]. cbn. eauto. }
  cbn. destruct b; apply IH; intros x Hx; apply Hdm; by right.
Qed.

Lemma pools_loop_total s pools groups q :
  bag_complete s → (∀ k l t, (k, l) ∈ groups → t ∈ l → is_Some (dag_model_of (TI.dag_id t) s)) →
  ∃ q', foldM (pool_step dagbag s pools) groups q = Ok q'.
Proof.
  intros Hbag. revert q. induction groups as [|[k l] groups IH]; intros q Hdm; [by exists q|].
  cbn [foldM]. assert (∃ q', pool_step dagbag s pools q (k, l) = Ok q') as [q' ->].
  { unfold pool_step. cbn [fst snd]. destruct (pools !! k); [|eauto]. apply pool_loop_total; [done|].
    intros t Ht. apply elem_of_py_sorted in Ht. eapply Hdm; [left|done]. }
  apply IH. intros k' l' t Hin Ht. eapply Hdm; [by right|done].
Qed.

Lemma executable_total max_tis s :
  0 ≤ max_tis → NoDup (pool_name <$> slot_pool s) → bag_complete s →
  ∃ E s', _executable_task_instances_to_queued dagbag locked id max_tis s = Ok (E, s').
Proof.
  intros Hmax Hnames Hbag. unfold _executable_task_instances_to_queued.
  destruct (slots_stats_spec s Hnames) as (pools & -> & _). cbn [mbind result_bind].
  case_bool_decide as Efree; [eauto|]. unfold task_instances_to_examine, sql_limit.
  assert (0 ≤ slots_min max_tis (pool_slots_free pools)) as Hmin.
  { unfold pool_slots_free. destruct (foldr _ _ _); cbn; lia. }
  rewrite (proj2 (Z.ltb_ge _ _) Hmin). cbn [mbind result_bind].
  set (tis := take _ _). assert (∀ t, t ∈ tis → is_Some (dag_model_of (TI.dag_id t) s)) as Hdm.
  { intros t Ht. eapply elem_of_sublist in Ht; [|apply sublist_take].
    apply elem_of_py_sorted, elem_of_filterb in Ht as [Ht _]. unfold to_examine in Ht. bool_to_prop.
    by destruct (dag_model_of (TI.dag_id t) s). }
  destruct tis as [|t0 tis0] eqn:Etis; [eauto|]. rewrite <-Etis in *.
  destruct (__get_concurrency_maps EXECUTION_STATES s) as [dm tm].
  destruct (pools_loop_total s pools (pool_to_task_instances tis)
    {| executable_tis := []; dag_max_active_tasks_map := dm; task_concurrency_map := tm |}) as [q' ->];
    [done| |cbn; eauto].
  intros k l t Hkl Ht. apply Hdm. rewrite <-(gr_all _ _ (pool_groups tis)).
  apply list_elem_of_join. exists l. split; [done|]. apply list_elem_of_fmap. by exists (k, l).
Qed.
End Total.

(** ** The executor's queue after the critical section *)

Section EnqueueFacts.
Local Open Scope Z_scope.
Context {X : Type} (isoformat : datetime → string) (pickle_id : TaskInstance → option Z)
        (path : TaskInstance → option string).
Implicit Types (e : Executor X).
Abbreviation enqueue := (_enqueue_task_instances_with_queued_state isoformat pickle_id path).

Lemma local_command_valid t : validate_command (local_command isoformat pickle_id path t) = Ok tt.
Proof. done. Qed.

(** What [queue_command] leaves: the key is known, what was known stays, and at
    most one entry was added, with the command. *)
Lemma queue_command_adds t c p qu e :
  Executor.executor_has_task t (queue_command t c p qu e) = true ∧
  running (queue_command t c p qu e) = running e ∧
  parallelism (queue_command t c p qu e) = parallelism e ∧
  ∃ added, queued_tasks (queue_command t c p qu e) = queued_tasks e ++ added ∧
    (length added ≤ 1)%nat ∧ ∀ entry, entry ∈ added → qt_command entry.2 = c.
Proof.
  unfold queue_command. destruct (_ && _) eqn:E.
  - bool_to_prop. match goal with H : dict_in _ _ = false |- _ => apply dict_in_not_elem in H end.
    unfold Executor.executor_has_task. cbn. rewrite dict_set_new by done. split_and!; [|done|done|].
    + apply orb_true_iff. left. apply dict_in_elem. rewrite fmap_app. apply elem_of_app. right. left.
    + eexists. split; [done|]. cbn. split; [lia|]. by intros entry ->%list_elem_of_singleton.
  - split_and!; [|done|done|exists []; rewrite app_nil_r; split_and!; [done|cbn; lia|by intros ? ?%elem_of_nil]].
    unfold Executor.executor_has_task. apply andb_false_iff in E as [E|E]; apply negb_false_iff in E; rewrite E; [done|apply orb_true_r].
Qed.

Lemma has_task_grows t e e' added :
  running e' = running e → queued_tasks e' = queued_tasks e ++ added →
  Executor.executor_has_task t e = true → Executor.executor_has_task t e' = true.
Proof.
  unfold Executor.executor_has_task. intros -> ->. rewrite !orb_true_iff, !dict_in_elem, fmap_app, elem_of_app. tauto.
Qed.

Lemma enqueue_spec tis e :
  running (enqueue tis e) = running e ∧ parallelism (enqueue tis e) = parallelism e ∧
  (∃ added, queued_tasks (enqueue tis e) = queued_tasks e ++ added ∧ (length added ≤ length tis)%nat ∧
     ∀ entry, entry ∈ added → validate_command (qt_command entry.2) = Ok tt) ∧
  ∀ t, t ∈ tis → Executor.executor_has_task t (enqueue tis e) = true.
Proof.
  unfold _enqueue_task_instances_with_queued_state. revert e. induction tis as [|t tis IH]; intros e.
  { split_and!; [done|done| |by intros ? ?%elem_of_nil]. exists []. cbn. rewrite app_nil_r.
    split_and!; [done|done|by intros ? ?%elem_of_nil]. }
  cbn [foldl]. set (e1 := queue_command t _ _ _ e).
  destruct (queue_command_adds t (local_command isoformat pickle_id path t) (TI.priority_weight t)
              (Some (TI.queue t)) e) as (H1 & H2 & H3 & a1 & Ha1 & Hl1 & Hc1). fold e1 in H1, H2, H3, Ha1.
  destruct (IH e1) as (R & P & (a2 & Ha2 & Hl2 & Hc2) & Hall). split_and!.
  - by rewrite R.
  - by rewrite P.
  - exists (a1 ++ a2). split_and!; [by rewrite Ha2, Ha1, app_assoc|rewrite length_app; cbn; lia|].
    intros entry [Hin|Hin]%elem_of_app; [|by apply Hc2]. rewrite (Hc1 _ Hin). apply local_command_valid.
  - intros t' [->|Ht']%elem_of_cons; [|by apply Hall]. eapply has_task_grows; [exact R|exact Ha2|exact H1].
Qed.

Lemma key_to_queued id now t : TI.state t = Some SCHEDULED → TaskInstance.key (to_queued id now t) = TaskInstance.key t.
Proof. intros Ht. unfold TaskInstance.key, TaskInstance.try_number. cbn. by rewrite Ht. Qed.

Context (dagbag : string → result (option DAG)) (locked : TaskInstance → bool) (id : Z).

(** C8: with a free executor slot, unique keys and pool names, and the DAG of every
    row of [dag_model] that has task concurrency limits in the DAG bag
    ([bag_complete]; without it the section raises, see [missing_dag_raises]), the
    critical section returns; every row it changed is QUEUED and known to the
    executor under its key, every command it queued is one that the executors
    accept, and queued and running tasks together stay within the executor's
    parallelism. *)
Theorem critical_section_correct max_tis_per_query e s
    (Hper : 0 ≤ max_tis_per_query) (Hfree : 0 < slots_available e)
    (Hkeys : ti_keys_unique (task_instance s)) (Hnames : NoDup (pool_name <$> slot_pool s))
    (Hbag : bag_complete dagbag s) :
  ∃ n e' s', _critical_section_execute_task_instances dagbag locked id isoformat pickle_id path
               max_tis_per_query e s = Ok (n, e', s') ∧
    (∀ r, r ∈ task_instance s' → r ∉ task_instance s →
       TI.state r = Some QUEUED ∧ TI.queued_by_job_id r = Some id ∧ Executor.executor_has_task r e' = true) ∧
    (∀ entry, entry ∈ queued_tasks e' → entry ∉ queued_tasks e →
       validate_command (qt_command entry.2) = Ok tt) ∧
    (parallelism e ≠ 0 →
       Z.of_nat (size (running e')) + Z.of_nat (length (queued_tasks e')) ≤ parallelism e').
Proof.
  unfold _critical_section_execute_task_instances.
  set (max_tis := if max_tis_per_query =? 0 then _ else _).
  assert (0 ≤ max_tis ≤ slots_available e) as Hm by (unfold max_tis; case_ifs; lia).
  destruct (executable_total dagbag locked id max_tis s) as (E & s' & HE); [lia|done|done|].
  rewrite HE. cbn. do 3 eexists. split; [done|].
  apply executable_spec in HE as (pools & q & _ & <- & -> & Hok); [|lia].
  destruct (enqueue_spec (executable_tis q) e) as (R & P & (added & Ha & Hl & Hv) & Hall).
  rewrite R, P, Ha. split_and!.
  - intros r Hr Hnew. rewrite queue_rows_table in Hr. apply elem_of_update_where in Hr as (r0 & Hr0 & Hr).
    case_bool_decide as Esel; [|by subst].
    assert (r0 ∈ executable_tis q) as Hin.
    { rewrite <-(selected_rows s (executable_tis q) Hkeys (queued_from_rows _ _ _ _ _ _ Hok)).
      apply elem_of_filterb. split; [by apply bool_decide_eq_true|done]. }
    subst r. split; [done|]. split; [done|]. unfold Executor.executor_has_task.
    rewrite key_to_queued by (by eapply queued_scheduled). by apply Hall.
  - intros entry [Hin|Hin]%elem_of_app Hnew; [done|]. by apply Hv.
  - intros Hpar. rewrite length_app. pose proof (qo_max _ _ _ _ _ _ Hok) as Hmx.
    unfold slots_available in *. rewrite (proj2 (Z.eqb_neq _ _) Hpar) in Hm. lia.
Qed.
End EnqueueFacts.

(** ** Witnesses *)

Module SchedulerSample.
Import Sample.
Local Open Scope Z_scope.

(** Two pools: [small] with one slot, and the default one; the DAG may run two
    tasks at a time, and its task [b] one. *)
Definition pool_ti (tid pool : string) (st : option TaskInstanceState) (w d : Z) : TaskInstance :=
  TI.mk tid "diamond" d None None None st 0 1 "" None pool 1 "default" w "BashOperator"
        None None None "" None.

Definition limited_b : DAG :=
  mk_dag "diamond" [op_d; {| task_id := "b"; task_type := "BashOperator"; retries := 1;
     retry_delay := 300000000; retry_exponential_backoff := false; max_retry_delay := None;
     op_start_date := Some 0; op_end_date := None; depends_on_past := false;
     wait_for_downstream := false; trigger_rule := ALL_SUCCESS; op_priority_weight := 1;
     weight_rule := DOWNSTREAM; op_queue := "default"; op_pool := "default_pool";
     op_pool_slots := 1; task_concurrency := Some 1; on_execute_callback := false;
     on_success_callback := false; inherits_from_dummy_operator := false;
     is_SkipMixin := false; op_executor_config := ""; deps := [];
     upstream_task_ids := ["a"]; downstream_task_ids := ["d"] |}; op_c; op_a].

Definition bag (did : string) : result (option DAG) :=
  if did ≟ "diamond" then Ok (Some limited_b) else Err SerializedDagNotFound.

Definition two_pools (small : Z) (tis : list TaskInstance) : Session :=
  {| task_instance := tis; dag_run := [];
     dag_model := [{| dm_dag_id := "diamond"; is_paused := false; is_active := true;
                      dm_max_active_tasks := 3; has_task_concurrency_limits := true;
                      dm_fileloc := "dag.py"; next_dagrun := None;
                      next_dagrun_create_after := None |}];
     slot_pool := [{| pool_name := "small"; slots := small |}; {| pool_name := "default_pool"; slots := 8 |}];
     task_reschedule := []; xcom := []; job := []; utcnow := 5000 |}.

Definition waiting : Session :=
  two_pools 1 [pool_ti "a" "small" (Some SCHEDULED) 1 1000; pool_ti "a" "small" (Some SCHEDULED) 2 2000;
               pool_ti "b" "default_pool" (Some SCHEDULED) 1 1000;
               pool_ti "b" "default_pool" (Some SCHEDULED) 1 2000;
               pool_ti "c" "default_pool" (Some RUNNING) 1 1000].

Definition queued_waiting : list TaskInstance * Session :=
  match _executable_task_instances_to_queued bag (λ _, false) 7 10 waiting with
  | Ok r => r
  | Err _ => ([], waiting)
  end.

(** The second [a] wins the slot by its priority, one [b] gets the DAG's third
    place; the task limit holds back the other [b]. *)
Example waiting_queued :
  (λ t, (TI.task_id t, TI.execution_date t)) <$> queued_waiting.1 = [("a", 2000); ("b", 1000)].
Proof. reflexivity. Qed.

(** A pool whose size was reduced to 1 while 9 of its slots are in use counts with its negative open slots: the
    sum over all pools is then not positive, and nothing is queued in a pool
    that has free slots. *)
Example overfull_pool_blocks_others :
  let big := TI.mk "c" "diamond" 1000 None None None (Some RUNNING) 1 1 "" None "small" 9 "default" 1
               "BashOperator" None None None "" None in
  let s := two_pools 1 [big; pool_ti "b" "default_pool" (Some SCHEDULED) 1 1000] in
  PoolSlots.open_slots {| pool_name := "default_pool"; slots := 8 |} s = Fin 8 ∧
  _executable_task_instances_to_queued bag (λ _, false) 7 10 s = Ok ([], s).
Proof. split; reflexivity. Qed.

(** A DAG that has left the serialized DAGs stops the critical section. *)
Example missing_dag_raises :
  _executable_task_instances_to_queued (λ _, Ok None) (λ _, false) 7 10 waiting = Err AttributeError.
Proof. reflexivity. Qed.
End SchedulerSample.
Import SchedulerSample.
Local Open Scope Z_scope.

Lemma waiting_keys : ti_keys_unique (task_instance waiting).
Proof. apply (bool_decide_unpack _). vm_compute. done. Qed.

Lemma waiting_run :
  _executable_task_instances_to_queued bag (λ _, false) 7 10 waiting = Ok (queued_waiting.1, queued_waiting.2).
Proof. reflexivity. Qed.

Lemma waiting_pools : NoDup (pool_name <$> slot_pool waiting).
Proof. apply (bool_decide_unpack _). vm_compute. done. Qed.

Lemma waiting_bag : bag_complete bag waiting.
Proof.
  intros did dm Hdm _. unfold dag_model_of in Hdm. cbn in Hdm. unfold bag.
  case_bool_decide as E; [|done]. subst. eauto.
Qed.

Lemma pool_never_overcommitted_witness :
  occupied_slots {| pool_name := "small"; slots := 1 |} queued_waiting.2 ≤ Z.max 0 1.
Proof.
  apply (pool_never_overcommitted bag (λ _, false) 7 10 waiting queued_waiting.1 queued_waiting.2
           {| pool_name := "small"; slots := 1 |});
    [lia|apply waiting_keys|apply waiting_pools|left|done|apply waiting_run].
Defined.

Lemma concurrency_limits_respected_witness :
  dag_active "diamond" queued_waiting.2 ≤ Z.max 1 3.
Proof.
  destruct (concurrency_limits_respected bag (λ _, false) 7 10 waiting queued_waiting.1 queued_waiting.2)
    as [Hd _]; [lia|apply waiting_keys|apply waiting_run|].
  apply (Hd "diamond" _ eq_refl).
Defined.

Lemma queued_rows_correct_witness : Z.of_nat (length queued_waiting.1) ≤ 10.
Proof.
  apply (queued_rows_correct bag (λ _, false) 7 10 waiting queued_waiting.1 queued_waiting.2);
    [lia|apply waiting_keys|apply waiting_run].
Defined.

Lemma queueing_maximal_witness :
  let t := pool_ti "b" "default_pool" (Some SCHEDULED) 1 2000 in
  t ∈ queued_waiting.1 ∨
  (∀ p, p ∈ slot_pool waiting → pool_name p ≠ TI.pool t) ∨
  (∃ dm, dag_model_of (TI.dag_id t) waiting = Some dm ∧
     (dm_max_active_tasks dm ≤ dag_active (TI.dag_id t) queued_waiting.2 ∨
      ∃ l, task_concurrency_limit bag dm t = Ok (Some l) ∧ l ≤ task_active (task_key t) queued_waiting.2)) ∨
  (∃ p n, p ∈ slot_pool waiting ∧ pool_name p = TI.pool t ∧
     PoolSlots.open_slots p queued_waiting.2 = Fin n ∧ (n ≤ 0 ∨ n < TI.pool_slots t)).
Proof.
  eapply (queueing_maximal bag (λ _, false) 7 10 waiting queued_waiting.1 queued_waiting.2);
    [lia|apply waiting_keys|apply waiting_pools| |apply waiting_run|reflexivity|reflexivity|].
  - intros r Hr. cbn in Hr. repeat (apply elem_of_cons in Hr as [->|Hr]; [cbn; lia|]).
    by apply elem_of_nil in Hr.
  - cbn. do 3 right. left.
Defined.

Lemma critical_section_correct_witness :
  ∃ n e' s', _critical_section_execute_task_instances bag (λ _, false) 7 (λ _, "2021-01-01T00:00:00+00:00")
      (λ _, None) (λ _, Some "dag.py") 0 (Executor.init 32 tt) waiting = Ok (n, e', s') ∧
    Z.of_nat (size (running e')) + Z.of_nat (length (queued_tasks e')) ≤ parallelism e'.
Proof.
  destruct (critical_section_correct (λ _, "2021-01-01T00:00:00+00:00") (λ _, None) (λ _, Some "dag.py")
    bag (λ _, false) 7 0 (Executor.init 32 tt) waiting) as (n & e' & s' & H & _ & _ & Hb);
    [lia|vm_compute; done|apply waiting_keys|apply waiting_pools|apply waiting_bag|].
  exists n, e', s'. split; [exact H|]. apply Hb. done.
Defined.
