(* ===== verification/SchedulerEvents.v ===== *)
(** * SchedulerEvents: reading the executor's events

    [SchedulerJob._process_executor_events] ([jobs/scheduler_job.py]): what the
    executor reports about the task instances it was given is written to their
    rows.  A callback request is the file of the DAG and the task instance as it
    was loaded. *)

From S2P Require Import Prelude State Model Sample Graph DagRunQuery TaskInstance PoolSlots Executor Scheduler.
Import Executor.
Import Scheduler.

Module SchedulerEvents.
Local Open Scope Z_scope.

Abbreviation Events := (list (TaskInstanceKey * (option TaskInstanceState * option string))).

(** [ti_primary_key_to_try_number_map]. *)
Definition try_number_map (events : Events) : gmap (string * string * datetime) Z :=
  foldl (λ m e, <[TaskInstance.primary e.1 := TaskInstance.key_try_number e.1]> m) ∅ events.

Definition right_state (st : option TaskInstanceState) : bool :=
  st ∈? [Some FAILED; Some SUCCESS; Some QUEUED].

Definition tis_with_right_state (events : Events) : list TaskInstanceKey :=
  fst <$> List.filter (λ e, right_state e.2.1) events.

Record EventState := {
  event_buffer' : Events;
  ev_session : Session;
  callbacks : list (string * TaskInstance);
}.

(** The body of the loop over the rows. *)
Definition process_event (tries : gmap (string * string * datetime) Z) (st : EventState)
    (ti : TaskInstance) : result EventState :=
  match tries !! TI.primary ti with
  | None => Err KeyError
  | Some n =>
      let buffer_key := TaskInstance.with_try_number (TaskInstance.key ti) n in
      match dict_get buffer_key (event_buffer' st) with
      | None => Err KeyError
      | Some (state, info) =>
          let buffer := dict_pop buffer_key (event_buffer' st) in
          if state ≟ Some QUEUED then
            Ok {| event_buffer' := buffer;
                  ev_session := merge_ti (TI.set_external info ti) (ev_session st);
                  callbacks := callbacks st |}
          else if (TaskInstance.try_number ti =? n) && (TI.state ti ≟ Some QUEUED) then
            match dag_model_of (TI.dag_id ti) (ev_session st) with
            | None => Err AttributeError
            | Some dm =>
                Ok {| event_buffer' := buffer;
                      ev_session := (TaskInstance.set_state state ti (ev_session st)).2;
                      callbacks := callbacks st ++ [(dm_fileloc dm, ti)] |}
            end
          else Ok {| event_buffer' := buffer; ev_session := ev_session st; callbacks := callbacks st |}
      end
  end.

Definition _process_executor_events {X} (processor_agent : bool) (e : Executor X) (s : Session)
    : result (Z * list (string * TaskInstance) * Executor X * Session) :=
  if negb processor_agent then Err ValueError
  else
    let '(events, e) := get_event_buffer None e in
    match TaskInstance.filter_for_tis (TaskInstance.primary <$> tis_with_right_state events) with
    | None => Ok (Z.of_nat (length events), [], e, s)
    | Some f =>
        st ← foldM (process_event (try_number_map events)) (List.filter f (task_instance s))
               {| event_buffer' := events; ev_session := s; callbacks := [] |};
        Ok (Z.of_nat (length (event_buffer' st)), callbacks st, e, ev_session st)
    end.
End SchedulerEvents.
Import SchedulerEvents.

(** ** What an event does to a row *)

Section Facts.
Local Open Scope Z_scope.
Context (events : Events).

(** The last event of a task instance, and its effect: an external executor id
    for a task that the executor queued; the reported state, for a task that
    still is QUEUED for the try the event speaks of; nothing otherwise. *)
Definition last_event (k : string * string * datetime) :=
  last (List.filter (λ e, TaskInstance.primary e.1 ≟ k) events).

Definition reported (row : TaskInstance) : bool :=
  existsb (λ e, (TaskInstance.primary e.1 ≟ TI.primary row) && right_state e.2.1) events.

Definition event_effect (now : datetime) (row : TaskInstance) : TaskInstance :=
  match last_event (TI.primary row) with
  | Some (k, (st, info)) =>
      if st ≟ Some QUEUED then TI.set_external info row
      else if (TaskInstance.try_number row =? TaskInstance.key_try_number k) && (TI.state row ≟ Some QUEUED)
      then TaskInstance.set_state_obj now st row
      else row
  | None => row
  end.

Lemma event_effect_primary now row : TI.primary (event_effect now row) = TI.primary row.
Proof.
  unfold event_effect. destruct (last_event _) as [[k [st info]]|]; [|done].
  case_ifs; [done| |done]. unfold TaskInstance.set_state_obj. by case_ifs.
Qed.

Lemma dict_get_elem {V} k (v : V) d : NoDup (fst <$> d) → (k, v) ∈ d → dict_get k d = Some v.
Proof.
  unfold dict_get. induction d as [|[k' v'] d IH]; intros Hnd Hin; [by apply elem_of_nil in Hin|].
  rewrite fmap_cons in Hnd. apply NoDup_cons in Hnd as [Hn Hnd]. cbn [List.find fst].
  apply elem_of_cons in Hin as [[= -> ->]|Hin]; [by rewrite bool_decide_eq_true_2|].
  rewrite bool_decide_eq_false_2; [by apply IH|]. intros ->. apply Hn. apply list_elem_of_fmap.
  by exists (k, v).
Qed.

Lemma dict_get_pop {V} k k' (d : list (TaskInstanceKey * V)) :
  k' ≠ k → dict_get k (dict_pop k' d) = dict_get k d.
Proof.
  intros Hne. unfold dict_get, dict_pop. induction d as [|e d IH]; [done|]. cbn [List.filter].
  destruct (decide (e.1 = k')) as [Hek|Hek'].
  - rewrite (bool_decide_eq_true_2 (e.1 = k')) by done. cbn [negb List.find].
    by rewrite (bool_decide_eq_false_2 (e.1 = k)) by congruence.
  - rewrite (bool_decide_eq_false_2 (e.1 = k')) by done. cbn [negb List.find].
    destruct (e.1 ≟ k); [done|exact IH].
Qed.

(** The two dictionaries together find the last event. *)
Lemma try_number_map_snoc l e :
  try_number_map (l ++ [e]) = <[TaskInstance.primary e.1 := TaskInstance.key_try_number e.1]> (try_number_map l).
Proof. unfold try_number_map. by rewrite foldl_app. Qed.

Lemma try_number_last l k :
  try_number_map l !! k =
  (λ e, TaskInstance.key_try_number e.1) <$> last (List.filter (λ e, TaskInstance.primary e.1 ≟ k) l).
Proof.
  induction l as [|e l IH] using rev_ind; [done|].
  rewrite try_number_map_snoc, List.filter_app. cbn [List.filter]. case_bool_decide as E.
  - subst k. by rewrite lookup_insert_eq, last_snoc.
  - by rewrite lookup_insert_ne, app_nil_r.
Qed.

Lemma last_event_elem k e : last_event k = Some e → e ∈ events ∧ TaskInstance.primary e.1 = k.
Proof.
  unfold last_event. intros He. apply last_Some_elem_of, elem_of_filterb in He as [H1 H2].
  by bool_to_prop.
Qed.

Lemma event_found ti :
  NoDup (fst <$> events) → reported ti = true →
  ∃ k st info, last_event (TI.primary ti) = Some (k, (st, info)) ∧
    try_number_map events !! TI.primary ti = Some (TaskInstance.key_try_number k) ∧
    TaskInstance.with_try_number (TaskInstance.key ti) (TaskInstance.key_try_number k) = k ∧
    dict_get k events = Some (st, info).
Proof.
  intros Hnd (e & He & Hk)%existsb_elem. bool_to_prop.
  destruct (last_event (TI.primary ti)) as [[k [st info]]|] eqn:El.
  - destruct (last_event_elem _ _ El) as [Hin Hp]. exists k, st, info. split_and!; [done| | |by apply dict_get_elem].
    + rewrite try_number_last. fold (last_event (TI.primary ti)). by rewrite El.
    + destruct k. unfold TaskInstance.primary, TI.primary in Hp. cbn in Hp. simplify_eq. done.
  - exfalso. unfold last_event in El. apply last_None in El.
    assert (e ∈ List.filter (λ e, TaskInstance.primary e.1 ≟ TI.primary ti) events) as Hin.
    { apply elem_of_filterb. split; [by apply bool_decide_eq_true|done]. }
    rewrite El in Hin. by apply elem_of_nil in Hin.
Qed.

(** The executor reports the end of a try that still is QUEUED. *)
Definition ended_while_queued (row : TaskInstance) : bool :=
  match last_event (TI.primary row) with
  | Some (k, (st, _)) =>
      negb (st ≟ Some QUEUED) &&
      ((TaskInstance.try_number row =? TaskInstance.key_try_number k) && (TI.state row ≟ Some QUEUED))
  | None => false
  end.

Lemma update_none_changed t s (f : TaskInstance → TaskInstance) :
  ti_keys_unique (task_instance s) → t ∈ task_instance s → f t = t →
  s = with_task_instance (update_where (same_ti t) f (task_instance s)) s.
Proof.
  intros Hk Ht Hf. trans (with_task_instance (task_instance s) s); [by destruct s|]. f_equal.
  symmetry. etrans; [|apply list_fmap_id]. apply list_fmap_ext. intros i r Hr.
  destruct (same_ti t r) eqn:E; [|done]. apply same_ti_eq in E.
  replace r with t; [by rewrite Hf|].
  eapply (ti_key_inj (task_instance s)); [done|done|by eapply list_elem_of_lookup_2|done].
Qed.

Lemma process_event_spec st t :
  NoDup (fst <$> events) → reported t = true →
  ti_keys_unique (task_instance (ev_session st)) → t ∈ task_instance (ev_session st) →
  is_Some (dag_model_of (TI.dag_id t) (ev_session st)) →
  (∀ e, last_event (TI.primary t) = Some e → dict_get e.1 (event_buffer' st) = dict_get e.1 events) →
  ∃ st' k, process_event (try_number_map events) st t = Ok st' ∧
    TaskInstance.primary k = TI.primary t ∧ event_buffer' st' = dict_pop k (event_buffer' st) ∧
    ev_session st' = with_task_instance
      (update_where (same_ti t) (event_effect (utcnow (ev_session st))) (task_instance (ev_session st)))
      (ev_session st) ∧
    (snd <$> callbacks st') = (snd <$> callbacks st) ++ (if ended_while_queued t then [t] else []).
Proof.
  intros Hnd Hrep Hk Ht [dm Hdm] Hbuf.
  destruct (event_found t Hnd Hrep) as (k & state & info & Hlast & Hmap & Hkey & Hget).
  unfold process_event. pose proof (Hbuf _ Hlast) as Hb. cbn [fst] in Hb. rewrite Hmap, Hkey, Hb, Hget.
  assert (TaskInstance.primary k = TI.primary t) as Hkp by by destruct (last_event_elem _ _ Hlast).
  assert (∀ now, event_effect now t =
    (if state ≟ Some QUEUED then TI.set_external info t
     else if (TaskInstance.try_number t =? TaskInstance.key_try_number k) && (TI.state t ≟ Some QUEUED)
     then TaskInstance.set_state_obj now state t else t)) as Heff.
  { intros now. unfold event_effect. by rewrite Hlast. }
  unfold ended_while_queued. rewrite Hlast.
  destruct (state ≟ Some QUEUED); cbn [negb andb]; [|destruct (_ && _); [rewrite Hdm|]];
    eexists _, k; (split; [reflexivity|]); cbn [event_buffer' ev_session callbacks];
    (split_and!; [done|done| |]); rewrite ?fmap_app, ?app_nil_r; try done.
  - apply merge_as_update; [done|done|done|apply Heff].
  - cbn. apply merge_as_update; [done|done| |apply Heff].
    rewrite <-Heff. apply event_effect_primary.
  - by apply update_none_changed.
Qed.

Lemma events_loop tis st :
  NoDup (fst <$> events) → NoDup (TI.primary <$> tis) →
  ti_keys_unique (task_instance (ev_session st)) →
  (∀ t, t ∈ tis → reported t = true ∧ t ∈ task_instance (ev_session st) ∧
     is_Some (dag_model_of (TI.dag_id t) (ev_session st)) ∧
     ∀ e, last_event (TI.primary t) = Some e → dict_get e.1 (event_buffer' st) = dict_get e.1 events) →
  ∃ st', foldM (process_event (try_number_map events)) tis st = Ok st' ∧
    ev_session st' = with_task_instance
      (update_where (λ r, TI.primary r ∈? TI.primary <$> tis) (event_effect (utcnow (ev_session st)))
         (task_instance (ev_session st))) (ev_session st) ∧
    (snd <$> callbacks st') = (snd <$> callbacks st) ++ List.filter ended_while_queued tis.
Proof.
  intros Hnd. revert st. induction tis as [|t tis IH]; intros st Htis Hk Hall.
  { exists st. split_and!; [done| |by rewrite app_nil_r]. trans (with_task_instance (task_instance (ev_session st)) (ev_session st));
      [by destruct (ev_session st)|]. f_equal. symmetry. etrans; [|apply list_fmap_id]. by apply list_fmap_ext. }
  rewrite fmap_cons in Htis. apply NoDup_cons in Htis as [Hn Htis].
  destruct (Hall t ltac:(left)) as (Hr & Hin & Hdm & Hb).
  destruct (process_event_spec st t) as (st1 & k & H1 & Hkp & Hb1 & Hs1 & Hc1); [done..|].
  cbn [foldM]. rewrite H1. cbn [mbind result_bind].
  destruct (IH st1) as (st' & H2 & Hs2 & Hc2); [done| | |].
  - rewrite Hs1. cbn. unfold ti_keys_unique. by rewrite update_where_keys by apply event_effect_primary.
  - intros t' Ht'. destruct (Hall t' ltac:(by right)) as (Hr' & Hin' & Hdm' & Hb').
    assert (TI.primary t' ≠ TI.primary t) as Hne.
    { intros E. apply Hn. rewrite <-E. apply list_elem_of_fmap. eauto. }
    rewrite Hs1. split_and!; [done| |done|].
    + cbn. apply elem_of_update_where. exists t'. split; [done|]. unfold same_ti.
      by rewrite bool_decide_eq_false_2 by congruence.
    + intros e He. rewrite Hb1, dict_get_pop; [by apply Hb'|]. intros ->.
      destruct (last_event_elem _ _ He) as [_ Hp]. congruence.
  - exists st'. split_and!; [done| |].
    + rewrite Hs2, Hs1. cbn [task_instance utcnow with_task_instance].
      match goal with |- with_task_instance ?a (with_task_instance ?b ?s) = _ =>
        change (with_task_instance a (with_task_instance b s)) with (with_task_instance a s) end.
      f_equal. unfold update_where. rewrite <-list_fmap_compose.
      apply list_fmap_ext. intros i r _. rewrite fmap_cons. cbn [compose]. unfold same_ti.
      destruct (decide (TI.primary t = TI.primary r)) as [E|E].
      * rewrite (bool_decide_eq_true_2 (TI.primary t = TI.primary r)) by done.
        rewrite (bool_decide_eq_false_2 (_ ∈ TI.primary <$> tis)) by (rewrite event_effect_primary; by rewrite <-E).
        rewrite bool_decide_eq_true_2; [done|]. rewrite <-E. left.
      * rewrite (bool_decide_eq_false_2 (TI.primary t = TI.primary r)) by done.
        assert ((TI.primary r ∈? TI.primary t :: (TI.primary <$> tis)) = (TI.primary r ∈? TI.primary <$> tis)) as ->; [|done].
        apply bool_decide_ext. rewrite elem_of_cons. naive_solver.
    + rewrite Hc2, Hc1, <-app_assoc. f_equal. cbn [List.filter]. by destruct (ended_while_queued t).
Qed.
End Facts.


Section Theorems.
Local Open Scope Z_scope.

Lemma reported_key events r :
  TI.primary r ∈ TaskInstance.primary <$> tis_with_right_state events ↔ reported events r = true.
Proof.
  unfold tis_with_right_state, reported. rewrite <-list_fmap_compose, list_elem_of_fmap, existsb_elem. split.
  - intros (x & Hk & [Hst Hx]%elem_of_filterb). exists x. split; [done|]. apply andb_true_iff. split; [|done].
    by apply bool_decide_eq_true.
  - intros (x & Hx & [Hk Hst]%andb_true_iff). bool_to_prop. exists x. split; [done|]. by apply elem_of_filterb.
Qed.

End Theorems.

(** ** Witness *)

(** A queued task that the executor reports as failed, and a running one whose
    first try is reported late. *)
Definition w_late : TaskInstance := TI.set_tries 2 2 (Sample.mk_ti "diamond" "b" (Some RUNNING)).
Definition w_events_session : Session :=
  Sample.mk_session [Sample.mk_ti "diamond" "a" (Some QUEUED); w_late] [].
Definition w_events_exec : Executor unit :=
  fail {| TaskInstance.key_dag_id := "diamond"; TaskInstance.key_task_id := "b";
          TaskInstance.key_execution_date := 1000; TaskInstance.key_try_number := 1 |} None
    (fail (TaskInstance.key (Sample.mk_ti "diamond" "a" (Some QUEUED))) None (Executor.init 4 tt)).

