(* ===== verification/SchedulerRuns.v ===== *)
(** * SchedulerRuns: DAG runs, orphans and left-over task instances

    The operations of [SchedulerJob] ([jobs/scheduler_job.py]) around the
    critical section: starting queued runs, one scheduling decision for a run,
    adopting or resetting the task instances of dead schedulers, and cleaning up
    task instances whose run is not active. *)

From S2P Require Import Prelude State Model Sample Graph DagRunQuery TaskInstance PoolSlots TiDeps DagRun Executor Scheduler.
Import TiDeps DagRun Scheduler.

Module SchedulerRuns.
Local Open Scope Z_scope.

Section Runs.
Context `{Settings} (dagbag : string → result (option DAG)) (locked_run : DagRun → bool)
        (locked : TaskInstance → bool) (id : Z).

(** ** Starting queued runs *)

(** The query for the number of running runs, as a default dictionary. *)
Definition active_runs_of_dags (dag_runs : list DagRun) (s : Session) : gmap string Z :=
  let rows := List.filter (λ dr, (DR.dag_id dr ∈? DR.dag_id <$> dag_runs) && (DR._state dr ≟ DR_RUNNING))
                          (dag_run s) in
  list_to_map ((λ did, (did, countb (λ dr, DR.dag_id dr ≟ did) rows))
                 <$> remove_dups (DR.dag_id <$> rows)).

(** [_update_state]: the setter of [state], then the start date. *)
Definition start_run (now : datetime) (dr : DagRun) : DagRun :=
  DagRunQuery.set_start_date (Some now) (DagRunQuery.set_dagrun_state now DR_RUNNING dr).

Definition start_step (st : gmap string Z * Session) (dr : DagRun) : result (gmap string Z * Session) :=
  let '(active_runs_of_dags, s) := st in
  match dagbag (DR.dag_id dr) with
  | Err SerializedDagNotFound => Ok st
  | Err e => Err e
  | Ok None => Err AttributeError
  | Ok (Some dag) =>
      let active_runs := dget active_runs_of_dags (DR.dag_id dr) in
      if negb (max_active_runs dag =? 0) && (max_active_runs dag <=? active_runs) then Ok st
      else Ok (<[DR.dag_id dr := active_runs + 1]> active_runs_of_dags,
               DagRunQuery.merge_run (start_run (utcnow s) dr) s)
  end.

Definition _start_queued_dagruns (max_number : nat) (s : Session) : result Session :=
  let dag_runs := DagRunQuery.next_dagruns_to_examine ALLOW_FUTURE_EXEC_DATES locked_run DR_QUEUED
                    max_number s in
  '(_, s) ← foldM start_step dag_runs (active_runs_of_dags dag_runs s, s);
  Ok s.

(** ** One scheduling decision *)

(** [dag_run.start_date and dag.dagrun_timeout and start_date < now - timeout]:
    a timeout of zero is falsy. *)
Definition has_timed_out (dag : DAG) (dr : DagRun) (now : datetime) : bool :=
  match DR.start_date dr, dagrun_timeout dag with
  | Some d, Some timeout => negb (timeout =? 0) && (d <? now - timeout)
  | _, _ => false
  end.

Definition unfinished_of_run (dr : DagRun) (t : TaskInstance) : bool :=
  (TI.dag_id t ≟ DR.dag_id dr) && (TI.execution_date t ≟ DR.execution_date dr) &&
  (TI.state t ∈? State.unfinished).

(** The run fails and its unfinished task instances are skipped. *)
Definition time_out (dr : DagRun) (s : Session) : Session :=
  let s1 := foldl (λ s t, merge_ti (TI.set_state (Some SKIPPED) t) s) s
              (List.filter (unfinished_of_run dr) (task_instance s)) in
  DagRunQuery.merge_run (DagRunQuery.set_dagrun_state (utcnow s) DR_FAILED dr) s1.

(** [latest_hash] is [SerializedDagModel.get_latest_version_hash]; [hook] the
    site's mutation hook. *)
Definition _verify_integrity_if_dag_changed (latest_hash : string → option string)
    (hook : TaskInstance → TaskInstance) (dr : DagRun) (s : Session) : result (DagRun * Session) :=
  let latest_version := latest_hash (DR.dag_id dr) in
  if DR.dag_hash dr ≟ latest_version then Ok (dr, s)
  else
    let dr := DagRunQuery.set_dag_hash latest_version dr in
    dag ← dagbag (DR.dag_id dr);
    match dag with
    | None => Err AirflowException
    | Some dag => s ← verify_integrity dag dr hook s; Ok (dr, s)
    end.

(** The callback is what is sent, at once or by the caller. *)
Definition _schedule_dag_run (latest_hash : string → option string) (hook : TaskInstance → TaskInstance)
    (dr : DagRun) (s : Session) : result (Callback * Session) :=
  found ← dagbag (DR.dag_id dr);
  match found with
  | None => Ok (NoCallback, s)
  | Some dag =>
      if has_timed_out dag dr (utcnow s) then Ok (Requested true "timed_out", time_out dr s)
      else if (utcnow s <? DR.execution_date dr) && negb (allow_future_exec_dates dag)
      then Ok (NoCallback, s)
      else
        '(dr, s) ← _verify_integrity_if_dag_changed latest_hash hook dr s;
        '(_, r, s) ← schedule_round dag dr false s;
        Ok (ur_callback r, s)
  end.

(** ** Orphans *)

(** Scheduler jobs without a recent heartbeat are marked failed. *)
Definition is_dead (timeout : timedelta) (now : datetime) (j : BaseJob) : bool :=
  (job_type j ≟ "SchedulerJob") && (bj_state j ≟ Some RUNNING) && (latest_heartbeat j <? now - timeout).

Definition fail_job (j : BaseJob) : BaseJob :=
  {| bj_id := bj_id j; job_type := job_type j; bj_state := Some FAILED;
     latest_heartbeat := latest_heartbeat j |}.

Definition queued_by_job (t : TaskInstance) (s : Session) : option BaseJob :=
  match TI.queued_by_job_id t with
  | None => None
  | Some i => List.find (λ j, bj_id j =? i) (job s)
  end.

(** The WHERE clause; comparing a NULL state is not true. *)
Definition is_orphan (s : Session) (t : TaskInstance) : bool :=
  (TI.state t ∈? [Some QUEUED; Some RUNNING]) &&
  ((TI.queued_by_job_id t ≟ None) ||
   match queued_by_job t s with
   | Some j => match bj_state j with Some st => negb (st ≟ RUNNING) | None => false end
   | None => false
   end) &&
  match run_of t s with
  | Some dr => negb (DagRunQuery.is_backfill dr) && (DR._state dr ≟ DR_RUNNING)
  | None => false
  end &&
  negb (locked t).

(** [try_adopt] is the executor's [try_adopt_task_instances]: it returns the
    task instances it does not adopt.  The changes are those of the objects
    loaded by the query. *)
Definition reset_ti (t : TaskInstance) : TaskInstance :=
  TI.set_queued (TI.queued_dttm t) None (TI.set_state None t).
Definition adopt_ti (t : TaskInstance) : TaskInstance := TI.set_queued (TI.queued_dttm t) (Some id) t.

Definition adopt_or_reset_orphaned_tasks (timeout : timedelta)
    (try_adopt : list TaskInstance → list TaskInstance) (s : Session) : Z * Session :=
  let s := with_job (update_where (is_dead timeout (utcnow s)) fail_job (job s)) s in
  let tis := List.filter (is_orphan s) (task_instance s) in
  let to_reset := try_adopt tis in
  let s := foldl (λ s t, merge_ti (reset_ti t) s) s to_reset in
  let s := foldl (λ s t, merge_ti (adopt_ti t) s) s
             (List.filter (λ t, negb (TI.primary t ∈? TI.primary <$> to_reset)) tis) in
  (Z.of_nat (length to_reset), s).

(** ** Task instances without an active run *)

Definition without_dagrun (dag_ids : list string) (old_states : list (option TaskInstanceState))
    (s : Session) (t : TaskInstance) : bool :=
  (TI.dag_id t ∈? dag_ids) && (TI.state t ∈? old_states) &&
  match run_of t s with
  | None => true
  | Some dr => negb (DR._state dr ∈? [DR_RUNNING; DR_QUEUED])
  end.

(** The single [UPDATE] of the databases other than sqlite and mysql. *)
Definition bulk_set (now : datetime) (new_state : option TaskInstanceState) (t : TaskInstance) : TaskInstance :=
  let t := TI.set_state new_state t in
  if new_state ∈? State.finished then TI.set_dates (Some now) (Some now) (Some 0) t
  else TI.set_dates (Some now) (TI.end_date t) (TI.duration t) t.

Definition _change_state_for_tis_without_dagrun (row_by_row : bool) (dag_ids : list string)
    (old_states : list (option TaskInstanceState)) (new_state : option TaskInstanceState)
    (s : Session) : Session :=
  if row_by_row then
    foldl (λ s t, (TaskInstance.set_state new_state t s).2) s
      (List.filter (λ t, without_dagrun dag_ids old_states s t && negb (locked t)) (task_instance s))
  else
    with_task_instance (update_where (without_dagrun dag_ids old_states s) (bulk_set (utcnow s) new_state)
                          (task_instance s)) s.

Definition _clean_tis_without_dagrun (row_by_row : bool) (dag_ids : list string) (s : Session) : Session :=
  let s := _change_state_for_tis_without_dagrun row_by_row dag_ids [Some UP_FOR_RETRY] (Some FAILED) s in
  _change_state_for_tis_without_dagrun row_by_row dag_ids
    [Some QUEUED; Some SCHEDULED; Some UP_FOR_RESCHEDULE; Some SENSING] None s.
End Runs.
End SchedulerRuns.
Import SchedulerRuns.

(** ** Starting queued runs *)

Section StartFacts.
Local Open Scope Z_scope.
Context `{Settings} (dagbag : string → result (option DAG)) (locked_run : DagRun → bool).

Definition run_key (dr : DagRun) : string * datetime := (DR.dag_id dr, DR.execution_date dr).

Definition running_runs (did : string) (s : Session) : Z :=
  countb (λ dr, (DR.dag_id dr ≟ did) && (DR._state dr ≟ DR_RUNNING)) (dag_run s).

Lemma active_runs_count runs s did :
  did ∈ (DR.dag_id <$> runs) → dget (active_runs_of_dags runs s) did = running_runs did s.
Proof.
  intros Hin. unfold active_runs_of_dags, running_runs. set (rows := List.filter _ _).
  assert (countb (λ dr, (DR.dag_id dr ≟ did) && (DR._state dr ≟ DR_RUNNING)) (dag_run s) =
          countb (λ dr, DR.dag_id dr ≟ did) rows) as ->.
  { unfold rows. rewrite countb_filter. apply countb_ext. intros dr _.
    destruct (decide (DR.dag_id dr = did)) as [E|Hne].
    - rewrite (bool_decide_eq_true_2 (DR.dag_id dr = did)) by done.
      rewrite (bool_decide_eq_true_2 (DR.dag_id dr ∈ _)) by (by rewrite E). by rewrite andb_true_r.
    - rewrite (bool_decide_eq_false_2 (DR.dag_id dr = did)) by done. by rewrite andb_false_r. }
  unfold dget. destruct (decide (did ∈ (DR.dag_id <$> rows))) as [Hd|Hd].
  - rewrite (elem_of_list_to_map_1 _ did (countb (λ dr, DR.dag_id dr ≟ did) rows)); [done| |].
    + rewrite <-list_fmap_compose. cbn. rewrite (list_fmap_ext _ (λ x, x)) by done.
      rewrite list_fmap_id. apply NoDup_remove_dups.
    + apply list_elem_of_fmap. exists did. split; [done|]. by apply elem_of_remove_dups.
  - rewrite not_elem_of_list_to_map_1.
    + cbn. symmetry. apply countb_zero. intros dr Hdr. apply bool_decide_eq_false. intros <-.
      apply Hd. apply list_elem_of_fmap. eauto.
    + rewrite <-list_fmap_compose. cbn. rewrite (list_fmap_ext _ (λ x, x)) by done.
      rewrite list_fmap_id. by rewrite elem_of_remove_dups.
Qed.

Lemma same_run_key a b : DagRunQuery.same_run a b = true ↔ run_key a = run_key b.
Proof.
  unfold DagRunQuery.same_run, run_key. rewrite andb_true_iff, !bool_decide_eq_true.
  split; [by intros [-> ->]|by intros [= -> ->]].
Qed.

Lemma start_run_frame now dr :
  DR.dag_id (start_run now dr) = DR.dag_id dr ∧ DR.execution_date (start_run now dr) = DR.execution_date dr ∧
  DR._state (start_run now dr) = DR_RUNNING.
Proof.
  unfold start_run, DagRunQuery.set_dagrun_state. cbn. case_bool_decide; [|done]. cbn. done.
Qed.

(** The rows after a list of runs was started. *)
Definition started (S : list DagRun) (s : Session) : Session :=
  with_dag_run (update_where (λ r, run_key r ∈? run_key <$> S) (start_run (utcnow s)) (dag_run s)) s.

Lemma started_snoc S dr s :
  NoDup (run_key <$> dag_run s) → dr ∈ dag_run s → run_key dr ∉ (run_key <$> S) →
  DagRunQuery.merge_run (start_run (utcnow s) dr) (started S s) = started (S ++ [dr]) s.
Proof.
  intros Hnd Hdr Hnew. unfold DagRunQuery.merge_run, started, with_dag_run. cbn [dag_run utcnow task_instance
    dag_model slot_pool task_reschedule xcom job]. f_equal. unfold update_where. rewrite <-list_fmap_compose.
  apply list_fmap_ext. intros i r Hr. cbn [compose].
  destruct (start_run_frame (utcnow s) dr) as (F1 & F2 & _).
  destruct (start_run_frame (utcnow s) r) as (G1 & G2 & _).
  assert (run_key (if run_key r ∈? run_key <$> S then start_run (utcnow s) r else r) = run_key r) as Hk.
  { case_bool_decide; [|done]. unfold run_key. congruence. }
  assert (DagRunQuery.same_run (start_run (utcnow s) dr)
            (if run_key r ∈? run_key <$> S then start_run (utcnow s) r else r) = (run_key dr ≟ run_key r)) as ->.
  { apply eq_bool_prop_intro. rewrite bool_decide_spec, Is_true_true, same_run_key, Hk.
    unfold run_key. by rewrite F1, F2. }
  rewrite fmap_app. change (run_key <$> [dr]) with [run_key dr].
  destruct (decide (run_key dr = run_key r)) as [E|E].
  - rewrite (bool_decide_eq_true_2 (run_key dr = _)) by done.
    rewrite (bool_decide_eq_true_2 (run_key r ∈ _ ++ _)).
    + f_equal. apply list_elem_of_lookup in Hdr as [j Hj]. assert (i = j) as ->; [|congruence].
      eapply NoDup_lookup; [exact Hnd| |]; rewrite list_lookup_fmap; [by rewrite Hr|rewrite Hj; cbn; congruence].
    + rewrite <-E. apply elem_of_app. right. left.
  - rewrite (bool_decide_eq_false_2 (run_key dr = _)) by done.
    assert ((run_key r ∈? (run_key <$> S) ++ [run_key dr]) = (run_key r ∈? run_key <$> S)) as ->; [|done].
    apply bool_decide_ext. rewrite elem_of_app, list_elem_of_singleton. naive_solver.
Qed.

(** Starting a queued run adds one to the running runs of its DAG. *)
Lemma running_started S dr s did :
  NoDup (run_key <$> dag_run s) → dr ∈ dag_run s → DR._state dr ≠ DR_RUNNING → run_key dr ∉ (run_key <$> S) →
  running_runs did (started (S ++ [dr]) s) =
  running_runs did (started S s) + (if DR.dag_id dr ≟ did then 1 else 0).
Proof.
  intros Hnd Hdr Hst Hnew. unfold running_runs, started. cbn [dag_run with_dag_run]. unfold update_where.
  rewrite !countb_fmap. apply list_elem_of_split in Hdr as (l1 & l2 & Hrows). rewrite Hrows in *.
  rewrite fmap_app, fmap_cons in Hnd. apply NoDup_app in Hnd as (N1 & N12 & N2).
  apply NoDup_cons in N2 as [N2 _].
  assert (∀ r, r ∈ l1 ∨ r ∈ l2 → run_key r ≠ run_key dr) as Hne.
  { intros r [Hr|Hr] E.
    - apply (N12 (run_key r)); [apply list_elem_of_fmap; eauto|]. rewrite E. left.
    - apply N2. rewrite <-E. apply list_elem_of_fmap. eauto. }
  assert (∀ r, r ∈ l1 ∨ r ∈ l2 →
    (run_key r ∈? run_key <$> (S ++ [dr])) = (run_key r ∈? run_key <$> S)) as Hsame.
  { intros r Hr. apply bool_decide_ext. rewrite fmap_app, elem_of_app.
    change (run_key <$> [dr]) with [run_key dr]. rewrite list_elem_of_singleton.
    specialize (Hne r Hr). naive_solver. }
  rewrite !countb_app, !countb_cons.
  rewrite (countb_ext _ (λ x, (DR.dag_id (if run_key x ∈? run_key <$> S then start_run (utcnow s) x else x) ≟ did) &&
     (DR._state (if run_key x ∈? run_key <$> S then start_run (utcnow s) x else x) ≟ DR_RUNNING)) l1)
    by (intros r Hr; by rewrite Hsame by (by left)).
  rewrite (countb_ext _ (λ x, (DR.dag_id (if run_key x ∈? run_key <$> S then start_run (utcnow s) x else x) ≟ did) &&
     (DR._state (if run_key x ∈? run_key <$> S then start_run (utcnow s) x else x) ≟ DR_RUNNING)) l2)
    by (intros r Hr; by rewrite Hsame by (by right)).
  rewrite (bool_decide_eq_true_2 (run_key dr ∈ run_key <$> (S ++ [dr]))) by (rewrite fmap_app; apply elem_of_app; right; left).
  rewrite (bool_decide_eq_false_2 (run_key dr ∈ run_key <$> S)) by done.
  destruct (start_run_frame (utcnow s) dr) as (-> & _ & ->).
  rewrite (bool_decide_eq_false_2 (DR._state dr = DR_RUNNING)) by done.
  rewrite (bool_decide_eq_true_2 (DR_RUNNING = DR_RUNNING)) by done. rewrite andb_true_r, andb_false_r.
  case_bool_decide; lia.
Qed.

Lemma running_mono S S' s did :
  running_runs did (started S s) ≤ running_runs did (started (S ++ S') s).
Proof.
  unfold running_runs, started. cbn [dag_run with_dag_run]. unfold update_where. rewrite !countb_fmap.
  apply countb_le. intros r _ Hr. destruct (start_run_frame (utcnow s) r) as (F1 & _ & F3).
  rewrite fmap_app. destruct (decide (run_key r ∈ (run_key <$> S))) as [E|E].
  - rewrite (bool_decide_eq_true_2 (run_key r ∈ _ ++ _)) by (apply elem_of_app; by left).
    by rewrite (bool_decide_eq_true_2 (run_key r ∈ run_key <$> S)) in Hr.
  - rewrite (bool_decide_eq_false_2 (run_key r ∈ run_key <$> S)) in Hr by done.
    destruct (run_key r ∈? _ ++ _); [|done]. rewrite F1, F3. bool_to_prop. by rewrite !bool_decide_eq_true_2.
Qed.

(** Every DAG is either in the bag or reported missing. *)
Definition bag_answers : Prop :=
  ∀ did, (∃ dag, dagbag did = Ok (Some dag)) ∨ dagbag did = Err SerializedDagNotFound.

(** The limit of a DAG is reached; 0 means no limit. *)
Definition at_run_limit (did : string) (s : Session) : Prop :=
  ∃ dag, dagbag did = Ok (Some dag) ∧ max_active_runs dag ≠ 0 ∧ max_active_runs dag ≤ running_runs did s.

(** What the loop over the queued runs establishes for the runs it started. *)
Definition within_limits (S : list DagRun) (s : Session) : Prop :=
  ∀ dr dag, dr ∈ S → dagbag (DR.dag_id dr) = Ok (Some dag) → max_active_runs dag ≠ 0 →
    running_runs (DR.dag_id dr) (started S s) ≤ max_active_runs dag.

Definition start_post (L S S' : list DagRun) (s : Session) : Prop :=
  S' `sublist_of` L ∧ within_limits (S ++ S') s ∧
  ∀ dr, dr ∈ L → dr ∈ S' ∨ dagbag (DR.dag_id dr) = Err SerializedDagNotFound ∨
    at_run_limit (DR.dag_id dr) (started (S ++ S') s).

Lemma start_post_skip dr L S S' s :
  start_post L S S' s →
  dagbag (DR.dag_id dr) = Err SerializedDagNotFound ∨ at_run_limit (DR.dag_id dr) (started S s) →
  start_post (dr :: L) S S' s.
Proof.
  intros (Hsub & Hlim & Hmax) Hreason. split_and!; [by constructor|done|].
  intros x [->|Hx]%elem_of_cons; [|by apply Hmax]. right.
  destruct Hreason as [?|(dag & H1 & H2 & H3)]; [by left|right]. exists dag. split_and!; [done..|].
  pose proof (running_mono S S' s (DR.dag_id dr)). lia.
Qed.

Lemma start_post_take dr L S S' s : start_post L (S ++ [dr]) S' s → start_post (dr :: L) S (dr :: S') s.
Proof.
  intros (Hsub & Hlim & Hmax). rewrite <-app_assoc in Hlim, Hmax. split_and!; [by constructor|done|].
  intros x [->|Hx]%elem_of_cons; [left; left|]. destruct (Hmax x Hx) as [?|?]; [left; by right|by right].
Qed.

Lemma within_limits_snoc S dr dag s :
  NoDup (run_key <$> dag_run s) → dr ∈ dag_run s → DR._state dr ≠ DR_RUNNING → run_key dr ∉ (run_key <$> S) →
  within_limits S s → dagbag (DR.dag_id dr) = Ok (Some dag) →
  (max_active_runs dag ≠ 0 → running_runs (DR.dag_id dr) (started S s) < max_active_runs dag) →
  within_limits (S ++ [dr]) s.
Proof.
  intros Hnd Hdr Hst Hnew Hlim Hdag Hlt x dagx Hx Hdx Hmx. rewrite (running_started S dr s) by done.
  case_bool_decide as E.
  - rewrite <-E in *. rewrite Hdag in Hdx. injection Hdx as <-. specialize (Hlt Hmx). lia.
  - apply elem_of_app in Hx as [Hx|Hx]; [|apply list_elem_of_singleton in Hx; congruence].
    specialize (Hlim x dagx Hx Hdx Hmx). lia.
Qed.

Lemma start_loop L S m s :
  NoDup (run_key <$> dag_run s) → NoDup (run_key <$> (S ++ L)) → bag_answers → within_limits S s →
  (∀ dr, dr ∈ L → dr ∈ dag_run s ∧ DR._state dr ≠ DR_RUNNING) →
  (∀ did, did ∈ (DR.dag_id <$> L) → dget m did = running_runs did (started S s)) →
  ∃ m' S', foldM (start_step dagbag) L (m, started S s) = Ok (m', started (S ++ S') s) ∧ start_post L S S' s.
Proof.
  intros Hnd HSL Hbag. revert S m HSL. induction L as [|dr L IH]; intros S m HSL HS Hrows Hm.
  { exists m, []. rewrite app_nil_r. split; [done|]. split_and!; [constructor|by rewrite app_nil_r|by intros ? ?%elem_of_nil]. }
  destruct (Hrows dr ltac:(left)) as [Hdr Hst]. pose proof HSL as HSL0.
  rewrite fmap_app, fmap_cons in HSL. apply NoDup_app in HSL as (A & B & C). apply NoDup_cons in C as [_ C].
  assert (run_key dr ∉ (run_key <$> S)) as Hnew by (intros Hx; apply (B _ Hx); left).
  assert (NoDup (run_key <$> (S ++ L))) as N1.
  { rewrite fmap_app. apply NoDup_app. split_and!; [done| |done]. intros x Hx Hx'. apply (B x Hx). by right. }
  assert (∀ x, x ∈ L → x ∈ dag_run s ∧ DR._state x ≠ DR_RUNNING) as Hrows' by (intros x Hx; apply Hrows; by right).
  assert (∀ did, did ∈ (DR.dag_id <$> L) → dget m did = running_runs did (started S s)) as Hm'.
  { intros did Hd. apply Hm. rewrite fmap_cons. by right. }
  pose proof (Hm (DR.dag_id dr) ltac:(rewrite fmap_cons; left)) as Hact. cbn [foldM].
  destruct (Hbag (DR.dag_id dr)) as [[dag Hdag]|Hno].
  2: { destruct (IH S m N1 HS Hrows' Hm') as (m' & S' & HF & Hpost). exists m', S'.
       replace (start_step dagbag (m, started S s) dr) with (Ok (m, started S s)) by (unfold start_step; by rewrite Hno).
       split; [done|]. apply start_post_skip; auto. }
  destruct (negb (max_active_runs dag =? 0) && (max_active_runs dag <=? dget m (DR.dag_id dr))) eqn:El.
  { destruct (IH S m N1 HS Hrows' Hm') as (m' & S' & HF & Hpost). exists m', S'.
    replace (start_step dagbag (m, started S s) dr) with (Ok (m, started S s)) by (unfold start_step; by rewrite Hdag, El).
    split; [done|]. apply start_post_skip; [done|]. bool_to_prop. right. exists dag. split_and!; [done|done|lia]. }
  destruct (IH (S ++ [dr]) (<[DR.dag_id dr := dget m (DR.dag_id dr) + 1]> m)) as (m' & S' & HF & Hpost); [| |done| |].
  - by rewrite <-app_assoc.
  - eapply within_limits_snoc; [done..|]. intros Hmx. bool_to_prop. destruct El as [El|El]; bool_to_prop; lia.
  - intros did Hd. rewrite dget_insert, (running_started S dr s did) by done. case_bool_decide; [subst; lia|].
    rewrite Hm' by done. lia.
  - exists m', (dr :: S'). rewrite <-app_assoc in HF. cbn [app] in HF.
    replace (start_step dagbag (m, started S s) dr)
      with (Ok (<[DR.dag_id dr := dget m (DR.dag_id dr) + 1]> m, started (S ++ [dr]) s)).
    + split; [done|by apply start_post_take].
    + unfold start_step. rewrite Hdag, El. by rewrite <-started_snoc by done.
Qed.

Lemma started_nil s : started [] s = s.
Proof.
  unfold started, update_where. destruct s. unfold with_dag_run. cbn. f_equal.
  etrans; [|apply list_fmap_id]. by apply list_fmap_ext.
Qed.

Abbreviation examined n s :=
  (DagRunQuery.next_dagruns_to_examine ALLOW_FUTURE_EXEC_DATES locked_run DR_QUEUED n s).

Lemma examined_sub n s : examined n s ⊆+ dag_run s ∧ ∀ dr, dr ∈ examined n s → DR._state dr = DR_QUEUED.
Proof.
  unfold DagRunQuery.next_dagruns_to_examine. split.
  - etrans; [apply sublist_submseteq, sublist_take|]. rewrite py_sorted_Permutation.
    apply sublist_submseteq, filterb_sublist.
  - intros dr Hdr. eapply elem_of_sublist in Hdr; [|apply sublist_take].
    apply elem_of_py_sorted, elem_of_filterb in Hdr as [Hdr _]. by bool_to_prop.
Qed.

End StartFacts.


(** ** Timeouts, orphans, left-over task instances *)

Section Cleanup.
Local Open Scope Z_scope.
Context (locked : TaskInstance → bool) (id : Z).

(** A run that has timed out is failed, its unfinished task instances are
    skipped, and nothing else changes. *)
Lemma time_out_rows dr s :
  ti_keys_unique (task_instance s) →
  let dr' := DagRunQuery.set_dagrun_state (utcnow s) DR_FAILED dr in
  time_out dr s =
  with_dag_run (update_where (DagRunQuery.same_run dr') (λ _, dr') (dag_run s))
    (with_task_instance (update_where (unfinished_of_run dr) (TI.set_state (Some SKIPPED)) (task_instance s)) s).
Proof. intros Hk. unfold time_out. by rewrite merge_filter_update. Qed.

(** A scheduling decision for a run past its DAG's timeout fails the run,
    skips exactly its unfinished task instances, requests the failure callback,
    and changes no other row. *)
Theorem timed_out_run_closed `{Settings} dagbag hash hook dr dag s d timeout
    (Hkeys : ti_keys_unique (task_instance s)) (Hdag : dagbag (DR.dag_id dr) = Ok (Some dag))
    (Hstart : DR.start_date dr = Some d) (Htimeout : dagrun_timeout dag = Some timeout)
    (Hpos : timeout ≠ 0) (Hlate : d + timeout < utcnow s) :
  ∃ s', _schedule_dag_run dagbag hash hook dr s = Ok (Requested true "timed_out", s') ∧
    task_instance s' =
      (λ t, if (TI.dag_id t ≟ DR.dag_id dr) && (TI.execution_date t ≟ DR.execution_date dr) &&
               (TI.state t ∈? State.unfinished)
            then TI.set_state (Some SKIPPED) t else t) <$> task_instance s ∧
    dag_run s' = (λ r, if DagRunQuery.same_run dr r
                       then DagRunQuery.set_dagrun_state (utcnow s) DR_FAILED dr else r) <$> dag_run s.
Proof.
  unfold _schedule_dag_run. rewrite Hdag. cbn [mbind result_bind].
  assert (has_timed_out dag dr (utcnow s) = true) as ->.
  { unfold has_timed_out. rewrite Hstart, Htimeout. apply andb_true_iff.
    split; [by apply negb_true_iff, Z.eqb_neq|apply Z.ltb_lt; lia]. }
  eexists. split; [done|]. rewrite time_out_rows by done. split; [done|].
  cbn [dag_run with_dag_run with_task_instance]. apply list_fmap_ext. intros i r _.
  assert (DagRunQuery.same_run (DagRunQuery.set_dagrun_state (utcnow s) DR_FAILED dr) r = DagRunQuery.same_run dr r) as ->; [|done].
  unfold DagRunQuery.same_run, DagRunQuery.set_dagrun_state. by destruct (DR._state dr ≟ DR_FAILED).
Qed.

(** The rows after the orphans were handled. *)
Definition orphan_row (to_reset : list TaskInstance) (s : Session) (t : TaskInstance) : TaskInstance :=
  if is_orphan locked s t then
    if TI.primary t ∈? TI.primary <$> to_reset then reset_ti t else adopt_ti id t
  else t.

Definition mark_dead (timeout : timedelta) (s : Session) : Session :=
  with_job (update_where (is_dead timeout (utcnow s)) fail_job (job s)) s.

Lemma adopt_or_reset_rows timeout try_adopt s :
  ti_keys_unique (task_instance s) → (∀ l, try_adopt l ⊆+ l) →
  let s1 := mark_dead timeout s in
  let to_reset := try_adopt (List.filter (is_orphan locked s1) (task_instance s)) in
  adopt_or_reset_orphaned_tasks locked id timeout try_adopt s =
    (Z.of_nat (length to_reset), with_task_instance (orphan_row to_reset s1 <$> task_instance s) s1).
Proof.
  intros Hk Hadopt s1 to_reset. unfold adopt_or_reset_orphaned_tasks. fold (mark_dead timeout s). fold s1.
  change (task_instance s1) with (task_instance s). fold to_reset. f_equal.
  set (tis := List.filter (is_orphan locked s1) (task_instance s)) in *.
  assert (to_reset ⊆+ tis) as Hsub by apply Hadopt.
  assert (∀ t, t ∈ to_reset → is_orphan locked s1 t = true ∧ t ∈ task_instance s) as Hreset.
  { intros t Ht. eapply elem_of_submseteq in Ht; [|done]. by apply elem_of_filterb in Ht. }
  assert (NoDup (TI.primary <$> to_reset)) as Hnd.
  { assert (NoDup (TI.primary <$> tis)) as HT by (by apply NoDup_fmap_filterb).
    destruct (submseteq_Permutation _ _ Hsub) as [k HP]. rewrite HP, fmap_app in HT. by apply NoDup_app in HT as [? _]. }
  rewrite (merge_all_update reset_ti to_reset s1); [|done|exact Hk|exact Hnd|by intros t [_ ?]%Hreset].
  rewrite merge_all_update; cbn [task_instance with_task_instance]; [|done| | |].
  - match goal with |- with_task_instance ?a (with_task_instance ?b ?s) = _ =>
      change (with_task_instance a (with_task_instance b s)) with (with_task_instance a s) end.
    f_equal. unfold update_where. rewrite <-list_fmap_compose. apply list_fmap_ext. intros i r Hr. cbn [compose].
    apply list_elem_of_lookup_2 in Hr. unfold orphan_row, tis. rewrite filter_filterb.
    assert (∀ x, TI.primary x = TI.primary r →
      (TI.primary x ∈? TI.primary <$> List.filter (λ t, is_orphan locked s1 t &&
         negb (TI.primary t ∈? TI.primary <$> to_reset)) (task_instance s)) =
      is_orphan locked s1 r && negb (TI.primary r ∈? TI.primary <$> to_reset)) as Hsel.
    { intros x ->. by rewrite keys_of_filter. }
    destruct (TI.primary r ∈? TI.primary <$> to_reset) eqn:Er; rewrite Hsel by done; cbn [negb].
    + rewrite andb_false_r. bool_to_prop. apply list_elem_of_fmap in Er as (t & Ht & Hin).
      destruct (Hreset t Hin) as [Ho Hrow]. rewrite (ti_key_inj (task_instance s) r t) by done. by rewrite Ho.
    + rewrite andb_true_r. by destruct (is_orphan locked s1 r).
  - unfold ti_keys_unique. by rewrite update_where_keys.
  - apply NoDup_fmap_filterb. by apply NoDup_fmap_filterb.
  - intros t [Hn Ht]%elem_of_filterb. apply elem_of_filterb in Ht as [_ Ht]. apply elem_of_update_where.
    exists t. split; [done|]. apply negb_true_iff in Hn. by rewrite Hn.
Qed.

(** C17: handling orphans, with unique keys and an executor that adopts some of the
    task instances it is given.  An orphan is a QUEUED or RUNNING row of a running
    run that is no backfill, not locked by another transaction, with no queueing job
    or one that is not running once the schedulers without a recent heartbeat are
    marked as failed.  (The docstring speaks of QUEUED or SCHEDULED.)  An orphan that
    the executor does not adopt loses its state and its queueing job, an adopted one
    belongs to this job, every other row stays.  A row queued by a running scheduler
    with a recent heartbeat is never touched, and if this job is still running after
    that, no orphan is left. *)
Theorem orphans_handled timeout try_adopt s
    (Hkeys : ti_keys_unique (task_instance s)) (Hadopt : ∀ l, try_adopt l ⊆+ l) :
  let s1 := mark_dead timeout s in
  let to_reset := try_adopt (List.filter (is_orphan locked s1) (task_instance s)) in
  ∃ s', adopt_or_reset_orphaned_tasks locked id timeout try_adopt s = (Z.of_nat (length to_reset), s') ∧
    task_instance s' = orphan_row to_reset s1 <$> task_instance s ∧
    (∀ t j, t ∈ task_instance s → queued_by_job t s = Some j → bj_state j = Some RUNNING →
       utcnow s - timeout ≤ latest_heartbeat j → t ∈ task_instance s') ∧
    (∀ j t, List.find (λ j, bj_id j =? id) (job s') = Some j → bj_state j = Some RUNNING →
       t ∈ task_instance s' → is_orphan locked s' t = false).
Proof.
  intros s1 to_reset. rewrite adopt_or_reset_rows by done. fold s1. fold to_reset.
  eexists. split; [done|]. cbn [task_instance with_task_instance]. split_and!; [done| |].
  - intros t j Ht Hj Hrun Hbeat. apply list_elem_of_fmap. exists t. split; [|done]. unfold orphan_row.
    assert (is_orphan locked s1 t = false) as ->; [|done].
    unfold queued_by_job in Hj. destruct (TI.queued_by_job_id t) as [i|] eqn:Ei; [|done].
    unfold is_orphan. rewrite Ei. rewrite (bool_decide_eq_false_2 (Some i = None)) by done. cbn [orb].
    assert (queued_by_job t s1 = Some j) as ->.
    { unfold queued_by_job. rewrite Ei. unfold s1, mark_dead. cbn [job with_job]. revert Hj.
      generalize (job s). intros js. induction js as [|x js IH]; [done|]. cbn [List.find]. intros Hj.
      unfold update_where. rewrite fmap_cons. cbn [List.find].
      assert (bj_id (if is_dead timeout (utcnow s) x then fail_job x else x) = bj_id x) as -> by (by case_ifs).
      destruct (bj_id x =? i); [|by apply IH]. injection Hj as ->.
      assert (is_dead timeout (utcnow s) j = false) as ->; [|done]. unfold is_dead.
      destruct (latest_heartbeat j <? utcnow s - timeout) eqn:E; [|apply andb_false_r]. bool_to_prop. lia. }
    rewrite Hrun. rewrite (bool_decide_eq_true_2 (RUNNING = RUNNING)) by done. cbn [negb].
    by rewrite !andb_false_r.
  - set (s2 := with_task_instance _ s1). intros j t Hj Hrun (t0 & -> & Ht0)%list_elem_of_fmap.
    unfold orphan_row. destruct (is_orphan locked s1 t0) eqn:Eo; [|exact Eo].
    case_bool_decide; unfold is_orphan; [done|].
    assert (queued_by_job (adopt_ti id t0) s2 = Some j) as -> by exact Hj. rewrite Hrun.
    change (TI.queued_by_job_id (adopt_ti id t0)) with (Some id).
    rewrite (bool_decide_eq_false_2 (Some id = None)) by done. cbn [orb].
    rewrite (bool_decide_eq_true_2 (RUNNING = RUNNING)) by done. cbn [negb]. by rewrite !andb_false_r.
Qed.

(** ** Task instances without an active run *)

Definition set_row (row_by_row : bool) (now : datetime) (new_state : option TaskInstanceState)
    (t : TaskInstance) : TaskInstance :=
  if row_by_row then TaskInstance.set_state_obj now new_state t else bulk_set now new_state t.

Lemma set_row_frame b now st t :
  TI.primary (set_row b now st t) = TI.primary t ∧ TI.state (set_row b now st t) = st.
Proof.
  unfold set_row, TaskInstance.set_state_obj, bulk_set. destruct b; by case_ifs.
Qed.

Lemma change_state_rows row_by_row dag_ids old new s :
  ti_keys_unique (task_instance s) → (∀ t, locked t = false) →
  _change_state_for_tis_without_dagrun locked row_by_row dag_ids old new s =
  with_task_instance (update_where (without_dagrun dag_ids old s) (set_row row_by_row (utcnow s) new)
                        (task_instance s)) s.
Proof.
  intros Hk Hl. unfold _change_state_for_tis_without_dagrun. destruct row_by_row; [|done].
  set (L := List.filter _ _). trans (foldl (λ s' t, merge_ti (TaskInstance.set_state_obj (utcnow s) new t) s') s L).
  - assert (∀ L a, utcnow a = utcnow s →
      foldl (λ s t, (TaskInstance.set_state new t s).2) a L =
      foldl (λ s' t, merge_ti (TaskInstance.set_state_obj (utcnow s) new t) s') a L) as Hf; [|by apply Hf].
    clear L. induction L as [|t L IH]; intros a Ha; [done|]. cbn [foldl TaskInstance.set_state snd]. rewrite Ha.
    apply IH. unfold merge_ti. by case_ifs.
  - unfold L. rewrite (merge_filter_update (TaskInstance.set_state_obj (utcnow s) new)); [| |done].
    + f_equal. apply list_fmap_ext. intros i r _. by rewrite Hl, andb_true_r.
    + intros t. apply (set_row_frame true).
Qed.

(** The task instances the clean-up is about, and the state it gives them. *)
Definition inactive (dag_ids : list string) (s : Session) (t : TaskInstance) : bool :=
  (TI.dag_id t ∈? dag_ids) &&
  match run_of t s with
  | None => true
  | Some dr => negb (DR._state dr ∈? [DR_RUNNING; DR_QUEUED])
  end.

Definition cleaned_state (st : option TaskInstanceState) : option TaskInstanceState :=
  match st with
  | Some UP_FOR_RETRY => Some FAILED
  | Some QUEUED | Some SCHEDULED | Some UP_FOR_RESCHEDULE | Some SENSING => None
  | st => st
  end.

Lemma without_dagrun_inactive dag_ids old s t :
  without_dagrun dag_ids old s t = inactive dag_ids s t && (TI.state t ∈? old).
Proof. unfold without_dagrun, inactive. by rewrite <-!andb_assoc, (andb_comm (TI.state t ∈? old)). Qed.

Lemma inactive_key dag_ids s s' t t' :
  dag_run s' = dag_run s → TI.primary t' = TI.primary t → inactive dag_ids s' t' = inactive dag_ids s t.
Proof. unfold inactive, run_of, TI.primary. by intros -> [= -> _ ->]. Qed.

(** The two passes on one row. *)
Definition clean_row (row_by_row : bool) (dag_ids : list string) (s : Session) (t : TaskInstance) : TaskInstance :=
  let t1 := if inactive dag_ids s t && (TI.state t ∈? [Some UP_FOR_RETRY])
            then set_row row_by_row (utcnow s) (Some FAILED) t else t in
  if inactive dag_ids s t && (TI.state t1 ∈? [Some QUEUED; Some SCHEDULED; Some UP_FOR_RESCHEDULE; Some SENSING])
  then set_row row_by_row (utcnow s) None t1 else t1.

Lemma clean_row_spec row_by_row dag_ids s t :
  TI.state (clean_row row_by_row dag_ids s t) =
    (if inactive dag_ids s t then cleaned_state (TI.state t) else TI.state t) ∧
  (inactive dag_ids s t = false ∨ cleaned_state (TI.state t) = TI.state t →
   clean_row row_by_row dag_ids s t = t).
Proof.
  unfold clean_row. destruct (inactive dag_ids s t); cbn [andb]; [|done].
  destruct (set_row_frame row_by_row (utcnow s) (Some FAILED) t) as [_ F].
  destruct (TI.state t) as [[]|] eqn:Et; cbn [cleaned_state];
    repeat (case_bool_decide as E; rewrite ?F, ?Et in E); rewrite ?F, ?Et;
    try (exfalso; set_solver); (split; [|intros [?|?]; done]); try apply set_row_frame; done.
Qed.

Lemma clean_rows row_by_row dag_ids s :
  ti_keys_unique (task_instance s) → (∀ t, locked t = false) →
  task_instance (_clean_tis_without_dagrun locked row_by_row dag_ids s) =
  clean_row row_by_row dag_ids s <$> task_instance s.
Proof.
  intros Hk Hl. unfold _clean_tis_without_dagrun. rewrite (change_state_rows _ _ [Some UP_FOR_RETRY]) by done.
  rewrite change_state_rows; cbn [task_instance with_task_instance]; [| |done].
  - unfold update_where. rewrite <-list_fmap_compose. apply list_fmap_ext. intros i t _. cbn [compose].
    unfold clean_row. rewrite !without_dagrun_inactive.
    set (t1 := if inactive dag_ids s t && (TI.state t ∈? [Some UP_FOR_RETRY])
               then set_row row_by_row (utcnow s) (Some FAILED) t else t).
    rewrite (inactive_key dag_ids s _ t t1); [done|done|].
    unfold t1. case_ifs; [apply set_row_frame|done].
  - unfold ti_keys_unique. rewrite update_where_keys; [done|]. intros t. apply set_row_frame.
Qed.

(** On both kinds of databases the clean-up gives the same states: a task
    instance of a known DAG without a running or queued run that waits for a
    retry fails, one that is queued, scheduled, waiting for a reschedule or
    sensing loses its state; no row of an active run changes, and none in
    another state. *)
Theorem clean_tis_correct row_by_row dag_ids s
    (Hkeys : ti_keys_unique (task_instance s)) (Hunlocked : ∀ t, locked t = false) :
  let s' := _clean_tis_without_dagrun locked row_by_row dag_ids s in
  TI.state <$> task_instance s' =
    (λ t, if inactive dag_ids s t then cleaned_state (TI.state t) else TI.state t) <$> task_instance s ∧
  (∀ t, t ∈ task_instance s → inactive dag_ids s t = false ∨ cleaned_state (TI.state t) = TI.state t →
     t ∈ task_instance s').
Proof.
  intros s'. unfold s'. rewrite clean_rows by done. split.
  - rewrite <-list_fmap_compose. apply list_fmap_ext. intros i t _. apply clean_row_spec.
  - intros t Ht Hsame. apply list_elem_of_fmap. exists t. split; [|done].
    symmetry. by apply clean_row_spec.
Qed.
End Cleanup.

(** ** Witnesses *)

Module RunsSample.
Import Sample.
Local Open Scope Z_scope.

#[local] Existing Instance w_settings.

Definition queued_run (d : Z) : DagRun :=
  DR.mk "diamond" (Some 0) d None None DR_QUEUED (Some "scheduled__1") false DRT_SCHEDULED None None.
Definition one_at_a_time : DAG :=
  {| dag_id := "diamond"; task_dict := task_dict diamond; schedule_interval := None;
     dag_start_date := Some 0; dag_end_date := None; catchup := true; max_active_tasks := 16;
     max_active_runs := 1; partial := false; fileloc := "dag.py"; has_on_success_callback := false;
     has_on_failure_callback := true; dagrun_timeout := Some 100 |}.
Definition runs_bag (did : string) : result (option DAG) :=
  if did ≟ "diamond" then Ok (Some one_at_a_time) else Err SerializedDagNotFound.

Lemma runs_bag_answers : bag_answers runs_bag.
Proof. intros did. unfold runs_bag. case_bool_decide; [left; eauto|by right]. Qed.

Definition two_queued : Session := mk_session [] [queued_run 1000; queued_run 2000].


Example first_queued_run_starts :
  (λ s, DR._state <$> dag_run s) <$> _start_queued_dagruns runs_bag (λ _, false) 20 two_queued =
  Ok [DR_RUNNING; DR_QUEUED].
Proof. reflexivity. Qed.

Definition late : Session :=
  mk_session [mk_ti "diamond" "a" (Some SUCCESS); mk_ti "diamond" "b" (Some RUNNING)] [mk_run "diamond" DR_RUNNING].

Lemma timed_out_run_closed_witness :
  ∃ s', _schedule_dag_run runs_bag (λ _, None) (λ t, t) (mk_run "diamond" DR_RUNNING) late =
    Ok (Requested true "timed_out", s') ∧ TI.state <$> task_instance s' = [Some SUCCESS; Some SKIPPED].
Proof.
  destruct (timed_out_run_closed runs_bag (λ _, None) (λ t, t) (mk_run "diamond" DR_RUNNING) one_at_a_time
    late 1000 100) as (s' & H & Ht & _);
    [apply (bool_decide_unpack _); vm_compute; done|done|done|done|done|done|].
  exists s'. split; [exact H|]. rewrite Ht. reflexivity.
Defined.

(** A dead scheduler 1 and this one, 2; each has queued a task. *)
Definition by_job (i : Z) (t : TaskInstance) : TaskInstance := TI.set_queued None (Some i) t.
Definition orphaned : Session :=
  with_job [{| bj_id := 1; job_type := "SchedulerJob"; bj_state := Some RUNNING; latest_heartbeat := 0 |};
            {| bj_id := 2; job_type := "SchedulerJob"; bj_state := Some RUNNING; latest_heartbeat := 4990 |}]
    (mk_session [by_job 1 (mk_ti "diamond" "a" (Some QUEUED)); by_job 2 (mk_ti "diamond" "b" (Some QUEUED))]
       [mk_run "diamond" DR_RUNNING]).

Lemma orphans_handled_witness :
  ∃ s', adopt_or_reset_orphaned_tasks (λ _, false) 2 30 (λ l, l) orphaned = (1, s') ∧
    TI.state <$> task_instance s' = [None; Some QUEUED].
Proof.
  destruct (orphans_handled (λ _, false) 2 30 (λ l, l) orphaned) as (s' & H & Ht & _);
    [apply (bool_decide_unpack _); vm_compute; done|done|].
  exists s'. split; [exact H|]. rewrite Ht. reflexivity.
Defined.

Definition left_over : Session :=
  mk_session [mk_ti "diamond" "a" (Some UP_FOR_RETRY); mk_ti "diamond" "b" (Some QUEUED);
              mk_ti "diamond" "c" (Some RUNNING)] [mk_run "diamond" DR_FAILED].

Lemma clean_tis_correct_witness :
  TI.state <$> task_instance (_clean_tis_without_dagrun (λ _, false) false ["diamond"] left_over) =
  [Some FAILED; None; Some RUNNING].
Proof.
  destruct (clean_tis_correct (λ _, false) false ["diamond"] left_over) as [H _];
    [apply (bool_decide_unpack _); vm_compute; done|done|].
  rewrite H. reflexivity.
Defined.

(** The two branches agree on the states, not on the dates: the bulk [UPDATE]
    replaces the start date of a task that ran, and its duration becomes 0. *)
Example bulk_update_loses_start_date :
  let t := TI.set_dates (Some 1000) None None (mk_ti "diamond" "a" (Some UP_FOR_RETRY)) in
  let s := mk_session [t] [] in
  let dates s := (λ t, (TI.start_date t, TI.duration t)) <$> task_instance s in
  dates (_clean_tis_without_dagrun (λ _, false) true ["diamond"] s) = [(Some 1000, Some 4000)] ∧
  dates (_clean_tis_without_dagrun (λ _, false) false ["diamond"] s) = [(Some 5000, Some 0)].
Proof. split; reflexivity. Qed.
End RunsSample.
