(* ===== verification/SchedulerCreate.v ===== *)
(** * SchedulerCreate: creating the runs that are due

    [DAG.create_dagrun], [DagModel.dags_needing_dagruns] and
    [DagModel.calculate_dagrun_date_fields] ([models/dag.py]) and
    [SchedulerJob._create_dag_runs] ([jobs/scheduler_job.py]).

    The unique constraints of the [dag_run] table, on [(dag_id, execution_date)]
    and [(dag_id, run_id)], are checked when a row is added. *)

From S2P Require Import Prelude State Model Sample Graph Timetable DagRunQuery TaskInstance PoolSlots TiDeps DagRun.
Import TiDeps DagRun.

Module SchedulerCreate.
Local Open Scope Z_scope.

Section Create.
Context (dagbag : string → result (option DAG)) (dags_hash : string → option string)
        (cron_schedule : string → Timetable.Schedule) (hook : TaskInstance → TaskInstance)
        (isoformat : datetime → string).

(** ** [DAG.create_dagrun] *)

(** Two rows that the unique constraints exclude. *)
Definition conflicts (a b : DagRun) : bool :=
  (DR.dag_id a ≟ DR.dag_id b) &&
  ((DR.execution_date a ≟ DR.execution_date b) ||
   match DR.run_id a, DR.run_id b with Some x, Some y => x ≟ y | _, _ => false end).

(** [session.add(run); session.flush()]. *)
Definition insert_run (run : DagRun) (s : Session) : result Session :=
  if existsb (conflicts run) (dag_run s) then Err DBAPIError
  else Ok (with_dag_run (dag_run s ++ [run]) s).

(** The run id and the run type: an empty run id is falsy. *)
Definition run_identity (run_id : option string) (run_type : option DagRunType)
    (execution_date : option datetime) : result (string * DagRunType) :=
  let run_id := match run_id with Some r => if r ≟ "" then None else Some r | None => None end in
  match run_id, run_type, execution_date with
  | Some r, None, _ => Ok (r, from_run_id r)
  | _, Some t, Some d => Ok (generate_run_id t (isoformat d), t)
  | None, _, _ => Err AirflowException
  | Some r, Some t, None => Ok (r, t)
  end.

(** [DagRun.__init__]: the setter of [state] sets the end date of a finished
    run; a missing execution date is the current time by the column's default. *)
Definition new_run (now : datetime) (dag_id run_id : string) (execution_date start_date : option datetime)
    (external_trigger : bool) (state : DagRunState) (run_type : DagRunType) (dag_hash : option string)
    : DagRun :=
  {| DR.dag_id := dag_id;
     DR.queued_at := if state ≟ DR_QUEUED then Some now else None;
     DR.execution_date := default now execution_date;
     DR.start_date := start_date;
     DR.end_date := if Some (DagRunState_as_ti state) ∈? State.finished then Some now else None;
     DR._state := state; DR.run_id := Some run_id; DR.external_trigger := external_trigger;
     DR.run_type := run_type; DR.last_scheduling_decision := None; DR.dag_hash := dag_hash |}.

Definition create_dagrun (dag : DAG) (state : DagRunState) (execution_date : option datetime)
    (run_id : option string) (start_date : option datetime) (external_trigger : bool)
    (run_type : option DagRunType) (dag_hash : option string) (s : Session)
    : result (DagRun * Session) :=
  '(run_id, run_type) ← run_identity run_id run_type execution_date;
  let run := new_run (utcnow s) (dag_id dag) run_id execution_date start_date external_trigger state
               run_type dag_hash in
  s ← insert_run run s;
  s ← verify_integrity dag run hook s;
  Ok (run, s).

(** ** [DagModel] *)

Definition by_create_after (a b : DagModel) : bool :=
  match next_dagrun_create_after a, next_dagrun_create_after b with
  | Some x, Some y => x <=? y
  | _, _ => true
  end.

Definition dags_needing_dagruns (locked : DagModel → bool) (limit : nat) (s : Session) : list DagModel :=
  take limit (py_sorted by_create_after
    (List.filter (λ dm, negb (is_paused dm) && is_active dm &&
                        match next_dagrun_create_after dm with Some d => d <=? utcnow s | None => false end &&
                        negb (locked dm)) (dag_model s))).

Definition set_next (next create_after : option datetime) (dm : DagModel) : DagModel :=
  {| dm_dag_id := dm_dag_id dm; is_paused := is_paused dm; is_active := is_active dm;
     dm_max_active_tasks := dm_max_active_tasks dm;
     has_task_concurrency_limits := has_task_concurrency_limits dm; dm_fileloc := dm_fileloc dm;
     next_dagrun := next; next_dagrun_create_after := create_after |}.

Definition calculate_dagrun_date_fields (now : datetime) (dag : DAG) (most_recent_dag_run : option datetime)
    (active_runs_of_dag : Z) (dm : DagModel) : result DagModel :=
  '(next, create_after) ← Timetable.dag_next_dagrun_info cron_schedule dag now most_recent_dag_run;
  Ok (set_next next (if negb (max_active_runs dag =? 0) && (max_active_runs dag <=? active_runs_of_dag)
                     then None else create_after) dm).

(** ** [SchedulerJob._create_dag_runs] *)

Definition existing_dagruns (dag_models : list DagModel) (s : Session) : list (string * datetime) :=
  (λ dr, (DR.dag_id dr, DR.execution_date dr)) <$>
  List.filter (λ dr, existsb (λ dm, (DR.dag_id dr ≟ dm_dag_id dm) &&
                                    (Some (DR.execution_date dr) ≟ next_dagrun dm)) dag_models) (dag_run s).

Definition create_step (existing : list (string * datetime)) (s : Session) (dm : DagModel) : result Session :=
  match dagbag (dm_dag_id dm) with
  | Err SerializedDagNotFound => Ok s
  | Err e => Err e
  | Ok None => Err AttributeError
  | Ok (Some dag) =>
      s ← (if match next_dagrun dm with Some d => (dag_id dag, d) ∈? existing | None => false end then Ok s
           else r ← create_dagrun dag DR_QUEUED (next_dagrun dm) None None false (Some DRT_SCHEDULED)
                      (dags_hash (dag_id dag)) s;
                Ok r.2);
      '(next, create_after) ← Timetable.dag_next_dagrun_info cron_schedule dag (utcnow s) (next_dagrun dm);
      Ok (with_dag_model (update_where (λ r, dm_dag_id r ≟ dm_dag_id dm) (set_next next create_after)
                            (dag_model s)) s)
  end.

Definition _create_dag_runs (dag_models : list DagModel) (s : Session) : result Session :=
  foldM (create_step (existing_dagruns dag_models s)) dag_models s.
End Create.
End SchedulerCreate.
Import SchedulerCreate.

Section CreateFacts.
Local Open Scope Z_scope.
Context (dagbag : string → result (option DAG)) (dags_hash : string → option string)
        (cron_schedule : string → Timetable.Schedule) (hook : TaskInstance → TaskInstance)
        (isoformat : datetime → string).

(** A DAG for which a run can be created: its tasks have start dates and
    weights, and its timetable answers. *)
Definition dag_ready (dag : DAG) : Prop :=
  (∀ t, t ∈ task_dict dag → is_Some (op_start_date t) ∧ is_ok (Graph.priority_weight_total dag t) = true) ∧
  ∀ now d, is_ok (Timetable.dag_next_dagrun_info cron_schedule dag now d) = true.

(** The tables that the task instances of a run do not touch. *)
Definition same_tables (s s' : Session) : Prop :=
  dag_run s' = dag_run s ∧ dag_model s' = dag_model s ∧ utcnow s' = utcnow s.

Lemma merge_ti_tables t s : same_tables s (merge_ti t s).
Proof. unfold merge_ti. by case_ifs. Qed.

Lemma same_tables_trans s1 s2 s3 : same_tables s1 s2 → same_tables s2 s3 → same_tables s1 s3.
Proof. unfold same_tables. intros (-> & -> & ->). done. Qed.

Lemma verify_integrity_total dag dr s :
  dag_ready dag → ∃ s', verify_integrity dag dr hook s = Ok s' ∧ same_tables s s'.
Proof.
  intros [Hready _]. unfold verify_integrity. set (tis := DagRunQuery.get_task_instances _ _ _ _).
  set (s0 := foldl _ s tis). assert (same_tables s s0) as H0.
  { unfold s0. apply foldl_invariant; [|done]. intros t a _ Ha. eapply same_tables_trans; [done|apply merge_ti_tables]. }
  clearbody s0. revert s0 H0. induction (task_dict dag) as [|t tasks IH]; intros s0 H0; [by exists s0|].
  cbn [foldM]. assert (∃ s1, create_missing dag dr hook ((λ ti, TI.task_id (hook ti)) <$> tis) s0 t = Ok s1 ∧ same_tables s s1) as (s1 & -> & H1).
  { destruct (Hready t ltac:(left)) as [[d Hd] Hw]. unfold create_missing. rewrite Hd.
    case_ifs; [by eauto|by eauto|]. unfold TaskInstance.ti_init, TaskInstance.refresh_from_task.
    destruct (Graph.priority_weight_total dag t); [|done]. cbn. eexists. split; [done|].
    destruct H0 as (? & ? & ?). done. }
  cbn [mbind result_bind]. apply IH; [|done]. intros t' Ht'. apply Hready. by right.
Qed.

Lemma insert_run_ok run s :
  (∀ r, r ∈ dag_run s → conflicts run r = false) →
  insert_run run s = Ok (with_dag_run (dag_run s ++ [run]) s).
Proof. intros Hno. unfold insert_run. by rewrite (proj2 (existsb_false_elem _ _) Hno). Qed.

(** The key of a scheduled run that is not there conflicts with nothing. *)
Definition ids_match (did : string) (s : Session) : Prop :=
  ∀ r d, r ∈ dag_run s → DR.dag_id r = did →
    DR.run_id r = Some (generate_run_id DRT_SCHEDULED (isoformat d)) → DR.execution_date r = d.

Lemma create_dagrun_total dag d h s :
  dag_ready dag → ids_match (dag_id dag) s →
  (∀ r, r ∈ dag_run s → DR.dag_id r = dag_id dag → DR.execution_date r ≠ d) →
  ∃ run s', create_dagrun hook isoformat dag DR_QUEUED (Some d) None None false (Some DRT_SCHEDULED) h s = Ok (run, s') ∧
    DR.dag_id run = dag_id dag ∧ DR.execution_date run = d ∧ DR._state run = DR_QUEUED ∧
    DR.run_type run = DRT_SCHEDULED ∧ (∀ r, r ∈ dag_run s → conflicts run r = false) ∧
    dag_run s' = dag_run s ++ [run] ∧ dag_model s' = dag_model s ∧ utcnow s' = utcnow s.
Proof.
  intros Hready Hids Hnew. unfold create_dagrun. cbn [run_identity mbind result_bind].
  set (run := new_run _ _ _ _ _ _ _ _ _).
  assert (∀ r, r ∈ dag_run s → conflicts run r = false) as Hno.
  { intros r Hr. unfold conflicts. cbn [run new_run DR.dag_id DR.execution_date DR.run_id default].
    destruct (decide (dag_id dag = DR.dag_id r)) as [E|E];
      [|by rewrite (bool_decide_eq_false_2 (dag_id dag = DR.dag_id r))].
    rewrite (bool_decide_eq_true_2 (dag_id dag = DR.dag_id r)) by done. cbn [andb].
    apply orb_false_iff. split.
    - apply bool_decide_eq_false. intros Ed. eapply (Hnew r Hr); done.
    - destruct (DR.run_id r) as [x|] eqn:Ex; [|done]. apply bool_decide_eq_false. intros <-.
      eapply (Hnew r Hr); [done|]. by eapply Hids. }
  rewrite insert_run_ok by done. cbn [mbind result_bind].
  destruct (verify_integrity_total dag run (with_dag_run (dag_run s ++ [run]) s) Hready) as (s' & -> & H1 & H2 & H3).
  exists run, s'. cbn. done.
Qed.

Lemma set_next_id n c dm : dm_dag_id (set_next n c dm) = dm_dag_id dm.
Proof. done. Qed.

(** What one iteration does, for a DAG in the bag whose next run is known. *)
Lemma create_step_total existing cur dm dag d :
  dagbag (dm_dag_id dm) = Ok (Some dag) → dag_id dag = dm_dag_id dm → dag_ready dag →
  next_dagrun dm = Some d → ids_match (dm_dag_id dm) cur →
  ((dm_dag_id dm, d) ∈ existing ↔ ∃ r, r ∈ dag_run cur ∧ DR.dag_id r = dm_dag_id dm ∧ DR.execution_date r = d) →
  ∃ s' new n c, create_step dagbag dags_hash cron_schedule hook isoformat existing cur dm = Ok s' ∧
    Timetable.dag_next_dagrun_info cron_schedule dag (utcnow cur) (Some d) = Ok (n, c) ∧
    dag_run s' = dag_run cur ++ new ∧ utcnow s' = utcnow cur ∧
    dag_model s' = update_where (λ r, dm_dag_id r ≟ dm_dag_id dm) (set_next n c) (dag_model cur) ∧
    (∀ r, r ∈ new → (DR.dag_id r = dm_dag_id dm ∧ DR.execution_date r = d) ∧ DR._state r = DR_QUEUED ∧
       DR.run_type r = DRT_SCHEDULED ∧ ∀ r0, r0 ∈ dag_run cur → conflicts r r0 = false) ∧
    (length new ≤ 1)%nat ∧
    ∃ r, r ∈ dag_run s' ∧ DR.dag_id r = dm_dag_id dm ∧ DR.execution_date r = d.
Proof.
  intros Hdag Hid Hready Hnext Hids Hex. unfold create_step. rewrite Hdag, Hnext.
  destruct Hready as [Hr1 Hr2]. pose proof (Hr2 (utcnow cur) (Some d)) as Hinfo.
  destruct (Timetable.dag_next_dagrun_info cron_schedule dag (utcnow cur) (Some d)) as [[n c]|] eqn:Ei; [|done].
  destruct ((dag_id dag, d) ∈? existing) eqn:Ee; bool_to_prop; rewrite Hid in Ee.
  - cbn [mbind result_bind]. rewrite Ei. cbn [mbind result_bind]. eexists _, [], n, c. rewrite app_nil_r.
    split; [reflexivity|]. cbn [dag_run dag_model utcnow with_dag_model].
    split_and!; [done|done|done|done|by intros ? ?%elem_of_nil|cbn; lia|by apply Hex].
  - destruct (create_dagrun_total dag d (dags_hash (dag_id dag)) cur) as (run & s1 & -> & F1 & F2 & F3 & F4 & F5 & G1 & G2 & G3).
    + by split.
    + by rewrite Hid.
    + intros r Hr Hrid Hd. apply Ee, Hex. exists r. split_and!; [done|congruence|done].
    + cbn [mbind result_bind snd]. rewrite G3, Ei. cbn [mbind result_bind]. eexists _, [run], n, c.
      split; [reflexivity|]. cbn [dag_run dag_model utcnow with_dag_model]. rewrite G1, G2.
      split_and!; [done|done|done|done| |cbn; lia|].
      * intros r ->%list_elem_of_singleton. split_and!; [congruence|done|done|done|done].
      * exists run. split_and!; [apply elem_of_app; right; left|congruence|done].
Qed.

(** A model whose DAG is missing, or ready with a known next run. *)
Definition model_ready (dm : DagModel) : Prop :=
  dagbag (dm_dag_id dm) = Err SerializedDagNotFound ∨
  ∃ dag d, dagbag (dm_dag_id dm) = Ok (Some dag) ∧ dag_id dag = dm_dag_id dm ∧ dag_ready dag ∧ next_dagrun dm = Some d.

Definition has_run (did : string) (d : datetime) (s : Session) : Prop :=
  ∃ r, r ∈ dag_run s ∧ DR.dag_id r = did ∧ DR.execution_date r = d.

(** The result of the loop over a list of models, from a session. *)
Record created (L : list DagModel) (cur s' : Session) (new : list DagRun) : Prop := {
  cr_runs : dag_run s' = dag_run cur ++ new;
  cr_now : utcnow s' = utcnow cur;
  cr_new r : r ∈ new → DR._state r = DR_QUEUED ∧ DR.run_type r = DRT_SCHEDULED ∧
    (∃ dm, dm ∈ L ∧ DR.dag_id r = dm_dag_id dm ∧ next_dagrun dm = Some (DR.execution_date r)) ∧ ∀ r0, r0 ∈ dag_run cur → conflicts r r0 = false;
  cr_ids : NoDup (DR.dag_id <$> new);
  cr_covered dm dag d : dm ∈ L → dagbag (dm_dag_id dm) = Ok (Some dag) → next_dagrun dm = Some d →
    has_run (dm_dag_id dm) d s';
  cr_models row : row ∈ dag_model s' → ∃ row0, row0 ∈ dag_model cur ∧ dm_dag_id row = dm_dag_id row0 ∧
    (dm_dag_id row ∉ (dm_dag_id <$> L) → row = row0);
  cr_next dm dag row : dm ∈ L → dagbag (dm_dag_id dm) = Ok (Some dag) → row ∈ dag_model s' →
    dm_dag_id row = dm_dag_id dm →
    Timetable.dag_next_dagrun_info cron_schedule dag (utcnow cur) (next_dagrun dm) =
      Ok (next_dagrun row, next_dagrun_create_after row);
}.

Lemma created_nil cur : created [] cur cur [].
Proof.
  constructor; try by intros ? ? ? ?%elem_of_nil.
  - by rewrite app_nil_r.
  - done.
  - by intros ? ?%elem_of_nil.
  - constructor.
  - intros row Hrow. by exists row.
Qed.

(** A model whose DAG is missing changes nothing. *)
Lemma created_skip dm L cur s' new :
  dagbag (dm_dag_id dm) = Err SerializedDagNotFound → created L cur s' new → created (dm :: L) cur s' new.
Proof.
  intros Hno [C1 C2 C3 C4 C5 C6 C7]. constructor; [done|done| |done| | |].
  - intros r Hr. destruct (C3 r Hr) as (? & ? & (dm' & ? & ?) & ?). split_and!; [done|done| |done].
    exists dm'. split; [by right|done].
  - intros dm' dag d [->|Hdm]%elem_of_cons Hdag Hd; [congruence|by eapply C5].
  - intros row Hrow. destruct (C6 row Hrow) as (row0 & ? & ? & Hsame). exists row0. split_and!; [done|done|].
    intros Hn. apply Hsame. intros Hin. apply Hn. rewrite fmap_cons. by right.
  - intros dm' dag row [->|Hdm]%elem_of_cons Hdag; [congruence|by apply C7].
Qed.

Lemma has_run_app did d (s s' : Session) new :
  dag_run s' = dag_run s ++ new → has_run did d s → has_run did d s'.
Proof. intros E (r & Hr & ?). exists r. rewrite E. split; [|done]. apply elem_of_app. by left. Qed.

(** A step followed by the rest of the loop. *)
Lemma created_step dm L cur s1 s' new0 new dag d n c :
  dm_dag_id dm ∉ (dm_dag_id <$> L) → dagbag (dm_dag_id dm) = Ok (Some dag) → next_dagrun dm = Some d →
  Timetable.dag_next_dagrun_info cron_schedule dag (utcnow cur) (Some d) = Ok (n, c) →
  dag_run s1 = dag_run cur ++ new0 → utcnow s1 = utcnow cur →
  dag_model s1 = update_where (λ r, dm_dag_id r ≟ dm_dag_id dm) (set_next n c) (dag_model cur) →
  (∀ r, r ∈ new0 → (DR.dag_id r = dm_dag_id dm ∧ DR.execution_date r = d) ∧ DR._state r = DR_QUEUED ∧
     DR.run_type r = DRT_SCHEDULED ∧ ∀ r0, r0 ∈ dag_run cur → conflicts r r0 = false) →
  (length new0 ≤ 1)%nat → has_run (dm_dag_id dm) d s1 →
  created L s1 s' new → created (dm :: L) cur s' (new0 ++ new).
Proof.
  intros Hfresh Hdag Hd Hinfo R0 N0 M0 Hnew0 Hlen Hhas [C1 C2 C3 C4 C5 C6 C7]. constructor.
  - by rewrite C1, R0, app_assoc.
  - congruence.
  - intros r [Hr|Hr]%elem_of_app.
    + destruct (Hnew0 r Hr) as ((? & E) & ? & ? & ?). split_and!; [done|done| |done]. exists dm. split_and!; [left|done|congruence].
    + destruct (C3 r Hr) as (? & ? & (dm' & ? & ?) & Hc). split_and!; [done|done| |].
      * exists dm'. split; [by right|done].
      * intros r0 Hr0. apply Hc. rewrite R0. apply elem_of_app. by left.
  - rewrite fmap_app. apply NoDup_app. split_and!; [|  |done].
    + destruct new0 as [|r [|r' new0]]; [constructor|apply NoDup_singleton|cbn in Hlen; lia].
    + intros x (r & -> & Hr)%list_elem_of_fmap (r' & E & Hr')%list_elem_of_fmap.
      destruct (Hnew0 r Hr) as ((E1 & _) & _). destruct (C3 r' Hr') as (_ & _ & (dm' & Hdm' & E2 & _) & _).
      apply Hfresh. apply list_elem_of_fmap. exists dm'. split; [congruence|done].
  - intros dm' dag' d' [->|Hdm]%elem_of_cons Hdag' Hd'; [|by eapply C5].
    rewrite Hd in Hd'. injection Hd' as <-. by eapply has_run_app.
  - intros row Hrow. destruct (C6 row Hrow) as (row1 & Hrow1 & E1 & Hsame). rewrite M0 in Hrow1.
    apply elem_of_update_where in Hrow1 as (row0 & Hrow0 & ->). exists row0. split; [done|].
    assert (dm_dag_id row = dm_dag_id row0) as E2 by (rewrite E1; by case_bool_decide). split; [done|].
    intros Hn. rewrite fmap_cons in Hn. apply not_elem_of_cons in Hn as [Hn1 Hn2].
    rewrite Hsame by done. rewrite bool_decide_eq_false_2; [done|congruence].
  - intros dm' dag' row [->|Hdm]%elem_of_cons Hdag' Hrow Hid.
    + rewrite Hdag in Hdag'. injection Hdag' as <-. rewrite Hd, Hinfo.
      destruct (C6 row Hrow) as (row1 & Hrow1 & E1 & Hsame). rewrite Hsame by (by rewrite Hid).
      rewrite M0 in Hrow1. apply elem_of_update_where in Hrow1 as (row0 & Hrow0 & ->).
      case_bool_decide as E; [done|]. congruence.
    + rewrite <-N0. by apply C7.
Qed.

Lemma create_runs_loop existing L cur :
  NoDup (dm_dag_id <$> L) → (∀ dm, dm ∈ L → model_ready dm) →
  (∀ dm, dm ∈ L → ids_match (dm_dag_id dm) cur) →
  (∀ dm d, dm ∈ L → next_dagrun dm = Some d →
     ((dm_dag_id dm, d) ∈ existing ↔ has_run (dm_dag_id dm) d cur)) →
  ∃ s' new, foldM (create_step dagbag dags_hash cron_schedule hook isoformat existing) L cur = Ok s' ∧
    created L cur s' new.
Proof.
  revert cur. induction L as [|dm L IH]; intros cur Hnd Hready Hids Hex; [exists cur, []; split; [done|apply created_nil]|].
  rewrite fmap_cons in Hnd. apply NoDup_cons in Hnd as [Hfresh Hnd]. cbn [foldM].
  destruct (Hready dm ltac:(left)) as [Hno|(dag & d & Hdag & Hid & Hok & Hd)].
  { replace (create_step _ _ _ _ _ existing cur dm) with (Ok cur) by (unfold create_step; by rewrite Hno).
    destruct (IH cur Hnd) as (s' & new & H & C).
    { intros dm' Hdm'. apply Hready. by right. }
    { intros dm' Hdm'. apply Hids. by right. }
    { intros dm' d' Hdm'. apply Hex. by right. }
    exists s', new. split; [done|by apply created_skip]. }
  destruct (create_step_total existing cur dm dag d Hdag Hid Hok Hd)
    as (s1 & new0 & n & c & -> & Hinfo & R0 & N0 & M0 & Hnew0 & Hlen & Hhas); [apply Hids; left|apply Hex; [left|done]|].
  assert (∀ dm', dm' ∈ L → ∀ r, r ∈ dag_run s1 → DR.dag_id r = dm_dag_id dm' → r ∈ dag_run cur) as Hold.
  { intros dm' Hdm' r Hr E. rewrite R0 in Hr. apply elem_of_app in Hr as [?|Hr]; [done|]. exfalso.
    destruct (Hnew0 r Hr) as ((E' & _) & _). apply Hfresh. rewrite <-E', E. apply list_elem_of_fmap. eauto. }
  cbn [mbind result_bind]. destruct (IH s1 Hnd) as (s' & new & H & C).
  - intros dm' Hdm'. apply Hready. by right.
  - intros dm' Hdm' r d' Hr E. eapply Hids; [by right|by eapply Hold|done].
  - intros dm' d' Hdm' Hd'. rewrite (Hex dm' d') by (done || by right). split; [by apply has_run_app with new0|].
    intros (r & Hr & E & Ed). exists r. split_and!; [by eapply Hold|done|done].
  - exists s', (new0 ++ new). split; [done|]. by eapply created_step.
Qed.

Lemma existing_spec dms s dm d :
  dm ∈ dms → next_dagrun dm = Some d →
  ((dm_dag_id dm, d) ∈ existing_dagruns dms s ↔ has_run (dm_dag_id dm) d s).
Proof.
  intros Hdm Hd. unfold existing_dagruns. rewrite list_elem_of_fmap. split.
  - intros (r & [= E1 E2] & [_ Hr]%elem_of_filterb). by exists r.
  - intros (r & Hr & E1 & E2). exists r. split; [congruence|]. apply elem_of_filterb. split; [|done].
    apply existsb_elem. exists dm. split; [done|]. apply andb_true_iff. rewrite !bool_decide_eq_true.
    split; congruence.
Qed.

(** C21: given DAG models with distinct ids, each of which is either missing in the
    table of serialized DAGs or has a due date and a DAG in the bag whose tasks and
    timetable can be read ([model_ready]; a bag that answers None makes the source
    raise), and no run of theirs that has the id of a scheduled run for another date
    ([ids_match]): creating the runs that are due returns, in particular violates no
    unique constraint of the table; every DAG that is due gets exactly the run it
    lacked, queued, and has a run for the date that was due; existing runs stay; and
    each model moves on to the run that its timetable gives after that date. *)
Theorem create_dag_runs_correct dms s
    (Hids : NoDup (dm_dag_id <$> dms)) (Hready : ∀ dm, dm ∈ dms → model_ready dm)
    (Hruns : ∀ dm, dm ∈ dms → ids_match (dm_dag_id dm) s) :
  ∃ s' new, _create_dag_runs dagbag dags_hash cron_schedule hook isoformat dms s = Ok s' ∧
    dag_run s' = dag_run s ++ new ∧ NoDup (DR.dag_id <$> new) ∧
    (∀ r, r ∈ new → DR._state r = DR_QUEUED ∧ DR.run_type r = DRT_SCHEDULED ∧
       ∀ r0, r0 ∈ dag_run s → conflicts r r0 = false) ∧
    (∀ dm dag d, dm ∈ dms → dagbag (dm_dag_id dm) = Ok (Some dag) → next_dagrun dm = Some d →
       has_run (dm_dag_id dm) d s' ∧
       ∀ row, row ∈ dag_model s' → dm_dag_id row = dm_dag_id dm →
         Timetable.dag_next_dagrun_info cron_schedule dag (utcnow s) (Some d) =
           Ok (next_dagrun row, next_dagrun_create_after row)).
Proof.
  destruct (create_runs_loop (existing_dagruns dms s) dms s Hids Hready Hruns) as (s' & new & H & C).
  { intros dm d Hdm Hd. by apply existing_spec. }
  exists s', new. destruct C as [C1 C2 C3 C4 C5 C6 C7]. split_and!; [done|done|done| |].
  - intros r Hr. destruct (C3 r Hr) as (? & ? & _ & ?). done.
  - intros dm dag d Hdm Hdag Hd. split; [by eapply C5|]. intros row Hrow E. rewrite <-Hd. by eapply C7.
Qed.
End CreateFacts.

(** ** Witness *)

Module CreateSample.
Import Sample.
Local Open Scope Z_scope.

(** A DAG every 100 microseconds whose run for 1000 is due. *)
Definition every_100 : DAG :=
  {| dag_id := "diamond"; task_dict := task_dict diamond; schedule_interval := Some (ScheduleDelta 100);
     dag_start_date := Some 0; dag_end_date := None; catchup := true; max_active_tasks := 16;
     max_active_runs := 16; partial := false; fileloc := "dag.py"; has_on_success_callback := false;
     has_on_failure_callback := false; dagrun_timeout := None |}.
Definition due : DagModel :=
  {| dm_dag_id := "diamond"; is_paused := false; is_active := true; dm_max_active_tasks := 16;
     has_task_concurrency_limits := false; dm_fileloc := "dag.py"; next_dagrun := Some 1000;
     next_dagrun_create_after := Some 1100 |}.
Definition no_cron (_ : string) : Timetable.Schedule := Timetable.DeltaSchedule 1.
Definition due_session : Session := with_dag_model [due] (mk_session [] []).
Definition create_bag (did : string) : result (option DAG) :=
  if did ≟ "diamond" then Ok (Some every_100) else Err SerializedDagNotFound.

Lemma every_100_ready : dag_ready no_cron every_100.
Proof.
  split.
  - intros t Ht. cbn in Ht.
    repeat (apply elem_of_cons in Ht as [->|Ht]; [split; [by eexists|vm_compute; done]|]). by apply elem_of_nil in Ht.
  - intros now [d|]; reflexivity.
Qed.

Lemma create_dag_runs_correct_witness :
  ∃ s', _create_dag_runs create_bag (λ _, None) no_cron (λ t, t) (λ _, "date") [due] due_session = Ok s' ∧
    has_run "diamond" 1000 s'.
Proof.
  destruct (create_dag_runs_correct create_bag (λ _, None) no_cron (λ t, t) (λ _, "date") [due] due_session)
    as (s' & new & H & _ & _ & _ & Hrun).
  - apply NoDup_singleton.
  - intros dm ->%list_elem_of_singleton. right. exists every_100, 1000. split_and!; [done|done|apply every_100_ready|done].
  - intros dm _ r d Hr. by apply elem_of_nil in Hr.
  - exists s'. split; [exact H|]. apply (Hrun due every_100 1000); [left|done|done].
Defined.

Example due_run_created :
  (λ s', (DR.execution_date <$> dag_run s', next_dagrun <$> dag_model s', length (task_instance s'))) <$>
    _create_dag_runs create_bag (λ _, None) no_cron (λ t, t) (λ _, "date") [due] due_session =
  Ok ([1000], [Some 1100], 4%nat).
Proof. vm_compute. reflexivity. Qed.
End CreateSample.
