(* ===== verification/SchedulerLoop.v ===== *)
(** * SchedulerLoop: the scheduler loop as a whole

    [SchedulerJob._do_scheduling] and one iteration of [_run_scheduler_loop]
    ([jobs/scheduler_job.py]), composed of the operations that [SchedulerCreate],
    [SchedulerRuns], [Scheduler] and [SchedulerEvents] model, and the steps by
    which any number of schedulers change the database.

    The theorem: the loop is a sequence of such steps, and no interleaving of
    them takes a pool, a DAG or a task beyond its limit.  [System] adds the steps
    of the workers. *)

From S2P Require Import Prelude State Model Sample Graph Timetable DagRunQuery TaskInstance PoolSlots TiDeps DagRun Executor Scheduler SchedulerEvents SchedulerRuns SchedulerCreate.

Import TiDeps DagRun Executor Scheduler SchedulerEvents SchedulerRuns SchedulerCreate.

Module SchedulerLoop.
Local Open Scope Z_scope.

(** What other schedulers hold locked while one runs. *)
Record Locks := {
  locked_model : DagModel → bool;
  locked_run : DagRun → bool;
  locked_ti : TaskInstance → bool;
  critical_busy : bool;             (* the rows of [slot_pool] *)
}.

Record LoopConfig := {
  USE_JOB_SCHEDULE : bool;
  NUM_DAGS_PER_DAGRUN_QUERY : nat;
  DEFAULT_DAGRUNS_TO_EXAMINE : nat;
  max_tis_per_query : Z;
  scheduler_health_check_threshold : timedelta;
  row_by_row_updates : bool;        (* sqlite and mysql *)
}.

Section Loop.
Context `{Settings} (dagbag : string → result (option DAG)) (dags_hash latest_hash : string → option string)
        (cron_schedule : string → Timetable.Schedule) (hook : TaskInstance → TaskInstance)
        (isoformat : datetime → string) (pickle_id : TaskInstance → option Z)
        (path : TaskInstance → option string) (cfg : LoopConfig) (id : Z).

Definition _create_dagruns_for_dags (l : Locks) (s : Session) : result Session :=
  _create_dag_runs dagbag dags_hash cron_schedule hook isoformat
    (dags_needing_dagruns (locked_model l) (NUM_DAGS_PER_DAGRUN_QUERY cfg) s) s.

(** The loop over the runs: a DAG that is not in the table is logged. *)
Definition schedule_step (st : list (DagRun * Callback) * Session) (dr : DagRun)
    : result (list (DagRun * Callback) * Session) :=
  let '(callback_tuples, s) := st in
  match _schedule_dag_run dagbag latest_hash hook dr s with
  | Ok (callback, s) => Ok (callback_tuples ++ [(dr, callback)], s)
  | Err SerializedDagNotFound => Ok (callback_tuples, s)
  | Err e => Err e
  end.

(** [_send_dag_callbacks_to_processor], the part for SLAs left out: the requests
    sent.  [get_dag] of a run whose DAG was not found raises. *)
Definition _send_dag_callbacks_to_processor (sent : list (DagRun * Callback)) (e : DagRun * Callback)
    : result (list (DagRun * Callback)) :=
  found ← dagbag (DR.dag_id e.1);
  match found with
  | None => Err AirflowException
  | Some _ => Ok match e.2 with NoCallback => sent | _ => sent ++ [e] end
  end.

(** [_do_scheduling]: the number of task instances queued, the callbacks sent. *)
Definition _do_scheduling {X} (l : Locks) (ex : Executor X) (s : Session)
    : result (Z * list (DagRun * Callback) * Executor X * Session) :=
  s ← (if USE_JOB_SCHEDULE cfg then _create_dagruns_for_dags l s else Ok s);
  s ← _start_queued_dagruns dagbag (locked_run l) (DEFAULT_DAGRUNS_TO_EXAMINE cfg) s;
  let dag_runs := DagRunQuery.next_dagruns_to_examine ALLOW_FUTURE_EXEC_DATES (locked_run l) DR_RUNNING
                    (DEFAULT_DAGRUNS_TO_EXAMINE cfg) s in
  '(callback_tuples, s) ← foldM schedule_step dag_runs ([], s);
  sent ← foldM _send_dag_callbacks_to_processor callback_tuples [];
  if slots_available ex <=? 0 then Ok (0, sent, ex, s)
  else if critical_busy l then Ok (0, sent, ex, s)
  else
    '(num_queued_tis, ex, s) ← _critical_section_execute_task_instances dagbag (locked_ti l) id
                                 isoformat pickle_id path (max_tis_per_query cfg) ex s;
    Ok (num_queued_tis, sent, ex, s).

(** ** One iteration of the loop *)

(** The functions that the [EventScheduler] calls at regular intervals. *)
Inductive Timer :=
| OrphanedTasksCheck
| PoolMetrics
| CleanTisWithoutDagrun.

Definition run_timer (try_adopt : list TaskInstance → list TaskInstance) (dag_ids : list string) (l : Locks)
    (s : Session) (t : Timer) : Session :=
  match t with
  | OrphanedTasksCheck =>
      (adopt_or_reset_orphaned_tasks (locked_ti l) id (scheduler_health_check_threshold cfg) try_adopt s).2
  | PoolMetrics => s
  | CleanTisWithoutDagrun => _clean_tis_without_dagrun (locked_ti l) (row_by_row_updates cfg) dag_ids s
  end.

(** The body of the loop, with the timers that are due.  [try_adopt] is
    [executor.try_adopt_task_instances], [dag_ids] the ids in the DAG bag. *)
Definition loop_iteration `{Backend X} (try_adopt : list TaskInstance → list TaskInstance)
    (dag_ids : list string) (due : list Timer) (l : Locks) (ex : Executor X) (s : Session)
    : result (Z * Z * Executor X * Session) :=
  '(num_queued_tis, _, ex, s) ← _do_scheduling l ex s;
  ex ← heartbeat ex;
  '(num_finished_events, _, ex, s) ← _process_executor_events true ex s;
  Ok (num_queued_tis, num_finished_events, ex, foldl (run_timer try_adopt dag_ids l) s due).

(** [_run_scheduler_loop] with [num_runs] iterations: the check for orphans at
    the start, then one element of [env] per iteration. *)
Fixpoint scheduler_loop `{Backend X} (try_adopt : list TaskInstance → list TaskInstance)
    (dag_ids : list string) (env : list (list Timer * Locks)) (ex : Executor X) (s : Session)
    : result (Executor X * Session) :=
  match env with
  | [] => Ok (ex, s)
  | (due, l) :: env =>
      '(_, _, ex, s) ← loop_iteration try_adopt dag_ids due l ex s;
      scheduler_loop try_adopt dag_ids env ex s
  end.

Definition _run_scheduler_loop `{Backend X} (try_adopt : list TaskInstance → list TaskInstance)
    (dag_ids : list string) (l : Locks) (env : list (list Timer * Locks)) (ex : Executor X) (s : Session)
    : result (Executor X * Session) :=
  scheduler_loop try_adopt dag_ids env ex (run_timer try_adopt dag_ids l s OrphanedTasksCheck).
End Loop.
End SchedulerLoop.
Import SchedulerLoop.

(** ** Changes that occupy nothing *)

Section Quiet.
Local Open Scope Z_scope.

(** A row that may take the place of another without occupying more. *)
Definition calmer (r r' : TaskInstance) : Prop :=
  TI.primary r' = TI.primary r ∧ TI.pool r' = TI.pool r ∧ TI.pool_slots r' = TI.pool_slots r ∧
  (active r' = true → active r = true).

Definition model_limits (did : string) (s : Session) : option (Z * bool) :=
  (λ dm, (dm_max_active_tasks dm, has_task_concurrency_limits dm)) <$> dag_model_of did s.

(** Keys are unique and no row takes a negative number of slots. *)
Definition rows_ok (s : Session) : Prop :=
  ti_keys_unique (task_instance s) ∧ ∀ r, r ∈ task_instance s → 0 ≤ TI.pool_slots r.

(** Every running or queued row of [s] was one in [s0], and the limits are the
    same. *)
Record quiet (s0 s : Session) : Prop := {
  quiet_active : ∀ r', r' ∈ task_instance s → active r' = true → ∃ r, r ∈ task_instance s0 ∧ calmer r r';
  quiet_rows : rows_ok s0 → rows_ok s;
  quiet_pools : slot_pool s = slot_pool s0;
  quiet_models : ∀ did, model_limits did s = model_limits did s0;
}.

Lemma calmer_refl r : calmer r r.
Proof. done. Qed.

Lemma calmer_trans r1 r2 r3 : calmer r1 r2 → calmer r2 r3 → calmer r1 r3.
Proof. intros (A1 & A2 & A3 & A4) (B1 & B2 & B3 & B4). split_and!; [congruence..|auto]. Qed.

Lemma calmer_set_state st r : active (TI.set_state st r) = false → calmer r (TI.set_state st r).
Proof. intros Ha. split_and!; [done..|congruence]. Qed.

Lemma quiet_refl s : quiet s s.
Proof. split; [|done..]. intros r Hr _. exists r. split; [done|apply calmer_refl]. Qed.

Lemma quiet_trans s0 s1 s2 : quiet s0 s1 → quiet s1 s2 → quiet s0 s2.
Proof.
  intros [A1 A2 A3 A4] [B1 B2 B3 B4]. split; [|by auto|congruence|congruence].
  intros r Hr Ha. destruct (B1 r Hr Ha) as (r1 & Hr1 & H1). destruct (A1 r1 Hr1) as (r0 & Hr0 & H0); [by apply H1|].
  exists r0. split; [done|by eapply calmer_trans].
Qed.

Lemma quiet_same s0 s s' :
  quiet s0 s → task_instance s' = task_instance s → slot_pool s' = slot_pool s → dag_model s' = dag_model s →
  quiet s0 s'.
Proof.
  intros [A1 A2 A3 A4] Ht Hp Hm. split.
  - by rewrite Ht.
  - unfold rows_ok in *. by rewrite Ht.
  - by rewrite Hp.
  - intros did. rewrite <-A4. unfold model_limits, dag_model_of. by rewrite Hm.
Qed.

Lemma quiet_merge_gen s0 s t :
  quiet s0 s → (active t = true → ∃ r, r ∈ task_instance s0 ∧ calmer r t) → (rows_ok s0 → 0 ≤ TI.pool_slots t) →
  quiet s0 (merge_ti t s).
Proof.
  intros [A1 A2 A3 A4] Hact Hsl.
  assert (∀ x, x ∈ task_instance (merge_ti t s) → x = t ∨ x ∈ task_instance s) as Hin.
  { unfold merge_ti. destruct (existsb _ _); intros x; simpl.
    - intros (y & Hy & ->)%elem_of_update_where. case_match; auto.
    - rewrite elem_of_app, list_elem_of_singleton. tauto. }
  split.
  - intros x [->|Hx]%Hin Ha; [by apply Hact|by apply A1].
  - intros Hk. destruct (A2 Hk) as [K1 K2]. split; [by apply merge_ti_keys|].
    intros x [->|Hx]%Hin; [by apply Hsl|by apply K2].
  - rewrite <-A3. unfold merge_ti. by destruct (existsb _ _).
  - intros did. rewrite <-A4. unfold merge_ti. by destruct (existsb _ _).
Qed.

Lemma quiet_merge s0 s r t : quiet s0 s → r ∈ task_instance s0 → calmer r t → quiet s0 (merge_ti t s).
Proof.
  intros Hq Hr Hc. apply quiet_merge_gen; [done|eauto|]. intros [_ Hk]. destruct Hc as (_ & _ & -> & _). by apply Hk.
Qed.

Lemma quiet_update s0 s p f : quiet s0 s → (∀ r, calmer r (f r)) →
  quiet s0 (with_task_instance (update_where p f (task_instance s)) s).
Proof.
  intros Hq Hf. eapply quiet_trans; [exact Hq|].
  assert (∀ r, calmer r (if p r then f r else r)) as Hpf by (intros r; destruct (p r); [apply Hf|apply calmer_refl]).
  split; [| |done..].
  - intros x (r & Hr & ->)%elem_of_update_where Ha. exists r. split; [done|apply Hpf].
  - intros [K1 K2]. split.
    + unfold ti_keys_unique. cbn [with_task_instance task_instance]. rewrite update_where_keys; [done|]. intros r. apply Hf.
    + intros x (r & Hr & ->)%elem_of_update_where. destruct (Hpf r) as (_ & _ & -> & _). by apply K2.
Qed.

Lemma quiet_merge_fold s0 s (g : TaskInstance → TaskInstance) l :
  quiet s0 s → (∀ t, t ∈ l → t ∈ task_instance s0 ∧ calmer t (g t)) →
  quiet s0 (foldl (λ s t, merge_ti (g t) s) s l).
Proof.
  intros Hq Hl. apply foldl_invariant; [|done]. intros t s' Ht Hs. destruct (Hl t Ht) as [Hin Hc].
  by eapply quiet_merge.
Qed.

(** *** What a quiet change leaves within the limits *)

Lemma sumb_matching {A K} `{EqDecision K} (key : A → K) (f : A → bool) (g : A → Z) l' :
  ∀ l, NoDup (key <$> l') → (∀ x, x ∈ l → f x = true → 0 ≤ g x) →
  (∀ x', x' ∈ l' → f x' = true → ∃ x, x ∈ l ∧ f x = true ∧ key x = key x' ∧ g x = g x') →
  sumb f g l' ≤ sumb f g l.
Proof.
  induction l' as [|x' l' IH]; intros l Hnd Hpos Hm; [by apply sumb_nonneg|].
  rewrite fmap_cons in Hnd. apply NoDup_cons in Hnd as [Hx' Hnd]. rewrite sumb_cons.
  destruct (f x') eqn:Ef; [|rewrite Z.add_0_l; apply IH; [done..|]; intros y Hy; apply Hm; by right].
  destruct (Hm x' ltac:(left) Ef) as (x & Hx & Hfx & Hk & Hg).
  apply list_elem_of_split in Hx as (l1 & l2 & ->). rewrite sumb_app, sumb_cons, Hfx, Hg.
  enough (sumb f g l' ≤ sumb f g (l1 ++ l2)) by (rewrite sumb_app in *; lia).
  apply IH; [done|intros y Hy; apply Hpos; set_solver|].
  intros y Hy Hfy. destruct (Hm y ltac:(by right) Hfy) as (z & Hz & Hfz & Hkz & Hgz). exists z. split_and!; try done.
  apply elem_of_app in Hz as [Hz|[->|Hz]%elem_of_cons]; [set_solver| |set_solver].
  exfalso. apply Hx'. rewrite <-Hk, Hkz. by apply list_elem_of_fmap_2.
Qed.

Context (s0 s : Session) (Hq : quiet s0 s) (Hok : rows_ok s0).

Lemma quiet_occupied p : PoolSlots.occupied_slots p s ≤ PoolSlots.occupied_slots p s0.
Proof.
  unfold PoolSlots.occupied_slots, PoolSlots.slots_in. apply (sumb_matching TI.primary).
  - by apply (quiet_rows _ _ Hq).
  - intros x Hx _. by apply Hok.
  - intros x' Hx' Hf. apply andb_true_iff in Hf as [Hp Ha].
    destruct (quiet_active _ _ Hq x' Hx' Ha) as (x & Hx & H1 & H2 & H3 & H4). exists x. split; [done|].
    rewrite <-H2, Hp. split; [by apply H4|done].
Qed.

Lemma quiet_count (sel : TaskInstance → bool) :
  (∀ r r', TI.primary r' = TI.primary r → sel r' = sel r) →
  countb (λ t, active t && sel t) (task_instance s) ≤ countb (λ t, active t && sel t) (task_instance s0).
Proof.
  intros Hsel. rewrite !countb_sumb. apply (sumb_matching TI.primary).
  - by apply (quiet_rows _ _ Hq).
  - lia.
  - intros x' Hx' Hf. apply andb_true_iff in Hf as [Ha Hp].
    destruct (quiet_active _ _ Hq x' Hx' Ha) as (x & Hx & H1 & H2 & H3 & H4). exists x. split; [done|].
    rewrite (H4 Ha), <-(Hsel _ _ H1), Hp. done.
Qed.

Lemma quiet_model did dm : dag_model_of did s = Some dm → ∃ dm0, dag_model_of did s0 = Some dm0 ∧
  dm_max_active_tasks dm0 = dm_max_active_tasks dm ∧ has_task_concurrency_limits dm0 = has_task_concurrency_limits dm.
Proof.
  intros Hd. pose proof (quiet_models _ _ Hq did) as Hl. unfold model_limits in Hl. rewrite Hd in Hl.
  destruct (dag_model_of did s0) as [dm0|]; [|done]. cbn in Hl. injection Hl as H1 H2. eauto.
Qed.

Lemma quiet_dag_active did : dag_active did s ≤ dag_active did s0.
Proof. apply quiet_count. intros r r' [= -> _ _]. done. Qed.

Lemma quiet_task_active k : task_active k s ≤ task_active k s0.
Proof. apply quiet_count. unfold task_key. intros r r' [= -> -> _]. done. Qed.
End Quiet.

(** ** The operations of the scheduler are quiet *)

Section QuietRound.
Local Open Scope Z_scope.
Context `{Settings} (dag : DAG).

(** A dependency check starts nothing: it keeps the key, and keeps the state or
    ends in one that occupies no slot. *)
Definition settles (t t' : TaskInstance) : Prop :=
  TI.primary t' = TI.primary t ∧ (TI.state t' = TI.state t ∨ active t' = false).

Lemma settles_refl t : settles t t.
Proof. split; auto. Qed.

Lemma settles_trans t1 t2 t3 : settles t1 t2 → settles t2 t3 → settles t1 t3.
Proof.
  unfold settles, active. intros [P1 E1] [P2 E2]. split; [congruence|].
  destruct E1 as [E1|E1], E2 as [E2|E2]; auto; [left; congruence|]. right. by rewrite E2.
Qed.

Lemma settles_set_state now st t : st ∈ [SKIPPED; UPSTREAM_FAILED] →
  settles t (TaskInstance.set_state_obj now (Some st) t).
Proof.
  intros Hst. split; [apply primary_set_state_obj|]. right. unfold active. rewrite state_set_state_obj.
  by repeat (apply elem_of_cons in Hst as [->|Hst]); [..|apply elem_of_nil in Hst].
Qed.

Lemma get_dep_statuses_settles task s dep st l st' :
  get_dep_statuses dag task s dep st = Ok (l, st') → settles (ds_ti st) (ds_ti st').
Proof.
  unfold get_dep_statuses. destruct (IGNORABLE dep && _); [intros [= _ <-]; apply settles_refl|].
  destruct (IS_TASK_DEP dep && _); [intros [= _ <-]; apply settles_refl|].
  destruct dep; cbn [_get_dep_statuses]; try (intros [= _ <-]; apply settles_refl);
    try (intros (x & _ & [= _ <-])%result_bind_ok; apply settles_refl).
  - unfold trigger_rule_statuses. intros (ups & _ & Hok)%result_bind_ok.
    do 2 (case_bool_decide; [injection Hok as _ <-; apply settles_refl|]).
    destruct (ds_finished_tasks dag s st) as [fin st1] eqn:E.
    apply ds_finished_tasks_eq in E as (E1 & _ & _). unfold _evaluate_trigger_rule in Hok. injection Hok as _ <-.
    rewrite <-E1. destruct (flag_upstream_failed _); [|apply settles_refl].
    destruct (instant_state _ _ _) as [x|] eqn:Ei; [|apply settles_refl]. cbn [ds_set_state ds_ti]. apply settles_set_state.
    destruct (trigger_rule task); cbn [instant_state] in Ei; repeat case_match; simplify_eq; set_solver.
  - unfold not_previously_skipped_statuses. intros (ups & _ & Hok)%result_bind_ok.
    destruct (ds_finished_tasks dag s st) as [fin st1] eqn:E.
    apply ds_finished_tasks_eq in E as (E1 & _ & _). rewrite <-E1.
    destruct (List.find _ _); injection Hok as <- <-; [|apply settles_refl]. cbn [ds_set_state ds_ti]. apply settles_set_state. set_solver.
Qed.

Lemma are_dependencies_met_settles task s st b st' :
  are_dependencies_met dag task s st = Ok (b, st') → settles (ds_ti st) (ds_ti st').
Proof.
  unfold are_dependencies_met, get_failed_dep_statuses. intros ([l st1] & Hf & [= _ <-])%result_bind_ok.
  refine (foldM_invariant (λ x, settles (ds_ti st) (ds_ti x.2)) _ _ _ (l, st1) _ _ Hf); [|apply settles_refl].
  intros dep [a x] [a' x'] _ Hx Hstep. unfold failed_step in Hstep.
  apply result_bind_ok in Hstep as ([k x1] & Hget & [= <- <-]). cbn [snd] in *.
  eapply settles_trans; [exact Hx|by eapply get_dep_statuses_settles].
Qed.

(** The objects of the round: one per task, and a running or queued one has the
    state with which it was loaded. *)
Definition objs_ok (objs : list Attached) : Prop :=
  NoDup ((λ a, TI.task_id (current a)) <$> objs) ∧
  ∀ a, a ∈ objs → settles (loaded a) (current a).

Lemma objs_ok_check c fin s tid objs b objs' :
  finished_tasks c = Some fin → check_obj dag c s tid objs = Ok (b, objs') → objs_ok objs → objs_ok objs'.
Proof.
  intros Hfin Hc [Hnd Hst]. pose proof Hc as Hc'. unfold check_obj in Hc.
  apply result_bind_ok in Hc as (task & _ & Hc). destruct (lookup_obj objs tid) as [a|] eqn:Ea; [|done].
  apply result_bind_ok in Hc as ([met st] & Hmet & [= <- <-]).
  pose proof (are_dependencies_met_settles _ _ _ _ _ Hmet) as Hs. cbn [ds_ti] in Hs.
  apply check_obj_spec with (fin := fin) in Hc' as (_ & t & _ & Heq & Ht & _); [|done].
  apply are_dependencies_met_frame with (fin := fin) in Hmet as [Hp _]; [|done]. cbn [ds_ti] in Hp.
  apply lookup_obj_Some in Ea as [Ha Hid].
  assert (TI.task_id (ds_ti st) = tid) as Hid' by (unfold TI.primary in Hp; congruence). split.
  - unfold set_obj. rewrite <-list_fmap_compose.
    assert ((λ a0, TI.task_id (current a0)) ∘ (λ a0, if TI.task_id (current a0) ≟ TI.task_id (ds_ti st)
      then {| loaded := loaded a0; current := ds_ti st |} else a0) <$> objs = (λ a0, TI.task_id (current a0)) <$> objs) as ->; [|done].
    apply list_fmap_ext. intros i x _. simpl. case_bool_decide as E; simpl; congruence.
  - unfold set_obj. intros x (y & -> & Hy)%list_elem_of_fmap. case_bool_decide as E; [|by apply Hst]. simpl.
    assert (y = a) as ->; [|eapply settles_trans; [by apply Hst|done]].
    apply list_elem_of_lookup in Hy as [i Hi], Ha as [j Hj].
    assert (i = j) as ->; [|congruence]. eapply NoDup_lookup; [exact Hnd|..]; rewrite list_lookup_fmap.
    + by rewrite Hi; simpl.
    + rewrite Hj; simpl. congruence.
Qed.

Lemma objs_ok_ready fin s ids st st' :
  foldM (ready_step dag fin s) ids st = Ok st' → objs_ok (rs_objs st) → objs_ok (rs_objs st').
Proof.
  intros Hf Ho. eapply (foldM_invariant (λ x, objs_ok (rs_objs x))); [|exact Ho|exact Hf].
  intros tid a b _ Ha Hstep. unfold ready_step in Hstep. apply result_bind_ok in Hstep as ([met objs] & Hc & [= <-]).
  assert (objs_ok objs) by (by eapply objs_ok_check; [|exact Hc|]). by destruct met.
Qed.

Lemma objs_ok_premature fin s ids objs b objs' :
  _are_premature_tis dag ids fin objs s = Ok (b, objs') → objs_ok objs → objs_ok objs'.
Proof.
  revert objs. induction ids as [|i ids IH]; intros objs; cbn [_are_premature_tis]; [by intros [= _ <-]|].
  intros ([met objs1] & Hc & Hr)%result_bind_ok Ho.
  assert (objs_ok objs1) by (by eapply objs_ok_check; [|exact Hc|]). destruct met; [by injection Hr as _ <-|by eapply IH].
Qed.
End QuietRound.

Section QuietOps.
Local Open Scope Z_scope.
Context `{Settings}.

Lemma quiet_load dag dr s objs s' :
  ti_keys_unique (task_instance s) → load_tis dag dr s = (objs, s') → quiet s s' ∧ objs_ok objs.
Proof.
  intros Hk Hl. split.
  - unfold load_tis in Hl. change s' with (objs, s').2. rewrite <-Hl. clear Hl objs s'.
    apply (foldl_invariant (λ st, quiet s st.2)); [|apply quiet_refl].
    intros t [objs s'] Ht Hq. cbn [snd] in Hq. unfold mark_removed. destruct (has_task dag _); [done|]. cbn [snd].
    apply elem_of_filterb in Ht as [_ Ht]. eapply quiet_merge; [done|exact Ht|]. by apply calmer_set_state.
  - split.
    + apply load_tis_objs in Hl as ->. rewrite <-list_fmap_compose.
      apply (NoDup_fmap_1 (λ t, (DR.dag_id dr, t, DR.execution_date dr))). rewrite <-list_fmap_compose.
      assert (_ <$> DagRunQuery.get_task_instances dr State.task_states (Some dag) s
              = TI.primary <$> DagRunQuery.get_task_instances dr State.task_states (Some dag) s) as ->; [|by apply NoDup_fmap_filterb].
      apply list_fmap_ext. intros i t Ht%list_elem_of_lookup_2. apply elem_of_run_rows in Ht as (_ & <- & <-).
      simpl. by destruct (has_task dag _).
    + intros a Ha. destruct (obj_of_row _ _ _ _ _ _ Hl Ha) as (t & _ & ->). apply settles_refl.
Qed.

Lemma decisions_quiet dag dr s info s1 : ti_keys_unique (task_instance s) →
  task_instance_scheduling_decisions dag dr s = Ok (info, s1) → quiet s s1 ∧ objs_ok (tis info).
Proof.
  intros Hk. unfold task_instance_scheduling_decisions. destruct (load_tis dag dr s) as [objs s'] eqn:El.
  destruct (quiet_load _ _ _ _ _ Hk El) as [Hq Ho].
  intros ([[ready changed] objs1] & Hr & [= <- <-])%result_bind_ok. split; [done|]. cbn [tis].
  destruct (ids_in State.unfinished objs) eqn:Eu; [by injection Hr as _ _ <-|]. rewrite <-Eu in Hr.
  unfold _get_ready_tis in Hr. destruct (List.filter _ _); [by injection Hr as _ _ <-|].
  apply result_bind_ok in Hr as (st & Hf & [= _ _ <-]). by eapply objs_ok_ready in Hf.
Qed.

Lemma update_state_quiet dag dr ec s r : ti_keys_unique (task_instance s) →
  update_state dag dr ec s = Ok r → quiet s (ur_session r) ∧ objs_ok (ur_objs r).
Proof.
  intros Hk. unfold update_state. intros ([info s1] & Hi & Hok)%result_bind_ok.
  apply result_bind_ok in Hok as (tasks & _ & Hok).
  apply result_bind_ok in Hok as ([runnable objs'] & Hrun & Hok).
  apply result_bind_ok in Hok as (leaves & _ & Hok).
  destruct (verdict _ _ _ _ _ _) as [state cb]. injection Hok as <-. cbn [ur_session ur_objs].
  destruct (decisions_quiet _ _ _ _ _ Hk Hi) as [Hq Ho1]. split.
  - eapply quiet_same; [exact Hq|done..].
  - unfold are_runnable_tasks in Hrun. destruct (deadlock_detectable tasks); [|by injection Hrun as _ <-].
    destruct (negb _); [by injection Hrun as _ <-|].
    apply result_bind_ok in Hrun as ([p objs2] & Hp & [= _ <-]). by eapply objs_ok_premature.
Qed.

Lemma schedule_tis_quiet dag dr ids s n s' : schedule_tis dag dr ids s = Ok (n, s') → quiet s s'.
Proof.
  unfold schedule_tis. intros (tasks & _ & Hok)%result_bind_ok. revert Hok.
  destruct (task_id <$> List.filter (λ t, negb (is_dummy t)) tasks) as [|x xs];
    destruct (task_id <$> List.filter is_dummy tasks) as [|y ys]; intros [= _ <-];
    repeat first [apply quiet_refl | apply quiet_update; [|intros r; by split_and!]].
  apply (quiet_update s (with_task_instance (update_where (of_run dr (x :: xs)) (TI.set_state (Some SCHEDULED))
    (task_instance s)) s)); [apply quiet_update; [apply quiet_refl|]|]; intros r; by split_and!.
Qed.

Lemma flush_row_calmer a row : settles (loaded a) (current a) → calmer row (flush_row a row).
Proof.
  intros [_ Hs]. unfold flush_row. split_and!; [done..|]. unfold active. cbn [TI.state TI.set_dates TI.set_state].
  destruct (TI.state (current a) ≟ TI.state (loaded a)) eqn:E; [done|]. apply bool_decide_eq_false in E.
  intros Ha. destruct Hs as [Hs|Hs]; [congruence|]. unfold active in Hs. congruence.
Qed.

Lemma commit_quiet s0 objs s : objs_ok objs → quiet s0 s → quiet s0 (commit objs s).
Proof.
  intros [_ Ho] Hq. unfold commit. apply foldl_invariant; [|done]. intros a s' Ha Hs. apply quiet_update; [done|].
  intros r. by apply flush_row_calmer, Ho.
Qed.

Lemma schedule_round_quiet dag dr ec s n r s' : ti_keys_unique (task_instance s) →
  schedule_round dag dr ec s = Ok (n, r, s') → quiet s s'.
Proof.
  intros Hk. unfold schedule_round. intros (r1 & Hup & Hok)%result_bind_ok.
  apply result_bind_ok in Hok as ([n1 s2] & Hs & [= <- <- <-]).
  destruct (update_state_quiet _ _ _ _ _ Hk Hup) as [Hq Ho]. apply commit_quiet; [done|].
  eapply quiet_trans; [exact Hq|by eapply schedule_tis_quiet].
Qed.

(** What the site's hook and the DAG bag must keep. *)
Record HookOk (hook : TaskInstance → TaskInstance) : Prop := {
  hook_primary : ∀ t, TI.primary (hook t) = TI.primary t;
  hook_state : ∀ t, TI.state (hook t) = TI.state t;
  hook_slots : ∀ t, 0 ≤ TI.pool_slots t → 0 ≤ TI.pool_slots (hook t);
  hook_active : ∀ t, active t = true → TI.pool (hook t) = TI.pool t ∧ TI.pool_slots (hook t) = TI.pool_slots t;
}.

Record BagOk (dagbag : string → result (option DAG)) : Prop := {
  bag_id : ∀ did dag, dagbag did = Ok (Some dag) → dag_id dag = did;
  bag_tasks : ∀ did dag, dagbag did = Ok (Some dag) → NoDup (task_ids dag);
  bag_slots : ∀ did dag t, dagbag did = Ok (Some dag) → t ∈ task_dict dag → 0 ≤ op_pool_slots t;
}.

Context (hook : TaskInstance → TaskInstance) (Hhook : HookOk hook).

Lemma verify_row_active dag dr t : active (verify_row dag dr hook t) = true →
  verify_row dag dr hook t = hook t ∧ active t = true.
Proof.
  unfold verify_row, active. intros Ha. destruct (has_task dag _) eqn:Eh; cbn [andb] in *.
  - destruct (TI.state (hook t) ≟ Some REMOVED); [done|]. split; [done|]. by rewrite (hook_state _ Hhook) in Ha.
  - destruct (TI.state (hook t) ≟ Some REMOVED); [by rewrite (hook_state _ Hhook) in Ha|].
    destruct (_ && _); [done|]. by rewrite (hook_state _ Hhook) in Ha.
Qed.

Lemma verify_row_slots dag dr t : 0 ≤ TI.pool_slots t → 0 ≤ TI.pool_slots (verify_row dag dr hook t).
Proof. intros Ht%(hook_slots _ Hhook). unfold verify_row. cbv zeta. by repeat case_match. Qed.

Lemma verify_integrity_quiet dag dr s s' :
  DR.dag_id dr = dag_id dag → NoDup (task_ids dag) → (∀ t, t ∈ task_dict dag → 0 ≤ op_pool_slots t) →
  verify_integrity dag dr hook s = Ok s' → quiet s s'.
Proof.
  intros Hid Hnd Hslots Hv. pose proof Hv as Hv'. unfold verify_integrity in Hv.
  set (tis := DagRunQuery.get_task_instances dr [] (Some dag) s) in Hv.
  set (s1 := foldl _ s tis) in Hv.
  assert (quiet s s1) as Hq.
  { apply foldl_invariant; [|apply quiet_refl]. intros t s2 [_ Ht]%elem_of_filterb Hs. apply quiet_merge_gen; [done| |].
    - intros Ha. destruct (verify_row_active _ _ _ Ha) as [-> Hat]. exists t. split; [done|].
      destruct (hook_active _ Hhook t Hat). split_and!; [apply Hhook|done..].
    - intros [_ Hk]. by apply verify_row_slots, Hk. }
  destruct (create_loop dag dr hook (hook_primary _ Hhook) (hook_state _ Hhook) _ _ _ _ Hv) as (new & Hnew & _ & Hst).
  assert (slot_pool s' = slot_pool s1 ∧ dag_model s' = dag_model s1 ∧
          ((∀ r, r ∈ task_instance s1 → 0 ≤ TI.pool_slots r) → ∀ r, r ∈ task_instance s' → 0 ≤ TI.pool_slots r)) as (Hp & Hm & Hsl).
  { refine (foldM_invariant (λ x, slot_pool x = slot_pool s1 ∧ dag_model x = dag_model s1 ∧ (_ → ∀ r, r ∈ task_instance x → 0 ≤ TI.pool_slots r))
      _ _ _ s' _ _ Hv); [|done].
    intros task a b Htask (I1 & I2 & I3) Hc. unfold create_missing in Hc. destruct (op_start_date task) as [d|]; [|done].
    destruct (_ && _); [by injection Hc as <-|]. destruct (_ ∈? _); [by injection Hc as <-|].
    apply result_bind_ok in Hc as (ti & Hti & [= <-]). cbn [with_task_instance slot_pool dag_model task_instance].
    split_and!; [done..|]. intros Hr1 r [Hr|Hr%list_elem_of_singleton]%elem_of_app; [by apply I3|]. subst r.
    apply (hook_slots _ Hhook). unfold TaskInstance.ti_init, TaskInstance.refresh_from_task in Hti.
    apply result_bind_ok in Hti as (w & _ & [= <-]). by apply Hslots. }
  split.
  - rewrite Hnew. intros r [Hr|Hr]%elem_of_app Ha; [by apply (quiet_active _ _ Hq)|].
    unfold active in Ha. rewrite (Hst r Hr) in Ha. done.
  - intros Hk. split.
    + eapply (verify_integrity_spec dag dr hook (hook_primary _ Hhook) (hook_state _ Hhook)); [apply Hk|done..].
    + apply Hsl. by apply (quiet_rows _ _ Hq).
  - rewrite Hp. apply Hq.
  - intros did. rewrite <-(quiet_models _ _ Hq). unfold model_limits, dag_model_of. by rewrite Hm.
Qed.

Context (dagbag : string → result (option DAG)) (Hbag : BagOk dagbag).

Lemma quiet_merge_run s0 s dr : quiet s0 s → quiet s0 (DagRunQuery.merge_run dr s).
Proof. intros Hq. by apply (quiet_same s0 s). Qed.

Lemma time_out_quiet dr s : quiet s (time_out dr s).
Proof.
  unfold time_out. apply quiet_merge_run, (quiet_merge_fold s s (TI.set_state (Some SKIPPED))); [apply quiet_refl|].
  intros t [_ Ht]%elem_of_filterb. split; [done|by apply calmer_set_state].
Qed.

Lemma schedule_dag_run_quiet latest_hash dr s cb s' : rows_ok s →
  _schedule_dag_run dagbag latest_hash hook dr s = Ok (cb, s') → quiet s s'.
Proof.
  intros Hrows. unfold _schedule_dag_run. intros ([dag|] & Hd & Hok)%result_bind_ok; [|injection Hok as _ <-; apply quiet_refl].
  destruct (has_timed_out _ _ _); [injection Hok as _ <-; apply time_out_quiet|].
  destruct (_ && _); [injection Hok as _ <-; apply quiet_refl|].
  apply result_bind_ok in Hok as ([dr' s1] & Hv & Hok). apply result_bind_ok in Hok as ([[n r] s2] & Hr & [= _ <-]).
  assert (quiet s s1) as Hq.
  { unfold _verify_integrity_if_dag_changed in Hv. destruct (_ ≟ _); [injection Hv as _ <-; apply quiet_refl|].
    apply result_bind_ok in Hv as ([dag'|] & Hd' & Hv); [|done]. apply result_bind_ok in Hv as (s3 & Hver & [= _ <-]).
    cbn [DagRunQuery.set_dag_hash DR.dag_id] in Hd'. eapply verify_integrity_quiet; [| | |exact Hver].
    - by rewrite (bag_id _ Hbag _ _ Hd').
    - by eapply bag_tasks.
    - intros t. by eapply bag_slots. }
  eapply quiet_trans; [exact Hq|]. eapply schedule_round_quiet; [|exact Hr].
  by apply (quiet_rows _ _ Hq).
Qed.

Lemma start_queued_quiet locked n s s' : _start_queued_dagruns dagbag locked n s = Ok s' → quiet s s'.
Proof.
  unfold _start_queued_dagruns. intros ([m s1] & Hf & [= <-])%result_bind_ok. change s1 with (m, s1).2.
  refine (foldM_invariant (λ st, quiet s st.2) _ _ _ (m, s1) _ _ Hf); [|apply quiet_refl].
  intros dr [m0 a] st _ Ha Hs. unfold start_step in Hs. destruct (dagbag _) as [[dag|]|[]]; try done.
  - destruct (_ && _); injection Hs as <-; [done|]. cbn [snd] in *. by apply quiet_merge_run.
  - by injection Hs as <-.
Qed.

Lemma quiet_set_next s0 s did next create_after : quiet s0 s →
  quiet s0 (with_dag_model (update_where (λ r, dm_dag_id r ≟ did) (set_next next create_after) (dag_model s)) s).
Proof.
  intros [A1 A2 A3 A4]. split; [exact A1|exact A2|exact A3|]. intros d. rewrite <-A4. unfold model_limits, dag_model_of, update_where.
  cbn [with_dag_model dag_model]. induction (dag_model s) as [|dm l IH]; [done|]. cbn [fmap list_fmap List.find].
  assert (dm_dag_id (if dm_dag_id dm ≟ did then set_next next create_after dm else dm) = dm_dag_id dm) as -> by by destruct (_ ≟ _).
  destruct (dm_dag_id dm ≟ d); [|exact IH]. by destruct (_ ≟ _).
Qed.

Lemma create_dag_runs_quiet dags_hash cron isoformat dms s s' :
  _create_dag_runs dagbag dags_hash cron hook isoformat dms s = Ok s' → quiet s s'.
Proof.
  intros Hf. refine (foldM_invariant (quiet s) _ _ _ s' _ _ Hf); [|apply quiet_refl]. clear Hf.
  intros dm a b _ Ha Hs. unfold create_step in Hs. destruct (dagbag (dm_dag_id dm)) as [[dag|]|[]] eqn:Ed; try done;
    [|by injection Hs as <-].
  apply result_bind_ok in Hs as (s1 & Hs1 & Hs). apply result_bind_ok in Hs as ([nx ca] & _ & [= <-]).
  apply quiet_set_next. destruct (match next_dagrun dm with Some d => _ | None => _ end); [by injection Hs1 as <-|].
  apply result_bind_ok in Hs1 as ([run s2] & Hc & [= <-]). unfold create_dagrun in Hc.
  apply result_bind_ok in Hc as ([rid rt] & _ & Hc). apply result_bind_ok in Hc as (s3 & Hi & Hc).
  apply result_bind_ok in Hc as (s4 & Hv & [= _ <-]). unfold insert_run in Hi. destruct (existsb _ _); [done|].
  injection Hi as <-. cbn [snd].
  refine (quiet_trans _ _ _ _ (verify_integrity_quiet _ _ _ _ _ _ _ Hv)); [by apply (quiet_same s a)|done|by eapply bag_tasks|].
  intros t. by eapply bag_slots.
Qed.

(** Events, orphans and clean-up. *)

Lemma process_events_quiet {X} agent (ex : Executor X) s n cbs ex' s' :
  _process_executor_events agent ex s = Ok (n, cbs, ex', s') → quiet s s'.
Proof.
  unfold _process_executor_events. destruct (negb agent); [done|]. destruct (get_event_buffer None ex) as [events ex1].
  destruct (TaskInstance.filter_for_tis _) as [f|]; [|intros [= _ _ _ <-]; apply quiet_refl].
  intros (st & Hf & [= _ _ _ <-])%result_bind_ok.
  refine (foldM_invariant (λ x, quiet s (ev_session x)) _ _ _ st _ _ Hf); [|apply quiet_refl].
  intros t a b [_ Ht]%elem_of_filterb Ha Hp. unfold process_event in Hp. destruct (_ !! _) as [k|]; [|done].
  destruct (Executor.dict_get _ _) as [[state info]|]; [|done]. destruct (state ≟ _).
  { injection Hp as <-. cbn [ev_session]. by apply (quiet_merge _ _ t). }
  destruct (_ && _) eqn:E; [|by injection Hp as <-]. destruct (dag_model_of _ _); [|done]. injection Hp as <-.
  apply andb_true_iff in E as [_ E%bool_decide_eq_true]. unfold TaskInstance.set_state. cbn [snd ev_session].
  eapply quiet_merge; [done|exact Ht|]. split_and!.
  - apply primary_set_state_obj.
  - unfold TaskInstance.set_state_obj. by destruct (_ || _).
  - unfold TaskInstance.set_state_obj. by destruct (_ || _).
  - intros _. unfold active. by rewrite E.
Qed.

Lemma adopt_quiet locked id timeout try_adopt s : (∀ l, try_adopt l ⊆+ l) →
  quiet s (adopt_or_reset_orphaned_tasks locked id timeout try_adopt s).2.
Proof.
  intros Hsub. unfold adopt_or_reset_orphaned_tasks. cbv zeta. cbn [snd]. set (s1 := with_job _ s).
  assert (quiet s s1) as Hq by (by apply (quiet_same s s); [apply quiet_refl|..]).
  apply (quiet_merge_fold s _ (adopt_ti id)); [apply (quiet_merge_fold s _ reset_ti); [done|]|].
  - intros t Ht. eapply elem_of_submseteq in Ht; [|apply Hsub]. apply elem_of_filterb in Ht as [_ Ht]. done.
  - intros t [_ [_ Ht]%elem_of_filterb]%elem_of_filterb. done.
Qed.

Lemma set_state_calmer now st t : st ∉ EXECUTION_STATES → calmer t (TaskInstance.set_state_obj now st t).
Proof.
  intros Hst. split_and!; [apply primary_set_state_obj|unfold TaskInstance.set_state_obj; by destruct (_ || _)..|].
  unfold active. rewrite state_set_state_obj. intros ?%bool_decide_eq_true. done.
Qed.
Lemma change_state_quiet locked row_by_row dag_ids olds new s : new ∉ EXECUTION_STATES →
  quiet s (_change_state_for_tis_without_dagrun locked row_by_row dag_ids olds new s).
Proof.
  intros Hn. unfold _change_state_for_tis_without_dagrun. destruct row_by_row.
  - unfold TaskInstance.set_state. cbn [snd]. apply foldl_invariant; [|apply quiet_refl].
    intros t s1 [_ Ht]%elem_of_filterb Hs. eapply quiet_merge; [done|exact Ht|by apply set_state_calmer].
  - apply quiet_update; [apply quiet_refl|]. intros t. unfold bulk_set.
    split_and!; [by case_match..|]. intros Ha. exfalso. apply Hn. unfold active in Ha. by case_match; apply bool_decide_eq_true in Ha.
Qed.

Lemma clean_quiet locked row_by_row dag_ids s : quiet s (_clean_tis_without_dagrun locked row_by_row dag_ids s).
Proof.
  unfold _clean_tis_without_dagrun. eapply quiet_trans; apply change_state_quiet; apply (bool_decide_unpack _); by vm_compute.
Qed.
End QuietOps.

(** ** Steps of the schedulers *)

Definition with_clock (now : datetime) (s : Session) : Session :=
  {| task_instance := task_instance s; dag_run := dag_run s; dag_model := dag_model s;
     slot_pool := slot_pool s; task_reschedule := task_reschedule s; xcom := xcom s;
     job := job s; utcnow := now |}.

Section Steps.
Local Open Scope Z_scope.
Context `{Settings} (dagbag : string → result (option DAG)) (dags_hash latest_hash : string → option string)
        (cron_schedule : string → Timetable.Schedule) (hook : TaskInstance → TaskInstance)
        (isoformat : datetime → string) (pickle_id : TaskInstance → option Z)
        (path : TaskInstance → option string).

(** What one transaction of a scheduler (of any number of them, each with its
    own id, locks and executor) does to the database. *)
Inductive sched_step : Session → Session → Prop :=
| step_create locked n s s' :
    _create_dag_runs dagbag dags_hash cron_schedule hook isoformat (dags_needing_dagruns locked n s) s = Ok s' →
    sched_step s s'
| step_start locked n s s' : _start_queued_dagruns dagbag locked n s = Ok s' → sched_step s s'
| step_schedule dr cb s s' : _schedule_dag_run dagbag latest_hash hook dr s = Ok (cb, s') → sched_step s s'
| step_critical X (ex ex' : Executor X) locked id max_tis n s s' :
    0 ≤ max_tis → 0 < slots_available ex →
    _critical_section_execute_task_instances dagbag locked id isoformat pickle_id path max_tis ex s = Ok (n, ex', s') →
    sched_step s s'
| step_events X (ex ex' : Executor X) agent n cbs s s' :
    _process_executor_events agent ex s = Ok (n, cbs, ex', s') → sched_step s s'
| step_adopt locked id timeout try_adopt s :
    (∀ l, try_adopt l ⊆+ l) → sched_step s (adopt_or_reset_orphaned_tasks locked id timeout try_adopt s).2
| step_clean locked row_by_row dag_ids s : sched_step s (_clean_tis_without_dagrun locked row_by_row dag_ids s)
| step_clock now s : sched_step s (with_clock now s).

(** No pool, DAG or task has more running and queued task instances than its
    limit allows. *)
Record limits_ok (s : Session) : Prop := {
  lim_pool : ∀ p, p ∈ slot_pool s → slots p ≠ -1 → PoolSlots.occupied_slots p s ≤ slots p;
  lim_dag : ∀ did dm, dag_model_of did s = Some dm → dag_active did s ≤ dm_max_active_tasks dm;
  lim_task : ∀ did dm dag tid task l, dag_model_of did s = Some dm → has_task_concurrency_limits dm = true →
    dagbag did = Ok (Some dag) → lookup_task dag tid = Some task → task_concurrency task = Some l →
    task_active (did, tid) s ≤ l;
}.

Definition system_ok (s : Session) : Prop :=
  rows_ok s ∧ NoDup (pool_name <$> slot_pool s) ∧ limits_ok s.

Lemma quiet_system_ok s s' : quiet s s' → system_ok s → system_ok s'.
Proof.
  intros Hq (Hrows & Hn & [L1 L2 L3]). pose proof (quiet_model s s' Hq) as Hm.
  split; [by apply (quiet_rows _ _ Hq)|]. split; [by rewrite (quiet_pools _ _ Hq)|]. split.
  - rewrite (quiet_pools _ _ Hq). intros p Hp Hs. etrans; [by apply quiet_occupied|by apply L1].
  - intros did dm Hd. destruct (Hm did dm Hd) as (dm0 & Hd0 & <- & _). etrans; [by apply quiet_dag_active|by apply L2].
  - intros did dm dag tid task l Hd Hc Hb Ht Hl. destruct (Hm did dm Hd) as (dm0 & Hd0 & _ & Hc0).
    etrans; [by apply quiet_task_active|]. by eapply L3; eauto; congruence.
Qed.

(** After the critical section no limit is exceeded by more than before. *)
Lemma critical_limits {X} (ex ex' : Executor X) locked id max_tis n s s' :
  0 ≤ max_tis → 0 < slots_available ex →
  _critical_section_execute_task_instances dagbag locked id isoformat pickle_id path max_tis ex s = Ok (n, ex', s') →
  rows_ok s → NoDup (pool_name <$> slot_pool s) →
  rows_ok s' ∧ slot_pool s' = slot_pool s ∧ dag_model s' = dag_model s ∧
  (∀ p, p ∈ slot_pool s → slots p ≠ -1 → PoolSlots.occupied_slots p s' ≤ Z.max (PoolSlots.occupied_slots p s) (slots p)) ∧
  (∀ did dm, dag_model_of did s = Some dm → dag_active did s' ≤ Z.max (dag_active did s) (dm_max_active_tasks dm)) ∧
  (∀ did dm dag tid task l, dag_model_of did s = Some dm → has_task_concurrency_limits dm = true →
    dagbag did = Ok (Some dag) → lookup_task dag tid = Some task → task_concurrency task = Some l →
    task_active (did, tid) s' ≤ Z.max (task_active (did, tid) s) l).
Proof.
  intros Hmax Hfree Hc [Hk Hsl] Hn. unfold _critical_section_execute_task_instances in Hc.
  set (m := if max_tis =? 0 then _ else _) in Hc. assert (0 ≤ m) as Hm by (unfold m; case_match; lia).
  apply result_bind_ok in Hc as ([E s1] & HE & [= _ _ <-]).
  destruct (queued_rows_spec _ _ _ _ _ _ _ Hm Hk HE) as (_ & _ & _ & Hs1).
  destruct (concurrency_limits_spec _ _ _ _ _ _ _ Hm Hk HE) as [Hdag Htask].
  split; [split|]; [..|split_and!; [by rewrite Hs1|by rewrite Hs1| |done|done]].
  - rewrite Hs1. unfold ti_keys_unique. cbn [with_task_instance task_instance].
    rewrite <-list_fmap_compose, (list_fmap_ext _ TI.primary); [done|]. intros i r _. simpl. by case_match.
  - rewrite Hs1. cbn [with_task_instance task_instance]. intros r (r0 & -> & Hr)%list_elem_of_fmap.
    specialize (Hsl r0 Hr). by case_match.
  - intros p Hp Hs. exact (pool_limit_spec _ _ _ _ _ _ _ p Hm Hk Hn Hp Hs HE).
Qed.

Lemma critical_system_ok {X} (ex ex' : Executor X) locked id max_tis n s s' :
  0 ≤ max_tis → 0 < slots_available ex →
  _critical_section_execute_task_instances dagbag locked id isoformat pickle_id path max_tis ex s = Ok (n, ex', s') →
  system_ok s → system_ok s'.
Proof.
  intros Hmax Hfree Hc (Hrows & Hn & [L1 L2 L3]).
  destruct (critical_limits _ _ _ _ _ _ _ _ Hmax Hfree Hc Hrows Hn) as (Hrows' & Hsp & Hdm & Hpool & Hdag & Htask).
  split; [done|]. split; [by rewrite Hsp|]. split.
  - rewrite Hsp. intros p Hp Hs. specialize (Hpool p Hp Hs). specialize (L1 p Hp Hs). lia.
  - intros did dm Hd. unfold dag_model_of in Hd. rewrite Hdm in Hd. specialize (Hdag did dm Hd). specialize (L2 did dm Hd). lia.
  - intros did dm dag tid task l Hd Hc1 Hb Ht Hl. unfold dag_model_of in Hd. rewrite Hdm in Hd.
    specialize (Htask did dm dag tid task l Hd Hc1 Hb Ht Hl). specialize (L3 did dm dag tid task l Hd Hc1 Hb Ht Hl). lia.
Qed.

(** A step is quiet or a critical section. *)
Lemma sched_step_quiet s s' : HookOk hook → BagOk dagbag → sched_step s s' → rows_ok s →
  quiet s s' ∨ ∃ X (ex ex' : Executor X) locked id max_tis n, 0 ≤ max_tis ∧ 0 < slots_available ex ∧
    _critical_section_execute_task_instances dagbag locked id isoformat pickle_id path max_tis ex s = Ok (n, ex', s').
Proof.
  intros Hh Hb Hstep Hrows.
  destruct Hstep as [locked n s s' Hc|locked n s s' Hc|dr cb s s' Hc|X ex ex' locked id m n s s' H1 H2 Hc|X ex ex' a n cbs s s' Hc
    |locked id timeout ta s Hsub|locked rbr ids s|now s].
  - left. by eapply create_dag_runs_quiet.
  - left. by eapply start_queued_quiet.
  - left. by eapply schedule_dag_run_quiet.
  - right. by exists X, ex, ex', locked, id, m, n.
  - left. by eapply process_events_quiet.
  - left. by apply adopt_quiet.
  - left. by apply clean_quiet.
  - left. by apply (quiet_same s s); [apply quiet_refl|..].
Qed.

Lemma step_system_ok s s' : HookOk hook → BagOk dagbag → sched_step s s' → system_ok s → system_ok s'.
Proof.
  intros Hh Hb Hstep Hs.
  destruct (sched_step_quiet s s' Hh Hb Hstep ltac:(apply Hs)) as [Hq|(X & ex & ex' & locked & id & m & n & H1 & H2 & Hc)].
  - by eapply quiet_system_ok.
  - by eapply critical_system_ok.
Qed.

(** *** The loop takes such steps *)

Context (cfg : LoopConfig) (id : Z) (Hmax : 0 ≤ max_tis_per_query cfg).

Lemma schedule_loop_steps runs st st' :
  foldM (schedule_step dagbag latest_hash hook) runs st = Ok st' → rtc sched_step st.2 st'.2.
Proof.
  intros Hf. refine (foldM_invariant (λ x, rtc sched_step st.2 x.2) _ _ _ st' _ _ Hf); [|done].
  intros dr [cbs a] b _ Ha Hs. unfold schedule_step in Hs.
  destruct (_schedule_dag_run _ _ _ _ _) as [[cb s1]|e] eqn:E.
  - injection Hs as <-. eapply rtc_r; [exact Ha|]. by eapply step_schedule.
  - destruct e; try done. by injection Hs as <-.
Qed.

Lemma do_scheduling_steps {X} l (ex ex' : Executor X) n cbs s s' :
  _do_scheduling dagbag dags_hash latest_hash cron_schedule hook isoformat pickle_id path cfg id l ex s
    = Ok (n, cbs, ex', s') → rtc sched_step s s'.
Proof.
  unfold _do_scheduling. intros (s1 & H1 & Hok)%result_bind_ok. apply result_bind_ok in Hok as (s2 & H2 & Hok).
  apply result_bind_ok in Hok as ([cbs' s3] & H3 & Hok). apply result_bind_ok in Hok as (sent & _ & Hok).
  assert (rtc sched_step s s3) as H03.
  { trans s1.
    - destruct (USE_JOB_SCHEDULE cfg); [|by injection H1 as <-]. apply rtc_once. by eapply step_create.
    - eapply rtc_l; [by eapply step_start|]. by apply schedule_loop_steps in H3. }
  destruct (slots_available ex <=? 0) eqn:Ea; [by injection Hok as _ _ _ <-|].
  destruct (critical_busy l); [by injection Hok as _ _ _ <-|].
  apply result_bind_ok in Hok as ([[k ex1] s4] & Hc & [= _ _ _ <-]).
  eapply rtc_r; [exact H03|]. eapply step_critical; [exact Hmax| |exact Hc]. lia.
Qed.

Context `{Backend X} (try_adopt : list TaskInstance → list TaskInstance) (Hadopt : ∀ l, try_adopt l ⊆+ l)
        (dag_ids : list string).

Lemma run_timer_steps l s t : rtc sched_step s (run_timer cfg id try_adopt dag_ids l s t).
Proof. destruct t; cbn [run_timer]; [apply rtc_once; by constructor|done|apply rtc_once; by constructor]. Qed.

Lemma loop_iteration_steps due l (ex ex' : Executor X) n m s s' :
  loop_iteration dagbag dags_hash latest_hash cron_schedule hook isoformat pickle_id path cfg id try_adopt dag_ids
    due l ex s = Ok (n, m, ex', s') → rtc sched_step s s'.
Proof.
  unfold loop_iteration. intros ([[[k cbs] ex1] s1] & H1 & Hok)%result_bind_ok.
  apply result_bind_ok in Hok as (ex2 & _ & Hok). apply result_bind_ok in Hok as ([[[j cbs2] ex3] s2] & H3 & [= _ _ _ <-]).
  trans s1; [by eapply do_scheduling_steps|]. eapply rtc_l; [by eapply step_events|].
  apply (foldl_invariant (rtc sched_step s2)); [|done]. intros t a _ Ha. etrans; [exact Ha|apply run_timer_steps].
Qed.

(** C9: everything that the scheduler loop does to the database, from the check
    for orphans at its start through any number of iterations, is a sequence of
    the transactions of schedulers; hence, from a database within the limits, the
    loop keeps every pool, DAG and task within its limit, provided that the site's
    hook and the DAG bag keep what [HookOk] and [BagOk] say. *)
Theorem run_scheduler_loop_steps l env (ex ex' : Executor X) s s'
  (Hrun : _run_scheduler_loop dagbag dags_hash latest_hash cron_schedule hook isoformat pickle_id path cfg id
            try_adopt dag_ids l env ex s = Ok (ex', s')) :
  rtc sched_step s s' ∧ (HookOk hook → BagOk dagbag → system_ok s → system_ok s').
Proof.
  assert (rtc sched_step s s') as Hsteps.
  { unfold _run_scheduler_loop in Hrun. etrans; [apply (run_timer_steps l s OrphanedTasksCheck)|]. revert Hrun.
    generalize (run_timer cfg id try_adopt dag_ids l s OrphanedTasksCheck) as a. revert ex.
    induction env as [|[due l'] env IH]; intros ex a; cbn [scheduler_loop]; [by intros [= _ <-]|].
    intros ([[[n m] ex1] s1] & H1 & Hok)%result_bind_ok. trans s1; [by eapply loop_iteration_steps|by eapply IH]. }
  split; [done|]. intros Hh Hb. clear Hrun.
  induction Hsteps as [|a b c Hstep _ IH]; [done|]. intros Hs. by eapply IH, step_system_ok.
Qed.
End Steps.

(** ** Samples *)

Module LoopSample.
Import Sample SchedulerSample CreateSample.
Local Open Scope Z_scope.

#[local] Instance idle_backend : Backend unit.
Proof.
  refine {| execute_async := λ _ _ _ _ e, Ok e; sync := λ e, Ok e |}.
  - by intros k c q cfg e e' [= <-].
  - by intros e e' [= <-].
Defined.

#[local] Instance plain : Settings := {| ALLOW_FUTURE_EXEC_DATES := false; ti_hash := λ _, 0 |}.

Definition two_slots : Executor unit :=
  {| parallelism := 2; queued_tasks := []; running := ∅; event_buffer := []; impl := tt |}.
Definition no_locks : Locks :=
  {| locked_model := λ _, false; locked_run := λ _, false; locked_ti := λ _, false; critical_busy := false |}.
Definition config : LoopConfig :=
  {| USE_JOB_SCHEDULE := true; NUM_DAGS_PER_DAGRUN_QUERY := 10; DEFAULT_DAGRUNS_TO_EXAMINE := 20;
     max_tis_per_query := 512; scheduler_health_check_threshold := 30000000; row_by_row_updates := true |}.

Definition run_loop (n : nat) : result (Executor unit * Session) :=
  _run_scheduler_loop create_bag (λ _, None) (λ _, None) no_cron (λ t, t) (λ d, if d =? 1000 then "1000" else "1100")
    (λ _, None) (λ _, None) config 7 (λ l, l) ["diamond"] no_locks (replicate n ([CleanTisWithoutDagrun], no_locks)) two_slots due_session.

(** Two iterations create the due run and the next one, start both and queue
    the first task of each. *)
Example two_iterations :
  (λ r, (DR._state <$> dag_run r.2, (λ t, (TI.task_id t, TI.state t)) <$> List.filter active (task_instance r.2))) <$>
    run_loop 2 = Ok ([DR_RUNNING; DR_RUNNING], [("a", Some QUEUED); ("a", Some QUEUED)]).
Proof. vm_compute. reflexivity. Qed.

Definition after_two : Executor unit * Session := match run_loop 2 with Ok r => r | Err _ => (two_slots, due_session) end.

Lemma run_loop_2 : run_loop 2 = Ok (after_two.1, after_two.2).
Proof. vm_compute. reflexivity. Qed.

Lemma id_hook : HookOk (λ t, t).
Proof. by split. Qed.

Lemma create_bag_ok : BagOk create_bag.
Proof.
  assert (∀ did dag, create_bag did = Ok (Some dag) → did = "diamond" ∧ dag = every_100) as Hb.
  { unfold create_bag. intros did dag. case_bool_decide; naive_solver. }
  split.
  - by intros did dag [-> ->]%Hb.
  - intros did dag [-> ->]%Hb. apply (bool_decide_unpack _). by vm_compute.
  - intros did dag t [-> ->]%Hb Ht. cbn in Ht. repeat (apply elem_of_cons in Ht as [->|Ht]; [done|]). by apply elem_of_nil in Ht.
Qed.

Lemma due_session_ok : system_ok create_bag due_session.
Proof.
  split; [split; [apply (bool_decide_unpack _); by vm_compute|by intros r ?%elem_of_nil]|].
  split; [apply (bool_decide_unpack _); by vm_compute|]. split.
  - intros p ->%list_elem_of_singleton _. by vm_compute.
  - intros did dm Hd. unfold dag_model_of in Hd. apply List.find_some in Hd as [[<-|[]] _]. by vm_compute.
  - intros did dm dag tid task l Hd Hc. unfold dag_model_of in Hd. apply List.find_some in Hd as [[<-|[]] _]. done.
Qed.

Lemma keep_all (l : list TaskInstance) : l ⊆+ l.
Proof. done. Qed.

Lemma run_scheduler_loop_steps_witness : system_ok create_bag after_two.2.
Proof.
  refine (proj2 (run_scheduler_loop_steps create_bag (λ _, None) (λ _, None) no_cron (λ t, t)
    (λ d, if d =? 1000 then "1000" else "1100") (λ _, None) (λ _, None) config 7 _ (λ l, l) keep_all ["diamond"]
    no_locks _ two_slots after_two.1 due_session after_two.2 run_loop_2) id_hook create_bag_ok due_session_ok).
  done.
Defined.

Lemma bag_ok : BagOk bag.
Proof.
  assert (∀ did dag, bag did = Ok (Some dag) → did = "diamond" ∧ dag = limited_b) as Hb.
  { unfold bag. intros did dag. case_bool_decide; naive_solver. }
  split.
  - by intros did dag [-> ->]%Hb.
  - intros did dag [-> ->]%Hb. apply (bool_decide_unpack _). by vm_compute.
  - intros did dag t [-> ->]%Hb Ht. cbn in Ht. repeat (apply elem_of_cons in Ht as [->|Ht]; [done|]). by apply elem_of_nil in Ht.
Qed.

Lemma waiting_ok : system_ok bag waiting.
Proof.
  split; [split; [apply waiting_keys|]|].
  { intros r Hr. cbn in Hr. repeat (apply elem_of_cons in Hr as [->|Hr]; [done|]). by apply elem_of_nil in Hr. }
  split; [apply waiting_pools|]. split.
  - intros p Hp _. cbn in Hp. repeat (apply elem_of_cons in Hp as [->|Hp]; [by vm_compute|]). by apply elem_of_nil in Hp.
  - intros did dm Hd. unfold dag_model_of in Hd. apply List.find_some in Hd as [[<-|[]] E].
    apply bool_decide_eq_true in E as <-. by vm_compute.
  - intros did dm dag tid task l Hd Hc Hb Ht Hl. unfold dag_model_of in Hd. apply List.find_some in Hd as [[<-|[]] E].
    apply bool_decide_eq_true in E as <-. injection Hb as <-. apply lookup_task_Some in Ht as [Ht <-]. cbn in Ht.
    repeat (apply elem_of_cons in Ht as [->|Ht]; [cbn in Hl; simplify_eq; by vm_compute|]). by apply elem_of_nil in Ht.
Qed.
End LoopSample.
