(* ===== verification/Backfill.v ===== *)
(** * Backfill: the backfill job

    [BackfillJob] ([jobs/backfill_job.py]): the runs and task instances of the
    dates to process, the rounds that send task instances to the executor within
    the limits, the deadlock detection, the counters of the status and the loop
    over the remaining dates; [chunks] and [reduce_in_chunks]
    ([utils/helpers.py]).  Sub-DAGs are left out.

    What the workers and other jobs do to the database while a round runs the
    executor, and while the job sleeps between two passes over its dates, are
    parameters ([work] and [pause]).  Each also tells whether the user ends the
    backfill there ([KeyboardInterrupt] or [SystemExit]), which [_execute]
    handles by closing the unfinished runs; interrupts at other places are not
    modelled, nor is the end of the executor. *)

From S2P Require Import Prelude State Model Sample Graph Timetable DagRunQuery TaskInstance PoolSlots TiDeps DagRun MarkTasks Executor Scheduler SchedulerRuns SchedulerCreate SchedulerLoop.

Import TiDeps DagRun Executor SchedulerCreate.

Module Backfill.
Local Open Scope Z_scope.

(** ** The status of the job *)

Record DagRunTaskStatus := {
  to_run : list (TaskInstanceKey * TaskInstance);        (* an ordered dictionary *)
  bf_running : list (TaskInstanceKey * TaskInstance);
  bf_skipped : list TaskInstanceKey;                      (* sets *)
  bf_succeeded : list TaskInstanceKey;
  bf_failed : list TaskInstanceKey;
  not_ready : list TaskInstanceKey;
  deadlocked : list TaskInstance;
  active_runs : list DagRun;
  executed_dag_run_dates : list datetime;
  finished_runs : Z;
  total_runs : Z;
}.

Definition status_init : DagRunTaskStatus :=
  {| to_run := []; bf_running := []; bf_skipped := []; bf_succeeded := []; bf_failed := []; not_ready := [];
     deadlocked := []; active_runs := []; executed_dag_run_dates := []; finished_runs := 0; total_runs := 0 |}.

(** [set.add]. *)
Definition set_add {A} `{EqDecision A} (x : A) (l : list A) : list A := if x ∈? l then l else l ++ [x].

Definition with_dicts (tr ru : list (TaskInstanceKey * TaskInstance)) (b : DagRunTaskStatus) : DagRunTaskStatus :=
  {| to_run := tr; bf_running := ru; bf_skipped := bf_skipped b; bf_succeeded := bf_succeeded b;
     bf_failed := bf_failed b; not_ready := not_ready b; deadlocked := deadlocked b; active_runs := active_runs b;
     executed_dag_run_dates := executed_dag_run_dates b; finished_runs := finished_runs b; total_runs := total_runs b |}.

Definition with_sets (sk su fa nr : list TaskInstanceKey) (b : DagRunTaskStatus) : DagRunTaskStatus :=
  {| to_run := to_run b; bf_running := bf_running b; bf_skipped := sk; bf_succeeded := su; bf_failed := fa;
     not_ready := nr; deadlocked := deadlocked b; active_runs := active_runs b;
     executed_dag_run_dates := executed_dag_run_dates b; finished_runs := finished_runs b; total_runs := total_runs b |}.

Definition with_deadlocked (dl : list TaskInstance) (b : DagRunTaskStatus) : DagRunTaskStatus :=
  {| to_run := to_run b; bf_running := bf_running b; bf_skipped := bf_skipped b; bf_succeeded := bf_succeeded b;
     bf_failed := bf_failed b; not_ready := not_ready b; deadlocked := dl; active_runs := active_runs b;
     executed_dag_run_dates := executed_dag_run_dates b; finished_runs := finished_runs b; total_runs := total_runs b |}.

Definition with_runs (ar : list DagRun) (ed : list datetime) (fr tot : Z) (b : DagRunTaskStatus) : DagRunTaskStatus :=
  {| to_run := to_run b; bf_running := bf_running b; bf_skipped := bf_skipped b; bf_succeeded := bf_succeeded b;
     bf_failed := bf_failed b; not_ready := not_ready b; deadlocked := deadlocked b; active_runs := ar;
     executed_dag_run_dates := ed; finished_runs := fr; total_runs := tot |}.

Definition add_succeeded k b := with_sets (bf_skipped b) (set_add k (bf_succeeded b)) (bf_failed b) (not_ready b) b.
Definition add_skipped k b := with_sets (set_add k (bf_skipped b)) (bf_succeeded b) (bf_failed b) (not_ready b) b.
Definition add_failed k b := with_sets (bf_skipped b) (bf_succeeded b) (set_add k (bf_failed b)) (not_ready b) b.
Definition add_not_ready k b := with_sets (bf_skipped b) (bf_succeeded b) (bf_failed b) (set_add k (not_ready b)) b.

(** [ti_status.running.pop(key)], which raises when the key is missing, and the
    same under [if key in ti_status.running]. *)
Definition pop_running (k : TaskInstanceKey) (b : DagRunTaskStatus) : result DagRunTaskStatus :=
  if dict_in k (bf_running b) then Ok (with_dicts (to_run b) (dict_pop k (bf_running b)) b) else Err KeyError.
Definition discard_running (k : TaskInstanceKey) (b : DagRunTaskStatus) : DagRunTaskStatus :=
  with_dicts (to_run b) (dict_pop k (bf_running b)) b.
Definition pop_to_run (k : TaskInstanceKey) (b : DagRunTaskStatus) : result DagRunTaskStatus :=
  if dict_in k (to_run b) then Ok (with_dicts (dict_pop k (to_run b)) (bf_running b) b) else Err KeyError.
Definition put_to_run (k : TaskInstanceKey) (ti : TaskInstance) (b : DagRunTaskStatus) : DagRunTaskStatus :=
  with_dicts (dict_set k ti (to_run b)) (bf_running b) b.

(** The arguments of the job. *)
Record BackfillJob := {
  bf_start_date : option datetime;
  bf_end_date : option datetime;
  bf_mark_success : bool;
  ignore_first_depends_on_past : bool;
  bf_ignore_task_deps : bool;
  bf_pool : option string;
  rerun_failed_tasks : bool;
  run_backwards : bool;
  bf_id : Z;
  bf_max_tis_per_query : Z;
}.

Definition STATES_COUNT_AS_RUNNING : list (option TaskInstanceState) := [Some RUNNING; Some QUEUED].

(** ** Helpers *)

(** [chunks]: the slices of a positive size. *)
Fixpoint slices {A} (fuel n : nat) (l : list A) : list (list A) :=
  match fuel, l with
  | S fuel, _ :: _ => take n l :: slices fuel n (drop n l)
  | _, _ => []
  end.

Definition chunks {A} (items : list A) (chunk_size : Z) : result (list (list A)) :=
  if chunk_size <=? 0 then Err ValueError else Ok (slices (length items) (Z.to_nat chunk_size) items).

Definition reduce_in_chunks {A S} (fn : S → list A → S) (iterable : list A) (initializer : S) (chunk_size : Z)
    : result S :=
  match iterable with
  | [] => Ok initializer
  | _ =>
      let chunk_size := if chunk_size =? 0 then Z.of_nat (length iterable) else chunk_size in
      l ← chunks iterable chunk_size; Ok (foldl fn initializer l)
  end.

(** [DAG.get_num_active_runs] and [DAG.get_num_task_instances]. *)
Definition get_num_active_runs (dag : DAG) (external_trigger : option bool) (s : Session) : Z :=
  countb (λ dr, (DR.dag_id dr ≟ dag_id dag) && (DR._state dr ≟ DR_RUNNING) &&
                DagRunQuery.opt_filter external_trigger (λ b, Bool.eqb (DR.external_trigger dr) b)) (dag_run s).

Definition get_num_task_instances (did : string) (tids : list string) (states : list (option TaskInstanceState))
    (s : Session) : Z :=
  countb (λ t, (TI.dag_id t ≟ did) && DagRunQuery.in_filter tids (TI.task_id t) &&
               DagRunQuery.in_filter states (TI.state t)) (task_instance s).

Section Job.
Context `{Settings} `{Backend X} (dag : DAG) (job : BackfillJob)
        (cron_schedule : string → Timetable.Schedule) (hook : TaskInstance → TaskInstance)
        (isoformat : datetime → string) (pickle_id : option Z) (path cfg_path : TaskInstance → option string).

(** The state of the job: its status, the executor and the database. *)
Record Bf := { ti_status : DagRunTaskStatus; executor : Executor X; session : Session }.

Definition with_status (b : DagRunTaskStatus) (st : Bf) : Bf :=
  {| ti_status := b; executor := executor st; session := session st |}.
Definition with_session (s : Session) (st : Bf) : Bf :=
  {| ti_status := ti_status st; executor := executor st; session := s |}.
Definition with_executor (e : Executor X) (st : Bf) : Bf :=
  {| ti_status := ti_status st; executor := e; session := session st |}.

(** ** Counters *)

(** The body of the loop of [_update_counters]; the second component collects
    the task instances without a state. *)
Definition update_counter (acc : DagRunTaskStatus * list TaskInstance) (ti : TaskInstance)
    : result (DagRunTaskStatus * list TaskInstance) :=
  let '(b, tis_to_be_scheduled) := acc in
  let reduced_key := TaskInstance.reduced (TaskInstance.key ti) in
  match TI.state ti with
  | Some SUCCESS => b ← pop_running reduced_key (add_succeeded reduced_key b); Ok (b, tis_to_be_scheduled)
  | Some SKIPPED => b ← pop_running reduced_key (add_skipped reduced_key b); Ok (b, tis_to_be_scheduled)
  | Some FAILED => b ← pop_running reduced_key (add_failed reduced_key b); Ok (b, tis_to_be_scheduled)
  | Some UP_FOR_RETRY | Some UP_FOR_RESCHEDULE =>
      b ← pop_running reduced_key b; Ok (put_to_run (TaskInstance.key ti) ti b, tis_to_be_scheduled)
  | None =>
      b ← pop_running reduced_key b;
      Ok (put_to_run (TaskInstance.key ti) ti b, tis_to_be_scheduled ++ [ti])
  | _ => Ok (b, tis_to_be_scheduled)
  end.

Definition _update_counters (st : Bf) : result Bf :=
  let s := session st in
  let refreshed_tis :=
    match TaskInstance.filter_for_tis ((λ e, TI.primary e.2) <$> bf_running (ti_status st)) with
    | Some f => List.filter f (task_instance s)
    | None => []
    end in
  '(b, tis_to_be_scheduled) ← foldM update_counter refreshed_tis (ti_status st, []);
  Ok (with_session
        match TaskInstance.filter_for_tis (TI.primary <$> tis_to_be_scheduled) with
        | Some f => with_task_instance (update_where f (TI.set_state (Some SCHEDULED)) (task_instance s)) s
        | None => s
        end (with_status b st)).

(** ** What the executor reports *)

Definition manage_event (st : Bf) (ev : TaskInstanceKey * (option TaskInstanceState * option string)) : result Bf :=
  let '(k, (state, info)) := ev in
  match Executor.dict_get k (bf_running (ti_status st)) with
  | None => Ok st
  | Some ti =>
      let ti := TaskInstance.refresh_from_db ti (session st) in
      if (state ∈? [Some FAILED; Some SUCCESS]) && (TI.state ti ∈? STATES_COUNT_AS_RUNNING) then
        task ← get_task dag (TI.task_id ti);
        let '(ti, s) := TaskInstance.handle_failure task false false ti (session st) in
        Ok (with_session s (with_status (with_dicts (to_run (ti_status st)) (dict_set k ti (bf_running (ti_status st))) (ti_status st)) st))
      else Ok (with_status (with_dicts (to_run (ti_status st)) (dict_set k ti (bf_running (ti_status st))) (ti_status st)) st)
  end.

Definition _manage_executor_state (st : Bf) : result Bf :=
  let '(events, e) := get_event_buffer None (executor st) in
  foldM manage_event events (with_executor e st).

(** ** Orphans *)

Definition resettable_states : list (option TaskInstanceState) := [Some SCHEDULED; Some QUEUED].

(** The rows that may be reset: those of the run, or of every running run that
    is not a backfill. *)
Definition resettable_tis (filter_by_dag_run : option DagRun) (s : Session) : list TaskInstance :=
  match filter_by_dag_run with
  | Some dr => DagRunQuery.get_task_instances dr resettable_states (Some dag) s
  | None =>
      List.filter (λ t, (TI.state t ∈? resettable_states) &&
        existsb (λ dr, (DR.dag_id dr ≟ TI.dag_id t) && (DR.execution_date dr ≟ TI.execution_date t) &&
                       (DR._state dr ≟ DR_RUNNING) && negb (DR.run_type dr ≟ BACKFILL_JOB)) (dag_run s))
        (task_instance s)
  end.

(** The reducer: one chunk of rows is reset. *)
Definition reset_query (acc : list TaskInstance * Session) (items : list TaskInstance) : list TaskInstance * Session :=
  let '(res, s) := acc in
  match TaskInstance.filter_for_tis (TI.primary <$> items) with
  | None => (res, s)
  | Some f =>
      let reset_tis := List.filter (λ t, f t && (TI.state t ∈? resettable_states)) (task_instance s) in
      (res ++ reset_tis, foldl (λ s t, merge_ti (TI.set_state None t) s) s reset_tis)
  end.

Definition reset_state_for_orphaned_tasks (filter_by_dag_run : option DagRun) (st : Bf) : result (Z * Bf) :=
  let tis_to_reset :=
    List.filter (λ t, negb (dict_in (TaskInstance.key t) (queued_tasks (executor st))) &&
                      negb (bool_decide (TaskInstance.key t ∈ running (executor st))))
      (resettable_tis filter_by_dag_run (session st)) in
  match tis_to_reset with
  | [] => Ok (0, st)
  | _ =>
      '(reset_tis, s) ← reduce_in_chunks reset_query tis_to_reset ([], session st) (bf_max_tis_per_query job);
      Ok (Z.of_nat (length reset_tis), with_session s st)
  end.

(** ** Runs and their task instances *)

(** The run becomes a running backfill run. *)
Definition as_backfill (now run_date : datetime) (dr : DagRun) : DagRun :=
  let dr := DagRunQuery.set_dagrun_state now DR_RUNNING dr in
  {| DR.dag_id := DR.dag_id dr; DR.queued_at := DR.queued_at dr; DR.execution_date := DR.execution_date dr;
     DR.start_date := DR.start_date dr; DR.end_date := DR.end_date dr; DR._state := DR._state dr;
     DR.run_id := Some (generate_run_id BACKFILL_JOB (isoformat run_date)); DR.external_trigger := DR.external_trigger dr;
     DR.run_type := BACKFILL_JOB; DR.last_scheduling_decision := DR.last_scheduling_decision dr;
     DR.dag_hash := DR.dag_hash dr |}.

(** [_get_dag_run]: None when the limit of active runs is reached. *)
Definition _get_dag_run (run_date : datetime) (s : Session) : result (option DagRun * Session) :=
  let current_active_dag_count := get_num_active_runs dag (Some false) s in
  let run := head (DagRunQuery.find [dag_id dag] None [run_date] None None None None None false s) in
  let respect_dag_max_active_limit :=
    negb (MarkTasks.no_schedule dag) && match run with Some r => negb (DR._state r ≟ DR_RUNNING) | None => true end in
  if respect_dag_max_active_limit && (max_active_runs dag <=? current_active_dag_count) then Ok (None, s)
  else
    '(run, s) ← match run with
      | Some r => Ok (r, s)
      | None => create_dagrun hook isoformat dag DR_RUNNING (Some run_date) None (Some (utcnow s)) false
                  (Some BACKFILL_JOB) None s
      end;
    let run := as_backfill (utcnow s) run_date run in
    s ← verify_integrity dag run hook (DagRunQuery.merge_run run s);
    Ok (Some run, s).

(** The loop of [_task_instances_for_dag_run]. *)
Definition collect_ti (acc : list (TaskInstanceKey * TaskInstance) * Session) (ti : TaskInstance)
    : list (TaskInstanceKey * TaskInstance) * Session :=
  let '(m, s) := acc in
  let '(ti, s) := if TI.state ti ≟ None then TaskInstance.set_state (Some SCHEDULED) ti s else (ti, s) in
  (if TI.state ti ≟ Some REMOVED then m else dict_set (TaskInstance.key ti) ti m, s).

Definition _task_instances_for_dag_run (dag_run : DagRun) (st : Bf)
    : result (list (TaskInstanceKey * TaskInstance) * Bf) :=
  '(_, st) ← reset_state_for_orphaned_tasks (Some dag_run) st;
  let '(m, s) := foldl collect_ti ([], session st)
                   (DagRunQuery.get_task_instances dag_run [] (Some dag) (session st)) in
  Ok (m, with_session s st).

(** ** One round *)

Definition backfill_context (ignore_depends_on_past' : bool) : DepContext :=
  {| dc_deps := BACKFILL_QUEUED_DEPS; flag_upstream_failed := true; ignore_all_deps := false;
     ignore_depends_on_past := ignore_depends_on_past'; ignore_in_retry_period := false;
     ignore_in_reschedule_period := false; ignore_task_deps := bf_ignore_task_deps job;
     ignore_ti_state := false; finished_tasks := None |}.

Definition backfill_command (ignore_depends_on_past' : bool) (ti : TaskInstance) (pool : string) : list string :=
  TaskInstance.generate_command isoformat (TI.dag_id ti) (TI.task_id ti) (TI.execution_date ti)
    {| TaskInstance.mark_success := bf_mark_success job; TaskInstance.arg_ignore_all_deps := false;
       TaskInstance.arg_ignore_depends_on_past := ignore_depends_on_past';
       TaskInstance.arg_ignore_task_deps := bf_ignore_task_deps job; TaskInstance.arg_ignore_ti_state := false;
       TaskInstance.local := true; TaskInstance.pickle_id := pickle_id;
       TaskInstance.file_path := path ti; TaskInstance.raw := false;
       TaskInstance.arg_job_id := None; TaskInstance.arg_pool := Some pool;
       TaskInstance.cfg_path := cfg_path ti |}.

(** The task instance is queued in the database. *)
Definition bf_queue (now : datetime) (ti : TaskInstance) : TaskInstance :=
  TI.set_queued (Some now) (Some (bf_id job)) (TI.set_state (Some QUEUED) ti).

(** The end of [_per_task_process]: a task instance with no terminal state. *)
Definition check_and_queue (key : TaskInstanceKey) (task : BaseOperator) (ti : TaskInstance)
    (ignore_depends_on_past' : bool) (st : Bf) : result Bf :=
  '(met, ds) ← are_dependencies_met dag task (session st)
                 {| ds_ti := ti; ds_merged := false; ds_context := backfill_context ignore_depends_on_past' |};
  let ti := ds_ti ds in
  let st := with_session (commit_ti (ds_merged ds) ti (session st)) st in
  let b := ti_status st in
  if (met : bool) then
    if executor_has_task ti (executor st) then Ok st
    else
      let ti := bf_queue (utcnow (session st)) ti in
      e ← queue_task_instance (backfill_command ignore_depends_on_past') dag task ti (bf_pool job) (executor st);
      b ← pop_to_run key (with_dicts (to_run b) (dict_set key ti (bf_running b)) b);
      Ok {| ti_status := b; executor := e; session := merge_ti ti (session st) |}
  else if TI.state ti ≟ Some UPSTREAM_FAILED then
    b ← pop_to_run key (add_failed key b); Ok (with_status (discard_running key b) st)
  else if (TI.state ti ≟ Some UP_FOR_RETRY) || (TI.state ti ≟ Some UP_FOR_RESCHEDULE) then
    Ok (with_status (put_to_run key ti (discard_running key b)) st)
  else Ok (with_status (add_not_ready key b) st).

(** [_per_task_process]; [start_date] is the start date of the backfill. *)
Definition _per_task_process (start_date : option datetime) (key : TaskInstanceKey) (ti : TaskInstance) (st : Bf)
    : result Bf :=
  let ti := TaskInstance.refresh_from_db ti (session st) in
  let b := ti_status st in
  task ← get_task dag (TI.task_id ti);
  let ignore_depends_on_past' :=
    ignore_first_depends_on_past job &&
    match start_date with
    | Some d => TI.execution_date ti ≟ d
    | None => Some (TI.execution_date ti) ≟ TI.start_date ti
    end in
  if TI.state ti ≟ Some SUCCESS then
    b ← pop_to_run key (add_succeeded key b); Ok (with_status (discard_running key b) st)
  else if TI.state ti ≟ Some SKIPPED then
    b ← pop_to_run key (add_skipped key b); Ok (with_status (discard_running key b) st)
  else
    let '(ti, s) := if TI.state ti ≟ None then TaskInstance.set_state (Some SCHEDULED) ti (session st)
                    else (ti, session st) in
    let st := with_session s st in
    if TI.state ti ∈? [Some FAILED; Some UPSTREAM_FAILED] then
      if rerun_failed_tasks job then
        let '(ti, s) := TaskInstance.set_state (Some SCHEDULED) ti s in
        check_and_queue key task ti ignore_depends_on_past'
          (with_session s (with_status (discard_running key b) st))
      else b ← pop_to_run key (add_failed key b); Ok (with_status (discard_running key b) st)
    else check_and_queue key task ti ignore_depends_on_past' st.

(** The limits that are checked before each task instance. *)
Definition check_limits (task : BaseOperator) (s : Session) : result unit :=
  match PoolSlots.get_pool (op_pool task) s with
  | None => Err PoolNotFound
  | Some pool =>
      if match PoolSlots.open_slots pool s with Fin n => n <=? 0 | Inf => false end then Err NoAvailablePoolSlot
      else if max_active_tasks dag <=? get_num_task_instances (dag_id dag) [] STATES_COUNT_AS_RUNNING s
      then Err DagConcurrencyLimitReached
      else match task_concurrency task with
           | Some n =>
               if negb (n =? 0) &&
                  (n <=? get_num_task_instances (dag_id dag) [task_id task] STATES_COUNT_AS_RUNNING s)
               then Err TaskConcurrencyLimitReached else Ok tt
           | None => Ok tt
           end
  end.

Definition limit_reached (e : exn) : bool :=
  e ∈? [NoAvailablePoolSlot; DagConcurrencyLimitReached; TaskConcurrencyLimitReached].

(** The inner loop over the task instances of one task: the flag tells that a
    limit ended the round. *)
Fixpoint task_items (start_date : option datetime) (task : BaseOperator) (items : list (TaskInstanceKey * TaskInstance))
    (st : Bf) : result (bool * Bf) :=
  match items with
  | [] => Ok (false, st)
  | (key, ti) :: items =>
      if negb (task_id task ≟ TI.task_id ti) then task_items start_date task items st
      else
        match check_limits task (session st) with
        | Err e => if limit_reached e then Ok (true, st) else Err e
        | Ok _ => st ← _per_task_process start_date key ti st; task_items start_date task items st
        end
  end.

Fixpoint task_round (start_date : option datetime) (tasks : list BaseOperator) (st : Bf) : result Bf :=
  match tasks with
  | [] => Ok st
  | task :: tasks =>
      '(stop, st) ← task_items start_date task (to_run (ti_status st)) st;
      if (stop : bool) then Ok st else task_round start_date tasks st
  end.

(** The deadlock test at the end of the round. *)
Definition detect_deadlock (b : DagRunTaskStatus) : DagRunTaskStatus :=
  let same := forallb (λ k, k ∈? (fst <$> to_run b)) (not_ready b) && forallb (λ k, k ∈? not_ready b) (fst <$> to_run b) in
  if negb (Graph.is_nil (not_ready b)) && same && Graph.is_nil (bf_running b)
  then with_dicts [] (bf_running b) (with_deadlocked (deadlocked b ++ (snd <$> to_run b)) b)
  else b.

(** The loop over a copy of the active runs: a finished one is removed and its
    date kept.  The accumulator holds the dates, the runs that stay, and the
    state. *)
Definition update_run (acc : list datetime * list DagRun * Bf) (run : DagRun) : result (list datetime * list DagRun * Bf) :=
  let '(dates, kept, st) := acc in
  r ← update_state dag run true (session st);
  let st := with_session (commit (ur_objs r) (ur_session r)) st in
  let b := ti_status st in
  Ok (if Some (DagRunState_as_ti (DR._state (ur_run r))) ∈? State.finished then
        (dates ++ [DR.execution_date run], kept,
         with_status (with_runs (active_runs b) (executed_dag_run_dates b) (finished_runs b + 1) (total_runs b) b) st)
      else (dates, kept ++ [ur_run r], st)).

Definition update_runs (dates : list datetime) (st : Bf) : result (list datetime * Bf) :=
  '(dates, kept, st) ← foldM update_run (active_runs (ti_status st)) (dates, [], st);
  let b := ti_status st in
  Ok (dates, with_status (with_runs kept (executed_dag_run_dates b) (finished_runs b) (total_runs b) b) st).

(** [_process_backfill_task_instances]; [work] is what happens to the database
    while the round runs its executor, and whether the user ends the backfill
    then.  First the part of a round before the runs are updated; the flag of the
    result tells of such an end. *)
Definition process_tasks (start_date : option datetime) (work : Session → Session * bool) (st : Bf)
    : result (bool * Bf) :=
  let b := ti_status st in
  let st := with_status (with_sets (bf_skipped b) (bf_succeeded b) (bf_failed b) [] b) st in
  tasks ← Graph.topological_sort dag;
  st ← task_round start_date tasks st;
  e ← heartbeat (executor st);
  let '(s, stop) := work (session st) in
  let st := with_session s (with_executor e st) in
  if (stop : bool) then Ok (true, st)
  else
    let st := with_status (detect_deadlock (ti_status st)) st in
    st ← _manage_executor_state st;
    st ← _update_counters st;
    Ok (false, st).

Definition process_round (start_date : option datetime) (work : Session → Session * bool) (dates : list datetime)
    (st : Bf) : result (bool * list datetime * Bf) :=
  '(stop, st) ← process_tasks start_date work st;
  if (stop : bool) then Ok (true, dates, st)
  else '(dates, st) ← update_runs dates st; Ok (false, dates, st).

Fixpoint process_loop (start_date : option datetime) (fuel : nat) (work : nat → Session → Session * bool)
    (dates : list datetime) (st : Bf) : result (bool * list datetime * nat * Bf) :=
  let b := ti_status st in
  if (negb (Graph.is_nil (to_run b)) || negb (Graph.is_nil (bf_running b))) && Graph.is_nil (deadlocked b) then
    match fuel with
    | O => Err OutOfFuel
    | S fuel =>
        '(stop, dates, st) ← process_round start_date (work fuel) dates st;
        if (stop : bool) then Ok (true, dates, fuel, st) else process_loop start_date fuel work dates st
    end
  else Ok (false, dates, fuel, st).

(** ** The loop over the dates *)

Definition add_run (st : Bf) (run_date : datetime) : result Bf :=
  '(dr, s) ← _get_dag_run run_date (session st);
  match dr with
  | None => Ok (with_session s st)
  | Some dr =>
      '(tis_map, st) ← _task_instances_for_dag_run dr (with_session s st);
      let b := ti_status st in
      let b := with_dicts (foldl (λ d e, dict_set e.1 e.2 d) (to_run b) tis_map) (bf_running b) b in
      Ok (with_status (with_runs (active_runs b ++ [dr]) (executed_dag_run_dates b) (finished_runs b) (total_runs b) b) st)
  end.

Definition _execute_for_run_dates (start_date : option datetime) (fuel : nat) (work : nat → Session → Session * bool)
    (run_dates : list datetime) (st : Bf) : result (bool * nat * Bf) :=
  st ← foldM add_run run_dates st;
  '(stop, dates, fuel, st) ← process_loop start_date fuel work [] st;
  let b := ti_status st in
  if (stop : bool) then Ok (true, fuel, st)
  else Ok (false, fuel, with_status (with_runs (active_runs b) (foldl (λ l d, set_add d l) (executed_dag_run_dates b) dates)
               (finished_runs b) (total_runs b) b) st).

(** [_collect_errors]: whether there is an error to report. *)
Definition _collect_errors (b : DagRunTaskStatus) : bool :=
  negb (Graph.is_nil (bf_failed b)) || negb (Graph.is_nil (deadlocked b)).

Definition remaining_dates (b : DagRunTaskStatus) : Z :=
  total_runs b - Z.of_nat (length (executed_dag_run_dates b)).

(** The dates without an executed run. *)
Definition dates_to_process (run_dates : list datetime) (st : Bf) : list datetime :=
  List.filter (λ d, negb (d ∈? executed_dag_run_dates (ti_status st))) run_dates.

(** The sleep of [delay_on_limit_secs], when dates remain. *)
Definition sleep_on_limit (pause : Session → Session * bool) (st : Bf) : bool * Bf :=
  if 0 <? remaining_dates (ti_status st) then
    let '(s, stop) := pause (session st) in (stop, with_session s st)
  else (false, st).

(** The loop of [_execute]; the flag of the result tells that the user ended the
    backfill. *)
Fixpoint dates_loop (rounds fuel : nat) (work pause : nat → Session → Session * bool) (run_dates : list datetime)
    (st : Bf) : result (bool * Bf) :=
  if 0 <? remaining_dates (ti_status st) then
    match rounds with
    | O => Err OutOfFuel
    | S rounds =>
        '(stop, fuel, st) ← _execute_for_run_dates (bf_start_date job) fuel work (dates_to_process run_dates st) st;
        if (stop : bool) then Ok (true, st)
        else if _collect_errors (ti_status st) then Err BackfillUnfinished
        else
          let '(stop, st) := sleep_on_limit (pause rounds) st in
          if (stop : bool) then Ok (true, st) else dates_loop rounds fuel work pause run_dates st
    end
  else Ok (false, st).

(** [_set_unfinished_dag_runs_to_failed], when the user ends the backfill. *)
Definition fail_unfinished (s : Session) (dr : DagRun) : result Session :=
  r ← update_state dag dr true s;
  let s := commit (ur_objs r) (ur_session r) in
  let dr := ur_run r in
  Ok (DagRunQuery.merge_run
        (if Some (DagRunState_as_ti (DR._state dr)) ∈? State.finished then dr
         else DagRunQuery.set_dagrun_state (utcnow s) DR_FAILED dr) s).

Definition _set_unfinished_dag_runs_to_failed (dag_runs : list DagRun) (s : Session) : result Session :=
  foldM fail_unfinished dag_runs s.

(** [_execute]; the fuel bounds the rounds over the dates and over the tasks, and
    the dates of the timetable.  The flag of the result tells that the user ended
    the backfill, which then returns all the same. *)
Definition backfill_execute (fuel rounds : nat) (work pause : nat → Session → Session * bool) (e : Executor X)
    (s : Session) : result (list datetime * bool * Bf) :=
  run_dates ← Timetable.get_run_dates cron_schedule fuel dag (utcnow s) (bf_start_date job) (bf_end_date job) true;
  if run_backwards job && existsb depends_on_past (task_dict dag) then Err AirflowException
  else
    let run_dates := if run_backwards job then rev run_dates else run_dates in
    let st := {| ti_status := status_init; executor := e; session := s |} in
    match run_dates with
    | [] => Ok (run_dates, false, st)
    | _ =>
        let st := with_status (with_runs [] [] 0 (Z.of_nat (length run_dates)) status_init) st in
        '(stop, st) ← dates_loop rounds fuel work pause run_dates st;
        if (stop : bool) then
          s ← _set_unfinished_dag_runs_to_failed (active_runs (ti_status st)) (session st);
          Ok (run_dates, true, with_session s st)
        else Ok (run_dates, false, st)
    end.
End Job.
End Backfill.
Import Graph Timetable TaskInstance Scheduler SchedulerLoop Backfill.

Section BackfillFacts.
Local Open Scope Z_scope.
Context `{Settings} `{Backend X} (dag : DAG) (job : BackfillJob)
        (cron_schedule : string → Timetable.Schedule) (hook : TaskInstance → TaskInstance)
        (isoformat : datetime → string) (pickle_id : option Z) (path cfg_path : TaskInstance → option string).
Implicit Types (st : Bf (X:=X)) (b : DagRunTaskStatus) (s : Session).

(** ** What the work on task instances leaves alone: the runs *)

Definition runs_of b : list DagRun * list datetime * Z := (active_runs b, executed_dag_run_dates b, total_runs b).

Definition held st : list DagRun * list datetime * Z * list DagRun :=
  (runs_of (ti_status st), dag_run (session st)).

Lemma dag_run_merge_ti t s : dag_run (merge_ti t s) = dag_run s.
Proof. unfold merge_ti. by destruct (existsb _ _). Qed.

Lemma dag_run_merge_fold (f : TaskInstance → TaskInstance) l s :
  dag_run (foldl (λ s t, merge_ti (f t) s) s l) = dag_run s.
Proof. apply (foldl_invariant (λ s', dag_run s' = dag_run s)); [|done]. intros t a _ <-. apply dag_run_merge_ti. Qed.

Lemma dag_run_commit objs s : dag_run (commit objs s) = dag_run s.
Proof. unfold commit. apply (foldl_invariant (λ s', dag_run s' = dag_run s)); [|done]. by intros a x _ <-. Qed.

Lemma pop_running_runs k b b' : pop_running k b = Ok b' → runs_of b' = runs_of b.
Proof. unfold pop_running. by destruct (dict_in _ _); intros [= <-]. Qed.

Lemma pop_to_run_runs k b b' : pop_to_run k b = Ok b' → runs_of b' = runs_of b.
Proof. unfold pop_to_run. by destruct (dict_in _ _); intros [= <-]. Qed.

Lemma update_counter_runs acc ti acc' : update_counter acc ti = Ok acc' → runs_of acc'.1 = runs_of acc.1.
Proof.
  unfold update_counter. destruct acc as [b tis]. destruct (TI.state ti) as [[]|]; try (by intros [= <-]);
    intros (b' & Hp%pop_running_runs & [= <-])%result_bind_ok; done.
Qed.

Lemma update_counters_runs st st' : _update_counters st = Ok st' → held st' = held st.
Proof.
  unfold _update_counters. intros ([b tis] & Hf & [= <-])%result_bind_ok.
  assert (runs_of ((b, tis).1) = runs_of (ti_status st)) as Hr.
  { refine (foldM_invariant (λ x, runs_of x.1 = runs_of (ti_status st)) _ _ _ (b, tis) _ _ Hf); [|done].
    intros ti a a' _ Ha Hu. by rewrite (update_counter_runs _ _ _ Hu). }
  cbn [fst] in Hr. unfold held. cbn [ti_status session with_session with_status]. rewrite Hr.
  by destruct (filter_for_tis (TI.primary <$> tis)).
Qed.

Lemma manage_event_runs st ev st' : manage_event dag st ev = Ok st' → held st' = held st.
Proof.
  unfold manage_event. destruct ev as [k [state info]]. destruct (Executor.dict_get _ _) as [ti|]; [|by intros [= <-]].
  destruct (_ && _); [|by intros [= <-]]. intros (task & _ & Hok)%result_bind_ok.
  destruct (handle_failure _ _ _ _ _) as [ti' s] eqn:E. injection Hok as <-. unfold handle_failure in E. injection E as _ <-.
  unfold held. cbn. by rewrite dag_run_merge_ti.
Qed.

Lemma manage_executor_runs st st' : _manage_executor_state dag st = Ok st' → held st' = held st.
Proof.
  unfold _manage_executor_state. destruct (get_event_buffer _ _) as [events e]. intros Hf.
  refine (foldM_invariant (λ x, held x = held st) _ _ _ st' _ _ Hf); [|done].
  intros ev a a' _ Ha Hm. by rewrite (manage_event_runs _ _ _ Hm).
Qed.

Lemma held_intro st st' : runs_of (ti_status st') = runs_of (ti_status st) → dag_run (session st') = dag_run (session st) →
  held st' = held st.
Proof. unfold held. congruence. Qed.

Lemma check_and_queue_runs k task ti ig st st' :
  check_and_queue dag job isoformat pickle_id path cfg_path k task ti ig st = Ok st' → held st' = held st.
Proof.
  unfold check_and_queue. intros ([met ds] & _ & Hok)%result_bind_ok.
  set (s1 := commit_ti _ _ _) in Hok.
  assert (dag_run s1 = dag_run (session st)) as Hs1.
  { unfold s1, commit_ti. destruct (ds_merged ds); [apply dag_run_merge_ti|done]. }
  destruct met.
  - destruct (executor_has_task _ _); [by injection Hok as <-; apply held_intro|]. apply result_bind_ok in Hok as (e & _ & Hok).
    apply result_bind_ok in Hok as (b & Hp%pop_to_run_runs & [= <-]). apply held_intro; [done|]. cbn [session].
    by rewrite dag_run_merge_ti.
  - destruct (_ ≟ _); [apply result_bind_ok in Hok as (b & Hp%pop_to_run_runs & [= <-]); by apply held_intro|].
    destruct (_ || _); injection Hok as <-; by apply held_intro.
Qed.

Lemma per_task_runs sd k ti st st' :
  _per_task_process dag job isoformat pickle_id path cfg_path sd k ti st = Ok st' → held st' = held st.
Proof.
  unfold _per_task_process. intros (task & _ & Hok)%result_bind_ok.
  do 2 (destruct (_ ≟ _) in Hok; [apply result_bind_ok in Hok as (b & Hp%pop_to_run_runs & [= <-]); by apply held_intro|]).
  destruct (if _ ≟ _ then _ else _) as [ti' s] eqn:E in Hok.
  assert (dag_run s = dag_run (session st)) as Hs.
  { destruct (_ ≟ _) in E; injection E as _ <-; [apply dag_run_merge_ti|done]. }
  destruct (_ ∈? _) in Hok; [|apply check_and_queue_runs in Hok; rewrite Hok; by apply held_intro].
  destruct (rerun_failed_tasks job).
  - destruct (set_state _ _ _) as [ti2 s2] eqn:E2. apply check_and_queue_runs in Hok. rewrite Hok. apply held_intro; [done|].
    injection E2 as _ <-. cbn [session with_session]. by rewrite dag_run_merge_ti.
  - apply result_bind_ok in Hok as (b & Hp%pop_to_run_runs & [= <-]). by apply held_intro.
Qed.

Lemma task_items_runs sd task items st r :
  task_items dag job isoformat pickle_id path cfg_path sd task items st = Ok r → held r.2 = held st.
Proof.
  revert st. induction items as [|[k ti] items IH]; intros st; cbn [task_items]; [by intros [= <-]|].
  destruct (negb _); [apply IH|]. destruct (check_limits _ _ _) as [?|e].
  - intros (st1 & Hp%per_task_runs & Hi%IH)%result_bind_ok. congruence.
  - destruct (limit_reached e); [|done]. by intros [= <-].
Qed.

Lemma task_round_runs sd tasks st st' :
  task_round dag job isoformat pickle_id path cfg_path sd tasks st = Ok st' → held st' = held st.
Proof.
  revert st. induction tasks as [|task tasks IH]; intros st; cbn [task_round]; [by intros [= <-]|].
  intros ([stop st1] & Hi%task_items_runs & Hok)%result_bind_ok. cbn [snd] in Hi.
  destruct stop; [by injection Hok as <-|]. apply IH in Hok. congruence.
Qed.

Lemma verify_integrity_runs dr s s' : verify_integrity dag dr hook s = Ok s' → dag_run s' = dag_run s.
Proof.
  unfold verify_integrity. intros Hf.
  refine (foldM_invariant (λ x, dag_run x = dag_run s) _ _ _ s' _ _ Hf); [|by rewrite dag_run_merge_fold].
  intros task a b _ <- Hc. unfold create_missing in Hc. destruct (op_start_date task); [|done].
  destruct (_ && _); [by injection Hc as <-|]. destruct (_ ∈? _); [by injection Hc as <-|].
  by apply result_bind_ok in Hc as (ti & _ & [= <-]).
Qed.

(** ** The rows of the runs *)

(** No run of the database is deleted. *)
Definition keeps_runs s s' : Prop := run_key <$> dag_run s ⊆ run_key <$> dag_run s'.

#[local] Instance keeps_runs_preorder : PreOrder keeps_runs.
Proof. unfold keeps_runs. split; [by intros s|]. intros s1 s2 s3 H1 H2. by etrans. Qed.

(** The database has a finished run of the DAG for the date. *)
Definition finished_row s (d : datetime) : Prop :=
  ∃ dr, dr ∈ dag_run s ∧ DR.dag_id dr = dag_id dag ∧ DR.execution_date dr = d ∧
        Some (DagRunState_as_ti (DR._state dr)) ∈ State.finished.

Lemma keeps_eq s s' : dag_run s' = dag_run s → keeps_runs s s'.
Proof. intros E. unfold keeps_runs. by rewrite E. Qed.

Lemma merge_run_keys dr s : run_key <$> dag_run (DagRunQuery.merge_run dr s) = run_key <$> dag_run s.
Proof.
  unfold DagRunQuery.merge_run, update_where. cbn [dag_run with_dag_run]. rewrite <-list_fmap_compose.
  apply list_fmap_ext. intros i r _. cbn [compose]. destruct (DagRunQuery.same_run dr r) eqn:E; [|done].
  by apply same_run_key.
Qed.

Lemma merge_run_row dr s : run_key dr ∈ run_key <$> dag_run s → dr ∈ dag_run (DagRunQuery.merge_run dr s).
Proof.
  intros (r & E & Hr)%list_elem_of_fmap. unfold DagRunQuery.merge_run. cbn [dag_run with_dag_run].
  apply elem_of_update_where. exists r. split; [done|]. by rewrite (proj2 (same_run_key dr r)).
Qed.

(** Merging a run changes the rows of other dates as little as those it is not
    for. *)
Lemma merge_run_finished dr s d : DR.dag_id dr = dag_id dag →
  finished_row s d → DR.execution_date dr ≠ d → finished_row (DagRunQuery.merge_run dr s) d.
Proof.
  intros Hid (r & Hr & H1 & H2 & H3) Hne. exists r. split; [|done]. unfold DagRunQuery.merge_run. cbn [dag_run with_dag_run].
  apply elem_of_update_where. exists r. split; [done|]. destruct (DagRunQuery.same_run dr r) eqn:E; [|done].
  apply same_run_key in E. injection E as _ E. congruence.
Qed.

(** What updating the state of a run does to the runs of the database. *)
Lemma update_state_run dr ec s r : update_state dag dr ec s = Ok r →
  run_key (ur_run r) = run_key dr ∧ ∃ s1, dag_run s1 = dag_run s ∧ ur_session r = DagRunQuery.merge_run (ur_run r) s1.
Proof.
  unfold update_state. intros ([info s1] & Hi & Hok)%result_bind_ok. apply result_bind_ok in Hok as (tasks & _ & Hok).
  apply result_bind_ok in Hok as ([rn objs] & _ & Hok). apply result_bind_ok in Hok as (lv & _ & Hok).
  destruct (verdict _ _ _ _ _ _) as [state cb]. injection Hok as <-. cbn [ur_run ur_session]. split.
  - unfold DagRunQuery.set_dagrun_state. by destruct (_ ≟ _).
  - exists s1. split; [|done]. unfold task_instance_scheduling_decisions in Hi.
    destruct (load_tis dag dr s) as [objs' s2] eqn:El. apply result_bind_ok in Hi as ([[re ch] ob] & _ & [= _ <-]).
    change s2 with ((objs', s2).2). rewrite <-El. unfold load_tis.
    apply (foldl_invariant (λ x, dag_run x.2 = dag_run s)); [|done]. intros t [o x] _ <-. unfold mark_removed.
    destruct (has_task dag _); cbn [snd]; [done|]. unfold TaskInstance.set_state. repeat case_match; simplify_eq/=; by rewrite ?dag_run_merge_ti.
Qed.

(** Updating a run that has a row: other rows keep their dates, and a finished
    run gets a finished row. *)
Lemma update_state_rows dr s r : update_state dag dr true s = Ok r →
  keeps_runs s (commit (ur_objs r) (ur_session r)) ∧
  (run_key dr ∈ run_key <$> dag_run s → ur_run r ∈ dag_run (commit (ur_objs r) (ur_session r))) ∧
  (DR.dag_id dr = dag_id dag → ∀ d, d ≠ DR.execution_date dr → finished_row s d →
     finished_row (commit (ur_objs r) (ur_session r)) d).
Proof.
  intros (Hk & s1 & Hs1 & ->)%update_state_run. unfold keeps_runs, finished_row. rewrite dag_run_commit.
  rewrite merge_run_keys, Hs1. split; [done|]. split.
  - intros Hin. apply merge_run_row. by rewrite Hk, Hs1.
  - intros Hid d Hd Hf. apply (merge_run_finished (ur_run r) s1); injection Hk as K1 K2; [congruence| |congruence].
    unfold finished_row. by rewrite Hs1.
Qed.

(** ** The dates that are done *)

(** A run that the job holds: a run of the DAG for one of the dates [L], with a
    row in the database. *)
Definition held_run (L : list datetime) s (dr : DagRun) : Prop :=
  DR.dag_id dr = dag_id dag ∧ DR.execution_date dr ∈ L ∧ run_key dr ∈ run_key <$> dag_run s.

Definition runs_held (L : list datetime) st : Prop := Forall (held_run L (session st)) (active_runs (ti_status st)).

Lemma held_run_keeps L s s' dr : keeps_runs s s' → held_run L s dr → held_run L s' dr.
Proof. intros Hk (H1 & H2 & H3). split_and!; auto. Qed.

Lemma runs_held_keeps L st st' : active_runs (ti_status st') = active_runs (ti_status st) →
  keeps_runs (session st) (session st') → runs_held L st → runs_held L st'.
Proof. intros E Hk Hr. unfold runs_held. rewrite E. eapply Forall_impl; [exact Hr|]. intros dr. by apply held_run_keeps. Qed.

Section Rounds.
Context (work pause : nat → Session → Session * bool)
        (Hwork : ∀ n s, keeps_runs s (work n s).1) (Hpause : ∀ n s, keeps_runs s (pause n s).1).

#[local] Abbreviation tasks_part := (process_tasks dag job isoformat pickle_id path cfg_path (bf_start_date job)).
#[local] Abbreviation round_of := (process_round dag job isoformat pickle_id path cfg_path (bf_start_date job)).
#[local] Abbreviation loop_of := (process_loop dag job isoformat pickle_id path cfg_path (bf_start_date job)).

(** A round from [st] ran the date: when it came to update the runs, in the
    order of the status, it found the run of the date finished, and this is what
    the database then says. *)
Definition round_ran (w : Session → Session * bool) (dates : list datetime) st (d : datetime) : Prop :=
  ∃ st1 pre run post acc acc',
    tasks_part w st = Ok (false, st1) ∧ active_runs (ti_status st1) = pre ++ run :: post ∧
    foldM (update_run dag) pre (dates, [], st1) = Ok acc ∧ update_run dag acc run = Ok acc' ∧
    DR.execution_date run = d ∧ finished_row (session acc'.2) d.

(** A round of the loop that starts in [st] ran the date. *)
Inductive loop_ran : nat → list datetime → Bf (X:=X) → datetime → Prop :=
| loop_ran_here fuel dates st d : round_ran (work fuel) dates st d → loop_ran (S fuel) dates st d
| loop_ran_later fuel dates st dates1 st1 d :
    round_of (work fuel) dates st = Ok (false, dates1, st1) → loop_ran fuel dates1 st1 d → loop_ran (S fuel) dates st d.

(** A round of the backfill over the dates [L] ran the date. *)
Inductive backfill_ran (L : list datetime) : nat → nat → Bf (X:=X) → datetime → Prop :=
| ran_in_pass rounds fuel st st1 d :
    foldM (add_run dag job hook isoformat) (dates_to_process L st) st = Ok st1 →
    loop_ran fuel [] st1 d → backfill_ran L (S rounds) fuel st d
| ran_in_later_pass rounds fuel st fuel1 st1 st2 d :
    _execute_for_run_dates dag job hook isoformat pickle_id path cfg_path (bf_start_date job) fuel work
      (dates_to_process L st) st = Ok (false, fuel1, st1) →
    sleep_on_limit (pause rounds) st1 = (false, st2) →
    backfill_ran L rounds fuel1 st2 d → backfill_ran L (S rounds) fuel st d.

Lemma process_tasks_held w st stop st' : (∀ s, keeps_runs s (w s).1) → tasks_part w st = Ok (stop, st') →
  runs_of (ti_status st') = runs_of (ti_status st) ∧ keeps_runs (session st) (session st').
Proof.
  intros Hw. unfold process_tasks. intros (tasks & _ & Hp)%result_bind_ok.
  apply result_bind_ok in Hp as (st1 & H1%task_round_runs & Hp). apply result_bind_ok in Hp as (e & _ & Hp).
  injection H1 as R1 R2 R3 R4. specialize (Hw (session st1)). destruct (w (session st1)) as [s b]. cbn [fst] in Hw.
  assert (keeps_runs (session st) s) as Hks by (unfold keeps_runs in *; by rewrite <-R4).
  destruct b; [injection Hp as <- <-; split; [unfold runs_of; cbn; congruence|done]|].
  apply result_bind_ok in Hp as (st2 & H2%manage_executor_runs & Hp).
  apply result_bind_ok in Hp as (st3 & H3%update_counters_runs & [= <- <-]). rewrite <-H3 in H2. clear H3.
  injection H2 as Q1 Q2 Q3 Q4. split.
  - unfold runs_of. rewrite Q1, Q2, Q3. cbn [ti_status with_status with_session with_executor].
    unfold detect_deadlock. case_match; cbn; congruence.
  - unfold keeps_runs in *. by rewrite Q4.
Qed.

Lemma update_run_step L (acc acc' : list datetime * list DagRun * Bf (X:=X)) run :
  update_run dag acc run = Ok acc' → held_run L (session acc.2) run →
  runs_of (ti_status acc'.2) = runs_of (ti_status acc.2) ∧ keeps_runs (session acc.2) (session acc'.2) ∧
  ((acc'.1.1 = acc.1.1 ∧ ∃ run', acc'.1.2 = acc.1.2 ++ [run'] ∧ run_key run' = run_key run) ∨
   (acc'.1.1 = acc.1.1 ++ [DR.execution_date run] ∧ acc'.1.2 = acc.1.2 ∧
    finished_row (session acc'.2) (DR.execution_date run))).
Proof.
  destruct acc as [[dates kept] st]. unfold update_run. intros (r & Hr & [= <-])%result_bind_ok (H1 & H2 & H3). cbn [fst snd] in *.
  destruct (update_state_rows _ _ _ Hr) as (K1 & K2 & _). destruct (update_state_run _ _ _ _ Hr) as [E _].
  case_bool_decide as Efin; cbn [fst snd ti_status session with_session with_status]; (split; [done|]); (split; [done|]).
  - right. split; [done|]. split; [done|]. exists (ur_run r). split; [by apply K2|]. injection E as E1 E2. split_and!; [congruence|done|done].
  - left. split; [done|]. exists (ur_run r). done.
Qed.

(** The runs are updated: every date that is added was ran in this round. *)
Lemma update_runs_ran L w dates st st1 dates' st' :
  tasks_part w st = Ok (false, st1) → update_runs dag dates st1 = Ok (dates', st') → runs_held L st1 →
  runs_held L st' ∧ keeps_runs (session st1) (session st') ∧
  executed_dag_run_dates (ti_status st') = executed_dag_run_dates (ti_status st1) ∧
  total_runs (ti_status st') = total_runs (ti_status st1) ∧
  ∀ d, d ∈ dates' → d ∈ dates ∨ d ∈ L ∧ round_ran w dates st d.
Proof.
  intros Ht. unfold update_runs. intros ([[ds kept] st2] & Hf & [= <- <-])%result_bind_ok Hheld.
  assert (∀ pre post acc, active_runs (ti_status st1) = pre ++ post → foldM (update_run dag) pre (dates, [], st1) = Ok acc →
    runs_of (ti_status acc.2) = runs_of (ti_status st1) ∧ keeps_runs (session st1) (session acc.2) ∧
    Forall (held_run L (session acc.2)) acc.1.2 ∧ ∀ d, d ∈ acc.1.1 → d ∈ dates ∨ d ∈ L ∧ round_ran w dates st d) as Hall.
  { induction pre as [|run pre IH] using rev_ind; intros post acc Ea Hacc; [injection Hacc as <-; split_and!; [done|done|constructor|by left]|].
    rewrite foldM_app in Hacc. apply result_bind_ok in Hacc as (a & Ha & Hu). cbn [foldM] in Hu.
    apply result_bind_ok in Hu as (? & Hu & [= ->]). rewrite <-app_assoc in Ea. cbn [app] in Ea.
    destruct (IH _ _ Ea Ha) as (I1 & I2 & I3 & I4).
    assert (held_run L (session a.2) run) as Hrun.
    { eapply held_run_keeps; [exact I2|]. apply (proj1 (Forall_forall _ _) Hheld). rewrite Ea. set_solver. }
    destruct (update_run_step L _ _ _ Hu Hrun) as (J1 & J2 & J3). split; [congruence|]. split; [by etrans|].
    assert (Forall (held_run L (session acc.2)) a.1.2) as Hkept.
    { eapply Forall_impl; [exact I3|]. intros dr. by apply held_run_keeps. }
    destruct J3 as [(-> & run' & -> & Hk)|(E1 & -> & Hfin)].
    - split; [|done]. apply Forall_app. split; [done|]. apply Forall_singleton. destruct Hrun as (R1 & R2 & R3).
      injection Hk as K1 K2. unfold held_run, run_key. rewrite K1, K2. split_and!; [done..|]. by apply J2.
    - split; [done|]. rewrite E1. intros d [Hd|Hd%list_elem_of_singleton]%elem_of_app; [by apply I4|]. subst d. right.
      split; [apply Hrun|]. by exists st1, pre, run, post, a, acc. }
  destruct (Hall (active_runs (ti_status st1)) [] _ (eq_sym (app_nil_r _)) Hf) as (H1 & H2 & H3 & H4). cbn [fst snd] in *.
  injection H1 as _ R2 R3. by split_and!.
Qed.

Lemma process_round_ran L w dates st stop dates' st' : (∀ s, keeps_runs s (w s).1) →
  round_of w dates st = Ok (stop, dates', st') → runs_held L st →
  runs_held L st' ∧ executed_dag_run_dates (ti_status st') = executed_dag_run_dates (ti_status st) ∧
  total_runs (ti_status st') = total_runs (ti_status st) ∧
  ∀ d, d ∈ dates' → d ∈ dates ∨ d ∈ L ∧ round_ran w dates st d.
Proof.
  intros Hw. unfold process_round. intros ([stop1 st1] & Ht & Hok)%result_bind_ok Hheld.
  destruct (process_tasks_held _ _ _ _ Hw Ht) as [Hr Hk]. injection Hr as R1 R2 R3.
  assert (runs_held L st1) as Hheld1 by by eapply runs_held_keeps.
  destruct stop1; [injection Hok as _ <- <-; by split_and!; auto|].
  apply result_bind_ok in Hok as ([ds st2] & Hu & [= _ <- <-]).
  destruct (update_runs_ran L _ _ _ _ _ _ Ht Hu Hheld1) as (A1 & _ & A3 & A4 & A5). split_and!; [done|congruence|congruence|done].
Qed.

Lemma process_loop_ran L fuel dates st stop dates' fuel' st' :
  loop_of fuel work dates st = Ok (stop, dates', fuel', st') → runs_held L st →
  runs_held L st' ∧ executed_dag_run_dates (ti_status st') = executed_dag_run_dates (ti_status st) ∧
  total_runs (ti_status st') = total_runs (ti_status st) ∧
  ∀ d, d ∈ dates' → d ∈ dates ∨ d ∈ L ∧ loop_ran fuel dates st d.
Proof.
  revert dates st. induction fuel as [|fuel IH]; intros dates st; cbn [process_loop];
    (destruct (_ && _); [|intros [= _ <- _ <-] ?; by split_and!; auto]); [done|].
  intros ([[stop1 d1] st1] & Hr & Hl)%result_bind_ok Hheld.
  destruct (process_round_ran L _ _ _ _ _ _ (Hwork fuel) Hr Hheld) as (A1 & A2 & A3 & A4).
  destruct stop1.
  - injection Hl as _ <- _ <-. split_and!; [done..|]. intros d [Hd|[Hd Hran]]%A4; [by left|right]. split; [done|by constructor].
  - destruct (IH _ _ Hl A1) as (B1 & B2 & B3 & B4). split_and!; [done|congruence|congruence|].
    intros d [[Hd|[Hd Hran]]%A4|[Hd Hran]]%B4; [by left|right..]; (split; [done|]); [by constructor|by eapply loop_ran_later].
Qed.

(** ** The runs of the dates *)

Lemma get_dag_run_for d s dr s' : _get_dag_run dag hook isoformat d s = Ok (Some dr, s') →
  DR.dag_id dr = dag_id dag ∧ DR.execution_date dr = d ∧ keeps_runs s s' ∧ run_key dr ∈ run_key <$> dag_run s'.
Proof.
  unfold _get_dag_run. set (found := DagRunQuery.find _ _ _ _ _ _ _ _ _ _).
  destruct (_ && _); [done|]. intros ([run s1] & Hrun & Hok)%result_bind_ok.
  apply result_bind_ok in Hok as (s2 & Hv%verify_integrity_runs & [= <- <-]).
  assert (DR.dag_id run = dag_id dag ∧ DR.execution_date run = d ∧ keeps_runs s s1 ∧ run_key run ∈ run_key <$> dag_run s1) as (H1 & H2 & H3 & H4).
  { destruct (head found) as [r|] eqn:Eh.
    - injection Hrun as <- <-. assert (r ∈ found) as Hr.
      { destruct found; [done|]. injection Eh as ->. left. }
      apply elem_of_py_sorted, elem_of_filterb in Hr as [Hr Hin]. rewrite !andb_true_iff in Hr. cbn [DagRunQuery.in_filter] in Hr.
      destruct Hr as [[[[[[[[Hd _] He] _] _] _] _] _] _]. apply bool_decide_eq_true, list_elem_of_singleton in Hd, He.
      split_and!; [done|done|done|by apply list_elem_of_fmap_2].
    - unfold create_dagrun in Hrun. apply result_bind_ok in Hrun as ([rid rt] & _ & Hrun).
      apply result_bind_ok in Hrun as (s3 & Hi & Hrun). apply result_bind_ok in Hrun as (s4 & Hv4%verify_integrity_runs & [= <- <-]).
      unfold insert_run in Hi. destruct (existsb _ _); [done|]. injection Hi as <-.
      split_and!; [done..| |]; unfold keeps_runs; rewrite Hv4; cbn [dag_run with_dag_run]; rewrite fmap_app; set_solver. }
  assert (run_key (as_backfill isoformat (utcnow s1) d run) = run_key run) as Hk.
  { unfold as_backfill, run_key. cbn [DR.dag_id DR.execution_date]. unfold DagRunQuery.set_dagrun_state. by destruct (_ ≟ _). }
  pose proof (f_equal fst Hk) as K1. pose proof (f_equal snd Hk) as K2. unfold run_key in K1, K2. cbn [fst snd] in K1, K2.
  split_and!; [congruence|congruence|unfold keeps_runs|rewrite Hk]; by rewrite Hv, merge_run_keys.
Qed.

Lemma get_no_dag_run d s s' : _get_dag_run dag hook isoformat d s = Ok (None, s') → s' = s.
Proof.
  unfold _get_dag_run. destruct (_ && _); [by intros [= <-]|]. intros ([run s1] & _ & Hok)%result_bind_ok.
  by apply result_bind_ok in Hok as (s2 & _ & ?).
Qed.

Lemma reset_held dr st n st' : reset_state_for_orphaned_tasks dag job dr st = Ok (n, st') → held st' = held st.
Proof.
  unfold reset_state_for_orphaned_tasks. destruct (List.filter _ _) as [|t0 l0]; [by intros [= _ <-]|].
  intros ([l s] & Hr & [= _ <-])%result_bind_ok. apply held_intro; [done|]. cbn [session with_session].
  assert (∀ cs a, dag_run (foldl reset_query a cs).2 = dag_run a.2) as Hfold.
  { intros cs a. apply (foldl_invariant (λ x, dag_run x.2 = dag_run a.2)); [|done]. intros c [res x] _ <-. unfold reset_query.
    destruct (filter_for_tis _); [|done]. cbn [snd]. by rewrite dag_run_merge_fold. }
  unfold reduce_in_chunks in Hr. apply result_bind_ok in Hr as (cs & _ & [= Hr]).
  change s with ((l, s).2). rewrite <-Hr. apply Hfold.
Qed.

Lemma add_run_held L st d st' : add_run dag job hook isoformat st d = Ok st' → d ∈ L → runs_held L st →
  runs_held L st' ∧ executed_dag_run_dates (ti_status st') = executed_dag_run_dates (ti_status st) ∧
  total_runs (ti_status st') = total_runs (ti_status st).
Proof.
  unfold add_run. intros ([[dr|] s] & Hg & Hok)%result_bind_ok Hd Hb; [|apply get_no_dag_run in Hg as ->; by injection Hok as <-].
  apply get_dag_run_for in Hg as (G1 & G2 & G3 & G4). apply result_bind_ok in Hok as ([m st1] & Ht & [= <-]).
  unfold _task_instances_for_dag_run in Ht. apply result_bind_ok in Ht as ([n st2] & Hr%reset_held & Ht).
  destruct (foldl _ _ _) as [m' s2] eqn:Ef. injection Ht as <- <-. injection Hr as R1 R2 R3 R4.
  assert (dag_run s2 = dag_run (session st2)) as Hs2.
  { change s2 with ((m', s2).2). rewrite <-Ef. apply (foldl_invariant (λ x, dag_run x.2 = dag_run (session st2))); [|done].
    intros t [x y] _ <-. unfold collect_ti. destruct (TI.state t ≟ None); [|done]. cbn. by rewrite dag_run_merge_ti. }
  cbn [session with_session] in R4. cbn [ti_status session with_status with_session with_runs with_dicts active_runs
    executed_dag_run_dates total_runs] in *. split; [|by rewrite R2, R3].
  unfold runs_held. cbn [ti_status session with_status with_session with_runs with_dicts active_runs]. rewrite R1.
  assert (keeps_runs (session st) s2) as Hk by (unfold keeps_runs in *; by rewrite Hs2, R4).
  apply Forall_app. split.
  - eapply Forall_impl; [exact Hb|]. intros x. by apply held_run_keeps.
  - apply Forall_singleton. split_and!; [done|by rewrite G2|]. by rewrite Hs2, R4.
Qed.

Lemma add_runs_held L dates st st' : foldM (add_run dag job hook isoformat) dates st = Ok st' → dates ⊆ L →
  runs_held L st → runs_held L st' ∧ executed_dag_run_dates (ti_status st') = executed_dag_run_dates (ti_status st) ∧
  total_runs (ti_status st') = total_runs (ti_status st).
Proof.
  intros Hf Hsub Hb.
  refine (foldM_invariant (λ x, runs_held L x ∧ executed_dag_run_dates (ti_status x) = executed_dag_run_dates (ti_status st) ∧
    total_runs (ti_status x) = total_runs (ti_status st)) _ _ _ st' _ _ Hf); [|done].
  intros d a a' Hd (I1 & I2 & I3) Ha. destruct (add_run_held L _ _ _ Ha) as (J1 & J2 & J3); [by apply Hsub|done|].
  split_and!; [done|congruence|congruence].
Qed.

Lemma set_add_all (ds l : list datetime) :
  NoDup l → NoDup (foldl (λ l d, set_add d l) l ds) ∧ ∀ x, x ∈ foldl (λ l d, set_add d l) l ds ↔ x ∈ l ∨ x ∈ ds.
Proof.
  revert l. induction ds as [|d ds IH]; intros l Hl; cbn [foldl]; [split; [done|set_solver]|].
  assert (NoDup (set_add d l) ∧ ∀ x, x ∈ set_add d l ↔ x ∈ l ∨ x = d) as [H1 H2].
  { unfold set_add. case_bool_decide as E; [split; [done|set_solver]|]. split; [|set_solver].
    apply NoDup_app. split; [done|]. split; [set_solver|apply NoDup_singleton]. }
  destruct (IH _ H1) as [I1 I2]. split; [done|]. intros x. rewrite I2, H2. set_solver.
Qed.

(** One pass over the dates: a date that becomes executed was ran by one of its
    rounds. *)
Lemma execute_for_run_dates_ran L fuel dates st stop fuel' st' :
  _execute_for_run_dates dag job hook isoformat pickle_id path cfg_path (bf_start_date job) fuel work dates st
    = Ok (stop, fuel', st') →
  dates ⊆ L → runs_held L st → NoDup (executed_dag_run_dates (ti_status st)) →
  runs_held L st' ∧ total_runs (ti_status st') = total_runs (ti_status st) ∧
  NoDup (executed_dag_run_dates (ti_status st')) ∧
  ∀ d, d ∈ executed_dag_run_dates (ti_status st') → d ∈ executed_dag_run_dates (ti_status st) ∨
    d ∈ L ∧ ∃ st1, foldM (add_run dag job hook isoformat) dates st = Ok st1 ∧ loop_ran fuel [] st1 d.
Proof.
  unfold _execute_for_run_dates. intros (st1 & H1 & Hok)%result_bind_ok Hsub Hb Hnd.
  destruct (add_runs_held L _ _ _ H1 Hsub Hb) as (A1 & A2 & A3). apply result_bind_ok in Hok as ([[[stop1 ds] f] st2] & H2 & Hok).
  destruct (process_loop_ran L _ _ _ _ _ _ _ H2 A1) as (B1 & B2 & B3 & B4).
  destruct stop1; injection Hok as _ _ <-; cbn [ti_status with_status with_runs total_runs executed_dag_run_dates].
  - split_and!; [done|congruence|congruence|]. intros d Hd. left. congruence.
  - rewrite <-A2, <-B2 in Hnd. destruct (set_add_all ds _ Hnd) as [S1 S2].
    split_and!; [done|congruence|done|]. intros d [Hd|[Hd%elem_of_nil|[Hd Hran]]%B4]%S2; [left; congruence|done|right].
    split; [done|]. by exists st1.
Qed.

Lemma sleep_keeps L p st stop st' : (∀ s, keeps_runs s (p s).1) → sleep_on_limit p st = (stop, st') → runs_held L st →
  runs_held L st' ∧ ti_status st' = ti_status st.
Proof.
  intros Hp. unfold sleep_on_limit. destruct (0 <? _); [|by intros [= _ <-]]. specialize (Hp (session st)).
  destruct (p (session st)) as [s b]. intros [= _ <-] Hh. split; [|done]. by eapply runs_held_keeps; [| |exact Hh].
Qed.

Lemma dates_loop_ran L (P : datetime → Prop) rounds fuel st stop st' :
  dates_loop dag job hook isoformat pickle_id path cfg_path rounds fuel work pause L st = Ok (stop, st') →
  (∀ d, backfill_ran L rounds fuel st d → P d) →
  runs_held L st → NoDup (executed_dag_run_dates (ti_status st)) →
  (∀ d, d ∈ executed_dag_run_dates (ti_status st) → d ∈ L ∧ P d) →
  _collect_errors (ti_status st) = false →
  runs_held L st' ∧
  (stop = false → NoDup (executed_dag_run_dates (ti_status st')) ∧
     (∀ d, d ∈ executed_dag_run_dates (ti_status st') → d ∈ L ∧ P d) ∧
     _collect_errors (ti_status st') = false ∧
     total_runs (ti_status st) ≤ Z.of_nat (length (executed_dag_run_dates (ti_status st')))).
Proof.
  revert fuel st. induction rounds as [|rounds IH]; intros fuel st; cbn [dates_loop]; unfold remaining_dates;
    (destruct (0 <? _) eqn:E; [|intros [= <- <-] HP Hh Hnd Hex He; split; [done|]; intros _; split_and!; [done..|lia]]); [done|].
  intros ([[stop1 f] st1] & H1 & Hok)%result_bind_ok HP Hh Hnd Hex He.
  destruct (execute_for_run_dates_ran L _ _ _ _ _ _ H1) as (A1 & A2 & A3 & A4); [|done..|].
  { intros d [_ Hd]%elem_of_filterb. done. }
  destruct stop1; [injection Hok as <- <-; by split|]. destruct (_collect_errors (ti_status st1)) eqn:Ee; [done|].
  destruct (sleep_on_limit (pause rounds) st1) as [stop2 st2] eqn:Es.
  destruct (sleep_keeps L _ _ _ _ (Hpause rounds) Es A1) as [B1 B2].
  destruct stop2; [injection Hok as <- <-; by split|]. rewrite <-A2, <-B2. eapply IH; [exact Hok| |done|by rewrite B2| |by rewrite B2].
  - intros d Hd. apply HP. by eapply ran_in_later_pass.
  - rewrite B2. intros d [Hd|(Hd & st3 & H3 & Hran)]%A4; [by apply Hex|]. split; [done|]. apply HP. by eapply ran_in_pass.
Qed.

(** *** The user ends the backfill *)

Lemma fail_unfinished_row L s dr s' : fail_unfinished dag s dr = Ok s' → held_run L s dr →
  keeps_runs s s' ∧ finished_row s' (DR.execution_date dr) ∧ ∀ d, finished_row s d → finished_row s' d.
Proof.
  unfold fail_unfinished. intros (r & Hr & [= <-])%result_bind_ok (H1 & _ & H3).
  destruct (update_state_rows _ _ _ Hr) as (K1 & K2 & K3). destruct (update_state_run _ _ _ _ Hr) as [E _].
  set (s1 := commit _ _) in *. set (dr' := if _ ∈? _ then _ else _).
  assert (run_key dr' = run_key dr ∧ Some (DagRunState_as_ti (DR._state dr')) ∈ State.finished) as [D1 D2].
  { rewrite <-E. unfold dr'. case_bool_decide as Ef; [done|]. unfold DagRunQuery.set_dagrun_state. case_bool_decide as Es.
    - split; [done|]. rewrite Es in Ef. exfalso. apply Ef. apply (bool_decide_unpack _). by vm_compute.
    - split; [done|]. apply (bool_decide_unpack _). by vm_compute. }
  assert (finished_row (DagRunQuery.merge_run dr' s1) (DR.execution_date dr)) as Hrow.
  { exists dr'. split; [apply merge_run_row; rewrite D1; by apply K1|]. injection D1 as D3 D4. by split_and!; [congruence|..]. }
  split; [unfold keeps_runs; rewrite merge_run_keys; exact K1|]. split; [done|]. intros d Hd.
  destruct (decide (d = DR.execution_date dr)) as [->|Hne]; [done|]. injection D1 as D3 D4.
  apply merge_run_finished; [congruence|by apply K3|congruence].
Qed.

Lemma set_unfinished_rows L runs s s' : _set_unfinished_dag_runs_to_failed dag runs s = Ok s' → Forall (held_run L s) runs →
  (∀ dr, dr ∈ runs → finished_row s' (DR.execution_date dr)) ∧ ∀ d, finished_row s d → finished_row s' d.
Proof.
  unfold _set_unfinished_dag_runs_to_failed. revert s. induction runs as [|dr runs IH]; intros s; cbn [foldM].
  { intros [= <-] _. split; [by intros ? ?%elem_of_nil|done]. }
  intros (s1 & Hd & Hf)%result_bind_ok [H1 H2]%Forall_cons.
  destruct (fail_unfinished_row _ _ _ _ Hd H1) as (K1 & K2 & K3). destruct (IH _ Hf) as [I1 I2].
  { eapply Forall_impl; [exact H2|]. intros x. by apply held_run_keeps. }
  split; [|by auto]. intros x [->|Hx]%elem_of_cons; auto.
Qed.

(** C22: a backfill of a DAG without sub-DAGs, whose dates are distinct and
    during which nobody deletes runs.  If it ends without an exception and the
    user has not ended it, every date of its range is executed: in some round of
    this backfill the run of the DAG for the date, one of the runs the job was
    processing, was found finished, and the database then said so; no task
    instance counts as failed and nothing is deadlocked.  If the user ended it
    (while the executor worked or between two passes), every run it was still
    processing is finished in the database when it returns. *)
Theorem backfill_complete fuel rounds e s run_dates interrupted st
  (Hrun : backfill_execute dag job cron_schedule hook isoformat pickle_id path cfg_path fuel rounds work pause e s
            = Ok (run_dates, interrupted, st)) (Hnd : NoDup run_dates) :
  (interrupted = false →
   (∀ d, d ∈ run_dates → d ∈ executed_dag_run_dates (ti_status st) ∧
      backfill_ran run_dates rounds fuel
        {| ti_status := with_runs [] [] 0 (Z.of_nat (length run_dates)) status_init; executor := e; session := s |} d) ∧
   bf_failed (ti_status st) = [] ∧ deadlocked (ti_status st) = []) ∧
  (interrupted = true → ∀ dr, dr ∈ active_runs (ti_status st) → finished_row (session st) (DR.execution_date dr)).
Proof.
  unfold backfill_execute in Hrun. apply result_bind_ok in Hrun as (rd & _ & Hrun). destruct (_ && _); [done|].
  set (L := if run_backwards job then rev rd else rd) in *. destruct L as [|d0 L0] eqn:EL.
  { injection Hrun as <- <- <-. split; [|done]. intros _. split; [by intros ? ?%elem_of_nil|done]. }
  rewrite <-EL in *. clear d0 L0 EL. set (st0 := with_status _ _) in Hrun.
  apply result_bind_ok in Hrun as ([stop st1] & Hl & Hok).
  apply (dates_loop_ran L (backfill_ran L rounds fuel st0)) in Hl as [A B];
    [|done|by constructor|constructor|by intros ? ?%elem_of_nil|done].
  destruct stop.
  - apply result_bind_ok in Hok as (s1 & Hs & [= <- <- <-]). split; [done|]. intros _ dr Hdr.
    by eapply set_unfinished_rows in Hs as [Hs _]; [apply Hs|exact A].
  - injection Hok as <- <- <-. split; [|done]. intros _. destruct (B eq_refl) as (B1 & B2 & B3 & B4).
    cbn [st0 ti_status with_status with_runs total_runs] in B4. split.
    + assert (L ⊆ executed_dag_run_dates (ti_status st1)) as Hall.
      { assert (executed_dag_run_dates (ti_status st1) ⊆+ L) as Hsub.
        { apply NoDup_submseteq; [done|]. intros d Hd. by apply B2. }
        intros d Hd. rewrite (submseteq_length_Permutation _ _ Hsub); [done|]. lia. }
      intros d Hd. split; [by apply Hall|]. by apply B2, Hall.
    + unfold _collect_errors in B3. apply orb_false_iff in B3 as [B5 B6]. apply negb_false_iff in B5, B6.
      by destruct (bf_failed _), (deadlocked _).
Qed.
End Rounds.
End BackfillFacts.

(** ** The limits in a round *)

Section Limits.
Local Open Scope Z_scope.
Context `{Settings} `{Backend X} (dag : DAG) (job : BackfillJob)
        (isoformat : datetime → string) (pickle_id : option Z) (path cfg_path : TaskInstance → option string).
Implicit Types (st : Bf (X:=X)) (s : Session).

(** Changes that start and queue nothing. *)
Record tame s0 s : Prop := {
  tame_active : ∀ r', r' ∈ task_instance s → active r' = true →
    ∃ r, r ∈ task_instance s0 ∧ active r = true ∧ TI.primary r = TI.primary r';
  tame_keys : ti_keys_unique (task_instance s0) → ti_keys_unique (task_instance s);
}.

Lemma tame_refl s : tame s s.
Proof. split; [|done]. eauto. Qed.

Lemma tame_merge s0 s t : tame s0 s →
  (active t = true → ∃ r, r ∈ task_instance s0 ∧ active r = true ∧ TI.primary r = TI.primary t) → tame s0 (merge_ti t s).
Proof.
  intros [A1 A2] Ht. split; [|by intros Hk; apply merge_ti_keys, A2].
  intros x Hx Ha. assert (x = t ∨ x ∈ task_instance s) as [->|Hin]; [|by apply Ht|by apply A1].
  revert Hx. unfold merge_ti. destruct (existsb _ _); cbn [with_task_instance task_instance].
  - intros (y & Hy & ->)%elem_of_update_where. case_match; auto.
  - rewrite elem_of_app, list_elem_of_singleton. tauto.
Qed.

Lemma tame_count s0 s (sel : TaskInstance → bool) : ti_keys_unique (task_instance s0) → tame s0 s →
  (∀ r r', TI.primary r' = TI.primary r → sel r' = sel r) →
  countb (λ t, active t && sel t) (task_instance s) ≤ countb (λ t, active t && sel t) (task_instance s0).
Proof.
  intros Hk Ht Hsel. rewrite !countb_sumb. apply (sumb_matching TI.primary); [by apply Ht|lia|].
  intros x' Hx' Hf. apply andb_true_iff in Hf as [Ha Hp].
  destruct (tame_active _ _ Ht x' Hx' Ha) as (x & Hx & H1 & H2). exists x. split; [done|].
  rewrite H1, (Hsel _ _ H2), Hp. done.
Qed.

Lemma count_merge s t (sel : TaskInstance → bool) : ti_keys_unique (task_instance s) →
  countb (λ t, active t && sel t) (task_instance (merge_ti t s)) ≤
  countb (λ t, active t && sel t) (task_instance s) + (if sel t then 1 else 0).
Proof.
  intros Hk. unfold merge_ti. destruct (existsb _ _) eqn:E; cbn [with_task_instance task_instance].
  - unfold ti_keys_unique in Hk. clear E. induction (task_instance s) as [|r l IH]; [by destruct (sel t)|].
    rewrite fmap_cons in Hk. apply NoDup_cons in Hk as [Hr Hk]. unfold update_where in *. rewrite fmap_cons, !countb_cons.
    destruct (same_ti t r) eqn:Es; [|specialize (IH Hk); lia].
    assert ((λ r, if same_ti t r then t else r) <$> l = l) as ->.
    { rewrite <-(list_fmap_id l) at 2. apply list_fmap_ext. intros i x Hx. destruct (same_ti t x) eqn:Ex; [|done].
      exfalso. apply Hr. apply same_ti_eq in Es, Ex. rewrite <-Es, Ex. apply list_elem_of_fmap_2. by eapply list_elem_of_lookup_2. }
    destruct (active t), (sel t), (active r), (sel r); cbn [andb]; lia.
  - rewrite countb_app, countb_cons, countb_nil. destruct (active t), (sel t); cbn [andb]; lia.
Qed.

(** What the processing of one task instance does to the database. *)
Definition at_most_one (p : string * string * datetime) s s' : Prop :=
  ∃ s1, tame s s1 ∧ (s' = s1 ∨ ∃ t, TI.primary t = p ∧ s' = merge_ti t s1).

Lemma primary_refresh ti s : TI.primary (refresh_from_db ti s) = TI.primary ti.
Proof. unfold refresh_from_db. by destruct (find_ti _ _). Qed.

Lemma refresh_row ti s : active (refresh_from_db ti s) = true →
  ∃ r, r ∈ task_instance s ∧ active r = true ∧ TI.primary r = TI.primary ti.
Proof.
  unfold refresh_from_db. destruct (find_ti (TI.primary ti) s) as [r|] eqn:E; [|done].
  apply find_ti_elem in E as [Hr Hp]. intros Ha. exists r. done.
Qed.

Lemma check_and_queue_session s0 k task ti ig st st' :
  tame s0 (session st) → (active ti = true → ∃ r, r ∈ task_instance s0 ∧ active r = true ∧ TI.primary r = TI.primary ti) →
  check_and_queue dag job isoformat pickle_id path cfg_path k task ti ig st = Ok st' →
  at_most_one (TI.primary ti) s0 (session st').
Proof.
  intros Ht Hrow. unfold check_and_queue. intros ([met ds] & Hd & Hok)%result_bind_ok.
  destruct (are_dependencies_met_settles _ _ _ _ _ _ Hd) as [Hp Hs]. cbn [ds_ti] in Hp, Hs.
  set (s1 := commit_ti (ds_merged ds) (ds_ti ds) (session st)) in Hok.
  assert (tame s0 s1) as Ht1.
  { unfold s1, commit_ti. destruct (ds_merged ds); [|done]. apply tame_merge; [done|]. intros Ha. rewrite Hp. apply Hrow.
    destruct Hs as [Hs|Hs]; [|congruence]. unfold active in *. by rewrite <-Hs. }
  exists s1. split; [done|]. destruct met.
  - destruct (executor_has_task _ _); [injection Hok as <-; by left|]. apply result_bind_ok in Hok as (e & _ & Hok).
    apply result_bind_ok in Hok as (b & _ & [= <-]). right. exists (bf_queue job (utcnow s1) (ds_ti ds)). split; [exact Hp|done].
  - left. destruct (_ ≟ _); [by apply result_bind_ok in Hok as (b & _ & [= <-])|]. destruct (_ || _); by injection Hok as <-.
Qed.

Lemma set_scheduled_inactive ti s : active (set_state (Some SCHEDULED) ti s).1 = false.
Proof. unfold set_state, active. cbn [fst]. by rewrite state_set_state_obj. Qed.

Lemma per_task_session sd k ti st st' :
  _per_task_process dag job isoformat pickle_id path cfg_path sd k ti st = Ok st' →
  at_most_one (TI.primary ti) (session st) (session st').
Proof.
  set (s := session st). unfold _per_task_process. intros (task & _ & Hok)%result_bind_ok.
  do 2 (destruct (_ ≟ _) in Hok;
    [apply result_bind_ok in Hok as (b & _ & [= <-]); exists s; split; [apply tame_refl|by left]|]).
  set (ti0 := refresh_from_db ti (session st)) in Hok.
  assert (TI.primary ti0 = TI.primary ti) as Hp0 by apply primary_refresh.
  assert (∀ ti1 s1, (if TI.state ti0 ≟ None then set_state (Some SCHEDULED) ti0 s else (ti0, s)) = (ti1, s1) →
    TI.primary ti1 = TI.primary ti ∧ tame s s1 ∧
    (active ti1 = true → ∃ r, r ∈ task_instance s ∧ active r = true ∧ TI.primary r = TI.primary ti1)) as Hset.
  { intros ti1 s1. destruct (_ ≟ _); intros [= <- <-].
    - split; [by rewrite primary_set_state_obj|]. pose proof (set_scheduled_inactive ti0 s) as Hi. cbn [set_state fst] in Hi.
      split; [apply tame_merge; [apply tame_refl|]|]; intros Ha; congruence.
    - split; [done|]. split; [apply tame_refl|]. intros Ha. rewrite Hp0. by apply refresh_row. }
  destruct (if TI.state ti0 ≟ None then _ else _) as [ti1 s1] eqn:E1. destruct (Hset _ _ eq_refl) as (P1 & T1 & R1).
  destruct (TI.state ti1 ∈? _) in Hok; [destruct (rerun_failed_tasks job)|].
  - destruct (set_state (Some SCHEDULED) ti1 s1) as [ti2 s2] eqn:E2. rewrite <-P1.
    pose proof (set_scheduled_inactive ti1 s1) as Hi. rewrite E2 in Hi. cbn [fst] in Hi.
    assert (TI.primary ti2 = TI.primary ti1 ∧ s2 = merge_ti ti2 s1) as [P2 ->]
      by (injection E2 as <- <-; split; [apply primary_set_state_obj|done]). rewrite <-P2.
    eapply check_and_queue_session; [|intros Ha; congruence|exact Hok]. apply tame_merge; [exact T1|]. intros Ha; congruence.
  - apply result_bind_ok in Hok as (b & _ & [= <-]). exists s1. split; [done|by left].
  - rewrite <-P1. by eapply check_and_queue_session; [|exact R1|exact Hok].
Qed.

Lemma running_states t : (TI.state t ∈? STATES_COUNT_AS_RUNNING) = active t.
Proof. unfold active. apply bool_decide_ext. unfold STATES_COUNT_AS_RUNNING, EXECUTION_STATES. set_solver. Qed.

Lemma num_dag_active did s : get_num_task_instances did [] STATES_COUNT_AS_RUNNING s = dag_active did s.
Proof.
  unfold get_num_task_instances, dag_active. apply countb_ext. intros t _. cbn [DagRunQuery.in_filter].
  change (DagRunQuery.in_filter STATES_COUNT_AS_RUNNING (TI.state t)) with (TI.state t ∈? STATES_COUNT_AS_RUNNING).
  rewrite running_states, andb_true_r. apply andb_comm.
Qed.

Lemma num_task_active did tid s : get_num_task_instances did [tid] STATES_COUNT_AS_RUNNING s = task_active (did, tid) s.
Proof.
  unfold get_num_task_instances, task_active. apply countb_ext. intros t _. cbn [DagRunQuery.in_filter].
  change (DagRunQuery.in_filter STATES_COUNT_AS_RUNNING (TI.state t)) with (TI.state t ∈? STATES_COUNT_AS_RUNNING).
  rewrite running_states, andb_comm. f_equal. unfold task_key.
  apply Bool.eq_true_iff_eq. rewrite andb_true_iff, !bool_decide_eq_true, list_elem_of_singleton. naive_solver.
Qed.

(** The counts after the processing of one task instance. *)
Lemma at_most_one_count p s s' (sel : TaskInstance → bool) :
  ti_keys_unique (task_instance s) → at_most_one p s s' → (∀ r r', TI.primary r' = TI.primary r → sel r' = sel r) →
  ti_keys_unique (task_instance s') ∧
  countb (λ t, active t && sel t) (task_instance s') ≤ countb (λ t, active t && sel t) (task_instance s) + 1 ∧
  ((∀ t, TI.primary t = p → sel t = false) →
   countb (λ t, active t && sel t) (task_instance s') ≤ countb (λ t, active t && sel t) (task_instance s)).
Proof.
  intros Hk (s1 & Ht & Hs') Hsel. pose proof (tame_count s s1 sel Hk Ht Hsel) as Hc. pose proof (tame_keys _ _ Ht Hk) as Hk1.
  destruct Hs' as [->|(t & Hp & ->)]; [split_and!; [done|lia|lia]|].
  split; [by apply merge_ti_keys|]. pose proof (count_merge s1 t sel Hk1). split.
  - destruct (sel t); lia.
  - intros Hno. rewrite (Hno t Hp) in *. lia.
Qed.

(** Neither the DAG nor any of the tasks is further beyond its limit than it was
    in [s0]. *)
Record within s0 (tasks : list BaseOperator) s : Prop := {
  in_keys : ti_keys_unique (task_instance s);
  in_dag : dag_active (dag_id dag) s ≤ Z.max (dag_active (dag_id dag) s0) (max_active_tasks dag);
  in_tasks : ∀ t n, t ∈ tasks → task_concurrency t = Some n → n ≠ 0 →
    task_active (dag_id dag, task_id t) s ≤ Z.max (task_active (dag_id dag, task_id t) s0) n;
}.

Lemma check_limits_ok task s : check_limits dag task s = Ok tt →
  dag_active (dag_id dag) s < max_active_tasks dag ∧
  ∀ n, task_concurrency task = Some n → n ≠ 0 → task_active (dag_id dag, task_id task) s < n.
Proof.
  unfold check_limits. destruct (PoolSlots.get_pool _ _); [|done]. match goal with |- context [if ?c then Err NoAvailablePoolSlot else _] => destruct c end; [done|].
  rewrite num_dag_active. destruct (max_active_tasks dag <=? _) eqn:Ed; [done|]. intros Hc. split; [lia|].
  intros n Hn Hn0. rewrite Hn, num_task_active in Hc. apply Z.eqb_neq in Hn0. rewrite Hn0 in Hc. cbn [negb andb] in Hc.
  destruct (n <=? _) eqn:E in Hc; [done|]. lia.
Qed.

Lemma task_items_within s0 tasks sd task items st r :
  NoDup (task_id <$> tasks) → task ∈ tasks →
  task_items dag job isoformat pickle_id path cfg_path sd task items st = Ok r →
  within s0 tasks (session st) → within s0 tasks (session r.2).
Proof.
  intros Hnd Htask. revert st. induction items as [|[k ti] items IH]; intros st; cbn [task_items]; [by intros [= <-]|].
  destruct (negb (task_id task ≟ TI.task_id ti)) eqn:Eid; [apply IH|].
  apply negb_false_iff, bool_decide_eq_true in Eid.
  destruct (check_limits dag task (session st)) as [[]|e] eqn:Ec;
    [|by destruct (limit_reached e); [intros [= <-]|]].
  intros (st1 & Hp%per_task_session & Hi)%result_bind_ok [W1 W2 W3]. eapply IH; [exact Hi|].
  destruct (check_limits_ok _ _ Ec) as [L1 L2].
  destruct (at_most_one_count _ _ _ (λ t, TI.dag_id t ≟ dag_id dag) W1 Hp) as (K & D & _).
  { intros r0 r' [= -> _ _]. done. }
  split; [done|unfold dag_active in *; lia|]. intros t n Ht Hn Hn0.
  destruct (at_most_one_count _ _ _ (λ x, task_key x ≟ (dag_id dag, task_id t)) W1 Hp) as (_ & E1 & E2).
  { unfold task_key. intros r0 r' [= -> -> _]. done. }
  fold (task_active (dag_id dag, task_id t) (session st1)) in E1, E2.
  fold (task_active (dag_id dag, task_id t) (session st)) in E1, E2. specialize (W3 t n Ht Hn Hn0).
  destruct (decide (task_id t = task_id task)) as [E|Hne].
  - assert (t = task) as ->.
    { apply list_elem_of_lookup in Ht as [i Hit], Htask as [j Hj].
      assert (i = j) as ->; [|congruence]. eapply NoDup_lookup; [exact Hnd|..]; rewrite list_lookup_fmap.
      - by rewrite Hit.
      - rewrite Hj; simpl. congruence. }
    specialize (L2 n Hn Hn0). lia.
  - etrans; [apply E2|done]. intros x [= _ Hx _]. apply bool_decide_eq_false. unfold task_key. intros [= _ Hx'].
    apply Hne. congruence.
Qed.

Lemma task_round_within s0 all sd tasks st st' :
  NoDup (task_id <$> all) → tasks ⊆ all →
  task_round dag job isoformat pickle_id path cfg_path sd tasks st = Ok st' →
  within s0 all (session st) → within s0 all (session st').
Proof.
  intros Hnd. revert st. induction tasks as [|task tasks IH]; intros st Hsub; cbn [task_round]; [by intros [= <-]|].
  intros ([stop st1] & Hi & Hok)%result_bind_ok Hw. eapply task_items_within in Hi; [|done|set_solver|done]. cbn [snd] in Hi.
  destruct stop; [by injection Hok as <-|]. eapply IH; [set_solver|exact Hok|done].
Qed.

(** A round in which the backfill sends task instances to the executor keeps
    the limits: after it the DAG has at most [max_active_tasks] running or queued
    task instances, and every task with a [task_concurrency] at most that many,
    or as many as before if that was more; keys stay unique. *)
Theorem backfill_round_limits sd tasks st st'
  (Hwf : graph_wf dag) (Hkeys : ti_keys_unique (task_instance (session st)))
  (Hsort : Graph.topological_sort dag = Ok tasks)
  (Hround : task_round dag job isoformat pickle_id path cfg_path sd tasks st = Ok st') :
  within (session st) (task_dict dag) (session st').
Proof.
  destruct (topological_sort_cases dag Hwf) as [(l & Hl & Hp & _)|[He _]]; [|congruence].
  assert (l = tasks) as -> by congruence.
  assert (within (session st) (task_dict dag) (session st)) as Hw by (split; [done|lia|intros; lia]).
  eapply task_round_within; [apply Hwf| |exact Hround|exact Hw]. intros x Hx. by rewrite <-Hp.
Qed.
End Limits.

(** ** Resetting orphans in chunks *)

Section Orphans.
Local Open Scope Z_scope.

Lemma concat_slices {A} n fuel (l : list A) : (length l ≤ fuel)%nat → (0 < n)%nat → concat (slices fuel n l) = l.
Proof.
  revert l. induction fuel as [|fuel IH]; intros l Hl Hn; destruct l as [|x l]; cbn [slices concat]; try done; [simpl in Hl; lia|].
  rewrite IH; [apply take_drop|rewrite length_drop; simpl in *; lia|done].
Qed.

Lemma reduce_in_chunks_foldl {A S} (fn : S → list A → S) l i size :
  0 ≤ size → ∃ cs, reduce_in_chunks fn l i size = Ok (foldl fn i cs) ∧ concat cs = l.
Proof.
  intros Hs. unfold reduce_in_chunks. destruct l as [|x l]; [by exists []|].
  set (n := if size =? 0 then _ else _). assert (0 < n) as Hn by (unfold n; case_match; simpl length; lia).
  unfold chunks. rewrite (proj2 (Z.leb_gt _ _) Hn). eexists. split; [done|]. apply concat_slices; [done|lia].
Qed.

(** Items to reset: rows of the session, once each, in a resettable state. *)
Definition to_reset (s : Session) (items : list TaskInstance) : Prop :=
  NoDup (TI.primary <$> items) ∧ ∀ t, t ∈ items → t ∈ task_instance s ∧ TI.state t ∈ resettable_states.

Definition reset_all (items : list TaskInstance) (s : Session) : Session :=
  with_task_instance (update_where (λ r, TI.primary r ∈? TI.primary <$> items) (TI.set_state None) (task_instance s)) s.

Lemma reset_query_spec res s items : ti_keys_unique (task_instance s) → to_reset s items →
  ∃ R, reset_query (res, s) items = (res ++ R, reset_all items s) ∧ length R = length items.
Proof.
  intros Hk [Hnd Hin]. unfold reset_query. pose proof (filter_for_tis_spec (TI.primary <$> items)) as Hf.
  destruct (filter_for_tis _) as [f|].
  - destruct Hf as [_ Hf]. set (R := List.filter _ (task_instance s)). exists R.
    assert (R = List.filter (λ r, TI.primary r ∈? TI.primary <$> items) (task_instance s)) as HR.
    { unfold R. apply List.filter_ext_in. intros r Hr%list_elem_of_In. apply Bool.eq_true_iff_eq.
      rewrite andb_true_iff, !bool_decide_eq_true, Hf. split; [tauto|]. intros Hx. split; [done|].
      apply list_elem_of_fmap in Hx as (t & Ht & Hti). destruct (Hin t Hti) as [H1 H2].
      by rewrite (ti_key_inj _ r t Hk Hr H1 Ht). }
    split.
    + f_equal. rewrite HR. by apply merge_filter_update.
    + rewrite HR. apply Permutation_length, (selected_rows s items Hk).
      apply NoDup_submseteq; [by eapply NoDup_fmap_1|]. intros t Ht. by apply Hin.
  - apply fmap_nil_inv in Hf as ->. exists []. rewrite app_nil_r. split; [|done]. f_equal. unfold reset_all.
    trans (with_task_instance (task_instance s) s); [by destruct s|]. f_equal. symmetry. etrans; [|apply list_fmap_id].
    apply list_fmap_ext. intros i r _. by rewrite bool_decide_eq_false_2 by (by intros ?%elem_of_nil).
Qed.

Lemma reset_all_app s l1 l2 : reset_all l2 (reset_all l1 s) = reset_all (l1 ++ l2) s.
Proof.
  unfold reset_all. cbn [with_task_instance task_instance].
  match goal with |- with_task_instance ?a (with_task_instance ?b ?s) = _ =>
    change (with_task_instance a (with_task_instance b s)) with (with_task_instance a s) end.
  f_equal. unfold update_where. rewrite <-list_fmap_compose. apply list_fmap_ext. intros i r _. cbn [compose].
  rewrite fmap_app. destruct (decide (TI.primary r ∈ TI.primary <$> l1)) as [H1|H1].
  - rewrite (bool_decide_eq_true_2 _ H1), (bool_decide_eq_true_2 (_ ∈ _ ++ _)) by (apply elem_of_app; by left).
    by destruct (_ ∈? _).
  - rewrite (bool_decide_eq_false_2 _ H1). erewrite bool_decide_ext; [done|]. rewrite elem_of_app. tauto.
Qed.

Lemma reset_loop cs res s : ti_keys_unique (task_instance s) → to_reset s (concat cs) →
  ∃ R, foldl reset_query (res, s) cs = (res ++ R, reset_all (concat cs) s) ∧ length R = length (concat cs).
Proof.
  revert res s. induction cs as [|c cs IH]; intros res s Hk Hr.
  { destruct (reset_query_spec res s [] Hk Hr) as (R & HR & Hl). exists R. split; [|done]. cbn [foldl concat]. rewrite <-HR. done. }
  cbn [concat] in *. destruct Hr as [Hnd Hin]. rewrite fmap_app in Hnd. apply NoDup_app in Hnd as (N1 & N12 & N2).
  destruct (reset_query_spec res s c Hk) as (R1 & H1 & L1).
  { split; [done|]. intros t Ht. apply Hin, elem_of_app. by left. }
  cbn [foldl]. rewrite H1. destruct (IH (res ++ R1) (reset_all c s)) as (R2 & H2 & L2).
  - unfold ti_keys_unique, reset_all. cbn [with_task_instance task_instance]. by rewrite update_where_keys.
  - split; [done|]. intros t Ht. destruct (Hin t) as [H3 H4]; [apply elem_of_app; by right|]. split; [|done].
    apply elem_of_update_where. exists t. split; [done|]. rewrite bool_decide_eq_false_2; [done|].
    intros Hx. apply (N12 _ Hx). by apply list_elem_of_fmap_2.
  - rewrite H2, reset_all_app. exists (R1 ++ R2). rewrite app_assoc. split; [done|]. rewrite !length_app. lia.
Qed.

(** The task instances that the executor does not know. *)
Definition orphans {X} (dag : DAG) (dr : option DagRun) (st : Bf (X:=X)) : list TaskInstance :=
  List.filter (λ t, negb (dict_in (key t) (queued_tasks (executor st))) && negb (bool_decide (key t ∈ running (executor st))))
    (resettable_tis dag dr (session st)).

Lemma orphans_to_reset {X} dag dr (st : Bf (X:=X)) :
  ti_keys_unique (task_instance (session st)) → to_reset (session st) (orphans dag dr st).
Proof.
  intros Hk. unfold orphans, resettable_tis. split.
  - apply NoDup_fmap_filterb. destruct dr; by apply NoDup_fmap_filterb.
  - intros t [_ Ht]%elem_of_filterb. destruct dr as [dr|]; apply elem_of_filterb in Ht as [Hf Ht]; (split; [done|]).
    + rewrite !andb_true_iff in Hf. destruct Hf as [[_ Hf] _]. by apply bool_decide_eq_true in Hf.
    + rewrite andb_true_iff in Hf. destruct Hf as [Hf _]. by apply bool_decide_eq_true in Hf.
Qed.

(** Whatever the size of its chunks, the check for orphans returns and gives
    the same result as one update: exactly the scheduled and queued task
    instances of the run (or of all running runs that are no backfill) that the
    executor does not know lose their state, and their number is returned. *)
Theorem reset_orphans_correct {X} dag job dr (st : Bf (X:=X))
  (Hkeys : ti_keys_unique (task_instance (session st))) (Hsize : 0 ≤ bf_max_tis_per_query job) :
  reset_state_for_orphaned_tasks dag job dr st =
  Ok (Z.of_nat (length (orphans dag dr st)), with_session (reset_all (orphans dag dr st) (session st)) st).
Proof.
  unfold reset_state_for_orphaned_tasks. fold (orphans dag dr st).
  pose proof (orphans_to_reset dag dr st Hkeys) as Hr. destruct (orphans dag dr st) as [|t l] eqn:E.
  - destruct (reset_query_spec [] (session st) [] Hkeys Hr) as (R & HR & _). injection HR as _ <-. by destruct st.
  - rewrite <-E in *. destruct (reduce_in_chunks_foldl reset_query (orphans dag dr st) ([], session st) (bf_max_tis_per_query job) Hsize)
      as (cs & -> & Hc). rewrite <-Hc in Hr. destruct (reset_loop cs [] (session st) Hkeys Hr) as (R & -> & HL).
    cbn [mbind result_bind app]. rewrite HL, Hc. done.
Qed.
End Orphans.

(** ** Samples *)

Module BackfillSample.
Import Sample CreateSample.
Local Open Scope Z_scope.

#[local] Instance idle : Backend unit.
Proof.
  refine {| execute_async := λ _ _ _ _ e, Ok e; sync := λ e, Ok e |}.
  - by intros k c q cfg e e' [= <-].
  - by intros e e' [= <-].
Defined.

#[local] Instance settings : Settings := {| ALLOW_FUTURE_EXEC_DATES := false; ti_hash := λ _, 0 |}.

(** Workers that succeed with everything that is queued. *)
Definition succeed (t : TaskInstance) : TaskInstance :=
  if TI.state t ≟ Some QUEUED
  then TI.set_state (Some SUCCESS) (TI.set_tries (TI._try_number t + 1) (TI.max_tries t) t) else t.
Definition all_succeed (_ : nat) (s : Session) : Session * bool :=
  (with_task_instance (succeed <$> task_instance s) s, false).

(** Nothing happens while the job sleeps. *)
Definition quiet_pause (_ : nat) (s : Session) : Session * bool := (s, false).

Definition two_dates : BackfillJob :=
  {| bf_start_date := Some 1000; bf_end_date := Some 1100; bf_mark_success := false;
     ignore_first_depends_on_past := false; bf_ignore_task_deps := false; bf_pool := None;
     rerun_failed_tasks := false; run_backwards := false; bf_id := 9; bf_max_tis_per_query := 2 |}.
Definition iso (d : datetime) : string := if d =? 1000 then "1000" else "1100".

Definition run_backfill (work : nat → Session → Session * bool) : result (list datetime * bool * Bf (X:=unit)) :=
  backfill_execute every_100 two_dates no_cron (λ t, t) iso None (λ _, None) (λ _, None) 50 3 work quiet_pause
    (Executor.init 2 tt) (mk_session [] []).

(** The diamond runs to its end for both dates, with two executor slots. *)
Example backfill_runs :
  (λ r, (r.1, DR._state <$> dag_run (session r.2), length (bf_succeeded (ti_status r.2)))) <$> run_backfill all_succeed =
  Ok ([1000; 1100], false, [DR_SUCCESS; DR_SUCCESS], 8%nat).
Proof. by vm_compute. Qed.

(** The user ends the backfill while its first task instances run: it returns
    with both runs failed and no date executed. *)
Definition interrupted (n : nat) (s : Session) : Session * bool := ((all_succeed n s).1, true).

Example backfill_interrupted :
  (λ r, (r.1, DR._state <$> dag_run (session r.2), executed_dag_run_dates (ti_status r.2))) <$> run_backfill interrupted =
  Ok ([1000; 1100], true, [DR_FAILED; DR_FAILED], []).
Proof. by vm_compute. Qed.

Definition finished : Bf (X:=unit) :=
  match run_backfill all_succeed with
  | Ok r => r.2
  | Err _ => {| ti_status := status_init; executor := Executor.init 2 tt; session := mk_session [] [] |}
  end.

Lemma run_backfill_ok :
  backfill_execute every_100 two_dates no_cron (λ t, t) iso None (λ _, None) (λ _, None) 50 3 all_succeed quiet_pause
    (Executor.init 2 tt) (mk_session [] []) = Ok ([1000; 1100], false, finished).
Proof. vm_compute. reflexivity. Qed.

Lemma succeed_keeps n s : keeps_runs s (all_succeed n s).1.
Proof. by apply keeps_eq. Qed.

Lemma pause_keeps n s : keeps_runs s (quiet_pause n s).1.
Proof. by apply keeps_eq. Qed.

Lemma backfill_complete_witness :
  1100 ∈ executed_dag_run_dates (ti_status finished) ∧ bf_failed (ti_status finished) = [].
Proof.
  destruct (backfill_complete every_100 two_dates no_cron (λ t, t) iso None (λ _, None) (λ _, None) all_succeed quiet_pause
    succeed_keeps pause_keeps 50 3 (Executor.init 2 tt) (mk_session [] []) [1000; 1100] false finished run_backfill_ok)
    as [H1 _].
  - apply (bool_decide_unpack _). by vm_compute.
  - destruct (H1 eq_refl) as (H2 & H3 & _). split; [|exact H3]. apply (H2 1100). right. left.
Defined.

(** The state before the first round: the runs exist, nothing is queued. *)
Definition before_round : Bf (X:=unit) :=
  match foldM (add_run every_100 two_dates (λ t, t) iso) [1000; 1100]
          {| ti_status := status_init; executor := Executor.init 2 tt; session := mk_session [] [] |} with
  | Ok st => st
  | Err _ => finished
  end.
Definition after_round : Bf (X:=unit) :=
  match task_round every_100 two_dates iso None (λ _, None) (λ _, None) (Some 1000) [op_a; op_b; op_c; op_d] before_round with
  | Ok st => st
  | Err _ => finished
  end.

Example round_queues : (λ t, (TI.task_id t, TI.execution_date t)) <$> List.filter active (task_instance (session after_round)) =
  [("a", 1000); ("a", 1100)].
Proof. by vm_compute. Qed.

Lemma backfill_round_limits_witness : dag_active "diamond" (session after_round) ≤ 16.
Proof.
  pose proof (backfill_round_limits every_100 two_dates iso None (λ _, None) (λ _, None) (Some 1000)
    [op_a; op_b; op_c; op_d] before_round after_round) as Hw.
  assert (within every_100 (session before_round) (task_dict every_100) (session after_round)) as [_ Hd _].
  { apply Hw; [apply graph_wfb_sound; by vm_compute|apply (bool_decide_unpack _); by vm_compute|vm_compute; reflexivity|vm_compute; reflexivity]. }
  assert (dag_active "diamond" (session before_round) = 0) as E by (by vm_compute).
  change (dag_id every_100) with "diamond" in Hd. change (max_active_tasks every_100) with 16 in Hd. rewrite E in Hd. exact Hd.
Defined.

(** A queued row that no executor knows loses its state. *)
Definition lost : Bf (X:=unit) :=
  {| ti_status := status_init; executor := Executor.init 2 tt;
     session := mk_session [mk_ti "diamond" "a" (Some QUEUED); mk_ti "diamond" "b" (Some SCHEDULED);
                            mk_ti "diamond" "c" (Some RUNNING)] [mk_run "diamond" DR_RUNNING] |}.

Lemma reset_orphans_correct_witness :
  (λ r, (r.1, TI.state <$> task_instance (session r.2))) <$>
    reset_state_for_orphaned_tasks diamond two_dates None lost = Ok (2, [None; None; Some RUNNING]).
Proof.
  rewrite (reset_orphans_correct diamond two_dates None lost); [by vm_compute| |by vm_compute].
  apply (bool_decide_unpack _). by vm_compute.
Defined.

(** A sensor that asks to be rescheduled in its second try: the key under which
    it runs has try number 2, the one that is popped has 1. *)
Definition second_try : TaskInstance := TI.set_tries 1 2 (mk_ti "diamond" "a" (Some QUEUED)).
Definition rescheduled : TaskInstance := TI.set_state (Some UP_FOR_RESCHEDULE) second_try.

Example reschedule_key_error :
  _update_counters {| ti_status := with_dicts [] [(TaskInstance.key second_try, second_try)] status_init;
                      executor := Executor.init 2 tt; session := mk_session [rescheduled] [] |} = Err KeyError.
Proof. by vm_compute. Qed.

(** A task of two slots is queued in a pool that has one left. *)
Definition two_slot_task : BaseOperator :=
  {| task_id := "a"; task_type := "BashOperator"; retries := 1;
     retry_delay := 300000000; retry_exponential_backoff := false; max_retry_delay := None;
     op_start_date := Some 0; op_end_date := None; depends_on_past := false;
     wait_for_downstream := false; trigger_rule := ALL_SUCCESS; op_priority_weight := 1;
     weight_rule := DOWNSTREAM; op_queue := "default"; op_pool := "small";
     op_pool_slots := 2; task_concurrency := None; on_execute_callback := false;
     on_success_callback := false; inherits_from_dummy_operator := false;
     is_SkipMixin := false; op_executor_config := ""; deps := [];
     upstream_task_ids := []; downstream_task_ids := [] |}.

Definition small_pool : Pool := {| pool_name := "small"; slots := 1 |}.
Definition two_slot_ti : TaskInstance :=
  TI.mk "a" "diamond" 1000 None None None (Some SCHEDULED) 0 1 "" None "small" 2 "default" 1 "BashOperator" None None None "" None.

Example backfill_overcommits_pool :
  let s := {| task_instance := [two_slot_ti]; dag_run := [mk_run "diamond" DR_RUNNING]; dag_model := []; slot_pool := [small_pool];
              task_reschedule := []; xcom := []; Model.job := []; utcnow := 5000 |} in
  let st := {| ti_status := with_dicts [(TaskInstance.key two_slot_ti, two_slot_ti)] [] status_init;
               executor := Executor.init 2 tt; session := s |} in
  (λ st, PoolSlots.occupied_slots small_pool (session st)) <$>
    task_round (mk_dag "diamond" [two_slot_task]) two_dates iso None (λ _, None) (λ _, None) (Some 1000) [two_slot_task] st = Ok 2.
Proof. by vm_compute. Qed.
End BackfillSample.
