(* ===== verification/Dict.v ===== *)
(** * Dict: dictionaries with string keys

    Python's insertion-ordered dictionaries with string keys, as lists of their
    items, and list comprehensions whose body can raise.  Shared by the components
    that keep such dictionaries. *)

From S2P Require Import Prelude.
From stdpp Require Import strings.

(** ** Operations *)
Section Dict.
Context {V : Type}.
Implicit Types (d : list (string * V)).

Definition sget (k : string) d : option V := snd <$> List.find (λ e, e.1 ≟ k) d.
Definition sin (k : string) d : bool := existsb (λ e, e.1 ≟ k) d.
Definition sset (k : string) (v : V) d : list (string * V) :=
  if sin k d then (λ e, if e.1 ≟ k then (k, v) else e) <$> d else d ++ [(k, v)].
Definition sdel (k : string) d : list (string * V) := List.filter (λ e, negb (e.1 ≟ k)) d.
End Dict.

(** [[f(x) for x in l]]. *)
Section MapR.
Context {A B : Type} (f : A → result B).
Fixpoint mapR (l : list A) : result (list B) :=
  match l with
  | [] => Ok []
  | x :: l => y ← f x; l ← mapR l; Ok (y :: l)
  end.
End MapR.

(** ** Lemmas *)

Lemma mapR_total {A B} (f : A → result B) (R : A → B → Prop) l :
  (∀ x, x ∈ l → ∃ y, f x = Ok y ∧ R x y) → ∃ ys, mapR f l = Ok ys ∧ Forall2 R l ys.
Proof.
  induction l as [|x l IH]; intros Hl; [by exists []|].
  destruct (Hl x ltac:(left)) as (y & Hy & HR). destruct IH as (ys & Hys & HRs); [set_solver|].
  exists (y :: ys). cbn. rewrite Hy. cbn. rewrite Hys. cbn. auto.
Qed.

Lemma sin_fmap {A B} (f : A → B) k (d : list (string * A)) : sin k ((λ e, (e.1, f e.2)) <$> d) = sin k d.
Proof. unfold sin. induction d as [|e d IH]; cbn; [done|]. by rewrite IH. Qed.

Lemma sset_fmap {A B} (f : A → B) k v (d : list (string * A)) :
  sset k (f v) ((λ e, (e.1, f e.2)) <$> d) = (λ e, (e.1, f e.2)) <$> sset k v d.
Proof.
  unfold sset. rewrite sin_fmap. destruct (sin k d).
  - rewrite <-!list_fmap_compose. apply list_fmap_ext. intros _ [k' x] _. cbn. by case_bool_decide.
  - by rewrite fmap_app.
Qed.

(** The dictionary of renamed keys. *)
Definition dict_of {A} (l : list (string * A)) : list (string * A) := foldl (λ m e, sset e.1 e.2 m) [] l.

Lemma dict_of_fmap {A B} (f : A → B) (l : list (string * A)) :
  dict_of ((λ e, (e.1, f e.2)) <$> l) = (λ e, (e.1, f e.2)) <$> dict_of l.
Proof.
  unfold dict_of. change (@nil (string * B)) with ((λ e : string * A, (e.1, f e.2)) <$> []) at 1.
  generalize (@nil (string * A)). induction l as [|e l IH]; intros acc; cbn [foldl fmap list_fmap]; [done|].
  cbn [fst snd]. by rewrite sset_fmap, IH.
Qed.

Lemma elem_of_dict_of {A} (l : list (string * A)) e : e ∈ dict_of l → e ∈ l.
Proof.
  unfold dict_of. assert (∀ acc, e ∈ foldl (λ m e, sset e.1 e.2 m) acc l → e ∈ acc ∨ e ∈ l) as Hg.
  { induction l as [|[k v] l IH]; intros acc; cbn; [by left|]. intros [Hin|Hin]%IH; [|set_solver].
    unfold sset in Hin. destruct (sin k acc); [|set_solver].
    apply list_elem_of_fmap in Hin as (e' & -> & He'). case_bool_decide; [right; left|by left]. }
  intros [?%elem_of_nil|?]%Hg; done.
Qed.

Section DictFacts.
Context {V : Type}.
Implicit Types (d : list (string * V)) (k : string).

Lemma sget_cons k k' v d : sget k ((k', v) :: d) = if k' ≟ k then Some v else sget k d.
Proof. unfold sget. cbn. by case_bool_decide. Qed.

Lemma sin_sget k d : sin k d = bool_decide (is_Some (sget k d)).
Proof.
  induction d as [|[k' v] d IH]; [done|]. rewrite sget_cons. unfold sin in *. cbn [existsb fst].
  destruct (k' ≟ k); cbn [orb]; [|exact IH]. symmetry. apply bool_decide_eq_true_2. eauto.
Qed.

Lemma sin_keys k d : sin k d = true ↔ k ∈ d.*1.
Proof.
  unfold sin. rewrite existsb_elem, list_elem_of_fmap. split.
  - intros (e & He & Hk%bool_decide_eq_true). by exists e.
  - intros (e & -> & He). exists e. by rewrite bool_decide_eq_true.
Qed.

Lemma sget_None k d : sget k d = None ↔ k ∉ d.*1.
Proof. rewrite <-sin_keys, sin_sget, bool_decide_eq_true. destruct (sget k d); split; naive_solver. Qed.

Lemma sget_elem k v d : sget k d = Some v → (k, v) ∈ d.
Proof.
  induction d as [|[k' w] d IH]; [done|]. rewrite sget_cons. case_bool_decide as Hk; [|set_solver].
  intros [= ->]. subst. left.
Qed.

Lemma sget_NoDup k v d : NoDup d.*1 → (k, v) ∈ d → sget k d = Some v.
Proof.
  induction d as [|[k' w] d IH]; [by intros _ ?%elem_of_nil|]. rewrite sget_cons. cbn [fmap list_fmap fst].
  intros [Hk Hd]%NoDup_cons.
  intros [[= -> ->]|Hin]%elem_of_cons; [by rewrite bool_decide_eq_true_2|].
  rewrite bool_decide_eq_false_2; [auto|]. intros ->. apply Hk, list_elem_of_fmap. by exists (k, v).
Qed.

Lemma sget_app k d1 d2 : sget k (d1 ++ d2) = match sget k d1 with Some v => Some v | None => sget k d2 end.
Proof. induction d1 as [|[k' w] d1 IH]; [done|]. rewrite <-app_comm_cons, !sget_cons. by case_bool_decide. Qed.

Lemma sget_sset k k' v d : sget k (sset k' v d) = if k' ≟ k then Some v else sget k d.
Proof.
  unfold sset. destruct (sin k' d) eqn:E.
  - assert (sget k ((λ e, if e.1 ≟ k' then (k', v) else e) <$> d) =
      if k' ≟ k then (λ _, v) <$> sget k d else sget k d) as ->.
    { clear E. induction d as [|[k2 w] d IH]; [by case_bool_decide|]. cbn [fmap list_fmap fst]. rewrite (sget_cons k k2).
      destruct (k2 ≟ k') eqn:E2; [apply bool_decide_eq_true in E2 as ->|apply bool_decide_eq_false in E2];
        rewrite sget_cons, IH; repeat case_bool_decide; naive_solver. }
    case_bool_decide as Hk; [|done]. subst k'. rewrite sin_sget, bool_decide_eq_true in E. by destruct E as [? ->].
  - rewrite sget_app, sget_cons. rewrite sin_sget, bool_decide_eq_false in E. case_bool_decide as Hk.
    + subst. destruct (sget k d); [|done]. by destruct E.
    + by destruct (sget k d).
Qed.

Lemma sset_keys k v d : (sset k v d).*1 = if sin k d then d.*1 else d.*1 ++ [k].
Proof.
  unfold sset. destruct (sin k d); [|by rewrite fmap_app]. rewrite <-list_fmap_compose.
  apply list_fmap_ext. intros _ [k' w] _. cbn. by case_bool_decide.
Qed.

Lemma sset_NoDup k v d : NoDup d.*1 → NoDup (sset k v d).*1.
Proof.
  intros Hd. rewrite sset_keys. destruct (sin k d) eqn:E; [done|]. apply NoDup_app. split_and!; [done| |apply NoDup_singleton].
  intros x Hx ->%list_elem_of_singleton. apply sin_keys in Hx. congruence.
Qed.

Lemma sdel_fresh k d : k ∉ d.*1 → sdel k d = d.
Proof.
  intros Hk. apply filterb_all. intros e He. apply negb_true_iff, bool_decide_eq_false. intros <-.
  apply Hk, list_elem_of_fmap. by exists e.
Qed.

Lemma elem_of_sdel k e d : e ∈ sdel k d ↔ e ∈ d ∧ e.1 ≠ k.
Proof. unfold sdel. rewrite elem_of_filterb, negb_true_iff, bool_decide_eq_false. tauto. Qed.

Lemma elem_of_sdel_keys k k' d : k' ∈ (sdel k d).*1 ↔ k' ∈ d.*1 ∧ k' ≠ k.
Proof. rewrite !list_elem_of_fmap. setoid_rewrite elem_of_sdel. naive_solver. Qed.

Lemma sdel_NoDup k d : NoDup d.*1 → NoDup (sdel k d).*1.
Proof. apply NoDup_fmap_filterb. Qed.

Lemma sdel_Permutation k v d : NoDup d.*1 → sget k d = Some v → d ≡ₚ (k, v) :: sdel k d.
Proof.
  induction d as [|[k' w] d IH]; [done|]. rewrite sget_cons. cbn [fmap list_fmap fst]. intros [Hk Hd]%NoDup_cons.
  unfold sdel. cbn [List.filter fst]. case_bool_decide as E; cbn [negb].
  - intros [= ->]. subst k'. fold (sdel k d). by rewrite sdel_fresh.
  - intros Hg. fold (sdel k d). rewrite (IH Hd Hg) at 1. apply Permutation_swap.
Qed.

Lemma sset_Permutation k v d : NoDup d.*1 → sset k v d ≡ₚ (k, v) :: sdel k d.
Proof.
  intros Hd. pose proof (sdel_Permutation k v (sset k v d) (sset_NoDup k v d Hd)) as Hp.
  rewrite Hp; [|by rewrite sget_sset, bool_decide_eq_true_2]. apply Permutation_skip.
  unfold sset, sdel. destruct (sin k d) eqn:E.
  - clear Hp Hd E. induction d as [|[k' w] d IH]; [done|]. cbn. destruct (k' ≟ k) eqn:E; cbn.
    + rewrite bool_decide_eq_true_2 by done. cbn. exact IH.
    + rewrite E. cbn. by rewrite IH.
  - rewrite List.filter_app. cbn. rewrite bool_decide_eq_true_2 by done. cbn. by rewrite app_nil_r.
Qed.

(** A dictionary built from items with distinct keys. *)
Lemma dict_of_NoDup (l : list (string * V)) : NoDup l.*1 → dict_of l = l.
Proof.
  unfold dict_of. assert (∀ acc, NoDup (acc ++ l).*1 → foldl (λ m e, sset e.1 e.2 m) acc l = acc ++ l) as Hg.
  { induction l as [|[k v] l IH]; intros acc; [by rewrite app_nil_r|]. intros Hd. cbn.
    assert (sset k v acc = acc ++ [(k, v)]) as ->.
    { unfold sset. destruct (sin k acc) eqn:E; [|done]. apply sin_keys in E. rewrite fmap_app, NoDup_app in Hd.
      destruct Hd as (_ & Hd & _). destruct (Hd k E). left. }
    rewrite IH; rewrite <-app_assoc; done. }
  intros Hd. by apply (Hg []).
Qed.

(** A sequence of assignments. *)
Definition ssets (upd d : list (string * V)) : list (string * V) := foldl (λ d e, sset e.1 e.2 d) d upd.

Lemma ssets_app u1 u2 d : ssets (u1 ++ u2) d = ssets u2 (ssets u1 d).
Proof. apply foldl_app. Qed.

Lemma ssets_NoDup upd d : NoDup d.*1 → NoDup (ssets upd d).*1.
Proof. revert d. induction upd as [|[k v] upd IH]; intros d Hd; [done|]. by apply IH, sset_NoDup. Qed.

Lemma ssets_old k upd d : k ∉ upd.*1 → sget k (ssets upd d) = sget k d.
Proof.
  revert d. induction upd as [|[k' v] upd IH]; intros d Hk; [done|]. cbn [fmap list_fmap fst] in Hk.
  change (ssets ((k', v) :: upd) d) with (ssets upd (sset k' v d)). rewrite IH by set_solver.
  rewrite sget_sset, bool_decide_eq_false_2; [done|set_solver].
Qed.

Lemma ssets_new k v upd d : (k, v) ∈ upd → (∀ w, (k, w) ∈ upd → w = v) → sget k (ssets upd d) = Some v.
Proof.
  revert d. induction upd as [|[k' w] upd IH]; intros d Hin Hone; [by apply elem_of_nil in Hin|].
  change (ssets ((k', w) :: upd) d) with (ssets upd (sset k' w d)). destruct (decide (k ∈ upd.*1)) as [Hk|Hk].
  - apply list_elem_of_fmap in Hk as ([k2 w2] & -> & Hk). cbn in *. apply IH; [|intros; apply Hone; by right].
    by rewrite <-(Hone w2) by (by right).
  - rewrite ssets_old by done. rewrite sget_sset.
    apply elem_of_cons in Hin as [[= -> ->]|Hin]; [by rewrite bool_decide_eq_true_2|].
    destruct Hk. apply list_elem_of_fmap. by exists (k, v).
Qed.

Lemma ssets_inv k v upd d : sget k (ssets upd d) = Some v → (k, v) ∈ upd ∨ ((k ∉ upd.*1) ∧ sget k d = Some v).
Proof.
  revert d. induction upd as [|[k' w] upd IH]; intros d Hg; [right; split; [by intros ?%elem_of_nil|done]|].
  change (ssets ((k', w) :: upd) d) with (ssets upd (sset k' w d)) in Hg. apply IH in Hg as [Hg|[Hk Hg]]; [left; by right|]. rewrite sget_sset in Hg. case_bool_decide as E.
  - injection Hg as ->. subst. left. left.
  - right. split; [|done]. cbn. set_solver.
Qed.
End DictFacts.

(** ** Tables with a string key

    [SELECT ... WHERE key = k] finds the first row. *)
Section Keyed.
Context {K A : Type} `{EqDecision K} (key : A → K).
Implicit Types (l : list A) (k : K).

Definition kfind k l : option A := List.find (λ x, key x ≟ k) l.

Lemma kfind_cons k x l : kfind k (x :: l) = if key x ≟ k then Some x else kfind k l.
Proof. unfold kfind. cbn. by destruct (key x ≟ k). Qed.

Lemma kfind_Some k l x : kfind k l = Some x → x ∈ l ∧ key x = k.
Proof. intros [? ?%bool_decide_eq_true]%List.find_some. split; [by apply list_elem_of_In|done]. Qed.

Lemma kfind_None k l : kfind k l = None ↔ k ∉ key <$> l.
Proof.
  induction l as [|x l IH]; [set_solver|]. rewrite kfind_cons, fmap_cons, not_elem_of_cons, <-IH.
  case_bool_decide; naive_solver.
Qed.

Lemma kfind_key k l : k ∈ key <$> l → ∃ x, kfind k l = Some x ∧ x ∈ l ∧ key x = k.
Proof.
  intros Hk. destruct (kfind k l) as [x|] eqn:E; [|by apply kfind_None in E].
  exists x. split; [done|]. by apply kfind_Some.
Qed.

Lemma kfind_elem k l x : NoDup (key <$> l) → x ∈ l → key x = k → kfind k l = Some x.
Proof.
  induction l as [|y l IH]; [by intros _ ?%elem_of_nil|]. rewrite kfind_cons, fmap_cons, NoDup_cons.
  intros [Hy Hl] [->|Hin]%elem_of_cons Hid; [by rewrite bool_decide_eq_true_2|]. case_bool_decide as E; [|auto].
  destruct Hy. rewrite E, <-Hid. apply list_elem_of_fmap. by exists x.
Qed.

Lemma kfind_app k l1 l2 : kfind k (l1 ++ l2) = match kfind k l1 with Some x => Some x | None => kfind k l2 end.
Proof. induction l1 as [|x l1 IH]; [done|]. cbn [app]. rewrite !kfind_cons, IH. by case_bool_decide. Qed.

Lemma kfind_filter k (f : A → bool) l x : NoDup (key <$> l) → kfind k (List.filter f l) = Some x → kfind k l = Some x.
Proof. intros Hl [Hin Hid]%kfind_Some. apply elem_of_filterb in Hin as [_ Hin]. by apply kfind_elem. Qed.

(** Replacing the row with the key of [x]. *)
Definition kput x l : list A := (λ y, if key y ≟ key x then x else y) <$> l.

Lemma kfind_kput k x l : kfind k (kput x l) = if key x ≟ k then (λ _, x) <$> kfind k l else kfind k l.
Proof.
  induction l as [|y l IH]; [by case_bool_decide|]. unfold kput in *. cbn [fmap list_fmap].
  rewrite kfind_cons, IH, (kfind_cons k y l). repeat case_bool_decide; cbn; congruence.
Qed.

Lemma kput_keys x l : key <$> kput x l = key <$> l.
Proof. unfold kput. rewrite <-list_fmap_compose. apply list_fmap_ext. intros _ y _. cbn. by case_bool_decide. Qed.
End Keyed.
