(* ===== verification/Serialization.v ===== *)
(** * Serialization: values and their JSON form

    [BaseSerialization._serialize] and [_deserialize]
    ([serialization/serialized_objects.py]) on the values that attributes of
    operators and DAGs hold, [serialize_template_field]
    ([serialization/helpers.py]) and the encoding of
    [serialization/enums.py].

    A value is a constructor of [py]; a set is the list of its elements in the
    order in which it is iterated, a dictionary the list of its items.  Floats
    are a type with the class [PyFloat]; the Kubernetes libraries are not
    installed ([HAS_KUBERNETES] is false).  DAGs and operators as values of
    attributes (sub-DAGs) are left out. *)

From S2P Require Import Prelude Dict State Model.
From stdpp Require Import strings pretty gmap.

(** What the code relies on for floats: a number of microseconds that is divided
    by 10^6 ([total_seconds], [timestamp]) and rounded back ([timedelta(seconds=)],
    [from_timestamp]) is the same within 2^33 seconds (about 270 years), as the
    documentation of [timedelta.total_seconds] says. *)
Class PyFloat (F : Type) `{EqDecision F} := {
  seconds_of : Z → F;
  microseconds_of : F → Z;
  float_leb : Z + F → Z + F → bool;           (* comparison of numbers *)
  float_repr : F → string;
  seconds_round_trip us : (Z.abs us ≤ 2 ^ 33 * 1000000)%Z → microseconds_of (seconds_of us) = us;
}.

#[local] Set Warnings "-register-all".

Module Serialization.
Local Open Scope Z_scope.

(** ** Values *)

Inductive prim (F : Type) :=
| NoneV | BoolV (b : bool) | IntV (n : Z) | FloatV (f : F) | StrV (s : string).
#[global] Arguments NoneV {F}.
#[global] Arguments BoolV {F} b.
#[global] Arguments IntV {F} n.
#[global] Arguments FloatV {F} f.
#[global] Arguments StrV {F} s.

Inductive json (F : Type) :=
| JPrim (p : prim F) | JList (l : list (json F)) | JDict (d : list (string * json F)).
#[global] Arguments JPrim {F} p.
#[global] Arguments JList {F} l.
#[global] Arguments JDict {F} d.

(** [relativedelta]: its attributes, 0 or None when they are not set, and
    [weekday] with its [n]. *)
Record relativedelta := {
  rd_fields : list (string * option Z);
  rd_weekday : option (Z * option Z);
}.

Definition rd_names : list string :=
  ["years"; "months"; "days"; "leapdays"; "hours"; "minutes"; "seconds"; "microseconds";
   "year"; "month"; "day"; "hour"; "minute"; "second"; "microsecond"].

(** The attributes that are true. *)
Definition rd_set (r : relativedelta) : list (string * Z) :=
  omap (λ e, match e.2 with Some n => if n =? 0 then None else Some (e.1, n) | None => None end) (rd_fields r).

(** No absolute attribute is 0, such as [hour=0]. *)
Definition rd_no_zero (r : relativedelta) : Prop :=
  ∀ k, k ∈ ["year"; "month"; "day"; "hour"; "minute"; "second"; "microsecond"] → (k, Some 0) ∉ rd_fields r.

(** dateutil: the objects that its constructor builds and the constructor, with
    the arguments by name and the weekday.  Giving the attributes that are set
    builds an equal object; the others are 0 or None by default. *)
Class Dateutil := {
  rd_valid : relativedelta → Prop;
  relativedelta_of : list (string * Z) → option (Z * option Z) → relativedelta;
  relativedelta_of_set r : rd_valid r → rd_no_zero r → relativedelta_of (rd_set r) (rd_weekday r) = r;
  rd_valid_names r : rd_valid r → fst <$> rd_fields r = rd_names;
}.

Inductive py (F : Type) :=
| PPrim (p : prim F)
| PEnum (value : prim F)                (* an enum whose members are ints or strings *)
| PList (l : list (py F))
| PTuple (l : list (py F))
| PSet (l : list (py F))
| PDict (d : list (py F * py F))
| PDatetime (t : datetime)
| PTimedelta (us : timedelta)
| PTimezone (name : string)
| PRelativedelta (r : relativedelta)
| PCallable (source : string)
| PExcluded (str : string)              (* a logger, a connection or a class *)
| PObject (str : string).               (* any other object and its [str] *)
#[global] Arguments PPrim {F} p.
#[global] Arguments PEnum {F} value.
#[global] Arguments PList {F} l.
#[global] Arguments PTuple {F} l.
#[global] Arguments PSet {F} l.
#[global] Arguments PDict {F} d.
#[global] Arguments PDatetime {F} t.
#[global] Arguments PTimedelta {F} us.
#[global] Arguments PTimezone {F} name.
#[global] Arguments PRelativedelta {F} r.
#[global] Arguments PCallable {F} source.
#[global] Arguments PExcluded {F} str.
#[global] Arguments PObject {F} str.

#[export] Instance prim_eq_dec `{EqDecision F} : EqDecision (prim F).
Proof. solve_decision. Defined.
#[export] Instance relativedelta_eq_dec : EqDecision relativedelta.
Proof. solve_decision. Defined.

(** Induction with hypotheses for the elements of containers. *)
Section Induction.
Context {F : Type} (P : py F → Prop).
Hypothesis Hatom : ∀ v, match v with PList _ | PTuple _ | PSet _ | PDict _ => True | _ => P v end.
Hypothesis Hlist : ∀ l, Forall P l → P (PList l).
Hypothesis Htuple : ∀ l, Forall P l → P (PTuple l).
Hypothesis Hset : ∀ l, Forall P l → P (PSet l).
Hypothesis Hdict : ∀ d, Forall (λ e, P e.1 ∧ P e.2) d → P (PDict d).

Fixpoint py_ind' (v : py F) : P v :=
  let all := fix all (l : list (py F)) : Forall P l :=
    match l with [] => Forall_nil_2 _ | x :: l => Forall_cons_2 _ _ _ (py_ind' x) (all l) end in
  let both := fix both (d : list (py F * py F)) : Forall (λ e, P e.1 ∧ P e.2) d :=
    match d with
    | [] => Forall_nil_2 _
    | (k, v) :: d => Forall_cons_2 (λ e, P e.1 ∧ P e.2) (k, v) d (conj (py_ind' k) (py_ind' v)) (both d)
    end in
  match v with
  | PList l => Hlist l (all l)
  | PTuple l => Htuple l (all l)
  | PSet l => Hset l (all l)
  | PDict d => Hdict d (both d)
  | v => Hatom v
  end.
End Induction.

(** Structural equality. *)
Section Equality.
Context {F : Type} `{EqDecision F}.

Fixpoint py_eqb (v w : py F) {struct v} : bool :=
  let all := fix all (l m : list (py F)) : bool :=
    match l, m with [], [] => true | x :: l, y :: m => py_eqb x y && all l m | _, _ => false end in
  let both := fix both (d c : list (py F * py F)) : bool :=
    match d, c with
    | [], [] => true
    | (k, x) :: d, (k', y) :: c => py_eqb k k' && py_eqb x y && both d c
    | _, _ => false
    end in
  match v, w with
  | PPrim p, PPrim q | PEnum p, PEnum q => bool_decide (p = q)
  | PList l, PList m | PTuple l, PTuple m | PSet l, PSet m => all l m
  | PDict d, PDict c => both d c
  | PDatetime t, PDatetime u | PTimedelta t, PTimedelta u => bool_decide (t = u)
  | PTimezone s, PTimezone u | PCallable s, PCallable u | PExcluded s, PExcluded u | PObject s, PObject u =>
      bool_decide (s = u)
  | PRelativedelta r, PRelativedelta u => bool_decide (r = u)
  | _, _ => false
  end.

Lemma py_eqb_eq v w : py_eqb v w = true ↔ v = w.
Proof.
  assert (∀ l, Forall (λ v, ∀ w, py_eqb v w = true ↔ v = w) l → ∀ m,
    (fix all (l m : list (py F)) : bool :=
      match l, m with [], [] => true | x :: l, y :: m => py_eqb x y && all l m | _, _ => false end) l m = true
    ↔ l = m) as Hall.
  { induction 1 as [|x l Hx _ IH]; intros [|y m]; try done. rewrite andb_true_iff, Hx, IH. naive_solver. }
  revert w. refine (py_ind' (λ v, ∀ w, py_eqb v w = true ↔ v = w) _ _ _ _ _ v); [clear v; intros v|intros l IH..|intros d IH].
  - destruct v; try done; intros w; destruct w; try done; cbn; rewrite bool_decide_eq_true; naive_solver.
  - intros w; destruct w; try done. cbn. rewrite Hall by done. naive_solver.
  - intros w; destruct w; try done. cbn. rewrite Hall by done. naive_solver.
  - intros w; destruct w; try done. cbn. rewrite Hall by done. naive_solver.
  - intros w; destruct w as [| | | | |c| | | | | | |]; try done. cbn. revert c.
    induction IH as [|[k x] d [Hk Hx] _ IHd]; intros [|[k' y] c]; try done.
    cbn in Hk, Hx. rewrite !andb_true_iff, Hk, Hx, IHd. naive_solver.
Qed.

#[export] Instance py_eq_dec : EqDecision (py F).
Proof. intros v w. refine (cast_if (decide (py_eqb v w = true))); by rewrite <-py_eqb_eq. Defined.
End Equality.

(** ** The encoding *)

Definition VAR := "__var".
Definition TYPE := "__type".

(** [str_other] is the [str] of containers, dates and enums; [nested] decodes
    DAGs and operators. *)
Section Values.
Context {F : Type} `{PyFloat F} `{Dateutil} (str_other : py F → string) (nested : string → json F → result (py F)).
Implicit Types (v : py F) (j : json F).

(** [str(v)]. *)
Definition prim_str (p : prim F) : string :=
  match p with
  | NoneV => "None"
  | BoolV true => "True"
  | BoolV false => "False"
  | IntV n => pretty n
  | FloatV f => float_repr f
  | StrV s => s
  end.
Definition py_str v : string :=
  match v with PPrim p => prim_str p | PObject s | PExcluded s => s | _ => str_other v end.

Definition _encode (x : json F) (type_ : string) : json F := JDict [(VAR, x); (TYPE, JPrim (StrV type_))].

(** [sorted] of serialized elements: None stands for the TypeError of elements
    that cannot be compared. *)
Definition as_str j : option string := match j with JPrim (StrV s) => Some s | _ => None end.
Definition as_num j : option (Z + F) :=
  match j with
  | JPrim (IntV n) => Some (inl n)
  | JPrim (BoolV b) => Some (inl (if b then 1 else 0))
  | JPrim (FloatV f) => Some (inr f)
  | _ => None
  end.
Definition json_leb (a b : json F) : bool :=
  match as_str a, as_str b, as_num a, as_num b with
  | Some s, Some t, _, _ => bool_decide (String.le s t)
  | _, _, Some n, Some m => float_leb n m
  | _, _, _, _ => false
  end.
Definition json_sorted (l : list (json F)) : option (list (json F)) :=
  if (length l <=? 1)%nat || forallb (λ j, bool_decide (is_Some (as_str j))) l ||
     forallb (λ j, match as_num j with Some _ => true | None => false end) l
  then Some (py_sorted json_leb l) else None.

(** The attributes of a [relativedelta] that are true, and [weekday]. *)
Definition encode_relativedelta (r : relativedelta) : json F :=
  JDict (((λ e, (e.1, JPrim (IntV e.2))) <$> rd_set r) ++
         match rd_weekday r with
         | Some (w, Some n) => [("weekday", JList [JPrim (IntV w); JPrim (IntV n)])]
         | Some (w, None) => [("weekday", JList [JPrim (IntV w)])]
         | None => []
         end).

Fixpoint _serialize v : json F :=
  match v with
  | PPrim p => JPrim p
  | PEnum value => JPrim value
  | PDict d => _encode (JDict (foldl (λ m e, sset e.1 e.2 m) [] ((λ e, (py_str e.1, _serialize e.2)) <$> d))) "dict"
  | PList l => JList (_serialize <$> l)
  | PDatetime t => _encode (JPrim (FloatV (seconds_of t))) "datetime"
  | PTimedelta us => _encode (JPrim (FloatV (seconds_of us))) "timedelta"
  | PTimezone name => _encode (JPrim (StrV name)) "timezone"
  | PRelativedelta r => _encode (encode_relativedelta r) "relativedelta"
  | PCallable source => JPrim (StrV source)
  | PSet l =>
      let elements := _serialize <$> l in
      _encode (JList (default elements (json_sorted elements))) "set"
  | PTuple l => _encode (JList (_serialize <$> l)) "tuple"
  | PExcluded s | PObject s => JPrim (StrV s)
  end.

(** Whether a value can be an element of a set. *)
Fixpoint hashable v : bool :=
  match v with
  | PList _ | PSet _ | PDict _ => false
  | PTuple l => forallb hashable l
  | _ => true
  end.

(** [{x for x in l}]. *)
Definition make_set (l : list (py F)) : result (py F) :=
  if forallb hashable l then Ok (PSet (remove_dups l)) else Err TypeError.

Definition as_microseconds j : result Z :=
  match j with
  | JPrim (FloatV f) => Ok (microseconds_of f)
  | JPrim (IntV n) => Ok (n * 1000000)
  | _ => Err TypeError
  end.

Definition as_int j : result Z := match j with JPrim (IntV n) => Ok n | _ => Err TypeError end.

(** [relativedelta.relativedelta] of the keyword arguments, after [weekday] has been
    built from its list. *)
Definition decode_relativedelta j : result (py F) :=
  match j with
  | JDict d =>
      weekday ← match sget "weekday" d with
        | None => Ok None
        | Some (JList [w]) => w ← as_int w; Ok (Some (w, None))
        | Some (JList [w; n]) => w ← as_int w; n ← as_int n; Ok (Some (w, Some n))
        | Some _ => Err TypeError
        end;
      kwargs ← mapR (λ e, n ← as_int e.2; Ok (e.1, n)) (List.filter (λ e, negb (e.1 ≟ "weekday")) d);
      Ok (PRelativedelta (relativedelta_of kwargs weekday))
  | _ => Err TypeError
  end.

(** The value of [VAR] is decoded according to that of [TYPE]. *)
Fixpoint _deserialize j {struct j} : result (py F) :=
  match j with
  | JPrim p => Ok (PPrim p)
  | JList l => PList <$> mapR _deserialize l
  | JDict d =>
      (fix find_var (m : list (string * json F)) : result (py F) :=
         match m with
         | [] => Err KeyError
         | (k, var) :: m =>
             if negb (k ≟ VAR) then find_var m
             else match sget TYPE d with
                  | None => Err KeyError
                  | Some (JPrim (StrV type_)) =>
                      if type_ ≟ "dict" then
                        match var with
                        | JDict c => PDict <$> mapR (λ e, v ← _deserialize e.2; Ok (PPrim (StrV e.1), v)) c
                        | _ => Err AttributeError
                        end
                      else if type_ ∈? ["dag"; "operator"] then nested type_ var
                      else if type_ ≟ "datetime" then PDatetime <$> as_microseconds var
                      else if type_ ≟ "k8s.V1Pod" then Err RuntimeError
                      else if type_ ≟ "timedelta" then PTimedelta <$> as_microseconds var
                      else if type_ ≟ "timezone" then
                        match var with JPrim (StrV s) => Ok (PTimezone s) | _ => Err TypeError end
                      else if type_ ≟ "relativedelta" then decode_relativedelta var
                      else if type_ ≟ "set" then
                        match var with JList l => l ← mapR _deserialize l; make_set l | _ => Err TypeError end
                      else if type_ ≟ "tuple" then
                        match var with JList l => PTuple <$> mapR _deserialize l | _ => Err TypeError end
                      else Err TypeError
                  | Some _ => Err TypeError
                  end
         end) d
  end.

End Values.

(** ** What comes back *)

Section Normal.
Context {F : Type} `{PyFloat F} `{Dateutil} (str_other : py F → string).
Implicit Types (v : py F).

(** Keys and objects come back as strings, enums as their values. *)
Fixpoint normal v : py F :=
  match v with
  | PEnum value => PPrim value
  | PDict d =>
      PDict ((λ e, (PPrim (StrV e.1), e.2)) <$>
             foldl (λ m e, sset e.1 e.2 m) [] ((λ e, (py_str str_other e.1, normal e.2)) <$> d))
  | PList l => PList (normal <$> l)
  | PTuple l => PTuple (normal <$> l)
  | PSet l => PSet (remove_dups (normal <$> l))
  | PCallable s | PExcluded s | PObject s => PPrim (StrV s)
  | _ => v
  end.

Definition in_range (us : Z) : Prop := Z.abs us ≤ 2 ^ 33 * 1000000.

(** The values of the round trip: dates and deltas in the range of [float],
    relative deltas without absolute zeros, sets of hashable elements. *)
Fixpoint supported v : Prop :=
  match v with
  | PDatetime us | PTimedelta us => in_range us
  | PRelativedelta r => rd_valid r ∧ rd_no_zero r
  | PList l | PTuple l => foldr (λ v P, supported v ∧ P) True l
  | PSet l => forallb hashable l = true ∧ foldr (λ v P, supported v ∧ P) True l
  | PDict d => foldr (λ e P, supported e.2 ∧ P) True d
  | _ => True
  end.

(** Values that differ in the order of sets only. *)
Inductive py_eqv : relation (py F) :=
| Eqv_refl v : py_eqv v v
| Eqv_list l m : Forall2 py_eqv l m → py_eqv (PList l) (PList m)
| Eqv_tuple l m : Forall2 py_eqv l m → py_eqv (PTuple l) (PTuple m)
| Eqv_set l m : l ≡ₚ m → py_eqv (PSet l) (PSet m)
| Eqv_dict d c : Forall2 (λ e f, e.1 = f.1 ∧ py_eqv e.2 f.2) d c → py_eqv (PDict d) (PDict c).
End Normal.
End Serialization.
Import Serialization.

(** ** Lemmas *)

Section SerializationFacts.
Local Open Scope Z_scope.

Lemma foldr_and {A} (P : A → Prop) l : foldr (λ x Q, P x ∧ Q) True l ↔ Forall P l.
Proof. induction l as [|x l IH]; cbn; [by rewrite Forall_nil|]. by rewrite Forall_cons, IH. Qed.

End SerializationFacts.

Section RoundTrip.
Local Open Scope Z_scope.
Context {F : Type} `{PyFloat F} `{Dateutil} (str_other : py F → string) (nested : string → json F → result (py F)).
Implicit Types (v : py F).

Abbreviation ser := (_serialize str_other).
Abbreviation des := (_deserialize nested).
Abbreviation norm := (normal str_other).

Lemma normal_hashable v : hashable v = true → hashable (norm v) = true.
Proof.
  refine (py_ind' (λ v, hashable v = true → hashable (norm v) = true) _ _ _ _ _ v); try done; [clear v; by intros []|].
  intros l IH Hl. cbn in *. rewrite forallb_elem in *. intros w (x & -> & Hx)%list_elem_of_fmap.
  rewrite Forall_forall in IH. auto.
Qed.

(** [sorted] rearranges the elements. *)
Lemma sorted_elements l : ∃ m, default (ser <$> l) (json_sorted (ser <$> l)) = ser <$> m ∧ l ≡ₚ m.
Proof.
  unfold json_sorted. case_match; cbn [default]; [|by exists l].
  destruct (Permutation_map_inv ser l (py_sorted_Permutation json_leb (ser <$> l))) as (m & Hs & Hm).
  exists m. by split.
Qed.

Lemma relativedelta_round_trip r : rd_valid r → rd_no_zero r →
  des (_encode (encode_relativedelta r) "relativedelta") = Ok (PRelativedelta r).
Proof.
  intros Hv Hz. assert (∀ e, e ∈ rd_set r → e.1 ≠ "weekday") as Hname.
  { intros [k n] Hin Hw. cbn in Hw. subst k. unfold rd_set in Hin. apply list_elem_of_omap in Hin as ([k o] & Hin & He).
    assert (k ∈ rd_names) as Hk. { rewrite <-(rd_valid_names r Hv). apply list_elem_of_fmap. by exists (k, o). }
    destruct o as [m|]; [|done]. cbn in He. destruct (m =? 0); [done|]. injection He as -> _.
    revert Hk. apply (bool_decide_unpack _). by vm_compute. }
  change (decode_relativedelta (F:=F) (encode_relativedelta r) = Ok (PRelativedelta r)).
  unfold decode_relativedelta, encode_relativedelta.
  set (W := match rd_weekday r with Some (w, Some n) => _ | Some (w, None) => _ | None => _ end).
  assert (∀ m : list (string * Z), (∀ e, e ∈ m → e.1 ≠ "weekday") →
    sget "weekday" (((λ e, (e.1, JPrim (F:=F) (IntV e.2))) <$> m) ++ W) = sget "weekday" W ∧
    List.filter (λ e, negb (e.1 ≟ "weekday")) (((λ e, (e.1, JPrim (F:=F) (IntV e.2))) <$> m) ++ W) =
    (λ e, (e.1, JPrim (IntV e.2))) <$> m) as Hm.
  { clear. induction m as [|e m IH]; intros Hn; cbn.
    - subst W. destruct (rd_weekday r) as [[w [n|]]|]; done.
    - rewrite bool_decide_eq_false_2 by (apply Hn; left). cbn.
      destruct IH as [IH1 IH2]; [intros; apply Hn; by right|]. by rewrite IH2. }
  destruct (Hm _ Hname) as [-> ->].
  assert (∀ m : list (string * Z),
    mapR (λ e, n ← as_int e.2; Ok (e.1, n)) ((λ e, (e.1, JPrim (F:=F) (IntV e.2))) <$> m) = Ok m) as ->.
  { induction m as [|[k n] m IH]; cbn; [done|]. by rewrite IH. }
  pose proof (relativedelta_of_set r Hv Hz) as Hof. subst W.
  transitivity (Ok (PRelativedelta (F:=F) (relativedelta_of (rd_set r) (rd_weekday r)))); [|by rewrite Hof].
  by destruct (rd_weekday r) as [[w [n|]]|].
Qed.

(** What one element gives. *)
Definition comes_back v : Prop :=
  supported v → ∃ v', des (ser v) = Ok v' ∧ py_eqv v' (norm v) ∧ (hashable v = true → v' = norm v).

Lemma elements_come_back l : Forall comes_back l → Forall supported l →
  ∃ l', mapR des (ser <$> l) = Ok l' ∧ Forall2 py_eqv l' (norm <$> l) ∧
        (forallb hashable l = true → l' = norm <$> l).
Proof.
  induction 1 as [|v l Hv _ IH]; intros Hs; [by exists []|]. apply Forall_cons in Hs as [Hs Hl].
  destruct (Hv Hs) as (v' & Hd & He & Hh). destruct (IH Hl) as (l' & Hd' & He' & Hh').
  exists (v' :: l'). cbn. rewrite Hd. cbn. rewrite Hd'. cbn. split_and!; [done|by constructor|].
  rewrite andb_true_iff. intros [? ?]. f_equal; auto.
Qed.

Lemma set_comes_back l : Forall comes_back l → comes_back (PSet l).
Proof.
  intros IH [Hh Hs%foldr_and]. cbn [_serialize]. destruct (sorted_elements l) as (m & -> & Hp).
  rewrite Hp in IH, Hs. destruct (elements_come_back m IH Hs) as (m' & Hd & _ & Hm).
  assert (forallb hashable m = true) as Hhm.
  { rewrite forallb_elem in *. intros x Hx. apply Hh. by rewrite Hp. }
  rewrite (Hm Hhm) in Hd. exists (PSet (remove_dups (norm <$> m))). split_and!; [|constructor|done].
  - change (des _) with (l ← mapR des (ser <$> m); make_set l). rewrite Hd. cbn. unfold make_set.
    rewrite (proj2 (forallb_elem _ _)); [done|]. intros x (y & -> & Hy)%list_elem_of_fmap.
    apply normal_hashable. rewrite forallb_elem in Hhm. auto.
  - apply NoDup_Permutation; [apply NoDup_remove_dups..|]. intros x. rewrite !elem_of_remove_dups. by rewrite Hp.
Qed.

Lemma dict_comes_back d : Forall (λ e, comes_back e.1 ∧ comes_back e.2) d → comes_back (PDict d).
Proof.
  intros IH Hs%foldr_and. cbn [_serialize normal].
  set (kvs := (λ e : py F * py F, (py_str str_other e.1, e.2)) <$> d).
  replace ((λ e, (py_str str_other e.1, ser e.2)) <$> d) with ((λ e, (e.1, ser e.2)) <$> kvs)
    by (subst kvs; by rewrite <-list_fmap_compose).
  replace ((λ e, (py_str str_other e.1, norm e.2)) <$> d) with ((λ e, (e.1, norm e.2)) <$> kvs)
    by (subst kvs; by rewrite <-list_fmap_compose).
  fold (dict_of ((λ e, (e.1, ser e.2)) <$> kvs)) (dict_of ((λ e, (e.1, norm e.2)) <$> kvs)).
  rewrite !dict_of_fmap. assert (∀ e, e ∈ dict_of kvs → comes_back e.2 ∧ supported e.2) as Hin.
  { intros e He%elem_of_dict_of. apply list_elem_of_fmap in He as (e' & -> & He'). rewrite Forall_forall in IH, Hs.
    split; [by apply (IH e' He')|by apply Hs]. }
  generalize dependent (dict_of kvs). clear. intros D Hin.
  change (des _) with (PDict <$> mapR (λ e, v ← des e.2; Ok (PPrim (F:=F) (StrV e.1), v)) ((λ e, (e.1, ser e.2)) <$> D)).
  assert (∃ c, mapR (λ e, v ← des e.2; Ok (PPrim (F:=F) (StrV e.1), v)) ((λ e, (e.1, ser e.2)) <$> D) = Ok c ∧
    Forall2 (λ e f, e.1 = f.1 ∧ py_eqv e.2 f.2) c ((λ e, (PPrim (F:=F) (StrV e.1), e.2)) <$> ((λ e, (e.1, norm e.2)) <$> D)))
    as (c & Hc & HR).
  { induction D as [|[k v] D IHD]; [by exists []|]. destruct (Hin (k, v) ltac:(left)) as [Hv Hs].
    destruct (Hv Hs) as (v' & Hd & He & _). destruct IHD as (c & Hc & HR); [set_solver|].
    exists ((PPrim (StrV k), v') :: c). cbn in *. rewrite Hd. cbn. rewrite Hc. cbn. split; [done|]. by constructor. }
  exists (PDict c). rewrite Hc. split_and!; [done|by constructor|done].
Qed.

Lemma all_come_back v : comes_back v.
Proof.
  refine (py_ind' comes_back _ _ _ set_comes_back dict_comes_back v).
  - clear v. intros []; try done; intros Hs; eexists; (split_and!; [|constructor|done]); try done; cbn in Hs.
    + change (PDatetime <$> Ok (microseconds_of (seconds_of t)) = Ok (PDatetime (F:=F) t)). by rewrite seconds_round_trip.
    + change (PTimedelta <$> Ok (microseconds_of (seconds_of us)) = Ok (PTimedelta (F:=F) us)). by rewrite seconds_round_trip.
    + apply relativedelta_round_trip; apply Hs.
  - intros l IH Hs%foldr_and. destruct (elements_come_back l IH Hs) as (l' & Hd & He & _).
    exists (PList l'). cbn [_serialize _deserialize]. rewrite Hd. split_and!; [done|by constructor|done].
  - intros l IH Hs%foldr_and. destruct (elements_come_back l IH Hs) as (l' & Hd & He & Hh).
    exists (PTuple l'). change (des (ser (PTuple l))) with (PTuple <$> mapR des (ser <$> l)). rewrite Hd.
    split_and!; [done|by constructor|]. cbn. intros Hl. by rewrite (Hh Hl).
Qed.

(** What [_serialize] writes, [_deserialize] reads back: for every value whose
    dates fit a float and whose relative deltas have no absolute zero it succeeds,
    with the value itself up to the order of sets, where keys of dictionaries,
    callables and objects are strings and enums their values. *)
Theorem serialize_round_trip v (Hv : supported v) : ∃ v', des (ser v) = Ok v' ∧ py_eqv v' (norm v).
Proof. destruct (all_come_back v Hv) as (v' & ? & ? & _). eauto. Qed.
End RoundTrip.

(** ** Samples *)

Module SerializationSample.
Local Open Scope Z_scope.

(** Floats that are numbers of microseconds. *)
#[export] Instance micro_float : PyFloat Z.
Proof.
  refine {| seconds_of := λ us, us; microseconds_of := λ f, f; float_repr := pretty;
            float_leb := λ a b, let us n := match n with inl n => n * 1000000 | inr f => f end in us a <=? us b |}.
  done.
Defined.

(** A constructor of relative deltas that keeps its arguments. *)
Definition rd_relative : list string := take 8 rd_names.
Definition keep_arguments (kwargs : list (string * Z)) (weekday : option (Z * option Z)) : relativedelta :=
  {| rd_fields := (λ k, (k, match sget k kwargs with
                            | Some n => Some n
                            | None => if k ∈? rd_relative then Some 0 else None
                            end)) <$> rd_names;
     rd_weekday := weekday |}.

Definition well_formed (r : relativedelta) : Prop :=
  ∃ f, rd_fields r = (λ k, (k, f k)) <$> rd_names ∧ ∀ k, k ∈ rd_relative → f k ≠ None.

Lemma sget_rd_set (f : string → option Z) k names : NoDup names → k ∈ names →
  sget k (omap (λ e : string * option Z, match e.2 with Some n => if n =? 0 then None else Some (e.1, n) | None => None end)
            ((λ k, (k, f k)) <$> names)) =
  match f k with Some n => if n =? 0 then None else Some n | None => None end.
Proof.
  intros Hnd. assert (∀ l, k ∉ l →
    sget k (omap (λ e : string * option Z, match e.2 with Some n => if n =? 0 then None else Some (e.1, n) | None => None end)
            ((λ k, (k, f k)) <$> l)) = None) as Hno.
  { induction l as [|x l IH]; cbn; [done|]. intros Hx. destruct (f x) as [n|]; cbn; [destruct (n =? 0); cbn|]; try set_solver.
    unfold sget. cbn. rewrite bool_decide_eq_false_2 by set_solver. cbn. apply IH. set_solver. }
  induction Hnd as [|x l Hx Hnd IH]; intros Hk; [by apply elem_of_nil in Hk|]. destruct (decide (k = x)) as [->|Hne].
  - cbn. destruct (f x) as [n|]; [|by apply Hno]. destruct (n =? 0); [by apply Hno|].
    unfold sget. cbn. by rewrite bool_decide_eq_true_2.
  - assert (k ∈ l) as Hl by set_solver. cbn. destruct (f x) as [n|]; [|by apply IH]. destruct (n =? 0); [by apply IH|].
    unfold sget. cbn. rewrite bool_decide_eq_false_2 by done. by apply IH.
Qed.

#[export] Instance keep_dateutil : Dateutil.
Proof.
  refine {| rd_valid := well_formed; relativedelta_of := keep_arguments |}.
  - intros [fields w] (f & Hf & Hrel) Hz. cbn [rd_fields] in Hf. subst fields. unfold keep_arguments, rd_set. cbn [rd_fields rd_weekday].
    f_equal. apply list_fmap_ext. intros i k Hk. f_equal. apply list_elem_of_lookup_2 in Hk.
    rewrite sget_rd_set by (done || apply (bool_decide_unpack _); by vm_compute).
    destruct (f k) as [n|] eqn:E; [destruct (n =? 0) eqn:En|]; [|done|].
    + apply Z.eqb_eq in En as ->. case_bool_decide as Hr; [done|]. exfalso. apply (Hz k).
      * rewrite <-(take_drop 8 rd_names) in Hk. apply elem_of_app in Hk as [Hk|Hk]; [by destruct Hr|exact Hk].
      * cbn [rd_fields]. apply list_elem_of_fmap. exists k. by rewrite E.
    + case_bool_decide as Hr; [|done]. by destruct (Hrel k Hr).
  - intros r (f & -> & _). by vm_compute.
Defined.

Definition no_str (v : py Z) : string := "".
Definition no_nested (_ : string) (_ : json Z) : result (py Z) := Err AttributeError.

(** A [default_args] with a date, a delta, a set and a tuple. *)
Definition default_args : py Z :=
  PDict [(PPrim (StrV "start_date"), PDatetime 1600000000000000);
         (PPrim (StrV "retry_delay"), PTimedelta 300000000);
         (PPrim (StrV "tags"), PSet [PPrim (StrV "b"); PPrim (StrV "a")]);
         (PPrim (IntV 3), PTuple [PPrim NoneV; PPrim (BoolV true)])].

Example default_args_comes_back : _deserialize no_nested (_serialize no_str default_args) =
  Ok (PDict [(PPrim (StrV "start_date"), PDatetime 1600000000000000);
             (PPrim (StrV "retry_delay"), PTimedelta 300000000);
             (PPrim (StrV "tags"), PSet [PPrim (StrV "a"); PPrim (StrV "b")]);
             (PPrim (StrV "3"), PTuple [PPrim NoneV; PPrim (BoolV true)])]).
Proof. by vm_compute. Qed.

Lemma serialize_round_trip_witness :
  ∃ v', _deserialize no_nested (_serialize no_str default_args) = Ok v' ∧ py_eqv v' (normal no_str default_args).
Proof. apply serialize_round_trip. vm_compute. repeat split; done. Defined.

(** [relativedelta(days=1, hour=0)], midnight of the next day, comes back as
    [relativedelta(days=1)]. *)
Example absolute_zero_is_lost :
  _deserialize no_nested (_serialize no_str (PRelativedelta (keep_arguments [("days", 1); ("hour", 0)] None))) =
  Ok (PRelativedelta (keep_arguments [("days", 1)] None)).
Proof. by vm_compute. Qed.
End SerializationSample.
