(* ===== verification/SerializedDag.v ===== *)
(** * SerializedDag: operators and DAGs in JSON

    [SerializedBaseOperator] and [SerializedDAG]
    ([serialization/serialized_objects.py]) with the fields that
    [get_serialized_fields] lists ([models/baseoperator.py], [models/dag.py]):
    which attributes are written, in which form, and how they are read back.

    An object is the finite map of its attributes.  Sub-DAGs and task groups are
    left out; extra links are not loaded, as in the scheduler
    ([_load_operator_extra_links] is false). *)

From S2P Require Import Prelude Dict State Model Serialization.
From stdpp Require Import strings gmap.

Import Serialization.

Module SerializedDag.
Local Open Scope Z_scope.

(** ** Objects *)

(** The settings that are defaults of the constructors. *)
Record Defaults := {
  default_owner : string;
  default_email_on_retry : bool;
  default_email_on_failure : bool;
  default_task_retries : Z;
  default_queue : string;
  max_active_tasks_per_dag : Z;
  max_active_runs_per_dag : Z;
  dag_default_view : string;
  dag_orientation : string;
  catchup_by_default : bool;
  default_timezone : string;
}.

(** The attributes of an object. *)
Abbreviation Attrs F := (gmap string (py F)).

Section Objects.
Context {F : Type}.

(** [getattr(obj, k, None)]. *)
Definition getattr (k : string) (a : Attrs F) : py F := default (PPrim NoneV) (a !! k).

(** An operator: its attributes, the name and the module of its class, whether
    it inherits from [DummyOperator], the modules and names of its [deps] (None for
    those of [BaseOperator]) and its extra links in JSON. *)
Record Operator := {
  op_attrs : Attrs F;
  op_class : string;
  op_module : string;
  op_dummy : bool;
  op_deps : option (list (string * string));
  op_extra_links : list (json F);
}.

(** A DAG: its attributes and its tasks in the order of [task_dict]. *)
Record Dag := {
  dag_attrs : Attrs F;
  dag_tasks : list Operator;
  dag_group : json F;
  dag_has_on_success : bool;
  dag_has_on_failure : bool;
}.

Definition str (s : string) : py F := PPrim (StrV s).
Definition none : py F := PPrim NoneV.
Definition pbool (b : bool) : py F := PPrim (BoolV b).
Definition pint (n : Z) : py F := PPrim (IntV n).

(** The parameters of [BaseOperator.__init__] with a default, and the attributes
    of [SerializedBaseOperator(task_id=...)]. *)
Definition op_params (c : Defaults) : list (string * py F) :=
  [("owner", str (default_owner c)); ("email", none); ("email_on_retry", pbool (default_email_on_retry c));
   ("email_on_failure", pbool (default_email_on_failure c)); ("retries", pint (default_task_retries c));
   ("retry_delay", PTimedelta 300000000); ("retry_exponential_backoff", pbool false); ("max_retry_delay", none);
   ("start_date", none); ("end_date", none); ("depends_on_past", pbool false); ("wait_for_downstream", pbool false);
   ("dag", none); ("params", none); ("default_args", none); ("priority_weight", pint 1);
   ("weight_rule", str "downstream"); ("queue", str (default_queue c)); ("pool", none); ("pool_slots", pint 1);
   ("sla", none); ("execution_timeout", none); ("on_execute_callback", none); ("on_failure_callback", none);
   ("on_success_callback", none); ("on_retry_callback", none); ("trigger_rule", str "all_success");
   ("resources", none); ("run_as_user", none); ("task_concurrency", none); ("executor_config", none);
   ("do_xcom_push", pbool true); ("inlets", none); ("outlets", none); ("task_group", none); ("doc", none);
   ("doc_md", none); ("doc_json", none); ("doc_yaml", none); ("doc_rst", none)].

Definition op_attrs_init (c : Defaults) (task_id : string) : Attrs F :=
  list_to_map
  [("task_id", str task_id); ("label", str task_id);
   ("owner", str (default_owner c)); ("email", none); ("email_on_retry", pbool (default_email_on_retry c));
   ("email_on_failure", pbool (default_email_on_failure c)); ("start_date", none); ("end_date", none);
   ("trigger_rule", str "all_success"); ("depends_on_past", pbool false); ("wait_for_downstream", pbool false);
   ("retries", pint (default_task_retries c)); ("queue", str (default_queue c)); ("pool", str "default_pool");
   ("pool_slots", pint 1); ("sla", none); ("execution_timeout", none); ("on_execute_callback", none);
   ("on_failure_callback", none); ("on_success_callback", none); ("on_retry_callback", none);
   ("retry_delay", PTimedelta 300000000); ("retry_exponential_backoff", pbool false); ("max_retry_delay", none);
   ("params", PDict []); ("priority_weight", pint 1); ("weight_rule", str "downstream"); ("resources", none);
   ("run_as_user", none); ("task_concurrency", none); ("executor_config", PDict []); ("do_xcom_push", pbool true);
   ("doc_md", none); ("doc_json", none); ("doc_yaml", none); ("doc_rst", none); ("doc", none);
   ("_upstream_task_ids", PSet []); ("_downstream_task_ids", PSet []); ("subdag", none);
   ("_log", PExcluded "airflow.task.operators"); ("inlets", PList []); ("outlets", PList []);
   ("_inlets", PList []); ("_outlets", PList []); ("_task_type", str "BaseOperator"); ("ui_color", str "#fff");
   ("ui_fgcolor", str "#000"); ("template_fields", PTuple []); ("operator_extra_links", PTuple []);
   ("template_fields_renderers", PDict [])].

(** [BaseOperator.get_serialized_fields]. *)
Definition op_fields : list string :=
  ["task_id"; "label"; "owner"; "email"; "email_on_retry"; "email_on_failure"; "start_date"; "end_date";
   "trigger_rule"; "depends_on_past"; "wait_for_downstream"; "retries"; "queue"; "pool"; "pool_slots"; "sla";
   "execution_timeout"; "on_execute_callback"; "on_failure_callback"; "on_success_callback"; "on_retry_callback";
   "retry_delay"; "retry_exponential_backoff"; "max_retry_delay"; "params"; "priority_weight"; "weight_rule";
   "resources"; "run_as_user"; "task_concurrency"; "executor_config"; "do_xcom_push"; "doc_md"; "doc_json";
   "doc_yaml"; "doc_rst"; "doc"; "_downstream_task_ids"; "_log"; "_inlets"; "_outlets"; "_task_type"; "subdag";
   "ui_color"; "ui_fgcolor"; "template_fields"; "template_fields_renderers"].

Definition op_decorated_fields : list string := ["executor_config"].

(** The same for [DAG]; the parameters have the names of their attributes. *)
Definition dag_params (c : Defaults) : list (string * py F) :=
  [("_description", none); ("schedule_interval", PTimedelta 86400000000); ("start_date", none); ("end_date", none);
   ("full_filepath", none); ("template_searchpath", none); ("template_undefined", PExcluded "StrictUndefined");
   ("user_defined_macros", none); ("user_defined_filters", none); ("default_args", none); ("concurrency", none);
   ("_max_active_tasks", pint (max_active_tasks_per_dag c)); ("max_active_runs", pint (max_active_runs_per_dag c));
   ("dagrun_timeout", none); ("sla_miss_callback", none); ("_default_view", str (dag_default_view c));
   ("orientation", str (dag_orientation c)); ("catchup", pbool (catchup_by_default c)); ("on_success_callback", none);
   ("on_failure_callback", none); ("doc_md", none); ("params", none); ("_access_control", none);
   ("is_paused_upon_creation", none); ("jinja_environment_kwargs", none); ("render_template_as_native_obj", pbool false);
   ("tags", none)].

Definition dag_attrs_init (c : Defaults) (dag_id : string) : Attrs F :=
  list_to_map
  [("default_args", PDict []); ("params", PDict []); ("_dag_id", str dag_id);
   ("_max_active_tasks", pint (max_active_tasks_per_dag c)); ("_description", none); ("fileloc", str "");
   ("timezone", PTimezone (default_timezone c)); ("start_date", none); ("end_date", none);
   ("schedule_interval", PTimedelta 86400000000); ("max_active_runs", pint (max_active_runs_per_dag c));
   ("dagrun_timeout", none); ("_default_view", str (dag_default_view c)); ("orientation", str (dag_orientation c));
   ("catchup", pbool (catchup_by_default c)); ("edge_info", PDict []); ("doc_md", none); ("_access_control", none);
   ("is_paused_upon_creation", none); ("render_template_as_native_obj", pbool false); ("tags", none)].

Definition dag_fields : list string :=
  ["default_args"; "params"; "_dag_id"; "_max_active_tasks"; "_description"; "fileloc"; "timezone"; "start_date";
   "end_date"; "schedule_interval"; "max_active_runs"; "dagrun_timeout"; "_default_view"; "orientation"; "catchup";
   "edge_info"; "doc_md"; "_access_control"; "is_paused_upon_creation"; "render_template_as_native_obj"; "tags"].

Definition dag_decorated_fields : list string := ["schedule_interval"; "default_args"; "_access_control"].
End Objects.
#[global] Arguments Operator F : clear implicits.
#[global] Arguments Dag F : clear implicits.

(** [s.endswith(suffix)]. *)
Definition ends_with (suffix s : string) : bool :=
  String.substring (String.length s - String.length suffix) (String.length suffix) s ≟ suffix.

(** Object identity: the same object is an equal one, and there is one None. *)
Class Identity (F : Type) := {
  same : py F → py F → bool;
  same_eq v w : same v w = true → v = w;
  same_none : same (PPrim NoneV) (PPrim NoneV) = true;
}.

Section Serialize.
Context {F : Type} `{PyFloat F} `{Dateutil} `{Identity F} (c : Defaults)
        (str_other : py F → string) (nested : string → json F → result (py F)) (importable : string → bool).
Implicit Types (v : py F) (j : json F) (a : Attrs F) (k : string).

(** ** Writing *)

Definition is_empty v : bool := match v with PDict [] | PList [] => true | _ => false end.

Definition _value_is_hardcoded_default (params : list (string * py F)) k v : bool :=
  match sget k params with
  | Some d => same d v || is_empty v
  | None => false
  end.

Definition _is_excluded (params : list (string * py F)) k v : bool :=
  match v with
  | PPrim NoneV => if negb (sin k params) then true else _value_is_hardcoded_default params k v
  | PExcluded _ => true
  | _ => _value_is_hardcoded_default params k v
  end.

(** [SerializedBaseOperator._is_excluded]: a date that is the one of the DAG is
    left out; [dag] are the attributes of the DAG, if there is one. *)
Definition op_is_excluded (dag : option (Attrs F)) k v : bool :=
  match dag with
  | Some dag =>
      if negb (v ≟ none) && ends_with "_date" k && (v ≟ getattr k dag) then true
      else _is_excluded (op_params c) k v
  | None => _is_excluded (op_params c) k v
  end.

(** The value without its type. *)
Definition strip j : json F :=
  match j with
  | JDict d => if sin TYPE d then default j (sget VAR d) else j
  | _ => j
  end.

(** A decorated field keeps its type. *)
Definition encode_field (decorated : list string) k v : json F :=
  if k ∈? decorated then _serialize str_other v else strip (_serialize str_other v).

Definition serialize_to_json (excluded : string → py F → bool) (fields decorated : list string) (a : Attrs F)
    : list (string * json F) :=
  omap (λ k,
    let value := getattr k a in
    if excluded k value then None else Some (k, encode_field decorated k value)) fields.

(** [json.dumps] of a value and what it reads as: None for a value that raises
    TypeError. *)
Definition json_key v : option string :=
  match v with
  | PPrim NoneV => Some "null"
  | PPrim (BoolV b) => Some (if b then "true" else "false")
  | PPrim p => Some (prim_str p)
  | _ => None
  end.

Fixpoint json_dumps v : option (json F) :=
  match v with
  | PPrim p | PEnum p => Some (JPrim p)
  | PList l | PTuple l => JList <$> mapM json_dumps l
  | PDict d => JDict <$> mapM (λ e, k ← json_key e.1; j ← json_dumps e.2; Some (k, j)) d
  | _ => None
  end.

Definition serialize_template_field v : json F :=
  match json_dumps v with Some j => j | None => JPrim (StrV (py_str str_other v)) end.

(** The names in a list of strings, as [template_fields]. *)
Definition names_of (v : py F) : list string :=
  match v with
  | PTuple l | PList l => omap (λ x, match x with PPrim (StrV s) => Some s | _ => None end) l
  | _ => []
  end.

Definition core_module (m : string) : bool := String.prefix "airflow.ti_deps.deps." m.

Definition serialize_deps (op : Operator F) : result (list (string * json F)) :=
  match op_deps op with
  | None => Ok []
  | Some l =>
      deps ← mapR (λ d, if core_module d.1 then Ok (d.1 +:+ "." +:+ d.2) else Err SerializationError) l;
      Ok [("deps", JList ((λ s, JPrim (StrV s)) <$> py_sorted (λ x y, bool_decide (String.le x y)) deps))]
  end.

Definition serialize_operator (dag : option (Attrs F)) (op : Operator F) : result (list (string * json F)) :=
  let a := op_attrs op in
  let o := serialize_to_json (op_is_excluded dag) op_fields op_decorated_fields a in
  let o := sset "_is_dummy" (JPrim (BoolV (op_dummy op)))
             (sset "_task_module" (JPrim (StrV (op_module op))) (sset "_task_type" (JPrim (StrV (op_class op))) o)) in
  let o := match op_extra_links op with [] => o | l => sset "_operator_extra_links" (JList l) o end in
  deps ← serialize_deps op;
  let o := foldl (λ o e, sset e.1 e.2 o) o deps in
  Ok (foldl (λ o k,
        let value := getattr k a in
        if op_is_excluded dag k value then o else sset k (serialize_template_field value) o)
      o (names_of (getattr "template_fields" a))).

(** [DependencyDetector.detect_task_dependencies], and its [vars]. *)
Definition detect_task_dependencies (dag_id : string) (op : Operator F) : option (json F) :=
  let attr k := strip (_serialize str_other (getattr k (op_attrs op))) in
  let dep source target type_ :=
    JDict [("source", source); ("target", target); ("dependency_type", JPrim (StrV type_));
           ("dependency_id", attr "task_id")] in
  if op_class op ≟ "TriggerDagRunOperator" then Some (dep (JPrim (StrV dag_id)) (attr "trigger_dag_id") "trigger")
  else if op_class op ≟ "ExternalTaskSensor" then Some (dep (attr "external_dag_id") (JPrim (StrV dag_id)) "sensor")
  else None.

(** A JSON value as a Python value. *)
Fixpoint py_of_json j : py F :=
  match j with
  | JPrim p => PPrim p
  | JList l => PList (py_of_json <$> l)
  | JDict d => PDict ((λ e, (PPrim (StrV e.1), py_of_json e.2)) <$> d)
  end.

Definition serialize_dag (dag : Dag F) : result (list (string * json F)) :=
  let a := dag_attrs dag in
  let o := serialize_to_json (_is_excluded (dag_params c)) dag_fields dag_decorated_fields a in
  match mapR (serialize_operator (Some a)) (dag_tasks dag) with
  | Err _ => Err SerializationError
  | Ok tasks =>
      let dag_id := match getattr "_dag_id" a with PPrim (StrV s) => s | _ => "" end in
      let o := sset "tasks" (JList (JDict <$> tasks)) o in
      let o := sset "dag_dependencies" (JList (omap (detect_task_dependencies dag_id) (dag_tasks dag))) o in
      let o := sset "_task_group" (dag_group dag) o in
      let o := sset "edge_info" (default (JDict []) (json_dumps (getattr "edge_info" a))) o in
      let o := if dag_has_on_success dag then sset "has_on_success_callback" (JPrim (BoolV true)) o else o in
      Ok (if dag_has_on_failure dag then sset "has_on_failure_callback" (JPrim (BoolV true)) o else o)
  end.

(** ** Reading *)

Definition _deserialize_timedelta j : result (py F) := PTimedelta <$> as_microseconds j.
Definition _deserialize_datetime j : result (py F) := PDatetime <$> as_microseconds j.

(** [set(v)] of a list. *)
Definition set_of_json j : result (py F) :=
  match j with JList l => make_set (py_of_json <$> l) | _ => Err TypeError end.

Definition json_names j : list string :=
  match j with JList l => omap as_str l | _ => [] end.

Definition timedelta_fields : list string := ["retry_delay"; "execution_timeout"; "sla"; "max_retry_delay"].

(** The value of attribute [k] of an operator. *)
Definition decode_op_field (template_fields : list string) k j : result (py F) :=
  if k ≟ "_downstream_task_ids" then set_of_json j
  else if k ≟ "subdag" then nested "dag" j
  else if k ∈? timedelta_fields then _deserialize_timedelta j
  else if k ∈? template_fields then Ok (py_of_json j)
  else if ends_with "_date" k then _deserialize_datetime j
  else if (k ∈? op_decorated_fields) || negb (k ∈? op_fields) then _deserialize nested j
  else Ok (py_of_json j).

(** One step of the loop over the items: extra links become an empty list, [deps]
    are kept apart. *)
Definition set_op_field (template_fields : list string) (op : Attrs F) (e : string * json F) : result (Attrs F) :=
  let '(k, j) := e in
  if k ≟ "_operator_extra_links" then Ok (<["operator_extra_links" := PList []]> op)
  else if k ≟ "deps" then Ok op
  else v ← decode_op_field template_fields k j; Ok (<[k := v]> op).

Definition _deserialize_deps j : list string :=
  List.filter (λ q, core_module q && importable q) (remove_dups (json_names j)).

(** [bool(v)] of a JSON value. *)
Definition json_truth j : bool :=
  match j with
  | JPrim NoneV | JPrim (BoolV false) | JPrim (StrV "") | JList [] | JDict [] => false
  | JPrim (IntV n) => negb (n =? 0)
  | _ => true
  end.

(** The operator and the names of its [deps], None when they are the ones of
    [BaseOperator]. *)
Definition deserialize_operator (e : list (string * json F)) : result (Attrs F * option (list string)) :=
  task_id ← match sget "task_id" e with Some (JPrim (StrV s)) => Ok s | Some _ => Err TypeError | None => Err KeyError end;
  let e := if sin "label" e then e else e ++ [("label", JPrim (StrV task_id))] in
  template_fields ← match sget "template_fields" e with Some j => Ok (json_names j) | None => Err KeyError end;
  op ← foldM (set_op_field template_fields) e (op_attrs_init c task_id);
  let op := foldl (λ op k, if sin k e || sin k (op_params (F:=F) c) then op else <[k := none]> op) op op_fields in
  let op := foldl (λ op k, match op !! k with Some _ => op | None => <[k := none]> op end) op
              (names_of (getattr "template_fields" op)) in
  let op := <["_is_dummy" := pbool match sget "_is_dummy" e with Some j => json_truth j | None => false end]> op in
  Ok (op, _deserialize_deps <$> sget "deps" e).

Definition decode_dag_field k j : result (py F) :=
  if k ≟ "_downstream_task_ids" then set_of_json j
  else if k ≟ "timezone" then match j with JPrim (StrV s) => Ok (PTimezone s) | _ => Err TypeError end
  else if k ≟ "dagrun_timeout" then _deserialize_timedelta j
  else if ends_with "_date" k then _deserialize_datetime j
  else if k ≟ "edge_info" then Ok (py_of_json j)
  else if k ∈? dag_decorated_fields then _deserialize nested j
  else Ok (py_of_json j).

(** A DAG that was read: its attributes, its tasks by id, and whether it has
    callbacks. *)
Record SerializedDAG := {
  sd_attrs : Attrs F;
  sd_tasks : list (string * Attrs F);
  sd_deps : list (string * option (list string));
  sd_has_on_success : bool;
  sd_has_on_failure : bool;
}.

Definition deserialize_tasks j : result (list (string * (Attrs F * option (list string)))) :=
  match j with
  | JList l =>
      tasks ← mapR (λ t, match t with
                         | JDict e =>
                             op ← deserialize_operator e;
                             match sget "task_id" e with
                             | Some (JPrim (StrV s)) => Ok (s, op)
                             | _ => Err KeyError
                             end
                         | _ => Err TypeError
                         end) l;
      Ok (foldl (λ m e, sset e.1 e.2 m) [] tasks)
  | _ => Err TypeError
  end.

(** The dates that the DAG provides. *)
Definition inherit_dates (dag op : Attrs F) : Attrs F :=
  foldl (λ op k, if getattr k op ≟ none then <[k := getattr k dag]> op else op) op ["start_date"; "end_date"].

(** The ids in a set of strings, and adding one. *)
Definition ids_of v : list string :=
  match v with PSet l => omap (λ x, match x with PPrim (StrV s) => Some s | _ => None end) l | _ => [] end.
Definition add_id (s : string) v : py F :=
  match v with PSet l => if str s ∈? l then v else PSet (l ++ [str s]) | _ => v end.

(** The ids downstream of a task get it as an upstream task. *)
Definition link_upstream (tasks : list (string * Attrs F)) (tid : string) : result (list (string * Attrs F)) :=
  match sget tid tasks with
  | None => Err KeyError
  | Some op =>
      foldM (λ tasks d,
        match sget d tasks with
        | None => Err KeyError
        | Some t => Ok (sset d (<["_upstream_task_ids" := add_id tid (getattr "_upstream_task_ids" t)]> t) tasks)
        end) (ids_of (getattr "_downstream_task_ids" op)) tasks
  end.

(** The loop over the items sets every attribute but the tasks. *)
Definition set_dag_field (dag : Attrs F) (e : string * json F) : result (Attrs F) :=
  let '(k, j) := e in
  if k ≟ "tasks" then Ok dag else v ← decode_dag_field k j; Ok (<[k := v]> dag).

Definition deserialize_dag (e : list (string * json F)) : result SerializedDAG :=
  dag_id ← match sget "_dag_id" e with Some (JPrim (StrV s)) => Ok s | Some _ => Err TypeError | None => Err KeyError end;
  tasks ← match sget "tasks" e with Some j => deserialize_tasks j | None => Ok [] end;
  dag ← foldM set_dag_field e (dag_attrs_init c dag_id);
  let dag := foldl (λ dag k, if sin k e || sin k (dag_params (F:=F) c) then dag else <[k := none]> dag) dag dag_fields in
  let ops := (λ t, (t.1, inherit_dates dag t.2.1)) <$> tasks in
  ops ← foldM link_upstream (tasks.*1) ops;
  Ok {| sd_attrs := dag; sd_tasks := ops; sd_deps := (λ t, (t.1, t.2.2)) <$> tasks;
        sd_has_on_success := sin "has_on_success_callback" e; sd_has_on_failure := sin "has_on_failure_callback" e |}.

(** ** Versions *)

Definition SERIALIZER_VERSION : Z := 1.

(** [to_dict]; [validate_schema] says whether the JSON schema accepts the result. *)
Definition to_dict (validate_schema : json F → bool) (dag : Dag F) : result (list (string * json F)) :=
  e ← serialize_dag dag;
  let json_dict := [("__version", JPrim (IntV SERIALIZER_VERSION)); ("dag", JDict e)] in
  if validate_schema (JDict json_dict) then Ok json_dict else Err AirflowException.

Definition from_dict (serialized_obj : list (string * json F)) : result SerializedDAG :=
  match sget "__version" serialized_obj with
  | Some (JPrim (IntV n)) =>
      if n =? SERIALIZER_VERSION then
        match sget "dag" serialized_obj with
        | Some (JDict e) => deserialize_dag e
        | Some _ => Err TypeError
        | None => Err KeyError
        end
      else Err ValueError
  | _ => Err ValueError
  end.
End Serialize.
End SerializedDag.
Import SerializedDag.

(** ** The loops over the items *)

Section LoopFacts.
Context {F : Type}.

(** A loop that assigns the decoded value of every key but some, which change no
    attribute but [z]. *)
Lemma assign_loop (step : Attrs F → string * json F → result (Attrs F)) (dec : string → json F → result (py F))
    (skip : list string) z e a :
  (∀ a k j, k ∉ skip → step a (k, j) = (v ← dec k j; Ok (<[k := v]> a))) →
  (∀ a k j, k ∈ skip → ∃ a', step a (k, j) = Ok a' ∧ ∀ x, x ≠ z → a' !! x = a !! x) →
  NoDup e.*1 → (∀ k j, (k, j) ∈ e → k ∉ skip → is_ok (dec k j) = true) →
  ∃ a', foldM step e a = Ok a' ∧
    (∀ k j v, (k, j) ∈ e → k ∉ skip → k ≠ z → dec k j = Ok v → a' !! k = Some v) ∧
    (∀ k, (k ∉ e.*1 ∨ k ∈ skip) → k ≠ z → a' !! k = a !! k).
Proof.
  intros Hset Hskip. revert a. induction e as [|[k j] e IH]; intros a Hnd Hdec.
  { exists a. split_and!; [done|by intros ? ? ? ?%elem_of_nil|done]. }
  cbn in Hnd. apply NoDup_cons in Hnd as [Hk Hnd]. cbn [foldM]. destruct (decide (k ∈ skip)) as [Hs|Hs].
  - destruct (Hskip a k j Hs) as (a1 & -> & Ha1). cbn.
    destruct (IH a1 Hnd) as (a' & Hf & Hin & Hout); [intros; by eapply Hdec; [right|]|]. exists a'. split_and!; [done| |].
    + intros k2 j2 v [[= -> ->]|He]%elem_of_cons; [done|by eapply Hin].
    + intros x Hx Hz. rewrite <-(Ha1 x) by done. apply Hout; [|done]. destruct Hx as [Hx|Hx]; [left; set_solver|by right].
  - rewrite Hset by done. specialize (Hdec k j) as Hok. destruct (dec k j) as [v|] eqn:Ev; [|by discriminate Hok; [left|done]].
    cbn. destruct (IH (<[k := v]> a) Hnd) as (a' & Hf & Hin & Hout); [intros; by eapply Hdec; [right|]|].
    exists a'. split_and!; [done| |].
    + intros k2 j2 v2 [[= -> ->]|He]%elem_of_cons; [|by eapply Hin]. intros _ Hz. rewrite Ev. intros [= ->].
      rewrite Hout; [by rewrite lookup_insert_eq|by left|done].
    + intros x Hx Hz. rewrite Hout; [|destruct Hx as [Hx|Hx]; [left; set_solver|by right]|done].
      apply lookup_insert_ne. intros ->. destruct Hx as [Hx|Hx]; [set_solver|done].
Qed.

Lemma fill_none (stay : string → bool) fields a k :
  foldl (λ (a : Attrs F) k, if stay k then a else <[k := none]> a) a fields !! k =
  if (k ∈? fields) && negb (stay k) then Some none else a !! k.
Proof.
  revert a. induction fields as [|x l IH]; intros a; [done|]. cbn [foldl]. rewrite IH.
  destruct (decide (x = k)) as [->|Hne].
  - rewrite (bool_decide_eq_true_2 (k ∈ k :: l)) by left. destruct (stay k) eqn:E; cbn; [by rewrite andb_false_r|].
    rewrite lookup_insert_eq. by destruct (k ∈? l).
  - replace (k ∈? x :: l) with (k ∈? l) by (apply bool_decide_ext; set_solver).
    destruct (stay x); [done|]. by rewrite lookup_insert_ne.
Qed.

Lemma fill_missing l a k v : a !! k = Some v →
  foldl (λ (a : Attrs F) k, match a !! k with Some _ => a | None => <[k := none]> a end) a l !! k = Some v.
Proof.
  revert a. induction l as [|x l IH]; intros a Ha; [done|]. cbn. apply IH. destruct (a !! x) eqn:E; [done|].
  rewrite lookup_insert_ne; [done|]. intros ->. congruence.
Qed.

Lemma fill_missing_None l a k : a !! k = None → k ∉ l →
  foldl (λ (a : Attrs F) k, match a !! k with Some _ => a | None => <[k := none]> a end) a l !! k = None.
Proof.
  revert a. induction l as [|x l IH]; intros a Ha Hk; [done|]. cbn. apply IH; [|set_solver]. destruct (a !! x); [done|].
  rewrite lookup_insert_ne; [done|]. set_solver.
Qed.
End LoopFacts.

(** ** One field *)

Section FieldFacts.
Local Open Scope Z_scope.
Context {F : Type} `{PyFloat F} (str_other : py F → string).
Implicit Types (v : py F) (j : json F) (a : Attrs F) (k : string).

Abbreviation ser := (_serialize str_other).

Lemma serialize_to_json_get ex fields dec a k : NoDup fields →
  sget k (serialize_to_json str_other ex fields dec a) =
  if (k ∈? fields) && negb (ex k (getattr k a)) then Some (encode_field str_other dec k (getattr k a)) else None.
Proof.
  induction 1 as [|x l Hx Hnd IH]; [done|]. unfold serialize_to_json in *. cbn [omap list_omap].
  destruct (decide (x = k)) as [->|Hne].
  - rewrite (bool_decide_eq_true_2 (k ∈ k :: l)) by left. destruct (ex k (getattr k a)); cbn [andb negb].
    + rewrite IH. by rewrite bool_decide_eq_false_2.
    + by rewrite sget_cons, bool_decide_eq_true_2.
  - replace (k ∈? x :: l) with (k ∈? l) by (apply bool_decide_ext; set_solver).
    destruct (ex x (getattr x a)); [done|]. by rewrite sget_cons, bool_decide_eq_false_2.
Qed.

Lemma serialize_to_json_keys ex fields dec a k : k ∈ (serialize_to_json str_other ex fields dec a).*1 → k ∈ fields.
Proof.
  unfold serialize_to_json. intros (e & -> & (x & Hx & He)%list_elem_of_omap)%list_elem_of_fmap.
  destruct (ex _ _) in He; [done|]. by injection He as <-.
Qed.

Lemma serialize_to_json_NoDup ex fields dec a : NoDup fields → NoDup (serialize_to_json str_other ex fields dec a).*1.
Proof.
  induction 1 as [|x l Hx Hnd IH]; [constructor|]. unfold serialize_to_json. cbn [omap list_omap].
  destruct (ex x (getattr x a)); [exact IH|]. cbn. constructor; [|exact IH].
  intros Hin. apply Hx. eapply serialize_to_json_keys, Hin.
Qed.

(** Values that are the same in JSON, and the values of plain attributes. *)
Fixpoint raw v : Prop :=
  match v with
  | PPrim _ => True
  | PList l => foldr (λ v P, raw v ∧ P) True l
  | PDict d => foldr (λ e P, (∃ s, e.1 = str s) ∧ raw e.2 ∧ P) True d
  | _ => False
  end.

Fixpoint flat v : Prop :=
  match v with
  | PPrim _ => True
  | PList l => foldr (λ v P, flat v ∧ P) True l
  | _ => False
  end.

Definition plain v : Prop :=
  match v with
  | PPrim _ | PEnum _ | PCallable _ | PObject _ => True
  | PList l | PTuple l => Forall flat l
  | PDict d => ∃ l : list (string * py F), d = (λ e, (str e.1, e.2)) <$> l ∧ NoDup l.*1 ∧ Forall (λ e, flat e.2) l
  | _ => False
  end.

(** A plain attribute after the round trip. *)
Definition plain_image v : py F :=
  match v with
  | PEnum p => PPrim p
  | PCallable s | PObject s => str s
  | PTuple l => PList l
  | v => v
  end.

Lemma flat_back v : flat v → py_of_json (ser v) = v.
Proof.
  refine (py_ind' (λ v, flat v → py_of_json (ser v) = v) _ _ _ _ _ v); try done; [clear v; by intros []|].
  intros l IH Hl%foldr_and. cbn. f_equal. rewrite <-list_fmap_compose. rewrite <-(list_fmap_id l) at 2.
  apply list_fmap_ext. intros i x Hx%list_elem_of_lookup_2. rewrite Forall_forall in IH, Hl. by apply IH, Hl.
Qed.

Lemma flats_back l : Forall flat l → py_of_json <$> (ser <$> l) = l.
Proof.
  induction 1 as [|v l Hv _ IH]; [done|]. cbn. by rewrite (flat_back v Hv), IH.
Qed.

Lemma strip_encode (x : json F) type_ : strip (_encode x type_) = x.
Proof. done. Qed.

Lemma plain_back v : plain v → py_of_json (strip (ser v)) = plain_image v.
Proof.
  destruct v as [p|p|l|l|l|d|t|us|n|r|s|s|s]; cbn [plain plain_image]; try done; intros Hv.
  - cbn. f_equal. by apply flats_back.
  - change (strip (ser (PTuple l))) with (JList (ser <$> l)). cbn. f_equal. by apply flats_back.
  - destruct Hv as (l & -> & Hnd & Hf). cbn [_serialize]. rewrite strip_encode. cbn [py_of_json]. f_equal.
    fold (dict_of ((λ e, (py_str str_other e.1, ser e.2)) <$> ((λ e, (str e.1, e.2)) <$> l))).
    rewrite <-list_fmap_compose. change (dict_of (_ <$> l)) with (dict_of ((λ e, (e.1, ser e.2)) <$> l)).
    rewrite (dict_of_fmap ser), dict_of_NoDup by done.
    rewrite <-list_fmap_compose. apply list_fmap_ext. intros i [k w] Hi%list_elem_of_lookup_2. cbn. f_equal.
    rewrite Forall_forall in Hf. by apply (flat_back w), (Hf (k, w)).
Qed.

Lemma raw_dumps v : raw v → ∃ j, json_dumps v = Some j ∧ py_of_json j = v.
Proof.
  refine (py_ind' (λ v, raw v → ∃ j, json_dumps v = Some j ∧ py_of_json j = v) _ _ _ _ _ v); try done;
    [clear v; intros []; try done; eauto| |].
  - intros l IH Hl%foldr_and. cbn. assert (∃ js, mapM json_dumps l = Some js ∧ py_of_json <$> js = l) as (js & -> & Hjs).
    { induction IH as [|x l Hx _ IHl]; [by exists []|]. apply Forall_cons in Hl as [Hr Hl].
      destruct (Hx Hr) as (j & Hj & Hp). destruct (IHl Hl) as (js & Hjs & Hps). exists (j :: js).
      cbn. rewrite Hj. cbn. rewrite Hjs. cbn. by rewrite Hp, Hps. }
    exists (JList js). cbn. by rewrite Hjs.
  - intros d IH Hd. cbn.
    assert (∃ js, mapM (λ e, k ← json_key e.1; j ← json_dumps e.2; Some (k, j)) d = Some js ∧
      (λ e, (str (F:=F) e.1, py_of_json e.2)) <$> js = d) as (js & -> & Hjs).
    { induction IH as [|[x y] d [_ Hy] _ IHd]; [by exists []|]. cbn in Hd. destruct Hd as ([s ->] & Hr & Hd).
      destruct (Hy Hr) as (j & Hj & Hp). destruct (IHd Hd) as (js & Hjs & Hps). cbn in Hj, Hp. exists ((s, j) :: js).
      cbn. rewrite Hj. cbn. rewrite Hjs. cbn. by rewrite Hp, Hps. }
    exists (JDict js). split; [done|]. exact (f_equal PDict Hjs).
Qed.
End FieldFacts.

(** ** Operators *)

(** Decides a goal for each element of a list of names. *)
Ltac by_cases_of Hk :=
  repeat (apply elem_of_cons in Hk as [->|Hk]; [apply (bool_decide_unpack _); by vm_compute|]);
  by apply elem_of_nil in Hk.

Section OperatorFacts.
Local Open Scope Z_scope.
Context {F : Type} `{PyFloat F} `{Dateutil} `{Identity F} (c : Defaults)
        (str_other : py F → string) (nested : string → json F → result (py F)) (importable : string → bool).
Implicit Types (v : py F) (j : json F) (a dag : Attrs F) (k : string).

Abbreviation ser := (_serialize str_other).
Abbreviation norm := (normal str_other).

(** The keys that a template field must not have. *)
Definition reserved : list string :=
  op_fields ++ (op_params (F:=F) c).*1 ++
  ["_task_module"; "_is_dummy"; "_operator_extra_links"; "deps"; "operator_extra_links"; "_upstream_task_ids"].

(** The types of the attributes. *)
Definition op_field_ok k v : Prop :=
  if k ≟ "_downstream_task_ids" then ∃ ids, v = PSet (str <$> ids) ∧ NoDup ids
  else if k ≟ "subdag" then v = none
  else if k ∈? timedelta_fields then (∃ us, v = PTimedelta us ∧ in_range us) ∨ (v = none ∧ k ≠ "retry_delay")
  else if ends_with "_date" k then (∃ t, v = PDatetime t ∧ in_range t) ∨ v = none
  else if k ≟ "executor_config" then supported v ∧ ∃ d, v = PDict d
  else if k ≟ "_log" then v = none ∨ ∃ s, v = PExcluded s
  else if k ≟ "_task_type" then True
  else plain v ∧ (k ∈ ["params"; "pool"] → v ≠ none).

Definition op_id (op : Operator F) : string :=
  match getattr "task_id" (op_attrs op) with PPrim (StrV s) => s | _ => "" end.

Record op_ok (op : Operator F) : Prop := {
  ok_fields k : k ∈ op_fields → op_field_ok k (getattr k (op_attrs op));
  ok_id : getattr "task_id" (op_attrs op) = str (op_id op);
  ok_label : ∃ l, getattr "label" (op_attrs op) = str l;
  ok_template : ∃ tf, (getattr "template_fields" (op_attrs op) = PTuple (str <$> tf) ∨
                       getattr "template_fields" (op_attrs op) = PList (str <$> tf)) ∧
                      ∀ k, k ∈ tf → k ∉ reserved;
  ok_deps l : op_deps op = Some l → Forall (λ d, core_module d.1 = true) l;
}.

(** What an attribute is after the round trip. *)
Definition op_image k v : py F := if k ≟ "executor_config" then norm v else plain_image v.

Definition restored k v v' : Prop :=
  py_eqv v' (op_image k v) ∨ (is_empty v = true ∧ v' = getattr k (op_attrs_init c "")).

Lemma op_fields_NoDup : NoDup op_fields.
Proof. apply (bool_decide_unpack _). by vm_compute. Qed.

Lemma date_fields k : k ∈ op_fields → ends_with "_date" k = true → k ∈ ["start_date"; "end_date"].
Proof.
  intros Hk Hd. assert (forallb (λ k, negb (ends_with "_date" k) || (k ∈? ["start_date"; "end_date"])) op_fields = true) as Hc
    by (by vm_compute).
  rewrite forallb_elem in Hc. apply Hc in Hk. rewrite Hd in Hk. by apply bool_decide_eq_true in Hk.
Qed.

(** None is not written where it is the default. *)
Lemma none_excluded od k : k ∈ ["start_date"; "end_date"; "execution_timeout"; "sla"; "max_retry_delay"; "subdag"] →
  op_is_excluded c od k none = true.
Proof.
  intros Hk. assert (op_is_excluded c od k none = _is_excluded (op_params c) k none) as ->.
  { unfold op_is_excluded. destruct od; [|done]. by rewrite (bool_decide_eq_true_2 (none = none)). }
  assert (sget k (op_params (F:=F) c) = Some none ∨ sget k (op_params (F:=F) c) = None) as Hp.
  { repeat (apply elem_of_cons in Hk as [->|Hk]; [by (left + right); vm_compute|]). by apply elem_of_nil in Hk. }
  unfold _is_excluded, _value_is_hardcoded_default. rewrite sin_sget. destruct Hp as [-> | ->]; cbn; [|done].
  change (PPrim NoneV) with (none (F:=F)). unfold none. by rewrite same_none.
Qed.

(** Reading a set of ids. *)
Lemma ids_back (ids : list string) : NoDup ids →
  ∃ v', set_of_json (strip (ser (PSet (str <$> ids)))) = Ok v' ∧ py_eqv v' (PSet (str <$> ids)).
Proof.
  intros Hnd. cbn [_serialize]. rewrite strip_encode. destruct (sorted_elements str_other (str <$> ids)) as (m & -> & Hp).
  symmetry in Hp. destruct (Permutation_map_inv str ids Hp) as (ids' & -> & Hp'). cbn [set_of_json].
  assert (py_of_json <$> (ser <$> (str <$> ids')) = str (F:=F) <$> ids') as Hid.
  { rewrite <-!list_fmap_compose. by apply list_fmap_ext. }
  change (map str ids') with (str (F:=F) <$> ids'). rewrite Hid. unfold make_set. rewrite (proj2 (forallb_elem _ _)).
  - eexists. split; [done|]. constructor. apply NoDup_Permutation.
    + apply NoDup_remove_dups.
    + apply NoDup_fmap_2; [|done]. by intros ? ? [= ->].
    + intros x. rewrite elem_of_remove_dups. by rewrite Hp'.
  - by intros x (s & -> & _)%list_elem_of_fmap.
Qed.

Lemma decode_written od tf k v : k ∈ op_fields → k ∉ tf → k ≠ "_task_type" → op_field_ok k v → op_is_excluded c od k v = false →
  ∃ v', decode_op_field nested tf k (encode_field str_other op_decorated_fields k v) = Ok v' ∧ py_eqv v' (op_image k v).
Proof.
  intros Hk Htf Htt Hok Hex. unfold op_field_ok in Hok. unfold decode_op_field, op_image.
  assert (k ≠ "executor_config" → encode_field str_other op_decorated_fields k v = strip (ser v)) as Henc.
  { intros Hn. unfold encode_field. rewrite bool_decide_eq_false_2; [done|]. by intros ?%list_elem_of_singleton. }
  rewrite (bool_decide_eq_false_2 (k ∈ tf)) by done.
  destruct (decide (k = "_downstream_task_ids")) as [->|N1].
  { cbn in Hok. destruct Hok as (ids & -> & Hnd). rewrite Henc by done. exact (ids_back ids Hnd). }
  rewrite (bool_decide_eq_false_2 (k = _)) in Hok |- * by done.
  destruct (decide (k = "subdag")) as [->|N2].
  { assert (v = none) as -> by exact Hok. rewrite none_excluded in Hex; [done|]. apply (bool_decide_unpack _). by vm_compute. }
  rewrite (bool_decide_eq_false_2 (k = "subdag")) in Hok |- * by done.
  destruct (k ∈? timedelta_fields) eqn:Et.
  { apply bool_decide_eq_true in Et. assert (k ≠ "executor_config") as Ne by (by intros ->; revert Et; apply (bool_decide_unpack _); vm_compute).
    rewrite Henc by done. rewrite bool_decide_eq_false_2 by done. destruct Hok as [(us & -> & Hr)|[-> Hr]].
    - exists (PTimedelta us). split; [|constructor]. unfold _deserialize_timedelta. cbn [_serialize]. rewrite strip_encode. cbn. by rewrite seconds_round_trip.
    - exfalso. rewrite none_excluded in Hex; [done|]. unfold timedelta_fields in Et.
      apply elem_of_cons in Et as [->|Et]; [done|]. by_cases_of Et. }
  destruct (ends_with "_date" k) eqn:Ed.
  { pose proof (date_fields k Hk Ed) as Hd. assert (k ≠ "executor_config") as Ne by (by intros ->).
    rewrite Henc by done. rewrite bool_decide_eq_false_2 by done. destruct Hok as [(t & -> & Hr)| -> ].
    - exists (PDatetime t). split; [|constructor]. unfold _deserialize_datetime. cbn [_serialize]. rewrite strip_encode. cbn. by rewrite seconds_round_trip.
    - exfalso. rewrite none_excluded in Hex; [done|]. by_cases_of Hd. }
  destruct (decide (k = "executor_config")) as [->|N3].
  { destruct Hok as [Hs _]. exact (serialize_round_trip str_other nested v Hs). }
  rewrite (bool_decide_eq_false_2 (k = "executor_config")) in Hok |- * by done. rewrite Henc by done.
  rewrite (bool_decide_eq_false_2 (k ∈ op_decorated_fields)) by (by intros ?%list_elem_of_singleton).
  rewrite (bool_decide_eq_true_2 (k ∈ op_fields)) by done. cbn [orb negb].
  destruct (decide (k = "_log")) as [->|N4].
  { exfalso. destruct Hok as [->|[s -> ]]; revert Hex; unfold op_is_excluded; destruct od; by vm_compute. }
  rewrite (bool_decide_eq_false_2 (k = "_log")), (bool_decide_eq_false_2 (k = "_task_type")) in Hok by done.
  destruct Hok as [Hp _]. exists (plain_image v). rewrite plain_back by done. split; [done|constructor].
Qed.

(** A default that is not written is the one of the new object. *)
Lemma default_attr k (d : py F) tid : sget k (op_params c) = Some d → k ∈ op_fields → k ∉ ["params"; "pool"; "executor_config"] →
  getattr k (op_attrs_init c tid) = d ∧ plain_image d = d.
Proof.
  intros Hk%sget_elem Hf Hn. unfold op_params in Hk.
  repeat (apply elem_of_cons in Hk as [[= -> ->]|Hk];
    [first [by split; vm_compute | exfalso; revert Hf; apply (bool_decide_unpack _); by vm_compute | exfalso; set_solver + Hn]|]).
  by apply elem_of_nil in Hk.
Qed.

Lemma default_attr_id k tid : sin k (op_params (F:=F) c) = true → getattr k (op_attrs_init (F:=F) c tid) = getattr k (op_attrs_init c "").
Proof.
  rewrite sin_keys. unfold op_params. cbn [fmap list_fmap fst]. intros Hk.
  repeat (apply elem_of_cons in Hk as [->|Hk]; [by vm_compute|]). by apply elem_of_nil in Hk.
Qed.

(** What an attribute becomes that is not written. *)
Definition unwritten tid k : py F := if sin k (op_params (F:=F) c) then getattr k (op_attrs_init c tid) else none.

Lemma unwritten_ok dag tid k v : k ∈ op_fields → k ∉ ["_log"; "_task_type"] → op_field_ok k v →
  op_is_excluded c (Some dag) k v = true →
  restored k v (unwritten tid k) ∨
  (ends_with "_date" k = true ∧ v = getattr k dag ∧ v ≠ none ∧ unwritten tid k = none).
Proof.
  intros Hk Hl Hok Hex. unfold op_is_excluded in Hex.
  destruct (negb (v ≟ none) && ends_with "_date" k && (v ≟ getattr k dag)) eqn:Ed.
  { right. rewrite !andb_true_iff, negb_true_iff, bool_decide_eq_false, bool_decide_eq_true in Ed.
    destruct Ed as [[Hn Hd] Hv]. split_and!; [done..|]. pose proof (date_fields k Hk Hd) as Hin. unfold unwritten.
    repeat (apply elem_of_cons in Hin as [->|Hin]; [by vm_compute|]). by apply elem_of_nil in Hin. }
  left. clear Ed. unfold _is_excluded in Hex.
  assert (∀ s, v ≠ PExcluded s) as Hnx.
  { intros s ->. unfold op_field_ok in Hok.
    destruct (k ≟ "_downstream_task_ids"); [by destruct Hok as (? & ? & _)|]. destruct (k ≟ "subdag"); [done|].
    destruct (k ∈? timedelta_fields); [by destruct Hok as [(? & ? & _)|[? _]]|].
    destruct (ends_with "_date" k); [by destruct Hok as [(? & ? & _)|?]|].
    destruct (k ≟ "executor_config"); [by destruct Hok as [_ [? ?]]|].
    rewrite (bool_decide_eq_false_2 (k = "_log")), (bool_decide_eq_false_2 (k = "_task_type")) in Hok by set_solver + Hl.
    by destruct Hok. }
  destruct (decide (v = none ∧ sin k (op_params (F:=F) c) = false)) as [[-> Hs]|Hcase].
  { left. unfold unwritten. rewrite Hs. unfold op_image. case_bool_decide; constructor. }
  assert (_value_is_hardcoded_default (op_params c) k v = true) as Hd.
  { destruct v as [[]| | | | | | | | | | | |]; try done; [|by destruct (Hnx str0)].
    destruct (sin k (op_params (F:=F) c)) eqn:Es; cbn in Hex; [done|]. by destruct Hcase. }
  unfold _value_is_hardcoded_default in Hd. destruct (sget k (op_params c)) as [d|] eqn:Eg; [|done].
  assert (sin k (op_params (F:=F) c) = true) as Hs by (rewrite sin_sget, Eg; by apply bool_decide_eq_true_2).
  unfold restored, unwritten. rewrite Hs.
  apply orb_true_iff in Hd as [Hd%same_eq|Hd]; [|right; split; [done|by apply default_attr_id]].
  subst d. destruct (decide (k ∈ ["params"; "pool"; "executor_config"])) as [Hp|Hp].
  - exfalso. assert (v = none ∧ op_field_ok k none → False) as Hno.
    { intros [_ Ho]. unfold op_field_ok in Ho.
      repeat (apply elem_of_cons in Hp as [->|Hp]; [first [by destruct Ho as [_ [? ?]] | destruct Ho as [_ Ho]; apply Ho; [set_solver|done]]|]).
      by apply elem_of_nil in Hp. }
    apply Hno. assert (v = none) as ->; [|done].
    repeat (apply elem_of_cons in Hp as [->|Hp]; [by injection Eg as <-|]). by apply elem_of_nil in Hp.
  - destruct (default_attr k v tid Eg Hk Hp) as [-> Himg]. left. unfold op_image.
    rewrite bool_decide_eq_false_2 by set_solver + Hp. rewrite Himg. constructor.
Qed.

(** ** The written operator *)

Definition template_updates od (op : Operator F) : list (string * json F) :=
  omap (λ k, if op_is_excluded c od k (getattr k (op_attrs op)) then None
             else Some (k, serialize_template_field str_other (getattr k (op_attrs op))))
    (names_of (getattr "template_fields" (op_attrs op))).

Definition op_updates od deps (op : Operator F) : list (string * json F) :=
  [("_task_type", JPrim (StrV (op_class op))); ("_task_module", JPrim (StrV (op_module op)));
   ("_is_dummy", JPrim (BoolV (op_dummy op)))] ++
  match op_extra_links op with [] => [] | l => [("_operator_extra_links", JList l)] end ++ deps ++ template_updates od op.

Definition op_written od (op : Operator F) : list (string * json F) :=
  serialize_to_json str_other (op_is_excluded c od) op_fields op_decorated_fields (op_attrs op).

Lemma serialize_operator_updates od op : (∀ l, op_deps op = Some l → Forall (λ d, core_module d.1 = true) l) →
  ∃ deps, serialize_operator c str_other od op = Ok (ssets (op_updates od deps op) (op_written od op)) ∧
    ∀ k, k ∈ deps.*1 → k = "deps".
Proof.
  intros Hd. unfold serialize_operator. assert (∃ deps, serialize_deps op = Ok deps ∧ ∀ k, k ∈ deps.*1 → k = "deps")
    as (deps & -> & Hk).
  { unfold serialize_deps. destruct (op_deps op) as [l|]; [|exists []; split; [done|by intros ? ?%elem_of_nil]].
    destruct (mapR_total (λ d : string * string, if core_module d.1 then Ok (d.1 +:+ "." +:+ d.2) else Err SerializationError)
      (λ _ _, True) l) as (ys & -> & _).
    { intros d Hin. specialize (Hd l eq_refl). rewrite Forall_forall in Hd. rewrite (Hd d Hin). eauto. }
    eexists. split; [done|]. by intros k ->%list_elem_of_singleton. }
  exists deps. split; [|done]. cbn [mbind result_bind]. f_equal. unfold op_updates, template_updates.
  unfold op_written. generalize (serialize_to_json str_other (op_is_excluded c od) op_fields op_decorated_fields (op_attrs op)).
  intros base. rewrite !ssets_app.
  set (o := ssets deps _). set (o' := foldl _ _ deps).
  assert (o' = o) as -> by (subst o o'; by destruct (op_extra_links op)). generalize o. clear o base.
  induction (names_of _) as [|k l IH]; intros o; [done|]. cbn [foldl omap list_omap].
  destruct (op_is_excluded c od k _); [apply IH|]. apply IH.
Qed.

(** No field has the name of an assignment but [_task_type]. *)
Lemma updates_not_field od deps op k : op_ok op → (∀ k, k ∈ deps.*1 → k = "deps") → k ∈ op_fields → k ≠ "_task_type" →
  k ∉ (op_updates od deps op).*1.
Proof.
  intros Hok Hdeps Hk Hne Hin. assert (k ∉ ["_task_module"; "_is_dummy"; "_operator_extra_links"; "deps"]) as Hs.
  { intros Hs. assert (forallb (λ k, negb (k ∈? ["_task_module"; "_is_dummy"; "_operator_extra_links"; "deps"])) op_fields = true)
      as Hc by (by vm_compute).
    rewrite forallb_elem in Hc. apply Hc in Hk. by rewrite bool_decide_eq_true_2 in Hk. }
  unfold op_updates in Hin. rewrite !fmap_app in Hin. cbn in Hin.
  apply elem_of_cons in Hin as [?|Hin]; [done|]. apply elem_of_cons in Hin as [?|Hin]; [set_solver + Hs H2|].
  apply elem_of_cons in Hin as [?|Hin]; [set_solver + Hs H2|]. apply elem_of_app in Hin as [Hin|Hin].
  { destruct (op_extra_links op); [by apply elem_of_nil in Hin|]. apply list_elem_of_singleton in Hin. set_solver + Hs Hin. }
  apply elem_of_app in Hin as [->%Hdeps|Hin]; [set_solver + Hs|].
  apply list_elem_of_fmap in Hin as ([k' j] & -> & (k2 & Hk2 & He)%list_elem_of_omap). destruct (op_is_excluded _ _ _ _) in He; [done|].
  injection He as -> _. destruct (ok_template _ Hok) as (tf & Htf & Hr). cbn in Hk. apply (Hr k'); [|apply elem_of_app; by left].
  assert (names_of (getattr "template_fields" (op_attrs op)) = tf) as <-; [|done].
  destruct Htf as [-> | ->]; cbn; (clear; induction tf as [|x l IH]; cbn; [done|by f_equal]).
Qed.

Lemma op_ok_names op : op_ok op → ∃ tf, names_of (getattr "template_fields" (op_attrs op)) = tf ∧
  json_names (strip (ser (getattr "template_fields" (op_attrs op)))) = tf ∧
  getattr "template_fields" (op_attrs op) ≠ none ∧ (∀ s, getattr "template_fields" (op_attrs op) ≠ PExcluded s) ∧
  ∀ k, k ∈ tf → k ∉ reserved.
Proof.
  intros Hok. destruct (ok_template _ Hok) as (tf & Htf & Hr). exists tf.
  assert (∀ l : list string, omap (λ x : py F, match x with PPrim (StrV s) => Some s | _ => None end) (str <$> l) = l) as H1'
    by (clear; induction l as [|x l IH]; cbn; [done|by f_equal]).
  assert (∀ l : list string, omap as_str (ser <$> (str <$> l)) = l) as H2'
    by (clear; induction l as [|x l IH]; cbn; [done|by f_equal]).
  destruct Htf as [-> | ->]; split_and!; try done; cbn [names_of]; try apply H1'.
  - change (omap as_str (ser <$> (str <$> tf)) = tf). apply H2'.
  - change (omap as_str (ser <$> (str <$> tf)) = tf). apply H2'.
Qed.

(** What is always written. *)
Lemma always_written od k v : k ∈ ["task_id"; "label"; "template_fields"] → v ≠ none → (∀ s, v ≠ PExcluded s) →
  op_is_excluded c od k v = false.
Proof.
  intros Hk Hn Hx. assert (ends_with "_date" k = false) as Hd by (by_cases_of Hk).
  assert (sget k (op_params (F:=F) c) = None) as Hp.
  { repeat (apply elem_of_cons in Hk as [->|Hk]; [by vm_compute|]). by apply elem_of_nil in Hk. }
  assert (_is_excluded (op_params c) k v = false) as He.
  { unfold _is_excluded, _value_is_hardcoded_default. rewrite Hp. destruct v as [[]| | | | | | | | | | | |]; try done.
    by destruct (Hx str0). }
  unfold op_is_excluded. destruct od; [|done]. by rewrite Hd, andb_false_r.
Qed.

Lemma decode_prim tf k p : k ∈ ["_task_type"; "_task_module"; "_is_dummy"] →
  decode_op_field nested tf k (JPrim p) = Ok (PPrim (F:=F) p).
Proof.
  intros Hk. unfold decode_op_field. destruct (k ∈? tf);
    (repeat (apply elem_of_cons in Hk as [->|Hk]; [by vm_compute|])); by apply elem_of_nil in Hk.
Qed.

Lemma decode_template tf k j : k ∈ tf → k ∉ reserved → decode_op_field nested tf k j = Ok (py_of_json j).
Proof.
  intros Hk Hr. assert (k ∉ op_fields) as Hf by (intros ?; apply Hr, elem_of_app; by left). unfold decode_op_field.
  rewrite (bool_decide_eq_false_2 (k = "_downstream_task_ids")) by (intros ->; apply Hf, (bool_decide_unpack _); by vm_compute).
  rewrite (bool_decide_eq_false_2 (k = "subdag")) by (intros ->; apply Hf, (bool_decide_unpack _); by vm_compute).
  rewrite (bool_decide_eq_false_2 (k ∈ timedelta_fields)).
  - by rewrite bool_decide_eq_true_2.
  - intros Ht. apply Hf. unfold timedelta_fields in Ht. by_cases_of Ht.
Qed.

(** Every item can be decoded. *)
Lemma updates_decode od deps op tf k j : (∀ k, k ∈ deps.*1 → k = "deps") →
  names_of (getattr "template_fields" (op_attrs op)) = tf → (∀ k, k ∈ tf → k ∉ reserved) →
  (k, j) ∈ op_updates od deps op → k ∉ ["_operator_extra_links"; "deps"] →
  is_ok (decode_op_field nested tf k j) = true.
Proof.
  intros Hdeps Htf Hr Hin Hs. unfold op_updates in Hin. rewrite !elem_of_app in Hin. destruct Hin as [Hin|[Hin|[Hin|Hin]]].
  - assert (k ∈ ["_task_type"; "_task_module"; "_is_dummy"] ∧ ∃ p, j = JPrim p) as [Hk [p ->]].
    { repeat (apply elem_of_cons in Hin as [[= -> ->]|Hin]; [split; [apply (bool_decide_unpack _); by vm_compute|by eexists]|]).
      by apply elem_of_nil in Hin. }
    by rewrite decode_prim.
  - destruct (op_extra_links op); [by apply elem_of_nil in Hin|]. apply list_elem_of_singleton in Hin as [= -> _]. set_solver + Hs.
  - assert (k = "deps") as -> by (apply Hdeps, list_elem_of_fmap; by exists (k, j)). set_solver + Hs.
  - apply list_elem_of_omap in Hin as (k2 & Hk2 & He). rewrite Htf in Hk2. destruct (op_is_excluded _ _ _ _) in He; [done|].
    injection He as -> _. by rewrite decode_template by auto.
Qed.

Lemma op_written_get od op k : sget k (op_written od op) =
  if (k ∈? op_fields) && negb (op_is_excluded c od k (getattr k (op_attrs op)))
  then Some (encode_field str_other op_decorated_fields k (getattr k (op_attrs op))) else None.
Proof. apply serialize_to_json_get, op_fields_NoDup. Qed.

Lemma op_written_inv od op k j : sget k (op_written od op) = Some j →
  k ∈ op_fields ∧ op_is_excluded c od k (getattr k (op_attrs op)) = false ∧
  j = encode_field str_other op_decorated_fields k (getattr k (op_attrs op)).
Proof.
  rewrite op_written_get. generalize (encode_field str_other op_decorated_fields k (getattr k (op_attrs op))).
  generalize (op_is_excluded c od k (getattr k (op_attrs op))). intros b e.
  destruct (decide (k ∈ op_fields)); [rewrite bool_decide_eq_true_2 by done|by rewrite bool_decide_eq_false_2].
  destruct b; [done|]. by intros [= <-].
Qed.

Lemma written_decode od op tf k j : op_ok op → (∀ k, k ∈ tf → k ∉ reserved) → k ≠ "_task_type" →
  sget k (op_written od op) = Some j →
  ∃ v, decode_op_field nested tf k j = Ok v ∧ py_eqv v (op_image k (getattr k (op_attrs op))).
Proof.
  intros Hok Hr Hne (Hk & Hex & ->)%op_written_inv. apply (decode_written od); [done| |done|by apply Hok|done].
  intros Hin. apply (Hr k Hin), elem_of_app. by left.
Qed.

Lemma init_some k tid : k ∈ op_fields → sin k (op_params (F:=F) c) = true →
  op_attrs_init c tid !! k = Some (getattr k (op_attrs_init (F:=F) c tid)).
Proof.
  intros Hk _. unfold op_fields in Hk.
  repeat (apply elem_of_cons in Hk as [->|Hk]; [vm_compute; reflexivity|]). by apply elem_of_nil in Hk.
Qed.

Lemma items_assigned dag deps op tf : op_ok op → (∀ k, k ∈ deps.*1 → k = "deps") →
  names_of (getattr "template_fields" (op_attrs op)) = tf → (∀ k, k ∈ tf → k ∉ reserved) →
  let e := ssets (op_updates (Some dag) deps op) (op_written (Some dag) op) in
  ∃ a, foldM (set_op_field nested tf) e (op_attrs_init c (op_id op)) = Ok a ∧
    (∀ k j v, sget k e = Some j → k ∉ ["_operator_extra_links"; "deps"; "operator_extra_links"] →
              decode_op_field nested tf k j = Ok v → a !! k = Some v) ∧
    (∀ k, sget k e = None → k ≠ "operator_extra_links" → a !! k = op_attrs_init c (op_id op) !! k).
Proof.
  intros Hok Hdeps Htf Hr e. assert (NoDup e.*1) as Hnd.
  { apply ssets_NoDup, serialize_to_json_NoDup, op_fields_NoDup. }
  destruct (assign_loop (set_op_field nested tf) (decode_op_field nested tf) ["_operator_extra_links"; "deps"]
    "operator_extra_links" e (op_attrs_init c (op_id op))) as (a & Ha & Hin & Hout).
  - intros a k j Hs. unfold set_op_field. by rewrite !bool_decide_eq_false_2 by set_solver + Hs.
  - intros a k j Hs. unfold set_op_field. apply elem_of_cons in Hs as [->|Hs].
    + eexists. split; [done|]. intros x Hx. by apply lookup_insert_ne.
    + apply list_elem_of_singleton in Hs as ->. by eexists.
  - done.
  - intros k j Hkj%sget_NoDup Hs; [|done]. apply ssets_inv in Hkj as [Hu|[Hu Hw]]; [by eapply updates_decode|].
    destruct (written_decode (Some dag) op tf k j) as (v & -> & _); try done. intros ->. apply Hu. left.
  - exists a. split_and!; [done| |].
    + intros k j v Hg Hs Hv. apply (Hin k j v); [by apply sget_elem|set_solver + Hs..|done].
    + intros k Hg Hz. apply Hout; [left; by apply sget_None|done].
Qed.

(** The keys of the assignments after the first three. *)
Lemma late_updates_keys od deps op k : op_ok op → (∀ k, k ∈ deps.*1 → k = "deps") →
  k ∈ (match op_extra_links op with [] => [] | l => [("_operator_extra_links", JList l)] end ++ deps ++ template_updates od op).*1 →
  k = "_operator_extra_links" ∨ k = "deps" ∨ k ∉ reserved.
Proof.
  intros Hok Hdeps. rewrite !fmap_app, !elem_of_app. intros [Hin|[Hin|Hin]].
  - left. destruct (op_extra_links op); [by apply elem_of_nil in Hin|]. by apply list_elem_of_singleton in Hin.
  - right. left. by apply Hdeps.
  - right. right. apply list_elem_of_fmap in Hin as ([k' j] & -> & (k2 & Hk2 & He)%list_elem_of_omap).
    destruct (op_is_excluded _ _ _ _) in He; [done|]. injection He as -> _.
    destruct (op_ok_names op Hok) as (tf & Htf & _ & _ & _ & Hr). rewrite Htf in Hk2. by apply Hr.
Qed.

Lemma special_get od deps op k : op_ok op → (∀ k, k ∈ deps.*1 → k = "deps") → k ∈ ["_task_type"; "_is_dummy"; "_upstream_task_ids"] →
  sget k (ssets (op_updates od deps op) (op_written od op)) =
  if k ≟ "_task_type" then Some (JPrim (StrV (op_class op)))
  else if k ≟ "_is_dummy" then Some (JPrim (BoolV (op_dummy op))) else None.
Proof.
  intros Hok Hdeps Hk. unfold op_updates. rewrite ssets_app, ssets_old.
  - cbn [ssets foldl fst snd]. rewrite !sget_sset, op_written_get.
    repeat (apply elem_of_cons in Hk as [->|Hk]; [by vm_compute|]). by apply elem_of_nil in Hk.
  - intros Hin%late_updates_keys; [|done..].
    repeat (apply elem_of_cons in Hk as [->|Hk];
      [destruct Hin as [?|[?|Hin]]; [done..|]; apply Hin, (bool_decide_unpack _); by vm_compute|]).
    by apply elem_of_nil in Hk.
Qed.

(** Reading an operator gives back its attributes; a date that is the one of its
    DAG is missing until the DAG provides it. *)
Definition op_back dag k v v' : Prop :=
  restored k v v' ∨ (ends_with "_date" k = true ∧ v = getattr k dag ∧ v ≠ none ∧ v' = none).

Lemma operator_back dag op : op_ok op → ∃ e a ds,
  serialize_operator c str_other (Some dag) op = Ok e ∧ sget "task_id" e = Some (JPrim (StrV (op_id op))) ∧
  deserialize_operator c nested importable e = Ok (a, ds) ∧
  (∀ k, k ∈ op_fields → k ∉ ["_log"; "_task_type"] → op_back dag k (getattr k (op_attrs op)) (getattr k a)) ∧
  getattr "_task_type" a = str (op_class op) ∧ getattr "_is_dummy" a = pbool (op_dummy op) ∧
  a !! "_upstream_task_ids" = Some (PSet []).
Proof.
  intros Hok. destruct (serialize_operator_updates (Some dag) op (ok_deps _ Hok)) as (deps & -> & Hdeps).
  destruct (op_ok_names op Hok) as (tf & Htf & Hjn & Hn & Hx & Hr). set (e := ssets _ _).
  assert (∀ k, k ∈ op_fields → k ≠ "_task_type" → sget k e = sget k (op_written (Some dag) op)) as Hfield.
  { intros k Hk Hne. apply ssets_old. by apply updates_not_field. }
  assert (∀ k, k ∈ ["task_id"; "label"; "template_fields"] → getattr k (op_attrs op) ≠ none →
    (∀ s, getattr k (op_attrs op) ≠ PExcluded s) → sget k e = Some (strip (ser (getattr k (op_attrs op))))) as Halways.
  { intros k Hk Hn' Hx'. rewrite Hfield by (by_cases_of Hk). rewrite op_written_get, always_written by done.
    rewrite bool_decide_eq_true_2 by (by_cases_of Hk). cbn [andb negb]. unfold encode_field.
    rewrite bool_decide_eq_false_2; [done|]. by_cases_of Hk. }
  assert (sget "task_id" e = Some (JPrim (StrV (op_id op)))) as Hid.
  { rewrite Halways; rewrite ?(ok_id _ Hok); [done|apply (bool_decide_unpack _); by vm_compute|done|done]. }
  assert (sin "label" e = true) as Hlabel.
  { destruct (ok_label _ Hok) as [l Hl]. rewrite sin_sget, Halways; rewrite ?Hl; try done.
    apply (bool_decide_unpack _). by vm_compute. }
  assert (∃ j, sget "template_fields" e = Some j ∧ json_names j = tf) as (jt & Hjt & <-).
  { eexists. split; [apply Halways; [apply (bool_decide_unpack _); by vm_compute|done|done]|done]. }
  destruct (items_assigned dag deps op (json_names jt) Hok Hdeps Htf Hr) as (a & Ha & Hin & Hout). fold e in Ha, Hin, Hout.
  exists e. unfold deserialize_operator. rewrite Hid. cbn [mbind result_bind]. rewrite Hlabel, Hjt. cbn [mbind result_bind].
  rewrite Ha. cbn [mbind result_bind]. set (a1 := foldl _ a op_fields). set (a2 := foldl _ a1 _).
  assert (∀ k, k ∈ op_fields → k ∉ ["_log"; "_task_type"] →
    ∃ v, a2 !! k = Some v ∧ op_back dag k (getattr k (op_attrs op)) v) as Hfields.
  { intros k Hk Hl. assert (k ≠ "_task_type") as Hne by set_solver + Hl. specialize (Hfield k Hk Hne).
    assert (k ≠ "operator_extra_links" ∧ k ∉ ["_operator_extra_links"; "deps"; "operator_extra_links"]) as [Ho Hs].
    { clear -Hk. unfold op_fields in Hk. by_cases_of Hk. }
    destruct (sget k (op_written (Some dag) op)) as [j|] eqn:Ew.
    - destruct (written_decode _ _ _ k j Hok Hr Hne Ew) as (v & Hv & Hq). exists v. split; [|left; by left].
      apply fill_missing. subst a1. rewrite (fill_none (λ k, sin k e || sin k (op_params (F:=F) c))).
      rewrite sin_sget, Hfield. cbn [is_Some]. rewrite (bool_decide_eq_true_2 (is_Some (Some j))) by eauto.
      cbn [orb negb]. rewrite andb_false_r. by apply (Hin k j v).
    - exists (unwritten (op_id op) k). split.
      + apply fill_missing. subst a1. rewrite (fill_none (λ k, sin k e || sin k (op_params (F:=F) c))).
        rewrite (sin_sget k e), Hfield, (bool_decide_eq_true_2 (k ∈ op_fields)) by done. cbn [andb orb].
        unfold unwritten. destruct (sin k (op_params c)) eqn:Es; cbn; [|done]. rewrite Hout by done. by apply init_some.
      + apply unwritten_ok; [done|done|by apply Hok|]. rewrite op_written_get, (bool_decide_eq_true_2 (k ∈ op_fields)) in Ew by done.
        by destruct (op_is_excluded c (Some dag) k (getattr k (op_attrs op))). }
  assert (∀ k v, k ∉ op_fields ∨ sin k e = true → a !! k = Some v → a2 !! k = Some v) as Hkeep.
  { intros k v Hk Hv. apply fill_missing. subst a1. rewrite (fill_none (λ k, sin k e || sin k (op_params (F:=F) c))).
    destruct Hk as [Hk|Hk]; [by rewrite (bool_decide_eq_false_2 (k ∈ op_fields))|]. by rewrite Hk, andb_false_r. }
  pose proof (λ k, special_get (Some dag) deps op k Hok Hdeps) as Hspecial. fold e in Hspecial.
  assert (sget "_task_type" e = Some (JPrim (StrV (op_class op)))) as Ht
    by (apply (Hspecial "_task_type"), (bool_decide_unpack _); by vm_compute).
  assert (sget "_is_dummy" e = Some (JPrim (BoolV (op_dummy op)))) as Hd
    by (apply (Hspecial "_is_dummy"), (bool_decide_unpack _); by vm_compute).
  assert (sget "_upstream_task_ids" e = None) as Hu
    by (apply (Hspecial "_upstream_task_ids"), (bool_decide_unpack _); by vm_compute).
  rewrite Hd. eexists _, _. split_and!; [done|done|done| | | |].
  - intros k Hk Hl. destruct (Hfields k Hk Hl) as (v & Hv & Hb). 
    unfold getattr at 2. rewrite lookup_insert_ne; [by rewrite Hv|]. intros <-. revert Hk. apply (bool_decide_unpack _). by vm_compute.
  - unfold getattr. rewrite lookup_insert_ne by done. rewrite (Hkeep _ (str (op_class op))); [done| |].
    + right. by rewrite sin_sget, Ht.
    + apply (Hin _ _ _ Ht); [apply (bool_decide_unpack _); by vm_compute|]. apply decode_prim. left.
  - unfold getattr. rewrite lookup_insert_eq. by destruct (op_dummy op).
  - rewrite lookup_insert_ne by done. apply Hkeep; [left; apply (bool_decide_unpack _); by vm_compute|]. by rewrite Hout.
Qed.
End OperatorFacts.

(** ** The upstream tasks *)

Section LinkFacts.
Context {F : Type} `{PyFloat F}.
Implicit Types (ops : list (string * Attrs F)).

Definition up : string := "_upstream_task_ids".
Definition downstream (a : Attrs F) : list string := ids_of (getattr "_downstream_task_ids" a).

(** [ops] is [ops0] with upstream ids as [E] says. *)
Definition linked ops0 (E : string → string → Prop) ops : Prop :=
  ops.*1 = ops0.*1 ∧ ∀ i a, sget i ops = Some a → ∃ a0 l, sget i ops0 = Some a0 ∧
    (∀ k, k ≠ up → a !! k = a0 !! k) ∧ a !! up = Some (PSet (str <$> l)) ∧ ∀ x, x ∈ l ↔ E x i.

Lemma linked_ext ops0 (E E' : string → string → Prop) ops : (∀ x i, E x i ↔ E' x i) → linked ops0 E ops → linked ops0 E' ops.
Proof.
  intros HE [Hk Hl]. split; [done|]. intros i a Hi. destruct (Hl i a Hi) as (a0 & l & H1 & H2 & H3 & H4).
  exists a0, l. split_and!; [done..|]. intros x. by rewrite H4.
Qed.

Lemma linked_init ops0 : (∀ i a, sget i ops0 = Some a → a !! up = Some (PSet [])) → linked ops0 (λ _ _, False) ops0.
Proof.
  intros Hu. split; [done|]. intros i a Hi. exists a, []. split_and!; [done|done|by apply (Hu i)|].
  intros x. by rewrite elem_of_nil.
Qed.

Lemma linked_add ops0 E ops tid d t : linked ops0 E ops → sget d ops = Some t →
  linked ops0 (λ x i, E x i ∨ (x = tid ∧ i = d)) (sset d (<[up := add_id tid (getattr up t)]> t) ops).
Proof.
  intros [Hk Hl] Hd. assert (sin d ops = true) as Hs by (rewrite sin_sget, Hd; by apply bool_decide_eq_true_2).
  split; [by rewrite sset_keys, Hs|]. intros i a. rewrite sget_sset. case_bool_decide as Hi.
  - subst i. intros [= <-]. destruct (Hl d t Hd) as (a0 & l & H1 & H2 & H3 & H4). exists a0.
    assert (getattr up t = PSet (str <$> l)) as Hg by (unfold getattr; by rewrite H3). rewrite Hg. cbn [add_id].
    assert (str (F:=F) tid ∈ str <$> l ↔ tid ∈ l) as Hin.
    { rewrite list_elem_of_fmap. split; [by intros (y & [= ->] & ?)|by exists tid]. }
    exists (if str (F:=F) tid ∈? (str <$> l) then l else l ++ [tid]). split_and!; [done| | |].
    + intros k Hne. rewrite lookup_insert_ne by done. by apply H2.
    + rewrite lookup_insert_eq. case_bool_decide; [done|]. by rewrite fmap_app.
    + intros x. rewrite <-H4. case_bool_decide as Hc; [rewrite Hin in Hc; naive_solver|].
      rewrite elem_of_app, list_elem_of_singleton. naive_solver.
  - intros Ha. destruct (Hl i a Ha) as (a0 & l & H1 & H2 & H3 & H4). exists a0, l. split_and!; [done..|].
    intros x. rewrite H4. naive_solver.
Qed.

Lemma linked_get ops0 E ops d : linked ops0 E ops → d ∈ ops0.*1 → ∃ t, sget d ops = Some t.
Proof. intros [Hk _] Hd. destruct (sget d ops) eqn:E'; [eauto|]. apply sget_None in E'. by rewrite Hk in E'. Qed.

Lemma link_upstream_linked ops0 E ops tid a0 : linked ops0 E ops → sget tid ops0 = Some a0 → (∀ d, d ∈ downstream a0 → d ∈ ops0.*1) →
  ∃ ops', link_upstream ops tid = Ok ops' ∧ linked ops0 (λ x i, E x i ∨ (x = tid ∧ i ∈ downstream a0)) ops'.
Proof.
  intros Hl H0 Hsub. unfold link_upstream. destruct (linked_get ops0 E ops tid Hl) as [t Ht].
  { apply list_elem_of_fmap. exists (tid, a0). split; [done|by apply sget_elem]. }
  rewrite Ht. assert (ids_of (getattr "_downstream_task_ids" t) = downstream a0) as ->.
  { destruct Hl as [_ Hl]. destruct (Hl tid t Ht) as (a1 & l & H1 & H2 & _). rewrite H0 in H1. injection H1 as <-.
    unfold downstream, getattr. by rewrite H2. }
  clear Ht t H0. revert E ops Hl. induction (downstream a0) as [|d ds IH]; intros E ops Hl.
  - exists ops. split; [done|]. eapply linked_ext; [|exact Hl]. intros x i. rewrite elem_of_nil. naive_solver.
  - destruct (linked_get ops0 E ops d Hl) as [t Ht]; [apply Hsub; left|]. cbn [foldM]. rewrite Ht. cbn [mbind result_bind].
    destruct (IH ltac:(intros; apply Hsub; by right) _ _ (linked_add ops0 E ops tid d t Hl Ht)) as (ops' & Hf & Hl').
    exists ops'. split; [exact Hf|]. eapply linked_ext; [|exact Hl']. intros x i. rewrite elem_of_cons. naive_solver.
Qed.

Lemma links_complete ops0 : (∀ i a, sget i ops0 = Some a → a !! up = Some (PSet [])) →
  (∀ i a, sget i ops0 = Some a → ∀ d, d ∈ downstream a → d ∈ ops0.*1) →
  ∃ ops, foldM link_upstream (ops0.*1) ops0 = Ok ops ∧
    linked ops0 (λ x i, ∃ a, sget x ops0 = Some a ∧ i ∈ downstream a) ops.
Proof.
  intros Hu Hd. assert (∀ ids E ops, linked ops0 E ops → (∀ x, x ∈ ids → x ∈ ops0.*1) →
    ∃ ops', foldM link_upstream ids ops = Ok ops' ∧
      linked ops0 (λ x i, E x i ∨ (x ∈ ids ∧ ∃ a, sget x ops0 = Some a ∧ i ∈ downstream a)) ops') as Hg.
  { induction ids as [|x ids IH]; intros E ops Hl Hsub.
    - exists ops. split; [done|]. eapply linked_ext; [|exact Hl]. intros x i. rewrite elem_of_nil. naive_solver.
    - destruct (sget x ops0) as [a0|] eqn:Hx; [|by apply sget_None in Hx; destruct Hx; apply Hsub; left].
      destruct (link_upstream_linked ops0 E ops x a0 Hl Hx (Hd x a0 Hx)) as (ops1 & H1 & Hl1).
      destruct (IH _ ops1 Hl1) as (ops' & H2 & Hl2); [intros; apply Hsub; by right|].
      exists ops'. cbn [foldM]. rewrite H1. split; [exact H2|]. eapply linked_ext; [|exact Hl2].
      intros y i. rewrite elem_of_cons. naive_solver. }
  destruct (Hg (ops0.*1) _ ops0 (linked_init ops0 Hu)) as (ops & Hf & Hl); [done|]. exists ops. split; [done|].
  eapply linked_ext; [|exact Hl]. intros x i. split; [naive_solver|]. intros (a & Ha & Hi). right. split; [|by exists a].
  apply list_elem_of_fmap. exists (x, a). split; [done|by apply sget_elem].
Qed.
End LinkFacts.
