(* ===== verification/DagRoundTrip.v ===== *)
(** * DagRoundTrip: a DAG survives its serialization

    What the scheduler reads from the serialized form of a DAG
    ([SerializedDAG.serialize_dag], [deserialize_dag] of
    [serialization/serialized_objects.py]): the tasks, their attributes, and the
    edges in both directions, of which only one is stored. *)

From S2P Require Import Prelude Dict State Model Serialization SerializedDag.
From stdpp Require Import strings gmap.

Import Serialization SerializedDag.

(** A list whose keys are distinct has one element per key. *)
Lemma NoDup_fmap_elem {A B} (f : A → B) (l : list A) x y : NoDup (f <$> l) → x ∈ l → y ∈ l → f x = f y → x = y.
Proof.
  intros Hnd [i Hi]%list_elem_of_lookup [j Hj]%list_elem_of_lookup Hf.
  assert (i = j) as ->; [|congruence]. apply (NoDup_lookup (f <$> l) i j (f x) Hnd); rewrite list_lookup_fmap.
  - by rewrite Hi.
  - by rewrite Hj, Hf.
Qed.

Section DagFacts.
Local Open Scope Z_scope.
Context {F : Type} `{PyFloat F} `{Dateutil} `{Identity F} (c : Defaults)
        (str_other : py F → string) (nested : string → json F → result (py F)) (importable : string → bool).
Implicit Types (v : py F) (j : json F) (k : string).

Abbreviation ser := (_serialize str_other).
Abbreviation norm := (normal str_other).

(** The types of the attributes of a DAG. *)
Definition dag_field_ok k v : Prop :=
  if k ≟ "timezone" then ∃ s, v = PTimezone s
  else if k ≟ "dagrun_timeout" then (∃ us, v = PTimedelta us ∧ in_range us) ∨ v = none
  else if ends_with "_date" k then (∃ t, v = PDatetime t ∧ in_range t) ∨ v = none
  else if k ≟ "edge_info" then raw v ∧ ∃ d, v = PDict d
  else if k ∈? dag_decorated_fields then supported v ∧ (∀ s, v ≠ PExcluded s) ∧ (k = "default_args" → v ≠ none)
  else if k ≟ "_dag_id" then ∃ s, v = str s
  else plain v ∧ (k = "params" → v ≠ none).

Definition dag_image k v : py F := if k ∈? dag_decorated_fields then norm v else plain_image v.

Definition dag_restored k v v' : Prop :=
  py_eqv v' (dag_image k v) ∨ (is_empty v = true ∧ v' = getattr k (dag_attrs_init c "")).

Lemma dag_fields_NoDup : NoDup dag_fields.
Proof. apply (bool_decide_unpack _). by vm_compute. Qed.

Abbreviation dag_excluded := (_is_excluded (dag_params c)).

Lemma dag_date_fields k : k ∈ dag_fields → ends_with "_date" k = true → k ∈ ["start_date"; "end_date"].
Proof.
  intros Hk Hd. assert (forallb (λ k, negb (ends_with "_date" k) || (k ∈? ["start_date"; "end_date"])) dag_fields = true) as Hc
    by (by vm_compute).
  rewrite forallb_elem in Hc. apply Hc in Hk. rewrite Hd in Hk. by apply bool_decide_eq_true in Hk.
Qed.

Lemma dag_none_excluded k : k ∈ ["start_date"; "end_date"; "dagrun_timeout"] → dag_excluded k none = true.
Proof.
  intros Hk. assert (sget k (dag_params (F:=F) c) = Some none) as Hp.
  { repeat (apply elem_of_cons in Hk as [->|Hk]; [by vm_compute|]). by apply elem_of_nil in Hk. }
  unfold _is_excluded, _value_is_hardcoded_default. rewrite sin_sget, Hp. cbn. unfold none. by rewrite same_none.
Qed.

(** Not decorated: the type is stripped. *)
Lemma encode_plain k v : (k ∈? dag_decorated_fields) = false → encode_field str_other dag_decorated_fields k v = strip (ser v).
Proof. unfold encode_field. by intros ->. Qed.

Lemma dag_decode_written k v : k ∈ dag_fields → k ≠ "edge_info" → dag_field_ok k v → dag_excluded k v = false →
  ∃ v', decode_dag_field nested k (encode_field str_other dag_decorated_fields k v) = Ok v' ∧ py_eqv v' (dag_image k v).
Proof.
  intros Hk Hei Hok Hex. unfold dag_field_ok in Hok. unfold decode_dag_field, dag_image.
  assert (k ≠ "_downstream_task_ids") as Hds by (clear -Hk; unfold dag_fields in Hk; by_cases_of Hk).
  rewrite (bool_decide_eq_false_2 (k = "_downstream_task_ids")) by done.
  destruct (decide (k = "timezone")) as [->|N1].
  { destruct Hok as [s ->]. exists (PTimezone s). split; [done|constructor]. }
  rewrite (bool_decide_eq_false_2 (k = "timezone")) in Hok |- * by done.
  destruct (decide (k = "dagrun_timeout")) as [->|N2].
  { destruct Hok as [(us & -> & Hr)| -> ].
    - exists (PTimedelta us). split; [|constructor].
      change (PTimedelta <$> Ok (microseconds_of (seconds_of us)) = Ok (PTimedelta (F:=F) us)). by rewrite seconds_round_trip.
    - rewrite dag_none_excluded in Hex; [done|]. apply (bool_decide_unpack _). by vm_compute. }
  rewrite (bool_decide_eq_false_2 (k = "dagrun_timeout")) in Hok |- * by done.
  destruct (ends_with "_date" k) eqn:Ed.
  { pose proof (dag_date_fields k Hk Ed) as Hd.
    assert ((k ∈? dag_decorated_fields) = false) as Hdec by (clear -Hd; by_cases_of Hd).
    rewrite Hdec. rewrite encode_plain by done. destruct Hok as [(t & -> & Hr)| -> ].
    - exists (PDatetime t). split; [|constructor].
      change (PDatetime <$> Ok (microseconds_of (seconds_of t)) = Ok (PDatetime (F:=F) t)). by rewrite seconds_round_trip.
    - rewrite dag_none_excluded in Hex; [done|]. by_cases_of Hd. }
  rewrite (bool_decide_eq_false_2 (k = "edge_info")) in Hok |- * by done.
  destruct (k ∈? dag_decorated_fields) eqn:Edec.
  { unfold encode_field. rewrite Edec. destruct Hok as [Hs _]. by apply serialize_round_trip. }
  rewrite encode_plain by done. assert (plain v) as Hp.
  { destruct (k ≟ "_dag_id"); [by destruct Hok as [s ->]|by destruct Hok]. }
  exists (plain_image v). rewrite plain_back by done. split; [done|constructor].
Qed.

Definition dag_unwritten did k : py F := if sin k (dag_params (F:=F) c) then getattr k (dag_attrs_init c did) else none.

Lemma dag_default_attr k (d : py F) did : sget k (dag_params c) = Some d → k ∈ dag_fields → k ∉ ["params"; "default_args"] →
  getattr k (dag_attrs_init c did) = d ∧ dag_image k d = d.
Proof.
  intros Hk%sget_elem Hf Hn. unfold dag_params in Hk.
  repeat (apply elem_of_cons in Hk as [[= -> ->]|Hk];
    [first [by split; vm_compute | exfalso; revert Hf; apply (bool_decide_unpack _); by vm_compute | exfalso; set_solver + Hn]|]).
  by apply elem_of_nil in Hk.
Qed.

Lemma dag_default_id k did : sin k (dag_params (F:=F) c) = true → getattr k (dag_attrs_init (F:=F) c did) = getattr k (dag_attrs_init c "").
Proof.
  rewrite sin_keys. unfold dag_params. cbn [fmap list_fmap fst]. intros Hk.
  repeat (apply elem_of_cons in Hk as [->|Hk]; [by vm_compute|]). by apply elem_of_nil in Hk.
Qed.

Lemma dag_not_excluded_type k v s : dag_field_ok k v → v ≠ PExcluded s.
Proof.
  intros Hok ->. unfold dag_field_ok in Hok. destruct (k ≟ "timezone"); [by destruct Hok|].
  destruct (k ≟ "dagrun_timeout"); [by destruct Hok as [(? & ? & _)|?]|].
  destruct (ends_with "_date" k); [by destruct Hok as [(? & ? & _)|?]|]. destruct (k ≟ "edge_info"); [by destruct Hok as [_ [? ?]]|].
  destruct (k ∈? dag_decorated_fields); [by destruct Hok as (_ & Hx & _); apply (Hx s)|].
  destruct (k ≟ "_dag_id"); [by destruct Hok|]. by destruct Hok.
Qed.

Lemma dag_unwritten_ok did k v : k ∈ dag_fields → dag_field_ok k v → dag_excluded k v = true →
  dag_restored k v (dag_unwritten did k).
Proof.
  intros Hk Hok Hex. unfold _is_excluded in Hex.
  destruct (decide (v = none ∧ sin k (dag_params (F:=F) c) = false)) as [[-> Hs]|Hcase].
  { left. unfold dag_unwritten. rewrite Hs. unfold dag_image. destruct (k ∈? dag_decorated_fields); constructor. }
  assert (_value_is_hardcoded_default (dag_params c) k v = true) as Hd.
  { destruct v as [[]| | | | | | | | | | | |]; try done; [|by destruct (dag_not_excluded_type _ _ str0 Hok)].
    destruct (sin k (dag_params (F:=F) c)) eqn:Es; cbn in Hex; [done|]. by destruct Hcase. }
  unfold _value_is_hardcoded_default in Hd. destruct (sget k (dag_params c)) as [d|] eqn:Eg; [|done].
  assert (sin k (dag_params (F:=F) c) = true) as Hs by (rewrite sin_sget, Eg; by apply bool_decide_eq_true_2).
  unfold dag_restored, dag_unwritten. rewrite Hs.
  apply orb_true_iff in Hd as [Hd%same_eq|Hd]; [|right; split; [done|by apply dag_default_id]].
  subst d. destruct (decide (k ∈ ["params"; "default_args"])) as [Hp|Hp].
  - exfalso. apply elem_of_cons in Hp as [->|Hp%list_elem_of_singleton]; [|subst k]; injection Eg as <-.
    + by destruct Hok as [_ Hok]; apply Hok.
    + by destruct Hok as (_ & _ & Hok); apply Hok.
  - destruct (dag_default_attr k v did Eg Hk Hp) as [-> Himg]. left. rewrite Himg. constructor.
Qed.

(** ** The written DAG *)

Definition dag_updates (tasks : list (list (string * json F))) (dag : Dag F) : list (string * json F) :=
  let did := match getattr "_dag_id" (dag_attrs dag) with PPrim (StrV s) => s | _ => "" end in
  [("tasks", JList (JDict <$> tasks));
   ("dag_dependencies", JList (omap (detect_task_dependencies str_other did) (dag_tasks dag)));
   ("_task_group", dag_group dag);
   ("edge_info", default (JDict []) (json_dumps (getattr "edge_info" (dag_attrs dag))))] ++
  (if dag_has_on_success dag then [("has_on_success_callback", JPrim (BoolV true))] else []) ++
  (if dag_has_on_failure dag then [("has_on_failure_callback", JPrim (BoolV true))] else []).

Definition dag_written (dag : Dag F) : list (string * json F) :=
  serialize_to_json str_other dag_excluded dag_fields dag_decorated_fields (dag_attrs dag).

Lemma serialize_dag_updates dag tasks :
  mapR (serialize_operator c str_other (Some (dag_attrs dag))) (dag_tasks dag) = Ok tasks →
  serialize_dag c str_other dag = Ok (ssets (dag_updates tasks dag) (dag_written dag)).
Proof.
  intros Ht. unfold serialize_dag. rewrite Ht. f_equal. unfold dag_updates, dag_written.
  generalize (serialize_to_json str_other dag_excluded dag_fields dag_decorated_fields (dag_attrs dag)). intros base.
  rewrite !ssets_app. by destruct (dag_has_on_success dag), (dag_has_on_failure dag).
Qed.

Lemma dag_written_get dag k : sget k (dag_written dag) =
  if (k ∈? dag_fields) && negb (dag_excluded k (getattr k (dag_attrs dag)))
  then Some (encode_field str_other dag_decorated_fields k (getattr k (dag_attrs dag))) else None.
Proof. apply serialize_to_json_get, dag_fields_NoDup. Qed.

Definition dag_extra_keys : list string :=
  ["tasks"; "dag_dependencies"; "_task_group"; "edge_info"; "has_on_success_callback"; "has_on_failure_callback"].

Lemma dag_updates_keys tasks dag k : k ∈ (dag_updates tasks dag).*1 → k ∈ dag_extra_keys.
Proof.
  unfold dag_updates. rewrite !fmap_app, !elem_of_app. unfold dag_extra_keys. intros [Hin|[Hin|Hin]].
  - cbn in Hin. by_cases_of Hin.
  - destruct (dag_has_on_success dag); cbn in Hin; by_cases_of Hin.
  - destruct (dag_has_on_failure dag); cbn in Hin; by_cases_of Hin.
Qed.

Record dag_ok (dag : Dag F) : Prop := {
  dk_fields k : k ∈ dag_fields → dag_field_ok k (getattr k (dag_attrs dag));
  dk_tasks op : op ∈ dag_tasks dag → op_ok c op;
  dk_ids : NoDup (op_id <$> dag_tasks dag);
  dk_edges op d : op ∈ dag_tasks dag → d ∈ downstream (op_attrs op) → d ∈ op_id <$> dag_tasks dag;
  dk_dates op k : op ∈ dag_tasks dag → k ∈ ["start_date"; "end_date"] →
    getattr k (op_attrs op) = none → getattr k (dag_attrs dag) = none;
}.

Lemma dag_item_decodes dag tasks k j : dag_ok dag →
  sget k (ssets (dag_updates tasks dag) (dag_written dag)) = Some j → k ≠ "tasks" → is_ok (decode_dag_field nested k j) = true.
Proof.
  intros Hok Hg Hne. apply ssets_inv in Hg as [Hin|[Hnu Hw]].
  - assert (k ∈ dag_extra_keys) as Hk by (apply (dag_updates_keys tasks dag), list_elem_of_fmap; by exists (k, j)).
    unfold dag_extra_keys in Hk. apply elem_of_cons in Hk as [->|Hk]; [done|].
    repeat (apply elem_of_cons in Hk as [->|Hk]; [done|]). by apply elem_of_nil in Hk.
  - rewrite dag_written_get in Hw. destruct (decide (k ∈ dag_fields)) as [Hk|Hk];
      [rewrite bool_decide_eq_true_2 in Hw by done|by rewrite bool_decide_eq_false_2 in Hw].
    destruct (dag_excluded k (getattr k (dag_attrs dag))) eqn:Hex; [done|]. injection Hw as <-.
    destruct (dag_decode_written k (getattr k (dag_attrs dag))) as (v & -> & _); [done| |by apply Hok|done|done].
    intros ->. apply Hnu. unfold dag_updates. rewrite fmap_app. apply elem_of_app. left. cbn. do 3 right. left.
Qed.

Lemma dag_assigned dag tasks did : dag_ok dag →
  let e := ssets (dag_updates tasks dag) (dag_written dag) in
  ∃ a, foldM (set_dag_field nested) e (dag_attrs_init c did) = Ok a ∧
    (∀ k j v, sget k e = Some j → k ≠ "tasks" → decode_dag_field nested k j = Ok v → a !! k = Some v) ∧
    (∀ k, sget k e = None → k ≠ "tasks" → a !! k = dag_attrs_init c did !! k).
Proof.
  intros Hok e. assert (NoDup e.*1) as Hnd by apply ssets_NoDup, serialize_to_json_NoDup, dag_fields_NoDup.
  destruct (assign_loop (set_dag_field nested) (decode_dag_field nested) ["tasks"] "tasks" e (dag_attrs_init c did))
    as (a & Ha & Hin & Hout).
  - intros a k j Hs. unfold set_dag_field. by rewrite bool_decide_eq_false_2 by set_solver + Hs.
  - intros a k j ->%list_elem_of_singleton. by exists a.
  - done.
  - intros k j Hkj%sget_NoDup Hs; [|done]. eapply dag_item_decodes; [done|exact Hkj|set_solver + Hs].
  - exists a. split_and!; [done| |].
    + intros k j v Hg Hs Hv. apply (Hin k j v); [by apply sget_elem|set_solver + Hs|done|done].
    + intros k Hg Hz. apply Hout; [left; by apply sget_None|done].
Qed.

Lemma dag_init_some k did : k ∈ dag_fields → dag_attrs_init c did !! k = Some (getattr k (dag_attrs_init (F:=F) c did)).
Proof.
  intros Hk. unfold dag_fields in Hk.
  repeat (apply elem_of_cons in Hk as [->|Hk]; [vm_compute; reflexivity|]). by apply elem_of_nil in Hk.
Qed.

(** The attributes of the DAG that is read. *)
Lemma dag_fields_back dag tasks did : dag_ok dag →
  let e := ssets (dag_updates tasks dag) (dag_written dag) in
  ∃ a, foldM (set_dag_field nested) e (dag_attrs_init c did) = Ok a ∧
    ∀ k, k ∈ dag_fields → dag_restored k (getattr k (dag_attrs dag)) (getattr k
      (foldl (λ (a : Attrs F) k, if sin k e || sin k (dag_params (F:=F) c) then a else <[k := none]> a) a dag_fields)).
Proof.
  intros Hok e. destruct (dag_assigned dag tasks did Hok) as (a & Ha & Hin & Hout). fold e in Ha, Hin, Hout.
  exists a. split; [done|]. intros k Hk.
  assert (k ≠ "tasks") as Hnt by (clear -Hk; unfold dag_fields in Hk; by_cases_of Hk).
  unfold getattr at 2. rewrite (fill_none (λ k, sin k e || sin k (dag_params (F:=F) c))).
  rewrite (bool_decide_eq_true_2 (k ∈ dag_fields)) by done. cbn [andb].
  destruct (decide (k = "edge_info")) as [->|Hei].
  { destruct (dk_fields _ Hok "edge_info" Hk) as [Hraw _]. destruct (raw_dumps _ Hraw) as (j & Hj & Hback).
    assert (sget "edge_info" e = Some j) as Hg.
    { subst e. unfold dag_updates. rewrite ssets_app, ssets_old.
      - cbn [ssets foldl fst snd]. rewrite !sget_sset. rewrite Hj. by vm_compute.
      - by destruct (dag_has_on_success dag), (dag_has_on_failure dag); apply (bool_decide_unpack _); vm_compute. }
    rewrite sin_sget, Hg, (bool_decide_eq_true_2 (is_Some (Some j))) by eauto. cbn [orb negb].
    rewrite (Hin "edge_info" j (py_of_json j) Hg Hnt eq_refl). cbn. rewrite Hback. left.
    change (dag_image "edge_info" ?v) with (plain_image v).
    destruct (dk_fields _ Hok "edge_info" Hk) as [_ [d ->]]. constructor. }
  assert (sget k e = sget k (dag_written dag)) as Hold.
  { apply ssets_old. intros Hu%dag_updates_keys. clear -Hk Hu Hei. unfold dag_extra_keys in Hu.
    repeat (apply elem_of_cons in Hu as [->|Hu];
      [first [done | revert Hk; apply (bool_decide_unpack _); by vm_compute]|]). by apply elem_of_nil in Hu. }
  rewrite dag_written_get, (bool_decide_eq_true_2 (k ∈ dag_fields)) in Hold by done. rewrite sin_sget, Hold.
  destruct (dag_excluded k (getattr k (dag_attrs dag))) eqn:Hex; cbn [andb negb].
  - rewrite (bool_decide_eq_false_2 (is_Some None)) by (by intros []). cbn [orb].
    replace (default (PPrim NoneV) _) with (dag_unwritten did k).
    + apply dag_unwritten_ok; [done|by apply Hok|done].
    + unfold dag_unwritten. destruct (sin k (dag_params c)); cbn; [|done]. rewrite Hout by (by rewrite ?Hold).
      by rewrite dag_init_some.
  - rewrite (bool_decide_eq_true_2 (is_Some (Some _))) by eauto. cbn [orb negb].
    destruct (dag_decode_written k (getattr k (dag_attrs dag))) as (v & Hv & Hq); [done|done|by apply Hok|done|].
    rewrite (Hin k _ v Hold Hnt Hv). by left.
Qed.

(** ** The tasks *)

(** What is known of a task before it gets dates and upstream ids. *)
Definition read_back (dag : Dag F) (op : Operator F) (t : string * (Attrs F * option (list string))) : Prop :=
  t.1 = op_id op ∧
  (∀ k, k ∈ op_fields → k ∉ ["_log"; "_task_type"] →
     op_back c str_other (dag_attrs dag) k (getattr k (op_attrs op)) (getattr k t.2.1)) ∧
  getattr "_task_type" t.2.1 = str (op_class op) ∧ t.2.1 !! up = Some (PSet []).

Lemma tasks_back dag : dag_ok dag → ∃ encs ts,
  mapR (serialize_operator c str_other (Some (dag_attrs dag))) (dag_tasks dag) = Ok encs ∧
  deserialize_tasks c nested importable (JList (JDict <$> encs)) = Ok ts ∧ Forall2 (read_back dag) (dag_tasks dag) ts.
Proof.
  intros Hok. destruct (mapR_total (serialize_operator c str_other (Some (dag_attrs dag)))
    (λ op e, ∃ t, (op' ← deserialize_operator c nested importable e;
                   match sget "task_id" e with Some (JPrim (StrV s)) => Ok (s, op') | _ => Err KeyError end) = Ok t ∧
                  read_back dag op t) (dag_tasks dag)) as (encs & Hm & HR).
  { intros op Hop. destruct (operator_back c str_other nested importable (dag_attrs dag) op (dk_tasks _ Hok op Hop))
      as (e & a & ds & He & Hid & Hd & Hf & Ht & _ & Hu).
    exists e. split; [done|]. exists (op_id op, (a, ds)). rewrite Hd. cbn. rewrite Hid. by split_and!. }
  exists encs. assert (∃ ts, mapR (λ t, match t with
      | JDict e => op' ← deserialize_operator c nested importable e;
                   match sget "task_id" e with Some (JPrim (StrV s)) => Ok (s, op') | _ => Err KeyError end
      | _ => Err TypeError end) (JDict <$> encs) = Ok ts ∧ Forall2 (read_back dag) (dag_tasks dag) ts) as (ts & Hts & HF).
  { clear Hm Hok. generalize dependent (dag_tasks dag). induction encs as [|e encs IH]; intros l HR.
    - apply Forall2_nil_inv_r in HR as ->. by exists [].
    - apply Forall2_cons_inv_r in HR as (op & l' & (t & Ht & Hr) & HR & ->). destruct (IH l' HR) as (ts & Hts & HF).
      exists (t :: ts). cbn [fmap list_fmap mapR]. rewrite Ht. cbn [mbind result_bind]. rewrite Hts. split; [done|]. by constructor. }
  exists ts. split_and!; [done| |done]. unfold deserialize_tasks. rewrite Hts. cbn [mbind result_bind]. f_equal.
  apply dict_of_NoDup. assert (ts.*1 = op_id <$> dag_tasks dag) as ->; [|by apply Hok].
  clear -HF. induction HF as [|op t l ts [Ht _] _ IH]; [done|]. cbn. by rewrite Ht, IH.
Qed.

(** Values that determine their equivalents. *)
Lemma eqv_date v' v : py_eqv v' v → (∃ t, v = PDatetime t) ∨ v = none → v' = v.
Proof. intros Hq [[t ->]| ->]; by inversion Hq. Qed.

Lemma eqv_ids v' (ids : list string) : py_eqv v' (PSet (str <$> ids)) → ∀ x, x ∈ ids_of v' ↔ x ∈ ids.
Proof.
  assert (∀ l : list string, ids_of (PSet (str (F:=F) <$> l)) = l) as Hid.
  { intros l. cbn. induction l as [|y l IH]; cbn; [done|by f_equal]. }
  intros Hq x. inversion Hq as [|? ?|? ?|l m Hp|? ?]; subst; [by rewrite Hid|].
  symmetry in Hp. destruct (Permutation_map_inv str ids (Permutation_sym Hp)) as (ids' & -> & Hp').
  change (map str ids') with (str (F:=F) <$> ids'). by rewrite Hid, Hp'.
Qed.

Lemma inherit_dates_get (da a : Attrs F) k : getattr k (inherit_dates da a) =
  if (k ∈? ["start_date"; "end_date"]) && (getattr k a ≟ none) then getattr k da else getattr k a.
Proof.
  unfold inherit_dates. cbn [foldl]. set (step := λ k (a : Attrs F), if getattr k a ≟ none then <[k := getattr k da]> a else a).
  assert (∀ x a, getattr k (step x a) = if (k ≟ x) && (getattr k a ≟ none) then getattr k da else getattr k a) as Hs.
  { intros x a'. unfold step. destruct (decide (k = x)) as [->|Hne].
    - rewrite (bool_decide_eq_true_2 (x = x)) by done. cbn. case_bool_decide; [|done]. unfold getattr at 1. by rewrite lookup_insert_eq.
    - rewrite (bool_decide_eq_false_2 (k = x)) by done. cbn. case_bool_decide; [|done]. unfold getattr at 1. by rewrite lookup_insert_ne. }
  transitivity (getattr k (step "end_date" (step "start_date" a))); [reflexivity|]. rewrite !Hs.
  destruct (decide (k = "start_date")) as [->|H1']; [reflexivity|].
  destruct (decide (k = "end_date")) as [->|H2']; [done|].
  rewrite (bool_decide_eq_false_2 (k = "start_date")), (bool_decide_eq_false_2 (k = "end_date")),
    (bool_decide_eq_false_2 (k ∈ _)) by set_solver + H1' H2'. done.
Qed.

(** A task after the dates were provided. *)
Definition task_ok (op : Operator F) (a : Attrs F) : Prop :=
  (∀ k, k ∈ op_fields → k ∉ ["_log"; "_task_type"] → restored c str_other k (getattr k (op_attrs op)) (getattr k a)) ∧
  getattr "_task_type" a = str (op_class op).

Lemma dated_ok dag op t (da : Attrs F) : dag_ok dag → op ∈ dag_tasks dag → read_back dag op t →
  (∀ k, k ∈ dag_fields → dag_restored k (getattr k (dag_attrs dag)) (getattr k da)) → task_ok op (inherit_dates da t.2.1).
Proof.
  intros Hok Hop (_ & Hf & Ht & _) Hdag. assert (∀ k, k ∈ ["start_date"; "end_date"] → getattr k da = getattr k (dag_attrs dag)) as Hdates.
  { intros k Hk. assert (k ∈ dag_fields ∧ (k ∈? dag_decorated_fields) = false ∧ ends_with "_date" k = true ∧
      k ≠ "timezone" ∧ k ≠ "dagrun_timeout") as (Hkf & Hdec & He & N1 & N2) by (clear -Hk; by_cases_of Hk).
    pose proof (dk_fields _ Hok k Hkf) as Hty. unfold dag_field_ok in Hty.
    rewrite (bool_decide_eq_false_2 (k = "timezone")), (bool_decide_eq_false_2 (k = "dagrun_timeout")), He in Hty by done.
    destruct (Hdag k Hkf) as [Hq|[Hem _]]; [|by destruct Hty as [(t' & Hv & _)|Hv]; rewrite Hv in Hem].
    unfold dag_image in Hq. rewrite Hdec in Hq.
    assert (plain_image (getattr k (dag_attrs dag)) = getattr k (dag_attrs dag)) as Himg
      by (by destruct Hty as [(t' & -> & _)| ->]). rewrite Himg in Hq.
    apply eqv_date; [done|]. destruct Hty as [(t' & Hv & _)|Hv]; eauto. }
  split.
  - intros k Hk Hl. rewrite inherit_dates_get. destruct (decide (k ∈ ["start_date"; "end_date"])) as [Hd|Hd].
    2: { rewrite (bool_decide_eq_false_2 (k ∈ _)) by done. cbn. destruct (Hf k Hk Hl) as [|(He & _)]; [done|].
         by apply date_fields in He. }
    rewrite (bool_decide_eq_true_2 (k ∈ _)) by done. cbn [andb].
    assert (ends_with "_date" k = true ∧ k ≠ "_downstream_task_ids" ∧ k ≠ "subdag" ∧ (k ∈? timedelta_fields) = false ∧
      k ≠ "executor_config") as (He & N1 & N2 & N3 & N4) by (clear -Hd; by_cases_of Hd).
    pose proof (ok_fields _ _ (dk_tasks _ Hok op Hop) k Hk) as Hty. unfold op_field_ok in Hty.
    rewrite (bool_decide_eq_false_2 (k = "_downstream_task_ids")), (bool_decide_eq_false_2 (k = "subdag")), N3, He in Hty by done.
    assert (op_image str_other k (getattr k (op_attrs op)) = getattr k (op_attrs op)) as Himg.
    { unfold op_image. rewrite bool_decide_eq_false_2 by done. by destruct Hty as [(t' & -> & _)| ->]. }
    unfold restored. rewrite Himg. left. destruct (Hf k Hk Hl) as [[Hq|[Hem _]]|(_ & Hv & Hn & ->)].
    + rewrite Himg in Hq. apply eqv_date in Hq; [|destruct Hty as [(t' & Hv & _)|Hv]; eauto]. rewrite Hq.
      destruct (decide (getattr k (op_attrs op) = none)) as [Hnone|Hnone]; [|rewrite bool_decide_eq_false_2 by done; constructor].
      rewrite bool_decide_eq_true_2, (Hdates k Hd), Hnone, (dk_dates _ Hok op k Hop Hd Hnone) by done. constructor.
    + exfalso. by destruct Hty as [(t' & Hv & _)|Hv]; rewrite Hv in Hem.
    + rewrite bool_decide_eq_true_2 by done. rewrite (Hdates k Hd), <-Hv. constructor.
  - rewrite inherit_dates_get. by rewrite (bool_decide_eq_false_2 (_ ∈ _)) by (apply (bool_decide_unpack _); by vm_compute).
Qed.

Lemma downstream_back op (a : Attrs F) : op_ok c op →
  restored c str_other "_downstream_task_ids" (getattr "_downstream_task_ids" (op_attrs op)) (getattr "_downstream_task_ids" a) →
  ∀ x, x ∈ downstream a ↔ x ∈ downstream (op_attrs op).
Proof.
  intros Hok Hr x. assert (op_field_ok "_downstream_task_ids" (getattr "_downstream_task_ids" (op_attrs op))) as (ids & Hv & _)
    by (apply Hok, (bool_decide_unpack _); by vm_compute).
  unfold downstream. rewrite Hv in *. destruct Hr as [Hq|[Hem _]]; [|done].
  rewrite (eqv_ids _ ids Hq x). by rewrite (eqv_ids _ ids (Eqv_refl _) x).
Qed.

(** What the DAG that is read has of the one that was written. *)
Record same_dag (dag : Dag F) (d : SerializedDAG) : Prop := {
  sd_fields k : k ∈ dag_fields → dag_restored k (getattr k (dag_attrs dag)) (getattr k (sd_attrs d));
  sd_ids : (sd_tasks d).*1 = op_id <$> dag_tasks dag;
  sd_task op : op ∈ dag_tasks dag → ∃ a, sget (op_id op) (sd_tasks d) = Some a ∧ task_ok op a ∧
    (∀ x, x ∈ downstream a ↔ x ∈ downstream (op_attrs op)) ∧
    (∀ x, x ∈ ids_of (getattr up a) ↔ ∃ op', op' ∈ dag_tasks dag ∧ op_id op' = x ∧ op_id op ∈ downstream (op_attrs op'));
  sd_callbacks : sd_has_on_success d = dag_has_on_success dag ∧ sd_has_on_failure d = dag_has_on_failure dag;
}.

Lemma read_dated dag ts (da : Attrs F) : dag_ok dag → Forall2 (read_back dag) (dag_tasks dag) ts →
  (∀ k, k ∈ dag_fields → dag_restored k (getattr k (dag_attrs dag)) (getattr k da)) →
  let ops := (λ t, (t.1, inherit_dates da t.2.1)) <$> ts in
  ops.*1 = op_id <$> dag_tasks dag ∧
  (∀ i a, sget i ops = Some a → ∃ op, op ∈ dag_tasks dag ∧ op_id op = i ∧ task_ok op a ∧ a !! up = Some (PSet [])).
Proof.
  intros Hok HF Hdag ops. split.
  - subst ops. clear -HF. induction HF as [|op t l ts [Ht _] _ IH]; [done|]. cbn in *. by rewrite Ht, IH.
  - intros i a Hi%sget_elem. apply list_elem_of_fmap in Hi as (t & [= -> ->] & Ht).
    apply list_elem_of_lookup in Ht as [n Hn]. destruct (Forall2_lookup_r _ _ _ _ _ HF Hn) as (op & Hop & Hr).
    apply list_elem_of_lookup_2 in Hop. exists op. split_and!; [done|by destruct Hr|by apply (dated_ok dag)|].
    destruct Hr as (_ & _ & _ & Hu). pose proof (inherit_dates_get da t.2.1 up) as Hg.
    rewrite (bool_decide_eq_false_2 (up ∈ _)) in Hg by (apply (bool_decide_unpack _); by vm_compute).
    cbn [andb] in Hg. unfold getattr in Hg. rewrite Hu in Hg. destruct (inherit_dates da t.2.1 !! up); cbn in Hg; congruence.
Qed.

(** The keys of the written DAG that are read one by one. *)
Lemma dag_keys dag tasks : dag_ok dag →
  let e := ssets (dag_updates tasks dag) (dag_written dag) in
  (∃ did, sget "_dag_id" e = Some (JPrim (StrV did))) ∧ sget "tasks" e = Some (JList (JDict <$> tasks)) ∧
  sin "has_on_success_callback" e = dag_has_on_success dag ∧ sin "has_on_failure_callback" e = dag_has_on_failure dag.
Proof.
  intros Hok e. split_and!.
  - destruct (dk_fields _ Hok "_dag_id" ltac:(apply (bool_decide_unpack _); by vm_compute)) as [did Hdid]. exists did. subst e.
    rewrite ssets_old.
    + rewrite dag_written_get, Hdid. by vm_compute.
    + intros Hin%dag_updates_keys. revert Hin. apply (bool_decide_unpack _). by vm_compute.
  - subst e. unfold dag_updates. rewrite ssets_app, ssets_old.
    + cbn [ssets foldl fst snd]. rewrite !sget_sset. by vm_compute.
    + by destruct (dag_has_on_success dag), (dag_has_on_failure dag); apply (bool_decide_unpack _); vm_compute.
  - rewrite sin_sget. subst e. unfold dag_updates. rewrite !ssets_app.
    destruct (dag_has_on_success dag), (dag_has_on_failure dag); cbn [ssets foldl fst snd];
      rewrite !sget_sset, ?dag_written_get; by vm_compute.
  - rewrite sin_sget. subst e. unfold dag_updates. rewrite !ssets_app.
    destruct (dag_has_on_success dag), (dag_has_on_failure dag); cbn [ssets foldl fst snd];
      rewrite !sget_sset, ?dag_written_get; by vm_compute.
Qed.

Lemma dag_reads_back dag (Hok : dag_ok dag) : ∃ e d,
  serialize_dag c str_other dag = Ok e ∧ deserialize_dag c nested importable e = Ok d ∧ same_dag dag d.
Proof.
  destruct (tasks_back dag Hok) as (encs & ts & Hm & Hts & HF). exists (ssets (dag_updates encs dag) (dag_written dag)).
  destruct (dag_keys dag encs Hok) as ((did & Hdid) & Htasks & Hs & Hf).
  destruct (dag_fields_back dag encs did Hok) as (a & Ha & Hfields).
  set (e := ssets _ _) in *. unfold deserialize_dag. rewrite Hdid, Htasks. cbn [mbind result_bind]. rewrite Hts. cbn [mbind result_bind].
  rewrite Ha. cbn [mbind result_bind]. set (da := foldl _ a dag_fields) in *.
  destruct (read_dated dag ts da Hok HF Hfields) as [Hids Hops]. set (ops := _ <$> ts) in *.
  replace (ts.*1) with (ops.*1) by (subst ops; by rewrite <-list_fmap_compose).
  assert (∀ i x, sget i ops = Some x → ∃ op, op ∈ dag_tasks dag ∧ op_id op = i ∧ task_ok op x ∧
    ∀ y, y ∈ downstream x ↔ y ∈ downstream (op_attrs op)) as Hdown.
  { intros i x Hi. destruct (Hops i x Hi) as (op & Hop & Hid & Hok' & _). exists op. split_and!; [done..|].
    apply downstream_back; [by apply Hok|]. apply Hok'; apply (bool_decide_unpack _); by vm_compute. }
  destruct (links_complete ops) as (ops' & Hl & Hk & Hlinked).
  { intros i x Hi. by destruct (Hops i x Hi) as (_ & _ & _ & _ & ?). }
  { intros i x Hi y Hy. destruct (Hdown i x Hi) as (op & Hop & _ & _ & Hd). rewrite Hids. apply Hd in Hy. by apply (dk_edges _ Hok op). }
  rewrite Hl. cbn [mbind result_bind]. eexists. split_and!; [by apply serialize_dag_updates|done|].
  split; cbn [sd_attrs sd_tasks sd_has_on_success sd_has_on_failure].
  - exact Hfields.
  - by rewrite Hk.
  - intros op Hop. assert (op_id op ∈ ops'.*1) as Hin by (rewrite Hk, Hids; apply list_elem_of_fmap; by exists op).
    destruct (sget (op_id op) ops') as [x|] eqn:Hx; [|by apply sget_None in Hx]. exists x.
    destruct (Hlinked _ x Hx) as (x0 & l & Hx0 & Hsame & Hup & HE).
    destruct (Hdown _ x0 Hx0) as (op2 & Hop2 & Hid2 & [Hr Ht] & Hd).
    assert (op2 = op) as ->. { eapply NoDup_fmap_elem; [apply Hok|done|done|done]. }
    assert (∀ k, k ≠ up → getattr k x = getattr k x0) as Hg by (intros k Hk'; unfold getattr; by rewrite Hsame).
    split_and!; [done| | |].
    + split; [|by rewrite Hg]. intros k Hk' Hl'. rewrite Hg; [by apply Hr|]. intros ->. revert Hk'. apply (bool_decide_unpack _). by vm_compute.
    + intros y. unfold downstream at 1. rewrite Hg by done. apply Hd.
    + intros y. assert (getattr up x = PSet (str <$> l)) as -> by (unfold getattr; by rewrite Hup).
      rewrite (eqv_ids _ l (Eqv_refl _) y), HE. split.
      * intros (b & Hb & Hyb). destruct (Hdown y b Hb) as (op3 & Hop3 & Hid3 & _ & Hd3). exists op3. split_and!; [done..|]. by apply Hd3.
      * intros (op3 & Hop3 & Hid3 & Hy). assert (y ∈ ops.*1) as Hyin by (rewrite Hids; apply list_elem_of_fmap; by exists op3).
        destruct (sget y ops) as [b|] eqn:Hb; [|by apply sget_None in Hb]. exists b. split; [done|].
        destruct (Hdown y b Hb) as (op4 & Hop4 & Hid4 & _ & Hd4). apply Hd4.
        assert (op4 = op3) as ->; [|done]. eapply NoDup_fmap_elem; [apply Hok|done|done|congruence].
  - done.
Qed.

End DagFacts.

(** ** Checking the types by computation *)

Section Check.
Local Open Scope Z_scope.
Context {F : Type} `{PyFloat F} `{Dateutil} (c : Defaults).
Implicit Types (v : py F) (k : string).

Fixpoint flatb v : bool :=
  match v with PPrim _ => true | PList l => forallb flatb l | _ => false end.

Definition key_name v : string := match v with PPrim (StrV s) => s | _ => "" end.
Definition is_name v : bool := match v with PPrim (StrV _) => true | _ => false end.

Definition plainb v : bool :=
  match v with
  | PPrim _ | PEnum _ | PCallable _ | PObject _ => true
  | PList l | PTuple l => forallb flatb l
  | PDict d => forallb (λ e, is_name e.1 && flatb e.2) d && bool_decide (NoDup ((λ e, key_name e.1) <$> d))
  | _ => false
  end.

Fixpoint rawb v : bool :=
  match v with
  | PPrim _ => true
  | PList l => forallb rawb l
  | PDict d => forallb (λ e, is_name e.1 && rawb e.2) d
  | _ => false
  end.

Definition in_rangeb (us : Z) : bool := Z.abs us <=? 2 ^ 33 * 1000000.

(** Without relative deltas, whose validity dateutil decides. *)
Fixpoint supportedb v : bool :=
  match v with
  | PDatetime us | PTimedelta us => in_rangeb us
  | PRelativedelta _ => false
  | PList l | PTuple l => forallb supportedb l
  | PSet l => forallb hashable l && forallb supportedb l
  | PDict d => forallb (λ e, supportedb e.2) d
  | _ => true
  end.

Definition op_field_okb k v : bool :=
  if k ≟ "_downstream_task_ids" then
    match v with PSet l => forallb is_name l && bool_decide (NoDup (key_name <$> l)) | _ => false end
  else if k ≟ "subdag" then v ≟ none
  else if k ∈? timedelta_fields then
    match v with PTimedelta us => in_rangeb us | PPrim NoneV => negb (k ≟ "retry_delay") | _ => false end
  else if ends_with "_date" k then
    match v with PDatetime t => in_rangeb t | PPrim NoneV => true | _ => false end
  else if k ≟ "executor_config" then supportedb v && match v with PDict _ => true | _ => false end
  else if k ≟ "_log" then match v with PPrim NoneV | PExcluded _ => true | _ => false end
  else if k ≟ "_task_type" then true
  else plainb v && (negb (k ∈? ["params"; "pool"]) || negb (v ≟ none)).

Definition op_okb (op : Operator F) : bool :=
  let a := op_attrs op in
  let tf := names_of (getattr "template_fields" a) in
  forallb (λ k, op_field_okb k (getattr k a)) op_fields &&
  is_name (getattr "task_id" a) && is_name (getattr "label" a) &&
  match getattr "template_fields" a with PTuple l | PList l => forallb is_name l | _ => false end &&
  forallb (λ k, negb (k ∈? reserved (F:=F) c)) tf &&
  match op_deps op with Some l => forallb (λ d, core_module d.1) l | None => true end.

Definition dag_field_okb k v : bool :=
  if k ≟ "timezone" then match v with PTimezone _ => true | _ => false end
  else if k ≟ "dagrun_timeout" then match v with PTimedelta us => in_rangeb us | PPrim NoneV => true | _ => false end
  else if ends_with "_date" k then match v with PDatetime t => in_rangeb t | PPrim NoneV => true | _ => false end
  else if k ≟ "edge_info" then rawb v && match v with PDict _ => true | _ => false end
  else if k ∈? dag_decorated_fields then
    supportedb v && match v with PExcluded _ => false | _ => true end && (negb (k ≟ "default_args") || negb (v ≟ none))
  else if k ≟ "_dag_id" then is_name v
  else plainb v && (negb (k ≟ "params") || negb (v ≟ none)).

Definition dag_okb (dag : Dag F) : bool :=
  forallb (λ k, dag_field_okb k (getattr k (dag_attrs dag))) dag_fields && forallb op_okb (dag_tasks dag) &&
  bool_decide (NoDup (op_id <$> dag_tasks dag)) &&
  forallb (λ op, forallb (λ d, d ∈? (op_id <$> dag_tasks dag)) (downstream (op_attrs op))) (dag_tasks dag) &&
  forallb (λ op, forallb (λ k, negb (getattr k (op_attrs op) ≟ none) || (getattr k (dag_attrs dag) ≟ none))
                         ["start_date"; "end_date"]) (dag_tasks dag).

Lemma is_name_str v : is_name v = true → v = str (key_name v).
Proof. by destruct v as [[]| | | | | | | | | | | |]. Qed.

Lemma names_str l : forallb is_name l = true → l = str <$> (key_name <$> l).
Proof.
  induction l as [|v l IH]; cbn; [done|]. intros [Hv Hl]%andb_true_iff. by rewrite <-IH, <-(is_name_str v Hv).
Qed.

Lemma flatb_sound v : flatb v = true → flat v.
Proof.
  refine (py_ind' (λ v, flatb v = true → flat v) _ _ _ _ _ v); try done; [clear v; by intros []|].
  intros l IH. cbn. rewrite forallb_elem, foldr_and, !Forall_forall in *. auto.
Qed.

Lemma flatb_all l : forallb flatb l = true → Forall flat l.
Proof. rewrite forallb_elem, Forall_forall. intros Hl x Hx. by apply flatb_sound, Hl. Qed.

Lemma plainb_sound v : plainb v = true → plain v.
Proof.
  destruct v as [p|p|l|l|l|d|t|us|n|r|s|s|s]; try done; cbn; try apply flatb_all.
  rewrite andb_true_iff, bool_decide_eq_true. intros [Hd Hnd]. exists ((λ e, (key_name e.1, e.2)) <$> d).
  rewrite <-!list_fmap_compose. split_and!; [|done|].
  - clear Hnd. induction d as [|[k v] d IH]; [done|]. cbn in *. apply andb_true_iff in Hd as [Hk Hd].
    apply andb_true_iff in Hk as [Hk _]. rewrite <-(is_name_str k Hk). by rewrite <-IH.
  - rewrite forallb_elem in Hd. rewrite Forall_forall. intros e (x & -> & Hx)%list_elem_of_fmap. apply flatb_sound.
    apply Hd in Hx. by apply andb_true_iff in Hx as [_ ?].
Qed.

Lemma rawb_sound v : rawb v = true → raw v.
Proof.
  refine (py_ind' (λ v, rawb v = true → raw v) _ _ _ _ _ v); try done; [clear v; by intros []| |].
  - intros l IH. cbn. rewrite forallb_elem, foldr_and, !Forall_forall in *. auto.
  - intros d IH Hd. cbn in *. induction IH as [|[k x] d [_ Hx] _ IHd]; [done|]. cbn in *.
    rewrite !andb_true_iff in Hd. destruct Hd as [[Hk Hr] Hd]. split_and!; [|auto|auto].
    exists (key_name k). by apply is_name_str.
Qed.

Lemma in_rangeb_sound us : in_rangeb us = true → in_range us.
Proof. apply Z.leb_le. Qed.

Lemma supportedb_sound v : supportedb v = true → supported v.
Proof.
  refine (py_ind' (λ v, supportedb v = true → supported v) _ _ _ _ _ v).
  - clear v. intros []; try done; apply in_rangeb_sound.
  - intros l IH. cbn. rewrite forallb_elem, foldr_and, !Forall_forall in *. auto.
  - intros l IH. cbn. rewrite forallb_elem, foldr_and, !Forall_forall in *. auto.
  - intros l IH. cbn. rewrite andb_true_iff, (forallb_elem supportedb), foldr_and, !Forall_forall in *. naive_solver.
  - intros d IH. cbn. rewrite forallb_elem, (foldr_and (λ e, supported e.2)), !Forall_forall in *. naive_solver.
Qed.

Lemma op_field_okb_sound k v : op_field_okb k v = true → op_field_ok k v.
Proof.
  unfold op_field_okb, op_field_ok. destruct (k ≟ "_downstream_task_ids").
  { destruct v; try done. rewrite andb_true_iff, bool_decide_eq_true. intros [Hn Hnd].
    exists (key_name <$> l). by rewrite <-(names_str l Hn). }
  destruct (k ≟ "subdag"); [by rewrite bool_decide_eq_true|].
  destruct (k ∈? timedelta_fields).
  { destruct v as [[]| | | | | | | | | | | |]; try done; [|intros; left; eauto using in_rangeb_sound].
    rewrite negb_true_iff, bool_decide_eq_false. by right. }
  destruct (ends_with "_date" k).
  { destruct v as [[]| | | | | | | | | | | |]; try done; [by right|intros; left; eauto using in_rangeb_sound]. }
  destruct (k ≟ "executor_config").
  { rewrite andb_true_iff. intros [Hs Hd]. split; [by apply supportedb_sound|]. destruct v; try done. eauto. }
  destruct (k ≟ "_log"); [destruct v as [[]| | | | | | | | | | | |]; try done; [by left|by right; eauto]|].
  destruct (k ≟ "_task_type"); [done|]. rewrite andb_true_iff, orb_true_iff, !negb_true_iff, !bool_decide_eq_false.
  intros [Hp Hn]. split; [by apply plainb_sound|]. naive_solver.
Qed.

Lemma dag_field_okb_sound k v : dag_field_okb k v = true → dag_field_ok k v.
Proof.
  unfold dag_field_okb, dag_field_ok. destruct (k ≟ "timezone"); [destruct v; try done; eauto|].
  destruct (k ≟ "dagrun_timeout").
  { destruct v as [[]| | | | | | | | | | | |]; try done; [by right|intros; left; eauto using in_rangeb_sound]. }
  destruct (ends_with "_date" k).
  { destruct v as [[]| | | | | | | | | | | |]; try done; [by right|intros; left; eauto using in_rangeb_sound]. }
  destruct (k ≟ "edge_info").
  { rewrite andb_true_iff. intros [Hs Hd]. split; [by apply rawb_sound|]. destruct v; try done. eauto. }
  destruct (k ∈? dag_decorated_fields).
  { rewrite !andb_true_iff, orb_true_iff, !negb_true_iff, !bool_decide_eq_false. intros [[Hs Hx] Hn].
    split_and!; [by apply supportedb_sound| |naive_solver]. by intros s ->. }
  destruct (k ≟ "_dag_id"); [intros Hn; exists (key_name v); by apply is_name_str|].
  rewrite andb_true_iff, orb_true_iff, !negb_true_iff, !bool_decide_eq_false.
  intros [Hp Hn]. split; [by apply plainb_sound|]. naive_solver.
Qed.

Lemma op_okb_sound op : op_okb op = true → op_ok c op.
Proof.
  unfold op_okb. rewrite !andb_true_iff. intros [[[[[Hf Hid] Hl] Ht] Hr] Hd]. split.
  - intros k Hk. rewrite forallb_elem in Hf. by apply op_field_okb_sound, Hf.
  - unfold op_id. apply is_name_str in Hid. by rewrite Hid.
  - eexists. by apply is_name_str.
  - exists (names_of (getattr "template_fields" (op_attrs op))). split.
    + assert (∀ l : list (py F), forallb is_name l = true →
        str <$> omap (λ x : py F, match x with PPrim (StrV s) => Some s | _ => None end) l = l) as Hn.
      { induction l as [|x l IH]; cbn; [done|]. intros [Hx Hl']%andb_true_iff.
        destruct x as [[]| | | | | | | | | | | |]; try done. cbn. by rewrite IH. }
      destruct (getattr "template_fields" (op_attrs op)); try done; cbn [names_of]; rewrite Hn by done; auto.
    + intros k Hk. rewrite forallb_elem in Hr. apply Hr in Hk. by rewrite negb_true_iff, bool_decide_eq_false in Hk.
  - intros l El. rewrite El, forallb_elem in Hd. by rewrite Forall_forall.
Qed.

Lemma dag_okb_sound dag : dag_okb dag = true → dag_ok c dag.
Proof.
  unfold dag_okb. rewrite !andb_true_iff, !forallb_elem, bool_decide_eq_true. intros [[[[Hf Ho] Hid] He] Hd]. split.
  - intros k Hk. by apply dag_field_okb_sound, Hf.
  - intros op Hop. by apply op_okb_sound, Ho.
  - done.
  - intros op d Hop Hdn. apply He in Hop. rewrite forallb_elem in Hop. exact (bool_decide_eq_true_1 _ (Hop d Hdn)).
  - intros op k Hop Hk Hn. apply Hd in Hop. rewrite forallb_elem in Hop. apply Hop in Hk.
    rewrite orb_true_iff, negb_true_iff, bool_decide_eq_false, bool_decide_eq_true in Hk. by destruct Hk.
Qed.
End Check.

(** ** Samples *)

Module RoundTripSample.
Import SerializationSample.
Local Open Scope Z_scope.

(** Equal values are one object. *)
#[export] Instance interned : Identity Z.
Proof. refine {| same := λ v w, bool_decide (v = w) |}; [intros v w; apply bool_decide_eq_true_1|by vm_compute]. Defined.

Definition settings : Defaults :=
  {| default_owner := "airflow"; default_email_on_retry := true; default_email_on_failure := true; default_task_retries := 0;
     default_queue := "default"; max_active_tasks_per_dag := 16; max_active_runs_per_dag := 16; dag_default_view := "tree";
     dag_orientation := "LR"; catchup_by_default := true; default_timezone := "UTC" |}.

Definition sample_op (tid : string) (downstream : list string) (start : py Z) : Operator Z :=
  {| op_attrs := <["_downstream_task_ids" := PSet (str <$> downstream)]> (<["start_date" := start]>
       (<["retries" := pint 2]> (<["bash_command" := str "echo 1"]> (<["template_fields" := PTuple [str "bash_command"]]>
       (<["on_failure_callback" := PCallable "def alert(context): pass"]> (op_attrs_init settings tid))))));
     op_class := "BashOperator"; op_module := "airflow.operators.bash"; op_dummy := false; op_deps := None; op_extra_links := [] |}.

Definition jan1 : py Z := PDatetime 1609459200000000.

Definition sample_dag : Dag Z :=
  {| dag_attrs := <["start_date" := jan1]> (<["fileloc" := str "/dags/d.py"]> (<["params" := PDict [(str "env", str "prod")]]>
       (<["default_args" := default_args]> (dag_attrs_init settings "d"))));
     dag_tasks := [sample_op "b" [] jan1; sample_op "a" ["c"; "b"] (PDatetime 1609545600000000); sample_op "c" ["b"] jan1];
     dag_group := JPrim NoneV; dag_has_on_success := false; dag_has_on_failure := true |}.

Definition written : list (string * json Z) := match serialize_dag settings no_str sample_dag with Ok e => e | Err _ => [] end.

Example sample_edges :
  (λ d, (λ t, (t.1, ids_of (getattr "_downstream_task_ids" t.2), ids_of (getattr "_upstream_task_ids" t.2),
               getattr "start_date" t.2)) <$> sd_tasks d) <$> deserialize_dag settings no_nested (λ _, true) written =
  Ok [("b", [], ["a"; "c"], jan1); ("a", ["b"; "c"], [], PDatetime 1609545600000000); ("c", ["b"], ["a"], jan1)].
Proof. by vm_compute. Qed.

Lemma sample_dag_ok : dag_ok settings sample_dag.
Proof. apply dag_okb_sound. by vm_compute. Qed.


(** A nested dictionary in [params] is written with its types, which are not
    removed when it is read. *)
Definition nested_params : Dag Z :=
  {| dag_attrs := <["params" := PDict [(str "db", PDict [(str "host", str "h")])]]> (dag_attrs_init settings "d");
     dag_tasks := []; dag_group := JPrim NoneV; dag_has_on_success := false; dag_has_on_failure := false |}.

Example nested_params_corrupted :
  (e ← serialize_dag settings no_str nested_params; d ← deserialize_dag settings no_nested (λ _, true) e;
   Ok (getattr "params" (sd_attrs d))) =
  Ok (PDict [(str "db", PDict [(str "__var", PDict [(str "host", str "h")]); (str "__type", str "dict")])]).
Proof. by vm_compute. Qed.
End RoundTripSample.
