(* ===== verification/DagProcessing.v ===== *)
(** * DagProcessing: the manager of the DAG file processors

    [DagFileProcessorManager] ([dag_processing/manager.py]): the queue of files,
    the processors, their results, callback requests and zombies, and one iteration
    of the parsing loop; the execution of task callbacks by
    [DagFileProcessor] ([dag_processing/processor.py]); and
    [DagModel.deactivate_deleted_dags].

    A processor is known by the handle of its process.  What the system provides
    (the files that are listed, the handles that are ready, the results, the
    times of modification and the seeded shuffle) is an argument.  The tables of
    import errors, serialized DAGs and DAG code are left out, and so are metrics
    and logging. *)

From S2P Require Import Prelude Dict State Model Sample TaskInstance.
From stdpp Require Import strings.

Module DagProcessing.
Local Open Scope Z_scope.

(** ** Requests *)

(** [utils/callback_requests.py]; of the simple task instance the key is kept. *)
Inductive CallbackRequest :=
| TaskCallbackRequest (full_filepath ti_dag_id ti_task_id : string) (ti_execution_date : datetime)
    (is_failure_callback : bool) (msg : string)
| DagCallbackRequest (full_filepath dag_id : string) (execution_date : datetime) (is_failure_callback : bool) (msg : string)
| SlaCallbackRequest (full_filepath dag_id : string).

Definition full_filepath (r : CallbackRequest) : string :=
  match r with TaskCallbackRequest f _ _ _ _ _ | DagCallbackRequest f _ _ _ _ | SlaCallbackRequest f _ => f end.

(** ** The state of the manager *)

Record DagFileStat := {
  num_dags : Z;
  import_errors : Z;
  last_finish_time : option datetime;
  last_duration : option timedelta;
  run_count : Z;
}.

(** A started [DagFileProcessorProcess]. *)
Record Processor := {
  p_file_path : string;
  p_start_time : datetime;
  p_callbacks : list CallbackRequest;
  waitable_handle : nat;
}.

Inductive SortMode := modified_time | alphabetical | random_seeded_by_host | any_other.

Record ManagerConf := {
  _max_runs : Z;
  _async_mode : bool;
  _parallelism : Z;
  _file_process_interval : timedelta;
  _zombie_threshold : timedelta;
  _zombie_query_interval : timedelta;
  _processor_timeout : timedelta;
  dag_dir_list_interval : timedelta;
  file_parsing_sort_mode : SortMode;
}.

Record Manager := {
  _file_paths : list string;
  _file_path_queue : list string;
  _processors : list (string * Processor);
  waitables : list Processor;                              (* keyed by their handle *)
  _num_run : Z;
  _file_stats : list (string * DagFileStat);
  _last_zombie_query_time : option datetime;
  last_dag_dir_refresh_time : datetime;
  _callback_to_execute : list (string * list CallbackRequest);
  created : list Processor;                                (* every process that was started *)
  signalled : list nat;                                    (* the handles that were terminated or killed *)
}.

Definition manager_init : Manager :=
  {| _file_paths := []; _file_path_queue := []; _processors := []; waitables := []; _num_run := 0; _file_stats := [];
     _last_zombie_query_time := None; last_dag_dir_refresh_time := 0; _callback_to_execute := []; created := []; signalled := [] |}.

Definition with_files (fs q : list string) (m : Manager) : Manager :=
  {| _file_paths := fs; _file_path_queue := q; _processors := _processors m; waitables := waitables m; _num_run := _num_run m;
     _file_stats := _file_stats m; _last_zombie_query_time := _last_zombie_query_time m;
     last_dag_dir_refresh_time := last_dag_dir_refresh_time m; _callback_to_execute := _callback_to_execute m;
     created := created m; signalled := signalled m |}.
Definition with_queue (q : list string) (m : Manager) : Manager := with_files (_file_paths m) q m.
Definition with_processors (ps : list (string * Processor)) (ws : list Processor) (m : Manager) : Manager :=
  {| _file_paths := _file_paths m; _file_path_queue := _file_path_queue m; _processors := ps; waitables := ws; _num_run := _num_run m;
     _file_stats := _file_stats m; _last_zombie_query_time := _last_zombie_query_time m;
     last_dag_dir_refresh_time := last_dag_dir_refresh_time m; _callback_to_execute := _callback_to_execute m;
     created := created m; signalled := signalled m |}.
Definition with_stats (st : list (string * DagFileStat)) (m : Manager) : Manager :=
  {| _file_paths := _file_paths m; _file_path_queue := _file_path_queue m; _processors := _processors m; waitables := waitables m;
     _num_run := _num_run m; _file_stats := st; _last_zombie_query_time := _last_zombie_query_time m;
     last_dag_dir_refresh_time := last_dag_dir_refresh_time m; _callback_to_execute := _callback_to_execute m;
     created := created m; signalled := signalled m |}.
Definition with_callbacks (cb : list (string * list CallbackRequest)) (m : Manager) : Manager :=
  {| _file_paths := _file_paths m; _file_path_queue := _file_path_queue m; _processors := _processors m; waitables := waitables m;
     _num_run := _num_run m; _file_stats := _file_stats m; _last_zombie_query_time := _last_zombie_query_time m;
     last_dag_dir_refresh_time := last_dag_dir_refresh_time m; _callback_to_execute := cb;
     created := created m; signalled := signalled m |}.
Definition with_times (nr : Z) (zq : option datetime) (dr : datetime) (m : Manager) : Manager :=
  {| _file_paths := _file_paths m; _file_path_queue := _file_path_queue m; _processors := _processors m; waitables := waitables m;
     _num_run := nr; _file_stats := _file_stats m; _last_zombie_query_time := zq;
     last_dag_dir_refresh_time := dr; _callback_to_execute := _callback_to_execute m;
     created := created m; signalled := signalled m |}.
Definition with_world (cr : list Processor) (sg : list nat) (m : Manager) : Manager :=
  {| _file_paths := _file_paths m; _file_path_queue := _file_path_queue m; _processors := _processors m; waitables := waitables m;
     _num_run := _num_run m; _file_stats := _file_stats m; _last_zombie_query_time := _last_zombie_query_time m;
     last_dag_dir_refresh_time := last_dag_dir_refresh_time m; _callback_to_execute := _callback_to_execute m;
     created := cr; signalled := sg |}.

Section Ops.
Context (conf : ManagerConf).

(** ** Files and requests *)

Definition get_last_finish_time (file_path : string) (m : Manager) : option datetime :=
  sget file_path (_file_stats m) ≫= last_finish_time.
Definition get_run_count (file_path : string) (m : Manager) : Z :=
  match sget file_path (_file_stats m) with Some stat => run_count stat | None => 0 end.

(** [_add_callback_to_queue]: the file of the request goes to the front. *)
Definition _add_callback_to_queue (request : CallbackRequest) (m : Manager) : Manager :=
  let f := full_filepath request in
  let pending := default [] (sget f (_callback_to_execute m)) in
  let m := with_callbacks (sset f (pending ++ [request]) (_callback_to_execute m)) m in
  let q := if f ∈? _file_path_queue m then List.filter (λ x, negb (x ≟ f)) (_file_path_queue m) else _file_path_queue m in
  with_queue (f :: q) m.

(** [set_file_paths]: the processors of deleted files are terminated, and their
    statistics removed. *)
Definition keep_or_stop (new_file_paths : list string) (acc : list (string * Processor) * Manager) (e : string * Processor)
    : result (list (string * Processor) * Manager) :=
  let '(filtered_processors, m) := acc in
  if e.1 ∈? new_file_paths then Ok (sset e.1 e.2 filtered_processors, m)
  else if sin e.1 (_file_stats m) then
    Ok (filtered_processors,
        with_stats (sdel e.1 (_file_stats m)) (with_world (created m) (signalled m ++ [waitable_handle e.2]) m))
  else Err KeyError.

Definition set_file_paths (new_file_paths : list string) (m : Manager) : result Manager :=
  let m := with_files new_file_paths (List.filter (λ x, x ∈? new_file_paths) (_file_path_queue m)) m in
  '(filtered_processors, m) ← foldM (keep_or_stop new_file_paths) (_processors m) ([], m);
  Ok (with_processors filtered_processors (waitables m) m).

(** [_refresh_dag_dir], with the files that [list_py_file_paths] finds. *)
Definition _refresh_dag_dir (now : datetime) (listing : list string) (m : Manager) : result Manager :=
  if dag_dir_list_interval conf <? now - last_dag_dir_refresh_time m
  then set_file_paths listing (with_times (_num_run m) (_last_zombie_query_time m) now m)
  else Ok m.

(** ** Results *)

Definition _collect_results_from_processor (now : datetime) (res : option (Z * Z)) (p : Processor) (m : Manager) : Manager :=
  let '(nd, errs) := match res with Some r => r | None => (0, -1) end in
  with_stats (sset (p_file_path p)
    {| num_dags := nd; import_errors := errs; last_finish_time := Some now; last_duration := Some (now - p_start_time p);
       run_count := get_run_count (p_file_path p) m + 1 |} (_file_stats m)) m.

(** [self._processors.pop(file_path)]. *)
Definition pop_processor (file_path : string) (m : Manager) : result Manager :=
  if sin file_path (_processors m) then Ok (with_processors (sdel file_path (_processors m)) (waitables m) m) else Err KeyError.
Definition pop_waitable (h : nat) (m : Manager) : Manager :=
  with_processors (_processors m) (List.filter (λ p, negb (waitable_handle p =? h)%nat) (waitables m)) m.
Definition get_waitable (h : nat) (m : Manager) : option Processor :=
  List.find (λ p, (waitable_handle p =? h)%nat) (waitables m).

(** The loop over the ready handles in [_run_parsing_loop], and the one of
    [collect_results], which looks the handle up without a default. *)
Definition collect_ready (now : datetime) (res : nat → option (Z * Z)) (m : Manager) (h : nat) : result Manager :=
  match get_waitable h m with
  | None => Ok m
  | Some p => pop_processor (p_file_path p) (pop_waitable h (_collect_results_from_processor now (res h) p m))
  end.

Definition collect_one (now : datetime) (res : nat → option (Z * Z)) (m : Manager) (h : nat) : result Manager :=
  match get_waitable h m with
  | None => Err KeyError
  | Some p =>
      m ← pop_processor (p_file_path p) (pop_waitable (waitable_handle p) m);
      Ok (_collect_results_from_processor now (res h) p m)
  end.
Definition collect_results (now : datetime) (res : nat → option (Z * Z)) (ready : list nat) (m : Manager) : result Manager :=
  foldM (collect_one now res) ready m.

(** ** Starting processors *)

(** [start_new_processes]; [fresh] is the handle of the next process. *)
Definition start_process (now : datetime) (fresh : nat) (file_path : string) (m : Manager) : Manager :=
  let callback_to_execute_for_file := default [] (sget file_path (_callback_to_execute m)) in
  let p := {| p_file_path := file_path; p_start_time := now; p_callbacks := callback_to_execute_for_file;
              waitable_handle := fresh |} in
  let m := with_world (created m ++ [p]) (signalled m) (with_callbacks (sdel file_path (_callback_to_execute m)) m) in
  with_processors (sset file_path p (_processors m)) (waitables m ++ [p]) m.

Fixpoint start_loop (now : datetime) (queue : list string) (m : Manager) : Manager :=
  match queue with
  | [] => with_queue [] m
  | file_path :: queue' =>
      if 0 <? _parallelism conf - Z.of_nat (length (_processors m)) then
        if sin file_path (_processors m) then start_loop now queue' m
        else start_loop now queue' (start_process now (length (created m)) file_path m)
      else with_queue queue m
  end.
Definition start_new_processes (now : datetime) (m : Manager) : Manager := start_loop now (_file_path_queue m) m.

(** ** The queue *)

(** [prepare_file_path_queue]; [mtime] are the times of modification and [shuffle]
    the order of the host; a file that vanishes before its time is read is left out. *)
Definition is_mtime_mode : bool := match file_parsing_sort_mode conf with modified_time => true | _ => false end.

Definition recently_processed (now : datetime) (mtime : string → datetime) (m : Manager) (f : string) : bool :=
  match get_last_finish_time f m with
  | Some t => (now - t <? _file_process_interval conf) && negb (is_mtime_mode && (t <? mtime f))
  | None => false
  end.

Definition order_files (mtime : string → datetime) (shuffle : list string → list string) (fs : list string) : list string :=
  match file_parsing_sort_mode conf with
  | modified_time => py_sorted (λ x y, mtime y <=? mtime x) (dict_of ((λ f, (f, mtime f)) <$> fs)).*1
  | alphabetical => py_sorted (λ x y, bool_decide (String.le x y)) fs
  | random_seeded_by_host => shuffle fs
  | any_other => fs
  end.

Definition no_stat : DagFileStat :=
  {| num_dags := 0; import_errors := 0; last_finish_time := None; last_duration := None; run_count := 0 |}.

Definition excluded (now : datetime) (mtime : string → datetime) (m : Manager) (f : string) : bool :=
  sin f (_processors m) || ((f ∈? _file_paths m) && recently_processed now mtime m f) ||
  match sget f (_file_stats m) with Some stat => run_count stat =? _max_runs conf | None => false end.

Definition prepare_file_path_queue (now : datetime) (mtime : string → datetime) (shuffle : list string → list string) (m : Manager)
    : Manager :=
  let files_paths_to_queue :=
    List.filter (λ f, negb (excluded now mtime m f)) (order_files mtime shuffle (_file_paths m)) in
  let m := with_stats (foldl (λ st f, if sin f st then st else sset f no_stat st) (_file_stats m) files_paths_to_queue) m in
  with_queue (_file_path_queue m ++ files_paths_to_queue) m.

(** ** Zombies and timeouts *)

(** The running task instances whose job does not run or does not heartbeat, with
    the file of their DAG. *)
Definition zombies (s : Session) : list (TaskInstance * string) :=
  let limit_dttm := utcnow s - _zombie_threshold conf in
  flat_map (λ t,
    flat_map (λ j,
      if (TI.job_id t ≟ Some (bj_id j)) && (job_type j ≟ "LocalTaskJob") &&
         (match bj_state j with Some st => negb (st ≟ RUNNING) | None => false end || (latest_heartbeat j <? limit_dttm))
      then (λ dm, (t, dm_fileloc dm)) <$> List.filter (λ dm, dm_dag_id dm ≟ TI.dag_id t) (dag_model s) else []) (job s))
    (List.filter (λ t, TI.state t ≟ Some RUNNING) (task_instance s)).

Definition zombie_request (z : TaskInstance * string) : CallbackRequest :=
  TaskCallbackRequest z.2 (TI.dag_id z.1) (TI.task_id z.1) (TI.execution_date z.1) true "Detected as zombie".

Definition _find_zombies (s : Session) (m : Manager) : Manager :=
  let now := utcnow s in
  if match _last_zombie_query_time m with Some t => _zombie_query_interval conf <? now - t | None => true end then
    foldl (λ m z, _add_callback_to_queue (zombie_request z) m)
      (with_times (_num_run m) (Some now) (last_dag_dir_refresh_time m) m) (zombies s)
  else m.

Definition _kill_timed_out_processors (now : datetime) (m : Manager) : Manager :=
  with_world (created m)
    (signalled m ++ (waitable_handle <$> List.filter (λ p, _processor_timeout conf <? now - p_start_time p) (snd <$> _processors m))) m.

Definition max_runs_reached (m : Manager) : bool :=
  if _max_runs conf =? -1 then false
  else forallb (λ e, negb (run_count e.2 <? _max_runs conf)) (_file_stats m) && negb (_num_run m <? _max_runs conf).

Definition terminate (m : Manager) : Manager :=
  with_world (created m) (signalled m ++ (waitable_handle <$> (snd <$> _processors m))) m.

(** ** The parsing loop *)

Inductive DagParsingSignal := AGENT_RUN_ONCE | TERMINATE_MANAGER | END_MANAGER.

(** What happens around one iteration. *)
Record Turn := {
  signal : option (DagParsingSignal + CallbackRequest);     (* received on the connection *)
  ready : nat → bool;                                      (* the processes that are done *)
  ready' : nat → bool;                                     (* the same after the new processors were started *)
  results : nat → option (Z * Z);
  listing : list string;
  modified : string → datetime;
  shuffled : list string → list string;
  database : Session;
}.

Inductive Verdict := Continue (all_files_processed : bool) | MaxRuns (all_files_processed : bool) | Terminated | Ended.

(** [multiprocessing.connection.wait(self.waitables.keys())] without the connection
    of the agent. *)
Definition wait (r : nat → bool) (m : Manager) : list nat := List.filter r (waitable_handle <$> waitables m).

(** The part of an iteration after the signal was handled; [handles] were ready. *)
Definition parse_iteration (t : Turn) (handles : list nat) (m : Manager) : result (Verdict * Manager) :=
  let now := utcnow (database t) in
  m ← foldM (collect_ready now (results t)) handles m;
  m ← _refresh_dag_dir now (listing t) m;
  let m := _find_zombies (database t) m in
  let m := _kill_timed_out_processors now m in
  let m := match _file_path_queue m with
           | [] => prepare_file_path_queue now (modified t) (shuffled t) m
           | _ => m
           end in
  let m := start_new_processes now m in
  let m := with_times (_num_run m + 1) (_last_zombie_query_time m) (last_dag_dir_refresh_time m) m in
  m ← collect_results now (results t) (wait (ready' t) m) m;
  let all_files_processed := forallb (λ f, bool_decide (is_Some (get_last_finish_time f m))) (_file_paths m) in
  Ok (if max_runs_reached m then MaxRuns all_files_processed else Continue all_files_processed, m).

Definition run_parsing_turn (t : Turn) (m : Manager) : result (Verdict * Manager) :=
  let handles := wait (ready t) m in
  match signal t with
  | Some (inl TERMINATE_MANAGER) => Ok (Terminated, terminate m)
  | Some (inl END_MANAGER) => Ok (Ended, terminate m)
  | Some (inr request) => parse_iteration t handles (_add_callback_to_queue request m)
  | Some (inl AGENT_RUN_ONCE) => parse_iteration t handles m
  | None =>
      match handles, _async_mode conf with
      | [], false => Ok (Continue false, m)
      | _, _ => parse_iteration t handles m
      end
  end.

(** [_run_parsing_loop]: the start, and the turns until the loop ends. *)
Definition loop_start (now : datetime) (files : list string) (mtime : string → datetime) (shuffle : list string → list string)
    (m : Manager) : result Manager :=
  m ← _refresh_dag_dir now files m;
  let m := prepare_file_path_queue now mtime shuffle m in
  Ok (if _async_mode conf then start_new_processes now m else m).

Fixpoint parsing_loop (turns : list Turn) (m : Manager) : result (Verdict * Manager) :=
  match turns with
  | [] => Ok (Continue false, m)
  | t :: turns =>
      '(v, m) ← run_parsing_turn t m;
      match v with Continue _ => parsing_loop turns m | _ => Ok (v, m) end
  end.
End Ops.

(** ** The database *)

(** [DagModel.deactivate_deleted_dags]: [correct_maybe_zipped] is the archive of a
    path inside one. *)
Definition deactivate_deleted_dags (correct_maybe_zipped : string → string) (alive_dag_filelocs : list string) (s : Session)
    : Session :=
  with_dag_model ((λ dm,
    {| dm_dag_id := dm_dag_id dm; is_paused := is_paused dm; is_active := correct_maybe_zipped (dm_fileloc dm) ∈? alive_dag_filelocs;
       dm_max_active_tasks := dm_max_active_tasks dm; has_task_concurrency_limits := has_task_concurrency_limits dm;
       dm_fileloc := dm_fileloc dm; next_dagrun := next_dagrun dm; next_dagrun_create_after := next_dagrun_create_after dm |})
    <$> dag_model s) s.

(** [DagFileProcessor._execute_task_callbacks]: the task instance of the request
    fails, with the DAGs of the file. *)
Definition _execute_task_callbacks (dags : list DAG) (dag_id' task_id' : string) (date : datetime) (is_failure test_mode : bool)
    (s : Session) : result Session :=
  match List.find (λ d, dag_id d ≟ dag_id') dags with
  | None => Ok s
  | Some dag =>
      match lookup_task dag task_id' with
      | None => Ok s
      | Some task =>
          if is_failure then
            ti ← TaskInstance.ti_init dag task date None;
            Ok (TaskInstance.handle_failure task test_mode false (TaskInstance.refresh_from_db ti s) s).2
          else Ok s
      end
  end.

End DagProcessing.
Import DagProcessing.
Local Open Scope Z_scope.

(** ** The invariant *)

(** What the manager keeps between iterations: the queue holds a file once, a
    processor stands under its own file and can be waited for, a handle names the
    process it was created for, the processors are within the parallelism, and
    requests wait, and are handed over, under their own file. *)
Record mgr_ok (conf : ManagerConf) (m : Manager) : Prop := {
  ok_files : NoDup (_file_paths m);
  ok_queue : NoDup (_file_path_queue m);
  ok_processors : NoDup (_processors m).*1;
  ok_entry : ∀ f p, (f, p) ∈ _processors m → p_file_path p = f ∧ p ∈ waitables m;
  ok_handles : NoDup (waitable_handle <$> waitables m);
  ok_created : ∀ p, p ∈ waitables m → created m !! waitable_handle p = Some p;
  ok_parallelism : Z.of_nat (length (_processors m)) ≤ 0 `max` _parallelism conf;
  ok_pending_keys : NoDup (_callback_to_execute m).*1;
  ok_pending : ∀ f rs r, (f, rs) ∈ _callback_to_execute m → r ∈ rs → full_filepath r = f;
  ok_handed : ∀ p r, p ∈ created m → r ∈ p_callbacks p → full_filepath r = p_file_path p;
}.

(** Every process that can be waited for is the processor of its file. *)
Definition mgr_sync (m : Manager) : Prop := ∀ p, p ∈ waitables m → (p_file_path p, p) ∈ _processors m.

(** The requests that were handed to a process, and those that wait. *)
Definition requests (m : Manager) : list CallbackRequest :=
  concat (p_callbacks <$> created m) ++ concat (_callback_to_execute m).*2.

(** What the environment promises about a turn. *)
Record turn_ok (t : Turn) : Prop := {
  listing_NoDup : NoDup (listing t);
  shuffled_perm : ∀ fs, shuffled t fs ≡ₚ fs;
}.

Section Invariant.
Context (conf : ManagerConf).
Implicit Types (m : Manager) (p : Processor) (f : string) (h : nat).

Lemma manager_init_ok : mgr_ok conf manager_init.
Proof. split; cbn; try apply NoDup_nil_2; try (intros; by match goal with H : _ ∈ [] |- _ => apply elem_of_nil in H end); lia. Qed.

(** *** Requests *)

Lemma pending_add f r (d : list (string * list CallbackRequest)) :
  NoDup d.*1 → concat (sset f (default [] (sget f d) ++ [r]) d).*2 ≡ₚ concat d.*2 ++ [r].
Proof.
  intros Hd. rewrite (sset_Permutation _ _ _ Hd). cbn [fmap list_fmap snd concat].
  destruct (sget f d) as [rs|] eqn:E; cbn [default].
  - rewrite (sdel_Permutation f rs d Hd E) at 2. cbn [fmap list_fmap snd concat]. solve_Permutation.
  - apply sget_None in E. rewrite sdel_fresh by done. solve_Permutation.
Qed.

Lemma _add_callback_to_queue_ok r m : mgr_ok conf m → mgr_ok conf (_add_callback_to_queue r m).
Proof.
  intros [? Hq ? ? ? ? ? Hk Hp ?]. split; try done; cbn [with_queue with_files with_callbacks _add_callback_to_queue
    _file_path_queue _callback_to_execute _file_paths].
  - assert (full_filepath r ∉ List.filter (λ x, negb (x ≟ full_filepath r)) (_file_path_queue m)).
    { rewrite elem_of_filterb, negb_true_iff, bool_decide_eq_false. naive_solver. }
    case_bool_decide; apply NoDup_cons; split; try done. eapply sublist_NoDup; [exact Hq|apply filterb_sublist].
  - by apply sset_NoDup.
  - intros f rs r'. rewrite (sset_Permutation _ _ _ Hk). intros [[= -> ->]|[Hin _]%elem_of_sdel]%elem_of_cons; [|by eapply Hp].
    rewrite elem_of_app, list_elem_of_singleton. intros [Hr| ->]; [|done].
    destruct (sget (full_filepath r) _) as [rs|] eqn:E; [|by apply elem_of_nil in Hr]. eapply Hp; [by apply sget_elem|done].
Qed.

Lemma _add_callback_requests r m : mgr_ok conf m → requests (_add_callback_to_queue r m) ≡ₚ requests m ++ [r].
Proof. intros Hm. unfold requests. cbn. rewrite pending_add by apply Hm. by rewrite app_assoc. Qed.

(** *** Statistics, signals and times *)

(** [m'] differs from [m] in its statistics, signals, counters and the time of the last refresh only. *)
Definition same_work (m m' : Manager) : Prop :=
  _file_paths m' = _file_paths m ∧ _file_path_queue m' = _file_path_queue m ∧ _processors m' = _processors m ∧
  waitables m' = waitables m ∧ _callback_to_execute m' = _callback_to_execute m ∧ created m' = created m ∧
  _last_zombie_query_time m' = _last_zombie_query_time m.

Lemma same_work_ok m m' : same_work m m' → mgr_ok conf m → mgr_ok conf m'.
Proof. intros (Hf & Hq & Hp & Hw & Hc & Hcr & Hz) []. split; rewrite ?Hf, ?Hq, ?Hp, ?Hw, ?Hc, ?Hcr; done. Qed.

Lemma same_work_sync m m' : same_work m m' → mgr_sync m → mgr_sync m'.
Proof. unfold mgr_sync. intros (Hf & Hq & Hp & Hw & Hc & Hcr & Hz). by rewrite Hp, Hw. Qed.

(** Neither the requests nor the time of the last query for zombies change. *)
Definition same_requests (m m' : Manager) : Prop :=
  requests m' = requests m ∧ _last_zombie_query_time m' = _last_zombie_query_time m.

Lemma same_work_requests m m' : same_work m m' → same_requests m m'.
Proof. unfold same_requests, requests. intros (Hf & Hq & Hp & Hw & Hc & Hcr & Hz). by rewrite Hc, Hcr. Qed.

(** *** The files *)

Lemma keep_or_stop_loop fs l acc m acc' m' :
  foldM (keep_or_stop fs) l (acc, m) = Ok (acc', m') → NoDup (acc ++ l).*1 →
  acc' = acc ++ List.filter (λ e, e.1 ∈? fs) l ∧ same_work m m'.
Proof.
  revert acc m. induction l as [|[f p] l IH]; intros acc m; cbn [foldM List.filter].
  { intros [= <- <-]. by rewrite app_nil_r. }
  intros (r & Hr & Hl)%result_bind_ok Hd. unfold keep_or_stop in Hr. cbn [fst snd] in *.
  destruct (f ∈? fs) eqn:E.
  - injection Hr as <-. assert (sset f p acc = acc ++ [(f, p)]) as Hs.
    { unfold sset. destruct (sin f acc) eqn:Ef; [|done]. apply sin_keys in Ef. rewrite fmap_app, NoDup_app in Hd.
      destruct (proj1 (proj2 Hd) f Ef). left. }
    rewrite Hs in Hl. apply IH in Hl as [-> Hw]; [|by rewrite <-app_assoc]. split; [by rewrite <-app_assoc|done].
  - destruct (sin f (_file_stats m)) eqn:Ef; [|done]. injection Hr as <-. apply IH in Hl as [-> Hw].
    + done.
    + eapply sublist_NoDup; [exact Hd|]. apply fmap_sublist. apply sublist_app; [done|]. by apply sublist_cons.
Qed.

Lemma set_file_paths_spec fs m m' :
  set_file_paths fs m = Ok m' → NoDup (_processors m).*1 →
  same_work (with_processors (List.filter (λ e, e.1 ∈? fs) (_processors m)) (waitables m)
               (with_files fs (List.filter (λ x, x ∈? fs) (_file_path_queue m)) m)) m'.
Proof.
  unfold set_file_paths. intros ([ps m1] & Hl & [= <-])%result_bind_ok Hd.
  apply keep_or_stop_loop in Hl as [-> (Hf & Hq & Hp & Hw & Hc & Hcr & Hz)]; [|done].
  repeat split; cbn in *; done.
Qed.

Lemma set_file_paths_total fs m :
  (∀ f, f ∈ (_processors m).*1 → f ∈ fs) → is_ok (set_file_paths fs m) = true.
Proof.
  intros Hf. unfold set_file_paths. cbn [_processors with_files].
  assert (∀ l a, (∀ e, e ∈ l → e.1 ∈ fs) → is_ok (foldM (keep_or_stop fs) l a) = true) as Hg.
  { induction l as [|e l IH]; intros [acc m0] Hl; [done|]. cbn. rewrite bool_decide_eq_true_2 by (apply Hl; left).
    cbn. apply IH. set_solver. }
  specialize (Hg (_processors m) ([], with_files fs (List.filter (λ x, x ∈? fs) (_file_path_queue m)) m)).
  destruct (foldM _ _ _) as [[ps m1]|e]; [done|]. cbn in Hg. discriminate Hg.
  intros e' He'. apply Hf, list_elem_of_fmap. by exists e'.
Qed.

Lemma refresh_cases now fs m m' :
  _refresh_dag_dir conf now fs m = Ok m' → NoDup (_processors m).*1 →
  m' = m ∨ same_work (with_processors (List.filter (λ e, e.1 ∈? fs) (_processors m)) (waitables m)
               (with_files fs (List.filter (λ x, x ∈? fs) (_file_path_queue m)) m)) m'.
Proof.
  unfold _refresh_dag_dir. destruct (_ <? _); [|by intros [= <-]; left]. intros H Hd. right.
  by apply set_file_paths_spec in H.
Qed.

Lemma refresh_ok now fs m m' : NoDup fs → mgr_ok conf m → _refresh_dag_dir conf now fs m = Ok m' → mgr_ok conf m'.
Proof.
  intros Hfs Hm Hr. apply refresh_cases in Hr as [->|Hr]; [done| |apply Hm]. eapply same_work_ok; [exact Hr|].
  destruct Hm as [? Hq Hd He ? ? Hl ? ? ?]. split; try done; cbn.
  - eapply sublist_NoDup; [exact Hq|apply filterb_sublist].
  - by apply NoDup_fmap_filterb.
  - intros f p [? ?]%elem_of_filterb. by apply He.
  - etrans; [|exact Hl]. apply Nat2Z.inj_le, sublist_length, filterb_sublist.
Qed.

Lemma refresh_requests now fs m m' :
  mgr_ok conf m → _refresh_dag_dir conf now fs m = Ok m' → same_requests m m'.
Proof. intros Hm Hr. apply refresh_cases in Hr as [->|Hr]; [done| |apply Hm]. exact (same_work_requests _ _ Hr). Qed.

Lemma refresh_sync now fs m :
  mgr_ok conf m → mgr_sync m → (∀ f, f ∈ (_processors m).*1 → f ∈ fs) →
  ∃ m', _refresh_dag_dir conf now fs m = Ok m' ∧ mgr_sync m'.
Proof.
  intros Hm Hs Hf. assert (is_ok (_refresh_dag_dir conf now fs m) = true) as Hok.
  { unfold _refresh_dag_dir. destruct (_ <? _); [|done]. by apply set_file_paths_total. }
  destruct (_refresh_dag_dir conf now fs m) as [m'|] eqn:E; [|done]. exists m'. split; [done|].
  apply refresh_cases in E as [->|E]; [done| |apply Hm]. eapply same_work_sync; [exact E|]. intros p Hp. cbn in *.
  apply elem_of_filterb. split; [|by apply Hs].
  apply bool_decide_eq_true, Hf, list_elem_of_fmap. exists (p_file_path p, p). auto.
Qed.

(** *** The results *)

Lemma get_waitable_Some h p m : get_waitable h m = Some p → p ∈ waitables m ∧ waitable_handle p = h.
Proof. intros [Hp Hh]%List.find_some. apply Nat.eqb_eq in Hh. split; [by apply list_elem_of_In|done]. Qed.

Lemma get_waitable_total h m : h ∈ waitable_handle <$> waitables m → is_Some (get_waitable h m).
Proof.
  intros (p & -> & Hp)%list_elem_of_fmap. unfold get_waitable. destruct (List.find _ _) eqn:E; [eauto|].
  eapply List.find_none in E; [|by apply list_elem_of_In]. cbn in E. by rewrite Nat.eqb_refl in E.
Qed.

(** The manager without the processor [p]. *)
Definition without p m : Manager :=
  with_processors (sdel (p_file_path p) (_processors m))
    (List.filter (λ q, negb (waitable_handle q =? waitable_handle p)%nat) (waitables m)) m.

Lemma elem_of_without q p m :
  q ∈ waitables (without p m) ↔ q ∈ waitables m ∧ waitable_handle q ≠ waitable_handle p.
Proof. cbn. rewrite elem_of_filterb, negb_true_iff, Nat.eqb_neq. tauto. Qed.

Lemma same_handle p q m : mgr_ok conf m → p ∈ waitables m → q ∈ waitables m → waitable_handle p = waitable_handle q → p = q.
Proof. intros Hm Hp%(ok_created _ _ Hm) Hq%(ok_created _ _ Hm) Hh. rewrite Hh in Hp. congruence. Qed.

Lemma without_ok p m : p ∈ waitables m → mgr_ok conf m → mgr_ok conf (without p m).
Proof.
  intros Hp Hm. pose proof (same_handle p) as Hsame. destruct (id Hm) as [? Hq Hd He Hh Hc Hl ? ? ?].
  split; try done; try (intros q; rewrite elem_of_without).
  - by apply sdel_NoDup.
  - intros f q' [Hin Hne]%elem_of_sdel. destruct (He _ _ Hin) as [Hf Hw]. split; [done|]. apply elem_of_without.
    split; [done|]. intros Heq. rewrite (Hsame q' m) in Hne; try done.
  - cbn. by apply NoDup_fmap_filterb.
  - naive_solver.
  - etrans; [|exact Hl]. apply Nat2Z.inj_le, sublist_length, filterb_sublist.
Qed.

Lemma without_sync p m : mgr_ok conf m → mgr_sync m → p ∈ waitables m → mgr_sync (without p m).
Proof.
  intros Hm Hs Hp q [Hq Hne]%elem_of_without. cbn. apply elem_of_sdel. split; [by apply Hs|]. cbn. intros Heq.
  apply Hs in Hq, Hp. rewrite Heq in Hq. apply (sget_NoDup _ _ _ (ok_processors _ _ Hm)) in Hq, Hp. congruence.
Qed.

Definition collected (now : datetime) (res : nat → option (Z * Z)) m h m' : Prop :=
  ∃ p, p ∈ waitables m ∧ waitable_handle p = h ∧ same_work (without p m) m'.

Lemma collect_ready_spec now res m h m' : collect_ready now res m h = Ok m' → m' = m ∨ collected now res m h m'.
Proof.
  unfold collect_ready. destruct (get_waitable h m) as [p|] eqn:E; [|by intros [= <-]; left].
  apply get_waitable_Some in E as [Hp <-]. unfold pop_processor. destruct (sin _ _); [|done]. intros [= <-]. right.
  exists p. split_and!; [done..|]. unfold _collect_results_from_processor. destruct (res _) as [[? ?]|]; done.
Qed.

Lemma collect_one_spec now res m h m' : collect_one now res m h = Ok m' → collected now res m h m'.
Proof.
  unfold collect_one. destruct (get_waitable h m) as [p|] eqn:E; [|done]. apply get_waitable_Some in E as [Hp <-].
  unfold pop_processor. destruct (sin _ _); [|done]. intros [= <-].
  exists p. split_and!; [done..|]. unfold _collect_results_from_processor. destruct (res _) as [[? ?]|]; done.
Qed.

Lemma collected_ok now res m h m' :
  collected now res m h m' → mgr_ok conf m → mgr_ok conf m' ∧ same_requests m m'.
Proof.
  intros (p & Hp & _ & Hw) Hm. split; [eapply same_work_ok; [exact Hw|by apply without_ok]|].
  exact (same_work_requests _ _ Hw).
Qed.

Lemma collected_sync now res m h m' :
  collected now res m h m' → mgr_ok conf m → mgr_sync m →
  mgr_sync m' ∧ (∀ h', h' ≠ h → h' ∈ waitable_handle <$> waitables m → h' ∈ waitable_handle <$> waitables m') ∧
  (∀ f, f ∈ (_processors m').*1 → f ∈ (_processors m).*1).
Proof.
  intros (p & Hp & <- & Hw) Hm Hs. split; [eapply same_work_sync; [exact Hw|by apply without_sync]|].
  destruct Hw as (_ & _ & Hps & -> & _). rewrite Hps. split.
  - intros h' Hne (q & -> & Hq)%list_elem_of_fmap. apply list_elem_of_fmap. exists q. by rewrite elem_of_without.
  - intros f. cbn. rewrite elem_of_sdel_keys. tauto.
Qed.

(** The loops over the handles. *)
Lemma collect_loop_ok now res (f : Manager → nat → result Manager) hs m m' :
  (∀ m h m', f m h = Ok m' → m' = m ∨ collected now res m h m') →
  mgr_ok conf m → foldM f hs m = Ok m' → mgr_ok conf m' ∧ same_requests m m'.
Proof.
  intros Hf Hm Hl. revert Hl. eapply (foldM_invariant (λ a, mgr_ok conf a ∧ same_requests m a)); [|done].
  intros h a b _ [Ha [Hr Hz]] [->|Hc]%Hf; [done|]. destruct (collected_ok _ _ _ _ _ Hc Ha) as [? [Hr' Hz']].
  split; [done|]. split; congruence.
Qed.

Lemma collect_loop_total now res (f : Manager → nat → result Manager) hs m :
  (∀ m p, p ∈ waitables m → (p_file_path p, p) ∈ _processors m → mgr_ok conf m →
     ∃ m', f m (waitable_handle p) = Ok m' ∧ collected now res m (waitable_handle p) m') →
  NoDup hs → (∀ h, h ∈ hs → h ∈ waitable_handle <$> waitables m) → mgr_ok conf m → mgr_sync m →
  ∃ m', foldM f hs m = Ok m' ∧ mgr_sync m' ∧ (∀ f, f ∈ (_processors m').*1 → f ∈ (_processors m).*1).
Proof.
  intros Hf. revert m. induction hs as [|h hs IH]; intros m Hd Hin Hm Hs; [by exists m|].
  apply NoDup_cons in Hd as [Hnin Hd]. destruct (proj1 (list_elem_of_fmap _ _ _) (Hin h ltac:(left))) as (p & -> & Hp).
  destruct (Hf m p) as (m1 & E1 & H1); auto. destruct (collected_ok _ _ _ _ _ H1 Hm) as [Hm1 _].
  destruct (collected_sync _ _ _ _ _ H1 Hm Hs) as (Hs1 & Hw1 & Hp1).
  destruct (IH m1) as (m' & El & Hs' & Hp'); try done.
  - intros h' Hh'. apply Hw1; [by intros ->|]. apply Hin. by right.
  - exists m'. cbn [foldM]. rewrite E1. cbn. auto.
Qed.

(** *** The new processors *)

Lemma start_process_ok now f m :
  mgr_ok conf m → f ∉ (_processors m).*1 → Z.of_nat (length (_processors m)) < _parallelism conf →
  mgr_ok conf (start_process now (length (created m)) f m).
Proof.
  intros [? ? Hd He Hh Hc Hl Hk Hp Hr] Hf Hlt. set (p := {| p_file_path := f; p_start_time := now;
    p_callbacks := default [] (sget f (_callback_to_execute m)); waitable_handle := length (created m) |}).
  assert (sset f p (_processors m) = _processors m ++ [(f, p)]) as Hs.
  { unfold sset. destruct (sin f (_processors m)) eqn:E; [|done]. by apply sin_keys in E. }
  split; try done; unfold start_process; fold p; cbn; rewrite ?Hs.
  - by rewrite <-Hs; apply sset_NoDup.
  - intros f' p'. rewrite !elem_of_app, !list_elem_of_singleton. intros [Hin|[= -> ->]]; [|by auto].
    destruct (He _ _ Hin). auto.
  - rewrite fmap_app. apply NoDup_app. split_and!; [done| |apply NoDup_singleton].
    intros h (q & -> & Hq%Hc%lookup_lt_Some)%list_elem_of_fmap. cbn. rewrite list_elem_of_singleton. lia.
  - intros q. rewrite elem_of_app, list_elem_of_singleton. intros [Hq%Hc| ->]; [by apply lookup_app_l_Some|].
    cbn. by apply list_lookup_middle.
  - rewrite length_app. cbn. lia.
  - by apply sdel_NoDup.
  - intros f' rs r [Hin _]%elem_of_sdel. by eapply Hp.
  - intros q r. rewrite elem_of_app, list_elem_of_singleton. intros [Hq| ->]; [by apply Hr|]. cbn.
    destruct (sget f _) as [rs|] eqn:E; cbn; [|by intros ?%elem_of_nil]. apply Hp. by apply sget_elem.
Qed.

Lemma start_process_requests now h f m : NoDup (_callback_to_execute m).*1 → requests (start_process now h f m) ≡ₚ requests m.
Proof.
  intros Hk. unfold requests. cbn. rewrite fmap_app, concat_app, <-app_assoc. apply Permutation_app_head. cbn. rewrite app_nil_r.
  destruct (sget f _) as [rs|] eqn:E; cbn.
  - by rewrite (sdel_Permutation f rs _ Hk E) at 2.
  - by rewrite sdel_fresh by (by apply sget_None).
Qed.

Lemma start_process_sync now h f m : f ∉ (_processors m).*1 → mgr_sync m → mgr_sync (start_process now h f m).
Proof.
  intros Hf Hs p. cbn. assert (∀ v, sset f v (_processors m) = _processors m ++ [(f, v)]) as ->.
  { intros v. unfold sset. destruct (sin f (_processors m)) eqn:E; [|done]. by apply sin_keys in E. }
  rewrite !elem_of_app, !list_elem_of_singleton. intros [?%Hs| ->]; auto.
Qed.

Lemma with_queue_ok q m : NoDup q → mgr_ok conf m → mgr_ok conf (with_queue q m).
Proof. intros ? []. by split. Qed.

Lemma start_loop_ok now q m :
  NoDup q → mgr_ok conf m →
  mgr_ok conf (start_loop conf now q m) ∧ requests (start_loop conf now q m) ≡ₚ requests m ∧
  (mgr_sync m → mgr_sync (start_loop conf now q m)).
Proof.
  revert m. induction q as [|f q IH]; intros m Hq Hm; cbn [start_loop].
  { split_and!; [by apply with_queue_ok|done|done]. }
  pose proof Hq as [_ Hq']%NoDup_cons. destruct (0 <? _) eqn:E.
  - apply Z.ltb_lt in E. destruct (sin f (_processors m)) eqn:Ef; [by apply IH|].
    assert (f ∉ (_processors m).*1) by (rewrite <-sin_keys; congruence).
    destruct (IH (start_process now (length (created m)) f m)) as (Hok & Hr & Hs); [done|apply start_process_ok; [done..|lia]|].
    split_and!; [done| |].
    + rewrite Hr. apply start_process_requests, Hm.
    + intros. by apply Hs, start_process_sync.
  - split_and!; [by apply with_queue_ok|done|done].
Qed.

(** *** The queue *)

Lemma order_files_perm mtime shuffle fs :
  NoDup fs → (∀ l, shuffle l ≡ₚ l) → order_files conf mtime shuffle fs ≡ₚ fs.
Proof.
  intros Hfs Hsh. unfold order_files. destruct (file_parsing_sort_mode conf); rewrite ?py_sorted_Permutation; try done.
  assert (((λ f, (f, mtime f)) <$> fs).*1 = fs) as E by (rewrite <-list_fmap_compose; apply list_fmap_id).
  rewrite dict_of_NoDup; by rewrite E.
Qed.

Lemma prepare_ok now mtime shuffle m :
  (∀ l, shuffle l ≡ₚ l) → _file_path_queue m = [] → mgr_ok conf m → mgr_ok conf (prepare_file_path_queue conf now mtime shuffle m).
Proof.
  intros Hsh Hq Hm. unfold prepare_file_path_queue. apply with_queue_ok; [|by eapply same_work_ok; [|exact Hm]].
  cbn [_file_path_queue with_stats]. rewrite Hq. cbn. eapply sublist_NoDup; [|apply filterb_sublist].
  rewrite order_files_perm; [|apply Hm|done]. apply Hm.
Qed.

(** *** Zombies *)

Definition zombie_query_due (now : datetime) m : bool :=
  match _last_zombie_query_time m with Some t => _zombie_query_interval conf <? now - t | None => true end.

Lemma _find_zombies_ok s m :
  mgr_ok conf m →
  mgr_ok conf (_find_zombies conf s m) ∧ (mgr_sync m → mgr_sync (_find_zombies conf s m)) ∧
  requests (_find_zombies conf s m) ≡ₚ
    requests m ++ (if zombie_query_due (utcnow s) m then zombie_request <$> zombies conf s else []).
Proof.
  intros Hm. unfold _find_zombies. fold (zombie_query_due (utcnow s) m). destruct (zombie_query_due _ _); [|by rewrite app_nil_r].
  assert (∀ zs m0, mgr_ok conf m0 → let m' := foldl (λ m z, _add_callback_to_queue (zombie_request z) m) m0 zs in
    mgr_ok conf m' ∧ (mgr_sync m0 → mgr_sync m') ∧ requests m' ≡ₚ requests m0 ++ (zombie_request <$> zs)) as Hg.
  { induction zs as [|z zs IH]; intros m0 Hm0; cbn [foldl]; [by rewrite app_nil_r|].
    destruct (IH (_add_callback_to_queue (zombie_request z) m0)) as (H1 & H2 & H3); [by apply _add_callback_to_queue_ok|].
    split_and!; [done|done|]. rewrite H3, _add_callback_requests by done. by rewrite <-app_assoc. }
  set (m0 := with_times _ _ _ m). assert (mgr_ok conf m0) as Hm0 by (destruct Hm; by split).
  exact (Hg (zombies conf s) m0 Hm0).
Qed.

(** *** One iteration *)

(** The requests that arrive during a turn. *)
Definition new_requests (t : Turn) m : list CallbackRequest :=
  let found := if zombie_query_due (utcnow (database t)) m then zombie_request <$> zombies conf (database t) else [] in
  match signal t with
  | Some (inl AGENT_RUN_ONCE) => found
  | Some (inl _) => []
  | Some (inr request) => request :: found
  | None => match wait (ready t) m, _async_mode conf with [], false => [] | _, _ => found end
  end.

(** The part of an iteration after the files were listed. *)
Definition after_refresh (t : Turn) m : Manager :=
  let now := utcnow (database t) in
  let m := _find_zombies conf (database t) m in
  let m := _kill_timed_out_processors conf now m in
  let m := match _file_path_queue m with [] => prepare_file_path_queue conf now (modified t) (shuffled t) m | _ => m end in
  let m := start_new_processes conf now m in
  with_times (_num_run m + 1) (_last_zombie_query_time m) (last_dag_dir_refresh_time m) m.

Lemma after_refresh_ok t m :
  turn_ok t → mgr_ok conf m →
  mgr_ok conf (after_refresh t m) ∧ (mgr_sync m → mgr_sync (after_refresh t m)) ∧
  requests (after_refresh t m) ≡ₚ
    requests m ++ (if zombie_query_due (utcnow (database t)) m then zombie_request <$> zombies conf (database t) else []).
Proof.
  intros Ht Hm. unfold after_refresh. destruct (_find_zombies_ok (database t) m Hm) as (Hz & Hs & Hr).
  rewrite <-Hr. revert Hs Hz. generalize (_find_zombies conf (database t) m). clear Hr. intros m1 Hs1 Hm1.
  set (now := utcnow (database t)). set (m2 := _kill_timed_out_processors conf now m1).
  assert (same_work m1 m2) as H12 by done.
  set (m3 := match _file_path_queue m2 with [] => _ | _ => m2 end).
  assert (mgr_ok conf m3 ∧ (mgr_sync m1 → mgr_sync m3) ∧ requests m3 = requests m1) as (Hm3 & Hs3 & Hr3).
  { subst m3. pose proof (same_work_ok _ _ H12 Hm1). destruct (_file_path_queue m2) eqn:E; [|by split_and!].
    split_and!; [by apply prepare_ok; [apply Ht|..]|done|done]. }
  rewrite <-Hr3. destruct (start_loop_ok now (_file_path_queue m3) m3) as (Hm4 & Hr4 & Hs4); [apply Hm3|done|].
  split_and!.
  - eapply same_work_ok; [|exact Hm4]. done.
  - intros H. by apply Hs4, Hs3, Hs1.
  - exact Hr4.
Qed.

Lemma parse_iteration_eq t hs m :
  parse_iteration conf t hs m =
  (m ← foldM (collect_ready (utcnow (database t)) (results t)) hs m;
   m ← _refresh_dag_dir conf (utcnow (database t)) (listing t) m;
   m ← collect_results (utcnow (database t)) (results t) (wait (ready' t) (after_refresh t m)) (after_refresh t m);
   let all := forallb (λ f, bool_decide (is_Some (get_last_finish_time f m))) (_file_paths m) in
   Ok (if max_runs_reached conf m then MaxRuns all else Continue all, m)).
Proof. done. Qed.

Lemma parse_iteration_ok t hs m v m' :
  turn_ok t → mgr_ok conf m → parse_iteration conf t hs m = Ok (v, m') →
  mgr_ok conf m' ∧ requests m' ≡ₚ
    requests m ++ (if zombie_query_due (utcnow (database t)) m then zombie_request <$> zombies conf (database t) else []).
Proof.
  intros Ht Hm. rewrite parse_iteration_eq.
  intros (m1 & H1 & (m2 & H2 & (m3 & H3 & [= _ <-])%result_bind_ok)%result_bind_ok)%result_bind_ok.
  eapply collect_loop_ok in H1 as [Hm1 [Hr1 Hz1]]; [|apply collect_ready_spec|done].
  pose proof (refresh_requests _ _ _ _ Hm1 H2) as [Hr2 Hz2]. apply refresh_ok in H2 as Hm2; [|apply Ht|done].
  destruct (after_refresh_ok t m2 Ht Hm2) as (Hm3 & _ & Hr3).
  eapply collect_loop_ok in H3 as [Hm4 [Hr4 _]]; [|intros; right; by apply collect_one_spec|done].
  split; [done|]. rewrite Hr4, Hr3, Hr2, Hr1. unfold zombie_query_due. by rewrite Hz2, Hz1.
Qed.

Lemma run_parsing_turn_ok t m v m' :
  turn_ok t → mgr_ok conf m → run_parsing_turn conf t m = Ok (v, m') →
  mgr_ok conf m' ∧ requests m' ≡ₚ requests m ++ new_requests t m.
Proof.
  intros Ht Hm. unfold run_parsing_turn, new_requests.
  assert (same_work m (terminate m)) as Hterm by done.
  destruct (signal t) as [[[]|r]|].
  - by apply parse_iteration_ok.
  - intros [= _ <-]. rewrite app_nil_r. split; [by eapply same_work_ok|done].
  - intros [= _ <-]. rewrite app_nil_r. split; [by eapply same_work_ok|done].
  - intros [Hm' Hr]%parse_iteration_ok; [|done|by apply _add_callback_to_queue_ok]. split; [done|]. rewrite Hr.
    rewrite _add_callback_requests by done. rewrite <-app_assoc. done.
  - destruct (wait (ready t) m), (_async_mode conf); try (by apply parse_iteration_ok).
    intros [= _ <-]. by rewrite app_nil_r.
Qed.

(** *** Progress *)

Lemma wait_NoDup r m : mgr_ok conf m → NoDup (wait r m).
Proof. intros Hm. eapply sublist_NoDup; [apply Hm|apply filterb_sublist]. Qed.

Lemma wait_waitable r m h : h ∈ wait r m → h ∈ waitable_handle <$> waitables m.
Proof. by intros [_ ?]%elem_of_filterb. Qed.

Lemma in_progress p m : (p_file_path p, p) ∈ _processors m → sin (p_file_path p) (_processors m) = true.
Proof. intros H. apply sin_keys, list_elem_of_fmap. by exists (p_file_path p, p). Qed.

Lemma get_waitable_eq p m : mgr_ok conf m → p ∈ waitables m → get_waitable (waitable_handle p) m = Some p.
Proof.
  intros Hm Hp. destruct (get_waitable_total (waitable_handle p) m) as [q Hq]; [apply list_elem_of_fmap; eauto|].
  rewrite Hq. apply get_waitable_Some in Hq as [Hq Hh]. f_equal. by eapply same_handle.
Qed.

Lemma collect_ready_total now res m p :
  p ∈ waitables m → (p_file_path p, p) ∈ _processors m → mgr_ok conf m →
  ∃ m', collect_ready now res m (waitable_handle p) = Ok m' ∧ collected now res m (waitable_handle p) m'.
Proof.
  intros Hp Hin%in_progress Hm. unfold collect_ready. rewrite (get_waitable_eq p m Hm Hp).
  unfold pop_processor, _collect_results_from_processor. destruct (res _) as [[? ?]|];
    cbn [_processors waitables pop_waitable with_processors with_stats mbind result_bind]; rewrite Hin;
    (eexists; split; [reflexivity|]; exists p; by split_and!).
Qed.

Lemma collect_one_total now res m p :
  p ∈ waitables m → (p_file_path p, p) ∈ _processors m → mgr_ok conf m →
  ∃ m', collect_one now res m (waitable_handle p) = Ok m' ∧ collected now res m (waitable_handle p) m'.
Proof.
  intros Hp Hin%in_progress Hm. unfold collect_one. rewrite (get_waitable_eq p m Hm Hp).
  unfold pop_processor, _collect_results_from_processor.
  cbn [_processors waitables pop_waitable with_processors with_stats mbind result_bind]. rewrite Hin. destruct (res _) as [[? ?]|]; cbn [mbind result_bind];
    (eexists; split; [reflexivity|]; exists p; by split_and!).
Qed.

Lemma parse_iteration_total t m :
  turn_ok t → mgr_ok conf m → mgr_sync m → (∀ f, f ∈ (_processors m).*1 → f ∈ listing t) →
  ∀ hs, NoDup hs → (∀ h, h ∈ hs → h ∈ waitable_handle <$> waitables m) →
  ∃ v m', parse_iteration conf t hs m = Ok (v, m') ∧ mgr_sync m'.
Proof.
  intros Ht Hm Hs Hl hs Hd Hh. rewrite parse_iteration_eq.
  destruct (collect_loop_total (utcnow (database t)) (results t) (collect_ready (utcnow (database t)) (results t)) hs m)
    as (m1 & E1 & Hs1 & Hp1); try done; [intros; by apply collect_ready_total|].
  rewrite E1. cbn [mbind result_bind].
  destruct (collect_loop_ok _ _ _ _ _ _ (collect_ready_spec _ _) Hm E1) as [Hm1 _].
  destruct (refresh_sync (utcnow (database t)) (listing t) m1) as (m2 & E2 & Hs2); try done; [by auto|].
  rewrite E2. cbn [mbind result_bind].
  assert (mgr_ok conf m2) as Hm2 by (eapply refresh_ok; [apply Ht|exact Hm1|exact E2]).
  destruct (after_refresh_ok t m2 Ht Hm2) as (Hm3 & Hs3 & _).
  destruct (collect_loop_total (utcnow (database t)) (results t) (collect_one (utcnow (database t)) (results t))
    (wait (ready' t) (after_refresh t m2)) (after_refresh t m2)) as (m4 & E4 & Hs4 & _); auto.
  - intros. by apply collect_one_total.
  - by apply wait_NoDup.
  - apply wait_waitable.
  - unfold collect_results. rewrite E4. cbn [mbind result_bind]. eauto.
Qed.

(** The requests that arrive during a run of the loop. *)
Fixpoint received (turns : list Turn) m : list CallbackRequest :=
  match turns with
  | [] => []
  | t :: turns =>
      match run_parsing_turn conf t m with
      | Ok (Continue _, m') => new_requests t m ++ received turns m'
      | Ok (_, _) => new_requests t m
      | Err _ => []
      end
  end.

Lemma loop_start_ok now files mtime shuffle m :
  NoDup files → (∀ l, shuffle l ≡ₚ l) → loop_start conf now files mtime shuffle manager_init = Ok m →
  mgr_ok conf m ∧ requests m ≡ₚ [].
Proof.
  intros Hf Hsh (m1 & H1 & [= <-])%result_bind_ok. pose proof (refresh_requests _ _ _ _ manager_init_ok H1) as [Hr1 _].
  pose proof (refresh_cases _ _ _ _ H1 (NoDup_nil_2)) as Hq. apply refresh_ok in H1 as Hm1; [|done|apply manager_init_ok].
  assert (_file_path_queue m1 = []) as Hq1 by (destruct Hq as [->|(_ & -> & _)]; done).
  apply (prepare_ok now mtime _ _ Hsh Hq1) in Hm1 as Hm2. assert (requests (prepare_file_path_queue conf now mtime shuffle m1) = []) as Hr2.
  { etrans; [|exact Hr1]. done. }
  revert Hm2 Hr2. generalize (prepare_file_path_queue conf now mtime shuffle m1). intros m2 Hm2 Hr2.
  destruct (_async_mode conf); [|by rewrite Hr2].
  destruct (start_loop_ok now (_file_path_queue m2) m2) as (? & Hr & _); [apply Hm2|done|]. split; [done|]. rewrite <-Hr2. exact Hr.
Qed.

(** C25: over any run of the parsing loop of the file processor manager, whatever
    the files listed, the processes that finish, the signals and the database: a
    file is queued at most once; there is at most one processor per file, at most
    [parallelism] of them, and each can be waited for; and no callback request is
    lost or executed twice: those handed to processes, together with those still
    waiting, are exactly those received from the scheduler and from the search for
    zombies, and each is handed to a process of its own file. *)
Theorem manager_run_ok now files mtime shuffle turns m0 v m :
  NoDup files → (∀ l, shuffle l ≡ₚ l) → Forall turn_ok turns →
  loop_start conf now files mtime shuffle manager_init = Ok m0 → parsing_loop conf turns m0 = Ok (v, m) →
  mgr_ok conf m ∧ requests m ≡ₚ received turns m0.
Proof.
  intros Hf Hsh Hts [Hm0 Hr0]%loop_start_ok Hl; [|done|done].
  assert (∀ ts a, Forall turn_ok ts → mgr_ok conf a → parsing_loop conf ts a = Ok (v, m) →
    mgr_ok conf m ∧ requests m ≡ₚ requests a ++ received ts a) as Hg.
  { clear -m. induction ts as [|t ts IH]; intros a Hts Ha; cbn [parsing_loop received].
    { intros [= _ <-]. by rewrite app_nil_r. }
    apply Forall_cons in Hts as [Ht Hts]. intros ([v1 m1] & H1 & Hl)%result_bind_ok. rewrite H1.
    destruct (run_parsing_turn_ok t a v1 m1 Ht Ha H1) as [Hm1 Hr1].
    destruct v1; try (by injection Hl as _ <-).
    destruct (IH m1 Hts Hm1 Hl) as [? Hr]. split; [done|]. by rewrite Hr, Hr1, <-app_assoc. }
  destruct (Hg turns m0 Hts Hm0 Hl) as [? Hr]. split; [done|]. rewrite Hr, Hr0. done.
Qed.

(** An iteration of the parsing loop cannot raise, and keeps every process it
    waits for in the table of processors, provided no file in progress is missing
    from the directory: each [pop] of a processor or a handle finds its key. *)
Theorem iteration_succeeds t m :
  turn_ok t → mgr_ok conf m → mgr_sync m → (∀ f, f ∈ (_processors m).*1 → f ∈ listing t) →
  ∃ v m', run_parsing_turn conf t m = Ok (v, m') ∧ mgr_ok conf m' ∧ mgr_sync m'.
Proof.
  intros Ht Hm Hs Hl. assert (∃ v m', run_parsing_turn conf t m = Ok (v, m') ∧ mgr_sync m') as (v & m' & E & Hs').
  { unfold run_parsing_turn. pose proof (wait_NoDup (ready t) m Hm) as Hd. pose proof (wait_waitable (ready t) m) as Hw.
    destruct (signal t) as [[[]|r]|].
    - by apply parse_iteration_total.
    - by eexists _, _.
    - by eexists _, _.
    - apply parse_iteration_total; try done. by apply _add_callback_to_queue_ok.
    - destruct (wait (ready t) m) eqn:Ew, (_async_mode conf); try (by apply parse_iteration_total). by eexists _, _. }
  exists v, m'. split; [done|]. split; [|done]. by eapply run_parsing_turn_ok.
Qed.
End Invariant.

(** ** Concrete runs *)

Module DagProcessingSample.

Definition conf (max_runs : Z) : ManagerConf :=
  {| _max_runs := max_runs; _async_mode := true; _parallelism := 2; _file_process_interval := 30; _zombie_threshold := 300;
     _zombie_query_interval := 10; _processor_timeout := 50; dag_dir_list_interval := 10; file_parsing_sort_mode := alphabetical |}.

(** A running task instance whose job stopped its heartbeat. *)
Definition lost : TaskInstance :=
  TI.mk "a" "diamond" 1000 (Some 1000) None None (Some RUNNING) 1 1 "" (Some 7) "default_pool" 1 "default" 1 "BashOperator" None None
    None "" None.
Definition db (now : datetime) : Session :=
  with_job [{| bj_id := 7; job_type := "LocalTaskJob"; bj_state := Some RUNNING; latest_heartbeat := 1000 |}]
    {| task_instance := [lost]; dag_run := []; dag_model := [Sample.mk_dm "diamond"]; slot_pool := []; task_reschedule := [];
       xcom := []; job := []; utcnow := now |}.

Definition request : CallbackRequest := DagCallbackRequest "b.py" "other" 1000 true "timed_out".

Definition turn (sig : option (DagParsingSignal + CallbackRequest)) (done : bool) (files : list string) (now : datetime) : Turn :=
  {| signal := sig; ready := λ _, done; ready' := λ _, false; results := λ _, Some (1, 0); listing := files;
     modified := λ _, 0; shuffled := λ l, l; database := db now |}.

Definition files := ["c.py"; "b.py"; "dag.py"].
Definition start (n : Z) (fs : list string) : Manager :=
  match loop_start (conf n) 5000 fs (λ _, 0) (λ l, l) manager_init with Ok m => m | Err _ => manager_init end.

(** Two processors start at once; the request of the agent arrives while its file
    is in progress, the zombie moves [dag.py] to the front. *)
Definition turns : list Turn := [turn (Some (inr request)) false files 5001; turn None true files 5040].

Lemma turn_okay sig d fs now : NoDup fs → turn_ok (turn sig d fs now).
Proof. intros H. by split. Qed.

Abbreviation final := (parsing_loop (conf (-1)) turns (start (-1) files)).

Lemma manager_run_ok_witness :
  ∃ v m, final = Ok (v, m) ∧ requests m ≡ₚ received (conf (-1)) turns (start (-1) files) ∧
    length (received (conf (-1)) turns (start (-1) files)) = 3%nat.
Proof.
  destruct final as [[v m]|e] eqn:E; [|by vm_compute in E]. exists v, m. split; [done|]. split; [|by vm_compute].
  eapply (manager_run_ok (conf (-1)) 5000 files (λ _, 0) (λ l, l) turns (start (-1) files) v m).
  - apply (bool_decide_unpack _). by vm_compute.
  - done.
  - constructor; [|constructor; [|constructor]]; apply turn_okay, (bool_decide_unpack _); by vm_compute.
  - by vm_compute.
  - exact E.
Defined.

Lemma iteration_succeeds_witness :
  ∃ v m', run_parsing_turn (conf (-1)) (turn (Some (inr request)) true files 5020) (start (-1) files) = Ok (v, m') ∧
    mgr_ok (conf (-1)) m' ∧ mgr_sync m'.
Proof.
  apply iteration_succeeds.
  - apply turn_okay, (bool_decide_unpack _). by vm_compute.
  - eapply (loop_start_ok (conf (-1)) 5000 files (λ _, 0) (λ l, l)); [|done|by vm_compute].
    apply (bool_decide_unpack _). by vm_compute.
  - intros p Hp. vm_compute in Hp. vm_compute. set_solver.
  - intros f Hf. vm_compute in Hf. vm_compute. set_solver.
Defined.

(** A file is deleted while it is in progress: its processor is taken out of the
    table of processors but can still be waited for, and the turn in which its
    process ends raises: the [pop] of the processor finds no entry.  Here [b.py]
    and [c.py] are in progress, then [c.py] is deleted. *)
Example deleted_file_ends_manager :
  parsing_loop (conf (-1)) [turn None false ["b.py"; "dag.py"] 5020; turn None true ["b.py"; "dag.py"] 5021]
    (start (-1) files) = Err KeyError.
Proof. vm_compute. reflexivity. Qed.

(** A request for a file that was never queued for parsing: the file has no
    statistics, and the next listing without it raises. *)
Definition early : Turn := turn (Some (inr (DagCallbackRequest "gone.py" "other" 1000 true ""))) false ["b.py"] 5001.
Example unlisted_request_ends_manager :
  parsing_loop (conf (-1)) [early; turn None false ["b.py"] 5020] (start (-1) ["b.py"]) = Err KeyError.
Proof. vm_compute. reflexivity. Qed.

(** Turns without zombies. *)
Definition quiet (sig : option (DagParsingSignal + CallbackRequest)) (done : nat → bool) (files : list string) (now : datetime) : Turn :=
  {| signal := sig; ready := done; ready' := λ _, false; results := λ _, Some (1, 0); listing := files;
     modified := λ _, 0; shuffled := λ l, l; database := with_task_instance [] (db now) |}.

(** A request that arrives while its file is in progress loses its place in the
    queue: the file is taken from the queue and passed over, and the request
    waits until the file is parsed for another reason. *)
Example request_passed_over :
  (λ m, (_file_path_queue m.2, _callback_to_execute m.2)) <$>
    parsing_loop (conf (-1)) [quiet (Some (inr request)) (λ _, false) ["b.py"] 5001] (start (-1) ["b.py"])
  = Ok ([], [("b.py", [request])]).
Proof. vm_compute. reflexivity. Qed.

(** With one run per file, a file that was parsed once more for a request is over
    the limit, and is then parsed again: only a count equal to the limit is left out. *)
Example run_limit_passed :
  let c_runs := λ h, negb (h =? 1)%nat in
  (λ m, length (List.filter (λ p, p_file_path p ≟ "b.py") (created m.2))) <$>
    parsing_loop (conf 1) [quiet (Some (inr request)) c_runs ["b.py"; "c.py"] 5001; quiet None c_runs ["b.py"; "c.py"] 5002;
                           quiet None c_runs ["b.py"; "c.py"] 5040] (start 1 ["b.py"; "c.py"])
  = Ok 3%nat.
Proof. vm_compute. reflexivity. Qed.

(** A request for a zombie that succeeded before the request is executed: the
    task instance becomes failed. *)
Example zombie_overwrites_success :
  let s := with_task_instance [TI.set_state (Some SUCCESS) lost] (db 5000) in
  (λ s', TI.state <$> task_instance s') <$> _execute_task_callbacks [Sample.diamond] "diamond" "a" 1000 true false s
  = Ok [Some FAILED].
Proof. vm_compute. reflexivity. Qed.
End DagProcessingSample.
