(* ===== verification/Sla.v ===== *)
(** * Sla: service level agreements

    [DagFileProcessor.manage_slas] ([dag_processing/processor.py]) over the table of
    [SlaMiss] rows ([models/slamiss.py]): the misses that are recorded, the
    notification and its record; and [update_import_errors].

    The agreements and addresses of the tasks, the outcome of the callback and of
    the mail are arguments; the texts are left out. *)

From S2P Require Import Prelude State Model Sample Timetable.
From stdpp Require Import strings.

Module Sla.
Local Open Scope Z_scope.

Record SlaMiss := {
  sm_task_id : string;
  sm_dag_id : string;
  sm_execution_date : datetime;
  email_sent : bool;
  notification_sent : bool;
  timestamp : datetime;
}.

Definition sm_key (r : SlaMiss) : string * string * datetime := (sm_task_id r, sm_dag_id r, sm_execution_date r).

(** [session.merge(SlaMiss(task_id, dag_id, execution_date, timestamp))]: of a row
    that exists only the timestamp changes. *)
Definition merge_miss (tid did : string) (d ts : datetime) (rows : list SlaMiss) : list SlaMiss :=
  if existsb (λ r, sm_key r ≟ (tid, did, d)) rows then
    (λ r, if sm_key r ≟ (tid, did, d)
          then {| sm_task_id := tid; sm_dag_id := did; sm_execution_date := d; email_sent := email_sent r;
                  notification_sent := notification_sent r; timestamp := ts |}
          else r) <$> rows
  else rows ++ [{| sm_task_id := tid; sm_dag_id := did; sm_execution_date := d; email_sent := false; notification_sent := false;
                   timestamp := ts |}].

(** [task.sla]: absent, a time delta, or something else that is true. *)
Inductive SlaValue := NoSla | SlaDelta (d : timedelta) | SlaOther.

Section Manage.
Context (cron_schedule : string → Timetable.Schedule) (dag : DAG) (sla : string → SlaValue).

Definition is_timedelta (v : SlaValue) : bool := match v with SlaDelta _ => true | _ => false end.

(** The subquery: the last date at which a task succeeded or was skipped. *)
Definition last_done (tid : string) (s : Session) : option datetime :=
  Timetable.max_date (TI.execution_date <$>
    List.filter (λ t, (TI.dag_id t ≟ dag_id dag) && (TI.task_id t ≟ tid) && (TI.state t ∈? [Some SUCCESS; Some SKIPPED]))
      (task_instance s)).

Definition max_tis (s : Session) : list TaskInstance :=
  List.filter (λ t, (TI.dag_id t ≟ dag_id dag) && (TI.task_id t ∈? task_ids dag) &&
                    bool_decide (last_done (TI.task_id t) s = Some (TI.execution_date t))) (task_instance s).

(** [while dttm < ts]. *)
Fixpoint miss_loop (fuel : nat) (delta : timedelta) (tid : string) (ts dttm : datetime) (rows : list SlaMiss)
    : result (list SlaMiss) :=
  if dttm <? ts then
    match fuel with
    | O => Err OutOfFuel
    | S fuel =>
        following ← Timetable.following_schedule cron_schedule dag ts dttm;
        match following with
        | None => Err TypeError
        | Some f =>
            miss_loop fuel delta tid ts f
              (if f + delta <? ts then merge_miss tid (dag_id dag) dttm ts rows else rows)
        end
    end
  else Ok rows.

Definition check_ti (ts : datetime) (rows : list SlaMiss) (ti : TaskInstance) : result (list SlaMiss) :=
  _ ← get_task dag (TI.task_id ti);
  match sla (TI.task_id ti) with
  | NoSla => Ok rows
  | SlaOther => Err TypeError
  | SlaDelta delta =>
      if delta =? 0 then Ok rows
      else
        following ← Timetable.following_schedule cron_schedule dag ts (TI.execution_date ti);
        match following with
        | None => Err TypeError
        | Some dttm => miss_loop (Z.to_nat (ts - dttm)) delta (TI.task_id ti) ts dttm rows
        end
  end.

(** What [manage_slas] leaves: the misses, the task instances, and the misses and
    blocking task instances of the notification. *)
Record SlaResult := {
  sla_rows : list SlaMiss;
  sla_tis : list TaskInstance;
  reported : list SlaMiss;
  blocking : list TaskInstance;
  notified : bool;
}.

(** The rows with [TI.state != SUCCESS]: NULL is not unequal. *)
Definition blocking_candidates (slas : list SlaMiss) (s : Session) : list TaskInstance :=
  List.filter (λ t, match TI.state t with Some st => negb (st ≟ SUCCESS) | None => false end &&
                    (TI.execution_date t ∈? (sm_execution_date <$> slas)) && (TI.dag_id t ≟ dag_id dag)) (task_instance s).

(** [callback]: whether there is one, and whether it returns; [email]: the
    addresses of a task; [mailed]: whether the mail is sent. *)
Definition manage_slas (callback : option bool) (email : string → list string) (mailed : bool) (rows : list SlaMiss) (s : Session)
    : result SlaResult :=
  if negb (existsb (λ t, is_timedelta (sla (task_id t))) (task_dict dag)) then
    Ok {| sla_rows := rows; sla_tis := task_instance s; reported := []; blocking := []; notified := false |}
  else
    rows ← foldM (check_ti (utcnow s)) (max_tis s) rows;
    let slas := List.filter (λ r, negb (notification_sent r) && (sm_dag_id r ≟ dag_id dag)) rows in
    match slas with
    | [] => Ok {| sla_rows := rows; sla_tis := task_instance s; reported := []; blocking := []; notified := false |}
    | _ =>
        let fetched := blocking_candidates slas s in
        let blocking := List.filter (λ t, TI.task_id t ∈? task_ids dag) fetched in
        let deleted := TI.primary <$> List.filter (λ t, negb (TI.task_id t ∈? task_ids dag)) fetched in
        let tis := List.filter (λ t, negb (TI.primary t ∈? deleted)) (task_instance s) in
        let emails := flat_map (λ r, if has_task dag (sm_task_id r) then email (sm_task_id r) else []) slas in
        let email_ok := negb (bool_decide (emails = [])) && mailed in
        let notification := match callback with Some true => true | _ => false end || email_ok in
        let rows := if notification then
                      (λ r, if negb (notification_sent r) && (sm_dag_id r ≟ dag_id dag)
                            then {| sm_task_id := sm_task_id r; sm_dag_id := sm_dag_id r; sm_execution_date := sm_execution_date r;
                                    email_sent := email_ok; notification_sent := true; timestamp := timestamp r |}
                            else r) <$> rows
                    else rows in
        Ok {| sla_rows := rows; sla_tis := tis; reported := slas; blocking := blocking; notified := notification |}
    end.
End Manage.

(** ** Import errors *)

Record ImportError := { ie_filename : string; ie_timestamp : datetime; stacktrace : string }.

(** [update_import_errors], with the files and the errors of the DAG bag. *)
Definition update_import_errors (file_last_changed : list string) (import_errors : list (string * string)) (now : datetime)
    (rows : list ImportError) : list ImportError :=
  List.filter (λ r, negb (ie_filename r ∈? file_last_changed)) rows ++
  ((λ e, {| ie_filename := e.1; ie_timestamp := now; stacktrace := e.2 |}) <$> import_errors).
End Sla.
Import Timetable Sla.
Local Open Scope Z_scope.

(** ** The misses of one task *)

Definition keys (rows : list SlaMiss) : list (string * string * datetime) := sm_key <$> rows.

(** The rows whose notification was sent. *)
Definition sent_keys (rows : list SlaMiss) : list (string * string * datetime) := sm_key <$> List.filter notification_sent rows.

Lemma merge_miss_keys tid did d ts rows k :
  k ∈ keys (merge_miss tid did d ts rows) ↔ k ∈ keys rows ∨ k = (tid, did, d).
Proof.
  unfold merge_miss, keys. destruct (existsb _ rows) eqn:E.
  - assert ((sm_key <$> ((λ r, if sm_key r ≟ (tid, did, d)
        then {| sm_task_id := tid; sm_dag_id := did; sm_execution_date := d; email_sent := email_sent r;
                notification_sent := notification_sent r; timestamp := ts |} else r) <$> rows)) = (sm_key <$> rows)) as ->.
    { rewrite <-list_fmap_compose. apply list_fmap_ext. intros i r _. cbn. by case_bool_decide. }
    apply existsb_elem in E as (r & Hr & Hk%bool_decide_eq_true). split; [by left|]. intros [?| ->]; [done|].
    apply list_elem_of_fmap. by exists r.
  - rewrite fmap_app, elem_of_app. cbn. by rewrite list_elem_of_singleton.
Qed.

Lemma merge_miss_NoDup tid did d ts rows : NoDup (keys rows) → NoDup (keys (merge_miss tid did d ts rows)).
Proof.
  intros Hd. unfold merge_miss, keys in *. destruct (existsb _ rows) eqn:E.
  - rewrite <-list_fmap_compose. erewrite list_fmap_ext; [exact Hd|]. intros i r _. cbn. by case_bool_decide.
  - rewrite fmap_app. apply NoDup_app. split_and!; [done| |apply NoDup_singleton].
    intros k (r & -> & Hr)%list_elem_of_fmap Hk%list_elem_of_singleton. rewrite existsb_false_elem in E.
    specialize (E r Hr). cbn in *. rewrite Hk, bool_decide_eq_true_2 in E; done.
Qed.

Lemma merge_miss_sent tid did d ts rows : sent_keys (merge_miss tid did d ts rows) = sent_keys rows.
Proof.
  unfold sent_keys, merge_miss. destruct (existsb _ rows).
  - induction rows as [|r rows IH]; [done|]. cbn [fmap list_fmap List.filter]. destruct (sm_key r ≟ (tid, did, d)) eqn:E; cbn [notification_sent].
    + apply bool_decide_eq_true in E. destruct (notification_sent r); cbn [fmap list_fmap]; [|done]. by rewrite IH, E.
    + destruct (notification_sent r); cbn [fmap list_fmap]; [|done]. by rewrite IH.
  - rewrite List.filter_app. cbn. by rewrite app_nil_r.
Qed.

Section Misses.
Context (cron_schedule : string → Schedule) (dag : DAG) (sla : string → SlaValue) (next : datetime → datetime).
Context (Hnext : ∀ now d, following_schedule cron_schedule dag now d = Ok (Some (next d))) (Hlt : ∀ d, d < next d).

(** The dates of the schedule after [m]. *)
Inductive scheduled_after (m : datetime) : datetime → Prop :=
| after_first : scheduled_after m (next m)
| after_next d : scheduled_after m d → scheduled_after m (next d).

Lemma scheduled_after_cons m d : scheduled_after m d ↔ d = next m ∨ scheduled_after (next m) d.
Proof.
  split.
  - induction 1 as [|d _ [->|IH]]; [by left|right; constructor|right; by constructor].
  - intros [->|Hd]; [constructor|]. induction Hd as [|d _ IH]; [do 2 constructor|by constructor].
Qed.

Lemma scheduled_after_lt m d : scheduled_after m d → m < d.
Proof. induction 1 as [|d _ IH]; [apply Hlt|]. pose proof (Hlt d). lia. Qed.

(** The task has not been done for the date [d], whose interval ended longer than
    [delta] ago. *)
Definition late (delta : timedelta) (ts d : datetime) : Prop := d < ts ∧ next d + delta < ts.

(** The effect on the rows: their keys grow by [P], and no notification is lost. *)
Definition grows (P : string * string * datetime → Prop) (rows rows' : list SlaMiss) : Prop :=
  (∀ k, k ∈ keys rows' ↔ k ∈ keys rows ∨ P k) ∧ (NoDup (keys rows) → NoDup (keys rows')) ∧ sent_keys rows' = sent_keys rows.

Lemma grows_trans P Q R rows rows1 rows' :
  grows P rows rows1 → grows Q rows1 rows' → (∀ k, R k ↔ P k ∨ Q k) → grows R rows rows'.
Proof.
  intros (H1 & H2 & H3) (G1 & G2 & G3) HR. split_and!; [|auto|congruence]. intros k. rewrite G1, H1, HR. tauto.
Qed.

Lemma miss_loop_spec fuel delta tid ts dttm rows :
  ts - dttm ≤ Z.of_nat fuel →
  ∃ rows', miss_loop cron_schedule dag fuel delta tid ts dttm rows = Ok rows' ∧
    grows (λ k, ∃ d, k = (tid, dag_id dag, d) ∧ (d = dttm ∨ scheduled_after dttm d) ∧ late delta ts d) rows rows'.
Proof.
  revert dttm rows. induction fuel as [|fuel IH]; intros dttm rows Hf; cbn [miss_loop]; destruct (dttm <? ts) eqn:E;
    try (apply Z.ltb_ge in E); try (apply Z.ltb_lt in E); [lia| | |].
  - exists rows. split; [done|]. split_and!; [|done|done]. intros k. split; [by left|]. intros [?|(d & _ & [->|Hd] & Hl)]; [done| |].
    + destruct Hl. lia.
    + apply scheduled_after_lt in Hd. destruct Hl. lia.
  - rewrite Hnext. cbn [mbind result_bind]. pose proof (Hlt dttm).
    edestruct (IH (next dttm)) as (rows' & -> & Hg); [lia|]. exists rows'. split; [done|].
    destruct (next dttm + delta <? ts) eqn:El.
    + apply Z.ltb_lt in El. eapply (grows_trans (λ k, k = (tid, dag_id dag, dttm))); [|exact Hg|].
      * split_and!; [apply merge_miss_keys|apply merge_miss_NoDup|apply merge_miss_sent].
      * intros k. split.
        -- intros (d & -> & [->|Hd] & Hl); [by left|right]. exists d. by rewrite <-scheduled_after_cons.
        -- intros [->|(d & -> & Hd & Hl)]; [exists dttm; split_and!; [done|by left|by split]|].
           exists d. rewrite scheduled_after_cons. auto.
    + apply Z.ltb_ge in El. destruct Hg as (G1 & G2 & G3). split_and!; [|done|done]. intros k. rewrite G1.
      apply or_iff_compat_l. split.
      * intros (d & -> & Hd & Hl). exists d. rewrite scheduled_after_cons. auto.
      * intros (d & -> & [->|Hd] & Hl); [destruct Hl; lia|]. exists d. by rewrite <-scheduled_after_cons.
  - exists rows. split; [done|]. split_and!; [|done|done]. intros k. split; [by left|]. intros [?|(d & _ & [->|Hd] & Hl)]; [done| |].
    + destruct Hl. lia.
    + apply scheduled_after_lt in Hd. destruct Hl. lia.
Qed.

(** The agreement of a task, unless it has none. *)
Definition agreed (tid : string) (delta : timedelta) : Prop := sla tid = SlaDelta delta ∧ delta ≠ 0.

Lemma check_ti_spec ts rows ti :
  TI.task_id ti ∈ task_ids dag → sla (TI.task_id ti) ≠ SlaOther →
  ∃ rows', check_ti cron_schedule dag sla ts rows ti = Ok rows' ∧
    grows (λ k, ∃ d delta, k = (TI.task_id ti, dag_id dag, d) ∧ agreed (TI.task_id ti) delta ∧
                 scheduled_after (TI.execution_date ti) d ∧ late delta ts d) rows rows'.
Proof.
  intros Hin Hother. unfold check_ti, get_task.
  destruct (lookup_task dag (TI.task_id ti)) as [t|] eqn:El.
  2: { exfalso. unfold lookup_task in El. apply list_elem_of_fmap in Hin as (t & E & Ht). eapply List.find_none in El; [|by apply list_elem_of_In].
       cbn in El. by rewrite E, bool_decide_eq_true_2 in El. }
  cbn [mbind result_bind]. destruct (sla (TI.task_id ti)) as [|delta|] eqn:Es; [| |done].
  - exists rows. split; [done|]. split_and!; [|done|done]. intros k. split; [by left|].
    intros [?|(d & delta & _ & [E _] & _)]; [done|congruence].
  - destruct (delta =? 0) eqn:E0.
    + apply Z.eqb_eq in E0 as ->. exists rows. split; [done|]. split_and!; [|done|done]. intros k. split; [by left|].
      intros [?|(d & delta & _ & [E Hn] & _)]; [done|congruence].
    + apply Z.eqb_neq in E0. rewrite Hnext. cbn [mbind result_bind].
      destruct (miss_loop_spec (Z.to_nat (ts - next (TI.execution_date ti))) delta (TI.task_id ti) ts (next (TI.execution_date ti)) rows)
        as (rows' & -> & G1 & G2 & G3); [lia|].
      exists rows'. split; [done|]. split_and!; [|done|done]. intros k. rewrite G1. apply or_iff_compat_l. split.
      * intros (d & -> & Hd & Hl). exists d, delta. rewrite scheduled_after_cons. split_and!; [done|by split|done|done].
      * intros (d & delta' & -> & [E _] & Hd & Hl). rewrite scheduled_after_cons in Hd. exists d. split_and!; [done|done|]. congruence.
Qed.

Lemma check_all_spec ts tis rows :
  (∀ ti, ti ∈ tis → TI.task_id ti ∈ task_ids dag) → (∀ tid, sla tid ≠ SlaOther) →
  ∃ rows', foldM (check_ti cron_schedule dag sla ts) tis rows = Ok rows' ∧
    grows (λ k, ∃ ti d delta, ti ∈ tis ∧ k = (TI.task_id ti, dag_id dag, d) ∧ agreed (TI.task_id ti) delta ∧
                 scheduled_after (TI.execution_date ti) d ∧ late delta ts d) rows rows'.
Proof.
  intros Htis Ho. revert rows. induction tis as [|ti tis IH]; intros rows; cbn [foldM].
  - exists rows. split; [done|]. split_and!; [|done|done]. intros k. split; [by left|]. intros [?|(ti & ? & ? & ?%elem_of_nil & _)]; done.
  - destruct (check_ti_spec ts rows ti) as (rows1 & -> & Hg1); [apply Htis; left|done|]. cbn [mbind result_bind].
    destruct (IH ltac:(set_solver) rows1) as (rows' & -> & Hg2). exists rows'. split; [done|].
    eapply grows_trans; [exact Hg1|exact Hg2|]. intros k. split.
    + intros (x & d & delta & [->|Hx]%elem_of_cons & Hk & Hr); [left; eauto|right; eauto 10].
    + intros [(d & delta & Hk & Hr)|(x & d & delta & Hx & Hk & Hr)]; [exists ti, d, delta|exists x, d, delta]; (split; [set_solver|done]).
Qed.

(** The rows of [max_tis]. *)
Lemma max_date_elem l m : max_date l = Some m → m ∈ l.
Proof.
  destruct l as [|x l]; [done|]. cbn. intros [= <-]. revert x. induction l as [|y l IH]; intros x; cbn; [left|].
  specialize (IH (Z.max x y)). apply elem_of_cons in IH as [IH|IH]; [|set_solver]. rewrite IH.
  destruct (Z.max_spec x y) as [[_ ->]|[_ ->]]; set_solver.
Qed.

(** A miss: the task has an agreement, was done last at [m], and is late for the
    scheduled date [d] after [m]. *)
Definition missed (s : Session) (k : string * string * datetime) : Prop :=
  ∃ tid m d delta, k = (tid, dag_id dag, d) ∧ tid ∈ task_ids dag ∧ agreed tid delta ∧ last_done dag tid s = Some m ∧
    scheduled_after m d ∧ late delta (utcnow s) d.

Lemma max_tis_missed s k :
  (∃ ti d delta, ti ∈ max_tis dag s ∧ k = (TI.task_id ti, dag_id dag, d) ∧ agreed (TI.task_id ti) delta ∧
     scheduled_after (TI.execution_date ti) d ∧ late delta (utcnow s) d) ↔ missed s k.
Proof.
  split.
  - intros (ti & d & delta & [Hti _]%elem_of_filterb & -> & Ha & Hd & Hl). rewrite !andb_true_iff, !bool_decide_eq_true in Hti.
    destruct Hti as [[_ Hin] Hm]. exists (TI.task_id ti), (TI.execution_date ti), d, delta. done.
  - intros (tid & m & d & delta & -> & Hin & Ha & Hm & Hd & Hl). pose proof Hm as Hm'. unfold last_done in Hm'. apply max_date_elem in Hm'.
    apply list_elem_of_fmap in Hm' as (ti & -> & [Hti Hrow]%elem_of_filterb). rewrite !andb_true_iff, !bool_decide_eq_true in Hti.
    destruct Hti as [[Hdag <-] _]. exists ti, d, delta. split_and!; try done. apply elem_of_filterb. split; [|done].
    by rewrite !andb_true_iff, !bool_decide_eq_true.
Qed.
End Misses.

Lemma elem_of_sent_keys rows k : k ∈ sent_keys rows ↔ ∃ r, r ∈ rows ∧ sm_key r = k ∧ notification_sent r = true.
Proof. unfold sent_keys. rewrite list_elem_of_fmap. setoid_rewrite elem_of_filterb. naive_solver. Qed.

(** With distinct keys a row is sent or not. *)
Lemma unsent_keys rows r : NoDup (keys rows) → r ∈ rows → notification_sent r = false → sm_key r ∉ sent_keys rows.
Proof.
  intros Hd Hr Hs (r' & Hr' & Hk & Hs')%elem_of_sent_keys. assert (r' = r); [|congruence].
  apply list_elem_of_lookup in Hr as [i Hi], Hr' as [j Hj]. assert (j = i) as ->; [|congruence].
  eapply NoDup_lookup; [exact Hd| |]; unfold keys; rewrite list_lookup_fmap.
  - by rewrite Hj.
  - rewrite Hi. cbn. by rewrite Hk.
Qed.

(** The misses of a DAG that are not notified yet. *)
Lemma unsent_spec did rows k :
  NoDup (keys rows) →
  k ∈ keys (List.filter (λ r, negb (notification_sent r) && (sm_dag_id r ≟ did)) rows) ↔
  k ∈ keys rows ∧ k.1.2 = did ∧ k ∉ sent_keys rows.
Proof.
  intros Hd. unfold keys at 1. rewrite list_elem_of_fmap. split.
  - intros (r & -> & [Hr Hin]%elem_of_filterb). rewrite andb_true_iff, negb_true_iff, bool_decide_eq_true in Hr. destruct Hr as [Hr <-].
    split_and!; [apply list_elem_of_fmap; by exists r|done|by apply unsent_keys].
  - intros ((r & -> & Hr)%list_elem_of_fmap & Hdag & Hs). exists r. split; [done|]. apply elem_of_filterb. split; [|done].
    rewrite andb_true_iff, negb_true_iff, bool_decide_eq_true. split; [|done]. apply not_true_iff_false. intros E. apply Hs, elem_of_sent_keys. eauto.
Qed.

(** The rows after a notification. *)
Lemma marked_spec did eok rows k :
  let rows' := (λ r, if negb (notification_sent r) && (sm_dag_id r ≟ did)
                     then {| sm_task_id := sm_task_id r; sm_dag_id := sm_dag_id r; sm_execution_date := sm_execution_date r;
                             email_sent := eok; notification_sent := true; timestamp := timestamp r |} else r) <$> rows in
  keys rows' = keys rows ∧
  (k ∈ sent_keys rows' ↔ k ∈ sent_keys rows ∨
     k ∈ keys (List.filter (λ r, negb (notification_sent r) && (sm_dag_id r ≟ did)) rows)).
Proof.
  cbn zeta. split.
  - unfold keys. rewrite <-list_fmap_compose. apply list_fmap_ext. intros i r _. cbn. by destruct (_ && _).
  - rewrite !elem_of_sent_keys. setoid_rewrite list_elem_of_fmap. unfold keys. rewrite ?list_elem_of_fmap. setoid_rewrite elem_of_filterb. split.
    + intros (r' & (r & -> & Hr) & <- & Hs). destruct (negb (notification_sent r) && (sm_dag_id r ≟ did)) eqn:E;
        [right; exists r; by rewrite E|left; by exists r].
    + intros [(r & Hr & <- & Hs)|(r & -> & E & Hr)]; (eexists; split; [by exists r|]).
      * rewrite Hs. done.
      * by rewrite E.
Qed.

(** C26: let every date have a following one in the schedule of the DAG, and let the
    SLAs be durations, of which one at least is set.  The SLA check then ends without
    an error.  What it takes for a miss is, for a task with an SLA that succeeded or
    was skipped at least once: a scheduled date after the last such date and before
    now, whose interval ended longer than the SLA ago.  (A task that was never done
    has no misses, and misses are not limited to the past hour of the docstring.)
    The check records exactly these, and rows are never duplicated or lost.  What it
    reports is exactly what is recorded for the DAG and was not notified before, and
    once a notification went out all of it counts as notified, so that no miss is
    notified twice. *)
Theorem manage_slas_correct cron_schedule dag sla next callback email mailed rows s :
  (∀ now d, following_schedule cron_schedule dag now d = Ok (Some (next d))) → (∀ d, d < next d) →
  (∀ tid, sla tid ≠ SlaOther) → existsb (λ t, is_timedelta (sla (task_id t))) (task_dict dag) = true →
  NoDup (keys rows) →
  ∃ r, manage_slas cron_schedule dag sla callback email mailed rows s = Ok r ∧
    NoDup (keys (sla_rows r)) ∧
    (∀ k, k ∈ keys (sla_rows r) ↔ k ∈ keys rows ∨ missed dag sla next s k) ∧
    (∀ k, k ∈ keys (reported r) ↔ k ∈ keys (sla_rows r) ∧ k.1.2 = dag_id dag ∧ k ∉ sent_keys rows) ∧
    (∀ k, k ∈ sent_keys (sla_rows r) ↔ k ∈ sent_keys rows ∨ notified r = true ∧ k ∈ keys (reported r)).
Proof.
  intros Hnext Hlt Ho Hsome Hd. unfold manage_slas. rewrite Hsome. cbn [negb].
  destruct (check_all_spec cron_schedule dag sla next Hnext Hlt (utcnow s) (max_tis dag s) rows) as (rows1 & -> & G1 & G2 & G3); [|done|].
  { intros ti [Hti _]%elem_of_filterb. rewrite !andb_true_iff, !bool_decide_eq_true in Hti. apply Hti. }
  setoid_rewrite max_tis_missed in G1; [|done..]. specialize (G2 Hd). cbn [mbind result_bind].
  pose proof (λ k, unsent_spec (dag_id dag) rows1 k G2) as Hun. rewrite G3 in Hun.
  set (unsent := λ r, negb (notification_sent r) && (sm_dag_id r ≟ dag_id dag)) in *.
  destruct (List.filter unsent rows1) as [|r0 slas'] eqn:Es.
  - eexists. split; [reflexivity|]. cbn [sla_rows reported notified]. split_and!; [done|done|done|]. intros k. rewrite G3. naive_solver.
  - rewrite <-Es in Hun |- *. eexists. split; [reflexivity|]. cbn [sla_rows reported notified].
    set (eok := negb _ && mailed). destruct (_ || eok).
    + pose proof (λ k, marked_spec (dag_id dag) eok rows1 k) as Hm. cbn zeta in Hm. fold unsent in Hm.
      rewrite (proj1 (Hm ("", "", 0))). split_and!; [done|done|done|]. intros k. rewrite (proj2 (Hm k)), G3. naive_solver.
    + split_and!; [done|done|done|]. intros k. rewrite G3. naive_solver.
Qed.

(** ** A concrete DAG *)

Module SlaSample.
Import Sample.

Definition with_schedule (i : option ScheduleInterval) (g : DAG) : DAG :=
  {| dag_id := dag_id g; task_dict := task_dict g; schedule_interval := i; dag_start_date := dag_start_date g;
     dag_end_date := dag_end_date g; catchup := catchup g; max_active_tasks := max_active_tasks g; max_active_runs := max_active_runs g;
     partial := partial g; fileloc := fileloc g; has_on_success_callback := has_on_success_callback g;
     has_on_failure_callback := has_on_failure_callback g; dagrun_timeout := dagrun_timeout g |}.

(** The diamond every 1000, where [a] has to be done 500 after its interval. *)
Definition hourly : DAG := with_schedule (Some (ScheduleDelta 1000)) diamond.
Definition no_cron : string → Schedule := λ _, DeltaSchedule 1.
Definition a_sla (tid : string) : SlaValue := if tid ≟ "a" then SlaDelta 500 else NoSla.
Definition late_db (st : option TaskInstanceState) : Session :=
  mk_session [mk_ti "diamond" "a" st;
              TI.mk "a" "diamond" 2000 None None None None 1 1 "" None "default_pool" 1 "default" 1 "BashOperator" None None None "" None] [].
Definition old_miss : SlaMiss :=
  {| sm_task_id := "b"; sm_dag_id := "diamond"; sm_execution_date := 0; email_sent := false; notification_sent := true; timestamp := 7 |}.
Abbreviation check st := (manage_slas no_cron hourly a_sla (Some true) (λ _, []) true [old_miss] (late_db st)).

(** Done at 1000, now it is 5000: the runs of 2000 and 3000 are late, that of 4000 is
    not over. *)
Example two_misses :
  (λ r, (keys (reported r), keys (sla_rows r), notified r)) <$> check (Some SUCCESS) =
  Ok ([("a", "diamond", 2000); ("a", "diamond", 3000)],
      [("b", "diamond", 0); ("a", "diamond", 2000); ("a", "diamond", 3000)], true).
Proof. vm_compute. reflexivity. Qed.

Lemma manage_slas_correct_witness :
  ∃ r, check (Some SUCCESS) = Ok r ∧ NoDup (keys (sla_rows r)) ∧
    ∀ k, k ∈ keys (sla_rows r) ↔ k ∈ keys [old_miss] ∨ missed hourly a_sla (λ d, d + 1000) (late_db (Some SUCCESS)) k.
Proof.
  destruct (manage_slas_correct no_cron hourly a_sla (λ d, d + 1000) (Some true) (λ _, []) true [old_miss] (late_db (Some SUCCESS)))
    as (r & Hr & Hn & Hk & _).
  - intros now d. reflexivity.
  - intros d. lia.
  - intros tid. unfold a_sla. by case_bool_decide.
  - by vm_compute.
  - apply (bool_decide_unpack _). by vm_compute.
  - exists r. done.
Defined.

(** A task that was never done has no date to start from, and never misses its SLA. *)
Example never_done_never_missed : (λ r, keys (reported r)) <$> check (Some FAILED) = Ok [].
Proof. vm_compute. reflexivity. Qed.

(** The task instance of 2000 blocks, but its state is NULL, which is not unequal
    to success: it is not among the blocking ones. *)
Example null_state_not_blocking : (λ r, blocking r) <$> check (Some SUCCESS) = Ok [].
Proof. vm_compute. reflexivity. Qed.

(** A DAG that runs once has no following schedule: the check raises. *)
Example once_raises :
  is_ok (manage_slas no_cron (with_schedule (Some (ScheduleCron "@once")) diamond) a_sla None (λ _, []) true [] (late_db (Some SUCCESS))) = false.
Proof. vm_compute. reflexivity. Qed.
End SlaSample.
