(* ===== verification/Sensors.v ===== *)
(** * Sensors: waiting for a condition

    [BaseSensorOperator] ([sensors/base.py]) with its two modes and its backoff, the
    sensors of [external_task.py], [date_time.py], [time_delta.py], [weekday.py] and
    [sql.py], and the life of a sensor that is rescheduled, over [_run_raw_task] and
    the dependency on the reschedule date.

    Durations are in microseconds, where the source has seconds as floats.  What
    a poke answers, how long it takes and how late a sleep ends are arguments; so
    are the hash of the backoff and the callables of the users. *)

From S2P Require Import Prelude State Model Sample Timetable TaskInstance TiDeps Skip.
From stdpp Require Import strings.

Import TiDeps.

Module Sensors.
Local Open Scope Z_scope.

(** ** The operator *)

Record Sensor := {
  poke_interval : timedelta;
  timeout : timedelta;
  soft_fail : bool;
  mode : string;
  exponential_backoff : bool;
}.

Definition valid_modes : list string := ["poke"; "reschedule"].

Definition _validate_input_values (se : Sensor) : result unit :=
  if poke_interval se <? 0 then Err AirflowException
  else if timeout se <? 0 then Err AirflowException
  else if negb (mode se ∈? valid_modes) then Err AirflowException
  else Ok tt.

Definition sensor_init (poke_interval timeout : timedelta) (soft_fail : bool) (mode : string) (exponential_backoff : bool)
    : result Sensor :=
  let se := {| poke_interval := poke_interval; timeout := timeout; soft_fail := soft_fail; mode := mode;
               exponential_backoff := exponential_backoff |} in
  _ ← _validate_input_values se; Ok se.

Definition reschedule (se : Sensor) : bool := mode se ≟ "reschedule".

(** [deps]: [super] are those of the operator. *)
Definition sensor_deps (se : Sensor) (super : list TIDep) : list TIDep :=
  if reschedule se then if ReadyToRescheduleDep ∈? super then super else super ++ [ReadyToRescheduleDep] else super.

(** [prepare_for_execution]. *)
Definition prepare_for_execution (executor : string) (se : Sensor) : Sensor :=
  if executor ≟ "DebugExecutor" then
    {| poke_interval := poke_interval se; timeout := timeout se; soft_fail := soft_fail se; mode := "reschedule";
       exponential_backoff := exponential_backoff se |}
  else se.

(** [is_smart_sensor_compatible]; the callbacks are given by whether they are set. *)
Definition is_smart_sensor_compatible (sensor_service_enabled on_success on_retry on_failure : bool) (operator : string)
    (sensors_support_sensor_service : list string) : bool :=
  if negb sensor_service_enabled || on_success || on_retry || on_failure then false
  else operator ∈? sensors_support_sensor_service.

(** ** Execution *)

(** What happens while the sensor runs, by the number of the poke: its answer, its
    duration, the time between the readings of the clock, and by how much the sleep
    is late. *)
Record World := {
  poke : nat → result bool;
  poke_time : nat → timedelta;
  between : nat → timedelta;
  between' : nat → timedelta;
  oversleep : nat → timedelta;
}.

Definition seconds : Z := 1000000.

Section Execute.
Context (run_hash : datetime → Z → Z) (se : Sensor) (w : World).

Definition _get_next_poke_interval (started_at : datetime) (run_duration : timedelta) (try_number : Z) : result timedelta :=
  if exponential_backoff se then
    let min_backoff := poke_interval se * 2 ^ try_number / (4 * seconds) in
    if min_backoff =? 0 then Err ZeroDivisionError
    else
      let modded_hash := min_backoff + run_hash started_at try_number mod min_backoff in
      let delay_backoff_in_seconds := Z.min modded_hash TaskInstance.timedelta_max_seconds in
      Ok (Z.min (timeout se - run_duration / seconds * seconds) (delay_backoff_in_seconds * seconds))
  else Ok (poke_interval se).

Definition timed_out : exn := if soft_fail se then AirflowSkipException else AirflowSensorTimeout.

(** How the loop of [execute] ended, when, and after how many pokes. *)
Record Ending := { outcome_of_loop : result unit; ended_at : datetime; pokes : nat }.

(** The loop in [poke] mode, before the [n]-th poke; [now] is the clock. *)
Fixpoint poke_loop (fuel : nat) (started_at now : datetime) (n : nat) : Ending :=
  match fuel with
  | O => {| outcome_of_loop := Err OutOfFuel; ended_at := now; pokes := n |}
  | S fuel =>
      let now := now + poke_time w n in
      let ends r := {| outcome_of_loop := r; ended_at := now; pokes := S n |} in
      match poke w n with
      | Err e => ends (Err e)
      | Ok true => ends (Ok tt)
      | Ok false =>
          if timeout se <? now - started_at then ends (Err timed_out)
          else
            let now := now + between w n in
            match _get_next_poke_interval started_at (now - started_at) (Z.of_nat n + 1) with
            | Err e => ends (Err e)
            | Ok i => if i <? 0 then ends (Err ValueError)                        (* time.sleep *)
                      else poke_loop fuel started_at (now + i + oversleep w n) (S n)
            end
      end
  end.

(** [isinstance(e, AirflowException)]. *)
Definition is_airflow_exception (e : exn) : bool :=
  match e with
  | KeyError | IndexError | TypeError | ValueError | AttributeError | ZeroDivisionError | OverflowError
  | NotImplementedError | AssertionError | RuntimeError | DBAPIError | OutOfFuel => false
  | _ => true
  end.

(** The handlers of [_run_raw_task] for an exception without data. *)
Definition outcome_of (e : exn) : TaskInstance.Outcome :=
  match e with
  | AirflowSkipException => TaskInstance.AirflowSkipException
  | AirflowFailException | AirflowSensorTimeout => TaskInstance.AirflowFailException
  | _ => if is_airflow_exception e then TaskInstance.OtherAirflowException else TaskInstance.OtherException
  end.

(** The database at a later time. *)
Definition with_utcnow (now : datetime) (s : Session) : Session :=
  {| task_instance := task_instance s; dag_run := dag_run s; dag_model := dag_model s; slot_pool := slot_pool s;
     task_reschedule := task_reschedule s; xcom := xcom s; job := job s; utcnow := now |}.

(** [TaskReschedule.find_for_task_instance(ti, try_number=n)]. *)
Definition find_for_task_instance (ti : TaskInstance) (n : Z) (s : Session) : list TaskReschedule :=
  py_sorted (λ a b, TR.id a <=? TR.id b)
    (List.filter (λ r, (TR.dag_id r ≟ TI.dag_id ti) && (TR.task_id r ≟ TI.task_id ti) &&
                       (TR.execution_date r ≟ TI.execution_date ti) && (TR.try_number r ≟ n)) (task_reschedule s)).

(** One execution in [reschedule] mode. *)
Definition execute_reschedule (retries : Z) (ti : TaskInstance) (s : Session) : TaskInstance.Outcome * datetime :=
  let first_try_number := TI.max_tries ti - retries + 1 in
  let started_at := match head (find_for_task_instance ti first_try_number s) with
                    | Some r => TR.start_date r
                    | None => utcnow s
                    end in
  let now := utcnow s + poke_time w 0 in
  match poke w 0 with
  | Err e => (outcome_of e, now)
  | Ok true => (TaskInstance.Completed, now)
  | Ok false =>
      if timeout se <? now - started_at then (outcome_of timed_out, now)
      else
        let now := now + between w 0 in
        let now' := now + between' w 0 in
        match _get_next_poke_interval started_at (now' - started_at) 1 with
        | Err e => (outcome_of e, now')
        | Ok i => (TaskInstance.AirflowRescheduleException (now + i), now')
        end
  end.

(** [execute], on the task instance of the context. *)
Definition sensor_execute (fuel : nat) (retries : Z) (ti : TaskInstance) (s : Session)
    : TaskInstance.Outcome * TaskInstance * Session :=
  if reschedule se then
    let '(o, now) := execute_reschedule retries ti s in (o, ti, with_utcnow now s)
  else
    let e := poke_loop fuel (utcnow s) (utcnow s) 0 in
    (match outcome_of_loop e with Ok _ => TaskInstance.Completed | Err x => outcome_of x end, ti, with_utcnow (ended_at e) s).
End Execute.

(** ** The external task sensor *)

(** The states are strings, or [None]. *)
Record ExternalTaskSensor := {
  external_dag_id : string;
  external_task_id : option string;
  allowed_states : list (option string);
  failed_states : list (option string);
  execution_delta : option timedelta;
  execution_date_fn : option (datetime → list datetime);
  check_existence : bool;
}.

Definition task_state_values : list (option string) := map (λ st : option TaskInstanceState, TaskInstanceState_value <$> st) State.task_states.
Definition dag_state_values : list (option string) := map (λ st, Some (DagRunState_value st)) State.dag_states.

(** The truth of an optional string. *)
Definition truthy (x : option string) : bool := match x with Some v => negb (v ≟ "") | None => false end.

Definition external_task_sensor_init (external_dag_id : string) (external_task_id : option string)
    (allowed failed : list (option string)) (delta : option timedelta) (date_fn : option (datetime → list datetime))
    (check_existence : bool) : result ExternalTaskSensor :=
  let allowed_states := match allowed with [] => [Some "success"] | _ => allowed end in
  let total_states := allowed_states ++ failed in
  let valid := if truthy external_task_id then task_state_values else dag_state_values in
  if existsb (λ st, st ∈? allowed_states) failed then Err AirflowException
  else if negb (forallb (λ st, st ∈? valid) total_states) then Err ValueError
  else match delta, date_fn with
  | Some _, Some _ => Err ValueError
  | _, _ =>
      Ok {| external_dag_id := external_dag_id; external_task_id := external_task_id; allowed_states := allowed_states;
            failed_states := failed; execution_delta := delta; execution_date_fn := date_fn; check_existence := check_existence |}
  end.

Section External.
Context (path_exists : string → bool)                       (* os.path.exists *)
        (dagbag_get_dag : string → string → option DAG).    (* DagBag(fileloc).get_dag(dag_id) *)
Context (x : ExternalTaskSensor).

Definition get_count (dttm_filter : list datetime) (states : list (option string)) (s : Session) : Z :=
  match external_task_id x with
  | Some tid =>
      if negb (tid ≟ "") then
        countb (λ t, (TI.dag_id t ≟ external_dag_id x) && (TI.task_id t ≟ tid) &&
                     match TI.state t with Some st => Some (TaskInstanceState_value st) ∈? states | None => false end &&
                     (TI.execution_date t ∈? dttm_filter)) (task_instance s)
      else
        countb (λ r, (DR.dag_id r ≟ external_dag_id x) && (Some (DagRunState_value (DR._state r)) ∈? states) &&
                     (DR.execution_date r ∈? dttm_filter)) (dag_run s)
  | None =>
      countb (λ r, (DR.dag_id r ≟ external_dag_id x) && (Some (DagRunState_value (DR._state r)) ∈? states) &&
                   (DR.execution_date r ∈? dttm_filter)) (dag_run s)
  end.

Definition _check_for_existence (s : Session) : result unit :=
  match List.find (λ dm, dm_dag_id dm ≟ external_dag_id x) (dag_model s) with
  | None => Err AirflowException
  | Some dag_to_wait =>
      if negb (path_exists (dm_fileloc dag_to_wait)) then Err AirflowException
      else if truthy (external_task_id x) then
        match dagbag_get_dag (dm_fileloc dag_to_wait) (external_dag_id x) with
        | None => Err AttributeError
        | Some dag => if bool_decide (is_Some (lookup_task dag (default "" (external_task_id x)))) then Ok tt else Err AirflowException
        end
      else Ok tt
  end.

(** The dates to look at. *)
Definition dttm_filter (execution_date : datetime) : list datetime :=
  match execution_delta x, execution_date_fn x with
  | Some d, _ => if negb (d =? 0) then [execution_date - d]
                 else match execution_date_fn x with Some f => f execution_date | None => [execution_date] end
  | None, Some f => f execution_date
  | None, None => [execution_date]
  end.

(** [poke]; [checked] is [_has_checked_existence], and returned. *)
Definition external_poke (execution_date : datetime) (checked : bool) (s : Session) : result bool * bool :=
  let dttm_filter := dttm_filter execution_date in
  match (if check_existence x && negb checked then _check_for_existence s else Ok tt) with
  | Err e => (Err e, checked)
  | Ok _ =>
      let checked := checked || check_existence x in
      let count_allowed := get_count dttm_filter (allowed_states x) s in
      let count_failed := match failed_states x with [] => -1 | _ => get_count dttm_filter (failed_states x) s end in
      if count_failed =? Z.of_nat (length dttm_filter) then (Err AirflowException, checked)
      else (Ok (count_allowed =? Z.of_nat (length dttm_filter)), checked)
  end.
End External.

(** ** The other sensors *)

Definition datetime_poke (target_time now : datetime) : bool := target_time <? now.

(** [TimeDeltaSensor.poke]: [None += delta] is an error. *)
Definition time_delta_poke (cron_schedule : string → Timetable.Schedule) (dag : DAG) (delta : timedelta)
    (execution_date now : datetime) : result bool :=
  following ← Timetable.following_schedule cron_schedule dag now execution_date;
  match following with
  | None => Err TypeError
  | Some target_dttm => Ok (target_dttm + delta <? now)
  end.

Definition day_of_week_poke (week_day_num : list Z) (use_task_execution_day : bool) (execution_date now : datetime) : bool :=
  Skip.isoweekday (if use_task_execution_day then execution_date else now) ∈? week_day_num.

(** A criterion of [SqlSensor]: absent, a callable or something else. *)
Inductive Criterion (Cell : Type) := NoCriterion | Callable (f : Cell → bool) | NotCallable.
Arguments NoCriterion {Cell}.
Arguments Callable {Cell} f.
Arguments NotCallable {Cell}.

Definition sql_poke {Cell} (truth : Cell → bool) (success failure : Criterion Cell) (fail_on_empty : bool)
    (records : list (list Cell)) : result bool :=
  match records with
  | [] => if fail_on_empty then Err AirflowException else Ok false
  | [] :: _ => Err IndexError
  | (first_cell :: _) :: _ =>
      _ ← match failure with
          | NoCriterion => Ok tt
          | Callable f => if f first_cell then Err AirflowException else Ok tt
          | NotCallable => Err AirflowException
          end;
      match success with
      | Callable f => Ok (f first_cell)
      | NotCallable => Err AirflowException
      | NoCriterion => Ok (truth first_cell)
      end
  end.

(** ** The life of a sensor in [reschedule] mode *)

Section Life.
Context (run_hash : datetime → Z → Z) (se : Sensor) (dag : DAG) (task : BaseOperator) (hostname : string) (pid : Z).

(** An attempt, once its dependencies are met: [check_and_change_state_before_execution]
    and [_run_raw_task]. *)
Definition attempt (w : World) (ti : TaskInstance) (s : Session) : result (TaskInstance.Exit * TaskInstance * Session) :=
  let ti := TaskInstance.begin_attempt ti in
  TaskInstance.run_raw_task hostname pid (sensor_execute run_hash se w 0 (retries task)) dag task false false None None ti
    (merge_ti ti s).

(** The scheduler queues a task instance that is up for reschedule once its date is
    reached, and an attempt starts later. *)
Definition next_attempt (w : World) (c : DepContext) (checked_at starts_at : datetime) (ti : TaskInstance) (s : Session)
    : result (TaskInstance.Exit * TaskInstance * Session) :=
  if forallb passed (ready_to_reschedule_statuses ti c (with_utcnow checked_at s)) then
    let ti := TI.set_state (Some QUEUED) ti in attempt w ti (merge_ti ti (with_utcnow starts_at s))
  else Err AssertionError.
End Life.
End Sensors.
Import Sensors TaskInstance.
Local Open Scope Z_scope.

(** ** The loop of the [poke] mode *)

(** Time does not go back. *)
Record world_ok (w : World) : Prop := {
  poke_time_ok : ∀ n, 0 ≤ poke_time w n;
  between_ok : ∀ n, 0 ≤ between w n;
  between'_ok : ∀ n, 0 ≤ between' w n;
  oversleep_ok : ∀ n, 0 ≤ oversleep w n;
}.

Section PokeMode.
Context (run_hash : datetime → Z → Z) (se : Sensor) (w : World).
Context (Hse : _validate_input_values se = Ok tt) (Hw : world_ok w).

Lemma validated : 0 ≤ poke_interval se ∧ 0 ≤ timeout se ∧ mode se ∈ valid_modes.
Proof.
  revert Hse. unfold _validate_input_values. destruct (_ <? 0) eqn:E1; [done|]. destruct (timeout se <? 0) eqn:E2; [done|].
  destruct (mode se ∈? valid_modes) eqn:E3; [|done]. apply bool_decide_eq_true in E3. intros _. split; [lia|]. split; [lia|done].
Qed.

(** What [_get_next_poke_interval] returns. *)
Lemma next_interval_spec started run n :
  0 ≤ run →
  match _get_next_poke_interval run_hash se started run (Z.of_nat n + 1) with
  | Err e => e = ZeroDivisionError ∧ exponential_backoff se = true ∧ poke_interval se < 2 * seconds
  | Ok i => (exponential_backoff se = false → i = poke_interval se) ∧
            (i < 0 → exponential_backoff se = true ∧ timeout se < run)
  end.
Proof.
  intros Hrun. unfold _get_next_poke_interval. destruct validated as (Hp & Ht & _).
  destruct (exponential_backoff se); [|split; [done|lia]].
  set (mb := _ / _). assert (0 ≤ mb) as Hmb.
  { apply Z.div_pos; [|unfold seconds; lia]. apply Z.mul_nonneg_nonneg; [done|]. apply Z.pow_nonneg. lia. }
  destruct (mb =? 0) eqn:E.
  - split_and!; [done..|]. apply Z.eqb_eq in E. unfold mb in E. apply Z.div_small_iff in E; [|unfold seconds; lia].
    rewrite Z.pow_add_r in E by lia. assert (0 < 2 ^ Z.of_nat n) by (apply Z.pow_pos_nonneg; lia). unfold seconds in *. nia.
  - split; [done|]. intros Hi. split; [done|]. assert (0 ≤ run_hash started (Z.of_nat n + 1) mod mb) by (apply Z.mod_pos_bound; lia).
    pose proof (Z.mul_div_le run seconds ltac:(unfold seconds; lia)).
    unfold timedelta_max_seconds, seconds in *. lia.
Qed.

(** The ways the loop ends, at the [n]-th poke: only the exponential backoff adds
    errors to the timeout. *)
Definition ends_well (started : datetime) (n : nat) (e : Ending) : Prop :=
  match poke w n with
  | Ok true => outcome_of_loop e = Ok tt
  | Err x => outcome_of_loop e = Err x
  | Ok false =>
      let times_out := outcome_of_loop e = Err (timed_out se) ∧ timeout se < ended_at e - started in
      if exponential_backoff se then
        times_out ∨ (outcome_of_loop e = Err ZeroDivisionError ∧ poke_interval se < 2 * seconds) ∨
        (outcome_of_loop e = Err ValueError ∧ 0 < between w n)
      else times_out
  end.

Lemma poke_loop_ends δ fuel started now n :
  0 < δ → (∀ k, δ ≤ poke_time w k + (if exponential_backoff se then 0 else poke_interval se)) →
  started + Z.of_nat n * δ ≤ now → (Z.of_nat n - 1) * δ ≤ timeout se →
  timeout se / δ + 2 ≤ Z.of_nat (fuel + n) →
  let e := poke_loop run_hash se w fuel started now n in
  ∃ k, pokes e = S k ∧ (n ≤ k)%nat ∧ Z.of_nat (S k) ≤ timeout se / δ + 2 ∧
    (∀ j, (n ≤ j < k)%nat → poke w j = Ok false) ∧ ends_well started k e.
Proof.
  intros Hδ Hstep. destruct validated as (Hp & Ht & _). revert now n. induction fuel as [|fuel IH]; intros now n Hnow Hn Hfuel; cbn zeta.
  { assert (Z.of_nat n - 1 ≤ timeout se / δ) by (apply Z.div_le_lower_bound; [done|nia]). lia. }
  cbn [poke_loop]. assert (Z.of_nat n - 1 ≤ timeout se / δ) as Hle by (apply Z.div_le_lower_bound; [done|nia]).
  assert (∀ e, pokes e = S n → ends_well started n e →
    ∃ k, pokes e = S k ∧ (n ≤ k)%nat ∧ Z.of_nat (S k) ≤ timeout se / δ + 2 ∧
      (∀ j, (n ≤ j < k)%nat → poke w j = Ok false) ∧ ends_well started k e) as Hend.
  { intros e He Hw'. exists n. split_and!; [done|lia|lia|lia|done]. }
  destruct (poke w n) as [[]|x] eqn:Epoke; [apply Hend; [done|]; unfold ends_well; by rewrite Epoke| |
    apply Hend; [done|]; unfold ends_well; by rewrite Epoke].
  pose proof (poke_time_ok _ Hw n). pose proof (between_ok _ Hw n). pose proof (oversleep_ok _ Hw n).
  assert (0 ≤ Z.of_nat n * δ) by lia.
  destruct (timeout se <? _) eqn:Eto.
  { apply Hend; [done|]. unfold ends_well. rewrite Epoke. cbv zeta. assert (timeout se < now + poke_time w n - started) by lia.
    destruct (exponential_backoff se); [left|]; by split. }
  apply Z.ltb_ge in Eto. pose proof (next_interval_spec started (now + poke_time w n + between w n - started) n ltac:(lia)) as Hint.
  destruct (_get_next_poke_interval _ _ _ _ _) as [i|x].
  - destruct (i <? 0) eqn:Ei.
    + apply Z.ltb_lt in Ei. destruct Hint as [_ Hint]. destruct (Hint Ei) as [Hx ?]. apply Hend; [done|]. unfold ends_well. rewrite Epoke, Hx.
      right. right. split; [done|lia].
    + apply Z.ltb_ge in Ei. destruct (IH (now + poke_time w n + between w n + i + oversleep w n) (S n)) as (k & Hk & Hnk & Hb & Hf & He).
      * specialize (Hstep n). destruct (exponential_backoff se); [lia|]. destruct Hint as [Hi' _]. rewrite Hi' in * by done. lia.
      * lia.
      * lia.
      * exists k. split_and!; [done|lia|done| |done]. intros j Hj. destruct (decide (j = n)) as [->|]; [done|]. apply Hf. lia.
  - destruct Hint as (-> & Hx & Hi). apply Hend; [done|]. unfold ends_well. rewrite Epoke, Hx. right. by left.
Qed.
End PokeMode.

(** C37: a sensor in [poke] mode whose arguments the constructor accepts ends,
    whatever its pokes answer: if each round takes at least [δ > 0] (the poke, and
    without exponential backoff the interval), after at most [timeout / δ + 2] pokes.
    It succeeds at the first poke that is true and lets the exception of a poke
    through.  Otherwise, without exponential backoff, it times out, later than
    [timeout] after its start.  With exponential backoff it either times out in this
    way, or ends with a [ZeroDivisionError] of the backoff, which needs a poke
    interval under two seconds, or with a [ValueError] of [time.sleep], which needs
    the clock to move on between its two readings. *)
Theorem poke_sensor_ends run_hash se w now δ fuel :
  _validate_input_values se = Ok tt → world_ok w → 0 < δ →
  (∀ n, δ ≤ poke_time w n + (if exponential_backoff se then 0 else poke_interval se)) →
  timeout se / δ + 2 ≤ Z.of_nat fuel →
  let e := poke_loop run_hash se w fuel now now 0 in
  ∃ k, pokes e = S k ∧ Z.of_nat (pokes e) ≤ timeout se / δ + 2 ∧
    (∀ j, (j < k)%nat → poke w j = Ok false) ∧ ends_well se w now k e.
Proof.
  intros Hse Hw Hδ Hstep Hfuel e. destruct (validated se Hse) as (_ & Ht & _).
  destruct (poke_loop_ends run_hash se w Hse Hw δ fuel now now 0) as (k & Hk & _ & Hb & Hf & He); try done; try lia.
  exists k. fold e in Hk, He. rewrite Hk. split_and!; [done|done| |done]. intros j Hj. apply Hf. lia.
Qed.

(** ** The life of a sensor in [reschedule] mode *)

Lemma merge_ti_keeps t s : task_reschedule (merge_ti t s) = task_reschedule s ∧ utcnow (merge_ti t s) = utcnow s.
Proof. unfold merge_ti. by destruct (existsb _ _). Qed.

(** The reschedule requests of the [n]-th try of a task instance. *)
Definition of_try (k : string * string * datetime) (n : Z) (r : TaskReschedule) : Prop :=
  (TR.dag_id r, TR.task_id r, TR.execution_date r) = k ∧ TR.try_number r = n.

Definition row_key (ti : TaskInstance) : string * string * datetime := (TI.dag_id ti, TI.task_id ti, TI.execution_date ti).

Lemma of_try_spec ti n r :
  (TR.dag_id r ≟ TI.dag_id ti) && (TR.task_id r ≟ TI.task_id ti) && (TR.execution_date r ≟ TI.execution_date ti) &&
    (TR.try_number r ≟ n) = true ↔ of_try (row_key ti) n r.
Proof. unfold of_try, row_key. rewrite !andb_true_iff, !bool_decide_eq_true. split; [by intros [[[-> ->] ->] ->]|by intros [[= -> -> ->] ->]]. Qed.

(** The first and the last request of a try. *)
Definition first_request (k : string * string * datetime) (n : Z) (s : Session) (r : TaskReschedule) : Prop :=
  r ∈ task_reschedule s ∧ of_try k n r ∧ ∀ r', r' ∈ task_reschedule s → of_try k n r' → TR.id r' ≤ TR.id r → r' = r.
Definition last_request (k : string * string * datetime) (n : Z) (s : Session) (r : TaskReschedule) : Prop :=
  r ∈ task_reschedule s ∧ of_try k n r ∧ ∀ r', r' ∈ task_reschedule s → of_try k n r' → TR.id r ≤ TR.id r' → r' = r.

Lemma first_request_found ti n s r :
  first_request (row_key ti) n s r → head (find_for_task_instance ti n s) = Some r.
Proof.
  intros (Hr & Hk & Hmin). apply head_py_sorted; [intros; cbv beta; lia|intros; cbv beta in *; lia| |].
  - apply elem_of_filterb. by rewrite of_try_spec.
  - intros y [Hy1%of_try_spec Hy2]%elem_of_filterb Hle. apply Hmin; [done..|]. cbv beta in Hle. lia.
Qed.

Lemma no_request_found ti n s :
  (∀ r, r ∈ task_reschedule s → ¬ of_try (row_key ti) n r) → find_for_task_instance ti n s = [].
Proof.
  intros Hno. unfold find_for_task_instance. rewrite filterb_none; [done|]. intros r Hr.
  apply not_true_iff_false. rewrite of_try_spec. by apply Hno.
Qed.

Lemma last_request_found ti s r :
  last_request (row_key ti) (try_number ti) s r → head (query_for_task_instance ti true s) = Some r.
Proof.
  intros (Hr & Hk & Hmax). apply head_py_sorted; [intros; cbv beta; lia|intros; cbv beta in *; lia| |].
  - apply elem_of_filterb. by rewrite of_try_spec.
  - intros y [Hy1%of_try_spec Hy2]%elem_of_filterb Hle. apply Hmax; [done..|]. cbv beta iota in Hle. lia.
Qed.

Section RescheduleMode.
Context (run_hash : datetime → Z → Z) (se : Sensor) (dag : DAG) (task : BaseOperator) (hostname : string) (pid : Z).
Context (Hse : _validate_input_values se = Ok tt) (Hmode : reschedule se = true) (Hplain : exponential_backoff se = false).
Abbreviation attempt := (attempt run_hash se dag task hostname pid).

(** The date from which the timeout of an attempt counts. *)
Definition counts_from (ti : TaskInstance) (s : Session) : datetime :=
  match head (find_for_task_instance ti (TI.max_tries ti - retries task + 1) s) with
  | Some r => TR.start_date r
  | None => utcnow s
  end.

(** The task instance as the operator sees it, and the database. *)
Lemma attempt_object ti s ti1 :
  refresh_from_task dag task None (begin_attempt ti) = Ok ti1 →
  let s0 := merge_ti (begin_attempt ti) s in
  let ti2 := TI.set_job hostname None (Some pid) (refresh_from_db ti1 s0) in
  row_key ti2 = row_key ti ∧ TI.max_tries ti2 = TI.max_tries ti ∧ TI._try_number ti2 = TI._try_number ti + 1 ∧
  TI.state ti2 = Some RUNNING.
Proof.
  unfold refresh_from_task. intros (wt & _ & [= <-])%result_bind_ok. cbn zeta. unfold refresh_from_db.
  change (TI.primary (TI.set_from_task _ _ _ _ _ _ _ (begin_attempt ti))) with (TI.primary (begin_attempt ti)).
  by rewrite find_merge_ti.
Qed.

Lemma refresh_same ti s now :
  let ti' := refresh_from_db ti (with_utcnow now (merge_ti ti s)) in
  row_key ti' = row_key ti ∧ TI.max_tries ti' = TI.max_tries ti ∧ TI._try_number ti' = TI._try_number ti ∧
  TI.state ti' = TI.state ti ∧ TI.primary ti' = TI.primary ti.
Proof.
  cbn zeta. unfold refresh_from_db. change (find_ti (TI.primary ti) (with_utcnow now (merge_ti ti s))) with (find_ti (TI.primary ti) (merge_ti ti s)).
  by rewrite find_merge_ti.
Qed.

Lemma handle_reschedule_spec start d ti s :
  TI.state ti = Some RUNNING →
  let '(ti', s') := handle_reschedule start d false ti s in
  TI.state ti' = Some UP_FOR_RESCHEDULE ∧ row_key ti' = row_key ti ∧ TI.max_tries ti' = TI.max_tries ti ∧
  TI._try_number ti' = TI._try_number ti - 1 ∧ utcnow s' = utcnow s ∧
  ∃ r, task_reschedule s' = task_reschedule s ++ [r] ∧ of_try (row_key ti) (TI._try_number ti) r ∧
    (∀ r', r' ∈ task_reschedule s → TR.id r' < TR.id r) ∧ TR.start_date r = start ∧ TR.reschedule_date r = d.
Proof.
  intros Hrun. unfold handle_reschedule. cbn zeta. set (t0 := TI.set_dates _ _ _ ti).
  destruct (set_duration_fields t0) as (E1 & E2 & E3 & E4). injection E4 as Ed Et Ee.
  set (row := {| TR.id := _ |}). set (ti' := TI.set_tries _ _ _).
  destruct (merge_ti_keeps ti' (with_task_reschedule (task_reschedule s ++ [row]) s)) as [-> ->].
  assert (row_key (set_duration t0) = row_key ti) as Hk by (unfold row_key; congruence).
  split_and!; [done|exact Hk|exact E3|change (TI._try_number (set_duration t0) - 1 = TI._try_number ti - 1); by rewrite E2|done|]. exists row. split_and!; [done| | |done|done].
  - split; [exact Hk|exact E2].
  - intros r' Hr'. by apply next_reschedule_id_fresh.
Qed.

Lemma Ok_inj {A} (a b : A) : Ok a = Ok b → a = b.
Proof. by intros [= ->]. Qed.

(** What the handlers of [_run_raw_task] leave, by the outcome of the operator. *)
Definition after_outcome (o : Outcome) (start : datetime) (ti : TaskInstance) (s : Session) (ti' : TaskInstance) (s' : Session) : Prop :=
  row_key ti' = row_key ti ∧ TI.max_tries ti' = TI.max_tries ti ∧
  match o with
  | Completed => TI.state ti' = Some SUCCESS
  | AirflowSkipException => TI.state ti' = Some SKIPPED
  | AirflowFailException => TI.state ti' = Some FAILED
  | AirflowSmartSensorException => True
  | OtherAirflowException | OtherException => TI.state ti' ∈ [Some FAILED; Some UP_FOR_RETRY]
  | AirflowRescheduleException d =>
      TI.state ti' = Some UP_FOR_RESCHEDULE ∧ TI._try_number ti' = TI._try_number ti - 1 ∧ utcnow s' = utcnow s ∧
      ∃ r, task_reschedule s' = task_reschedule s ++ [r] ∧ of_try (row_key ti) (TI._try_number ti) r ∧
        (∀ r', r' ∈ task_reschedule s → TR.id r' < TR.id r) ∧ TR.start_date r = start ∧ TR.reschedule_date r = d
  end.

Lemma row_key_primary ti ti' : TI.primary ti' = TI.primary ti → row_key ti' = row_key ti.
Proof. unfold TI.primary, row_key. congruence. Qed.

Lemma finish_spec st ed ti :
  let t := TI.set_state (Some st) ti in
  let ti' := set_duration (TI.set_dates (TI.start_date t) ed (TI.duration t) t) in
  row_key ti' = row_key ti ∧ TI.max_tries ti' = TI.max_tries ti ∧ TI.state ti' = Some st.
Proof.
  cbn zeta. set (t0 := TI.set_dates _ _ _ _). destruct (set_duration_fields t0) as (E1 & _ & E3 & E4).
  rewrite E1, E3. split_and!; [|done|done]. exact (row_key_primary _ _ E4).
Qed.

Lemma failure_spec ff ti s ti' s' :
  handle_failure task false ff ti s = (ti', s') →
  row_key ti' = row_key ti ∧ TI.max_tries ti' = TI.max_tries ti ∧ TI.state ti' ∈ [Some FAILED; Some UP_FOR_RETRY] ∧
  (ff = true → TI.state ti' = Some FAILED).
Proof.
  intros E. destruct (handle_failure_fields task false ff ti s) as (_ & Hm & Hp & Hst). rewrite E in *. cbn [fst] in *.
  rewrite Hst, Hm. split_and!; [by apply row_key_primary|done| |by intros ->].
  destruct (_ || _); set_solver.
Qed.

(** What an attempt leaves behind, by the answer of its poke. *)
Lemma attempt_cases w ti s x ti' s' :
  attempt w ti s = Ok (x, ti', s') →
  row_key ti' = row_key ti ∧ TI.max_tries ti' = TI.max_tries ti ∧
  match poke w 0 with
  | Ok true => TI.state ti' = Some SUCCESS
  | Err _ => TI.state ti' ∈ [Some SKIPPED; Some FAILED; Some UP_FOR_RETRY]
  | Ok false =>
      let now := utcnow s + poke_time w 0 in
      if timeout se <? now - counts_from ti s then TI.state ti' = Some (if soft_fail se then SKIPPED else FAILED)
      else
        TI.state ti' = Some UP_FOR_RESCHEDULE ∧ TI._try_number ti' = TI._try_number ti ∧
        utcnow s' = now + between w 0 + between' w 0 ∧
        ∃ r, task_reschedule s' = task_reschedule s ++ [r] ∧ of_try (row_key ti) (TI._try_number ti + 1) r ∧
          (∀ r', r' ∈ task_reschedule s → TR.id r' < TR.id r) ∧ TR.start_date r = utcnow s ∧
          TR.reschedule_date r = now + between w 0 + poke_interval se
  end.
Proof.
  unfold Sensors.attempt, run_raw_task, sensor_execute. rewrite Hmode. intros (ti1 & H1 & Hrun)%result_bind_ok.
  cbn beta iota zeta in Hrun. apply (attempt_object ti s) in H1 as (Hk2 & Hm2 & Hn2 & Hst2). revert Hrun Hk2 Hm2 Hn2 Hst2.
  set (s0 := merge_ti (begin_attempt ti) s). generalize (TI.set_job hostname None (Some pid) (refresh_from_db ti1 s0)).
  intros ti2 Hrun Hk2 Hm2 Hn2 Hst2. set (s1 := merge_ti ti2 s0) in *.
  assert (task_reschedule s1 = task_reschedule s ∧ utcnow s1 = utcnow s) as [Htr Hnow].
  { subst s1 s0. destruct (merge_ti_keeps ti2 (merge_ti (begin_attempt ti) s)) as [-> ->]. apply merge_ti_keeps. }
  destruct (execute_reschedule run_hash se w (retries task) ti2 s1) as [o now] eqn:Eo.
  assert (after_outcome o (utcnow s) ti2 (with_utcnow now s1) ti' s') as Hafter.
  { destruct (refresh_same ti2 s0 now) as (Hk3 & Hm3 & Hn3 & Hst3 & _). fold s1 in Hk3, Hm3, Hn3, Hst3.
    apply Ok_inj in Hrun. revert Hrun Hk3 Hm3 Hn3 Hst3. rewrite Hnow. generalize (refresh_from_db ti2 (with_utcnow now s1)).
    intros ti3 Hrun Hk3 Hm3 Hn3 Hst3. unfold after_outcome. rewrite <-Hk3, <-Hm3, <-Hn3. destruct o.
    - injection Hrun as _ <- _. apply finish_spec.
    - by injection Hrun as _ <- _.
    - injection Hrun as _ <- _. apply finish_spec.
    - assert (TI.state ti3 = Some RUNNING) as Hrun3 by congruence.
      pose proof (handle_reschedule_spec (utcnow s) reschedule_date ti3 (with_utcnow now s1) Hrun3) as Hh. revert Hh Hrun.
      destruct (handle_reschedule _ _ _ _ _) as [ti4 s4]. intros Hh Hrun. injection Hrun as _ <- <-.
      destruct Hh as (? & ? & ? & ? & ? & ?). by split_and!.
    - destruct (handle_failure _ _ _ _ _) as [ti4 s4] eqn:E. injection Hrun as _ <- _. apply failure_spec in E as (? & ? & ? & ?).
      split_and!; auto.
    - rewrite Hst3, Hst2, bool_decide_eq_false_2 in Hrun by set_solver.
      destruct (handle_failure _ _ _ _ _) as [ti4 s4] eqn:E. injection Hrun as _ <- _. apply failure_spec in E as (? & ? & ? & ?).
      split_and!; auto.
    - destruct (handle_failure _ _ _ _ _) as [ti4 s4] eqn:E. injection Hrun as _ <- _. apply failure_spec in E as (? & ? & ? & ?).
      rewrite Hk3, Hm3. split_and!; auto. }
  destruct Hafter as (Hk & Hm & Ho). rewrite Hk, Hm. split; [done|]. split; [done|]. revert Ho Eo. unfold execute_reschedule.
  assert (match head (find_for_task_instance ti2 (TI.max_tries ti2 - retries task + 1) s1) with
          | Some r => TR.start_date r | None => utcnow s1 end = counts_from ti s) as ->.
  { unfold counts_from, find_for_task_instance. injection Hk2 as -> -> ->. by rewrite Hm2, Htr, Hnow. }
  rewrite Hnow. intros Ho. destruct (poke w 0) as [[]|e].
  - intros [= <- <-]. exact Ho.
  - destruct (timeout se <? _) eqn:Eto.
    + intros [= <- <-]. unfold timed_out in Ho. by destruct (soft_fail se).
    + unfold _get_next_poke_interval. rewrite Hplain. intros [= <- <-]. cbn in Ho.
      rewrite Hn2, Hk2, Htr in Ho. destruct Ho as (H1 & H2 & H3 & H4). split_and!; [done|lia|done|].
      destruct H4 as (r & Hr). by exists r.
  - intros [= <- <-]. unfold outcome_of in Ho. destruct e; cbn in Ho; set_solver.
Qed.

(** A task instance that waits after [k] reschedules of its first try, which
    started at [started]; other tasks may have rows of their own. *)
Inductive waiting (started : datetime) : nat → TaskInstance → Session → Prop :=
| wait_first w ti s x ti' s' :
    world_ok w → utcnow s = started → TI._try_number ti = TI.max_tries ti - retries task →
    (∀ r, r ∈ task_reschedule s → ¬ of_try (row_key ti) (TI._try_number ti + 1) r) →
    attempt w ti s = Ok (x, ti', s') → TI.state ti' = Some UP_FOR_RESCHEDULE → waiting started 1 ti' s'
| wait_next k w c checked_at starts_at ti s x ti' s' :
    waiting started k ti s → world_ok w → ignore_in_reschedule_period c = false → checked_at ≤ starts_at →
    next_attempt run_hash se dag task hostname pid w c checked_at starts_at ti s = Ok (x, ti', s') →
    TI.state ti' = Some UP_FOR_RESCHEDULE → waiting started (S k) ti' s'.

(** What the database holds for such a task instance. *)
Record wait_ok (started : datetime) (k : nat) (ti : TaskInstance) (s : Session) : Prop := {
  wait_state : TI.state ti = Some UP_FOR_RESCHEDULE;
  wait_try : TI._try_number ti = TI.max_tries ti - retries task;
  wait_start : ∃ r, first_request (row_key ti) (TI._try_number ti + 1) s r ∧ TR.start_date r = started;
  wait_date : ∃ r, last_request (row_key ti) (TI._try_number ti + 1) s r ∧
                   started + Z.of_nat k * poke_interval se ≤ TR.reschedule_date r;
  wait_bound : (Z.of_nat k - 1) * poke_interval se ≤ timeout se;
}.

Lemma last_request_app k n s s' r :
  task_reschedule s' = task_reschedule s ++ [r] → of_try k n r → (∀ r', r' ∈ task_reschedule s → TR.id r' < TR.id r) →
  last_request k n s' r.
Proof.
  intros E Hr Hid. split_and!; [rewrite E; set_solver|done|]. intros r'. rewrite E.
  intros [Hin|Hx%list_elem_of_singleton]%elem_of_app _ Hle; [|done]. specialize (Hid r' Hin). lia.
Qed.

Lemma first_request_app k n s s' r r0 :
  task_reschedule s' = task_reschedule s ++ [r] → (∀ r', r' ∈ task_reschedule s → TR.id r' < TR.id r) →
  first_request k n s r0 → first_request k n s' r0.
Proof.
  intros E Hid (H0 & Hk0 & Hmin). split_and!; [rewrite E; set_solver|done|]. intros r'. rewrite E.
  intros [Hin|Hx%list_elem_of_singleton]%elem_of_app Hk Hle; [by apply Hmin|]. subst r'. specialize (Hid r0 H0). lia.
Qed.

Lemma first_request_new k n s s' r :
  task_reschedule s' = task_reschedule s ++ [r] → of_try k n r → (∀ r', r' ∈ task_reschedule s → ¬ of_try k n r') →
  first_request k n s' r.
Proof.
  intros E Hr Hno. split_and!; [rewrite E; set_solver|done|]. intros r'. rewrite E.
  intros [Hin|Hx%list_elem_of_singleton]%elem_of_app Hk _; [by destruct (Hno r')|done].
Qed.

(** A further attempt counts from the start of the first one, and starts after the
    reschedule date. *)
Lemma next_attempt_inv started k w c checked_at starts_at ti s res :
  wait_ok started k ti s → ignore_in_reschedule_period c = false → checked_at ≤ starts_at →
  next_attempt run_hash se dag task hostname pid w c checked_at starts_at ti s = Ok res →
  let ti1 := TI.set_state (Some QUEUED) ti in
  ∃ s1, attempt w ti1 s1 = Ok res ∧ task_reschedule s1 = task_reschedule s ∧ utcnow s1 = starts_at ∧
    counts_from ti1 s1 = started ∧ started + Z.of_nat k * poke_interval se ≤ starts_at.
Proof.
  intros [Hst Htry (r0 & Hr0 & Hs0) (r1 & Hr1 & Hd1) _] Hc Hle. unfold next_attempt.
  destruct (forallb _ _) eqn:Eready; [|done]. intros Hres. eexists. split; [exact Hres|].
  set (ti1 := TI.set_state (Some QUEUED) ti). destruct (merge_ti_keeps ti1 (with_utcnow starts_at s)) as [E1 E2].
  split; [exact E1|]. split; [exact E2|]. split.
  - unfold counts_from. change (TI.max_tries ti1) with (TI.max_tries ti). rewrite <-Htry.
    rewrite (first_request_found ti1 (TI._try_number ti + 1) _ r0); [done|]. unfold first_request. rewrite E1. exact Hr0.
  - unfold ready_to_reschedule_statuses in Eready. rewrite Hc, Hst, bool_decide_eq_true_2 in Eready by set_solver.
    cbn [negb] in Eready. rewrite (last_request_found ti _ r1) in Eready.
    + destruct (_ <=? _) eqn:E; [|done]. cbn in E. lia.
    + unfold try_number. rewrite Hst, bool_decide_eq_false_2 by set_solver. exact Hr1.
Qed.

Lemma sensor_waiting_ok started k ti s : waiting started k ti s → wait_ok started k ti s.
Proof.
  destruct (validated se Hse) as (Hp & Ht & _).
  induction 1 as [w ti s x ti' s' Hw <- Htry Hno Hatt Hst|k w c checked_at starts_at ti s x ti' s' _ IH Hw Hc Hle Hatt Hst].
  - apply attempt_cases in Hatt as (Hk & Hm & Hcase). destruct (poke w 0) as [[]|]; [congruence| |set_solver].
    assert (counts_from ti s = utcnow s) as Hcf.
    { unfold counts_from. rewrite <-Htry. by rewrite no_request_found. }
    rewrite Hcf in Hcase. cbn zeta in Hcase. destruct (timeout se <? _); [by destruct (soft_fail se); congruence|].
    destruct Hcase as (_ & Hn & _ & r & Hr & Hof & Hid & Hstart & Hdate).
    pose proof (poke_time_ok _ Hw 0). pose proof (between_ok _ Hw 0).
    rewrite <-Hk, <-Hn in Hof, Hno. split; [done|congruence| | |lia].
    + exists r. split; [by eapply first_request_new|done].
    + exists r. split; [by eapply last_request_app|]. rewrite Hdate. lia.
  - destruct (next_attempt_inv started k w c checked_at starts_at ti s _ IH Hc Hle Hatt) as (s1 & Hatt1 & E1 & E2 & Hcf & Hstarts).
    apply attempt_cases in Hatt1 as (Hk & Hm & Hcase). destruct (poke w 0) as [[]|]; [congruence| |set_solver].
    rewrite Hcf, E2 in Hcase. cbn zeta in Hcase. destruct (timeout se <? _) eqn:Eto; [by destruct (soft_fail se); congruence|]. apply Z.ltb_ge in Eto.
    destruct Hcase as (_ & Hn & _ & r & Hr & Hof & Hid & Hstart & Hdate). rewrite E1 in Hr, Hid.
    pose proof (poke_time_ok _ Hw 0). pose proof (between_ok _ Hw 0).
    destruct IH as [_ Htry (r0 & Hr0 & Hs0) _ _]. change (row_key (TI.set_state _ ti)) with (row_key ti) in *.
    change (TI._try_number (TI.set_state _ ti)) with (TI._try_number ti) in *.
    change (TI.max_tries (TI.set_state _ ti)) with (TI.max_tries ti) in *.
    rewrite <-Hk, <-Hn in Hof, Hr0. split; [done|congruence| | |lia].
    + exists r0. split; [by eapply first_request_app|done].
    + exists r. split; [by eapply last_request_app|]. rewrite Hdate. lia.
Qed.

(** C38: a sensor in [reschedule] mode without exponential backoff, whose arguments
    the constructor accepts, keeps to its timeout over all the attempts of its first
    try: it is rescheduled at most [timeout / poke_interval + 1] times, as each
    attempt starts after the date asked for (the dependency on this date is
    checked), and an attempt whose poke is still false later than [timeout] after the
    start of the first attempt fails without a retry, or skips the task with
    [soft_fail].  (With exponential backoff the interval is between half of the
    poke interval and the poke interval, or what is left of the timeout.) *)
Theorem rescheduled_sensor_ends started k ti s :
  waiting started k ti s →
  (Z.of_nat k - 1) * poke_interval se ≤ timeout se ∧
  ∀ w c checked_at starts_at x ti' s',
    ignore_in_reschedule_period c = false → checked_at ≤ starts_at → poke w 0 = Ok false →
    next_attempt run_hash se dag task hostname pid w c checked_at starts_at ti s = Ok (x, ti', s') →
    TI.state ti' = Some (if timeout se <? starts_at + poke_time w 0 - started
                         then if soft_fail se then SKIPPED else FAILED else UP_FOR_RESCHEDULE).
Proof.
  intros Hwait%sensor_waiting_ok. split; [apply Hwait|]. intros w c checked_at starts_at x ti' s' Hc Hle Hpoke Hatt.
  destruct (next_attempt_inv started k w c checked_at starts_at ti s _ Hwait Hc Hle Hatt) as (s1 & Hatt1 & _ & E2 & Hcf & _).
  apply attempt_cases in Hatt1 as (_ & _ & Hcase). rewrite Hpoke, Hcf, E2 in Hcase. cbn zeta in Hcase.
  destruct (timeout se <? _); [done|]. apply Hcase.
Qed.
End RescheduleMode.

(** ** The external task sensor *)

Section CountDates.
Context {A : Type} (date : A → datetime) (Q : A → bool).

Lemma count_dates rows fs :
  NoDup (date <$> List.filter Q rows) → NoDup fs →
  countb (λ t, Q t && (date t ∈? fs)) rows = Z.of_nat (length fs) ↔
  ∀ d, d ∈ fs → ∃ t, t ∈ rows ∧ Q t = true ∧ date t = d.
Proof.
  intros Hnd Hfs. unfold countb. rewrite <-filter_filterb. set (L := List.filter (λ t, date t ∈? fs) (List.filter Q rows)).
  assert (date <$> L ⊆+ fs) as Hsub.
  { apply NoDup_submseteq; [by apply NoDup_fmap_filterb|]. intros d (t & -> & Ht)%list_elem_of_fmap.
    apply elem_of_filterb in Ht as [Ht _]. by apply bool_decide_eq_true in Ht. }
  rewrite <-(length_fmap date L). split.
  - intros Hlen d Hd. assert (date <$> L ≡ₚ fs) as Hperm by (apply submseteq_length_Permutation; [done|lia]).
    rewrite <-Hperm in Hd. apply list_elem_of_fmap in Hd as (t & -> & Ht). exists t.
    apply elem_of_filterb in Ht as [_ Ht]. apply elem_of_filterb in Ht as [? ?]. done.
  - intros Hall. f_equal. apply Nat.le_antisymm; [by apply submseteq_length|]. apply submseteq_length, NoDup_submseteq; [done|].
    intros d Hd. destruct (Hall d Hd) as (t & Ht & HQ & <-). apply list_elem_of_fmap. exists t. split; [done|].
    apply elem_of_filterb. split; [by apply bool_decide_eq_true|]. by apply elem_of_filterb.
Qed.

Lemma dates_NoDup {K} `{EqDecision K} (key : A → K) (mk : datetime → K) rows :
  NoDup (key <$> rows) → (∀ t, Q t = true → key t = mk (date t)) → NoDup (date <$> List.filter Q rows).
Proof.
  intros Hnd Hkey. apply (NoDup_fmap_filterb key Q) in Hnd. apply (NoDup_fmap_1 mk). rewrite <-list_fmap_compose.
  erewrite list_fmap_ext; [exact Hnd|]. intros i t Ht%list_elem_of_lookup_2. apply elem_of_filterb in Ht as [Ht _].
  symmetry. by apply Hkey.
Qed.
End CountDates.

Section ExternalFacts.
Context (path_exists : string → bool) (dagbag_get_dag : string → string → option DAG) (x : ExternalTaskSensor).

(** The external task, or the run of the external DAG, of date [d] is in one of the
    [states]. *)
Definition reached (states : list (option string)) (s : Session) (d : datetime) : Prop :=
  if truthy (external_task_id x) then
    ∃ t st, t ∈ task_instance s ∧ TI.dag_id t = external_dag_id x ∧ Some (TI.task_id t) = external_task_id x ∧
      TI.execution_date t = d ∧ TI.state t = Some st ∧ Some (TaskInstanceState_value st) ∈ states
  else
    ∃ r, r ∈ dag_run s ∧ DR.dag_id r = external_dag_id x ∧ DR.execution_date r = d ∧ Some (DagRunState_value (DR._state r)) ∈ states.

Lemma get_count_task tid fs states s :
  external_task_id x = Some tid → tid ≠ "" → ti_keys_unique (task_instance s) → NoDup fs →
  get_count x fs states s = Z.of_nat (length fs) ↔ ∀ d, d ∈ fs → reached states s d.
Proof.
  intros Hx Ht Hu Hfs. unfold get_count, reached. rewrite Hx. cbn [truthy]. rewrite bool_decide_eq_false_2 by done. cbn [negb].
  set (Q t := (TI.dag_id t ≟ external_dag_id x) && (TI.task_id t ≟ tid) &&
              match TI.state t with Some st => Some (TaskInstanceState_value st) ∈? states | None => false end).
  change (countb _ _) with (countb (λ t, Q t && (TI.execution_date t ∈? fs)) (task_instance s)).
  rewrite (count_dates TI.execution_date Q (task_instance s) fs); [|
    apply (dates_NoDup _ _ TI.primary (λ d, (external_dag_id x, tid, d))); [exact Hu|]|done].
  2: { intros t. unfold Q, TI.primary. rewrite !andb_true_iff, !bool_decide_eq_true. by intros [[-> ->] _]. }
  apply forall_proper. intros d. apply imp_iff_compat_l. split.
  - intros (t & Hin & HQ & Hd). unfold Q in HQ. destruct (TI.state t) as [st|] eqn:E; [|by rewrite andb_false_r in HQ].
    rewrite !andb_true_iff, !bool_decide_eq_true in HQ. destruct HQ as [[? <-] ?]. exists t, st. done.
  - intros (t & st & Hin & Hd & [= <-] & He & Hst & Hs). exists t. split_and!; [done| |done]. unfold Q. rewrite Hst.
    by rewrite !andb_true_iff, !bool_decide_eq_true.
Qed.

Lemma get_count_run fs states s :
  truthy (external_task_id x) = false → NoDup ((λ r, (DR.dag_id r, DR.execution_date r)) <$> dag_run s) → NoDup fs →
  get_count x fs states s = Z.of_nat (length fs) ↔ ∀ d, d ∈ fs → reached states s d.
Proof.
  intros Hx Hu Hfs. set (Q r := (DR.dag_id r ≟ external_dag_id x) && (Some (DagRunState_value (DR._state r)) ∈? states)).
  assert (get_count x fs states s = countb (λ r, Q r && (DR.execution_date r ∈? fs)) (dag_run s)) as ->.
  { unfold get_count. destruct (external_task_id x) as [tid|]; [|done]. cbn in Hx. by rewrite Hx. }
  unfold reached. rewrite Hx. rewrite (count_dates DR.execution_date Q (dag_run s) fs); [|
    apply (dates_NoDup _ _ (λ r, (DR.dag_id r, DR.execution_date r)) (λ d, (external_dag_id x, d))); [exact Hu|]|done].
  2: { intros r. unfold Q. rewrite !andb_true_iff, !bool_decide_eq_true. by intros [-> _]. }
  apply forall_proper. intros d. apply imp_iff_compat_l. unfold Q. setoid_rewrite andb_true_iff. setoid_rewrite bool_decide_eq_true.
  naive_solver.
Qed.

Lemma get_count_spec fs states s :
  ti_keys_unique (task_instance s) → NoDup ((λ r, (DR.dag_id r, DR.execution_date r)) <$> dag_run s) → NoDup fs →
  get_count x fs states s = Z.of_nat (length fs) ↔ ∀ d, d ∈ fs → reached states s d.
Proof.
  intros Ht Hr Hfs. destruct (external_task_id x) as [tid|] eqn:E; [destruct (decide (tid = "")) as [->|Hne]|].
  - apply get_count_run; [by rewrite E|done|done].
  - by eapply get_count_task.
  - apply get_count_run; [by rewrite E|done|done].
Qed.

(** Over distinct dates the external task sensor raises exactly when it has
    failed states and the task (or the run, without a task id) of every date is in
    one of them; otherwise it succeeds exactly when every one is in an allowed
    state, so that it waits while one is missing; nothing else ends it but the
    existence check, which is made until it passed once. *)
Theorem external_poke_correct date checked s :
  ti_keys_unique (task_instance s) → NoDup ((λ r, (DR.dag_id r, DR.execution_date r)) <$> dag_run s) →
  NoDup (dttm_filter x date) →
  check_existence x && negb checked = false ∨ _check_for_existence path_exists dagbag_get_dag x s = Ok tt →
  let '(res, checked') := external_poke path_exists dagbag_get_dag x date checked s in
  checked' = checked || check_existence x ∧
  (res = Err AirflowException ↔ failed_states x ≠ [] ∧ ∀ d, d ∈ dttm_filter x date → reached (failed_states x) s d) ∧
  (∀ b, res = Ok b → (b = true ↔ ∀ d, d ∈ dttm_filter x date → reached (allowed_states x) s d)) ∧
  (∀ e, res = Err e → e = AirflowException).
Proof.
  intros Ht Hr Hfs Hex. unfold external_poke.
  assert ((if check_existence x && negb checked then _check_for_existence path_exists dagbag_get_dag x s else Ok tt) = Ok tt) as ->.
  { destruct Hex as [->|Hex]; [done|]. by destruct (_ && _). }
  set (fs := dttm_filter x date) in *. set (cf := match failed_states x with [] => _ | _ => _ end).
  assert (cf = Z.of_nat (length fs) ↔ failed_states x ≠ [] ∧ ∀ d, d ∈ fs → reached (failed_states x) s d) as Hcf.
  { subst cf. destruct (failed_states x) eqn:E; [split; [lia|naive_solver]|]. rewrite get_count_spec by done. naive_solver. }
  destruct (cf =? Z.of_nat (length fs)) eqn:Ecf.
  - apply Z.eqb_eq in Ecf. split_and!; [done|naive_solver|done|naive_solver].
  - apply Z.eqb_neq in Ecf. split_and!; [done|split; [done|naive_solver]| |done].
    intros b [= <-]. rewrite Z.eqb_eq. by apply get_count_spec.
Qed.
End ExternalFacts.

(** ** Concrete sensors *)

Module SensorsSample.
Definition s_ (n : Z) : Z := n * seconds.

Definition mk_sensor (m : string) (backoff : bool) (interval : Z) : Sensor :=
  {| poke_interval := interval; timeout := s_ 100; soft_fail := false; mode := m; exponential_backoff := backoff |}.

(** The pokes take a second each; the one with number [good] is true. *)
Definition mk_world (good : nat) : World :=
  {| poke := λ n, Ok (n =? good)%nat; poke_time := λ _, s_ 1; between := λ _, 0; between' := λ _, 0; oversleep := λ _, 5 |}.

Lemma mk_world_ok n : world_ok (mk_world n).
Proof. split; intros; cbn; unfold s_, seconds; lia. Qed.

Lemma poke_sensor_ends_witness :
  let e := poke_loop (λ _ _, 0) (mk_sensor "poke" false (s_ 30)) (mk_world 9) 10 (s_ 1000) (s_ 1000) 0 in
  ∃ k, pokes e = S k ∧ Z.of_nat (pokes e) ≤ 100 / 31 + 2 ∧ (∀ j, (j < k)%nat → poke (mk_world 9) j = Ok false) ∧
    ends_well (mk_sensor "poke" false (s_ 30)) (mk_world 9) (s_ 1000) k e.
Proof.
  apply (poke_sensor_ends (λ _ _, 0) (mk_sensor "poke" false (s_ 30)) (mk_world 9) (s_ 1000) (s_ 31) 10).
  - by vm_compute.
  - apply mk_world_ok.
  - by vm_compute.
  - intros n. by vm_compute.
  - by vm_compute.
Defined.

(** The fifth poke ends 125 seconds after the start. *)
Example poke_timed_out :
  let e := poke_loop (λ _ _, 0) (mk_sensor "poke" false (s_ 30)) (mk_world 9) 10 (s_ 1000) (s_ 1000) 0 in
  (outcome_of_loop e, pokes e) = (Err AirflowSensorTimeout, 5%nat).
Proof. vm_compute. reflexivity. Qed.

(** With the exponential backoff and a poke interval of one second the first poke
    that is false divides by zero. *)
Example backoff_divides_by_zero :
  outcome_of_loop (poke_loop (λ _ _, 0) (mk_sensor "poke" true (s_ 1)) (mk_world 3) 10 0 0 0) = Err ZeroDivisionError.
Proof. vm_compute. reflexivity. Qed.

(** *** Rescheduling *)

Definition se := mk_sensor "reschedule" false (s_ 60).
Definition the_task := Sample.op_a.
Definition first_ti : TaskInstance := Sample.mk_ti "diamond" "a" (Some QUEUED).
Definition db (now : datetime) : Session := with_utcnow now (Sample.mk_session [first_ti] []).
Definition ctx : DepContext := check_context [] false false false false.
Definition never : World := mk_world 1.
Definition raising : World :=
  {| poke := λ _, Err RuntimeError; poke_time := λ _, s_ 1; between := λ _, 0; between' := λ _, 0; oversleep := λ _, 0 |}.

Definition the_attempt (w : World) := attempt (λ _ _, 0) se Sample.diamond the_task "worker" 1 w.
Definition the_next (w : World) (at_ : datetime) := next_attempt (λ _ _, 0) se Sample.diamond the_task "worker" 1 w ctx at_ at_.

(** Further attempts, a minute and a second apart. *)
Fixpoint further (n : nat) (now : datetime) (ti : TaskInstance) (s : Session) : result (option TaskInstanceState * nat) :=
  match n with
  | O => Ok (TI.state ti, length (task_reschedule s))
  | S n =>
      '(_, ti, s) ← the_next never now ti s;
      if TI.state ti ≟ Some UP_FOR_RESCHEDULE then further n (now + s_ 61) ti s else Ok (TI.state ti, length (task_reschedule s))
  end.

(** From the first try on, the sensor is rescheduled twice and then fails. *)
Example rescheduled_and_failed :
  ('(_, ti, s) ← the_attempt never first_ti (db (s_ 1000)); further 20 (s_ 1061) ti s) = Ok (Some FAILED, 2%nat).
Proof. vm_compute. reflexivity. Qed.

(** A sensor whose first try ends with an exception before it was rescheduled has
    no request of that try to count from: in the next try every attempt counts from
    its own start, and the sensor never times out. *)
Example retried_sensor_never_times_out :
  ('(_, ti, s) ← the_attempt raising first_ti (db (s_ 1000));
   let ti := TI.set_state (Some QUEUED) ti in
   '(_, ti, s) ← the_attempt never ti (merge_ti ti (with_utcnow (s_ 1400) s));
   further 20 (s_ 1461) ti s) = Ok (Some UP_FOR_RESCHEDULE, 21%nat).
Proof. vm_compute. reflexivity. Qed.

(** In [reschedule] mode the backoff always takes the first interval. *)
Example backoff_not_progressive :
  let b := mk_sensor "reschedule" true (s_ 8) in
  let run s := execute_reschedule (λ _ n, 0) b never 1 first_ti s in
  let later := with_task_reschedule [{| TR.id := 1; TR.task_id := "a"; TR.dag_id := "diamond"; TR.execution_date := 1000;
     TR.try_number := 1; TR.start_date := s_ 1000; TR.end_date := s_ 1001; TR.duration := s_ 1; TR.reschedule_date := s_ 1005 |}] (db (s_ 1050)) in
  (run (db (s_ 1000)), run later) =
  ((AirflowRescheduleException (s_ 1001 + s_ 4), s_ 1001), (AirflowRescheduleException (s_ 1051 + s_ 4), s_ 1051)).
Proof. vm_compute. reflexivity. Qed.

Lemma rescheduled_sensor_ends_witness :
  ∃ ti s, waiting (λ _ _, 0) se Sample.diamond the_task "worker" 1 (s_ 1000) 1 ti s ∧
    ∃ x ti' s', the_next never (s_ 1200) ti s = Ok (x, ti', s') ∧ TI.state ti' = Some FAILED.
Proof.
  destruct (the_attempt never first_ti (db (s_ 1000))) as [[[x ti] s]|] eqn:E; [|by vm_compute in E].
  exists ti, s. assert (waiting (λ _ _, 0) se Sample.diamond the_task "worker" 1 (s_ 1000) 1 ti s) as Hw.
  { eapply (wait_first _ _ _ _ _ _ _ never first_ti (db (s_ 1000))); [apply mk_world_ok|reflexivity|reflexivity| |exact E|].
    - intros r Hr. by apply elem_of_nil in Hr.
    - assert ((λ r, TI.state r.1.2) <$> the_attempt never first_ti (db (s_ 1000)) = Ok (Some UP_FOR_RESCHEDULE)) as Hs by (vm_compute; reflexivity).
      rewrite E in Hs. by injection Hs. }
  split; [exact Hw|]. destruct (rescheduled_sensor_ends (λ _ _, 0) se Sample.diamond the_task "worker" 1 ltac:(by vm_compute)
    ltac:(by vm_compute) ltac:(by vm_compute) (s_ 1000) 1 ti s Hw) as [_ Hnext].
  assert (is_ok ('(_, ti, s) ← the_attempt never first_ti (db (s_ 1000)); the_next never (s_ 1200) ti s) = true) as Hok by (vm_compute; reflexivity).
  rewrite E in Hok. cbn [mbind result_bind] in Hok. destruct (the_next never (s_ 1200) ti s) as [[[x' ti'] s']|] eqn:En; [|done].
  exists x', ti', s'. split; [done|]. eapply (Hnext never ctx (s_ 1200) (s_ 1200)) in En; [|reflexivity|lia|reflexivity].
  rewrite En. by vm_compute.
Defined.

(** *** External tasks *)

Definition ext_row (d : datetime) (st : TaskInstanceState) : TaskInstance :=
  TI.mk "a" "diamond" d None None None (Some st) 1 1 "" None "default_pool" 1 "default" 1 "BashOperator" None None None "" None.
Definition ext (dates : list datetime) : ExternalTaskSensor :=
  {| external_dag_id := "diamond"; external_task_id := Some "a"; allowed_states := [Some "success"]; failed_states := [Some "failed"];
     execution_delta := None; execution_date_fn := Some (λ _, dates); check_existence := false |}.
Definition ext_db : Session := Sample.mk_session [ext_row 1 SUCCESS; ext_row 2 FAILED; ext_row 3 SUCCESS] [].
Abbreviation ext_poke dates := (external_poke (λ _, true) (λ _ _, None) (ext dates) 0 false ext_db).

(** Of two dates one succeeded and one failed: the sensor neither succeeds nor
    fails, and waits until it times out. *)
Example one_failed_of_two : (ext_poke [1; 2]).1 = Ok false ∧ (ext_poke [2]).1 = Err AirflowException.
Proof. split; vm_compute; reflexivity. Qed.

(** A date that is given twice is counted once. *)
Example repeated_date : (ext_poke [1; 3; 1]).1 = Ok false.
Proof. vm_compute. reflexivity. Qed.

Lemma external_poke_correct_witness :
  (ext_poke [1; 3]).1 = Ok true ∧ ∀ d, d ∈ [1; 3] → reached (ext [1; 3]) [Some "success"] ext_db d.
Proof.
  pose proof (external_poke_correct (λ _, true) (λ _ _, None) (ext [1; 3]) 0 false ext_db) as H.
  destruct (ext_poke [1; 3]) as [res ch] eqn:E. assert (res = Ok true) as -> by (vm_compute in E; congruence).
  split; [done|]. destruct H as (_ & _ & H & _).
  - apply (bool_decide_unpack _). by vm_compute.
  - apply (bool_decide_unpack _). by vm_compute.
  - apply (bool_decide_unpack _). by vm_compute.
  - by left.
  - by apply (H true).
Defined.
End SensorsSample.
