(* ===== verification/LocalTaskJob.v ===== *)
(** * LocalTaskJob: the job that runs one task instance

    [LocalTaskJob] ([jobs/local_task_job.py]) with the heartbeat of [BaseJob]
    ([jobs/base_job.py]): the loop that watches the process of the task, the
    callbacks when it ends or when its state was changed from outside, and the
    scheduling of its child tasks over a part of the DAG.

    The process, the clock, the faults of the database and what others do to the
    tables between two rounds are arguments.  The row of the job is not written:
    its state and heartbeat are those of the object. *)

From S2P Require Import Prelude State Model Sample Graph DagRunQuery TaskInstance DagClear TiDeps DagRun.
From stdpp Require Import strings.
Import TiDeps.

Module LocalTaskJob.
Local Open Scope Z_scope.

Record LocalTaskJob := {
  task_instance : TaskInstance;
  terminating : bool;
  job_state : option TaskInstanceState;
  latest_heartbeat : datetime;
  heartrate : timedelta;
  callbacks : list (option TaskInstanceState);    (* the state each [_run_finished_callback] saw *)
  stops : nat;                                    (* the calls of [task_runner.terminate] *)
}.

Definition with_ti (ti : TaskInstance) (j : LocalTaskJob) : LocalTaskJob :=
  {| task_instance := ti; terminating := terminating j; job_state := job_state j; latest_heartbeat := latest_heartbeat j;
     heartrate := heartrate j; callbacks := callbacks j; stops := stops j |}.
Definition set_terminating (j : LocalTaskJob) : LocalTaskJob :=
  {| task_instance := task_instance j; terminating := true; job_state := job_state j; latest_heartbeat := latest_heartbeat j;
     heartrate := heartrate j; callbacks := callbacks j; stops := stops j |}.
Definition with_heartbeat (d : datetime) (j : LocalTaskJob) : LocalTaskJob :=
  {| task_instance := task_instance j; terminating := terminating j; job_state := job_state j; latest_heartbeat := d;
     heartrate := heartrate j; callbacks := callbacks j; stops := stops j |}.
Definition _run_finished_callback (j : LocalTaskJob) : LocalTaskJob :=
  {| task_instance := task_instance j; terminating := terminating j; job_state := job_state j; latest_heartbeat := latest_heartbeat j;
     heartrate := heartrate j; callbacks := callbacks j ++ [TI.state (task_instance j)]; stops := stops j |}.
Definition terminate (j : LocalTaskJob) : LocalTaskJob :=
  {| task_instance := task_instance j; terminating := terminating j; job_state := job_state j; latest_heartbeat := latest_heartbeat j;
     heartrate := heartrate j; callbacks := callbacks j; stops := S (stops j) |}.

(** ** [BaseJob] *)

(** [is_alive]: the multiplier is in tenths. *)
Definition is_alive (grace_multiplier : Z) (now : datetime) (j : LocalTaskJob) : bool :=
  (job_state j ≟ Some RUNNING) && ((now - latest_heartbeat j) * 10 <? heartrate j * grace_multiplier).

Definition most_recent_job (jobs : list BaseJob) : option BaseJob :=
  head (py_sorted (λ a b, Model.latest_heartbeat b <=? Model.latest_heartbeat a) jobs).

(** How [_execute] ended, and the state that [run] gives the job. *)
Inductive Ended := NormalEnd | SystemExit | ExceptionRaised.
Definition job_run_state (e : Ended) : TaskInstanceState :=
  match e with NormalEnd | SystemExit => SUCCESS | ExceptionRaised => FAILED end.

(** ** The children *)

Section Job.
Context `{Settings} (dag : DAG) (task : BaseOperator).

(** [_run_mini_scheduler_on_child_tasks]: the tasks that are scheduled, their
    number and the database.  [one()] raises unless there is exactly one run. *)
Definition _run_mini_scheduler_on_child_tasks (ti : TaskInstance) (s : Session) : result (list string * Z * Session) :=
  match List.filter (λ r, (DR.dag_id r ≟ TI.dag_id ti) && (DR.execution_date r ≟ TI.execution_date ti)) (dag_run s) with
  | [dr] =>
      partial_dag ← DagClear.partial_subset dag (λ x, x ∈? downstream_task_ids task) false false true;
      '(info, s) ← DagRun.task_instance_scheduling_decisions partial_dag dr s;
      let skippable_task_ids := List.filter (λ x, negb (x ∈? downstream_task_ids task)) (task_ids partial_dag) in
      let schedulable := List.filter (λ x, negb (x ∈? skippable_task_ids)) (DagRun.schedulable_tis info) in
      '(num, s) ← DagRun.schedule_tis partial_dag dr schedulable s;
      Ok (schedulable, num, DagRun.commit (DagRun.tis info) s)
  | _ => Err RuntimeError
  end.

Definition _update_dagrun_state_for_paused_dag (ti : TaskInstance) (s : Session) : result Session :=
  if get_is_paused dag s then
    match TaskInstance.get_dagrun ti s with
    | None => Ok s
    | Some dr =>
        r ← DagRun.update_state dag dr true s;
        Ok (DagRun.commit (DagRun.ur_objs r) (DagRun.ur_session r))
    end
  else Ok s.

(** [handle_task_exit]: the callback has run before anything can raise. *)
Definition handle_task_exit (schedule_after_task_execution : bool) (j : LocalTaskJob) (s : Session)
    : LocalTaskJob * result Session :=
  let j := set_terminating j in
  let j := with_ti (TaskInstance.refresh_from_db (task_instance j) s) j in
  let '(j, s) := if TI.state (task_instance j) ≟ Some RUNNING then
                   let '(ti, s) := TaskInstance.handle_failure task false false (task_instance j) s in (with_ti ti j, s)
                 else (j, s) in
  let j := _run_finished_callback j in
  (j, s ← (if schedule_after_task_execution then
             '(_, _, s) ← _run_mini_scheduler_on_child_tasks (task_instance j) s; Ok s
           else Ok s);
      _update_dagrun_state_for_paused_dag (task_instance j) s).

(** ** The heartbeat *)

(** The process of the task: where it runs, its pid, the parent of a pid when it
    runs as another user. *)
Record Runner := {
  fqdn : string;
  current_pid : Z;
  run_as_user : bool;
  ppid : option Z → Z;
}.

Definition heartbeat_callback (p : Runner) (return_code : option Z) (j : LocalTaskJob) (s : Session) : LocalTaskJob * option exn :=
  if terminating j then (terminate j, None)
  else
    let j := with_ti (TaskInstance.refresh_from_db (task_instance j) s) j in
    let ti := task_instance j in
    if TI.state ti ≟ Some RUNNING then
      if negb (fqdn p ≟ TI.hostname ti) then (j, Some AirflowException)
      else
        let recorded_pid := if run_as_user p then Some (ppid p (TI.pid ti)) else TI.pid ti in
        if match recorded_pid with Some r => negb (r =? current_pid p) | None => false end then (j, Some AirflowException)
        else (j, None)
    else match return_code with
    | None => (set_terminating (_run_finished_callback (terminate j)), None)
    | Some _ => (j, None)
    end.

(** The database can fail before the heartbeat is written, or in the callback. *)
Inductive DbFault := NoFault | BeforeCommit | InCallback.

(** [heartbeat]: the job, an exception, and the time. *)
Definition job_heartbeat (p : Runner) (return_code : option Z) (fault : DbFault) (now : datetime) (j : LocalTaskJob) (s : Session)
    : LocalTaskJob * option exn * datetime :=
  if job_state j ∈? State.terminating_states then (terminate j, Some AirflowException, now)     (* kill *)
  else
    let sleep_for := Z.max 0 (heartrate j - (now - latest_heartbeat j)) in
    let now := now + sleep_for in
    match fault with
    | BeforeCommit => (j, None, now)
    | InCallback => (with_heartbeat now j, None, now)
    | NoFault => let '(j, e) := heartbeat_callback p return_code (with_heartbeat now j) s in (j, e, now)
    end.

(** ** The loop *)

(** One round: what others did meanwhile, whether a SIGTERM arrived, and how the
    process stands. *)
Record Tick := {
  outside : Session → Session;
  sigterm : bool;
  return_code : option Z;
  fault : DbFault;
}.

Inductive Round := Watching | Over (e : option exn).

Definition max_wait_time (heartbeat_time_limit : timedelta) (now : datetime) (j : LocalTaskJob) : timedelta :=
  Z.max 0 (Z.min (heartbeat_time_limit - (now - latest_heartbeat j) * 3 / 4) (heartrate j)).

Definition result_exn {A} (r : result A) : option exn := match r with Ok _ => None | Err e => Some e end.

Definition job_round (schedule_after : bool) (p : Runner) (heartbeat_time_limit : timedelta) (t : Tick) (j : LocalTaskJob) (s : Session)
    : LocalTaskJob * Session * Round :=
  let s := outside t s in
  (* the signal handler *)
  let '(j, s, e) := if sigterm t then
                      let '(j, r) := handle_task_exit schedule_after (terminate j) s in
                      (j, match r with Ok s => s | Err _ => s end, result_exn r)
                    else (j, s, None) in
  match e with
  | Some x => (j, s, Over (Some x))
  | None =>
      match return_code t with
      | Some _ =>
          let '(j, r) := handle_task_exit schedule_after j s in
          (j, match r with Ok s => s | Err _ => s end, Over (result_exn r))
      | None =>
          let '(j, e, now) := job_heartbeat p (return_code t) (fault t) (utcnow s) j s in
          match e with
          | Some x => (j, s, Over (Some x))
          | None =>
              if heartbeat_time_limit <? now - latest_heartbeat j then (j, s, Over (Some AirflowException))
              else if terminating j then (j, s, Over None) else (j, s, Watching)
          end
      end
  end.

(** The loop and its [finally], over the rounds that happen. *)
Fixpoint job_loop (schedule_after : bool) (p : Runner) (limit : timedelta) (ticks : list Tick) (j : LocalTaskJob) (s : Session)
    : LocalTaskJob * Session * Round :=
  match ticks with
  | [] => (j, s, Watching)
  | t :: ticks =>
      let '(j, s, r) := job_round schedule_after p limit t j s in
      match r with
      | Watching => job_loop schedule_after p limit ticks j s
      | Over e => (terminate j, s, Over e)                        (* on_kill *)
      end
  end.

(** [_execute]: the task starts when its dependencies are met. *)
Definition execute_job (hostname : string) (all past tdeps tstate mark_success : bool) (job_id : option Z) (pool : option string)
    (schedule_after : bool) (p : Runner) (limit : timedelta) (ticks : list Tick) (j : LocalTaskJob) (s : Session)
    : result (LocalTaskJob * Session * Round) :=
  '(go, ti, s) ← check_and_change_state_before_execution dag task hostname all past tdeps tstate mark_success false job_id pool
                   (task_instance j) s;
  if (go : bool) then Ok (job_loop schedule_after p limit ticks (with_ti ti j) s) else Ok (with_ti ti j, s, Over None).
End Job.
End LocalTaskJob.
Import Graph DagRunQuery TaskInstance DagClear DagRun LocalTaskJob.
Local Open Scope Z_scope.

(** ** The callbacks *)

Section Callbacks.
Context `{Settings} (dag : DAG) (task : BaseOperator) (schedule_after : bool) (p : Runner) (limit : timedelta).

(** No callback yet, or exactly one, after which the job is terminating. *)
Definition called_once (j : LocalTaskJob) : Prop :=
  ∃ st, callbacks j = [st] ∧ st ≠ Some RUNNING ∧ terminating j = true.
Definition not_called (j : LocalTaskJob) : Prop := callbacks j = [] ∧ terminating j = false.

Lemma handle_task_exit_calls j s : not_called j → called_once (handle_task_exit dag task schedule_after j s).1.
Proof.
  intros [Hc Ht]. unfold handle_task_exit. cbn zeta. set (ti := refresh_from_db _ s).
  change (task_instance (with_ti ti (set_terminating j))) with ti.
  destruct (TI.state ti ≟ Some RUNNING) eqn:E.
  - destruct (handle_failure_fields task false false ti s) as (_ & _ & _ & Hst).
    destruct (handle_failure task false false ti s) as [ti' s'] eqn:Ef. exists (TI.state ti'). cbn. rewrite Hc.
    split_and!; [done| |done]. cbn in Hst. rewrite Hst. by destruct (negb _).
  - apply bool_decide_eq_false in E. exists (TI.state ti). cbn in *. by rewrite Hc.
Qed.

Lemma heartbeat_calls rc f now j s j' e now' :
  not_called j → job_heartbeat p rc f now j s = (j', e, now') → not_called j' ∨ called_once j'.
Proof.
  intros [Hc Ht]. unfold job_heartbeat. destruct (_ ∈? _); [intros [= <- _ _]; by left|]. destruct f.
  - unfold heartbeat_callback. cbn [terminating with_heartbeat]. rewrite Ht.
    set (ti := refresh_from_db _ s). cbn [task_instance with_ti].
    destruct (TI.state ti ≟ Some RUNNING) eqn:E.
    + repeat (case_match; try (intros [= <- _ _]; by left)); simplify_eq; intros [= <- _ _]; by left.
    + apply bool_decide_eq_false in E. destruct rc; intros [= <- _ _]; [by left|]. right. exists (TI.state ti). cbn. by rewrite Hc.
  - intros [= <- _ _]. by left.
  - intros [= <- _ _]. by left.
Qed.

Lemma job_round_calls t j s j' s' r :
  sigterm t = false → not_called j → job_round dag task schedule_after p limit t j s = (j', s', r) →
  match r with
  | Watching => not_called j'
  | Over None => called_once j'
  | Over (Some _) => not_called j' ∨ called_once j'
  end.
Proof.
  intros Hsig Hn. unfold job_round. rewrite Hsig. cbn zeta. destruct (return_code t) as [rc|].
  - pose proof (handle_task_exit_calls j (outside t s) Hn) as Hc. destruct (handle_task_exit _ _ _ _ _) as [j1 r1].
    intros [= <- _ <-]. destruct (result_exn r1); [by right|done].
  - destruct (job_heartbeat p None (fault t) (utcnow (outside t s)) j (outside t s)) as [[j1 e] now] eqn:E.
    apply heartbeat_calls in E as Hj; [|done]. destruct e as [x|]; [intros [= <- _ <-]; exact Hj|].
    destruct (limit <? _); [intros [= <- _ <-]; exact Hj|].
    destruct (terminating j1) eqn:Et; intros [= <- _ <-]; destruct Hj as [[? ?]|(st & ? & ? & ?)]; try congruence; [|done].
    by exists st.
Qed.

(** Without a SIGTERM a job runs the callback of its task instance at most
    once, in whatever order the process ends, its state is changed from outside,
    heartbeats fail or the job is stopped: exactly once when the loop ends without
    an exception, never while it watches, and never for a task instance that is
    still running. *)
Theorem callback_runs_once ticks j s j' s' r :
  Forall (λ t, sigterm t = false) ticks → callbacks j = [] → terminating j = false →
  job_loop dag task schedule_after p limit ticks j s = (j', s', r) →
  match r with
  | Watching => callbacks j' = []
  | Over None => ∃ st, callbacks j' = [st] ∧ st ≠ Some RUNNING
  | Over (Some _) => callbacks j' = [] ∨ ∃ st, callbacks j' = [st] ∧ st ≠ Some RUNNING
  end.
Proof.
  intros Hsig Hc Ht. assert (not_called j) as Hn by done. clear Hc Ht. revert j s Hn.
  induction Hsig as [|t ticks Hsig _ IH]; intros j s Hn; cbn [job_loop]; [intros [= <- _ <-]; apply Hn|].
  destruct (job_round dag task schedule_after p limit t j s) as [[j1 s1] r1] eqn:E.
  apply job_round_calls in E; [|done..]. destruct r1 as [|e]; [by apply IH|]. intros [= <- _ <-].
  destruct e; [destruct E as [[? _]|(st & ? & ? & _)]; [by left|right]|destruct E as (st & ? & ? & _)]; by exists st.
Qed.
End Callbacks.

(** ** The mini scheduler *)

(** Two results agree, up to a relation of their values. *)
Definition agree {A B} (R : A → B → Prop) (x : result A) (y : result B) : Prop :=
  match x, y with Ok a, Ok b => R a b | Err e, Err e' => e = e' | _, _ => False end.

Lemma agree_bind {A B C D} (R : A → B → Prop) (Q : C → D → Prop) x y f g :
  agree R x y → (∀ a b, R a b → agree Q (f a) (g b)) → agree Q (a ← x; f a) (b ← y; g b).
Proof. destruct x, y; cbn; naive_solver. Qed.

Section Agree.
Context `{Settings} (dag : DAG) (tasks : list BaseOperator) (p : bool) (s : Session).
Context (ids : list string) (t : BaseOperator) (ups : list BaseOperator) (fin : list TaskInstance).
Context (Hwait : wait_for_downstream t = false) (Hin : ∀ x, x ∈ upstream_task_ids t → x ∈ ids).
Abbreviation sub := (with_tasks tasks p dag).
Abbreviation t' := (restrict_relatives ids t).
Abbreviation fin' := (List.filter (λ x, TI.task_id x ∈? ids) fin).
Context (Hups : upstream_list dag t = Ok ups) (Hups' : upstream_list sub t' = Ok (restrict_relatives ids <$> ups)).
Context (Hpar : ∀ u, u ∈ ups → task_id u ∈ ids).

(** The two states of a check differ in the finished tasks of their contexts only. *)
Definition related (st st' : DepState) : Prop :=
  ds_ti st' = ds_ti st ∧ ds_merged st' = ds_merged st ∧
  ds_context st = ready_context fin ∧ ds_context st' = ready_context fin'.

Lemma upstream_kept : upstream_task_ids t' = upstream_task_ids t.
Proof. cbn. apply filterb_all. intros x Hx. by apply bool_decide_eq_true, Hin. Qed.

Lemma counts_kept : _get_states_count_upstream_ti t' fin' = _get_states_count_upstream_ti t fin.
Proof.
  unfold _get_states_count_upstream_ti. rewrite upstream_kept, filter_filterb.
  assert (List.filter (λ x, (TI.task_id x ∈? ids) && (TI.task_id x ∈? upstream_task_ids t)) fin
    = List.filter (λ x, TI.task_id x ∈? upstream_task_ids t) fin) as ->; [|done].
  apply List.filter_ext. intros x. destruct (TI.task_id x ∈? upstream_task_ids t) eqn:E; [|by rewrite andb_false_r].
  apply bool_decide_eq_true, Hin in E. by rewrite bool_decide_eq_true_2.
Qed.

Lemma set_state_related now st0 st st' : related st st' → related (ds_set_state now st0 st) (ds_set_state now st0 st').
Proof. intros (H1 & H2 & H3 & H4). unfold related, ds_set_state. cbn. by rewrite H1. Qed.

Lemma trigger_rule_agrees st st' :
  related st st' → agree (λ a b, b.1 = a.1 ∧ related a.2 b.2) (trigger_rule_statuses dag t s st) (trigger_rule_statuses sub t' s st').
Proof.
  intros Hr. pose proof Hr as (H1 & H2 & H3 & H4). unfold trigger_rule_statuses. rewrite Hups, Hups'. cbn [mbind result_bind].
  destruct ups as [|u us]; [done|]. rewrite !bool_decide_eq_false_2 by done. cbn [trigger_rule restrict_relatives].
  destruct (trigger_rule t ≟ ALWAYS); [done|].
  rewrite (ds_finished_tasks_some dag s st fin), (ds_finished_tasks_some sub s st' fin') by (by rewrite ?H3, ?H4).
  unfold _evaluate_trigger_rule. rewrite counts_kept, upstream_kept, H3, H4. cbn [flag_upstream_failed ready_context].
  cbn [agree]. change (trigger_rule t') with (trigger_rule t). split; [done|]. cbn [snd].
  destruct (instant_state _ _ _); [by apply set_state_related|done].
Qed.

Lemma find_restrict (f : BaseOperator → bool) l :
  (∀ u, f (restrict_relatives ids u) = f u) →
  List.find f (restrict_relatives ids <$> l) = restrict_relatives ids <$> List.find f l.
Proof. intros Hf. induction l as [|u l IH]; [done|]. cbn. rewrite Hf. by destruct (f u). Qed.

Lemma find_ext_in {A} (f g : A → bool) l : (∀ x, x ∈ l → f x = g x) → List.find f l = List.find g l.
Proof.
  induction l as [|x l IH]; intros Hfg; [done|]. cbn. rewrite (Hfg x) by left. destruct (g x); [done|]. apply IH. set_solver.
Qed.

Lemma skipped_kept ti u : u ∈ ups → skipped_by fin' ti s u = skipped_by fin ti s u.
Proof.
  intros Hu. unfold skipped_by. do 2 f_equal. apply bool_decide_ext. rewrite !list_elem_of_fmap. split.
  - intros (x & -> & [_ Hx]%elem_of_filterb). eauto.
  - intros (x & E & Hx). exists x. split; [done|]. apply elem_of_filterb. split; [|done]. apply bool_decide_eq_true. rewrite <-E. by apply Hpar.
Qed.

Lemma not_previously_skipped_agrees st st' :
  related st st' → agree (λ a b, b.1 = a.1 ∧ related a.2 b.2)
    (not_previously_skipped_statuses dag t s st) (not_previously_skipped_statuses sub t' s st').
Proof.
  intros Hr. pose proof Hr as (H1 & H2 & H3 & H4). unfold not_previously_skipped_statuses. rewrite Hups, Hups'. cbn [mbind result_bind].
  rewrite (ds_finished_tasks_some dag s st fin), (ds_finished_tasks_some sub s st' fin') by (by rewrite ?H3, ?H4).
  cbn [agree]. rewrite find_restrict by done. rewrite H1, (find_ext_in _ (skipped_by fin (ds_ti st) s)) by apply skipped_kept.
  destruct (List.find _ ups); [|done]. split; [done|]. by apply set_state_related.
Qed.

Lemma dep_agrees dep st st' :
  related st st' → agree (λ a b, b.1 = a.1 ∧ related a.2 b.2) (get_dep_statuses dag t s dep st) (get_dep_statuses sub t' s dep st').
Proof.
  intros Hr. pose proof Hr as (H1 & H2 & H3 & H4). unfold get_dep_statuses. rewrite H3, H4.
  cbn [ignore_all_deps ignore_task_deps ready_context]. rewrite !andb_false_r.
  destruct dep; cbn [_get_dep_statuses]; rewrite ?H1, ?H3, ?H4; try (by split);
    [| |by apply trigger_rule_agrees|by apply not_previously_skipped_agrees].
  - change (not_in_retry_period_statuses t' (ds_ti st) (ready_context fin') s)
      with (not_in_retry_period_statuses t (ds_ti st) (ready_context fin) s).
    by destruct (not_in_retry_period_statuses _ _ _ _).
  - assert (prev_dagrun_statuses sub t' (ds_ti st) (ready_context fin') s =
            prev_dagrun_statuses dag t (ds_ti st) (ready_context fin) s) as ->; [|by destruct (prev_dagrun_statuses _ _ _ _ _)].
    unfold prev_dagrun_statuses. cbn [depends_on_past wait_for_downstream op_start_date restrict_relatives catchup with_tasks
      ignore_depends_on_past ready_context]. by rewrite Hwait.
Qed.

Lemma are_dependencies_met_agrees ti :
  agree (λ a b, b.1 = a.1)
    (are_dependencies_met dag t s {| ds_ti := ti; ds_merged := false; ds_context := ready_context fin |})
    (are_dependencies_met sub t' s {| ds_ti := ti; ds_merged := false; ds_context := ready_context fin' |}).
Proof.
  unfold are_dependencies_met, get_failed_dep_statuses. cbn [ds_context dc_deps ready_context].
  change (deps t') with (deps t). set (st := {| ds_context := ready_context fin |}). set (st' := {| ds_context := ready_context fin' |}).
  eapply (agree_bind (λ a b, b.1 = a.1 ∧ related a.2 b.2)).
  - assert (∀ ds a b, b.1 = a.1 → related a.2 b.2 → agree (λ a b, b.1 = a.1 ∧ related a.2 b.2)
      (foldM (failed_step dag t s) ds a) (foldM (failed_step sub t' s) ds b)) as Hg; [|by apply (Hg _ ([], st) ([], st'))].
    induction ds as [|d ds IH]; intros [l st1] [l' st1'] E Hr; cbn [foldM fst snd] in *; [by subst|].
    eapply (agree_bind (λ a b, b.1 = a.1 ∧ related a.2 b.2)); [|intros a b [? ?]; by apply IH].
    unfold failed_step. cbn [fst snd]. eapply agree_bind; [by apply dep_agrees|]. intros [a1 a2] [b1 b2] [Hl Hrel]. cbn in *. by subst.
  - intros [l st1] [l' st1'] [E _]. cbn in *. by subst.
Qed.
End Agree.

(** *** The ready tasks *)

Section Ready.
Context `{Settings}.

(** Whether the dependencies of a task instance of the run are met. *)
Definition met (dag : DAG) (fin : list TaskInstance) (s : Session) (objs : list Attached) (tid : string) : bool :=
  match check_obj dag (ready_context fin) s tid objs with Ok (b, _) => b | Err _ => false end.

Lemma met_ext dag fin s objs objs' tid :
  lookup_obj objs' tid = lookup_obj objs tid → met dag fin s objs' tid = met dag fin s objs tid.
Proof.
  intros E. unfold met, check_obj. rewrite E. destruct (get_task dag tid); [|done]. cbn [mbind result_bind].
  destruct (lookup_obj objs tid); [|done]. by destruct (are_dependencies_met _ _ _ _) as [[]|].
Qed.

Lemma ready_is_filter dag fin s ids st st' :
  NoDup ids → foldM (ready_step dag fin s) ids st = Ok st' →
  ready_tis st' = ready_tis st ++ List.filter (met dag fin s (rs_objs st)) ids.
Proof.
  revert st. induction ids as [|i ids IH]; intros st Hd; cbn [foldM List.filter].
  { intros [= <-]. by rewrite app_nil_r. }
  apply NoDup_cons in Hd as [Hi Hd]. intros (st1 & Hstep & Hf)%result_bind_ok. unfold ready_step in Hstep.
  apply result_bind_ok in Hstep as ([b objs1] & Hchk & [= Hst1]).
  assert (met dag fin s (rs_objs st) i = b) as -> by (unfold met; by rewrite Hchk).
  apply check_obj_spec with (fin := fin) in Hchk as (task & t & _ & -> & Ht & _); [|done].
  apply IH in Hf; [|done]. rewrite Hf.
  assert (List.filter (met dag fin s (rs_objs st1)) ids = List.filter (met dag fin s (rs_objs st)) ids) as ->.
  { apply List.filter_ext_in. intros x Hx%list_elem_of_In. apply met_ext. subst st1.
    destruct b; cbn [rs_objs]; apply lookup_set_obj_ne; rewrite Ht; by intros ->. }
  subst st1. destruct b; cbn [ready_tis]; [by rewrite <-app_assoc|done].
Qed.

(** The rows that are looked at. *)
Definition scheduleable_ids (rows : list TaskInstance) : list string :=
  TI.task_id <$> List.filter (λ t, (TI.state t ∈? State.unfinished) && (TI.state t ∈? SCHEDULEABLE_STATES)) rows.

Lemma lookup_attached rows t :
  NoDup (TI.task_id <$> rows) → t ∈ rows → lookup_obj (attach <$> rows) (TI.task_id t) = Some (attach t).
Proof.
  unfold lookup_obj. induction rows as [|r rows IH]; [by intros _ ?%elem_of_nil|]. cbn. intros [Hr Hd]%NoDup_cons.
  intros [->|Ht]%elem_of_cons; [by rewrite bool_decide_eq_true_2|]. rewrite bool_decide_eq_false_2; [by apply IH|].
  intros E. apply Hr. rewrite E. apply list_elem_of_fmap. by exists t.
Qed.

Lemma scheduleable_spec rows :
  NoDup (TI.task_id <$> rows) →
  List.filter (λ tid, match lookup_obj (attach <$> rows) tid with
                      | Some a => TI.state (current a) ∈? SCHEDULEABLE_STATES | None => false end)
    (ids_in State.unfinished (attach <$> rows)) = scheduleable_ids rows.
Proof.
  intros Hd. unfold ids_in, scheduleable_ids. set (f := λ tid, match lookup_obj _ tid with Some a => _ | None => false end).
  assert (∀ l, (∀ t, t ∈ l → t ∈ rows) → List.filter f
     ((λ a, TI.task_id (current a)) <$> List.filter (λ a, TI.state (current a) ∈? State.unfinished) (attach <$> l)) =
     (TI.task_id <$> List.filter (λ t, (TI.state t ∈? State.unfinished) && (TI.state t ∈? SCHEDULEABLE_STATES)) l)) as Hg;
    [|by apply Hg].
  induction l as [|t l IH]; intros Hl; [done|]. cbn [fmap list_fmap List.filter].
  change (TI.state (current (attach t))) with (TI.state t). destruct (TI.state t ∈? State.unfinished); cbn [andb fmap list_fmap List.filter].
  - assert (f (TI.task_id t) = (TI.state t ∈? SCHEDULEABLE_STATES)) as Hf.
    { unfold f. rewrite lookup_attached; [done|done|]. apply Hl. left. }
    change (TI.task_id (current (attach t))) with (TI.task_id t). rewrite Hf.
    destruct (TI.state t ∈? SCHEDULEABLE_STATES); cbn [fmap list_fmap]; [f_equal|]; apply IH; set_solver.
  - apply IH. set_solver.
Qed.

Lemma load_known dag dr s :
  (∀ t, t ∈ run_rows dag dr s → has_task dag (TI.task_id t) = true) →
  load_tis dag dr s = (attach <$> run_rows dag dr s, s).
Proof.
  intros Hk. unfold load_tis. fold (run_rows dag dr s). revert Hk. generalize (run_rows dag dr s) as rows. intros rows Hk.
  assert (∀ acc, foldl (mark_removed dag) (acc, s) rows = (acc ++ (attach <$> rows), s)) as Hg; [|by rewrite Hg].
  induction rows as [|t rows IH]; intros acc; [by rewrite app_nil_r|]. cbn [foldl]. unfold mark_removed at 2.
  rewrite Hk by left. rewrite IH by set_solver. by rewrite <-app_assoc.
Qed.

Lemma decisions_ready dag dr s info s1 :
  (∀ t, t ∈ run_rows dag dr s → has_task dag (TI.task_id t) = true) → NoDup (TI.task_id <$> run_rows dag dr s) →
  task_instance_scheduling_decisions dag dr s = Ok (info, s1) →
  let rows := run_rows dag dr s in
  schedulable_tis info =
    List.filter (met dag (List.filter (λ t, TI.state t ∈? State.finished) rows) s (attach <$> rows)) (scheduleable_ids rows).
Proof.
  intros Hk Hd. unfold task_instance_scheduling_decisions. rewrite (load_known dag dr s Hk). cbn zeta.
  set (rows := run_rows dag dr s) in *. intros ([[ready changed] objs] & Hr & [= <- _])%result_bind_ok. cbn [schedulable_tis].
  assert (current <$> (attach <$> rows) = rows) as Hc by (rewrite <-list_fmap_compose; apply list_fmap_id).
  rewrite Hc in Hr. pose proof (scheduleable_spec rows Hd) as Hs.
  destruct (ids_in State.unfinished (attach <$> rows)) as [|u us]; [injection Hr as <- _ _; by rewrite <-Hs|].
  rewrite Hs in Hr. unfold _get_ready_tis in Hr. destruct (scheduleable_ids rows) as [|x xs] eqn:E; [by injection Hr as <- _ _|].
  apply result_bind_ok in Hr as (st & Hf & [= <- _ _]). apply ready_is_filter in Hf; [exact Hf|]. rewrite <-E.
  unfold scheduleable_ids. by apply NoDup_fmap_filterb.
Qed.
End Ready.

(** *** The part of the DAG *)

Section Mini.
Context `{Settings} (dag : DAG) (task : BaseOperator) (Hwf : graph_wf dag) (Htask : task ∈ task_dict dag).

(** What the mini scheduler knows of the DAG. *)
Lemma child_subset sub :
  DagClear.partial_subset dag (λ x, x ∈? downstream_task_ids task) false false true = Ok sub →
  ∃ kept p, sub = with_tasks (restrict_relatives (task_id <$> kept) <$> kept) p dag ∧ kept ⊆ task_dict dag ∧ graph_wf sub ∧
    task_ids sub = task_id <$> kept ∧
    (p = true ↔ partial dag = true ∨ ∃ x, x ∈ task_ids dag ∧ x ∉ task_ids sub) ∧
    (∀ x, x ∈ downstream_task_ids task → x ∈ task_ids sub) ∧
    (∀ t x, t ∈ task_dict dag → task_id t ∈ downstream_task_ids task → x ∈ upstream_task_ids t → x ∈ task_ids sub).
Proof.
  intros Hsub. destruct (partial_subset_spec dag Hwf (λ x, x ∈? downstream_task_ids task) false false true)
    as (sub' & E & Hwf' & Hids & _ & Hpart).
  rewrite Hsub in E. injection E as <-.
  assert (∀ x, x ∈ downstream_task_ids task → x ∈ task_ids sub) as Hdown.
  { intros x Hx. apply Hids. pose proof (wf_closed dag Hwf task false x Htask Hx) as (u & -> & Hu)%list_elem_of_fmap.
    exists u. split_and!; [done|done|left]. by apply bool_decide_eq_true. }
  assert (∀ t x, t ∈ task_dict dag → task_id t ∈ downstream_task_ids task → x ∈ upstream_task_ids t → x ∈ task_ids sub) as Hup.
  { intros t x Ht Hc Hx. apply Hids. pose proof (wf_closed dag Hwf t true x Ht Hx) as (u & -> & Hu)%list_elem_of_fmap.
    exists u. split_and!; [done|done|right]. exists t. split_and!; [done|by apply bool_decide_eq_true|]. right. by right. }
  unfold DagClear.partial_subset in Hsub. apply result_bind_ok in Hsub as (also & Ha & [= <-]).
  set (ms := List.filter _ _) in *.
  destruct (concatM_spec (also_include dag false false true) (λ t u, u ∈ task_dict dag ∧ included dag false false true t u) ms)
    as (also' & Ha' & Hal).
  { intros t [_ Ht]%elem_of_filterb. by apply also_include_spec. }
  rewrite Ha in Ha'. injection Ha' as <-.
  assert (ms ++ also ⊆ task_dict dag) as Hall.
  { intros u [[_ ?]%elem_of_filterb|(x & _ & ? & _)%Hal]%elem_of_app; done. }
  destruct (dedup_tasks_spec dag Hwf [] (ms ++ also) Hall) as [_ Hk].
  eexists _, _. split; [reflexivity|]. split_and!; try done.
  - intros u [Hu _]%Hk. by apply Hall.
  - unfold task_ids. cbn. rewrite <-list_fmap_compose. by apply list_fmap_ext.
Qed.

Context (dr : DagRun) (s : Session).
Context (Hkeys : ti_keys_unique (Model.task_instance s)).
Context (Hknown : ∀ t, t ∈ run_rows dag dr s → has_task dag (TI.task_id t) = true).
Context (Hplain : ∀ t, t ∈ task_dict dag → task_id t ∈ downstream_task_ids task → wait_for_downstream t = false).

Lemma has_task_ids g tid : has_task g tid = true ↔ tid ∈ task_ids g.
Proof.
  unfold has_task, task_ids. rewrite existsb_elem, list_elem_of_fmap. setoid_rewrite bool_decide_eq_true. naive_solver.
Qed.

Lemma run_rows_NoDup g : NoDup (TI.task_id <$> run_rows g dr s).
Proof.
  apply (NoDup_fmap_1 (λ t, (DR.dag_id dr, t, DR.execution_date dr))). rewrite <-list_fmap_compose.
  assert ((λ t, (DR.dag_id dr, t, DR.execution_date dr)) ∘ TI.task_id <$> run_rows g dr s = TI.primary <$> run_rows g dr s) as ->.
  { apply list_fmap_ext. intros i t Ht%list_elem_of_lookup_2. apply elem_of_run_rows in Ht as (_ & <- & <-). done. }
  by apply NoDup_fmap_filterb.
Qed.

Section Sub.
Context (kept : list BaseOperator) (p : bool).
Abbreviation ids := (task_id <$> kept).
Abbreviation sub := (with_tasks (restrict_relatives ids <$> kept) p dag).
Context (Hkept : kept ⊆ task_dict dag) (Hwf' : graph_wf sub) (Hids : task_ids sub = ids).
Context (Hpart : p = true ↔ partial dag = true ∨ ∃ x, x ∈ task_ids dag ∧ x ∉ task_ids sub).
Context (Hdown : ∀ x, x ∈ downstream_task_ids task → x ∈ task_ids sub).
Context (Hup : ∀ t x, t ∈ task_dict dag → task_id t ∈ downstream_task_ids task → x ∈ upstream_task_ids t → x ∈ task_ids sub).

Lemma sub_rows : run_rows sub dr s = List.filter (λ t, TI.task_id t ∈? ids) (run_rows dag dr s).
Proof.
  unfold run_rows in *. unfold get_task_instances in *. rewrite filter_filterb. apply List.filter_ext_in. intros t Ht%list_elem_of_In.
  cbn [opt_filter]. rewrite Hids. cbn [partial with_tasks].
  destruct (_ && _ && in_filter _ _) eqn:Eb; cbn [andb]; [|done].
  destruct (TI.task_id t ∈? ids) eqn:Ei; rewrite ?orb_true_r, ?andb_true_r, ?andb_false_r, ?orb_false_r.
  - destruct (partial dag); [|done]. symmetry. apply bool_decide_eq_true. apply bool_decide_eq_true in Ei.
    apply list_elem_of_fmap in Ei as (u & -> & Hu). apply list_elem_of_fmap. exists u. split; [done|]. by apply Hkept.
  - destruct p eqn:Ep; [done|]. exfalso. apply bool_decide_eq_false in Ei.
    destruct (partial dag) eqn:Epd; [by destruct Hpart as [_ Hp]; discriminate Hp; left|].
    destruct Hpart as [_ Hp]. discriminate Hp. right. exists (TI.task_id t). rewrite Hids. split; [|done].
    apply has_task_ids, Hknown. apply elem_of_filterb. rewrite Eb. cbn [opt_filter andb]. by rewrite Epd.
Qed.

Lemma sub_lookup t : t ∈ task_dict dag → task_id t ∈ ids → lookup_task sub (task_id t) = Some (restrict_relatives ids t).
Proof.
  intros Ht (u & Eu & Hu)%list_elem_of_fmap.
  assert (t = u) as ->.
  { pose proof (lookup_task_elem dag Hwf t Ht). pose proof (lookup_task_elem dag Hwf u (Hkept _ Hu)). congruence. }
  apply (lookup_task_elem sub Hwf' (restrict_relatives ids u)). cbn. apply list_elem_of_fmap. by exists u.
Qed.

Lemma sub_get_tasks l us :
  (∀ x, x ∈ l → x ∈ ids) → get_tasks dag l = Ok us → get_tasks sub l = Ok (restrict_relatives ids <$> us).
Proof.
  revert us. induction l as [|x l IH]; intros us Hl; cbn [get_tasks]; [by intros [= <-]|].
  intros (t & Ht & (ts & Hts & [= <-])%result_bind_ok)%result_bind_ok. unfold get_task in *.
  destruct (lookup_task dag x) as [t0|] eqn:E; [|done]. injection Ht as ->. apply lookup_task_Some in E as [Hin <-].
  rewrite (sub_lookup t Hin) by (apply Hl; left). cbn [mbind result_bind].
  rewrite (IH ts) by (done || set_solver). done.
Qed.

(** For a child the part of the DAG gives the same answer as the DAG. *)
Lemma child_met fin tid :
  tid ∈ downstream_task_ids task → ∀ objs objs', lookup_obj objs' tid = lookup_obj objs tid →
  met sub (List.filter (λ t, TI.task_id t ∈? ids) fin) s objs' tid = met dag fin s objs tid.
Proof.
  intros Hc objs objs' Eo. pose proof (wf_closed dag Hwf task false tid Htask Hc) as (t & -> & Ht)%list_elem_of_fmap.
  rewrite (met_ext sub _ s objs objs' _ Eo).
  unfold met, check_obj, get_task. rewrite (lookup_task_elem dag Hwf t Ht), (sub_lookup t Ht) by (rewrite <-Hids; by apply Hdown).
  cbn [mbind result_bind]. destruct (lookup_obj objs (task_id t)) as [a|]; [|done].
  destruct (upstream_list_spec dag Hwf t Ht) as (ups & Hups & Hel).
  assert (∀ x, x ∈ upstream_task_ids t → x ∈ ids) as Hin by (intros x Hx; rewrite <-Hids; by eapply Hup).
  pose proof (are_dependencies_met_agrees dag (restrict_relatives ids <$> kept) p s ids t ups fin (Hplain t Ht Hc) Hin Hups) as Hag.
  assert (upstream_list sub (restrict_relatives ids t) = Ok (restrict_relatives ids <$> ups)) as Hups'.
  { unfold upstream_list in *. rewrite (upstream_kept ids t Hin). by apply sub_get_tasks. }
  specialize (Hag Hups' (λ u Hu, Hin _ (proj2 (proj1 (Hel u) Hu))) (current a)).
  destruct (are_dependencies_met dag t s _) as [[b st]|e], (are_dependencies_met sub _ s _) as [[b' st']|e']; cbn in Hag; try done.
Qed.

Lemma child_decisions info info' s1 s1' :
  task_instance_scheduling_decisions dag dr s = Ok (info, s1) → task_instance_scheduling_decisions sub dr s = Ok (info', s1') →
  List.filter (λ x, negb (x ∈? List.filter (λ x, negb (x ∈? downstream_task_ids task)) (task_ids sub))) (schedulable_tis info') =
  List.filter (λ x, x ∈? downstream_task_ids task) (schedulable_tis info).
Proof.
  intros Hi Hi'. apply decisions_ready in Hi; [|done|apply run_rows_NoDup].
  apply decisions_ready in Hi'; [| |apply run_rows_NoDup].
  2: { intros t. rewrite sub_rows. intros [Ht _]%elem_of_filterb. apply has_task_ids. rewrite Hids. by apply bool_decide_eq_true in Ht. }
  rewrite Hi, Hi', sub_rows. set (rows := run_rows dag dr s) in *.
  assert (scheduleable_ids (List.filter (λ t, TI.task_id t ∈? ids) rows) = List.filter (λ x, x ∈? ids) (scheduleable_ids rows)) as ->.
  { unfold scheduleable_ids. clear. induction rows as [|t rows IH]; [done|]. cbn [List.filter].
    destruct (TI.task_id t ∈? ids) eqn:E; cbn [List.filter]; destruct (_ && _); cbn [fmap list_fmap List.filter]; rewrite ?E; by rewrite <-?IH. }
  assert (List.filter (λ t, TI.state t ∈? State.finished) (List.filter (λ t, TI.task_id t ∈? ids) rows) =
          List.filter (λ t, TI.task_id t ∈? ids) (List.filter (λ t, TI.state t ∈? State.finished) rows)) as ->.
  { rewrite !filter_filterb. apply List.filter_ext. intros t. apply andb_comm. }
  generalize (List.filter (λ t, TI.state t ∈? State.finished) rows) as fin. intros fin.
  rewrite !filter_filterb. apply List.filter_ext_in. intros x Hx%list_elem_of_In.
  destruct (x ∈? downstream_task_ids task) eqn:Ed.
  - apply bool_decide_eq_true in Ed. rewrite (bool_decide_eq_true_2 (x ∈ ids)) by (rewrite <-Hids; by apply Hdown).
    rewrite bool_decide_eq_false_2, andb_true_r by (rewrite elem_of_filterb, negb_true_iff, bool_decide_eq_false; tauto).
    cbn [andb negb]. rewrite !andb_true_r. apply child_met; [done|].
    unfold scheduleable_ids in Hx. apply list_elem_of_fmap in Hx as (t & -> & [_ Ht]%elem_of_filterb).
    rewrite !lookup_attached; try done; [apply run_rows_NoDup|by apply NoDup_fmap_filterb, run_rows_NoDup|].
    apply elem_of_filterb. split; [|done]. apply bool_decide_eq_true. rewrite <-Hids. by apply Hdown.
  - rewrite andb_false_r. destruct (x ∈? ids) eqn:Ei; [|done]. cbn [andb].
    rewrite (bool_decide_eq_true_2 (x ∈ List.filter _ _)); [by rewrite andb_false_r|].
    apply elem_of_filterb. rewrite Ed. split; [done|]. rewrite Hids. by apply bool_decide_eq_true in Ei.
Qed.
End Sub.
End Mini.

(** C24: after a task the mini scheduler schedules, among its child tasks, exactly
    those that the scheduler itself would schedule in the same database, although it
    only looks at the children and their direct upstream tasks; provided that no child
    waits for downstream tasks of the run before, and every task instance of the run
    belongs to a task of the DAG. *)
Theorem mini_scheduler_agrees `{Settings} dag task ti s dr ids n s' info s1 :
  graph_wf dag → task ∈ task_dict dag → ti_keys_unique (Model.task_instance s) →
  List.filter (λ r, (DR.dag_id r ≟ TI.dag_id ti) && (DR.execution_date r ≟ TI.execution_date ti)) (dag_run s) = [dr] →
  (∀ t, t ∈ run_rows dag dr s → has_task dag (TI.task_id t) = true) →
  (∀ t, t ∈ task_dict dag → task_id t ∈ downstream_task_ids task → wait_for_downstream t = false) →
  task_instance_scheduling_decisions dag dr s = Ok (info, s1) →
  _run_mini_scheduler_on_child_tasks dag task ti s = Ok (ids, n, s') →
  ids = List.filter (λ x, x ∈? downstream_task_ids task) (schedulable_tis info).
Proof.
  intros Hwf Htask Hkeys Hdr Hknown Hplain Hfull. unfold _run_mini_scheduler_on_child_tasks. rewrite Hdr.
  intros (sub & Hsub & ([info' s2] & Hi & ([num s3] & _ & [= <- _ _])%result_bind_ok)%result_bind_ok)%result_bind_ok.
  destruct (child_subset dag task Hwf Htask sub Hsub) as (kept & p & -> & Hkept & Hwf' & Hids & Hpart & Hdown & Hup).
  by apply (child_decisions dag task Hwf Htask dr s Hkeys Hknown Hplain kept p Hkept Hwf' Hids Hpart Hdown Hup _ _ _ _ Hfull Hi).
Qed.

(** ** Concrete jobs *)

Module LocalTaskJobSample.
Import Sample.

#[local] Instance settings : Settings := {| ALLOW_FUTURE_EXEC_DATES := false; ti_hash := λ _, 0 |}.

Definition row (d : datetime) (did tid : string) (st : option TaskInstanceState) : TaskInstance :=
  TI.mk tid did d None None None st 1 1 "worker" None "default_pool" 1 "default" 1 "BashOperator" None None (Some 42) "" None.
Definition run (d : datetime) (did : string) : DagRun :=
  {| DR.dag_id := did; DR.queued_at := None; DR.execution_date := d; DR.start_date := Some d; DR.end_date := None;
     DR._state := DR_RUNNING; DR.run_id := Some "scheduled"; DR.external_trigger := false; DR.run_type := DRT_SCHEDULED;
     DR.last_scheduling_decision := None; DR.dag_hash := None |}.

Definition done_a : TaskInstance := row 1000 "diamond" "a" (Some SUCCESS).
Definition after_a : Session :=
  mk_session [row 1000 "diamond" "d" None; row 1000 "diamond" "b" None; row 1000 "diamond" "c" None; done_a] [run 1000 "diamond"].

(** After the first task of the diamond its two children are scheduled. *)
Example diamond_children :
  (λ r, r.1) <$> _run_mini_scheduler_on_child_tasks diamond op_a done_a after_a = Ok (["b"; "c"], 2).
Proof. vm_compute. reflexivity. Qed.

Lemma mini_scheduler_agrees_witness :
  ∃ info s1, task_instance_scheduling_decisions diamond (run 1000 "diamond") after_a = Ok (info, s1) ∧
    ["b"; "c"] = List.filter (λ x, x ∈? downstream_task_ids op_a) (schedulable_tis info).
Proof.
  destruct (task_instance_scheduling_decisions diamond (run 1000 "diamond") after_a) as [[info s1]|] eqn:E; [|by vm_compute in E].
  exists info, s1. split; [done|].
  destruct (_run_mini_scheduler_on_child_tasks diamond op_a done_a after_a) as [[[ids n] s']|] eqn:Em; [|by vm_compute in Em].
  assert (["b"; "c"] = ids) as ->.
  { assert ((λ r, r.1.1) <$> _run_mini_scheduler_on_child_tasks diamond op_a done_a after_a = Ok ["b"; "c"]) as Hids by (vm_compute; reflexivity).
    rewrite Em in Hids. by injection Hids. }
  eapply (mini_scheduler_agrees diamond op_a done_a after_a (run 1000 "diamond")); [apply diamond_wf|..|exact E|exact Em].
  - by do 3 right; left.
  - apply (bool_decide_unpack _). by vm_compute.
  - vm_compute. reflexivity.
  - assert (Forall (λ t, has_task diamond (TI.task_id t) = true) (run_rows diamond (run 1000 "diamond") after_a)) as Hall
      by (apply (bool_decide_unpack _); by vm_compute).
    rewrite Forall_forall in Hall. exact Hall.
  - assert (Forall (λ t, wait_for_downstream t = false) (task_dict diamond)) as Hall by (apply (bool_decide_unpack _); by vm_compute).
    rewrite Forall_forall in Hall. intros t Ht _. by apply Hall.
Defined.

(** *** Where the part of the DAG is not enough *)

Definition with_rule (wait : bool) (rule : TriggerRule) (t : BaseOperator) : BaseOperator :=
  {| task_id := task_id t; task_type := task_type t; retries := retries t; retry_delay := retry_delay t;
     retry_exponential_backoff := retry_exponential_backoff t; max_retry_delay := max_retry_delay t;
     op_start_date := op_start_date t; op_end_date := op_end_date t; depends_on_past := wait;
     wait_for_downstream := wait; trigger_rule := rule; op_priority_weight := op_priority_weight t;
     weight_rule := weight_rule t; op_queue := op_queue t; op_pool := op_pool t; op_pool_slots := op_pool_slots t;
     task_concurrency := task_concurrency t; on_execute_callback := on_execute_callback t; on_success_callback := on_success_callback t;
     inherits_from_dummy_operator := inherits_from_dummy_operator t; is_SkipMixin := is_SkipMixin t;
     op_executor_config := op_executor_config t; deps := deps t; upstream_task_ids := upstream_task_ids t;
     downstream_task_ids := downstream_task_ids t |}.

(** The chain x -> t -> u, where [t] waits for the downstream tasks of its previous
    run; there [u] still runs. *)
Definition op_x := mk_op "x" ALL_SUCCESS [] ["t"].
Definition chain : DAG :=
  mk_dag "chain" [op_x; with_rule true ALL_SUCCESS (mk_op "t" ALL_SUCCESS ["x"] ["u"]); mk_op "u" ALL_SUCCESS ["t"] []].
Definition chain_db : Session :=
  mk_session [row 1000 "chain" "x" (Some SUCCESS); row 1000 "chain" "t" (Some SUCCESS); row 1000 "chain" "u" (Some RUNNING);
              row 2000 "chain" "x" (Some SUCCESS); row 2000 "chain" "t" None; row 2000 "chain" "u" None]
             [run 1000 "chain"; run 2000 "chain"].

(** The scheduler does not schedule [t]; the mini scheduler does, since the
    downstream tasks of [t] are not in its part of the DAG. *)
Example wait_for_downstream_ignored :
  (λ r, schedulable_tis r.1) <$> task_instance_scheduling_decisions chain (run 2000 "chain") chain_db = Ok [] ∧
  (λ r, r.1.1) <$> _run_mini_scheduler_on_child_tasks chain op_x (row 2000 "chain" "x" (Some SUCCESS)) chain_db = Ok ["t"].
Proof. split; vm_compute; reflexivity. Qed.

(** The child [c] of [x] has the direct upstream tasks [x], [p] and [f]; [p] has the
    upstream tasks [f] and [y] and runs when one of them succeeded.  [f] failed and
    [y] still runs, but [y] is not in the part of the DAG. *)
Definition op_x' := mk_op "x" ALL_SUCCESS [] ["c"].
Definition partial_parents : DAG :=
  mk_dag "parents" [op_x'; mk_op "f" ALL_SUCCESS [] ["c"; "p"]; mk_op "y" ALL_SUCCESS [] ["p"];
                    mk_op "p" ONE_SUCCESS ["f"; "y"] ["c"]; mk_op "c" ALL_DONE ["x"; "p"; "f"] []].
Definition parents_db : Session :=
  mk_session [row 1000 "parents" "x" (Some SUCCESS); row 1000 "parents" "f" (Some FAILED); row 1000 "parents" "y" (Some RUNNING);
              row 1000 "parents" "p" None; row 1000 "parents" "c" None] [run 1000 "parents"].
Definition p_state (s : Session) : option (option TaskInstanceState) := TI.state <$> find_ti ("parents", "p", 1000) s.

(** The mini scheduler marks [p] as upstream failed; the scheduler leaves it. *)
Example parent_marked_wrongly :
  (λ r, p_state r.2) <$> _run_mini_scheduler_on_child_tasks partial_parents op_x' (row 1000 "parents" "x" (Some SUCCESS)) parents_db
    = Ok (Some (Some UPSTREAM_FAILED)) ∧
  (λ r, p_state r.2) <$> schedule_round partial_parents (run 1000 "parents") false parents_db = Ok (Some None).
Proof. split; vm_compute; reflexivity. Qed.

(** *** Callbacks *)

Definition the_runner : Runner := {| fqdn := "worker"; current_pid := 42; run_as_user := false; ppid := λ _, 0 |}.
Definition job0 : LocalTaskJob :=
  {| task_instance := row 1000 "diamond" "a" (Some RUNNING); terminating := false; job_state := Some RUNNING;
     latest_heartbeat := 4990; heartrate := 5; callbacks := []; stops := 0 |}.
Definition running_db : Session :=
  mk_session [row 1000 "diamond" "d" None; row 1000 "diamond" "b" None; row 1000 "diamond" "c" None;
              row 1000 "diamond" "a" (Some RUNNING)] [run 1000 "diamond"].
Definition mark_a (st : TaskInstanceState) (s : Session) : Session :=
  with_task_instance (update_where (λ t, TI.task_id t ≟ "a") (TI.set_state (Some st)) (Model.task_instance s)) s.
Definition tick (f : Session → Session) (term : bool) (rc : option Z) : Tick :=
  {| outside := f; sigterm := term; LocalTaskJob.return_code := rc; fault := NoFault |}.
Abbreviation the_loop ticks := (job_loop diamond op_a true the_runner 300 ticks job0 running_db).

(** A heartbeat, then the process ends with success. *)
Definition two_ticks : list Tick := [tick id false None; tick (mark_a SUCCESS) false (Some 0)].

Lemma callback_runs_once_witness :
  ∃ j s, the_loop two_ticks = (j, s, Over None) ∧ ∃ st, callbacks j = [st] ∧ st ≠ Some RUNNING.
Proof.
  assert ((the_loop two_ticks).2 = Over None) as Hr by (vm_compute; reflexivity).
  destruct (the_loop two_ticks) as [[j s] r] eqn:E. cbn [snd] in Hr. subst r. exists j, s. split; [reflexivity|].
  assert (Forall (λ t, sigterm t = false) two_ticks) as Hs by (apply (bool_decide_unpack _); by vm_compute).
  exact (callback_runs_once diamond op_a true the_runner 300 two_ticks job0 running_db j s (Over None) Hs eq_refl eq_refl E).
Defined.

(** A SIGTERM while the job waits for the process: the signal handler handles the
    exit of the task, and the loop handles it once more, so that the callback runs
    twice. *)
Example sigterm_runs_callback_twice :
  let '(j, _, _) := the_loop [tick id true (Some (-15))] in callbacks j = [Some UP_FOR_RETRY; Some UP_FOR_RETRY].
Proof. vm_compute. reflexivity. Qed.
End LocalTaskJobSample.
