(* ===== verification/System.v ===== *)
(** * System: schedulers and workers on one database

    The transactions of workers, next to those of schedulers ([SchedulerLoop]):
    the start of an attempt ([TiDeps]), the execution of an operator
    ([TaskInstance]), the exit of a task with the scheduling of its children
    ([LocalTaskJob]), and the skipping of tasks by operators ([Skip]).

    A worker may start a row in any state that the checks of
    [check_and_change_state_before_execution] let through, and it makes these checks on
    what it reads: only its own row is locked, so the rows it counts may have
    changed when it writes.  The theorem bounds how far a limit can be exceeded by
    what workers start without a slot having been reserved for it; when they
    start queued rows only, as the schedulers' commands make them do, no limit is
    ever exceeded.

    Users' changes (clearing, marking, the state of a pool), the backfill job and
    what the code of an operator writes itself are no transactions of this model. *)

From S2P Require Import Prelude State Model Sample Graph Timetable DagRunQuery TaskInstance DagClear PoolSlots TiDeps Skip DagRun Executor Scheduler SchedulerEvents SchedulerRuns SchedulerCreate SchedulerLoop LocalTaskJob.

Import TiDeps Executor Scheduler SchedulerLoop.

Module System.
Local Open Scope Z_scope.

(** The row of [t] already takes the slots that [t] takes. *)
Definition reserved (t : TaskInstance) (s : Session) : bool :=
  existsb (λ r, same_ti t r && active r && (TI.pool r ≟ TI.pool t) && (TI.pool_slots t <=? TI.pool_slots r)) (task_instance s).

(** What writing [t] adds to the running and queued task instances that no
    scheduler has counted. *)
Definition unreserved (t : TaskInstance) (s : Session) : list TaskInstance :=
  if active t && negb (reserved t s) then [t] else [].

Section Steps.
Context `{Settings} (dagbag : string → result (option DAG)) (dags_hash latest_hash : string → option string)
        (cron_schedule : string → Timetable.Schedule) (hook : TaskInstance → TaskInstance)
        (isoformat : datetime → string) (pickle_id : TaskInstance → option Z)
        (path : TaskInstance → option string).

(** The operator ends at once: what [run_raw_task] leaves then is what it wrote
    before it ran the operator. *)
Definition at_start (t : TaskInstance) (s : Session) : TaskInstance.Outcome * TaskInstance * Session :=
  (TaskInstance.AirflowSmartSensorException, t, s).

(** One transaction of a worker, with what it adds beyond the reserved slots.

    An attempt makes its checks on [s0], what the worker read before; its own row
    is locked and is the same in [s0] and [s].  The execution has a part before and
    a part after the operator; the second one starts from the object that the
    operator leaves, in the database of that moment. *)
Inductive worker_step : Session → list TaskInstance → Session → Prop :=
| work_started dag task host all past tdeps tstate mark_success job_id pool ti s0 ti' s0' s :
    dagbag (TI.dag_id ti) = Ok (Some dag) → lookup_task dag (TI.task_id ti) = Some task →
    find_ti (TI.primary ti) s0 = find_ti (TI.primary ti) s →
    check_and_change_state_before_execution dag task host all past tdeps tstate mark_success false job_id pool ti s0
      = Ok (true, ti', s0') →
    worker_step s (unreserved ti' s) (merge_ti ti' s)
| work_refused dag task host all past tdeps tstate mark_success job_id pool ti s0 ti' s0' s s' :
    dagbag (TI.dag_id ti) = Ok (Some dag) → lookup_task dag (TI.task_id ti) = Some task →
    find_ti (TI.primary ti) s0 = find_ti (TI.primary ti) s →
    check_and_change_state_before_execution dag task host all past tdeps tstate mark_success false job_id pool ti s0
      = Ok (false, ti', s0') →
    (s0' = s0 ∧ s' = s ∨ s0' ≠ s0 ∧ s' = merge_ti ti' s) →
    worker_step s [] s'
| work_run_start dag task host pid job_id pool ti ex ti' s s' :
    dagbag (TI.dag_id ti) = Ok (Some dag) → lookup_task dag (TI.task_id ti) = Some task →
    TaskInstance.run_raw_task host pid at_start dag task false false job_id pool ti s = Ok (ex, ti', s') →
    worker_step s (unreserved ti' s) s'
| work_run_end dag task host pid job_id pool ti outcome ti1 ex s0 ti' s s' :
    dagbag (TI.dag_id ti) = Ok (Some dag) → lookup_task dag (TI.task_id ti) = Some task →
    0 ≤ TI.pool_slots ti1 →
    TaskInstance.run_raw_task host pid (λ _ _, (outcome, ti1, s)) dag task false false job_id pool ti s0 = Ok (ex, ti', s') →
    worker_step s [] s'
| work_exit_failure task ti s :
    0 ≤ TI.pool_slots ti →
    worker_step s [] (TaskInstance.handle_failure task false false ti s).2
| work_children dag task ti ids n s s' :
    LocalTaskJob._run_mini_scheduler_on_child_tasks dag task ti s = Ok (ids, n, s') → worker_step s [] s'
| work_paused dag ti s s' : LocalTaskJob._update_dagrun_state_for_paused_dag dag ti s = Ok s' → worker_step s [] s'
| work_skip dag did self_task_id dr d tasks s :
    dagbag did = Ok (Some dag) → tasks ⊆ task_dict dag →
    worker_step s [] (Skip.skip dag self_task_id dr d tasks s).2
| work_branch dag did task ti branch s s' :
    dagbag did = Ok (Some dag) → Skip.skip_all_except dag task ti branch s = Ok s' → worker_step s [] s'.

(** Any interleaving of transactions, with all that workers started beyond the
    reserved slots. *)
Inductive system_steps : Session → list TaskInstance → Session → Prop :=
| steps_done s : system_steps s [] s
| steps_scheduler s s1 extra s2 :
    sched_step dagbag dags_hash latest_hash cron_schedule hook isoformat pickle_id path s s1 →
    system_steps s1 extra s2 → system_steps s extra s2
| steps_worker s e s1 extra s2 : worker_step s e s1 → system_steps s1 extra s2 → system_steps s (e ++ extra) s2.

(** Every limit is exceeded by at most what [extra] takes. *)
Record within_extra (extra : list TaskInstance) (s : Session) : Prop := {
  we_pool : ∀ p, p ∈ slot_pool s → slots p ≠ -1 →
    PoolSlots.occupied_slots p s ≤ slots p + sumb (in_pool (pool_name p)) TI.pool_slots extra;
  we_dag : ∀ did dm, dag_model_of did s = Some dm →
    dag_active did s ≤ dm_max_active_tasks dm + countb (λ t, TI.dag_id t ≟ did) extra;
  we_task : ∀ did dm dag tid task l, dag_model_of did s = Some dm → has_task_concurrency_limits dm = true →
    dagbag did = Ok (Some dag) → lookup_task dag tid = Some task → task_concurrency task = Some l →
    task_active (did, tid) s ≤ l + countb (λ t, task_key t ≟ (did, tid)) extra;
}.

Definition state_ok (extra : list TaskInstance) (s : Session) : Prop :=
  rows_ok s ∧ NoDup (pool_name <$> slot_pool s) ∧ Forall (λ t, 0 ≤ TI.pool_slots t) extra ∧ within_extra extra s.
End Steps.
End System.
Import DagRun System.

(** ** Writing one task instance *)

Section Writes.
Local Open Scope Z_scope.
Implicit Types (s : Session) (t : TaskInstance).

Lemma merge_ti_split t s : ti_keys_unique (task_instance s) →
  (∃ l1 r l2, task_instance s = l1 ++ r :: l2 ∧ TI.primary r = TI.primary t ∧ task_instance (merge_ti t s) = l1 ++ t :: l2) ∨
  ((∀ r, r ∈ task_instance s → TI.primary r ≠ TI.primary t) ∧ task_instance (merge_ti t s) = task_instance s ++ [t]).
Proof.
  intros Hk. unfold merge_ti. destruct (existsb (same_ti t) (task_instance s)) eqn:E; cbn [with_task_instance task_instance].
  - left. apply existsb_exists in E as (r & Hr & Hsame%same_ti_eq). apply list_elem_of_In, list_elem_of_split in Hr as (l1 & l2 & Hl).
    exists l1, r, l2. split_and!; [done..|]. unfold ti_keys_unique in Hk. rewrite Hl, fmap_app, fmap_cons in Hk.
    apply NoDup_app in Hk as (_ & H1 & H2). apply NoDup_cons in H2 as [H2 _].
    assert (∀ l : list TaskInstance, (∀ x, x ∈ l → TI.primary x ≠ TI.primary r) → (λ r : TaskInstance, if same_ti t r then t else r) <$> l = l) as Hid.
    { intros l Hl'. rewrite <-(list_fmap_id l) at 2. apply list_fmap_ext. intros i x Hx%list_elem_of_lookup_2.
      destruct (same_ti t x) eqn:Ex; [|done]. apply same_ti_eq in Ex. destruct (Hl' x Hx). congruence. }
    unfold update_where. rewrite Hl, fmap_app, fmap_cons, (proj2 (same_ti_eq t r)) by done. rewrite !Hid; [done|..].
    + intros x Hx Hp. apply H2. rewrite <-Hp. by apply list_elem_of_fmap_2.
    + intros x Hx Hp. apply (H1 (TI.primary r)); [|left]. rewrite <-Hp. by apply list_elem_of_fmap_2.
  - right. split; [|done]. intros r Hr Hp. assert (existsb (same_ti t) (task_instance s) = true) as He; [|congruence].
    apply existsb_exists. exists r. split; [by apply list_elem_of_In|]. by apply same_ti_eq.
Qed.

(** Writing [t] adds at most [t] to what a limit counts, and nothing when its row
    takes as much already. *)
Lemma sumb_merge_unreserved (sel : TaskInstance → bool) (w : TaskInstance → Z) t s :
  rows_ok s → (∀ r, TI.primary r = TI.primary t → TI.pool r = TI.pool t → sel r = sel t) →
  (∀ r, 0 ≤ TI.pool_slots r → 0 ≤ w r) → (∀ r, TI.pool_slots t ≤ TI.pool_slots r → w t ≤ w r) →
  sumb (λ r, active r && sel r) w (task_instance (merge_ti t s)) ≤
  sumb (λ r, active r && sel r) w (task_instance s) + sumb sel w (unreserved t s).
Proof.
  intros [Hk Hs] Hsel Hw Hmono. unfold unreserved.
  destruct (merge_ti_split t s Hk) as [(l1 & r & l2 & Hl & Hp & ->)|[Hno ->]].
  - assert (0 ≤ w r) as Hr by (apply Hw, Hs; rewrite Hl; set_solver). rewrite Hl, !sumb_app, !sumb_cons.
    destruct (active t) eqn:Ea; cbn [andb]; [|destruct (active r && sel r); rewrite sumb_nil; lia].
    destruct (reserved t s) eqn:Er; cbn [negb].
    + unfold reserved in Er. apply existsb_exists in Er as (x & Hx%list_elem_of_In & Hx').
      rewrite !andb_true_iff, same_ti_eq, bool_decide_eq_true, Z.leb_le in Hx'. destruct Hx' as [[[X1 X2] X3] X4].
      assert (x = r) as -> by (eapply ti_key_inj; [exact Hk|done|rewrite Hl; set_solver|congruence]).
      rewrite (Hsel r) by done. rewrite X2. cbn [andb]. specialize (Hmono r X4). rewrite sumb_nil. destruct (sel t); lia.
    + rewrite sumb_cons, sumb_nil. destruct (active r && sel r), (sel t); lia.
  - rewrite sumb_app, sumb_cons, sumb_nil. destruct (active t) eqn:Ea; cbn [andb]; [|rewrite sumb_nil; lia].
    assert (reserved t s = false) as ->.
    { apply not_true_is_false. intros (x & Hx%list_elem_of_In & Hx')%existsb_exists.
      rewrite !andb_true_iff, same_ti_eq in Hx'. apply (Hno x Hx). naive_solver. }
    cbn [negb]. rewrite sumb_cons, sumb_nil. lia.
Qed.

Lemma occupied_as_sum p s :
  PoolSlots.occupied_slots p s = sumb (λ r, active r && in_pool (pool_name p) r) TI.pool_slots (task_instance s).
Proof. unfold PoolSlots.occupied_slots, PoolSlots.slots_in. apply sumb_ext; [intros; apply andb_comm|done]. Qed.

Context (dagbag : string → result (option DAG)).

Lemma unreserved_slots t s : 0 ≤ TI.pool_slots t → Forall (λ t, 0 ≤ TI.pool_slots t) (unreserved t s).
Proof. intros Ht. unfold unreserved. destruct (_ && _); [by apply Forall_singleton|constructor]. Qed.

(** A write keeps the bounds, with what it adds. *)
Lemma write_ok extra t s : 0 ≤ TI.pool_slots t → state_ok dagbag extra s →
  state_ok dagbag (extra ++ unreserved t s) (merge_ti t s).
Proof.
  intros Ht (Hrows & Hn & Hex & [W1 W2 W3]). pose proof Hrows as [Hk Hs].
  assert (slot_pool (merge_ti t s) = slot_pool s ∧ dag_model (merge_ti t s) = dag_model s) as [Hsp Hdm]
    by (unfold merge_ti; by destruct (existsb _ _)).
  split; [split; [by apply merge_ti_keys|]|split; [by rewrite Hsp|split; [apply Forall_app; split; [done|by apply unreserved_slots]|]]].
  - destruct (merge_ti_split t s Hk) as [(l1 & r & l2 & Hl & _ & ->)|[_ ->]]; intros x Hx.
    + assert (x = t ∨ x ∈ task_instance s) as [->|Hx']; [rewrite Hl; set_solver|done|by apply Hs].
    + apply elem_of_app in Hx as [Hx|Hx%list_elem_of_singleton]; [by apply Hs|by subst].
  - split.
    + rewrite Hsp. intros p Hp Hsl. specialize (W1 p Hp Hsl). rewrite sumb_app, occupied_as_sum in *.
      etrans; [apply (sumb_merge_unreserved (in_pool (pool_name p)) TI.pool_slots t s Hrows); [|done..]|lia].
      unfold in_pool. by intros r _ ->.
    + intros did dm Hd. unfold dag_model_of in Hd. rewrite Hdm in Hd. specialize (W2 did dm Hd).
      unfold dag_active in *. rewrite countb_app, !countb_sumb in *.
      etrans; [apply (sumb_merge_unreserved (λ r, TI.dag_id r ≟ did) (λ _, 1)); [done|by intros r [= -> _ _]|lia|lia]|]. lia.
    + intros did dm dag tid task l Hd Hc Hb Htk Hl. unfold dag_model_of in Hd. rewrite Hdm in Hd.
      specialize (W3 did dm dag tid task l Hd Hc Hb Htk Hl). unfold task_active in *. rewrite countb_app, !countb_sumb in *.
      etrans; [apply (sumb_merge_unreserved (λ r, task_key r ≟ (did, tid)) (λ _, 1)); [done| |lia|lia]|]; [|lia].
      unfold task_key. by intros r [= -> -> _].
Qed.

(** A quiet change keeps the bounds. *)
Lemma quiet_ok extra s s' : quiet s s' → state_ok dagbag extra s → state_ok dagbag extra s'.
Proof.
  intros Hq (Hrows & Hn & Hex & [L1 L2 L3]).
  pose proof (quiet_model s s' Hq) as Hm.
  split; [by apply (quiet_rows _ _ Hq)|]. split; [by rewrite (quiet_pools _ _ Hq)|]. split; [done|]. split.
  - rewrite (quiet_pools _ _ Hq). intros p Hp Hs. etrans; [by apply quiet_occupied|by apply L1].
  - intros did dm Hd. destruct (Hm did dm Hd) as (dm0 & Hd0 & <- & _). etrans; [by apply quiet_dag_active|by apply L2].
  - intros did dm dag tid task l Hd Hc Hb Ht Hl. destruct (Hm did dm Hd) as (dm0 & Hd0 & _ & Hc0).
    etrans; [by apply quiet_task_active|]. by eapply L3; eauto; congruence.
Qed.

Lemma quiet_inactive s t : active t = false → 0 ≤ TI.pool_slots t → quiet s (merge_ti t s).
Proof. intros Ha Ht. apply quiet_merge_gen; [apply quiet_refl|congruence|done]. Qed.
End Writes.

(** ** What the operations of workers write *)

Section Workers.
Local Open Scope Z_scope.
Context `{Settings} (dag : DAG).

(** An object under check: its key and slots stay, and it is written only in a
    state that takes no slot. *)
Definition under_check (k : string * string * datetime) (n : Z) (st : DepState) : Prop :=
  TI.primary (ds_ti st) = k ∧ TI.pool_slots (ds_ti st) = n ∧ (ds_merged st = true → active (ds_ti st) = false).

Lemma under_check_set k n now st0 st : st0 ∈ [SKIPPED; UPSTREAM_FAILED] →
  under_check k n st → under_check k n (ds_set_state now st0 st).
Proof.
  intros Hst (H1 & H2 & _). unfold under_check, ds_set_state, TaskInstance.set_state_obj. cbn [ds_ti ds_merged].
  split_and!; [by destruct (_ || _)|by destruct (_ || _)|]. intros _. unfold active.
  repeat (apply elem_of_cons in Hst as [->|Hst]); [..|by apply elem_of_nil in Hst]; by destruct (_ || _).
Qed.

Lemma get_dep_statuses_check k n task s dep st l st' :
  get_dep_statuses dag task s dep st = Ok (l, st') → under_check k n st → under_check k n st'.
Proof.
  intros Hok Hc. assert (∀ l1 st1, ds_finished_tasks dag s st = (l1, st1) → under_check k n st1) as Hfin.
  { intros l1 st1 E. apply ds_finished_tasks_eq in E as (E1 & E2 & _). unfold under_check. by rewrite E1, E2. }
  revert Hok. unfold get_dep_statuses. destruct (IGNORABLE dep && _); [by intros [= _ <-]|].
  destruct (IS_TASK_DEP dep && _); [by intros [= _ <-]|].
  destruct dep; cbn [_get_dep_statuses]; try (by intros [= _ <-]); try (by intros (x & _ & [= _ <-])%result_bind_ok).
  - unfold trigger_rule_statuses. intros (ups & _ & Hok)%result_bind_ok.
    do 2 (case_bool_decide; [by injection Hok as _ <-|]).
    destruct (ds_finished_tasks dag s st) as [fin st1] eqn:E. specialize (Hfin _ _ eq_refl).
    unfold _evaluate_trigger_rule in Hok. injection Hok as _ <-. destruct (flag_upstream_failed _); [|done].
    destruct (instant_state _ _ _) as [x|] eqn:Ei; [|done]. apply under_check_set; [|done].
    destruct (trigger_rule task); cbn [instant_state] in Ei; repeat case_match; simplify_eq; set_solver.
  - unfold not_previously_skipped_statuses. intros (ups & _ & Hok)%result_bind_ok.
    destruct (ds_finished_tasks dag s st) as [fin st1] eqn:E. specialize (Hfin _ _ eq_refl).
    destruct (List.find _ _); injection Hok as <- <-; [|done]. apply under_check_set; [set_solver|done].
Qed.

Lemma are_dependencies_met_check k n task s st b st' :
  are_dependencies_met dag task s st = Ok (b, st') → under_check k n st → under_check k n st'.
Proof.
  unfold are_dependencies_met, get_failed_dep_statuses. intros ([l st1] & Hf & [= _ <-])%result_bind_ok Hc.
  refine (foldM_invariant (λ x, under_check k n x.2) _ _ _ (l, st1) _ _ Hf); [|done].
  intros dep [a x] [a' x'] _ Hx Hstep. unfold failed_step in Hstep.
  apply result_bind_ok in Hstep as ([l2 x1] & Hget & [= <- <-]). by eapply get_dep_statuses_check.
Qed.

(** The two rounds of checks write nothing, or the object in a state that takes
    no slot. *)
Lemma check_rounds_writes task all past tdeps tstate ti s go ti' s' :
  check_rounds dag task all past tdeps tstate ti s = Ok (go, ti', s') →
  TI.primary ti' = TI.primary ti ∧ TI.pool_slots ti' = TI.pool_slots ti ∧
  (go = true → s' = s) ∧ (go = false → s' = s ∨ active ti' = false).
Proof.
  unfold check_rounds. intros ([m1 st1] & H1 & Hok)%result_bind_ok.
  apply (are_dependencies_met_check (TI.primary ti) (TI.pool_slots ti)) in H1 as (A1 & A2 & A3); [|by split_and!].
  destruct m1; cbn [negb] in Hok.
  - apply result_bind_ok in Hok as ([m2 st2] & H2 & Hok).
    apply (are_dependencies_met_check (TI.primary ti) (TI.pool_slots ti)) in H2 as (B1 & B2 & _); [|by split_and!].
    destruct m2; injection Hok as <- <- <-; split_and!; try done. intros _. by right.
  - injection Hok as <- <- <-. split_and!; try done. intros _. unfold commit_ti.
    destruct (ds_merged st1); [right; by apply A3|by left].
Qed.

(** The slots of an object when it was read: those of its task or of its row. *)
Lemma refreshed_slots ti s : (∀ r, find_ti (TI.primary ti) s = Some r → 0 ≤ TI.pool_slots r) → 0 ≤ TI.pool_slots ti →
  0 ≤ TI.pool_slots (TaskInstance.refresh_from_db ti s).
Proof.
  intros Hr Ht. unfold TaskInstance.refresh_from_db. destruct (find_ti _ _) as [r|]; [|done]. cbn [TI.pool_slots].
  specialize (Hr r eq_refl). destruct (_ =? 0); lia.
Qed.

Lemma refresh_from_task_slots task pool ti ti1 : TaskInstance.refresh_from_task dag task pool ti = Ok ti1 →
  TI.primary ti1 = TI.primary ti ∧ TI.pool_slots ti1 = op_pool_slots task.
Proof. unfold TaskInstance.refresh_from_task. by intros (w & _ & [= <-])%result_bind_ok. Qed.

Lemma refresh_from_db_primary ti s : TI.primary (TaskInstance.refresh_from_db ti s) = TI.primary ti.
Proof. unfold TaskInstance.refresh_from_db. by destruct (find_ti _ _). Qed.

(** What the start of an attempt writes: its object when it goes on; otherwise
    nothing, or the object in a state that takes no slot. *)
Lemma attempt_writes task host all past tdeps tstate ms job_id pool ti s go ti' s' :
  0 ≤ op_pool_slots task → (∀ r, find_ti (TI.primary ti) s = Some r → 0 ≤ TI.pool_slots r) →
  check_and_change_state_before_execution dag task host all past tdeps tstate ms false job_id pool ti s = Ok (go, ti', s') →
  TI.primary ti' = TI.primary ti ∧ 0 ≤ TI.pool_slots ti' ∧ (go = false → s' = s ∨ active ti' = false).
Proof.
  intros Ht Hr. unfold check_and_change_state_before_execution. intros (t1 & H1 & Hok)%result_bind_ok.
  apply refresh_from_task_slots in H1 as [P1 S1]. rewrite <-P1 in Hr. pose proof (refreshed_slots t1 s Hr ltac:(by rewrite S1)) as Hsl.
  pose proof (refresh_from_db_primary t1 s) as P2.
  apply result_bind_ok in Hok as ([[g t2] s2] & H2 & Hok).
  assert (TI.primary t2 = TI.primary ti ∧ 0 ≤ TI.pool_slots t2 ∧ (g = true → s2 = s) ∧ (g = false → s2 = s ∨ active t2 = false))
    as (A1 & A2 & A3 & A4).
  { destruct ms; [injection H2 as <- <- <-; split_and!; [by rewrite <-P1, <-P2|done|done|done]|].
    apply check_rounds_writes in H2 as (B1 & B2 & B3 & B4). split_and!; [|by rewrite B2|done|done].
    rewrite B1, <-P1, <-P2. done. }
  by destruct g; injection Hok as <- <- <-; split_and!.
Qed.

Lemma run_start_writes host pid task job_id pool ti s ex ti' s' :
  0 ≤ op_pool_slots task → (∀ r, r ∈ task_instance s → 0 ≤ TI.pool_slots r) →
  TaskInstance.run_raw_task host pid at_start dag task false false job_id pool ti s = Ok (ex, ti', s') →
  0 ≤ TI.pool_slots ti' ∧ s' = merge_ti ti' s.
Proof.
  intros Ht Hs. unfold TaskInstance.run_raw_task. intros (t1 & H1 & Hok)%result_bind_ok. cbn [at_start] in Hok.
  injection Hok as _ <- <-. split; [|done]. apply refresh_from_task_slots in H1 as [_ S1].
  apply refreshed_slots; [|by rewrite S1]. intros r [Hr _]%find_ti_elem. by apply Hs.
Qed.

Lemma failure_quiet task force ti s : 0 ≤ TI.pool_slots ti → quiet s (TaskInstance.handle_failure task false force ti s).2.
Proof.
  intros Ht. unfold TaskInstance.handle_failure. cbn [snd].
  match goal with |- quiet s (merge_ti ?t s) => assert (active t = false ∧ TI.pool_slots t = TI.pool_slots ti) as [H1 H2] end.
  { unfold TaskInstance.set_duration. by destruct (_ || _), (TI.end_date _), (TI.start_date _). }
  by apply quiet_inactive; [|rewrite H2].
Qed.

(** Whatever the outcome of the operator, what is written afterwards takes no
    slot. *)
Lemma run_end_quiet host pid task job_id pool ti outcome ti1 ex s0 ti' s s' :
  rows_ok s → 0 ≤ TI.pool_slots ti1 →
  TaskInstance.run_raw_task host pid (λ _ _, (outcome, ti1, s)) dag task false false job_id pool ti s0 = Ok (ex, ti', s') →
  quiet s s'.
Proof.
  intros [_ Hs] H1. unfold TaskInstance.run_raw_task. intros (t0 & _ & Hok)%result_bind_ok. cbn beta iota zeta in Hok.
  assert (0 ≤ TI.pool_slots (TaskInstance.refresh_from_db ti1 s)) as Hr.
  { apply refreshed_slots; [|done]. intros r [Hr _]%find_ti_elem. by apply Hs. }
  assert (∀ t, TI.pool_slots (TaskInstance.set_duration t) = TI.pool_slots t ∧ TI.state (TaskInstance.set_duration t) = TI.state t) as Hd.
  { intros t. unfold TaskInstance.set_duration. by destruct (TI.end_date t), (TI.start_date t). }
  assert (∀ sd ed du st t, active (TaskInstance.set_duration (TI.set_dates sd ed du (TI.set_state st t))) = (st ∈? EXECUTION_STATES)) as Ha.
  { intros sd ed du st t. unfold active. by rewrite (proj2 (Hd _)). }
  destruct outcome.
  - injection Hok as _ _ <-. apply quiet_inactive; [by rewrite Ha|by rewrite (proj1 (Hd _))].
  - injection Hok as _ _ <-. apply quiet_refl.
  - injection Hok as _ _ <-. apply quiet_inactive; [by rewrite Ha|by rewrite (proj1 (Hd _))].
  - unfold TaskInstance.handle_reschedule in Hok. injection Hok as _ _ <-.
    eapply quiet_trans; [|apply quiet_inactive; [done|]].
    2: { unfold TaskInstance.set_duration. by destruct (TI.end_date _), (TI.start_date _). }
    by apply (quiet_same s s); [apply quiet_refl|..].
  - destruct (TaskInstance.handle_failure _ _ _ _ _) as [t2 s2] eqn:E. injection Hok as _ _ <-.
    change s2 with ((t2, s2).2). rewrite <-E. by apply failure_quiet.
  - destruct (_ ∈? _); [injection Hok as _ _ <-; apply quiet_refl|].
    destruct (TaskInstance.handle_failure _ _ _ _ _) as [t2 s2] eqn:E. injection Hok as _ _ <-.
    change s2 with ((t2, s2).2). rewrite <-E. by apply failure_quiet.
  - destruct (TaskInstance.handle_failure _ _ _ _ _) as [t2 s2] eqn:E. injection Hok as _ _ <-.
    change s2 with ((t2, s2).2). rewrite <-E. by apply failure_quiet.
Qed.
End Workers.

Section Steps.
Local Open Scope Z_scope.
Context `{Settings} (dagbag : string → result (option DAG)) (dags_hash latest_hash : string → option string)
        (cron_schedule : string → Timetable.Schedule) (hook : TaskInstance → TaskInstance)
        (isoformat : datetime → string) (pickle_id : TaskInstance → option Z)
        (path : TaskInstance → option string).
Context (Hhook : HookOk hook) (Hbag : BagOk dagbag).

Lemma skip_row_inactive now t : active (Skip.skip_row now t) = false.
Proof. done. Qed.

Lemma set_skipped_quiet dag did dr d tasks s s' :
  dagbag did = Ok (Some dag) → tasks ⊆ task_dict dag →
  Skip._set_state_to_skipped dag dr d tasks s = Ok s' → quiet s s'.
Proof.
  intros Hd Hsub. unfold Skip._set_state_to_skipped. destruct dr as [dr|].
  - intros [= <-]. apply quiet_update; [apply quiet_refl|]. intros r. by split_and!.
  - destruct d as [d|]; [|done]. intros Hf. refine (foldM_invariant (quiet s) _ _ _ s' _ _ Hf); [|apply quiet_refl].
    intros task a b Ht Ha Hs. apply result_bind_ok in Hs as (ti & Hti & [= <-]). eapply quiet_trans; [exact Ha|].
    apply quiet_inactive; [done|]. apply refresh_from_task_slots in Hti as [_ Hti].
    change (0 ≤ TI.pool_slots ti). rewrite Hti. by eapply bag_slots; [exact Hbag|exact Hd|apply Hsub].
Qed.

Lemma xcom_quiet s0 s x : quiet s0 s → quiet s0 (with_xcom x s).
Proof. intros Hq. by apply (quiet_same s0 s). Qed.

Lemma skip_quiet dag did self dr d tasks s :
  dagbag did = Ok (Some dag) → tasks ⊆ task_dict dag → quiet s (Skip.skip dag self dr d tasks s).2.
Proof.
  intros Hd Hsub. unfold Skip.skip. destruct tasks as [|t0 tasks0] eqn:Et; [apply quiet_refl|]. rewrite <-Et in *.
  destruct (Skip._set_state_to_skipped _ _ _ _ _) as [s1|e] eqn:E; [|apply quiet_refl].
  eapply (set_skipped_quiet _ did) in E; [|exact Hd|exact Hsub]. destruct self; [destruct dr|]; cbn [snd]; [|done..].
  unfold Skip.xcom_set. by apply xcom_quiet.
Qed.

Lemma get_tasks_in dag ids l : get_tasks dag ids = Ok l → l ⊆ task_dict dag.
Proof.
  revert l. induction ids as [|i ids IH]; intros l; simpl; [intros [= <-]; set_solver|].
  intros (t & Ht & Hl)%result_bind_ok. apply result_bind_ok in Hl as (ts & Hts & [= <-]).
  unfold get_task in Ht. destruct (lookup_task dag i) as [t'|] eqn:E; [|done]. injection Ht as ->.
  apply lookup_task_Some in E as [Hin _]. intros x [->|Hx]%elem_of_cons; [done|by eapply IH].
Qed.

Lemma branch_quiet dag did task ti branch s s' : dagbag did = Ok (Some dag) →
  Skip.skip_all_except dag task ti branch s = Ok s' → quiet s s'.
Proof.
  intros Hd. unfold Skip.skip_all_except. intros (down & Hdown & Hok)%result_bind_ok. destruct down as [|d0 l] eqn:El; [by injection Hok as <-; apply quiet_refl|].
  rewrite <-El in *. apply result_bind_ok in Hok as (ids & _ & Hok). apply result_bind_ok in Hok as (s1 & Hs & Hok).
  apply (set_skipped_quiet _ did) in Hs; [|done|].
  - unfold Skip.xcom_push in Hok. injection Hok as <-. by apply xcom_quiet.
  - intros t [_ Ht]%elem_of_filterb. unfold downstream_list in Hdown. by eapply get_tasks_in.
Qed.

Lemma children_quiet dag task ti s ids n s' : ti_keys_unique (task_instance s) →
  LocalTaskJob._run_mini_scheduler_on_child_tasks dag task ti s = Ok (ids, n, s') → quiet s s'.
Proof.
  intros Hk. unfold LocalTaskJob._run_mini_scheduler_on_child_tasks. destruct (List.filter _ _) as [|dr [|? ?]]; [done| |done].
  intros (sub & _ & Hok)%result_bind_ok. apply result_bind_ok in Hok as ([info s1] & Hi & Hok).
  apply result_bind_ok in Hok as ([m s2] & Hs & [= _ _ <-]).
  destruct (decisions_quiet _ _ _ _ _ Hk Hi) as [Hq Ho]. apply commit_quiet; [done|].
  eapply quiet_trans; [exact Hq|by eapply schedule_tis_quiet].
Qed.

Lemma paused_quiet dag ti s s' : ti_keys_unique (task_instance s) →
  LocalTaskJob._update_dagrun_state_for_paused_dag dag ti s = Ok s' → quiet s s'.
Proof.
  intros Hk. unfold LocalTaskJob._update_dagrun_state_for_paused_dag. destruct (get_is_paused _ _); [|intros [= <-]; apply quiet_refl].
  destruct (TaskInstance.get_dagrun ti s) as [dr|]; [|intros [= <-]; apply quiet_refl].
  intros (r & Hr & [= <-])%result_bind_ok. destruct (update_state_quiet _ _ _ _ _ Hk Hr) as [Hq Ho]. by apply commit_quiet.
Qed.

Lemma task_slots did dag tid task : dagbag did = Ok (Some dag) → lookup_task dag tid = Some task → 0 ≤ op_pool_slots task.
Proof. intros Hd [Ht _]%lookup_task_Some. by eapply bag_slots. Qed.

Lemma worker_step_ok extra e s s' : worker_step dagbag s e s' → state_ok dagbag extra s → state_ok dagbag (extra ++ e) s'.
Proof.
  intros Hstep Hs. pose proof Hs as ([Hk Hr] & _).
  assert (∀ s', quiet s s' → state_ok dagbag (extra ++ []) s') as Hquiet.
  { intros s1 Hq. rewrite app_nil_r. by eapply quiet_ok. }
  assert (∀ ti s0, find_ti (TI.primary ti) s0 = find_ti (TI.primary ti) s →
    ∀ r, find_ti (TI.primary ti) s0 = Some r → 0 ≤ TI.pool_slots r) as Hrow.
  { intros ti s0 -> r [Hin _]%find_ti_elem. by apply Hr. }
  destruct Hstep as [dag task host all past tdeps tstate ms job_id pool ti s0 ti' s0' s Hd Ht Hsame Hok
    |dag task host all past tdeps tstate ms job_id pool ti s0 ti' s0' s s' Hd Ht Hsame Hok Hw
    |dag task host pid job_id pool ti ex ti' s s' Hd Ht Hok|dag task host pid job_id pool ti o ti1 ex s0 ti' s s' Hd Ht Hsl Hok
    |task ti s Hsl|dag task ti ids n s s' Hok|dag ti s s' Hok|dag did self dr d tasks s Hd Hsub|dag did task ti b s s' Hd Hok].
  - apply attempt_writes in Hok as (_ & H2 & _); [by apply write_ok|by eapply task_slots|by apply Hrow].
  - apply attempt_writes in Hok as (_ & H2 & H3); [|by eapply task_slots|by apply Hrow]. apply Hquiet.
    destruct Hw as [[_ ->]|[Hne ->]]; [apply quiet_refl|]. destruct (H3 eq_refl); [done|]. by apply quiet_inactive.
  - apply run_start_writes in Hok as [H1 ->]; [by apply write_ok|by eapply task_slots|done].
  - apply Hquiet. by eapply run_end_quiet.
  - apply Hquiet. by apply failure_quiet.
  - apply Hquiet. by eapply children_quiet.
  - apply Hquiet. by eapply paused_quiet.
  - apply Hquiet. by eapply skip_quiet.
  - apply Hquiet. by eapply branch_quiet.
Qed.

(** The critical section brings no limit further beyond than it was. *)
Lemma critical_ok {X} extra (ex ex' : Executor X) locked id max_tis n s s' :
  0 ≤ max_tis → 0 < slots_available ex →
  _critical_section_execute_task_instances dagbag locked id isoformat pickle_id path max_tis ex s = Ok (n, ex', s') →
  state_ok dagbag extra s → state_ok dagbag extra s'.
Proof.
  intros Hmax Hfree Hc (Hrows & Hn & Hex & [L1 L2 L3]).
  destruct (critical_limits _ _ _ _ _ _ _ _ _ _ _ _ Hmax Hfree Hc Hrows Hn) as (Hrows' & Hsp & Hdm & Hpool & Hdag & Htask).
  split; [done|]. split; [by rewrite Hsp|]. split; [done|]. split.
  - rewrite Hsp. intros p Hp Hs. specialize (Hpool p Hp Hs). specialize (L1 p Hp Hs).
    assert (0 ≤ sumb (in_pool (pool_name p)) TI.pool_slots extra); [|lia].
    apply sumb_nonneg. intros t Ht _. by apply (proj1 (Forall_forall _ _) Hex).
  - intros did dm Hd. unfold dag_model_of in Hd. rewrite Hdm in Hd. specialize (Hdag did dm Hd). specialize (L2 did dm Hd).
    pose proof (countb_nonneg (λ t, TI.dag_id t ≟ did) extra). lia.
  - intros did dm dag tid task l Hd Hc1 Hb Ht Hl. unfold dag_model_of in Hd. rewrite Hdm in Hd.
    specialize (Htask did dm dag tid task l Hd Hc1 Hb Ht Hl). specialize (L3 did dm dag tid task l Hd Hc1 Hb Ht Hl).
    pose proof (countb_nonneg (λ t, task_key t ≟ (did, tid)) extra). lia.
Qed.

Lemma scheduler_step_ok extra s s' :
  sched_step dagbag dags_hash latest_hash cron_schedule hook isoformat pickle_id path s s' →
  state_ok dagbag extra s → state_ok dagbag extra s'.
Proof.
  intros Hstep Hs. destruct (sched_step_quiet _ _ _ _ _ _ _ _ _ _ Hhook Hbag Hstep) as [Hq|(X & ex & ex' & locked & id & m & n & H1 & H2 & Hc)].
  - apply Hs.
  - by eapply quiet_ok.
  - by eapply critical_ok.
Qed.

(** C1: take any interleaving of the transactions of any number of schedulers
    and workers, where a worker may start a row in whatever state its checks let
    through, on counts that may be out of date, from a database in which no pool,
    no DAG and no task is over its limit.  Then the slots of a pool, the
    [max_active_tasks] of a DAG and the [task_concurrency] of a task are exceeded by at
    most what workers started without slots being reserved for it, that is, for
    which the row was not already queued or running in that pool with as many
    slots; keys stay unique.  If workers start nothing beyond that, no limit is
    ever exceeded.  The site's hook and the DAG bag keep what [HookOk] and [BagOk]
    say. *)
Theorem limits_never_exceeded s extra s'
  (Hsteps : system_steps dagbag dags_hash latest_hash cron_schedule hook isoformat pickle_id path s extra s')
  (Hok : system_ok dagbag s) :
  state_ok dagbag extra s' ∧ (extra = [] → system_ok dagbag s').
Proof.
  assert (state_ok dagbag extra s') as Hs'.
  { assert (∀ e, state_ok dagbag e s → state_ok dagbag (e ++ extra) s') as Hall.
    { clear Hok. induction Hsteps as [s|s s1 extra s2 H1 _ IH|s e1 s1 extra s2 H1 _ IH]; intros e He; [by rewrite app_nil_r|..].
      - by eapply IH, scheduler_step_ok.
      - rewrite app_assoc. by eapply IH, worker_step_ok. }
    apply (Hall []). destruct Hok as (H1 & H2 & [L1 L2 L3]). split_and!; [done|done|constructor|].
    split; intros; cbn [sumb countb]; rewrite ?sumb_nil, ?countb_nil, Z.add_0_r; eauto. }
  split; [done|]. intros ->. destruct Hs' as (H1 & H2 & _ & [L1 L2 L3]). split_and!; [done|done|].
  split; intros.
  - specialize (L1 p). rewrite sumb_nil, Z.add_0_r in L1. auto.
  - specialize (L2 did dm). rewrite countb_nil, Z.add_0_r in L2. auto.
  - specialize (L3 did dm dag tid task l). rewrite countb_nil, Z.add_0_r in L3. auto.
Qed.
End Steps.

(** The start of a queued row takes only slots that a scheduler has reserved. *)
Lemma queued_start_reserved `{Settings} dag task host all past tdeps tstate job_id pool ti s0 ti' s0' s row
  (Hrow : find_ti (TI.primary ti) s = Some row) (Hactive : active row = true) (Hslots : (0 < TI.pool_slots row)%Z)
  (Hsame : find_ti (TI.primary ti) s0 = find_ti (TI.primary ti) s)
  (Hgo : check_and_change_state_before_execution dag task host all past tdeps tstate false false job_id pool ti s0
           = Ok (true, ti', s0')) :
  unreserved ti' s = [].
Proof.
  unfold check_and_change_state_before_execution in Hgo. apply result_bind_ok in Hgo as (t1 & H1 & Hgo).
  apply refresh_from_task_slots in H1 as [P1 _]. apply result_bind_ok in Hgo as ([[g t2] s2] & H2 & Hgo).
  destruct g; [|done]. apply check_rounds_true in H2 as (_ & Ht2 & _). injection Hgo as <- _.
  assert (reserved (TaskInstance.begin_attempt t2) s = true) as Hr; [|unfold unreserved; by rewrite Hr, andb_false_r].
  unfold reserved. apply existsb_exists. destruct (find_ti_elem _ _ _ Hrow) as [Hin Hp]. exists row.
  split; [by apply list_elem_of_In|]. rewrite !andb_true_iff, same_ti_eq, bool_decide_eq_true, Z.leb_le.
  rewrite Ht2. cbn [TaskInstance.begin_attempt]. unfold TaskInstance.refresh_from_db. rewrite P1, Hsame, Hrow.
  assert ((TI.pool_slots row =? 0)%Z = false) as Hz by (apply Z.eqb_neq; lia).
  split_and!; [|done|done|].
  - rewrite Hp, <-P1. done.
  - cbn. by rewrite Hz.
Qed.

(** ** Samples *)

Module SystemSample.
Import Sample SchedulerSample CreateSample LoopSample.
Local Open Scope Z_scope.
#[local] Existing Instance LoopSample.plain.

(** The critical section queues [a] and [b]; a worker starts [a]. *)
Definition after_critical : Z * Executor unit * Session :=
  match _critical_section_execute_task_instances bag (λ _, false) 7 (λ _, "date") (λ _, None) (λ _, None) 10 two_slots waiting with
  | Ok r => r | Err _ => (0, two_slots, waiting) end.

Definition start (dag : DAG) (task : BaseOperator) (ti : TaskInstance) (s : Session) : result (bool * TaskInstance * Session) :=
  check_and_change_state_before_execution dag task "host" false false true false false false (Some 5) None ti s.

Definition queued_a : TaskInstance := pool_ti "a" "small" None 1 2000.
Definition started_a : TaskInstance :=
  match start limited_b op_a queued_a after_critical.2 with Ok (_, ti, _) => ti | Err _ => queued_a end.

Lemma critical_step :
  sched_step bag (λ _, None) (λ _, None) no_cron (λ t, t) (λ _, "date") (λ _, None) (λ _, None) waiting after_critical.2.
Proof.
  apply (step_critical _ _ _ _ _ _ _ _ unit two_slots after_critical.1.2 (λ _, false) 7 10 after_critical.1.1 waiting
    after_critical.2); [done|done|]. vm_compute. reflexivity.
Qed.

Lemma start_step : worker_step bag after_critical.2 [] (merge_ti started_a after_critical.2).
Proof.
  assert (unreserved started_a after_critical.2 = []) as Hr by (by vm_compute). rewrite <-Hr.
  eapply (work_started bag limited_b op_a "host" false false true false false (Some 5) None queued_a after_critical.2 started_a);
    [by vm_compute..|done|vm_compute; reflexivity].
Qed.

Lemma limits_never_exceeded_witness : system_ok bag (merge_ti started_a after_critical.2).
Proof.
  refine (proj2 (limits_never_exceeded bag (λ _, None) (λ _, None) no_cron (λ t, t) (λ _, "date") (λ _, None) (λ _, None)
    id_hook bag_ok waiting [] _ _ waiting_ok) eq_refl).
  eapply steps_scheduler; [exact critical_step|]. change (@nil TaskInstance) with (@nil TaskInstance ++ []).
  eapply steps_worker; [exact start_step|apply steps_done].
Defined.

(** A DAG with one place, which a queued row holds.  A worker that is told to
    start another row, which was reset, counts the running ones only. *)
Definition lone_a : BaseOperator := mk_op "a" ALL_SUCCESS [] [].
Definition one_place : DAG :=
  {| dag_id := "diamond"; task_dict := [lone_a]; schedule_interval := None;
     dag_start_date := Some 0%Z; dag_end_date := None; catchup := true;
     max_active_tasks := 1; max_active_runs := 16; partial := false; fileloc := "dag.py";
     has_on_success_callback := false; has_on_failure_callback := false; dagrun_timeout := None |}.
Definition row_at (d : datetime) (st : option TaskInstanceState) : TaskInstance := pool_ti "a" "default_pool" st 1 d.
Definition one_queued : Session :=
  {| task_instance := [row_at 1000 (Some QUEUED); row_at 2000 None]; dag_run := [];
     dag_model := [{| dm_dag_id := "diamond"; is_paused := false; is_active := true;
                      dm_max_active_tasks := 1; has_task_concurrency_limits := false;
                      dm_fileloc := "dag.py"; next_dagrun := None; next_dagrun_create_after := None |}];
     slot_pool := [{| pool_name := "default_pool"; slots := 8 |}];
     task_reschedule := []; xcom := []; job := []; utcnow := 5000 |}.

Example unqueued_start_exceeds :
  (λ r, (r.1.1, (λ t, TI.execution_date t) <$> unreserved r.1.2 one_queued, dag_active "diamond" r.2)) <$>
    start one_place lone_a (row_at 2000 None) one_queued = Ok (true, [2000], 2).
Proof. by vm_compute. Qed.

(** Then the queued one is refused and loses its state. *)
Example queued_one_gives_way :
  (r ← start one_place lone_a (row_at 2000 None) one_queued;
   (λ r, (r.1.1, dag_active "diamond" r.2)) <$> start one_place lone_a (row_at 1000 None) r.2) = Ok (false, 1).
Proof. by vm_compute. Qed.
End SystemSample.
