(* ===== verification/DagTable.v ===== *)
(** * DagTable: the tables of serialized DAGs and of their code

    [models/serialized_dag.py] and [models/dagcode.py].  What the tables need of
    the serialization is the class [DagFormat]: the file [DagBag] discharges its
    law for the format of [serialization/serialized_objects.py].  A time is that of
    one transaction; the hashes are parameters. *)

From S2P Require Import Prelude Dict.
From stdpp Require Import strings.

Module DagTable.
Local Open Scope Z_scope.

(** The DAGs [W] that are written, the DAGs [D] that are read, and the form [J]
    in between; [md5] is that of the JSON text with sorted keys. *)
Class DagFormat (W D J : Type) := {
  w_dag_id : W → string;
  w_fileloc : W → string;
  w_is_subdag : W → bool;
  d_dag_id : D → string;
  d_subdags : D → list D;
  fmt_to_dict : W → result J;
  fmt_from_dict : J → result D;
  md5 : J → string;
}.

(** What can be written can be read, under the same id. *)
Class DagFormatLaws (W D J : Type) `{DagFormat W D J} (writable : W → Prop) := {
  fmt_reads_back w : writable w → ∃ j d, fmt_to_dict w = Ok j ∧ fmt_from_dict j = Ok d ∧ d_dag_id d = w_dag_id w;
}.

(** ** Hashes of file names *)

(** [struct.unpack('>Q', sha1(...).digest()[-8:])[0] >> 8], over the last eight
    bytes of the digest. *)
Definition dag_fileloc_hash (sha1_tail : string → list Z) (full_filepath : string) : Z :=
  Z.shiftr (foldl (λ n b, n * 256 + b) 0 (sha1_tail full_filepath)) 8.

(** ** Serialized DAGs *)
Section SerializedDagModel.
Context {W D J : Type} `{DagFormat W D J} (fileloc_hash : string → Z).

Record SerializedRow := {
  r_dag_id : string;
  r_fileloc : string;
  r_fileloc_hash : Z;
  r_data : J;
  r_last_updated : Z;
  r_dag_hash : string;
}.

Implicit Types (t : list SerializedRow) (w : W) (now : Z).

(** [__init__]. *)
Definition new_row now w : result SerializedRow :=
  data ← fmt_to_dict w;
  Ok {| r_dag_id := w_dag_id w; r_fileloc := w_fileloc w; r_fileloc_hash := fileloc_hash (w_fileloc w);
        r_data := data; r_last_updated := now; r_dag_hash := md5 data |}.

Definition row_of (dag_id : string) t : option SerializedRow := List.find (λ r, r_dag_id r ≟ dag_id) t.

(** [session.merge]: the row with this primary key is replaced, or one is added. *)
Definition merge_row (r : SerializedRow) t : list SerializedRow :=
  if existsb (λ r', r_dag_id r' ≟ r_dag_id r) t
  then (λ r', if r_dag_id r' ≟ r_dag_id r then r else r') <$> t else t ++ [r].

Definition microseconds (secs : Z) : Z := secs * 1000000.

Definition write_dag now (min_update_interval : option Z) w t : result (list SerializedRow * bool) :=
  let recent :=
    match min_update_interval with
    | Some secs => existsb (λ r, (r_dag_id r ≟ w_dag_id w) && (now - microseconds secs <? r_last_updated r)) t
    | None => false
    end in
  if recent then Ok (t, false)
  else
    new_serialized_dag ← new_row now w;
    let serialized_dag_hash_from_db := r_dag_hash <$> row_of (w_dag_id w) t in
    if serialized_dag_hash_from_db ≟ Some (r_dag_hash new_serialized_dag) then Ok (t, false)
    else Ok (merge_row new_serialized_dag t, true).

(** The property [dag]. *)
Definition row_dag (r : SerializedRow) : result D := fmt_from_dict (r_data r).

Definition read_all_dags t : result (list (string * D)) :=
  foldM (λ dags r,
    dag ← row_dag r;
    Ok (if d_dag_id dag ≟ r_dag_id r then sset (r_dag_id r) dag dags else dags)) t [].

Definition remove_dag (dag_id : string) t : list SerializedRow :=
  List.filter (λ r, negb (r_dag_id r ≟ dag_id)) t.

Definition remove_deleted_dags (alive_dag_filelocs : list string) t : list SerializedRow :=
  let alive_fileloc_hashes := fileloc_hash <$> alive_dag_filelocs in
  List.filter (λ r, negb (negb (r_fileloc_hash r ∈? alive_fileloc_hashes) && negb (r_fileloc r ∈? alive_dag_filelocs))) t.

Definition has_dag (dag_id : string) t : bool := existsb (λ r, r_dag_id r ≟ dag_id) t.

(** [get]; [root_dag_id] is the query of the DAG table: None without a row, and
    [Some None] for a row whose column is NULL. *)
Definition get_row (root_dag_id : string → option (option string)) (dag_id : string) t : option SerializedRow :=
  match row_of dag_id t with
  | Some r => Some r
  | None =>
      match root_dag_id dag_id with
      | Some (Some root) => row_of root t
      | _ => None
      end
  end.

Definition bulk_sync_dags now (MIN_SERIALIZED_DAG_UPDATE_INTERVAL : Z) (dags : list W) t : result (list SerializedRow) :=
  foldM (λ t dag,
    if w_is_subdag dag then Ok t
    else fst <$> write_dag now (Some MIN_SERIALIZED_DAG_UPDATE_INTERVAL) dag t) dags t.

Definition get_last_updated_datetime (dag_id : string) t : option Z := r_last_updated <$> row_of dag_id t.

Definition get_max_last_updated_datetime t : option Z :=
  foldl (λ m r, Some (match m with Some m => Z.max m (r_last_updated r) | None => r_last_updated r end)) None t.

Definition get_latest_version_hash (dag_id : string) t : option string := r_dag_hash <$> row_of dag_id t.
End SerializedDagModel.
Arguments SerializedRow J : clear implicits.

(** ** Code of DAG files *)
Section DagCode.
Context (fileloc_hash : string → Z).

Record DagCode := {
  c_fileloc_hash : Z;
  c_fileloc : string;
  c_last_updated : Z;
  c_source_code : string;
}.

(** The files: when one was changed and its text; reading one that is not there
    raises. *)
Context (getmtime : string → result Z) (read_file : string → result string) (STORE_DAG_CODE : bool).
Implicit Types (t : list DagCode).

Definition _get_code_from_file (fileloc : string) : result string := read_file fileloc.

Definition _get_code_from_db (fileloc : string) t : result string :=
  match List.find (λ c, c_fileloc_hash c =? fileloc_hash fileloc) t with
  | Some c => Ok (c_source_code c)
  | None => Err DagCodeNotFound
  end.

Definition code (fileloc : string) t : result string :=
  if STORE_DAG_CODE then _get_code_from_db fileloc t else _get_code_from_file fileloc.

(** [__init__]: an empty text is looked up. *)
Definition new_code (now : Z) (full_filepath source_code : string) t : result DagCode :=
  source ← (if source_code ≟ "" then code full_filepath t else Ok source_code);
  Ok {| c_fileloc_hash := fileloc_hash full_filepath; c_fileloc := full_filepath; c_last_updated := now; c_source_code := source |}.

(** [session.add]; that the primary key is already used shows when the row is
    written, at the end of the transaction. *)
Definition add_code (c : DagCode) t : result (list DagCode) :=
  if c_fileloc_hash c ∈? (c_fileloc_hash <$> t) then Err DBAPIError else Ok (t ++ [c]).

(** One existing row: [current_version] is found by hash, the row that is
    changed by name. *)
Definition refresh_code (existing : list DagCode) t (fileloc : string) : result (list DagCode) :=
  match List.find (λ c, c_fileloc_hash c =? fileloc_hash fileloc) existing with
  | None => Err KeyError
  | Some current_version =>
      file_mod_time ← getmtime fileloc;
      if c_last_updated current_version <? file_mod_time then
        source ← _get_code_from_file fileloc;
        Ok ((λ c, if c_fileloc c ≟ fileloc then
                    {| c_fileloc_hash := c_fileloc_hash c; c_fileloc := c_fileloc c;
                       c_last_updated := file_mod_time; c_source_code := source |} else c) <$> t)
      else Ok t
  end.

(** [filelocs] is a set: a list without repetitions, in the order of iteration.
    The query of [code] does not see the rows that were only added. *)
Definition bulk_sync_code (now : Z) (filelocs : list string) t : result (list DagCode) :=
  let hashes := fileloc_hash <$> filelocs in
  let existing_orm_dag_codes := List.filter (λ c, c_fileloc_hash c ∈? hashes) t in
  let existing_filelocs := c_fileloc <$> existing_orm_dag_codes in
  if forallb (λ f, f ∈? filelocs) existing_filelocs then
    let missing_filelocs := List.filter (λ f, negb (f ∈? existing_filelocs)) filelocs in
    t ← foldM (λ t' fileloc,
          source ← _get_code_from_file fileloc;
          c ← new_code now fileloc source t;
          add_code c t') missing_filelocs t;
    foldM (refresh_code existing_orm_dag_codes) existing_filelocs t
  else Err AirflowException.

Definition remove_deleted_code (alive_dag_filelocs : list string) t : list DagCode :=
  let alive_fileloc_hashes := fileloc_hash <$> alive_dag_filelocs in
  List.filter (λ c, negb (negb (c_fileloc_hash c ∈? alive_fileloc_hashes) && negb (c_fileloc c ∈? alive_dag_filelocs))) t.

Definition code_has_dag (fileloc : string) t : bool := existsb (λ c, c_fileloc_hash c =? fileloc_hash fileloc) t.

Definition get_code_by_fileloc (fileloc : string) t : result string := code fileloc t.
End DagCode.
End DagTable.

Import DagTable.

(** ** The rows after an operation *)
Section RowFacts.
Context {J : Type}.
Implicit Types (t : list (SerializedRow J)) (r : SerializedRow J) (id : string).

Definition ids_unique t : Prop := NoDup (r_dag_id <$> t).

Lemma row_of_Some id t r : row_of id t = Some r → r ∈ t ∧ r_dag_id r = id.
Proof. apply (kfind_Some r_dag_id). Qed.

Lemma row_of_elem id t r : ids_unique t → r ∈ t → r_dag_id r = id → row_of id t = Some r.
Proof. apply (kfind_elem r_dag_id). Qed.

Lemma row_of_filter id (f : SerializedRow J → bool) t r : ids_unique t → row_of id (List.filter f t) = Some r → row_of id t = Some r.
Proof. apply (kfind_filter r_dag_id). Qed.

Lemma filter_unique (f : SerializedRow J → bool) t : ids_unique t → ids_unique (List.filter f t).
Proof. apply NoDup_fmap_filterb. Qed.

Lemma row_of_merge id r t : row_of id (merge_row r t) = if r_dag_id r ≟ id then Some r else row_of id t.
Proof.
  assert (existsb (λ r', r_dag_id r' ≟ r_dag_id r) t = true ↔ r_dag_id r ∈ r_dag_id <$> t) as Hex.
  { rewrite existsb_elem, list_elem_of_fmap. setoid_rewrite bool_decide_eq_true. naive_solver. }
  unfold merge_row. destruct (existsb _ t).
  - trans (kfind r_dag_id id (kput r_dag_id r t)); [done|]. rewrite kfind_kput. case_bool_decide as Hid; [|done].
    destruct (kfind_key r_dag_id id t) as (x & -> & _); [rewrite <-Hid; by apply Hex|done].
  - trans (kfind r_dag_id id (t ++ [r])); [done|]. rewrite kfind_app, kfind_cons. case_bool_decide as Hid.
    + destruct (kfind r_dag_id id t) as [x|] eqn:E; [|done]. apply kfind_Some in E as [Hin E].
      assert (false = true); [|done]. apply Hex. rewrite Hid, <-E. apply list_elem_of_fmap. by exists x.
    + unfold row_of. change (List.find _ t) with (kfind r_dag_id id t). by destruct (kfind r_dag_id id t).
Qed.

Lemma merge_unique r t : ids_unique t → ids_unique (merge_row r t).
Proof.
  unfold ids_unique, merge_row. intros Ht. destruct (existsb _ t) eqn:E.
  - erewrite <-list_fmap_compose, list_fmap_ext; [exact Ht|]. intros _ r' _. cbn. by case_bool_decide.
  - rewrite fmap_app. apply NoDup_app. split_and!; [done| |apply NoDup_singleton].
    intros x (r' & -> & Hin)%list_elem_of_fmap Hx%list_elem_of_singleton.
    assert (existsb (λ r', r_dag_id r' ≟ r_dag_id r) t = true) as E'; [|congruence].
    apply existsb_elem. exists r'. by rewrite bool_decide_eq_true.
Qed.

Lemma elem_of_merge r r' t : r' ∈ merge_row r t → r' = r ∨ r' ∈ t.
Proof.
  unfold merge_row. destruct (existsb _ t); [|set_solver]. intros (r2 & -> & Hin)%list_elem_of_fmap.
  case_bool_decide; auto.
Qed.

End RowFacts.

Section TableFacts.
Local Open Scope Z_scope.
Context {W D J : Type} `{DagFormat W D J} (fileloc_hash : string → Z).
Implicit Types (t : list (SerializedRow J)) (r : SerializedRow J) (w : W) (now : Z) (id : string).

(** Writing a DAG: the row is replaced by one of this instant, or the table is
    as it was because the row is recent or has the same hash. *)
Lemma write_dag_spec now mi w t t' b : write_dag fileloc_hash now mi w t = Ok (t', b) →
  if b then ∃ r, new_row fileloc_hash now w = Ok r ∧ t' = merge_row r t
  else t' = t ∧
    ((∃ secs r, mi = Some secs ∧ r ∈ t ∧ r_dag_id r = w_dag_id w ∧ now - microseconds secs < r_last_updated r) ∨
     (∃ r r', new_row fileloc_hash now w = Ok r ∧ row_of (w_dag_id w) t = Some r' ∧ r_dag_hash r' = r_dag_hash r)).
Proof.
  unfold write_dag. set (recent := match mi with Some _ => _ | None => _ end). destruct recent eqn:Er; cbn [orb].
  - intros [= <- <-]. split; [done|]. left. subst recent. destruct mi as [secs|]; [|done].
    apply existsb_elem in Er as (r & Hr & [Hid%bool_decide_eq_true Hlt%Z.ltb_lt]%andb_true_iff). by exists secs, r.
  - destruct (new_row fileloc_hash now w) as [r|e] eqn:Hr; [|done]. cbn [mbind result_bind]. case_bool_decide as Hh.
    + intros [= <- <-]. split; [done|]. right. apply fmap_Some in Hh as (r' & Hr' & Hh). by exists r, r'.
    + intros [= <- <-]. by exists r.
Qed.

(** A DAG whose row is older than the update interval is stored by writing it. *)
Lemma write_dag_stores now secs w t r : (∀ r', row_of (w_dag_id w) t = Some r' → r_last_updated r' ≤ now - microseconds secs) →
  ids_unique t → new_row fileloc_hash now w = Ok r →
  ∃ t' b r', write_dag fileloc_hash now (Some secs) w t = Ok (t', b) ∧
    row_of (w_dag_id w) t' = Some r' ∧ r_dag_hash r' = r_dag_hash r.
Proof.
  intros Hold Ht Hr. destruct (write_dag fileloc_hash now (Some secs) w t) as [[t' b]|e] eqn:E.
  - exists t', b. apply write_dag_spec in E. destruct b.
    + destruct E as (r2 & Hr2 & ->). exists r2. split; [done|]. rewrite row_of_merge.
      assert (r2 = r) as -> by congruence. unfold new_row in Hr. destruct (fmt_to_dict w); [|done]. injection Hr as <-. cbn.
      by rewrite bool_decide_eq_true_2.
    + destruct E as [-> [(s & r2 & [= <-] & Hin & Hid & Hlt)|(r1 & r2 & Hr1 & Hr2 & Hh)]].
      * specialize (Hold r2 (row_of_elem _ _ _ Ht Hin Hid)). lia.
      * exists r2. split_and!; [done..|congruence].
  - unfold write_dag in E. destruct (existsb _ t); [done|]. rewrite Hr in E. cbn [mbind result_bind] in E. by case_bool_decide.
Qed.

(** The clean-up keeps the rows of the files that exist, and of a deleted file
    only rows whose hash is that of a file that exists. *)
Lemma remove_deleted_dags_spec alive t r :
  (∀ r, r ∈ t → r_fileloc_hash r = fileloc_hash (r_fileloc r)) →
  r ∈ remove_deleted_dags fileloc_hash alive t ↔ r ∈ t ∧ ∃ f, f ∈ alive ∧ fileloc_hash f = fileloc_hash (r_fileloc r).
Proof.
  intros Hh. unfold remove_deleted_dags. rewrite elem_of_filterb, negb_andb, !negb_involutive, orb_true_iff, !bool_decide_eq_true.
  split.
  - intros [Hor Hin]. split; [done|]. destruct Hor as [(f & Hf & Hfa)%list_elem_of_fmap|Hf]; [|by exists (r_fileloc r)].
    exists f. split; [done|]. by rewrite <-Hf, Hh.
  - intros [Hin (f & Hf & E)]. split; [|done]. left. rewrite (Hh r Hin), <-E. apply list_elem_of_fmap. by exists f.
Qed.
End TableFacts.
