(* ===== verification/DagBag.v ===== *)
(** * DagBag: the collection of DAGs of a process

    [models/dagbag.py].  A bag that reads the database ([read_dags_from_db]) is a
    cache over the table of serialized DAGs.  A bag that reads files holds
    references to DAG objects which the modules, other DAGs and the bag share, so
    that its operations run in a monad over a heap of DAG objects and the bag, where
    what was done before an exception stays done. *)

From S2P Require Import Prelude State Model Sample Graph Dict Serialization SerializedDag DagRoundTrip DagTable.
From stdpp Require Import strings.
Import Model Graph Serialization SerializedDag DagTable.

Module DagBag.
Local Open Scope Z_scope.

(** ** A bag over the database *)
Section FromDb.
Context {W D J : Type} `{DagFormat W D J} (fileloc_hash : string → Z).

Record Bag := {
  dags : list (string * D);
  dags_last_fetched : list (string * Z);
  dags_hash : list (string * string);
}.

Definition empty_bag : Bag := {| dags := []; dags_last_fetched := []; dags_hash := [] |}.

Implicit Types (t : list (SerializedRow J)) (b : Bag) (now : Z) (root_dag_id : string → option (option string)).

(** The row is read from [t]; [fetched_at] is the clock after it was read and its DAG
    was built, when other processes may have written the table again. *)
Definition _add_dag_from_db (fetched_at : Z) root_dag_id (dag_id : string) t b : result Bag :=
  match get_row root_dag_id dag_id t with
  | None => Err SerializedDagNotFound
  | Some row =>
      dag ← row_dag row;
      let dags' := foldl (λ m subdag, sset (d_dag_id subdag) subdag m) (dags b) (d_subdags dag) in
      Ok {| dags := sset (d_dag_id dag) dag dags';
            dags_last_fetched := sset (d_dag_id dag) fetched_at (dags_last_fetched b);
            dags_hash := sset (d_dag_id dag) (r_dag_hash row) (dags_hash b) |}
  end.

(** [del d[k]]. *)
Definition del_key {V} (k : string) (d : list (string * V)) : result (list (string * V)) :=
  if sin k d then Ok (sdel k d) else Err KeyError.

(** The first part of [get_dag]: [now] is the clock when it is called; its queries see
    one state of the table. *)
Definition get_dag_from_db (MIN_SERIALIZED_DAG_FETCH_INTERVAL : Z) now (fetched_at : Z) root_dag_id (dag_id : string) t b : result (Bag * option D) :=
  if negb (sin dag_id (dags b)) then
    b ← _add_dag_from_db fetched_at root_dag_id dag_id t b;
    Ok (b, sget dag_id (dags b))
  else
    match sget dag_id (dags_last_fetched b) with
    | Some fetched =>
        if fetched + microseconds MIN_SERIALIZED_DAG_FETCH_INTERVAL <? now then
          match get_last_updated_datetime dag_id t with
          | None =>
              dags' ← del_key dag_id (dags b);
              fetched' ← del_key dag_id (dags_last_fetched b);
              hash' ← del_key dag_id (dags_hash b);
              Ok ({| dags := dags'; dags_last_fetched := fetched'; dags_hash := hash' |}, None)
          | Some sd_last_updated_datetime =>
              b ← (if fetched <? sd_last_updated_datetime then _add_dag_from_db fetched_at root_dag_id dag_id t b else Ok b);
              Ok (b, sget dag_id (dags b))
          end
        else Ok (b, sget dag_id (dags b))
    | None => Ok (b, sget dag_id (dags b))
    end.

Definition collect_dags_from_db t b : result Bag :=
  all ← read_all_dags t;
  let subdags := foldl (λ m subdag, sset (d_dag_id subdag) subdag m) [] (mjoin (d_subdags <$> all.*2)) in
  Ok {| dags := ssets subdags all; dags_last_fetched := dags_last_fetched b; dags_hash := dags_hash b |}.

(** *** The cache and the processes that write the table

    A transaction of a process that parses files ([write_dag]), of the clean-up
    of the file manager, or a look-up in the bag, with the times at which they read
    or write the table; the time at which a look-up stamps what it fetched may be
    later, after transactions that follow it.  One that raises changes nothing. *)
Inductive DbOp :=
| Write (min_update_interval : option Z) (w : W)
| Remove (dag_id : string)
| RemoveDeleted (alive_dag_filelocs : list string)
| Get (root_dag_id : string → option (option string)) (dag_id : string) (fetched_at : Z).

Definition db_step (fetch_interval : Z) (s : list (SerializedRow J) * Bag) (op : Z * DbOp) : list (SerializedRow J) * Bag :=
  let '(t, b) := s in
  match op.2 with
  | Write mi w => match write_dag fileloc_hash op.1 mi w t with Ok (t, _) => (t, b) | Err _ => (t, b) end
  | Remove dag_id => (remove_dag dag_id t, b)
  | RemoveDeleted alive => (remove_deleted_dags fileloc_hash alive t, b)
  | Get root_dag_id dag_id fetched_at =>
      match get_dag_from_db fetch_interval op.1 fetched_at root_dag_id dag_id t b with Ok (b, _) => (t, b) | Err _ => (t, b) end
  end.

Definition db_run (fetch_interval : Z) (ops : list (Z * DbOp)) (s : list (SerializedRow J) * Bag) : list (SerializedRow J) * Bag :=
  foldl (db_step fetch_interval) s ops.
End FromDb.
Arguments Bag D : clear implicits.
Arguments DbOp W : clear implicits.

(** ** A bag over files *)

(** An object of class [DAG]; [o_children] are the DAGs of its sub-DAG operators
    in the order of the tasks, [o_timetable_valid] what [timetable.validate()]
    says. *)
Definition Addr := nat.

Record DagObj := {
  o_dag : DAG;
  o_fileloc : string;
  o_is_subdag : bool;
  o_parent : option Addr;
  o_last_loaded : Z;
  o_children : list Addr;
  o_timetable_valid : bool;
}.

Definition o_dag_id (o : DagObj) : string := dag_id (o_dag o).

Definition set_fileloc (f : string) (o : DagObj) : DagObj :=
  {| o_dag := o_dag o; o_fileloc := f; o_is_subdag := o_is_subdag o; o_parent := o_parent o;
     o_last_loaded := o_last_loaded o; o_children := o_children o; o_timetable_valid := o_timetable_valid o |}.
Definition set_is_subdag (v : bool) (o : DagObj) : DagObj :=
  {| o_dag := o_dag o; o_fileloc := o_fileloc o; o_is_subdag := v; o_parent := o_parent o;
     o_last_loaded := o_last_loaded o; o_children := o_children o; o_timetable_valid := o_timetable_valid o |}.
Definition set_parent (a : Addr) (o : DagObj) : DagObj :=
  {| o_dag := o_dag o; o_fileloc := o_fileloc o; o_is_subdag := o_is_subdag o; o_parent := Some a;
     o_last_loaded := o_last_loaded o; o_children := o_children o; o_timetable_valid := o_timetable_valid o |}.
Definition set_last_loaded (now : Z) (o : DagObj) : DagObj :=
  {| o_dag := o_dag o; o_fileloc := o_fileloc o; o_is_subdag := o_is_subdag o; o_parent := o_parent o;
     o_last_loaded := now; o_children := o_children o; o_timetable_valid := o_timetable_valid o |}.

(** The texts of import errors: a traceback of the user's code, or an exception. *)
Inductive ImportError :=
| Traceback (text : string)
| InvalidTimetable
| Raised (e : exn).

(** Every reference is to an object, so that the heap is a total function. *)
Definition Heap := Addr → DagObj.

Record FileBag := {
  heap : Heap;
  f_dags : list (string * Addr);
  file_last_changed : list (string * Z);
  import_errors : list (string * ImportError);
}.

(** State and exceptions; the state survives an exception. *)
Definition M (A : Type) : Type := FileBag → FileBag * result A.
#[export] Instance M_ret : MRet M := λ A a s, (s, Ok a).
#[export] Instance M_bind : MBind M := λ A B f m s,
  match m s with (s, Ok a) => f a s | (s, Err e) => (s, Err e) end.

Definition raise {A} (e : exn) : M A := λ s, (s, Err e).
Definition lift {A} (r : result A) : M A := λ s, (s, r).
Definition except {A} (m : M A) (handler : exn → M A) : M A := λ s,
  match m s with (s, Ok a) => (s, Ok a) | (s, Err e) => handler e s end.
Definition obj (a : Addr) : M DagObj := λ s, (s, Ok (heap s a)).
Definition upd (f : DagObj → DagObj) (a : Addr) (h : Heap) : Heap := λ x, if (x =? a)%nat then f (h x) else h x.
Definition set_heap (h : Heap) (s : FileBag) : FileBag :=
  {| heap := h; f_dags := f_dags s; file_last_changed := file_last_changed s; import_errors := import_errors s |}.
Definition set_dags (d : list (string * Addr)) (s : FileBag) : FileBag :=
  {| heap := heap s; f_dags := d; file_last_changed := file_last_changed s; import_errors := import_errors s |}.
Definition modify (f : DagObj → DagObj) (a : Addr) : M unit := λ s, (set_heap (upd f a (heap s)) s, Ok tt).
Definition get_dags : M (list (string * Addr)) := λ s, (s, Ok (f_dags s)).
Definition put_dags (d : list (string * Addr)) : M unit := λ s, (set_dags d s, Ok tt).
Definition set_import_error (f : string) (e : ImportError) : M unit := λ s,
  ({| heap := heap s; f_dags := f_dags s; file_last_changed := file_last_changed s;
      import_errors := sset f e (import_errors s) |}, Ok tt).
Definition set_last_changed (f : string) (mtime : Z) : M unit := λ s,
  ({| heap := heap s; f_dags := f_dags s; file_last_changed := sset f mtime (file_last_changed s);
      import_errors := import_errors s |}, Ok tt).
Fixpoint forM {A} (l : list A) (f : A → M unit) : M unit :=
  match l with
  | [] => mret tt
  | x :: l => _ ← f x; forM l f
  end.

(** [DAG.subdags]: a search in depth, bounded by the recursion limit. *)
Fixpoint subdags (recursion_limit : nat) (h : Heap) (a : Addr) : result (list Addr) :=
  match recursion_limit with
  | O => Err RuntimeError
  | S n => foldM (λ subdag_lst s, ss ← subdags n h s; Ok (subdag_lst ++ s :: ss)) (o_children (h a)) []
  end.

Section FromFiles.
(** The site's policies, which accept or change a DAG and its tasks or raise. *)
Context (policies : DagObj → result DagObj) (recursion_limit : nat).

Definition subdags_of (a : Addr) : M (list Addr) := λ s, (s, subdags recursion_limit (heap s) a).

(** [_bag_dag] of a DAG, with the call for its sub-DAGs; [utcnow] is [now]. *)
Definition _bag_dag_with (bag_subdag : Addr → M unit) (now : Z) (recursive : bool) (a : Addr) : M unit :=
  o ← obj a;
  _ ← lift (check_cycle (o_dag o));
  _ ← modify (set_last_loaded now) a;
  o ← obj a;
  o ← lift (policies o);
  _ ← modify (λ _, o) a;
  subdags ← subdags_of a;
  except
    (_ ← (if recursive then
            forM subdags (λ subdag,
              dag ← obj a;
              _ ← modify (set_fileloc (o_fileloc dag)) subdag;
              _ ← modify (set_parent a) subdag;
              _ ← modify (set_is_subdag true) subdag;
              bag_subdag subdag)
          else mret tt);
     dag ← obj a;
     dags ← get_dags;
     match sget (o_dag_id dag) dags with
     | Some prev =>
         prev_dag ← obj prev;
         if o_fileloc prev_dag ≟ o_fileloc dag then put_dags (sset (o_dag_id dag) a dags)
         else raise AirflowDagDuplicatedIdException
     | None => put_dags (sset (o_dag_id dag) a dags)
     end)
    (λ e, if e ∈? [AirflowDagCycleException; AirflowDagDuplicatedIdException] then
            _ ← (if recursive then
                   forM subdags (λ subdag,
                     o ← obj subdag;
                     dags ← get_dags;
                     if sin (o_dag_id o) dags then put_dags (sdel (o_dag_id o) dags) else mret tt)
                 else mret tt);
            raise e
          else raise e).

(** The call for a sub-DAG does not go further down. *)
Definition _bag_dag (now : Z) (recursive : bool) (a : Addr) : M unit :=
  _bag_dag_with (λ s, _bag_dag_with (λ _, mret tt) now false s) now recursive a.

Definition bag_dag (now : Z) (a : Addr) : M unit := _bag_dag now true a.

(** A module that was imported: its file and the DAGs among its values. *)
Record PyModule := {
  mod_file : string;
  mod_dags : list Addr;
}.

Definition _process_modules (now : Z) (mods : list PyModule) (file_last_changed_on_disk : Z) : M (list Addr) :=
  let top_level_dags := m ← mods; (λ o, (o, m)) <$> mod_dags m in
  (fix loop (l : list (Addr * PyModule)) (found_dags : list Addr) : M (list Addr) :=
     match l with
     | [] => mret found_dags
     | (dag, m) :: l =>
         _ ← modify (set_fileloc (mod_file m)) dag;
         found_dags ← except
           (_ ← modify (set_is_subdag false) dag;
            o ← obj dag;
            _ ← (if o_timetable_valid o then mret tt else raise AirflowTimetableInvalid);
            _ ← bag_dag now dag;
            subs ← subdags_of dag;
            mret (found_dags ++ dag :: subs))
           (λ e,
              o ← obj dag;
              if e ≟ AirflowTimetableInvalid then
                _ ← set_import_error (o_fileloc o) InvalidTimetable;
                _ ← set_last_changed (o_fileloc o) file_last_changed_on_disk;
                mret found_dags
              else if e ∈? [AirflowDagCycleException; AirflowDagDuplicatedIdException; AirflowClusterPolicyViolation] then
                _ ← set_import_error (o_fileloc o) (Raised e);
                _ ← set_last_changed (o_fileloc o) file_last_changed_on_disk;
                mret found_dags
              else raise e);
         loop l found_dags
     end) top_level_dags [].

(** The files: when one was changed (None: not a file), whether it is an archive
    and what is in it, whether a file looks like one with DAGs, and importing it,
    which makes objects or fails with a traceback. *)
Context (getmtime : string → option Z) (is_zipfile : string → bool)
  (zip_infolist : string → list (string * string * string))
  (might_contain_dag : string → string → bool)
  (import_module : string → string → Heap → Heap * (PyModule + string)).

Definition try_import (filepath name : string) : M (list PyModule) := λ s,
  match import_module filepath name (heap s) with
  | (h, inl m) => (set_heap h s, Ok [m])
  | (h, inr text) => ((set_import_error filepath (Traceback text) (set_heap h s)).1, Ok [])
  end.

Definition _load_modules_from_file (filepath : string) : M (list PyModule) :=
  if negb (might_contain_dag filepath "") then mret [] else try_import filepath "".

(** An entry of an archive is its directory, its name and its extension. *)
Definition _load_modules_from_zip (filepath : string) : M (list PyModule) :=
  (fix loop (l : list (string * string * string)) (mods : list PyModule) : M (list PyModule) :=
     match l with
     | [] => mret mods
     | (head, mod_name, ext) :: l =>
         if negb (ext ∈? [".py"; ".pyc"]) then loop l mods
         else if negb (head ≟ "") then loop l mods
         else if negb (might_contain_dag filepath mod_name) then loop l mods
         else ms ← try_import filepath mod_name; loop l (mods ++ ms)
     end) (zip_infolist filepath) [].

Definition process_file (now : Z) (filepath : option string) (only_if_updated : bool) : M (list Addr) :=
  match filepath with
  | None => mret []
  | Some filepath =>
      match getmtime filepath with
      | None => mret []
      | Some file_last_changed_on_disk => λ s,
          (if only_if_updated && (sget filepath (file_last_changed s) ≟ Some file_last_changed_on_disk) then mret []
           else
             mods ← (if negb (is_zipfile filepath) then _load_modules_from_file filepath else _load_modules_from_zip filepath);
             found_dags ← _process_modules now mods file_last_changed_on_disk;
             _ ← set_last_changed filepath file_last_changed_on_disk;
             mret found_dags) s
      end
  end.

(** [collect_dags] over the files that were found; an exception is only logged. *)
Definition collect_files (now : Z) (file_paths : list string) (only_if_updated : bool) : M unit :=
  forM file_paths (λ filepath,
    except (_ ← process_file now (Some filepath) only_if_updated; mret tt) (λ _, mret tt)).

(** [utils/file.py]: the longest prefix that ends in [.zip] before a separator. *)
Definition correct_maybe_zipped (fileloc : string) : string :=
  match List.find (λ n, String.substring n 5 fileloc ≟ ".zip/") (rev (seq 0 (String.length fileloc))) with
  | Some n =>
      let archive := String.substring 0 (n + 4) fileloc in
      if is_zipfile archive then archive else fileloc
  | None => fileloc
  end.

(** A row of the DAG table. *)
Record OrmDag := {
  orm_fileloc : option string;
  last_expired : option Z;
}.

(** The DAGs that are left when a root DAG and its sub-DAGs are removed. *)
Definition remove_associated (root_dag_id : string) : M unit := λ s,
  (set_dags (List.filter (λ e,
     negb (e.1 ≟ root_dag_id) &&
     negb (o_is_subdag (heap s e.2) &&
           match o_parent (heap s e.2) with Some p => o_dag_id (heap s p) ≟ root_dag_id | None => false end)) (f_dags s)) s, Ok tt).

(** [found_dags and dag_id in [found_dag.dag_id for found_dag in found_dags]]. *)
Definition exports (dag_id : string) (found_dags : list Addr) : M bool := λ s,
  (s, Ok (dag_id ∈? ((λ a, o_dag_id (heap s a)) <$> found_dags))).

(** [self.dags[k]], [self.dags.get(k)] and [del self.dags[k]] of a key that may be
    missing. *)
Definition getitem (k : string) : M Addr := λ s,
  (s, match sget k (f_dags s) with Some a => Ok a | None => Err KeyError end).
Definition get (k : string) : M (option Addr) := λ s, (s, Ok (sget k (f_dags s))).
Definition delitem (k : string) : M unit := λ s, (set_dags (sdel k (f_dags s)) s, Ok tt).

(** The second part of [get_dag]; [get_current] is the query of the row. *)
Definition get_dag_from_files (now : Z) (get_current : string → option OrmDag) (dag_id : string) : M (option Addr) :=
  dags ← get_dags;
  dag ← (match sget dag_id dags with Some a => o ← obj a; mret (Some o) | None => mret None end);
  root_dag_id ← (match dag with
                 | Some o =>
                     if o_is_subdag o then
                       match o_parent o with Some p => p ← obj p; mret (o_dag_id p) | None => raise AttributeError end
                     else mret dag_id
                 | None => mret dag_id
                 end);
  match get_current root_dag_id with
  | None => mret (sget dag_id dags)
  | Some orm_dag =>
      let is_missing := negb (sin root_dag_id dags) in
      let is_expired :=
        match last_expired orm_dag, dag with
        | Some expired, Some o => o_last_loaded o <? expired
        | _, _ => false
        end in
      _ ← (if is_expired then remove_associated root_dag_id else mret tt);
      if is_missing || is_expired then
        filepath ← (match orm_fileloc orm_dag with Some f => mret (correct_maybe_zipped f) | None => raise TypeError end);
        found_dags ← process_file now (Some filepath) false;
        exported ← exports dag_id found_dags;
        if exported : bool then a ← getitem dag_id; mret (Some a) else _ ← delitem dag_id; get dag_id
      else get dag_id
  end.
End FromFiles.
End DagBag.

Import DagBag.

(** ** The cache over the database *)
Section CacheFacts.
Local Open Scope Z_scope.
Context {W D J : Type} `{DagFormat W D J} (fileloc_hash : string → Z) (writable : W → Prop) `{!DagFormatLaws W D J writable}.
Implicit Types (t : list (SerializedRow J)) (r : SerializedRow J) (b : Bag D) (now : Z) (id : string).

(** A row that is read as a DAG with its id, none of whose sub-DAGs is [id]. *)
Definition row_ok id r : Prop :=
  ∃ d, row_dag r = Ok d ∧ d_dag_id d = r_dag_id r ∧ id ∉ d_dag_id <$> d_subdags d.

(** When a transaction is over: a look-up with its stamp. *)
Definition ends_at (op : Z * DbOp W) : Z := match op.2 with Get _ _ fetched_at => fetched_at | _ => op.1 end.

(** A stamp is before all the writes of [id] to come. *)
Definition before_writes id (rest : list (Z * DbOp W)) (f : Z) : Prop :=
  ∀ x mi w, (x, Write mi w) ∈ rest → w_dag_id w = id → f < x.

(** The rows and what the bag holds of [id], after the transactions up to [τ], which
    were over by [e], and before those in [rest]. *)
Record cache_ok id (τ e : Z) (rest : list (Z * DbOp W)) t b : Prop := {
  co_unique : ids_unique t;
  co_rows r : r ∈ t → row_ok id r ∧ r_last_updated r ≤ τ;
  co_fetched f : sget id (dags_last_fetched b) = Some f → (f ≤ e ∧ before_writes id rest f) ∧ is_Some (sget id (dags_hash b));
  co_known : is_Some (sget id (dags b)) → is_Some (sget id (dags_last_fetched b));
  co_current d f r : sget id (dags b) = Some d → sget id (dags_last_fetched b) = Some f →
    row_of id t = Some r → r_last_updated r ≤ f → row_dag r = Ok d ∧ sget id (dags_hash b) = Some (r_dag_hash r);
}.

(** The entries of [id] are the same. *)
Definition same_entry id b b' : Prop :=
  sget id (dags b') = sget id (dags b) ∧ sget id (dags_last_fetched b') = sget id (dags_last_fetched b) ∧
  sget id (dags_hash b') = sget id (dags_hash b).

(** The entry of [id] is row [r], fetched at [now]. *)
Definition fetched_entry id now r b : Prop :=
  ∃ d, row_dag r = Ok d ∧ sget id (dags b) = Some d ∧ sget id (dags_last_fetched b) = Some now ∧
    sget id (dags_hash b) = Some (r_dag_hash r).

Lemma subdags_other id (ds : list D) (m : list (string * D)) : id ∉ d_dag_id <$> ds →
  sget id (foldl (λ m s, sset (d_dag_id s) s m) m ds) = sget id m.
Proof.
  revert m. induction ds as [|s ds IH]; intros m Hid; [done|]. cbn [foldl]. rewrite fmap_cons, not_elem_of_cons in Hid.
  rewrite IH by tauto. rewrite sget_sset, bool_decide_eq_false_2; [done|]. intros E. by destruct Hid as [[] _].
Qed.

Lemma get_row_elem root id t r : get_row root id t = Some r → r ∈ t.
Proof.
  unfold get_row. destruct (row_of id t) as [r'|] eqn:E; [intros [= ->]; apply row_of_Some in E; apply E|].
  destruct (root id) as [[s|]|]; [|done..]. by intros [? _]%row_of_Some.
Qed.

Lemma add_dag_entry id now root id' t b b' : ids_unique t → (∀ r, r ∈ t → row_ok id r) →
  _add_dag_from_db now root id' t b = Ok b' →
  same_entry id b b' ∨ ∃ r, row_of id t = Some r ∧ fetched_entry id now r b'.
Proof.
  intros Ht Hok. unfold _add_dag_from_db. destruct (get_row root id' t) as [r|] eqn:Hr; [|done].
  apply get_row_elem in Hr. destruct (Hok r Hr) as (d & Hd & Hid & Hsub). rewrite Hd. cbn [mbind result_bind]. intros [= <-].
  unfold same_entry, fetched_entry. cbn [dags dags_last_fetched dags_hash]. rewrite !sget_sset, subdags_other by done.
  case_bool_decide as E; [|by left]. right. exists r. split; [apply row_of_elem; congruence|]. by exists d.
Qed.

Lemma sget_sdel {V} k k' (d : list (string * V)) : sget k (sdel k' d) = if k' ≟ k then None else sget k d.
Proof.
  induction d as [|[k2 v] d IH]; [by case_bool_decide|]. unfold sdel in *. cbn [List.filter fst].
  destruct (k2 ≟ k') eqn:E; cbn [negb]; rewrite ?sget_cons, ?IH.
  - apply bool_decide_eq_true in E as ->. by case_bool_decide.
  - apply bool_decide_eq_false in E. repeat case_bool_decide; congruence.
Qed.

Lemma del_key_Ok {V} k (d d' : list (string * V)) : del_key k d = Ok d' → d' = sdel k d.
Proof. unfold del_key. destruct (sin k d); congruence. Qed.

(** What a look-up does to the entry of [id]. *)
Lemma get_dag_entry id fi now stamp root id' t b b' x : ids_unique t → (∀ r, r ∈ t → row_ok id r) →
  get_dag_from_db fi now stamp root id' t b = Ok (b', x) →
  same_entry id b b' ∨ (∃ r, row_of id t = Some r ∧ fetched_entry id stamp r b') ∨
  (sget id (dags b') = None ∧ sget id (dags_last_fetched b') = None ∧ sget id (dags_hash b') = None).
Proof.
  intros Ht Hok. unfold get_dag_from_db.
  assert (∀ m, (m = _add_dag_from_db stamp root id' t b ∨ m = Ok b) → (b2 ← m; Ok (b2, sget id' (dags b2))) = Ok (b', x) →
    same_entry id b b' ∨ (∃ r, row_of id t = Some r ∧ fetched_entry id stamp r b')) as Hadd.
  { intros m Hm (b2 & Hb2 & [= <- _])%result_bind_ok. destruct Hm as [->| ->]; [by eapply add_dag_entry|].
    injection Hb2 as <-. by left. }
  destruct (sin id' (dags b)); cbn [negb]; [|intros [?|?]%Hadd; auto].
  assert (Ok (b, sget id' (dags b)) = Ok (b', x) → same_entry id b b') as Hsame by (intros [= <- _]; done).
  destruct (sget id' (dags_last_fetched b)) as [f|]; [|auto]. destruct (f + _ <? now); [|auto].
  destruct (get_last_updated_datetime id' t) as [lu|].
  - intros E%Hadd; [naive_solver|]. destruct (f <? lu); auto.
  - intros (? & H1%del_key_Ok & (? & H2%del_key_Ok & (? & H3%del_key_Ok & [= <- _])%result_bind_ok)%result_bind_ok)%result_bind_ok.
    subst. unfold same_entry. cbn [dags dags_last_fetched dags_hash]. rewrite !sget_sdel. case_bool_decide; auto.
Qed.

(** The transactions: only DAGs that can be written, none with sub-DAG [id]. *)
Definition op_allowed id (op : Z * DbOp W) : Prop :=
  match op.2 with
  | Write _ w => writable w ∧ ∀ j d, fmt_to_dict w = Ok j → fmt_from_dict j = Ok d → id ∉ d_dag_id <$> d_subdags d
  | _ => True
  end.

Lemma new_row_ok id now w r : op_allowed id (now, Write None w) → new_row fileloc_hash now w = Ok r →
  row_ok id r ∧ r_last_updated r = now ∧ r_dag_id r = w_dag_id w.
Proof.
  intros [Hw Hsub]. destruct (fmt_reads_back w Hw) as (j & d & Hj & Hd & Hid). unfold new_row. rewrite Hj.
  intros [= <-]. split_and!; [|done..]. exists d. split_and!; [done..|]. by apply (Hsub j).
Qed.

Lemma cache_ok_later id τ now e op rest t b : cache_ok id τ e (op :: rest) t b → τ < now → cache_ok id now (Z.max e (ends_at op)) rest t b.
Proof.
  intros [Hu Hr Hf Hk Hc] Hlt. split; [done|intros r Hin; destruct (Hr r Hin); split; [done|lia]| |done|done].
  intros f Hf'. destruct (Hf f Hf') as [[He Hw] Hh]. split; [|done]. split; [lia|]. intros x mi w Hin. apply (Hw x mi w). by right.
Qed.

Lemma cache_ok_bag id now stamp e rest t b b' : cache_ok id now e rest t b → stamp ≤ e → before_writes id rest stamp →
  (same_entry id b b' ∨ (∃ r, row_of id t = Some r ∧ fetched_entry id stamp r b') ∨
   (sget id (dags b') = None ∧ sget id (dags_last_fetched b') = None ∧ sget id (dags_hash b') = None)) →
  cache_ok id now e rest t b'.
Proof.
  intros [Hu Hr Hf Hk Hc] He Hw Hb. split; [done|done|..].
  - intros f Hf'. destruct Hb as [(_ & E2 & E3)|[(r & _ & d & _ & _ & E2 & E3)|(_ & E2 & _)]].
    + rewrite E2 in Hf'. rewrite E3. by apply Hf.
    + rewrite E3. split; [|eauto]. assert (f = stamp) as -> by congruence. done.
    + congruence.
  - destruct Hb as [(E1 & E2 & _)|[(r & _ & d & _ & E1 & E2 & _)|(E1 & _ & _)]]; rewrite ?E1, ?E2; [done|eauto|by intros []].
  - intros d f r Hd Hf' Hrow Hlu. destruct Hb as [(E1 & E2 & E3)|[(r' & Hrow' & d' & Hd' & E1 & E2 & E3)|(E1 & _ & _)]].
    + rewrite E1 in Hd. rewrite E2 in Hf'. rewrite E3. by apply (Hc d f).
    + assert (r' = r) as -> by congruence. assert (d' = d) as -> by congruence. done.
    + congruence.
Qed.

(** Fewer rows. *)
Lemma cache_ok_filter id now e rest t b (f : SerializedRow J → bool) : cache_ok id now e rest t b → cache_ok id now e rest (List.filter f t) b.
Proof.
  intros [Hu Hr Hf Hk Hc]. split; [by apply filter_unique| |done|done|].
  - intros r [_ Hin]%elem_of_filterb. by apply Hr.
  - intros d x r Hd Hx Hrow%row_of_filter; [|done]. by apply (Hc d x).
Qed.

(** No write of the row of [id] falls between the time at which a look-up reads the
    table and the time with which it stamps what it fetched. *)
Definition no_write_between id (ops : list (Z * DbOp W)) : Prop :=
  ∀ n root i stamp x mi w, (n, Get root i stamp) ∈ ops → (x, Write mi w) ∈ ops → w_dag_id w = id → x ≤ n ∨ stamp < x.

Lemma cache_ok_step id fi τ e s op rest : cache_ok id τ e (op :: rest) s.1 s.2 → τ < op.1 → Forall (λ x, op.1 < x) rest.*1 →
  op_allowed id op → no_write_between id (op :: rest) →
  cache_ok id op.1 (Z.max e (ends_at op)) rest (db_step fileloc_hash fi s op).1 (db_step fileloc_hash fi s op).2.
Proof.
  destruct s as [t b], op as [now op]. cbn [fst snd]. intros Hok Hlt Hrest Hop Hgap.
  pose proof (cache_ok_later id τ now e _ rest t b Hok Hlt) as Hnow.
  destruct op as [mi w|i|alive|root i stamp]; cbn [db_step fst snd].
  - destruct (write_dag fileloc_hash now mi w t) as [[t' wr]|x] eqn:E; [|done]. cbn [fst snd]. apply write_dag_spec in E.
    destruct wr; [|by destruct E as [-> _]]. destruct E as (r & Hr & ->).
    destruct (new_row_ok id now w r Hop Hr) as (Hrok & Hlu & Hid). destruct Hnow as [Hu Hrows Hf Hk Hc]. split; [by apply merge_unique| |done|done|].
    + intros r' [->|Hin]%elem_of_merge; [split; [done|lia]|auto].
    + intros d f r' Hd Hf' Hrow Hle. rewrite row_of_merge in Hrow. case_bool_decide as Ew; [|by apply (Hc d f)].
      injection Hrow as <-. destruct Hok as [_ _ Hf0 _ _]. destruct (Hf0 f Hf') as [[_ Hbw] _].
      specialize (Hbw now mi w ltac:(left) ltac:(congruence)). lia.
  - by apply cache_ok_filter.
  - by apply cache_ok_filter.
  - destruct (get_dag_from_db fi now stamp root i t b) as [[b' x]|x] eqn:E; [|done]. cbn [fst snd].
    apply (cache_ok_bag id now stamp _ rest t b b' Hnow); [cbn; lia| |].
    + intros x' mi w Hin Hid. destruct (Hgap now root i stamp x' mi w ltac:(left) ltac:(by right) Hid) as [Hx|?]; [|done].
      rewrite Forall_forall in Hrest. specialize (Hrest x' ltac:(apply list_elem_of_fmap; by exists (x', Write mi w))). lia.
    + eapply get_dag_entry; [apply Hok| |exact E]. intros r Hr. by apply Hok.
Qed.

Lemma last_cons_default {A} (x d : A) l : List.last (x :: l) d = List.last l x.
Proof. revert x d. induction l as [|y l IH]; intros x d; [done|]. transitivity (List.last (y :: l) d); [done|]. by rewrite !IH. Qed.

(** The time by which all transactions are over. *)
Definition all_over (e : Z) (ops : list (Z * DbOp W)) : Z := foldl (λ e op, Z.max e (ends_at op)) e ops.

Lemma all_over_le e ops τ : e ≤ τ → Forall (λ op, ends_at op ≤ τ) ops → all_over e ops ≤ τ.
Proof.
  revert e. induction ops as [|op ops IH]; intros e He Hall; [done|]. apply Forall_cons in Hall as [Hop Hall]. apply IH; [lia|done].
Qed.

Lemma no_write_tail id op ops : no_write_between id (op :: ops) → no_write_between id ops.
Proof. intros Hgap n root i stamp x mi w Hi Hj. apply (Hgap n root i stamp x mi w); by right. Qed.

Lemma cache_ok_run id fi τ e s ops rest : cache_ok id τ e (ops ++ rest) s.1 s.2 → StronglySorted Z.lt (τ :: (ops ++ rest).*1) →
  Forall (op_allowed id) ops → no_write_between id (ops ++ rest) →
  cache_ok id (List.last ops.*1 τ) (all_over e ops) rest (db_run fileloc_hash fi ops s).1 (db_run fileloc_hash fi ops s).2.
Proof.
  revert τ e s. induction ops as [|op ops IH]; intros τ e s Hok Hs Hall Hgap; [done|]. apply Forall_cons in Hall as [Hop Hall].
  apply StronglySorted_inv in Hs as [Hs Hlt]. cbn [app fmap list_fmap] in Hs, Hlt. apply Forall_cons in Hlt as [Hlt _].
  assert (List.last (op :: ops).*1 τ = List.last ops.*1 op.1) as ->.
  { cbn [fmap list_fmap]. apply last_cons_default. }
  apply (IH op.1 (Z.max e (ends_at op)) (db_step fileloc_hash fi s op)); [|done|done|by eapply no_write_tail].
  apply (cache_ok_step id fi τ e s op); [done|done| |done|done]. by apply StronglySorted_inv in Hs as [_ Hs].
Qed.

Lemma last_bound τ' σ (l : list Z) : σ ≤ τ' → Forall (λ x, x ≤ τ') l → List.last l σ ≤ τ'.
Proof.
  revert σ. induction l as [|x l IH]; intros σ Hσ Hl; [done|]. apply Forall_cons in Hl as [Hx Hl].
  rewrite last_cons_default. by apply IH.
Qed.

Lemma sorted_split_last x (l1 l2 : list Z) : StronglySorted Z.lt (x :: l1 ++ l2) →
  StronglySorted Z.lt (x :: l1) ∧ StronglySorted Z.lt (List.last l1 x :: l2).
Proof.
  revert x. induction l1 as [|y l1 IH]; intros x Hs; [split; [repeat constructor|done]|].
  rewrite last_cons_default. apply StronglySorted_inv in Hs as [Hs Hlt]. destruct (IH y Hs) as [H1 H2]. split; [|done].
  constructor; [done|]. by apply (Forall_app _ (y :: l1) l2) in Hlt as [? _].
Qed.

(** While there is no row for [id], the bag does not fetch it. *)
Lemma absent_step id fi τ σ e rest s op : cache_ok id σ e rest s.1 s.2 → row_of id s.1 = None →
  (∀ f, sget id (dags_last_fetched s.2) = Some f → f ≤ τ) →
  ∀ f, sget id (dags_last_fetched (db_step fileloc_hash fi s op).2) = Some f → f ≤ τ.
Proof.
  destruct s as [t b], op as [now op]. cbn [fst snd]. intros Hok Hrow Hf f.
  destruct op as [mi w|i|alive|root i stamp]; cbn [db_step fst snd]; [|apply Hf..|].
  - destruct (write_dag fileloc_hash now mi w t) as [[t' wr]|x]; apply Hf.
  - destruct (get_dag_from_db fi now stamp root i t b) as [[b' x]|x] eqn:E; [|apply Hf]. cbn [fst snd].
    destruct (get_dag_entry id fi now stamp root i t b b' x) as [(_ & -> & _)|[(r & Hr & _)|(_ & -> & _)]];
      [apply Hok|intros r Hr; by apply Hok|done|apply Hf|congruence|done].
Qed.

Lemma absent_run id fi τ σ e s ops : cache_ok id σ e ops s.1 s.2 → StronglySorted Z.lt (σ :: ops.*1) → Forall (op_allowed id) ops →
  no_write_between id ops →
  (∀ k, row_of id (db_run fileloc_hash fi (take k ops) s).1 = None) →
  (∀ f, sget id (dags_last_fetched s.2) = Some f → f ≤ τ) →
  ∀ f, sget id (dags_last_fetched (db_run fileloc_hash fi ops s).2) = Some f → f ≤ τ.
Proof.
  revert σ e s. induction ops as [|op ops IH]; intros σ e s Hok Hs Hall Hgap Hrow Hf; [exact Hf|].
  apply Forall_cons in Hall as [Hop Hall]. apply StronglySorted_inv in Hs as [Hs Hlt].
  cbn [fmap list_fmap] in Hs, Hlt. apply Forall_cons in Hlt as [Hlt _]. pose proof (proj2 (StronglySorted_inv Hs)) as Hrest.
  apply (IH op.1 (Z.max e (ends_at op)) (db_step fileloc_hash fi s op));
    [by apply (cache_ok_step id fi σ)|done|done|by eapply no_write_tail| |].
  - intros k. apply (Hrow (S k)).
  - exact (absent_step id fi τ σ e _ s op Hok (Hrow O) Hf).
Qed.

Lemma add_dag_current id stamp root t b r : row_of id t = Some r → row_ok id r →
  ∃ b' d, _add_dag_from_db stamp root id t b = Ok b' ∧ row_dag r = Ok d ∧ sget id (dags b') = Some d ∧
    sget id (dags_hash b') = Some (r_dag_hash r).
Proof.
  intros Hr (d & Hd & Hid & _). apply row_of_Some in Hr as Hr'. unfold _add_dag_from_db, get_row. rewrite Hr, Hd.
  cbn [mbind result_bind]. eexists _, d. split_and!; [done..| |]; cbn [dags dags_hash];
    rewrite sget_sset, bool_decide_eq_true_2; [done| |done|]; by rewrite Hid; apply Hr'.
Qed.

(** A look-up of an id whose row is older than the interval. *)
Lemma get_dag_current id fi now stamp root τ e rest t b r : cache_ok id τ e rest t b → row_of id t = Some r →
  r_last_updated r + microseconds fi < now →
  ∃ b' d, get_dag_from_db fi now stamp root id t b = Ok (b', Some d) ∧ row_dag r = Ok d ∧ sget id (dags_hash b') = Some (r_dag_hash r).
Proof.
  intros [_ Hr Hf Hk Hc] Hrow Hlt. destruct (Hr r ltac:(by apply row_of_Some in Hrow as [? _])) as [Hok _].
  destruct (add_dag_current id stamp root t b r Hrow Hok) as (b' & d & Ha & Hd & Hg & Hh).
  unfold get_dag_from_db. rewrite sin_sget. destruct (sget id (dags b)) as [d0|] eqn:Hd0.
  - rewrite bool_decide_eq_true_2 by eauto. cbn [negb]. destruct (Hk ltac:(eauto)) as [f Hf']. rewrite Hf'.
    unfold get_last_updated_datetime. rewrite Hrow. cbn [fmap option_fmap option_map].
    specialize (Hc d0 f r eq_refl Hf' Hrow).
    destruct (f + microseconds fi <? now) eqn:E1; [destruct (f <? r_last_updated r) eqn:E2|];
      rewrite ?Ha; cbn [mbind result_bind]; rewrite ?Hg, ?Hd0.
    + exists b', d. done.
    + apply Z.ltb_ge in E2. exists b, d0. split; [done|]. by apply Hc.
    + apply Z.ltb_ge in E1. exists b, d0. split; [done|]. apply Hc. lia.
  - rewrite bool_decide_eq_false_2 by (by intros []). cbn [negb]. rewrite Ha. cbn [mbind result_bind]. rewrite Hg. by exists b', d.
Qed.

Lemma get_dag_absent id fi now stamp root τ e rest t b : cache_ok id τ e rest t b → row_of id t = None → root id ∈ [None; Some None] →
  (∀ f, sget id (dags_last_fetched b) = Some f → f + microseconds fi < now) →
  get_dag_from_db fi now stamp root id t b = Err SerializedDagNotFound ∨
  ∃ b', get_dag_from_db fi now stamp root id t b = Ok (b', None) ∧ sget id (dags b') = None.
Proof.
  intros [_ _ Hf Hk _] Hrow Hroot Hold. unfold get_dag_from_db. rewrite sin_sget. destruct (sget id (dags b)) as [d0|] eqn:Hd0.
  - right. rewrite bool_decide_eq_true_2 by eauto. cbn [negb]. destruct (Hk ltac:(eauto)) as [f Hf']. rewrite Hf'.
    rewrite (proj2 (Z.ltb_lt _ _) (Hold f Hf')). unfold get_last_updated_datetime. rewrite Hrow. cbn [fmap option_fmap option_map].
    destruct (Hf f Hf') as [_ Hh]. unfold del_key. rewrite !sin_sget, Hd0, Hf', !bool_decide_eq_true_2 by eauto.
    cbn [mbind result_bind]. eexists. split; [done|]. cbn [dags]. by rewrite sget_sdel, bool_decide_eq_true_2.
  - left. rewrite bool_decide_eq_false_2 by (by intros []). cbn [negb]. unfold _add_dag_from_db, get_row. rewrite Hrow.
    apply elem_of_cons in Hroot as [->|Hroot]; [done|]. by apply list_elem_of_singleton in Hroot as ->.
Qed.

(** C27: the bag converges to the table.  Processes write, replace and delete
    rows and the bag looks up DAGs in any order, at increasing times; a look-up
    stamps what it fetched at a later time than it read it, and we assume that the
    row of the DAG is not written in between (with such a write the bag can stay
    behind, see [update_lost]).  If the row of a DAG that is no sub-DAG, and that is
    the sub-DAG of no other, has not changed since [τ], when the look-ups before were
    over, a look-up more than the fetch interval later returns the DAG of exactly
    this row, with its hash, and without a row it returns no DAG: whatever the bag
    holds, it is not stale for longer than the interval, and the bookkeeping of
    fetches does not raise. *)
Theorem dag_bag_converges id fi start t0 ops1 ops2 τ (row : option (SerializedRow J)) now stamp root
  (Hunique : ids_unique t0) (Hrows : ∀ r, r ∈ t0 → row_ok id r ∧ r_last_updated r ≤ start)
  (Htimes : StronglySorted Z.lt (start :: (ops1 ++ ops2).*1)) (Hallowed : Forall (op_allowed id) (ops1 ++ ops2))
  (Hgap : no_write_between id (ops1 ++ ops2))
  (Hsince : start ≤ τ ∧ Forall (λ op, op.1 ≤ τ ∧ ends_at op ≤ τ) ops1)
  (Hrow : ∀ k, row_of id (db_run fileloc_hash fi (ops1 ++ take k ops2) (t0, empty_bag)).1 = row)
  (Hroot : root id ∈ [None; Some None]) (Hnow : τ + microseconds fi < now) :
  let s := db_run fileloc_hash fi (ops1 ++ ops2) (t0, empty_bag) in
  match row with
  | Some r => ∃ b d, get_dag_from_db fi now stamp root id s.1 s.2 = Ok (b, Some d) ∧ row_dag r = Ok d ∧
      sget id (dags_hash b) = Some (r_dag_hash r)
  | None => get_dag_from_db fi now stamp root id s.1 s.2 = Err SerializedDagNotFound ∨
      ∃ b, get_dag_from_db fi now stamp root id s.1 s.2 = Ok (b, None) ∧ sget id (dags b) = None
  end.
Proof.
  intros s. destruct Hsince as [Hstart [Ht1 He1]%Forall_and].
  assert (∀ rest, cache_ok id start start rest (t0, @empty_bag D).1 (t0, @empty_bag D).2) as Hinit by (intros; split; cbn; [done..|by intros []|done]).
  assert (cache_ok id (List.last (ops1 ++ ops2).*1 start) (all_over start (ops1 ++ ops2)) [] s.1 s.2) as Hend
    by (apply cache_ok_run; rewrite ?app_nil_r; done).
  assert (StronglySorted Z.lt (start :: ops1.*1) ∧ StronglySorted Z.lt (List.last ops1.*1 start :: ops2.*1)) as [Hs1 Hs2].
  { rewrite fmap_app in Htimes. by apply (sorted_split_last start). }
  apply Forall_app in Hallowed as [Hall1 Hall2].
  pose proof (cache_ok_run id fi start start _ ops1 ops2 (Hinit _) Htimes Hall1 Hgap) as Hmid.
  assert (List.last ops1.*1 start ≤ τ) as Hlast by (apply last_bound; [done|by apply Forall_fmap]).
  pose proof (all_over_le start ops1 τ Hstart He1) as Hover.
  assert (row_of id s.1 = row) as Hr by (rewrite <-(Hrow (length ops2)), take_ge; done).
  destruct row as [r|].
  - eapply get_dag_current; [exact Hend|done|].
    pose proof (Hrow O) as Hr0. rewrite take_0, app_nil_r in Hr0. apply row_of_Some in Hr0 as [Hin _].
    destruct (co_rows _ _ _ _ _ _ Hmid r Hin). lia.
  - eapply get_dag_absent; [exact Hend|done..|]. intros f Hf. enough (f ≤ τ) by lia. revert f Hf. subst s.
    unfold db_run. rewrite foldl_app. apply (absent_run id fi τ _ _ _ ops2 Hmid Hs2 Hall2).
    + intros n r i x y mi w H1 H2. apply (Hgap n r i x y mi w); apply elem_of_app; by right.
    + intros k. rewrite <-(Hrow k). unfold db_run. by rewrite foldl_app.
    + intros f Hf. destruct (co_fetched _ _ _ _ _ _ Hmid f Hf) as [[? _] _]. lia.
Qed.
End CacheFacts.

(** ** The format of the serialized DAGs keeps the law

    [SerializedDag] models DAGs without sub-DAGs, which can be written when their
    attributes are of the types expected and the JSON schema accepts the result. *)
Section Format.
Context {F : Type} `{PyFloat F} `{Dateutil} `{Identity F} (c : Defaults)
        (str_other : py F → string) (nested : string → json F → result (py F)) (importable : string → bool)
        (validate_schema : json F → bool) (md5_json : list (string * json F) → string).

Definition text_of (v : py F) : string := match v with PPrim (StrV s) => s | _ => "" end.

#[local] Instance serialized_format : DagFormat (Dag F) (SerializedDAG (F:=F)) (list (string * json F)) := {|
  w_dag_id dag := text_of (getattr "_dag_id" (dag_attrs dag));
  w_fileloc dag := text_of (getattr "fileloc" (dag_attrs dag));
  w_is_subdag _ := false;
  d_dag_id dag := text_of (getattr "_dag_id" (sd_attrs dag));
  d_subdags _ := [];
  fmt_to_dict := to_dict c str_other validate_schema;
  fmt_from_dict := from_dict c nested importable;
  md5 := md5_json;
|}.

Definition accepted (dag : Dag F) : Prop := dag_ok c dag ∧ is_ok (to_dict c str_other validate_schema dag) = true.

#[local] Instance serialized_format_laws : DagFormatLaws (Dag F) (SerializedDAG (F:=F)) (list (string * json F)) accepted.
Proof.
  split. intros dag [Hok Hacc]. destruct (dag_reads_back c str_other nested importable dag Hok) as (e & d & He & Hd & Hsame).
  cbn [fmt_to_dict fmt_from_dict serialized_format d_dag_id w_dag_id]. unfold to_dict in *. rewrite He in *.
  cbn [mbind result_bind] in *. destruct (validate_schema _); [|done]. eexists _, d. split; [done|]. split; [exact Hd|].
  assert ("_dag_id" ∈ dag_fields) as Hin by (apply (bool_decide_unpack _); by vm_compute).
  pose proof (sd_fields _ _ _ _ Hsame "_dag_id" Hin) as Hr. destruct (dk_fields _ _ Hok "_dag_id" Hin) as [s Hs].
  rewrite Hs in *. destruct Hr as [Hr|[Hemp _]]; [|done]. f_equal. by inversion Hr.
Qed.
End Format.

(** ** Bagging DAGs from files *)

(** What holds of the state and the result when an operation ends. *)
Definition wp {A} (m : M A) (s : FileBag) (Q : FileBag → result A → Prop) : Prop := Q (m s).1 (m s).2.

Lemma wp_bind {A B} (m : M A) (f : A → M B) s Q :
  wp m s (λ s r, match r with Ok a => wp (f a) s Q | Err e => Q s (Err e) end) → wp (m ≫= f) s Q.
Proof. unfold wp, mbind, M_bind. by destruct (m s) as [s' [a|e]]. Qed.

Lemma wp_except {A} (m : M A) (h : exn → M A) s Q :
  wp m s (λ s r, match r with Ok a => Q s (Ok a) | Err e => wp (h e) s Q end) → wp (except m h) s Q.
Proof. unfold wp, except. by destruct (m s) as [s' [a|e]]. Qed.

Lemma wp_mono {A} (m : M A) s (Q Q' : FileBag → result A → Prop) : wp m s Q → (∀ s r, Q s r → Q' s r) → wp m s Q'.
Proof. unfold wp. auto. Qed.

(** The sub-DAGs depend on the objects only through their operators, and a deeper
    recursion finds the same. *)
Lemma foldM_ext {A S} (f g : S → A → result S) l x : (∀ s y, y ∈ l → f s y = g s y) → foldM f l x = foldM g l x.
Proof.
  revert x. induction l as [|y l IH]; intros x Hfg; [done|]. cbn. rewrite Hfg by left.
  destruct (g x y); [|done]. apply IH. intros; apply Hfg; by right.
Qed.

Lemma subdags_ext n (h h' : Heap) a : (∀ x, o_children (h x) = o_children (h' x)) → subdags n h a = subdags n h' a.
Proof.
  intros Hh. revert a. induction n as [|n IH]; intros a; [done|]. cbn [subdags]. rewrite Hh. apply foldM_ext.
  intros l s _. by rewrite IH.
Qed.

Lemma subdags_loop (sub : Addr → result (list Addr)) l acc res :
  foldM (λ acc s, ss ← sub s; Ok (acc ++ s :: ss)) l acc = Ok res →
  ∃ parts, mapR sub l = Ok parts ∧ res = acc ++ mjoin (zip_with cons l parts).
Proof.
  revert acc. induction l as [|s l IH]; intros acc; [intros [= <-]; exists []; by rewrite app_nil_r|]. cbn [foldM].
  intros (acc' & (ss & Hss & [= <-])%result_bind_ok & (parts & Hp & ->)%IH)%result_bind_ok.
  exists (ss :: parts). split; [cbn; rewrite Hss; cbn; by rewrite Hp|]. by rewrite <-app_assoc.
Qed.

Lemma subdags_loop_mono (f g : Addr → result (list Addr)) l acc res : (∀ x y, f x = Ok y → g x = Ok y) →
  foldM (λ acc s, ss ← f s; Ok (acc ++ s :: ss)) l acc = Ok res → foldM (λ acc s, ss ← g s; Ok (acc ++ s :: ss)) l acc = Ok res.
Proof.
  intros Hfg. revert acc. induction l as [|s l IH]; intros acc; [done|]. cbn [foldM].
  intros (acc' & (ss & Hss%Hfg & [= <-])%result_bind_ok & Hl%IH)%result_bind_ok. by rewrite Hss.
Qed.

Lemma subdags_mono n h a l : subdags n h a = Ok l → subdags (S n) h a = Ok l.
Proof.
  revert a l. induction n as [|n IH]; intros a l; [done|]. change (subdags (S (S n)) h a) with
    (foldM (λ acc s, ss ← subdags (S n) h s; Ok (acc ++ s :: ss)) (o_children (h a)) []).
  cbn [subdags]. apply subdags_loop_mono. exact IH.
Qed.

Lemma subdags_elem n h a l s : subdags n h a = Ok l → s ∈ l → ∃ l', subdags n h s = Ok l'.
Proof.
  revert a l s. induction n as [|n IH]; intros a l s; [done|]. intros Ha. cbn [subdags] in Ha.
  apply subdags_loop in Ha as (parts & Hp & ->). cbn [app]. intros Hs.
  assert (∃ l', subdags n h s = Ok l') as (l' & Hl'); [|exists l'; by apply subdags_mono].
  revert parts Hp Hs. induction (o_children (h a)) as [|c cs IHc]; intros parts; cbn.
  - intros [= <-] ?%elem_of_nil. done.
  - intros (p & Hp & (ps & Hps & [= <-])%result_bind_ok)%result_bind_ok. cbn [zip_with mjoin list_join app].
    intros [->|[Hin|Hin]%elem_of_app]%elem_of_cons; [eauto|by eapply IH|by eapply IHc].
Qed.

Section BagFacts.
Local Open Scope Z_scope.
Context (policies : DagObj → result DagObj) (limit : nat).
(** A policy may change a DAG and its tasks, not its id and what the bag keeps in
    the object. *)
Context (policies_keep : ∀ o o', policies o = Ok o' →
  o_dag_id o' = o_dag_id o ∧ o_fileloc o' = o_fileloc o ∧ o_is_subdag o' = o_is_subdag o ∧ o_parent o' = o_parent o ∧
  o_last_loaded o' = o_last_loaded o ∧ o_children o' = o_children o).
Context (now : Z) (a : Addr) (s0 : FileBag).

Abbreviation id_of x := (o_dag_id (heap s0 x)).
Abbreviation file := (o_fileloc (heap s0 a)).

(** What the checks and the policies make of the DAG and of a sub-DAG. *)
Definition vetted (x : Addr) : result DagObj :=
  let o := heap s0 x in
  _ ← check_cycle (o_dag o);
  policies (set_last_loaded now (if (x =? a)%nat then o else set_is_subdag true (set_parent a (set_fileloc file o)))).

(** The id is used by another object, of another file. *)
Definition conflict (x : Addr) : Prop :=
  ∃ prev, sget (id_of x) (f_dags s0) = Some prev ∧ prev ≠ x ∧ o_fileloc (heap s0 prev) ≠ file.

Definition linked_subdag (o : DagObj) : Prop :=
  o_fileloc o = file ∧ o_is_subdag o = true ∧ o_parent o = Some a ∧ o_last_loaded o = now.

(** The entry that bagging [P] leaves for a key. *)
Definition entry (P : list Addr) (k : string) : option Addr :=
  match List.find (λ x, id_of x ≟ k) P with Some x => Some x | None => sget k (f_dags s0) end.

(** The state when the sub-DAGs [P] have been bagged. *)
Record bagged (P : list Addr) (s : FileBag) : Prop := {
  bg_id x : o_dag_id (heap s x) = id_of x;
  bg_children x : o_children (heap s x) = o_children (heap s0 x);
  bg_file x : x ∉ P → o_fileloc (heap s x) = o_fileloc (heap s0 x);
  bg_other x : x ∉ a :: P → heap s x = heap s0 x;
  bg_linked x : x ∈ P → linked_subdag (heap s x);
  bg_root : o_last_loaded (heap s a) = now;
  bg_dags k : sget k (f_dags s) = entry P k;
  bg_errors : import_errors s = import_errors s0 ∧ file_last_changed s = file_last_changed s0;
}.

(** The objects keep their ids and the entries are those of [P]. *)
Definition entries_of (P : list Addr) (s : FileBag) : Prop :=
  (∀ x, o_dag_id (heap s x) = id_of x) ∧ (∀ k, sget k (f_dags s) = entry P k).

Definition refused (x : Addr) (e : exn) : Prop :=
  vetted x = Err e ∨ (e = AirflowDagDuplicatedIdException ∧ conflict x).

Context (subs : list Addr) (Hsubs : subdags limit (heap s0) a = Ok subs) (Hids : NoDup ((λ x, id_of x) <$> a :: subs))
  (Hkeys : ∀ k x, sget k (f_dags s0) = Some x → id_of x = k).

Lemma same_id x y : x ∈ a :: subs → y ∈ a :: subs → id_of x = id_of y → x = y.
Proof. exact (NoDup_fmap_elem (λ x, id_of x) _ x y Hids). Qed.

Lemma entry_snoc P x k : id_of x ∉ (λ y, id_of y) <$> P → entry (P ++ [x]) k = if id_of x ≟ k then Some x else entry P k.
Proof.
  intros Hx. unfold entry. induction P as [|y P IH]; cbn [List.find app].
  - by case_bool_decide.
  - destruct (id_of y ≟ k) eqn:E.
    + apply bool_decide_eq_true in E. rewrite bool_decide_eq_false_2; [done|]. intros E'. apply Hx. rewrite fmap_cons, elem_of_cons. left. congruence.
    + apply IH. intros ?. apply Hx. rewrite fmap_cons, elem_of_cons. by right.
Qed.

Lemma entry_old P k : k ∉ (λ y, id_of y) <$> P → entry P k = sget k (f_dags s0).
Proof.
  intros Hk. unfold entry. destruct (List.find _ P) as [y|] eqn:E; [|done].
  apply List.find_some in E as [Hy%list_elem_of_In Hid%bool_decide_eq_true]. destruct Hk. apply list_elem_of_fmap. by exists y.
Qed.

Lemma upd_eq f x (h : Heap) : upd f x h x = f (h x).
Proof. unfold upd. by rewrite Nat.eqb_refl. Qed.
Lemma upd_ne f x y (h : Heap) : y ≠ x → upd f x h y = h y.
Proof. unfold upd. intros. by rewrite (proj2 (Nat.eqb_neq y x)). Qed.

(** The last part of [_bag_dag]: the DAG is put into the bag, unless another file
    has one with this id. *)
Definition register (x : Addr) : M unit :=
  dag ← obj x;
  dags ← get_dags;
  match sget (o_dag_id dag) dags with
  | Some prev =>
      prev_dag ← obj prev;
      if o_fileloc prev_dag ≟ o_fileloc dag then put_dags (sset (o_dag_id dag) x dags)
      else raise AirflowDagDuplicatedIdException
  | None => put_dags (sset (o_dag_id dag) x dags)
  end.

Lemma register_eq x s : register x s =
  let k := o_dag_id (heap s x) in
  if match sget k (f_dags s) with Some prev => o_fileloc (heap s prev) ≟ o_fileloc (heap s x) | None => true end
  then (set_dags (sset k x (f_dags s)) s, Ok tt) else (s, Err AirflowDagDuplicatedIdException).
Proof.
  unfold register, mbind, M_bind, obj, get_dags. destruct (sget _ (f_dags s)) as [prev|]; [|done].
  by destruct (o_fileloc (heap s prev) ≟ _).
Qed.

(** The handler: the sub-DAGs leave the bag. *)
Definition unregister (subdags : list Addr) : M unit :=
  forM subdags (λ subdag,
    o ← obj subdag;
    dags ← get_dags;
    if sin (o_dag_id o) dags then put_dags (sdel (o_dag_id o) dags) else mret tt).

Definition link_and_bag (bag_subdag : Addr → M unit) (x subdag : Addr) : M unit :=
  dag ← obj x;
  _ ← modify (set_fileloc (o_fileloc dag)) subdag;
  _ ← modify (set_parent x) subdag;
  _ ← modify (set_is_subdag true) subdag;
  bag_subdag subdag.

(** The part from the sub-DAGs on. *)
Definition bag_rest (bag_subdag : Addr → M unit) (recursive : bool) (x : Addr) : M unit :=
  subdags ← subdags_of limit x;
  except
    (_ ← (if recursive then forM subdags (link_and_bag bag_subdag x) else mret tt); register x)
    (λ e, if e ∈? [AirflowDagCycleException; AirflowDagDuplicatedIdException] then
            _ ← (if recursive then unregister subdags else mret tt); raise e
          else raise e).

Lemma bag_dag_with_eq bag_subdag recursive x : _bag_dag_with policies limit bag_subdag now recursive x =
  (o ← obj x;
   _ ← lift (check_cycle (o_dag o));
   _ ← modify (set_last_loaded now) x;
   o ← obj x;
   o ← lift (policies o);
   _ ← modify (λ _, o) x;
   bag_rest bag_subdag recursive x).
Proof. done. Qed.

(** The part of [_bag_dag] before the sub-DAGs. *)
Definition vet (s : FileBag) (x : Addr) : result DagObj :=
  _ ← check_cycle (o_dag (heap s x)); policies (set_last_loaded now (heap s x)).

Lemma vet_wp bag_subdag recursive x s Q :
  (∀ e s', vet s x = Err e → f_dags s' = f_dags s → (∀ y, o_dag_id (heap s' y) = o_dag_id (heap s y)) → Q s' (Err e)) →
  (∀ o, vet s x = Ok o →
    wp (bag_rest bag_subdag recursive x)
      (set_heap (upd (λ _, o) x (upd (set_last_loaded now) x (heap s))) s) Q) →
  wp (_bag_dag_with policies limit bag_subdag now recursive x) s Q.
Proof.
  intros Herr Hok. rewrite bag_dag_with_eq. unfold vet in *. apply wp_bind. cbn [wp obj fst snd]. apply wp_bind. unfold lift, wp at 1. cbn [fst snd].
  destruct (check_cycle _) as [[]|e]; [|by apply (Herr e)]. cbn [mbind result_bind] in *.
  apply wp_bind. unfold modify at 1, wp at 1. cbn [fst snd]. apply wp_bind. unfold obj at 1, wp at 1. cbn [fst snd].
  apply wp_bind. unfold wp at 1. cbn [fst snd heap set_heap]. rewrite upd_eq. destruct (policies _) as [o|e].
  - apply wp_bind. unfold modify at 1, wp at 1. cbn [fst snd heap set_heap]. exact (Hok o eq_refl).
  - apply (Herr e); [done..|]. intros y. cbn [heap set_heap]. destruct (decide (y = x)) as [->|Hy]; [by rewrite upd_eq|by rewrite upd_ne].
Qed.

Lemma sub_other x : x ∈ subs → x ≠ a.
Proof. intros Hx ->. apply NoDup_cons in Hids as [Ha _]. apply Ha. apply list_elem_of_fmap. by exists a. Qed.

(** Registering a DAG succeeds exactly when no other file has its id. *)
Lemma register_wp P x s (Q : FileBag → result unit → Prop) : x ∈ a :: subs → P ⊆ subs → x ∉ P → o_dag_id (heap s x) = id_of x →
  o_fileloc (heap s x) = file → (∀ y, y ∉ a :: subs → heap s y = heap s0 y) → (∀ k, sget k (f_dags s) = entry P k) →
  (¬ conflict x → Q (set_dags (sset (id_of x) x (f_dags s)) s) (Ok tt)) →
  (conflict x → Q s (Err AirflowDagDuplicatedIdException)) → wp (register x) s Q.
Proof.
  intros Hx HP HxP Hid Hfile Hother Hdags Hok Herr. unfold wp. rewrite register_eq. cbn zeta. rewrite Hid, Hdags, Hfile.
  assert (entry P (id_of x) = sget (id_of x) (f_dags s0)) as He.
  { apply entry_old. intros (y & Hy & HyP)%list_elem_of_fmap. apply HxP.
    by rewrite (same_id x y Hx ltac:(right; by apply HP) Hy). }
  rewrite He. destruct (sget (id_of x) (f_dags s0)) as [prev|] eqn:Hp.
  - destruct (decide (prev = x)) as [->|Hne].
    + rewrite Hfile, bool_decide_eq_true_2 by done. apply Hok. intros (y & Hy & Hyx & _). congruence.
    + rewrite Hother.
      2: { intros Hin. apply Hne, same_id; [done..|]. by apply Hkeys. }
      case_bool_decide as E.
      * apply Hok. intros (y & Hy & _ & Hf). congruence.
      * apply Herr. by exists prev.
  - apply Hok. intros (y & Hy & _). congruence.
Qed.

Abbreviation bag_child := (λ y, _bag_dag_with policies limit (λ _, mret tt) now false y).

Lemma child_wp P x s : bagged P s → x ∈ subs → P ⊆ subs → x ∉ P →
  wp (link_and_bag bag_child a x) s (λ s r,
    match r with
    | Ok _ => bagged (P ++ [x]) s ∧ is_ok (vetted x) = true ∧ ¬ conflict x
    | Err e => entries_of P s ∧ refused x e
    end).
Proof.
  intros [Hid Hch Hfile Hother Hlink Hroot Hdags Herrs] Hx HP HxP. pose proof (sub_other x Hx) as Hxa.
  assert (a ∉ P) as HaP by (intros Ha; by apply (sub_other a); [apply HP|]).
  unfold link_and_bag. apply wp_bind. unfold obj, wp at 1. cbn [fst snd].
  do 3 (apply wp_bind; unfold modify at 1, wp at 1; cbn [fst snd heap set_heap]). rewrite (Hfile a HaP).
  set (L := set_is_subdag true (set_parent a (set_fileloc file (heap s0 x)))).
  set (s1 := set_heap _ _).
  assert (heap s1 x = L) as Hs1x by (subst s1; cbn [heap set_heap]; rewrite !upd_eq, Hother by set_solver; done).
  assert (∀ y, y ≠ x → heap s1 y = heap s y) as Hs1y by (intros y Hy; subst s1; cbn [heap set_heap]; by rewrite !upd_ne).
  assert (vet s1 x = vetted x) as Hvet.
  { unfold vet, vetted. rewrite Hs1x, (proj2 (Nat.eqb_neq x a)) by done. done. }
  assert (∀ y, o_dag_id (heap s1 y) = id_of y) as Hs1id.
  { intros y. destruct (decide (y = x)) as [->|Hy]; [by rewrite Hs1x|by rewrite Hs1y]. }
  apply vet_wp.
  { intros e s' He Hd Hi. split; [|left; congruence]. split; [intros y; rewrite Hi; apply Hs1id|intros k; rewrite Hd; apply Hdags]. }
  intros o Ho. rewrite Hvet in Ho. assert (policies (set_last_loaded now L) = Ok o) as Hpol.
  { unfold vetted in Ho. rewrite (proj2 (Nat.eqb_neq x a)) in Ho by done. by apply result_bind_ok in Ho as (? & _ & ?). }
  apply policies_keep in Hpol as (P1 & P2 & P3 & P4 & P5 & P6).
  set (s2 := set_heap _ s1).
  assert (heap s2 x = o) as Hs2x by (subst s2; cbn [heap set_heap]; by rewrite upd_eq).
  assert (∀ y, y ≠ x → heap s2 y = heap s y) as Hs2y by (intros y Hy; subst s2; cbn [heap set_heap]; rewrite !upd_ne by done; auto).
  assert (∀ y, o_children (heap s2 y) = o_children (heap s0 y)) as Hs2ch.
  { intros y. destruct (decide (y = x)) as [->|Hy]; [by rewrite Hs2x|by rewrite Hs2y]. }
  assert (∀ y, o_dag_id (heap s2 y) = id_of y) as Hs2id.
  { intros y. destruct (decide (y = x)) as [->|Hy]; [by rewrite Hs2x|by rewrite Hs2y]. }
  unfold bag_rest. apply wp_bind. unfold subdags_of, wp at 1. cbn [fst snd]. rewrite (subdags_ext _ _ (heap s0)) by done.
  destruct (subdags_elem _ _ _ _ x Hsubs Hx) as [l ->]. apply wp_except, wp_bind. unfold mret, M_ret, wp at 1. cbn [fst snd].
  apply (register_wp P); [by right|done|done|done|by rewrite Hs2x| |done| |].
  - intros y Hy. rewrite Hs2y by (intros ->; apply Hy; by right). apply Hother. set_solver.
  - intros Hc. split_and!; [|by rewrite Ho|done]. split; cbn [heap set_dags f_dags]; [done|done| | | | | |done].
    + intros y Hy. rewrite Hs2y by set_solver. apply Hfile. set_solver.
    + intros y Hy. rewrite Hs2y by set_solver. apply Hother. set_solver.
    + intros y [Hy| ->%list_elem_of_singleton]%elem_of_app; [rewrite Hs2y by (by intros ->); by apply Hlink|].
      rewrite Hs2x. unfold linked_subdag. rewrite P2, P3, P4, P5. done.
    + by rewrite Hs2y.
    + intros k. rewrite sget_sset. change (f_dags s2) with (f_dags s). rewrite Hdags, entry_snoc; [done|].
      intros (y & Hy & HyP)%list_elem_of_fmap. apply HxP. rewrite (same_id x y); [done|by right|right; by apply HP|done].
  - intros Hc. case_bool_decide as E; [|by destruct E; set_solver]. unfold wp, raise, mbind, M_bind, mret, M_ret. cbn [fst snd].
    split; [split; done|right; done].
Qed.

Lemma children_wp Q P s : bagged P s → subs = P ++ Q →
  wp (forM Q (link_and_bag bag_child a)) s (λ s r,
    match r with
    | Ok _ => bagged subs s ∧ ∀ x, x ∈ Q → is_ok (vetted x) = true ∧ ¬ conflict x
    | Err e => ∃ P' x, P' ⊆ subs ∧ x ∈ Q ∧ entries_of P' s ∧ refused x e
    end).
Proof.
  revert P s. induction Q as [|x Q IH]; intros P s Hb Hsplit.
  { cbn. rewrite app_nil_r in Hsplit. rewrite Hsplit. split; [done|]. by intros x ?%elem_of_nil. }
  cbn [forM]. assert (NoDup subs) as Hnd. { apply NoDup_cons in Hids as [_ Hn]. by apply NoDup_fmap_1 in Hn. }
  rewrite Hsplit in Hnd. apply NoDup_app in Hnd as (_ & Hdisj & _). apply wp_bind. eapply wp_mono.
  { apply (child_wp P x s Hb); [rewrite Hsplit; set_solver|rewrite Hsplit; set_solver|]. intros Hx. apply (Hdisj x Hx). left. }
  intros s' [u|e]; cbn beta iota.
  - intros (Hb' & Hv & Hc). eapply wp_mono; [apply (IH (P ++ [x])); [done|by rewrite <-app_assoc]|].
    intros s2 [u2|e]; cbn beta iota.
    + intros [Hb2 Hall]. split; [done|]. intros y [->|Hy]%elem_of_cons; auto.
    + intros (P' & y & ? & ? & ?). exists P', y. split_and!; [done|by right|tauto|tauto].
  - intros [He Hr]. exists P, x. split_and!; [rewrite Hsplit; set_solver|left|done|done].
Qed.

Lemma unregister_wp l s : (∀ x, o_dag_id (heap s x) = id_of x) →
  wp (unregister l) s (λ s' r, r = Ok tt ∧ heap s' = heap s ∧
    ∀ k, sget k (f_dags s') = if k ∈? ((λ x, id_of x) <$> l) then None else sget k (f_dags s)).
Proof.
  revert s. induction l as [|x l IH]; intros s Hid; [done|]. unfold unregister. cbn [forM]. fold (unregister l).
  apply wp_bind, wp_bind. unfold obj, wp at 1. cbn [fst snd]. apply wp_bind. unfold get_dags, wp at 1. cbn [fst snd].
  assert (∀ s', heap s' = heap s → (∀ k, sget k (f_dags s') = if id_of x ≟ k then None else sget k (f_dags s)) →
    wp (unregister l) s' (λ s' r, r = Ok tt ∧ heap s' = heap s ∧
      ∀ k, sget k (f_dags s') = if k ∈? ((λ x, id_of x) <$> x :: l) then None else sget k (f_dags s))) as Hgo.
  { intros s' Hh Hd. eapply wp_mono; [apply IH; by rewrite Hh|]. cbn beta. intros s2 r (-> & Hh2 & Hd2).
    split_and!; [done|congruence|]. intros k. rewrite Hd2, Hd, fmap_cons. repeat case_bool_decide; set_solver. }
  rewrite Hid. destruct (sin (id_of x) (f_dags s)) eqn:E; unfold put_dags, mret, M_ret, wp at 1; cbn [fst snd]; apply Hgo; [done| |done|].
  - intros k. cbn [f_dags set_dags]. apply sget_sdel.
  - intros k. case_bool_decide as Hk; [|done]. rewrite sin_sget, bool_decide_eq_false, <-eq_None_not_Some, Hk in E. done.
Qed.

Definition bag_failed (s : FileBag) (e : exn) : Prop :=
  (∃ x, x ∈ a :: subs ∧ refused x e) ∧
  (∀ k, k ∉ (λ x, id_of x) <$> subs → sget k (f_dags s) = sget k (f_dags s0)) ∧
  (e ∈ [AirflowDagCycleException; AirflowDagDuplicatedIdException] → is_ok (vetted a) = true →
   ∀ k, k ∈ (λ x, id_of x) <$> subs → sget k (f_dags s) = None).

Lemma handler_wp P s e (Q : FileBag → result unit → Prop) : P ⊆ subs → entries_of P s → (∃ x, x ∈ a :: subs ∧ refused x e) →
  (∀ s, bag_failed s e → Q s (Err e)) →
  wp (if e ∈? [AirflowDagCycleException; AirflowDagDuplicatedIdException] then
        _ ← (if true then unregister subs else mret tt); raise e
      else raise e : M unit) s Q.
Proof.
  intros HP [Hid Hd] Hr HQ. assert (∀ k, k ∉ (λ x, id_of x) <$> subs → sget k (f_dags s) = sget k (f_dags s0)) as Hold.
  { intros k Hk. rewrite Hd. apply entry_old. intros (x & -> & Hx)%list_elem_of_fmap. apply Hk, list_elem_of_fmap. exists x. auto. }
  case_bool_decide as E.
  - apply wp_bind. eapply wp_mono; [by apply unregister_wp|]. cbn beta. intros s' r (-> & Hh & Hd').
    unfold wp, raise. cbn [fst snd]. apply HQ. split_and!; [done| |].
    + intros k Hk. rewrite Hd', bool_decide_eq_false_2 by done. auto.
    + intros _ _ k Hk. by rewrite Hd', bool_decide_eq_true_2.
  - unfold wp, raise. cbn [fst snd]. apply HQ. by split_and!.
Qed.

Lemma bag_dag_wp : wp (bag_dag policies limit now a) s0 (λ s r,
  match r with
  | Ok _ =>
      (∀ x, x ∈ a :: subs → is_ok (vetted x) = true ∧ ¬ conflict x) ∧
      (∀ k, sget k (f_dags s) = entry (subs ++ [a]) k) ∧
      (∀ x, x ∈ subs → linked_subdag (heap s x)) ∧ (∀ x, x ∉ a :: subs → heap s x = heap s0 x)
  | Err e => bag_failed s e
  end).
Proof.
  assert (vet s0 a = vetted a) as Hvet by (unfold vet, vetted; by rewrite Nat.eqb_refl).
  assert (a ∉ subs) as Ha by (intros Hin; by apply (sub_other a)).
  unfold bag_dag, _bag_dag. apply vet_wp.
  { intros e s He Hd _. split_and!; [exists a; split; [left|left; congruence]|by rewrite Hd|]. rewrite <-Hvet, He. done. }
  intros o Ho. rewrite Hvet in Ho. assert (policies (set_last_loaded now (heap s0 a)) = Ok o) as Hpol.
  { unfold vetted in Ho. rewrite Nat.eqb_refl in Ho. by apply result_bind_ok in Ho as (? & _ & ?). }
  apply policies_keep in Hpol as (P1 & P2 & P3 & P4 & P5 & P6). set (s1 := set_heap _ s0).
  assert (heap s1 a = o) as Hs1a by (subst s1; cbn [heap set_heap]; by rewrite upd_eq).
  assert (∀ y, y ≠ a → heap s1 y = heap s0 y) as Hs1y by (intros y Hy; subst s1; cbn [heap set_heap]; by rewrite !upd_ne).
  assert (bagged [] s1) as Hb.
  { split; [| | | |by intros ? ?%elem_of_nil|by rewrite Hs1a, P5|done|done].
    - intros x. destruct (decide (x = a)) as [->|Hx]; [by rewrite Hs1a|by rewrite Hs1y].
    - intros x. destruct (decide (x = a)) as [->|Hx]; [by rewrite Hs1a|by rewrite Hs1y].
    - intros x _. destruct (decide (x = a)) as [->|Hx]; [by rewrite Hs1a|by rewrite Hs1y].
    - intros x Hx. apply Hs1y. set_solver. }
  unfold bag_rest. apply wp_bind. unfold subdags_of, wp at 1. cbn [fst snd].
  rewrite (subdags_ext _ _ (heap s0)), Hsubs by apply Hb. apply wp_except, wp_bind.
  eapply wp_mono; [apply (children_wp subs [] s1 Hb eq_refl)|]. intros s [u|e]; cbn beta iota.
  - intros [Hb' Hall]. apply (register_wp subs); [left|done|done|apply Hb'| | |apply Hb'| |].
    + by apply Hb'.
    + intros y Hy. by apply Hb'.
    + intros Hc. split_and!.
      * intros x [->|Hx]%elem_of_cons; [by rewrite Ho|by apply Hall].
      * intros k. cbn [f_dags set_dags]. rewrite sget_sset, (bg_dags _ _ Hb'), entry_snoc; [done|].
        by apply NoDup_cons in Hids as [? _].
      * intros x Hx. by apply Hb'.
      * intros x Hx. by apply Hb'.
    + intros Hc. apply (handler_wp subs); [done|split; apply Hb'| |done]. exists a. split; [left|by right].
  - intros (P' & x & HP' & Hx & He & Hr). apply (handler_wp P'); [done|done| |done]. exists x. split; [by right|done].
Qed.
End BagFacts.

(** C28: putting a DAG of a file and its sub-DAGs into the bag is all or nothing
    for the root.  It succeeds only if the DAG and every sub-DAG have no cycle and
    pass the policies, and no id is used by another object from another file; then
    exactly their entries change, and each sub-DAG is linked to the root and its
    file.  If it raises, one of them was refused for that reason, the root is not
    added and no entry but those of the sub-DAGs changes; after a cycle or a
    duplicate below an accepted root, the ids of all its sub-DAGs are removed. *)
Theorem bag_dag_correct policies limit
  (policies_keep : ∀ o o', policies o = Ok o' →
    o_dag_id o' = o_dag_id o ∧ o_fileloc o' = o_fileloc o ∧ o_is_subdag o' = o_is_subdag o ∧ o_parent o' = o_parent o ∧
    o_last_loaded o' = o_last_loaded o ∧ o_children o' = o_children o)
  now a s subs (Hsubs : subdags limit (heap s) a = Ok subs)
  (Hids : NoDup ((λ x, o_dag_id (heap s x)) <$> a :: subs))
  (Hkeys : ∀ k x, sget k (f_dags s) = Some x → o_dag_id (heap s x) = k) :
  let s' := (bag_dag policies limit now a s).1 in
  match (bag_dag policies limit now a s).2 with
  | Ok _ =>
      (∀ x, x ∈ a :: subs → is_ok (vetted policies now a s x) = true ∧ ¬ conflict a s x) ∧
      (∀ k, sget k (f_dags s') = entry s (subs ++ [a]) k) ∧
      (∀ x, x ∈ subs → linked_subdag now a s (heap s' x)) ∧
      (∀ x, x ∉ a :: subs → heap s' x = heap s x)
  | Err e =>
      (∃ x, x ∈ a :: subs ∧ refused policies now a s x e) ∧
      (∀ k, k ∉ (λ x, o_dag_id (heap s x)) <$> subs → sget k (f_dags s') = sget k (f_dags s)) ∧
      (e ∈ [AirflowDagCycleException; AirflowDagDuplicatedIdException] → is_ok (vetted policies now a s a) = true →
       ∀ k, k ∈ (λ x, o_dag_id (heap s x)) <$> subs → sget k (f_dags s') = None)
  end.
Proof.
  pose proof (bag_dag_wp policies limit policies_keep now a s subs Hsubs Hids Hkeys) as Hwp. unfold wp in Hwp.
  destruct (bag_dag policies limit now a s) as [s' [u|e]]; exact Hwp.
Qed.

(** ** Samples *)

Module DagBagSample.
Import SerializationSample RoundTripSample.
Local Open Scope Z_scope.

(** Two versions of a DAG, written and looked up; the value of one attribute
    stands for the hash of their text. *)
Definition version (n : Z) : Dag Z :=
  {| dag_attrs := <["_max_active_tasks" := pint n]> (dag_attrs sample_dag); dag_tasks := dag_tasks sample_dag;
     dag_group := dag_group sample_dag; dag_has_on_success := false; dag_has_on_failure := true |}.

Definition fingerprint (e : list (string * json Z)) : string :=
  match sget "dag" e with
  | Some (JDict d) => match sget "_max_active_tasks" d with Some (JPrim (IntV 5)) => "five" | _ => "other" end
  | _ => ""
  end.

#[local] Instance sample_format : DagFormat (Dag Z) (SerializedDAG (F:=Z)) (list (string * json Z)) :=
  serialized_format settings no_str no_nested (λ _, true) (λ _, true) fingerprint.
#[local] Instance sample_format_laws : DagFormatLaws (Dag Z) (SerializedDAG (F:=Z)) (list (string * json Z)) (accepted settings no_str (λ _, true)) :=
  serialized_format_laws settings no_str no_nested (λ _, true) (λ _, true) fingerprint.

Definition secs (n : Z) : Z := n * 1000000.
Definition no_root (_ : string) : option (option string) := None.
Definition no_hash (_ : string) : Z := 0.

Definition before : list (Z * DbOp (Dag Z)) :=
  [(secs 1, Write (Some 30) (version 5)); (secs 2, Get no_root "d" (secs 3)); (secs 10, Write (Some 30) (version 7));
   (secs 40, Write (Some 30) (version 7))].
Definition after : list (Z * DbOp (Dag Z)) := [(secs 41, Get no_root "e" (secs 41)); (secs 42, Write (Some 30) (version 7))].
Abbreviation last_row := (row_of "d" (db_run no_hash 10 before ([], empty_bag)).1).

Lemma version_accepted n : In n [5; 7] → accepted settings no_str (λ _, true) (version n).
Proof. intros [<-|[<-|[]]]; (split; [apply dag_okb_sound|]); by vm_compute. Qed.

Lemma version_allowed t mi n : In n [5; 7] → op_allowed (accepted settings no_str (λ _, true)) "d" (t, Write mi (version n)).
Proof. intros Hn. split; [by apply version_accepted|]. by intros j d _ _ ?%elem_of_nil. Qed.

Lemma dag_bag_converges_witness :
  match last_row with
  | Some r => ∃ b d, get_dag_from_db 10 (secs 51) (secs 51) no_root "d" (db_run no_hash 10 (before ++ after) ([], empty_bag)).1
        (db_run no_hash 10 (before ++ after) ([], empty_bag)).2 = Ok (b, Some d) ∧ row_dag r = Ok d ∧
      sget "d" (dags_hash b) = Some (r_dag_hash r)
  | None => get_dag_from_db 10 (secs 51) (secs 51) no_root "d" (db_run no_hash 10 (before ++ after) ([], empty_bag)).1
        (db_run no_hash 10 (before ++ after) ([], empty_bag)).2 = Err SerializedDagNotFound ∨
      ∃ b, get_dag_from_db 10 (secs 51) (secs 51) no_root "d" (db_run no_hash 10 (before ++ after) ([], empty_bag)).1
        (db_run no_hash 10 (before ++ after) ([], empty_bag)).2 = Ok (b, None) ∧ sget "d" (dags b) = None
  end.
Proof.
  apply (dag_bag_converges no_hash (accepted settings no_str (λ _, true)) "d" 10 0 [] before after (secs 40) last_row (secs 51) (secs 51) no_root).
  - constructor.
  - by intros r ?%elem_of_nil.
  - repeat constructor.
  - repeat (apply Forall_cons; split); try exact I; try apply version_allowed; try (cbn; tauto). constructor.
  - intros n root i stamp x mi w Hg Hw _. unfold before, after in Hg, Hw. cbn [app] in Hg, Hw.
    repeat (apply elem_of_cons in Hg as [Hg|Hg]; [first [discriminate Hg|injection Hg as -> _ _ ->]|]); try (by apply elem_of_nil in Hg);
      repeat (apply elem_of_cons in Hw as [Hw|Hw]; [first [discriminate Hw|injection Hw as -> _ _]|]); try (by apply elem_of_nil in Hw);
      unfold secs; lia.
  - split; [done|]. repeat constructor; done.
  - intros [|[|[|k]]]; vm_compute; reflexivity.
  - left.
  - done.
Defined.

(** The first look-up still gives the first version, the last one the second. *)
Example sample_lookups :
  (λ d, getattr "_max_active_tasks" (sd_attrs d)) <$>
    (match get_dag_from_db 10 (secs 12) (secs 12) no_root "d" (db_run no_hash 10 before ([], empty_bag)).1
       (db_run no_hash 10 before ([], empty_bag)).2 with Ok (_, x) => x | Err _ => None end) = Some (pint 5) ∧
  (λ d, getattr "_max_active_tasks" (sd_attrs d)) <$>
    (match get_dag_from_db 10 (secs 51) (secs 51) no_root "d" (db_run no_hash 10 (before ++ after) ([], empty_bag)).1
       (db_run no_hash 10 (before ++ after) ([], empty_bag)).2 with Ok (_, x) => x | Err _ => None end) = Some (pint 7).
Proof. by vm_compute. Qed.

(** *** Where the cache stays behind

    DAGs as an id, a version and sub-DAGs, which are their own serialized form. *)
Inductive ToyDag := Toy (id : string) (n : Z) (subs : list string).
#[local] Instance toy_format : DagFormat ToyDag ToyDag ToyDag := {|
  w_dag_id '(Toy id _ _) := id;
  w_fileloc _ := "dags.py";
  w_is_subdag _ := false;
  d_dag_id '(Toy id _ _) := id;
  d_subdags '(Toy _ n subs) := (λ s, Toy s n []) <$> subs;
  fmt_to_dict := Ok;
  fmt_from_dict := Ok;
  md5 '(Toy _ n _) := if n =? 1 then "one" else "two";
|}.

Definition toy (n : Z) : ToyDag := Toy "d" n ["d.sub"].
Definition table_of (updated n : Z) : list (SerializedRow ToyDag) :=
  match write_dag no_hash updated None (toy n) [] with Ok (t, _) => t | Err _ => [] end.
Definition bag_of (r : result (Bag ToyDag)) : Bag ToyDag := match r with Ok b => b | Err _ => empty_bag end.

(** A row that is written between the reading of the old one and the time that
    is stored for it is never fetched. *)
Example update_lost now stamp :
  let s := db_run no_hash 10 [(5, Write None (toy 1)); (10, Get no_root "d" 12); (11, Write None (toy 2))] ([], empty_bag) in
  (r_dag_hash <$> row_of "d" s.1) = Some "two" ∧ get_dag_from_db 10 now stamp no_root "d" s.1 s.2 = Ok (s.2, Some (toy 1)).
Proof. cbv -[Z.ltb]. split; [done|]. by destruct (Z.ltb 10000012 now). Qed.

(** A sub-DAG that was looked up is never refreshed. *)
Definition sub_root (id : string) : option (option string) := if id ≟ "d.sub" then Some (Some "d") else None.
Example subdag_stale now :
  let b := bag_of (_add_dag_from_db 12 sub_root "d.sub" (table_of 5 1) empty_bag) in
  get_dag_from_db 10 now now sub_root "d.sub" (table_of 100 2) b = Ok (b, Some (Toy "d.sub" 1 [])).
Proof. by vm_compute. Qed.

(** Neither is a DAG that came with all others. *)
Example collected_stale now :
  let b := bag_of (collect_dags_from_db (table_of 5 1) empty_bag) in
  get_dag_from_db 10 now now no_root "d" (table_of 100 2) b = Ok (b, Some (toy 1)).
Proof. by vm_compute. Qed.

(** A deleted DAG is None once, and an exception from then on. *)
Example deleted_twice :
  let b := bag_of (_add_dag_from_db 12 no_root "d" (table_of 5 1) empty_bag) in
  match get_dag_from_db 10 (secs 20) (secs 20) no_root "d" [] b with
  | Ok (b, None) => get_dag_from_db 10 (secs 21) (secs 21) no_root "d" [] b = Err SerializedDagNotFound
  | _ => False
  end.
Proof. by vm_compute. Qed.

(** *** Bagging *)

Definition dag_obj (id fileloc : string) (children : list Addr) : DagObj :=
  {| o_dag := Sample.mk_dag id []; o_fileloc := fileloc; o_is_subdag := false; o_parent := None; o_last_loaded := 0;
     o_children := children; o_timetable_valid := true |}.

(** Objects 0 and 1 are of one file, 2 and 3 of another one with the same ids; 5 is
    a third DAG with sub-DAGs 6 and 7. *)
Definition sample_heap : Heap := λ x,
  match x with
  | 0%nat => dag_obj "a" "one.py" [1%nat]
  | 1%nat => dag_obj "a.s" "one.py" []
  | 2%nat => dag_obj "a" "two.py" [3%nat]
  | 3%nat => dag_obj "a.s" "two.py" []
  | 5%nat => dag_obj "b" "one.py" [6%nat; 7%nat]
  | 6%nat => dag_obj "b.s" "" []
  | 7%nat => dag_obj "b.t" "" []
  | _ => dag_obj "other" "" []
  end.
Definition empty_files : FileBag := {| heap := sample_heap; f_dags := []; file_last_changed := []; import_errors := [] |}.

Definition first_bag : FileBag := (bag_dag Ok 5 100 0%nat empty_files).1.

Example first_bag_dags : f_dags first_bag = [("a.s", 1%nat); ("a", 0%nat)].
Proof. by vm_compute. Qed.

Lemma bag_dag_correct_witness :
  let s' := (bag_dag Ok 5 101 5%nat first_bag).1 in
  (∀ x, x ∈ [5; 6; 7]%nat → is_ok (vetted Ok 101 5%nat first_bag x) = true ∧ ¬ conflict 5%nat first_bag x) ∧
  (∀ k, sget k (f_dags s') = entry first_bag [6; 7; 5]%nat k) ∧
  (∀ x, x ∈ [6; 7]%nat → linked_subdag 101 5%nat first_bag (heap s' x)) ∧
  (∀ x, x ∉ [5; 6; 7]%nat → heap s' x = heap first_bag x).
Proof.
  refine (bag_dag_correct Ok 5 _ 101 5%nat first_bag [6; 7]%nat eq_refl _ _).
  - by intros o o' [= ->].
  - apply (bool_decide_unpack _). by vm_compute.
  - intros k x Hk%sget_elem. vm_compute in Hk. repeat (apply elem_of_cons in Hk as [[= -> ->]|Hk]; [done|]). by apply elem_of_nil in Hk.
Defined.

(** The duplicate in the second file is refused, and takes the sub-DAG of the
    first file with it. *)
Example duplicate_removes_other_subdag :
  (f_dags (bag_dag Ok 5 101 2%nat first_bag).1, (bag_dag Ok 5 101 2%nat first_bag).2) =
  ([("a", 0%nat)], Err AirflowDagDuplicatedIdException).
Proof. by vm_compute. Qed.

(** A policy that refuses the second sub-DAG leaves the first one in the bag
    without its root. *)
Definition refuse_t (o : DagObj) : result DagObj :=
  if o_dag_id o ≟ "b.t" then Err AirflowClusterPolicyViolation else Ok o.
Example violation_leaves_subdag :
  (f_dags (bag_dag refuse_t 5 101 5%nat empty_files).1, (bag_dag refuse_t 5 101 5%nat empty_files).2) =
  ([("b.s", 6%nat)], Err AirflowClusterPolicyViolation).
Proof. by vm_compute. Qed.

(** A sub-DAG that is also a variable of the module is a sub-DAG or not depending
    on the order of the variables. *)
Definition is_subdag_after (order : list Addr) : bool :=
  o_is_subdag (heap (_process_modules Ok 5 100 [{| mod_file := "one.py"; mod_dags := order |}] 0 empty_files).1 1%nat).
Example module_level_subdag : is_subdag_after [1; 0]%nat = true ∧ is_subdag_after [0; 1]%nat = false.
Proof. by vm_compute. Qed.

(** A row without a file raises. *)
Example null_fileloc :
  (get_dag_from_files Ok 5 (λ _, None) (λ _, false) (λ _, []) (λ _ _, true) (λ _ _ h, (h, inr "")) 100
     (λ _, Some {| orm_fileloc := None; last_expired := None |}) "a" empty_files).2 = Err TypeError.
Proof. by vm_compute. Qed.

Example zip_path : correct_maybe_zipped (λ f, f ≟ "/dags/x.zip") "/dags/x.zip/a.py" = "/dags/x.zip".
Proof. by vm_compute. Qed.
End DagBagSample.
