(* ===== verification/DagSync.v ===== *)
(** * DagSync: writing the DAGs of a bag to the database

    [DAG.bulk_write_to_db] and the operations of [DagModel] ([models/dag.py]), and
    [DagBag.sync_to_db] ([models/dagbag.py]): what the process that parses a file
    leaves in the table of DAGs, from which the scheduler creates runs
    ([SchedulerCreate]). *)

From S2P Require Import Prelude State Model Sample Graph Timetable DagRunQuery TaskInstance PoolSlots TiDeps DagRun SchedulerCreate Dict DagRoundTrip DagTable DagBag.
From stdpp Require Import strings.
Import Model Graph DagTable DagBag SchedulerCreate.

Module DagSync.
Local Open Scope Z_scope.

(** The attributes of a DAG that are stored besides those of [DAG]; [a_owner] is
    the property [owner]. *)
Record SyncAttrs := {
  a_owner : string;
  a_default_view : option string;
  a_description : option string;
  a_tags : list string;
  a_is_paused_upon_creation : option bool;
}.

(** A row of the table of DAGs with its tags: the columns that the scheduler reads,
    and the others. *)
Record DagRow := {
  model : DagModel;
  root_dag_id : option string;
  row_is_subdag : bool;
  last_parsed_time : option Z;
  row_last_expired : option Z;
  owners : option string;
  default_view : option string;
  description : option string;
  row_schedule_interval : option ScheduleInterval;
  row_tags : list string;
}.

Definition row_id (r : DagRow) : string := dm_dag_id (model r).

(** The settings [dags_are_paused_at_creation], [max_active_tasks_per_dag],
    [STORE_DAG_CODE]. *)
Record SyncConf := {
  is_paused_at_creation : bool;
  max_active_tasks_per_dag : Z;
  STORE_DAG_CODE : bool;
}.

Record SyncState := {
  dag_rows : list DagRow;
  code_rows : list DagCode;
}.

Definition find_row (id : string) (rows : list DagRow) : option DagRow := List.find (λ r, row_id r ≟ id) rows.

Section Sync.
Context (cron_schedule : string → Timetable.Schedule) (conf : SyncConf)
        (fileloc_hash : string → Z) (getmtime : string → result Z) (read_file : string → result string)
        (recursion_limit : nat) (h : Heap) (attrs : Addr → SyncAttrs) (runs : list DagRun) (now : Z).
Implicit Types (rows : list DagRow) (a : Addr).

Abbreviation oid a := (o_dag_id (h a)).

(** [DagModel(dag_id=...)] with the defaults of its columns. *)
Definition new_dag_row (id : string) (is_paused_upon_creation : option bool) : DagRow :=
  {| model := {| dm_dag_id := id; is_paused := default (is_paused_at_creation conf) is_paused_upon_creation;
                 is_active := false; dm_max_active_tasks := max_active_tasks_per_dag conf;
                 has_task_concurrency_limits := true; dm_fileloc := ""; next_dagrun := None; next_dagrun_create_after := None |};
     root_dag_id := None; row_is_subdag := false; last_parsed_time := None; row_last_expired := None; owners := None;
     default_view := None; description := None; row_schedule_interval := None; row_tags := [] |}.

(** The latest automated run and the number of running ones. *)
Definition most_recent_dag_run (id : string) : option datetime :=
  foldl (λ m r, Some (match m with Some m => Z.max m (DR.execution_date r) | None => DR.execution_date r end)) None
    (List.filter (λ r, (DR.dag_id r ≟ id) && (DR.run_type r ∈? [BACKFILL_JOB; DRT_SCHEDULED])) runs).
Definition num_active_runs (id : string) : Z :=
  countb (λ r, (DR.dag_id r ≟ id) && (DR._state r ≟ DR_RUNNING) && negb (DR.external_trigger r)) runs.

(** The loop body of [bulk_write_to_db] for one row; the two queries were only for
    the rows that existed. *)
Definition sync_row (existing : bool) a (row : DagRow) : result DagRow :=
  let dag := h a in
  '(is_sub, fileloc, root, owner) ←
    (if o_is_subdag dag then
       match o_parent dag with
       | Some p => Ok (true, o_fileloc (h p), Some (oid p), a_owner (attrs p))
       | None => Err AttributeError
       end
     else Ok (false, o_fileloc dag, root_dag_id row, a_owner (attrs a)));
  let m := {| dm_dag_id := row_id row; is_paused := is_paused (model row); is_active := true;
              dm_max_active_tasks := max_active_tasks (o_dag dag);
              has_task_concurrency_limits :=
                existsb (λ t, match task_concurrency t with Some _ => true | None => false end) (task_dict (o_dag dag));
              dm_fileloc := fileloc; next_dagrun := next_dagrun (model row);
              next_dagrun_create_after := next_dagrun_create_after (model row) |} in
  m ← (if is_sub : bool then Ok (set_next None None m)
       else calculate_dagrun_date_fields cron_schedule now (o_dag dag)
              (if existing then most_recent_dag_run (oid a) else None)
              (if existing then num_active_runs (oid a) else 0) m);
  Ok {| model := m; root_dag_id := root; row_is_subdag := is_sub; last_parsed_time := Some now;
        row_last_expired := row_last_expired row; owners := Some owner; default_view := a_default_view (attrs a);
        description := a_description (attrs a); row_schedule_interval := schedule_interval (o_dag dag);
        row_tags := a_tags (attrs a) |}.

Definition put_row (r : DagRow) rows : list DagRow := (λ r', if row_id r' ≟ row_id r then r else r') <$> rows.

Definition by_dag_id (r1 r2 : DagRow) : bool := String.leb (row_id r1) (row_id r2).

(** One call of [bulk_write_to_db] without the calls for sub-DAGs.  Two equal tags
    violate the primary key of their table when the session is flushed. *)
Definition write_level (dags : list Addr) (st : SyncState) : result SyncState :=
  let dag_by_ids := dict_of ((λ a, (oid a, a)) <$> dags) in
  let existing := List.filter (λ r, sin (row_id r) dag_by_ids) (dag_rows st) in
  let existing_dag_ids := row_id <$> existing in
  let missing := List.filter (λ e, negb (e.1 ∈? existing_dag_ids)) dag_by_ids in
  let new_rows := (λ e, new_dag_row e.1 (a_is_paused_upon_creation (attrs e.2))) <$> missing in
  let orm_dags := py_sorted by_dag_id (existing ++ new_rows) in
  rows ← foldM (λ rows orm_dag,
           match sget (row_id orm_dag) dag_by_ids with
           | None => Err KeyError
           | Some a => row ← sync_row (row_id orm_dag ∈? existing_dag_ids) a orm_dag; Ok (put_row row rows)
           end) orm_dags (dag_rows st ++ new_rows);
  let filelocs := omap (λ orm_dag, (λ a, o_fileloc (h a)) <$> sget (row_id orm_dag) dag_by_ids) orm_dags in
  code ← (if STORE_DAG_CODE conf
          then bulk_sync_code fileloc_hash getmtime read_file true now (remove_dups filelocs) (code_rows st)
          else Ok (code_rows st));
  if forallb (λ e, bool_decide (NoDup (a_tags (attrs e.2)))) dag_by_ids
  then Ok {| dag_rows := rows; code_rows := code |} else Err DBAPIError.

Fixpoint bulk_write_to_db (recursion : nat) (dags : list Addr) (st : SyncState) : result SyncState :=
  match dags with
  | [] => Ok st
  | _ =>
      match recursion with
      | O => Err RuntimeError
      | S n =>
          st ← write_level dags st;
          foldM (λ st dag, subs ← subdags recursion_limit h dag; bulk_write_to_db n subs st) dags st
      end
  end.

(** [DAG.sync_to_db]. *)
Definition dag_sync_to_db a (st : SyncState) : result SyncState := bulk_write_to_db recursion_limit [a] st.

(** *** [DagBag.sync_to_db] *)

Context {W D J : Type} `{DagFormat W D J} (as_written : Addr → W) (MIN_SERIALIZED_DAG_UPDATE_INTERVAL : Z).

Definition _serialize_dag_capturing_errors a (t : list (SerializedRow J)) : list (SerializedRow J) * list (string * ImportError) :=
  if o_is_subdag (h a) then (t, [])
  else
    match write_dag fileloc_hash now (Some MIN_SERIALIZED_DAG_UPDATE_INTERVAL) (as_written a) t with
    | Ok (t, _) => (t, [])
    | Err e => (t, [(o_fileloc (h a), Raised e)])
    end.

(** Another attempt is made after an error of the connection to the database,
    which rolls the attempt back; [failures] is how many there are. *)
Definition sync_to_db (MAX_DB_RETRIES failures : nat) (bag : list (string * Addr)) (errors : list (string * ImportError))
    (t : list (SerializedRow J)) (st : SyncState) : result (list (string * ImportError) * list (SerializedRow J) * SyncState) :=
  if (MAX_DB_RETRIES <=? failures)%nat then Err DBAPIError
  else
    let '(t, serialize_errors) :=
      foldl (λ '(t, errs) a, let '(t, new) := _serialize_dag_capturing_errors a t in (t, errs ++ new)) (t, []) bag.*2 in
    st ← bulk_write_to_db recursion_limit bag.*2 st;
    Ok (ssets (dict_of serialize_errors) errors, t, st).
End Sync.

(** ** Operations of [DagModel] *)

Definition set_active (v : bool) (r : DagRow) : DagRow :=
  let m := model r in
  {| model := {| dm_dag_id := dm_dag_id m; is_paused := is_paused m; is_active := v; dm_max_active_tasks := dm_max_active_tasks m;
                 has_task_concurrency_limits := has_task_concurrency_limits m; dm_fileloc := dm_fileloc m;
                 next_dagrun := next_dagrun m; next_dagrun_create_after := next_dagrun_create_after m |};
     root_dag_id := root_dag_id r; row_is_subdag := row_is_subdag r; last_parsed_time := last_parsed_time r;
     row_last_expired := row_last_expired r; owners := owners r; default_view := default_view r; description := description r;
     row_schedule_interval := row_schedule_interval r; row_tags := row_tags r |}.
Definition set_paused (v : bool) (r : DagRow) : DagRow :=
  let m := model r in
  {| model := {| dm_dag_id := dm_dag_id m; is_paused := v; is_active := is_active m; dm_max_active_tasks := dm_max_active_tasks m;
                 has_task_concurrency_limits := has_task_concurrency_limits m; dm_fileloc := dm_fileloc m;
                 next_dagrun := next_dagrun m; next_dagrun_create_after := next_dagrun_create_after m |};
     root_dag_id := root_dag_id r; row_is_subdag := row_is_subdag r; last_parsed_time := last_parsed_time r;
     row_last_expired := row_last_expired r; owners := owners r; default_view := default_view r; description := description r;
     row_schedule_interval := row_schedule_interval r; row_tags := row_tags r |}.

Definition deactivate_unknown_dags (active_dag_ids : list string) (rows : list DagRow) : list DagRow :=
  if is_nil active_dag_ids then rows
  else update_where (λ r, negb (row_id r ∈? active_dag_ids)) (set_active false) rows.

Definition deactivate_stale_dags (expiration_date : Z) (rows : list DagRow) : list DagRow :=
  update_where (λ r, match last_parsed_time r with Some p => p <? expiration_date | None => false end && is_active (model r))
    (set_active false) rows.

Definition set_is_paused (dag_id : string) (paused including_subdags : bool) (rows : list DagRow) : list DagRow :=
  update_where (λ r, (row_id r ≟ dag_id) || (including_subdags && (root_dag_id r ≟ Some dag_id))) (set_paused paused) rows.

Definition get_paused_dag_ids (dag_ids : list string) (rows : list DagRow) : list string :=
  row_id <$> List.filter (λ r, is_paused (model r) && (row_id r ∈? dag_ids)) rows.

Definition get_current (dag_id : string) (rows : list DagRow) : option DagRow := find_row dag_id rows.
End DagSync.

Import DagSync.

(** ** Writing DAGs *)

Lemma forallb_false {A} (f : A → bool) l : forallb f l = false → ∃ x, x ∈ l ∧ f x = false.
Proof.
  induction l as [|x l IH]; cbn; [done|]. destruct (f x) eqn:E; cbn; [|intros _; exists x; split; [left|done]].
  intros (y & ? & ?)%IH. exists y. split; [by right|done].
Qed.

Section SyncFacts.
Local Open Scope Z_scope.
Context (cron_schedule : string → Timetable.Schedule) (conf : SyncConf)
        (fileloc_hash : string → Z) (getmtime : string → result Z) (read_file : string → result string)
        (recursion_limit : nat) (h : Heap) (attrs : Addr → SyncAttrs) (runs : list DagRun) (now : Z).
Implicit Types (rows : list DagRow) (a : Addr) (r : DagRow).

Abbreviation oid a := (o_dag_id (h a)).
Abbreviation sync := (sync_row cron_schedule h attrs runs now).
Abbreviation write := (write_level cron_schedule conf fileloc_hash getmtime read_file h attrs runs now).
Abbreviation bulk_write := (bulk_write_to_db cron_schedule conf fileloc_hash getmtime read_file recursion_limit h attrs runs now).

Definition rows_unique rows : Prop := NoDup (row_id <$> rows).

(** The row that a DAG gets over the rows of the table. *)
Definition synced rows a : result DagRow :=
  sync (oid a ∈? (row_id <$> rows)) a
    (default (new_dag_row conf (oid a) (a_is_paused_upon_creation (attrs a))) (find_row (oid a) rows)).

Lemma sync_id ex a r r' : sync ex a r = Ok r' → row_id r' = row_id r.
Proof.
  unfold sync_row, calculate_dagrun_date_fields. intros ([[[is_sub f] root] o] & _ & (m & Hm & [= <-])%result_bind_ok)%result_bind_ok.
  unfold row_id at 1. cbn [model]. destruct is_sub.
  - by injection Hm as <-.
  - apply result_bind_ok in Hm as ([n c] & _ & [= <-]). done.
Qed.

(** The loop over the rows. *)
Lemma put_loop (f : DagRow → result DagRow) L rows : NoDup (row_id <$> L) →
  (∀ r r', r ∈ L → f r = Ok r' → row_id r' = row_id r) → (∀ r, r ∈ L → row_id r ∈ row_id <$> rows) →
  outcome (λ rows', row_id <$> rows' = row_id <$> rows ∧
      (∀ r, r ∈ L → ∃ r', f r = Ok r' ∧ find_row (row_id r) rows' = Some r') ∧
      (∀ id, id ∉ row_id <$> L → find_row id rows' = find_row id rows))
    (λ e, ∃ r, r ∈ L ∧ f r = Err e)
    (foldM (λ rows r, row ← f r; Ok (put_row row rows)) L rows).
Proof.
  revert rows. induction L as [|r L IH]; intros rows Hnd Hid Hin; cbn [foldM].
  { split_and!; [done| |done]. by intros r ?%elem_of_nil. }
  apply NoDup_cons in Hnd as [Hr Hnd]. destruct (f r) as [r1|e] eqn:Ef; cbn [mbind result_bind]; [|exists r; split; [left|done]].
  specialize (Hid r r1 ltac:(left) Ef) as Hr1.
  assert (row_id <$> put_row r1 rows = row_id <$> rows) as Hkeys by apply kput_keys.
  specialize (IH (put_row r1 rows) Hnd). destruct (foldM _ L (put_row r1 rows)) as [rows'|e]; cbn [outcome] in *.
  - destruct IH as (Hk & Hall & Hold); [set_solver|intros r' Hr'; rewrite Hkeys; set_solver|]. split_and!; [congruence| |].
    + intros r' [->|Hr']%elem_of_cons; [|auto]. exists r1. split; [done|]. rewrite Hold by done.
      trans (kfind row_id (row_id r) (kput row_id r1 rows)); [done|]. rewrite kfind_kput, Hr1, bool_decide_eq_true_2 by done.
      destruct (kfind_key row_id (row_id r) rows) as (x & -> & _); [apply Hin; left|done].
    + intros id Hidn. rewrite fmap_cons in Hidn. apply not_elem_of_cons in Hidn as [Hne Hnl]. rewrite Hold by done.
      trans (kfind row_id id (kput row_id r1 rows)); [done|]. rewrite kfind_kput, bool_decide_eq_false_2; [done|congruence].
  - destruct IH as (r' & Hr' & He); [set_solver|intros r' Hr'; rewrite Hkeys; set_solver|]. exists r'. split; [by right|done].
Qed.
(** Different objects have different ids. *)
Definition distinct_ids (dags : list Addr) : Prop := ∀ a b, a ∈ dags → b ∈ dags → oid a = oid b → a = b.

Abbreviation by_ids dags := (dict_of ((λ a, (oid a, a)) <$> dags)).

Lemma by_ids_get dags k a : distinct_ids dags → sget k (by_ids dags) = Some a ↔ a ∈ dags ∧ oid a = k.
Proof.
  intros Hd. change (by_ids dags) with (ssets ((λ a, (oid a, a)) <$> dags) []). split.
  - intros [Hin|[_ Hg]]%ssets_inv; [|done]. by apply list_elem_of_fmap in Hin as (b & [= -> ->] & Hb).
  - intros [Ha <-]. apply ssets_new; [apply list_elem_of_fmap; by exists a|].
    intros b (b' & [= E ->] & Hb)%list_elem_of_fmap. symmetry. by apply Hd.
Qed.

Lemma by_ids_in dags k : distinct_ids dags → sin k (by_ids dags) = true ↔ k ∈ ((λ a, oid a) <$> dags).
Proof.
  intros Hd. rewrite sin_sget, bool_decide_eq_true, list_elem_of_fmap. split.
  - intros [a [Ha Hk]%by_ids_get]; [by exists a|done].
  - intros (a & -> & Ha). exists a. by apply by_ids_get.
Qed.

Lemma by_ids_elem dags e : distinct_ids dags → e ∈ by_ids dags → e.2 ∈ dags ∧ e.1 = oid e.2.
Proof.
  intros Hd He. destruct e as [k a]. assert (sget k (by_ids dags) = Some a) as [? <-]%by_ids_get; [|done..].
  apply sget_NoDup; [|done]. apply (ssets_NoDup _ []). constructor.
Qed.

(** The reasons for which a call fails. *)
Definition level_error (dags : list Addr) (st : SyncState) (e : exn) : Prop :=
  (∃ a, a ∈ dags ∧ synced (dag_rows st) a = Err e) ∨
  (e = DBAPIError ∧ ∃ a, a ∈ dags ∧ ¬ NoDup (a_tags (attrs a))) ∨
  (STORE_DAG_CODE conf = true ∧ ∃ files, bulk_sync_code fileloc_hash getmtime read_file true now files (code_rows st) = Err e).

(** The rows that are written: those that exist, and one for each DAG without. *)
Definition new_rows_for (dags : list Addr) rows : list DagRow :=
  (λ e, new_dag_row conf e.1 (a_is_paused_upon_creation (attrs e.2))) <$>
    List.filter (λ e, negb (e.1 ∈? (row_id <$> List.filter (λ r, sin (row_id r) (by_ids dags)) rows))) (by_ids dags).

Lemma new_rows_spec dags rows r : distinct_ids dags →
  r ∈ new_rows_for dags rows ↔ ∃ a, a ∈ dags ∧ (oid a ∉ row_id <$> rows) ∧ r = new_dag_row conf (oid a) (a_is_paused_upon_creation (attrs a)).
Proof.
  intros Hd. unfold new_rows_for. rewrite list_elem_of_fmap. split.
  - intros ([k a] & -> & [Hn Hin]%elem_of_filterb). apply by_ids_elem in Hin as [Ha Hk]; [|done]. cbn in Ha, Hk. subst k.
    exists a. split_and!; [done| |done]. intros (r & Hr & Hrr)%list_elem_of_fmap. apply negb_true_iff, bool_decide_eq_false in Hn.
    apply Hn, list_elem_of_fmap. exists r. split; [done|]. apply elem_of_filterb. split; [|done].
    apply by_ids_in; [done|]. rewrite <-Hr. apply list_elem_of_fmap. by exists a.
  - intros (a & Ha & Hn & ->). exists (oid a, a). split; [done|]. apply elem_of_filterb. split.
    + apply negb_true_iff, bool_decide_eq_false. cbn [fst]. intros (r & Hr & [_ Hrr]%elem_of_filterb)%list_elem_of_fmap.
      apply Hn, list_elem_of_fmap. by exists r.
    + apply sget_elem, by_ids_get; done.
Qed.

Lemma new_rows_unique dags rows : rows_unique rows → distinct_ids dags → rows_unique (rows ++ new_rows_for dags rows).
Proof.
  intros Hu Hd. unfold rows_unique. rewrite fmap_app. apply NoDup_app. split_and!; [done| |].
  - intros id Hid (r & -> & Hr)%list_elem_of_fmap. apply new_rows_spec in Hr as (a & _ & Hn & ->); [|done]. by apply Hn.
  - unfold new_rows_for. rewrite <-list_fmap_compose. apply (NoDup_fmap_filterb fst). apply (ssets_NoDup _ []). constructor.
Qed.

(** The rows that the loop visits are those of the DAGs. *)
Lemma visited dags rows r : rows_unique rows → distinct_ids dags →
  r ∈ List.filter (λ r, sin (row_id r) (by_ids dags)) rows ++ new_rows_for dags rows ↔
  ∃ a, a ∈ dags ∧ row_id r = oid a ∧ default (new_dag_row conf (oid a) (a_is_paused_upon_creation (attrs a))) (find_row (oid a) rows) = r.
Proof.
  intros Hu Hd. rewrite elem_of_app, elem_of_filterb, new_rows_spec by done. split.
  - intros [[(a & Hra & Ha)%by_ids_in%list_elem_of_fmap Hr]|(a & Ha & Hn & ->)]; [|done|].
    + exists a. split_and!; [done..|]. assert (find_row (oid a) rows = Some r) as ->; [|done]. by apply (kfind_elem row_id).
    + exists a. split_and!; [done..|]. assert (find_row (oid a) rows = None) as ->; [|done]. by apply (kfind_None row_id).
  - intros (a & Ha & Hra & Hdef). destruct (find_row (oid a) rows) as [r0|] eqn:E; simpl in Hdef; subst r.
    + apply (kfind_Some row_id) in E as [Hr _]. left. split; [|done]. apply by_ids_in; [done|].
      rewrite Hra. apply list_elem_of_fmap. by exists a.
    + right. exists a. split_and!; [done| |done]. by apply (kfind_None row_id).
Qed.

(** The loop in terms of the DAGs. *)
Lemma loop_result dags st f L new : rows_unique (dag_rows st) → distinct_ids dags → rows_unique (dag_rows st ++ new) →
  (∀ r, r ∈ L → r ∈ dag_rows st ++ new) → (∀ r, r ∈ new → row_id r ∈ (λ a, oid a) <$> dags) → NoDup (row_id <$> L) →
  (∀ r r', r ∈ L → f r = Ok r' → row_id r' = row_id r) →
  (∀ a, a ∈ dags → ∃ r, r ∈ L ∧ row_id r = oid a ∧ f r = synced (dag_rows st) a) →
  (∀ r, r ∈ L → ∃ a, a ∈ dags ∧ row_id r = oid a) →
  outcome (λ rows', rows_unique rows' ∧
      (∀ a, a ∈ dags → ∃ r, synced (dag_rows st) a = Ok r ∧ find_row (oid a) rows' = Some r) ∧
      (∀ id, id ∉ (λ a, oid a) <$> dags → find_row id rows' = find_row id (dag_rows st)))
    (λ e, ∃ a, a ∈ dags ∧ synced (dag_rows st) a = Err e)
    (foldM (λ rows r, row ← f r; Ok (put_row row rows)) L (dag_rows st ++ new)).
Proof.
  intros Hu Hd Hnu Hsub Hnew HL Hid Hf HLd. pose proof (put_loop f L (dag_rows st ++ new) HL Hid) as Hloop.
  destruct (foldM _ L _) as [rows'|e]; cbn [outcome] in *.
  - destruct Hloop as (Hk & Hall & Hold); [intros r Hr%Hsub; apply list_elem_of_fmap; by exists r|]. split_and!.
    + unfold rows_unique. by rewrite Hk.
    + intros a Ha. destruct (Hf a Ha) as (r & Hr & Hra & Hfr). destruct (Hall r Hr) as (r' & Hr' & Hfind).
      exists r'. split; congruence.
    + intros id Hn. rewrite Hold.
      * trans (kfind row_id id (dag_rows st ++ new)); [done|]. rewrite kfind_app.
        change (find_row id (dag_rows st)) with (kfind row_id id (dag_rows st)). destruct (kfind _ _ (dag_rows st)); [done|].
        apply (kfind_None row_id). by intros (r & -> & Hr%Hnew)%list_elem_of_fmap.
      * intros (r & -> & (a & Ha & Hra)%HLd)%list_elem_of_fmap. apply Hn. rewrite Hra. apply list_elem_of_fmap. by exists a.
  - destruct Hloop as (r & Hr & He); [intros r Hr%Hsub; apply list_elem_of_fmap; by exists r|].
    destruct (HLd r Hr) as (a & Ha & Hra). destruct (Hf a Ha) as (r2 & Hr2 & Hra2 & Hf2). exists a. split; [done|].
    rewrite <-Hf2. rewrite <-He. f_equal. eapply NoDup_fmap_elem; [exact HL|done..|congruence].
Qed.

Lemma write_level_spec dags st : rows_unique (dag_rows st) → distinct_ids dags →
  outcome (λ st', rows_unique (dag_rows st') ∧
      (∀ a, a ∈ dags → ∃ r, synced (dag_rows st) a = Ok r ∧ find_row (oid a) (dag_rows st') = Some r) ∧
      (∀ id, id ∉ (λ a, oid a) <$> dags → find_row id (dag_rows st') = find_row id (dag_rows st)))
    (level_error dags st) (write dags st).
Proof.
  intros Hu Hd. unfold write_level. set (existing := List.filter _ (dag_rows st)). 
  set (new := fmap (λ e : string * Addr, new_dag_row _ _ _) (List.filter _ (by_ids dags))). set (L := py_sorted by_dag_id (existing ++ new)).
  assert (∀ r, r ∈ L ↔ ∃ a, a ∈ dags ∧ row_id r = oid a ∧
    default (new_dag_row conf (oid a) (a_is_paused_upon_creation (attrs a))) (find_row (oid a) (dag_rows st)) = r) as HL.
  { intros r. unfold L. rewrite elem_of_py_sorted. by apply visited. }
  pose proof (new_rows_unique dags (dag_rows st) Hu Hd : rows_unique (dag_rows st ++ new)) as Hnu.
  assert (∀ r, r ∈ L → r ∈ dag_rows st ++ new) as Hsub.
  { intros r. unfold L. rewrite elem_of_py_sorted, !elem_of_app. intros [[_ ?]%elem_of_filterb|?]; auto. }
  set (f := λ r, match sget (row_id r) (by_ids dags) with None => Err KeyError
                 | Some a => sync (row_id r ∈? (row_id <$> existing)) a r end).
  assert (∀ a, a ∈ dags → ∃ r, r ∈ L ∧ row_id r = oid a ∧ f r = synced (dag_rows st) a) as Hf.
  { intros a Ha. set (r := default (new_dag_row conf (oid a) (a_is_paused_upon_creation (attrs a))) (find_row (oid a) (dag_rows st))).
    assert (row_id r = oid a) as Hra.
    { subst r. destruct (find_row (oid a) (dag_rows st)) as [r0|] eqn:E; [by apply (kfind_Some row_id) in E as [_ ?]|done]. }
    exists r. split_and!; [apply HL; by exists a|done|].
    unfold f. rewrite Hra, (proj2 (by_ids_get dags (oid a) a Hd) (conj Ha eq_refl)). unfold synced. fold r. f_equal.
    apply bool_decide_ext. unfold existing. rewrite !list_elem_of_fmap. setoid_rewrite elem_of_filterb. split; [naive_solver|].
    intros (r' & E & Hr). exists r'. split_and!; [done| |done]. apply by_ids_in; [done|]. rewrite <-E. apply list_elem_of_fmap. by exists a. }
  rewrite (foldM_ext _ (λ rows r, row ← f r; Ok (put_row row rows))).
  2: { intros rows r _. unfold f. by destruct (sget (row_id r) (by_ids dags)). }
  assert (outcome (λ rows', rows_unique rows' ∧
      (∀ a, a ∈ dags → ∃ r, synced (dag_rows st) a = Ok r ∧ find_row (oid a) rows' = Some r) ∧
      (∀ id, id ∉ (λ a, oid a) <$> dags → find_row id rows' = find_row id (dag_rows st)))
    (λ e, ∃ a, a ∈ dags ∧ synced (dag_rows st) a = Err e)
    (foldM (λ rows r, row ← f r; Ok (put_row row rows)) L (dag_rows st ++ new))) as Hloop.
  { apply (loop_result dags st f L new); [done|done|done|done| | | |done|].
    - intros r Hr. apply (new_rows_spec dags (dag_rows st) r Hd) in Hr as (a & Ha & _ & ->). apply list_elem_of_fmap. by exists a.
    - unfold L. rewrite py_sorted_Permutation, fmap_app. unfold rows_unique in Hnu. rewrite fmap_app in Hnu.
      apply NoDup_app in Hnu as (_ & Hdis & Hnn). apply NoDup_app. split_and!; [by apply NoDup_fmap_filterb| |done].
      intros x (r & -> & [_ Hr]%elem_of_filterb)%list_elem_of_fmap. apply Hdis, list_elem_of_fmap. by exists r.
    - intros r r' Hr. unfold f. destruct (sget _ _); [|done]. apply sync_id.
    - intros r Hr%HL. destruct Hr as (a & Ha & Hra & _). by exists a. }
  unfold level_error. destruct (foldM _ L _) as [rows'|e]; cbn [mbind result_bind outcome] in *; [|cbv beta; by left].
  destruct (if STORE_DAG_CODE conf then _ else _) as [code|e] eqn:Hc; cbn [mbind result_bind].
  - destruct (forallb _ _) eqn:Ht; cbn [outcome]; cbv beta; [done|right; left; split; [done|]].
    apply forallb_false in Ht as (e & He & Hnd%bool_decide_eq_false).
    destruct (by_ids_elem dags e Hd He) as [Ha _]. by exists e.2.
  - cbn [outcome]. cbv beta. right. right. destruct (STORE_DAG_CODE conf); [|done]. split; [done|]. by eexists.
Qed.
(** *** Sub-DAGs *)

Lemma subdags_le n m a l : (n ≤ m)%nat → subdags n h a = Ok l → subdags m h a = Ok l.
Proof. induction 1; [done|]. intros. apply subdags_mono. auto. Qed.

(** The search finds the sub-DAGs of a sub-DAG too. *)
Lemma subdags_pred n a l s : subdags (S n) h a = Ok l → s ∈ l → ∃ l', subdags n h s = Ok l' ∧ l' ⊆ l.
Proof.
  revert a l s. induction n as [|n IH]; intros a l s Ha Hs; cbn [subdags] in Ha;
    apply subdags_loop in Ha as (parts & Hp & ->); cbn [app] in *.
  { exfalso. destruct (o_children (h a)) as [|c cs]; [|done]. cbn in *. injection Hp as <-. by apply elem_of_nil in Hs. }
  revert parts Hp Hs. induction (o_children (h a)) as [|c cs IHc]; intros parts; [intros [= <-] ?%elem_of_nil; done|].
  intros (p & Hp & (ps & Hps & [= <-])%result_bind_ok)%result_bind_ok. cbn [zip_with mjoin list_join app].
  intros [->|[Hin|Hin]%elem_of_app]%elem_of_cons.
  - exists p. split; [done|]. intros x Hx. right. apply elem_of_app. by left.
  - destruct (IH c p s Hp Hin) as (l' & Hl' & Hsub). exists l'. split; [by apply subdags_mono|].
    intros x Hx. right. apply elem_of_app. auto.
  - destruct (IHc ps Hps Hin) as (l' & Hl' & Hsub). exists l'. split; [done|]. intros x Hx. right. apply elem_of_app. auto.
Qed.

Definition subs_of a : list Addr := match subdags recursion_limit h a with Ok l => l | Err _ => [] end.

(** The DAGs that a call writes. *)
Definition closure (dags : list Addr) : list Addr := dags ++ (a ← dags; subs_of a).

Lemma elem_of_closure dags x : x ∈ closure dags ↔ x ∈ dags ∨ ∃ a, a ∈ dags ∧ x ∈ subs_of a.
Proof. unfold closure. rewrite elem_of_app, list_elem_of_bind. naive_solver. Qed.

(** *** The rows after several calls *)

Definition written rows0 (P : list Addr) rows : Prop :=
  rows_unique rows ∧ (∀ a, a ∈ P → ∃ r, synced rows0 a = Ok r ∧ find_row (oid a) rows = Some r) ∧
  (∀ id, (∀ a, a ∈ P → oid a ≠ id) → find_row id rows = find_row id rows0).

Lemma written_ext rows0 P P' rows : (∀ x, x ∈ P ↔ x ∈ P') → written rows0 P rows → written rows0 P' rows.
Proof. intros E (Hu & Hw & Ho). split_and!; [done|intros a Ha; apply Hw; by apply E|]. intros id Hid. apply Ho. intros a Ha. apply Hid. by apply E. Qed.

Lemma synced_same rows rows0 a : find_row (oid a) rows = find_row (oid a) rows0 → synced rows a = synced rows0 a.
Proof.
  intros E. unfold synced. rewrite E. f_equal. apply bool_decide_ext.
  assert (∀ rows, oid a ∈ row_id <$> rows ↔ find_row (oid a) rows ≠ None) as Hin.
  { intros rs. change (find_row (oid a) rs) with (kfind row_id (oid a) rs). rewrite kfind_None.
    split; [auto|]. intros Hn. destruct (decide (oid a ∈ row_id <$> rs)); tauto. }
  by rewrite !Hin, E.
Qed.

(** Writing a sub-DAG again does not change its row. *)
Lemma sync_again ex ex' a r0 r : o_is_subdag (h a) = true → sync ex a r0 = Ok r → sync ex' a r = Ok r.
Proof.
  intros Hs. unfold sync_row. rewrite Hs. destruct (o_parent (h a)) as [p|]; [|done].
  cbn [mbind result_bind]. by intros [= <-].
Qed.

Lemma synced_again rows rows0 a r : o_is_subdag (h a) = true → synced rows0 a = Ok r → find_row (oid a) rows = Some r →
  synced rows a = Ok r.
Proof. intros Hs H0 Hr. unfold synced. rewrite Hr. simpl. by eapply sync_again. Qed.

Definition sync_error (P : list Addr) rows0 (e : exn) : Prop :=
  (∃ a, a ∈ P ∧ synced rows0 a = Err e) ∨
  (e = DBAPIError ∧ ∃ a, a ∈ P ∧ ¬ NoDup (a_tags (attrs a))) ∨
  (STORE_DAG_CODE conf = true ∧ ∃ files codes, bulk_sync_code fileloc_hash getmtime read_file true now files codes = Err e).

Lemma level_written C rows0 P dags st : distinct_ids C → P ⊆ C → dags ⊆ C → written rows0 P (dag_rows st) →
  (∀ a, a ∈ dags → a ∈ P → o_is_subdag (h a) = true) →
  outcome (λ st', written rows0 (P ++ dags) (dag_rows st')) (sync_error C rows0) (write dags st).
Proof.
  intros Hinj HP Hdags (Hu & Hw & Hold) Hsub.
  assert (distinct_ids dags) as Hd by (intros a b Ha Hb; apply Hinj; auto).
  assert (∀ a, a ∈ dags → synced (dag_rows st) a = synced rows0 a) as Hsame.
  { intros a Ha. destruct (decide (a ∈ P)) as [HaP|HaP].
    - destruct (Hw a HaP) as (r & Hr & Hf). rewrite Hr. eapply synced_again; eauto.
    - apply synced_same, Hold. intros b Hb E. apply HaP. by rewrite <-(Hinj b a (HP b Hb) (Hdags a Ha) E). }
  pose proof (write_level_spec dags st Hu Hd) as Hlevel. destruct (write dags st) as [st'|e]; cbn [outcome] in *.
  - destruct Hlevel as (Hu' & Hnew & Hkeep). split_and!; [done| |].
    + intros a Ha. destruct (decide (a ∈ dags)) as [Had|Had].
      * destruct (Hnew a Had) as (r & Hr & Hf). exists r. by rewrite <-(Hsame a Had).
      * apply elem_of_app in Ha as [Ha|Ha]; [|done]. destruct (Hw a Ha) as (r & Hr & Hf). exists r. split; [done|].
        rewrite Hkeep; [done|]. intros (b & E & Hb)%list_elem_of_fmap. apply Had.
        by rewrite (Hinj a b (HP a Ha) (Hdags b Hb) E).
    + intros id Hid. rewrite Hkeep; [apply Hold; intros a Ha; apply Hid, elem_of_app; by left|].
      intros (b & -> & Hb)%list_elem_of_fmap. apply (Hid b); [|done]. apply elem_of_app. by right.
  - destruct Hlevel as [(a & Ha & He)|[(-> & a & Ha & Ht)|(Hs & files & He)]].
    + left. exists a. rewrite <-Hsame by done. auto.
    + right. left. split; [done|]. exists a. auto.
    + right. right. split; [done|]. eauto.
Qed.

(** A call with its calls for sub-DAGs. *)
Lemma bulk_written C rows0 : distinct_ids C → (∀ a s, a ∈ C → s ∈ subs_of a → s ∈ C ∧ o_is_subdag (h s) = true) →
  ∀ n dags P st, (n ≤ recursion_limit)%nat → (∀ a, a ∈ dags → is_ok (subdags n h a) = true) → P ⊆ C → dags ⊆ C →
  written rows0 P (dag_rows st) → (∀ a, a ∈ dags → a ∈ P → o_is_subdag (h a) = true) →
  outcome (λ st', written rows0 (P ++ closure dags) (dag_rows st')) (sync_error C rows0) (bulk_write n dags st).
Proof.
  intros Hinj HC. induction n as [|n IH]; intros dags P st Hn Hok HP Hdags Hw Hsub.
  { destruct dags as [|a dags]; [|by specialize (Hok a ltac:(left))]. cbn. by rewrite app_nil_r. }
  destruct dags as [|a0 dags0]; [cbn; by rewrite app_nil_r|]. set (dags := a0 :: dags0) in *.
  change (bulk_write (S n) dags st) with
    (st ← write dags st; foldM (λ st dag, subs ← subdags recursion_limit h dag; bulk_write n subs st) dags st).
  eapply outcome_bind; [by apply (level_written C rows0 P)|]. cbn beta. clear Hw st. intros st Hw.
  assert (∀ l Q st, (∀ a, a ∈ l → a ∈ dags) → Q ⊆ C → written rows0 Q (dag_rows st) →
    outcome (λ st', written rows0 (Q ++ (a ← l; subs_of a)) (dag_rows st')) (sync_error C rows0)
      (foldM (λ st dag, subs ← subdags recursion_limit h dag; bulk_write n subs st) l st)) as Hloop.
  { clear P Hw HP Hsub st. induction l as [|a l IHl]; intros Q st Hl HQ Hw; [cbn; by rewrite app_nil_r|]. cbn [foldM].
    assert (a ∈ dags) as Ha by (apply Hl; left). pose proof (Hok a Ha) as Hoka.
    destruct (subdags (S n) h a) as [subs|] eqn:Hsa; [|done].
    assert (subdags recursion_limit h a = Ok subs) as Hsr by (by apply (subdags_le (S n))). rewrite Hsr. cbn [mbind result_bind].
    assert (subs_of a = subs) as Hsub by (unfold subs_of; by rewrite Hsr).
    assert (∀ s, s ∈ subs → s ∈ C ∧ o_is_subdag (h s) = true) as Hs by (intros s Hs; apply (HC a); [auto|by rewrite Hsub]).
    assert (∀ s l', s ∈ subs → l' = subs_of s → l' ⊆ subs) as Htrans.
    { intros s l' Hin ->. destruct (subdags_pred n a subs s Hsa Hin) as (l' & Hl' & Hsubl). unfold subs_of.
      by rewrite (subdags_le n recursion_limit s l') by (done || lia). }
    eapply outcome_bind.
    { apply (IH subs Q st); [lia| |done|intros s Hin; by apply Hs|done|intros s Hin _; by apply Hs].
      intros s Hin. destruct (subdags_pred n a subs s Hsa Hin) as (l' & -> & _). done. }
    cbn beta. intros st1 Hw1. assert (written rows0 (Q ++ subs) (dag_rows st1)) as Hw2.
    { eapply written_ext; [|exact Hw1]. intros x. rewrite !elem_of_app, elem_of_closure. split; [|tauto].
      intros [?|[?|(s & Hs1 & Hs2)]]; [by left|by right|right]. by apply (Htrans s (subs_of s)). }
    pose proof (IHl (Q ++ subs) st1) as IHl1. rewrite bind_cons, Hsub, app_assoc. apply IHl1; [intros b Hb; apply Hl; by right| |done].
    intros x [?|?]%elem_of_app; [auto|by apply Hs]. }
  unfold closure. rewrite app_assoc. apply Hloop; [done| |done]. intros x [?|?]%elem_of_app; auto.
Qed.
(** What the row of a DAG holds after it was written: the state of the DAG
    object, with what belongs to the row, such as the switch that pauses it, kept. *)
Record row_synced rows a r : Prop := {
  rs_id : row_id r = oid a;
  rs_active : is_active (model r) = true;
  rs_paused : is_paused (model r) =
    match find_row (oid a) rows with
    | Some r0 => is_paused (model r0)
    | None => default (is_paused_at_creation conf) (a_is_paused_upon_creation (attrs a))
    end;
  rs_parsed : last_parsed_time r = Some now;
  rs_limits : dm_max_active_tasks (model r) = max_active_tasks (o_dag (h a));
  rs_tags : row_tags r = a_tags (attrs a);
  rs_schedule : row_schedule_interval r = schedule_interval (o_dag (h a));
  rs_subdag : row_is_subdag r = o_is_subdag (h a);
  rs_file : ∃ p, (if o_is_subdag (h a) then o_parent (h a) = Some p ∧ root_dag_id r = Some (oid p) else p = a) ∧
    dm_fileloc (model r) = o_fileloc (h p) ∧ owners r = Some (a_owner (attrs p));
  rs_next : if o_is_subdag (h a) then next_dagrun (model r) = None ∧ next_dagrun_create_after (model r) = None
    else ∃ c, Timetable.dag_next_dagrun_info cron_schedule (o_dag (h a)) now
        (match find_row (oid a) rows with Some _ => most_recent_dag_run runs (oid a) | None => None end) =
        Ok (next_dagrun (model r), c) ∧
      next_dagrun_create_after (model r) =
        (if negb (max_active_runs (o_dag (h a)) =? 0) &&
            (max_active_runs (o_dag (h a)) <=? match find_row (oid a) rows with Some _ => num_active_runs runs (oid a) | None => 0 end)
         then None else c);
}.

Lemma synced_spec rows a r : synced rows a = Ok r → row_synced rows a r.
Proof.
  unfold synced. assert ((oid a ∈? (row_id <$> rows)) = match find_row (oid a) rows with Some _ => true | None => false end) as ->.
  { destruct (find_row (oid a) rows) as [r0|] eqn:E.
    - apply bool_decide_eq_true. apply (kfind_Some row_id) in E as [Hin <-]. apply list_elem_of_fmap. by exists r0.
    - apply bool_decide_eq_false. by apply (kfind_None row_id). }
  intros Hr. pose proof (sync_id _ _ _ _ Hr) as Hid. revert Hr.
  assert (row_id (default (new_dag_row conf (oid a) (a_is_paused_upon_creation (attrs a))) (find_row (oid a) rows)) = oid a) as Hid0.
  { destruct (find_row (oid a) rows) as [r0|] eqn:E; [by apply (kfind_Some row_id) in E as [_ ?]|done]. }
  unfold sync_row. intros ([[[is_sub f] root] o] & H1 & (m & Hm & [= <-])%result_bind_ok)%result_bind_ok.
  destruct (o_is_subdag (h a)) eqn:Hs.
  - destruct (o_parent (h a)) as [p|] eqn:Hp; [|done]. injection H1 as <- <- <- <-. injection Hm as <-.
    split; rewrite ?Hs; cbn; [congruence|done| |done..|exists p; by rewrite Hp|done]. by destruct (find_row (oid a) rows).
  - injection H1 as <- <- <- <-. unfold calculate_dagrun_date_fields in Hm. apply result_bind_ok in Hm as ([n c] & Hn & [= <-]).
    split; rewrite ?Hs; cbn; [congruence|done| |done..|by exists a|].
    + by destruct (find_row (oid a) rows).
    + exists c. by destruct (find_row (oid a) rows).
Qed.

(** C29: writing DAGs to the database.  Unless the timetable of a DAG raises, a
    sub-DAG has no parent, a DAG has the same tag twice or storing the code fails,
    the call ends and, for DAGs and sub-DAGs of any nesting, leaves exactly one row
    per DAG that matches its object, with the schedule computed from the runs that
    exist, the pause switch as it was, and every other row untouched: although
    the calls for sub-DAGs write rows again, the result is that of writing each once. *)
Theorem bulk_write_to_db_correct dags st (Hunique : rows_unique (dag_rows st))
  (Hdepth : ∀ a, a ∈ dags → is_ok (subdags recursion_limit h a) = true) (Hids : distinct_ids (closure dags))
  (Hsubs : ∀ a s, a ∈ dags → s ∈ subs_of a → o_is_subdag (h s) = true) :
  match bulk_write recursion_limit dags st with
  | Ok st' => rows_unique (dag_rows st') ∧
      (∀ a, a ∈ closure dags → ∃ r, find_row (oid a) (dag_rows st') = Some r ∧ row_synced (dag_rows st) a r) ∧
      (∀ id, (∀ a, a ∈ closure dags → oid a ≠ id) → find_row id (dag_rows st') = find_row id (dag_rows st))
  | Err e => sync_error (closure dags) (dag_rows st) e
  end.
Proof.
  assert (∀ a s, a ∈ closure dags → s ∈ subs_of a → s ∈ closure dags ∧ o_is_subdag (h s) = true) as HC.
  { intros a s [Ha|(b & Hb & Ha)]%elem_of_closure Hs; [split; [apply elem_of_closure; right; by exists a|by eapply Hsubs]|].
    assert (s ∈ subs_of b) as Hsb; [|split; [apply elem_of_closure; right; by exists b|by eapply Hsubs]].
    revert Ha Hs. unfold subs_of. destruct (subdags recursion_limit h b) as [l|] eqn:E; [|by intros ?%elem_of_nil].
    destruct recursion_limit as [|n]; [done|]. intros Ha. destruct (subdags_pred n b l a E Ha) as (l' & Hl' & Hsub).
    rewrite (subdags_mono _ _ _ _ Hl'). apply Hsub. }
  pose proof (bulk_written (closure dags) (dag_rows st) Hids HC recursion_limit dags [] st) as Hb.
  destruct (bulk_write recursion_limit dags st) as [st'|e]; cbn [outcome app] in Hb; [destruct Hb as (Hu & Hw & Ho)|apply Hb];
    try done; try lia; try (by intros x Hx; apply elem_of_closure; left); try (by intros x ?%elem_of_nil);
    try (by split_and!; [done|intros x ?%elem_of_nil|done]); try (by intros x _ ?%elem_of_nil).
  split_and!; [done| |done]. intros a Ha. destruct (Hw a Ha) as (r & Hr & Hf). exists r. split; [done|by apply synced_spec].
Qed.
End SyncFacts.

(** ** The parser and the scheduler agree on the next run *)

Lemma most_recent_latest runs id d :
  (∀ r, r ∈ runs → DR.dag_id r = id → DR.run_type r ∈ [BACKFILL_JOB; DRT_SCHEDULED] → (DR.execution_date r ≤ d)%Z) →
  (∃ r, r ∈ runs ∧ DR.dag_id r = id ∧ DR.run_type r ∈ [BACKFILL_JOB; DRT_SCHEDULED] ∧ DR.execution_date r = d) →
  most_recent_dag_run runs id = Some d.
Proof.
  intros Hle Hex. unfold most_recent_dag_run. set (l := List.filter _ runs).
  assert (∀ r, r ∈ l → (DR.execution_date r ≤ d)%Z) as Hl.
  { intros r [Hf Hr]%elem_of_filterb. apply andb_true_iff in Hf as [H1%bool_decide_eq_true H2%bool_decide_eq_true]. auto. }
  assert (∃ r, r ∈ l ∧ DR.execution_date r = d) as Hd.
  { destruct Hex as (r & Hr & H1 & H2 & H3). exists r. split; [|done]. apply elem_of_filterb. by rewrite !bool_decide_eq_true_2. }
  assert (∀ m, (match m with Some m => (m ≤ d)%Z | None => True end) → (m = Some d ∨ ∃ r, r ∈ l ∧ DR.execution_date r = d) →
    foldl (λ m r, Some (match m with Some m => Z.max m (DR.execution_date r) | None => DR.execution_date r end)) m l = Some d) as Hfold;
    [|by apply Hfold; [|right]].
  clear Hd. induction l as [|r l IH]; intros m Hm Hd; cbn [foldl].
  - destruct Hd as [->|(r & ?%elem_of_nil & _)]; done.
  - pose proof (Hl r ltac:(left)) as Hr. apply IH; [intros r' Hr'; apply Hl; by right|destruct m; lia|].
    destruct Hd as [->|(r' & [->|Hr']%elem_of_cons & E)]; [left; f_equal; lia|left|right; by exists r'].
    destruct m; f_equal; lia.
Qed.

(** After a run the next one does not depend on the time of the question. *)
Lemma next_info_time cron dag now now' d x y : Timetable.dag_next_dagrun_info cron dag now (Some d) = Ok x →
  Timetable.dag_next_dagrun_info cron dag now' (Some d) = Ok y → x = y.
Proof.
  unfold Timetable.dag_next_dagrun_info. destruct (Timetable.timetable cron dag) as [| |sch]; cbn [Timetable.next_dagrun_info].
  1,2: by intros [= <-] [= <-].
  unfold Timetable.interval_next_dagrun_info.
  intros (i & (e & _ & [= <-])%result_bind_ok & [= <-])%result_bind_ok (i' & (e' & _ & [= <-])%result_bind_ok & [= <-])%result_bind_ok. done.
Qed.

(** C30: the process that parses a DAG file and the scheduler compute the next run
    of a DAG independently; they agree.  Let the scheduler have created the runs that
    were due, the one of this DAG on [d], in a call that returned for models as in
    [create_dag_runs_correct], where [d] is not before any scheduled or backfill run
    of the DAG and no manual run has this date.  When the DAG, which is no sub-DAG, is
    parsed at any later time with the same schedule, its row keeps the next run that
    the scheduler stored and its time, unless the parser finds [max_active_runs]
    reached and holds the creation back.  (With a later backfill run or a manual run
    of the date it stores another one, see [manual_run_moves_back].) *)
Theorem parse_keeps_schedule dagbag dags_hash cron hook isoformat dms s s' dm dag d h attrs now a r r'
  (Hids : NoDup (dm_dag_id <$> dms)) (Hready : ∀ dm, dm ∈ dms → model_ready dagbag cron dm)
  (Hruns : ∀ dm, dm ∈ dms → ids_match isoformat (dm_dag_id dm) s)
  (Hcreate : _create_dag_runs dagbag dags_hash cron hook isoformat dms s = Ok s')
  (Hdm : dm ∈ dms) (Hdag : dagbag (dm_dag_id dm) = Ok (Some dag)) (Hd : next_dagrun dm = Some d)
  (Hlatest : ∀ run, run ∈ dag_run s → DR.dag_id run = dm_dag_id dm → DR.run_type run ∈ [BACKFILL_JOB; DRT_SCHEDULED] →
     (DR.execution_date run ≤ d)%Z)
  (Hnomanual : ∀ run, run ∈ dag_run s → DR.dag_id run = dm_dag_id dm → DR.execution_date run = d →
     DR.run_type run ∈ [BACKFILL_JOB; DRT_SCHEDULED])
  (Hobj : o_dag (h a) = dag ∧ dag_id dag = dm_dag_id dm ∧ o_is_subdag (h a) = false)
  (Hrow : model r ∈ dag_model s' ∧ row_id r = dm_dag_id dm)
  (Hparse : sync_row cron h attrs (dag_run s') now true a r = Ok r') :
  next_dagrun (model r') = next_dagrun (model r) ∧
  next_dagrun_create_after (model r') =
    if negb (max_active_runs dag =? 0)%Z && (max_active_runs dag <=? num_active_runs (dag_run s') (dm_dag_id dm))%Z then None
    else next_dagrun_create_after (model r).
Proof.
  unfold _create_dag_runs in Hcreate.
  destruct (create_runs_loop dagbag dags_hash cron hook isoformat (existing_dagruns dms s) dms s Hids Hready Hruns)
    as (s2 & new & Hs2 & C).
  { intros dm' d' Hdm' Hd'. by apply existing_spec. }
  rewrite Hcreate in Hs2. injection Hs2 as <-. destruct Hobj as (Ho & Hid & Hsub), Hrow as [Hrow Hrid].
  pose proof (cr_next _ _ _ _ _ _ C dm dag (model r) Hdm Hdag Hrow Hrid) as Hnext. rewrite Hd in Hnext.
  assert (∀ run, run ∈ new → DR.dag_id run = dm_dag_id dm → DR.execution_date run = d) as new_run_date.
  { intros run Hrun Hrd. destruct (cr_new _ _ _ _ _ _ C run Hrun) as (_ & _ & (dm' & Hdm' & Hid' & Hd') & _).
    assert (dm' = dm) as ->; [|congruence]. eapply NoDup_fmap_elem; [exact Hids|done..|congruence]. }
  assert (most_recent_dag_run (dag_run s') (o_dag_id (h a)) = Some d) as Hrecent.
  { unfold o_dag_id. rewrite Ho, Hid. apply most_recent_latest.
    - intros run Hrun Hrd Ht. rewrite (cr_runs _ _ _ _ _ _ C) in Hrun. apply elem_of_app in Hrun as [Hrun|Hrun]; [auto|].
      rewrite (new_run_date run Hrun Hrd). lia.
    - destruct (cr_covered _ _ _ _ _ _ C dm dag d Hdm Hdag Hd) as (run & Hrun & Hrd & Hre). exists run. split_and!; [done..| |done].
      rewrite (cr_runs _ _ _ _ _ _ C) in Hrun. apply elem_of_app in Hrun as [Hrun|Hrun]; [auto|].
      destruct (cr_new _ _ _ _ _ _ C run Hrun) as (_ & -> & _). right. left. }
  revert Hparse. unfold sync_row. rewrite Hsub. cbn [mbind result_bind]. unfold calculate_dagrun_date_fields.
  rewrite Hrecent, Ho. intros (m & ([n c] & Hn & [= <-])%result_bind_ok & [= <-])%result_bind_ok. cbn [model next_dagrun next_dagrun_create_after set_next].
  pose proof (next_info_time _ _ _ _ _ _ _ Hnext Hn) as [= -> ->].
  unfold o_dag_id. by rewrite Ho, Hid.
Qed.

(** ** Samples *)

Module DagSyncSample.
Import Sample CreateSample.
Local Open Scope Z_scope.

(** A root DAG with a sub-DAG that has a sub-DAG, and a second DAG. *)
Definition sync_obj (dag : DAG) (is_subdag : bool) (parent : option Addr) (children : list Addr) : DagObj :=
  {| o_dag := dag; o_fileloc := "dags.py"; o_is_subdag := is_subdag; o_parent := parent; o_last_loaded := 0;
     o_children := children; o_timetable_valid := true |}.
Definition sync_heap : Heap := λ x,
  match x with
  | 0%nat => sync_obj every_100 false None [1%nat]
  | 1%nat => sync_obj (mk_dag "diamond.s" []) true (Some 0%nat) [2%nat]
  | 2%nat => sync_obj (mk_dag "diamond.s.t" []) true (Some 0%nat) []
  | _ => sync_obj (mk_dag "other" []) false None []
  end.
Definition sync_attrs (x : Addr) : SyncAttrs :=
  {| a_owner := "airflow"; a_default_view := Some "tree"; a_description := None;
     a_tags := match x with 0%nat => ["prod"] | 4%nat => ["x"; "x"] | _ => [] end; a_is_paused_upon_creation := None |}.
Definition sync_conf : SyncConf := {| is_paused_at_creation := true; max_active_tasks_per_dag := 16; STORE_DAG_CODE := false |}.

Definition old_row : DagRow :=
  {| model := mk_dm "diamond"; root_dag_id := Some "gone"; row_is_subdag := true; last_parsed_time := None; row_last_expired := None;
     owners := None; default_view := None; description := None; row_schedule_interval := None; row_tags := ["old"] |}.
Definition sync_state : SyncState := {| dag_rows := [old_row]; code_rows := [] |}.

Definition sample_run (dags : list Addr) (runs : list DagRun) : result SyncState :=
  bulk_write_to_db no_cron sync_conf (λ _, 0) (λ _, Ok 0) (λ _, Ok "") 5 sync_heap sync_attrs runs 7000 5 dags sync_state.

(** The DAG keeps its switch, the sub-DAGs are paused; the next run follows the last
    one. *)
Example sample_sync :
  (λ st, (λ r, (row_id r, is_paused (model r), row_is_subdag r, root_dag_id r, next_dagrun (model r), row_tags r)) <$> dag_rows st)
    <$> sample_run [0%nat] [mk_run "diamond" DR_RUNNING] =
  Ok [("diamond", false, false, Some "gone", Some 1100, ["prod"]); ("diamond.s", true, true, Some "diamond", None, []);
      ("diamond.s.t", true, true, Some "diamond", None, [])].
Proof. by vm_compute. Qed.

Lemma bulk_write_to_db_correct_witness :
  match sample_run [0%nat; 3%nat] [] with
  | Ok st' => rows_unique (dag_rows st') ∧
      (∀ a, a ∈ closure 5 sync_heap [0%nat; 3%nat] → ∃ r, find_row (o_dag_id (sync_heap a)) (dag_rows st') = Some r ∧
         row_synced no_cron sync_conf sync_heap sync_attrs [] 7000 (dag_rows sync_state) a r) ∧
      (∀ id, (∀ a, a ∈ closure 5 sync_heap [0%nat; 3%nat] → o_dag_id (sync_heap a) ≠ id) →
         find_row id (dag_rows st') = find_row id (dag_rows sync_state))
  | Err e => sync_error no_cron sync_conf (λ _, 0) (λ _, Ok 0) (λ _, Ok "") sync_heap sync_attrs [] 7000
      (closure 5 sync_heap [0%nat; 3%nat]) (dag_rows sync_state) e
  end.
Proof.
  apply (bulk_write_to_db_correct no_cron sync_conf (λ _, 0) (λ _, Ok 0) (λ _, Ok "") 5 sync_heap sync_attrs [] 7000 [0%nat; 3%nat] sync_state).
  - apply NoDup_singleton.
  - intros a Ha. repeat (apply elem_of_cons in Ha as [->|Ha]; [done|]). by apply elem_of_nil in Ha.
  - intros a b Ha Hb. vm_compute in Ha, Hb.
    repeat (apply elem_of_cons in Ha as [->|Ha]; [repeat (apply elem_of_cons in Hb as [->|Hb]; [done|]); by apply elem_of_nil in Hb|]).
    by apply elem_of_nil in Ha.
  - intros a s Ha Hs. repeat (apply elem_of_cons in Ha as [->|Ha]; [vm_compute in Hs;
      repeat (apply elem_of_cons in Hs as [->|Hs]; [done|]); by apply elem_of_nil in Hs|]). by apply elem_of_nil in Ha.
Defined.

(** A DAG with a tag twice ends the whole call. *)
Example duplicate_tags : sample_run [4%nat; 0%nat] [] = Err DBAPIError.
Proof. by vm_compute. Qed.

(** A DAG that was a sub-DAG keeps the id of its former root, with which it is
    paused. *)
Example former_subdag_paused :
  (λ st, (λ r, is_paused (model r)) <$> set_is_paused "gone" true true (dag_rows st)) <$> sample_run [0%nat] [] = Ok [true; true; true].
Proof. by vm_compute. Qed.

(** *** The scheduler and the parser *)

Definition created_session : Session :=
  match _create_dag_runs create_bag (λ _, None) no_cron (λ t, t) (λ _, "iso") [due] due_session with Ok s => s | Err _ => due_session end.
Definition due_row (s : Session) : DagRow :=
  {| model := default due (head (dag_model s)); root_dag_id := None; row_is_subdag := false; last_parsed_time := None; row_last_expired := None;
     owners := None; default_view := None; description := None; row_schedule_interval := None; row_tags := [] |}.
Definition parsed (s : Session) : result DagRow :=
  sync_row no_cron sync_heap sync_attrs (dag_run s) 9000 true 0%nat (due_row s).

Example parsed_row : (λ r, (next_dagrun (model r), next_dagrun_create_after (model r))) <$> parsed created_session =
  Ok (next_dagrun (model (due_row created_session)), next_dagrun_create_after (model (due_row created_session))).
Proof. by vm_compute. Qed.

Lemma parse_keeps_schedule_witness : ∃ r', parsed created_session = Ok r' ∧
  next_dagrun (model r') = next_dagrun (model (due_row created_session)) ∧
  next_dagrun_create_after (model r') =
    (if negb (max_active_runs every_100 =? 0) && (max_active_runs every_100 <=? num_active_runs (dag_run created_session) "diamond") then None
     else next_dagrun_create_after (model (due_row created_session))).
Proof.
  eexists. split; [by vm_compute|].
  refine (parse_keeps_schedule create_bag (λ _, None) no_cron (λ t, t) (λ _, "iso") [due] due_session created_session due every_100 1000
    sync_heap sync_attrs 9000 0%nat (due_row created_session) _ _ _ _ _ _ _ _ _ _ _ _ _).
  - apply NoDup_singleton.
  - intros dm ->%list_elem_of_singleton. right. exists every_100, 1000. split_and!; [done|done|apply every_100_ready|done].
  - intros dm _ r d Hr. by apply elem_of_nil in Hr.
  - by vm_compute.
  - left.
  - done.
  - done.
  - intros r Hr. by apply elem_of_nil in Hr.
  - intros r Hr. by apply elem_of_nil in Hr.
  - done.
  - split; [|done]. vm_compute. left.
  - by vm_compute.
Defined.

(** With a manual run on the due date the scheduler moves on, and the parser
    moves back. *)
Definition manual_run : DagRun :=
  {| DR.dag_id := "diamond"; DR.queued_at := None; DR.execution_date := 1000; DR.start_date := None; DR.end_date := None;
     DR._state := DR_RUNNING; DR.run_id := Some "manual__1"; DR.external_trigger := true; DR.run_type := MANUAL;
     DR.last_scheduling_decision := None; DR.dag_hash := None |}.
Definition scheduled_before : DagRun :=
  {| DR.dag_id := "diamond"; DR.queued_at := None; DR.execution_date := 900; DR.start_date := None; DR.end_date := None;
     DR._state := DR_SUCCESS; DR.run_id := Some "scheduled__0"; DR.external_trigger := false; DR.run_type := DRT_SCHEDULED;
     DR.last_scheduling_decision := None; DR.dag_hash := None |}.
Example manual_run_moves_back :
  (s ← _create_dag_runs create_bag (λ _, None) no_cron (λ t, t) (λ _, "iso") [due] (with_dag_run [scheduled_before; manual_run] due_session);
   r ← parsed s; Ok (next_dagrun (model (due_row s)), next_dagrun (model r))) = Ok (Some 1100, Some 1000).
Proof. by vm_compute. Qed.
End DagSyncSample.
