(* ===== verification/DagApi.v ===== *)
(** * DagApi: triggering and deleting DAGs, and pools

    [api/common/experimental/trigger_dag.py], [delete_dag.py] and [pool.py]: what the
    web server, the REST API and the command line do to runs, DAGs and pools. *)

From S2P Require Import Prelude State Model Sample Graph Timetable DagRunQuery TaskInstance PoolSlots TiDeps DagRun SchedulerCreate Dict DagTable DagBag DagSync.
From Stdlib Require Import Ascii.
From stdpp Require Import strings.
Import Model Graph SchedulerCreate DagSync.

Module DagApi.
Local Open Scope Z_scope.

(** ** [trigger_dag.py] *)
Section Trigger.
(** The values of JSON, and [json.loads]: None if the text is no JSON, where it
    raises a [ValueError]. *)
Context {J : Type} (json_loads : string → option J).
Context (hook : TaskInstance → TaskInstance) (isoformat : datetime → string).

(** The argument [conf], and what is stored in the column [conf] of the run. *)
Inductive ConfArg := ConfDict (items : list (string * J)) | ConfText (text : string).
Inductive RunConf := DictConf (items : list (string * J)) | LoadedConf (value : J).

(** [if conf: run_conf = conf if isinstance(conf, dict) else json.loads(conf)]. *)
Definition load_conf (conf : option ConfArg) : result (option RunConf) :=
  match conf with
  | None | Some (ConfDict []) | Some (ConfText "") => Ok None
  | Some (ConfDict items) => Ok (Some (DictConf items))
  | Some (ConfText text) =>
      match json_loads text with Some value => Ok (Some (LoadedConf value)) | None => Err ValueError end
  end.

(** A DAG of the bag with its sub-DAGs, the start date of its default arguments,
    and its hash. *)
Record BagDag := {
  b_dag : DAG;
  b_subdags : list DAG;
  b_default_start_date : option datetime;
  b_hash : option string;
}.

Definition truncate_microseconds (d : datetime) : datetime := d - d mod 1000000.

(** [_trigger_dag]: [localized] says whether the date has a time zone.  Each new
    run is returned with the value of its column [conf]. *)
Definition _trigger_dag (get_dag : string → result (option BagDag)) (dag_id : string) (run_id : option string)
    (conf : option ConfArg) (execution_date : option datetime) (localized replace_microseconds : bool) (s : Session)
    : result (list (DagRun * option RunConf) * Session) :=
  found ← get_dag dag_id;
  match found with
  | None => Err DagNotFound
  | Some dag =>
      let date := default (utcnow s) execution_date in
      if match execution_date with Some _ => negb localized | None => false end then Err ValueError
      else
        let date := if replace_microseconds then truncate_microseconds date else date in
        if match b_default_start_date dag with Some start => date <? start | None => false end then Err ValueError
        else
          let run_id := match run_id with
                        | Some r => if r ≟ "" then generate_run_id MANUAL (isoformat date) else r
                        | None => generate_run_id MANUAL (isoformat date)
                        end in
          if negb (is_nil (DagRunQuery.find [dag_id] (Some run_id) [] None None None None None false s))
          then Err DagRunAlreadyExists
          else
            run_conf ← load_conf conf;
            foldM (λ '(triggers, s) _dag,
              '(trigger, s) ← create_dagrun hook isoformat _dag DR_RUNNING (Some date) (Some run_id) None true None (b_hash dag) s;
              Ok (triggers ++ [(trigger, run_conf)], s)) (b_dag dag :: b_subdags dag) ([], s)
  end.

Definition trigger_dag (get_dag : string → result (option BagDag)) (dag_id : string) (run_id : option string)
    (conf : option ConfArg) (execution_date : option datetime) (localized replace_microseconds : bool) (s : Session)
    : result (option (DagRun * option RunConf) * Session) :=
  if negb (existsb (λ dm, dm_dag_id dm ≟ dag_id) (dag_model s)) then Err DagNotFound
  else
    '(triggers, s) ← _trigger_dag get_dag dag_id run_id conf execution_date localized replace_microseconds s;
    Ok (head triggers, s).
End Trigger.
Arguments ConfArg : clear implicits.
Arguments RunConf : clear implicits.

(** ** [delete_dag.py] *)

(** SQL's [LIKE]: [%] stands for any text and [_] for any character. *)
Fixpoint like (pattern s : string) : bool :=
  match pattern with
  | EmptyString => s ≟ EmptyString
  | String p pattern =>
      if p ≟ "%"%char then
        (fix any (s : string) : bool := like pattern s || match s with EmptyString => false | String _ s => any s end) s
      else
        match s with
        | EmptyString => false
        | String c s => ((p ≟ "_"%char) || (p ≟ c)) && like pattern s
        end
  end.

(** A row of a table with a column [dag_id]; the tables by the names of their
    classes. *)
Record ApiRow := {
  ar_dag_id : string;
  ar_task_id : option string;
}.
Record ApiDb := {
  db_dags : list DagRow;
  db_tables : list (string * list ApiRow);
  db_import_errors : list string;
}.

(** [query.filter(cond).delete()] and its count. *)
Definition delete_rows (cond : ApiRow → bool) (rows : list ApiRow) : list ApiRow * Z :=
  (List.filter (λ r, negb (cond r)) rows, countb cond rows).

Definition delete_from (select : string → bool) (cond : ApiRow → bool) (tables : list (string * list ApiRow))
    : list (string * list ApiRow) * Z :=
  ((λ t, if select t.1 then (t.1, (delete_rows cond t.2).1) else t) <$> tables,
   sumb (λ t, select t.1) (λ t, (delete_rows cond t.2).2) tables).

(** [dag_id.rsplit(".", 1)]: the last dot. *)
Fixpoint rsplit_dot (s : string) : option (string * string) :=
  match s with
  | EmptyString => None
  | String c s' =>
      match rsplit_dot s' with
      | Some (a, b) => Some (String c a, b)
      | None => if c ≟ "."%char then Some (EmptyString, s') else None
      end
  end.

Definition subdag_cond (dag_id i : string) : bool := (i ≟ dag_id) || like (dag_id +:+ ".%") i.

Definition delete_dag (dag_id : string) (keep_records_in_log : bool) (db : ApiDb) : result (ApiDb * Z) :=
  match find_row dag_id (db_dags db) with
  | None => Err DagNotFound
  | Some dag =>
      let (tables, _) := delete_from (λ n, n ≟ "SerializedDagModel") (λ r, ar_dag_id r ≟ dag_id) (db_tables db) in
      let (tables, count) :=
        delete_from (λ n, negb (keep_records_in_log && (n ≟ "Log"))) (λ r, subdag_cond dag_id (ar_dag_id r)) tables in
      let dags := List.filter (λ r, negb (subdag_cond dag_id (row_id r))) (db_dags db) in
      let count := count + countb (λ r, subdag_cond dag_id (row_id r)) (db_dags db) in
      '(tables, count) ←
        (if row_is_subdag dag then
           match rsplit_dot dag_id with
           | None => Err ValueError
           | Some (parent_dag_id, task_id) =>
               let (tables, n) := delete_from (λ n, n ∈? ["TaskFail"; "TaskInstance"])
                 (λ r, (ar_dag_id r ≟ parent_dag_id) && (ar_task_id r ≟ Some task_id)) tables in
               Ok (tables, count + n)
           end
         else Ok (tables, count));
      Ok ({| db_dags := dags; db_tables := tables;
             db_import_errors := List.filter (λ f, negb (f ≟ dm_fileloc (model dag))) (db_import_errors db) |}, count)
  end.

(** ** [pool.py] *)

(** [str.strip] of white space leaves nothing. *)
Fixpoint blank (s : string) : bool :=
  match s with EmptyString => true | String c s => (c ∈? [" "; "009"; "010"; "011"; "012"; "013"]%char) && blank s end.

Definition api_get_pool (name : string) (s : Session) : result Pool :=
  if blank name then Err AirflowBadRequest
  else match List.find (λ p, pool_name p ≟ name) (slot_pool s) with Some p => Ok p | None => Err PoolNotFound end.

Definition with_pools (pools : list Pool) (s : Session) : Session :=
  {| task_instance := task_instance s; dag_run := dag_run s; dag_model := dag_model s; slot_pool := pools;
     task_reschedule := task_reschedule s; xcom := xcom s; job := job s; utcnow := utcnow s |}.

(** [slots] is the argument after [int(...)], None if that raises; the name has at
    most 256 characters. *)
Definition create_pool (name : string) (slots : option Z) (s : Session) : result Session :=
  if blank name then Err AirflowBadRequest
  else
    match slots with
    | None => Err AirflowBadRequest
    | Some slots =>
        if (256 <? Z.of_nat (String.length name)) then Err AirflowBadRequest
        else
          let pool := {| pool_name := name; Model.slots := slots |} in
          Ok (with_pools (if existsb (λ p, pool_name p ≟ name) (slot_pool s) then kput pool_name pool (slot_pool s)
                          else slot_pool s ++ [pool]) s)
    end.

Definition delete_pool (name : string) (s : Session) : result Session :=
  if blank name then Err AirflowBadRequest
  else if name ≟ PoolSlots.DEFAULT_POOL_NAME then Err AirflowBadRequest
  else
    match List.find (λ p, pool_name p ≟ name) (slot_pool s) with
    | None => Err PoolNotFound
    | Some _ => Ok (with_pools (List.filter (λ p, negb (pool_name p ≟ name)) (slot_pool s)) s)
    end.
End DagApi.

Import DagApi.

(** ** Triggering *)
Section TriggerFacts.
Local Open Scope Z_scope.
Context {J : Type} (json_loads : string → option J).
Context (cron_schedule : string → Timetable.Schedule) (hook : TaskInstance → TaskInstance) (isoformat : datetime → string).

(** The run that is created for a DAG. *)
Definition triggered (d : datetime) (run_id : string) (dag : DAG) (r : DagRun) : Prop :=
  DR.dag_id r = dag_id dag ∧ DR.execution_date r = d ∧ DR.run_id r = Some run_id ∧ DR._state r = DR_RUNNING ∧
  DR.external_trigger r = true.

(** Neither the date nor the id is used by a run of the DAG. *)
Definition unused (d : datetime) (run_id : string) (s : Session) (dag : DAG) : Prop :=
  ∀ r, r ∈ dag_run s → DR.dag_id r = dag_id dag → DR.execution_date r ≠ d ∧ DR.run_id r ≠ Some run_id.

Lemma conflicts_used d run_id now h (dag : DAG) r :
  conflicts (new_run now (dag_id dag) run_id (Some d) None true DR_RUNNING (from_run_id run_id) h) r = true ↔
  DR.dag_id r = dag_id dag ∧ (DR.execution_date r = d ∨ DR.run_id r = Some run_id).
Proof.
  unfold conflicts. cbn [new_run DR.dag_id DR.execution_date DR.run_id default]. rewrite andb_true_iff, orb_true_iff, !bool_decide_eq_true.
  destruct (DR.run_id r) as [x|]; rewrite ?bool_decide_eq_true; naive_solver.
Qed.

Lemma create_triggered d run_id h dag s : dag_ready cron_schedule dag → run_id ≠ "" →
  outcome (λ x, unused d run_id s dag ∧ triggered d run_id dag x.1 ∧ dag_run x.2 = dag_run s ++ [x.1] ∧ dag_model x.2 = dag_model s)
    (λ e, e = DBAPIError ∧ ¬ unused d run_id s dag)
    (create_dagrun hook isoformat dag DR_RUNNING (Some d) (Some run_id) None true None h s).
Proof.
  intros Hready Hid. unfold create_dagrun, run_identity. rewrite bool_decide_eq_false_2 by done. cbn [mbind result_bind].
  unfold insert_run. set (run := new_run _ _ _ _ _ _ _ _ _). destruct (existsb (conflicts run) (dag_run s)) eqn:E; cbn [mbind result_bind].
  - cbn [outcome]. split; [done|]. intros Hun. apply existsb_elem in E as (r & Hr & [E1 E2]%conflicts_used).
    destruct (Hun r Hr E1) as [? ?]. naive_solver.
  - destruct (verify_integrity_total cron_schedule hook dag run (with_dag_run (dag_run s ++ [run]) s) Hready) as (s' & -> & H1 & H2 & H3).
    cbn [mbind result_bind outcome fst snd]. split_and!; [|done|by rewrite H1|by rewrite H2].
    intros r Hr E1. apply existsb_false_elem with (x := r) in E; [|done].
    split; intros E2; (assert (conflicts run r = true); [|congruence]); apply conflicts_used; auto.
Qed.

(** The runs of the DAG and of its sub-DAGs, one after the other. *)
Lemma trigger_each d run_id (c : option (RunConf J)) h dags runs s : (∀ dag, dag ∈ dags → dag_ready cron_schedule dag) → run_id ≠ "" → NoDup (dag_id <$> dags) →
  outcome (λ x, (∀ dag, dag ∈ dags → unused d run_id s dag) ∧
      ∃ new, x.1 = runs ++ ((λ r, (r, c)) <$> new) ∧ Forall2 (triggered d run_id) dags new ∧ dag_run x.2 = dag_run s ++ new ∧ dag_model x.2 = dag_model s)
    (λ e, e = DBAPIError ∧ ∃ dag, dag ∈ dags ∧ ¬ unused d run_id s dag)
    (foldM (λ '(triggers, s) dag,
       '(trigger, s) ← create_dagrun hook isoformat dag DR_RUNNING (Some d) (Some run_id) None true None h s;
       Ok (triggers ++ [(trigger, c)], s)) dags (runs, s)).
Proof.
  intros Hready Hid. revert runs s. induction dags as [|dag dags IH]; intros runs s Hnd; cbn [foldM].
  { cbn [outcome fst snd]. split; [by intros dag ?%elem_of_nil|]. exists []. by rewrite !app_nil_r. }
  apply NoDup_cons in Hnd as [Hfresh Hnd].
  pose proof (create_triggered d run_id h dag s (Hready dag ltac:(left)) Hid) as Hc.
  destruct (create_dagrun _ _ _ _ _ _ _ _ _ _ _) as [[run s1]|e]; cbn [mbind result_bind outcome fst snd] in *;
    [|destruct Hc as [-> Hu]; split; [done|]; exists dag; split; [left|done]].
  destruct Hc as (Hun & Htr & Hr1 & Hm1).
  assert (∀ dag', dag' ∈ dags → unused d run_id s1 dag' ↔ unused d run_id s dag') as Hsame.
  { intros dag' Hd'. unfold unused. rewrite Hr1. setoid_rewrite elem_of_app. split; [naive_solver|].
    intros Hu r [Hr|Hr%list_elem_of_singleton] E; [auto|]. subst r. destruct Htr as [E1 _]. exfalso. apply Hfresh.
    rewrite <-E1, E. apply list_elem_of_fmap. by exists dag'. }
  specialize (IH ltac:(intros; apply Hready; by right) (runs ++ [(run, c)]) s1 Hnd). destruct (foldM _ dags _) as [[ts s2]|e]; cbn [outcome fst snd] in *.
  - destruct IH as (Hall & new & -> & Hnew & Hr2 & Hm2). split.
    + intros dag' [->|Hd']%elem_of_cons; [done|]. by apply Hsame, Hall.
    + exists (run :: new). split_and!; [by rewrite <-app_assoc|by constructor|by rewrite Hr2, Hr1, <-app_assoc|congruence].
  - destruct IH as (-> & dag' & Hd' & Hu). split; [done|]. exists dag'. split; [by right|]. by rewrite <-Hsame.
Qed.

(** The date and the id of the run. *)
Definition trigger_date (execution_date : option datetime) (replace_microseconds : bool) (s : Session) : datetime :=
  let date := default (utcnow s) execution_date in if replace_microseconds then truncate_microseconds date else date.
Definition trigger_id (run_id : option string) (d : datetime) : string :=
  match run_id with
  | Some r => if r ≟ "" then generate_run_id MANUAL (isoformat d) else r
  | None => generate_run_id MANUAL (isoformat d)
  end.

Lemma find_used did run_id (s : Session) : run_id ≠ "" →
  is_nil (DagRunQuery.find [did] (Some run_id) [] None None None None None false s) = false →
  ∃ r, r ∈ dag_run s ∧ DR.dag_id r = did ∧ DR.run_id r = Some run_id.
Proof.
  intros Hid. unfold DagRunQuery.find. rewrite bool_decide_eq_false_2 by done. set (l := List.filter _ (dag_run s)).
  destruct (py_sorted _ l) as [|r l'] eqn:E; [done|]. intros _. exists r.
  assert (r ∈ l) as Hr by (apply (elem_of_py_sorted DagRunQuery.by_execution_date); rewrite E; left). revert Hr. unfold l.
  rewrite elem_of_filterb. cbn. rewrite !andb_true_r, !andb_true_iff, !bool_decide_eq_true, list_elem_of_singleton. tauto.
Qed.

(** What [conf] becomes, if it can be read. *)
Definition conf_readable (conf : option (ConfArg J)) : Prop :=
  match conf with Some (ConfText text) => text = "" ∨ is_Some (json_loads text) | _ => True end.

Lemma load_conf_ok conf : outcome (λ _, conf_readable conf) (λ e, e = ValueError ∧ ¬ conf_readable conf) (load_conf json_loads conf).
Proof.
  destruct conf as [[[|]|[|c text]]|]; cbn; try done; [by left|]. destruct (json_loads _) as [v|] eqn:E; cbn; [right; by exists v|].
  split; [done|]. by intros [|[v ?]].
Qed.

(** C31: what [_trigger_dag] does, for each answer of the bag.  A DAG the bag does
    not have is [DagNotFound], an exception of the bag is passed on.  For a DAG whose
    tasks and timetable can be read ([dag_ready]) and whose sub-DAGs have ids of
    their own, it creates a running run with the date and the id asked for (by
    default the current second and the manual id of this date) and the loaded [conf]
    for the DAG and for each of its sub-DAGs, and no other run.  It raises exactly if
    the date has no time zone or is before the start date, if the id is used, if
    [conf] is a text that is no JSON, or if the date or the id is used by a run of
    one of the DAGs, which the unique constraints refuse. *)
Theorem trigger_dag_correct get_dag did run_id conf execution_date localized replace_microseconds s
  (Hbag : ∀ b, get_dag did = Ok (Some b) → dag_id (b_dag b) = did ∧ NoDup (dag_id <$> b_dag b :: b_subdags b) ∧
     ∀ dag, dag ∈ b_dag b :: b_subdags b → dag_ready cron_schedule dag) :
  let d := trigger_date execution_date replace_microseconds s in
  let rid := trigger_id run_id d in
  match get_dag did, _trigger_dag json_loads hook isoformat get_dag did run_id conf execution_date localized replace_microseconds s with
  | Err e, r => r = Err e
  | Ok None, r => r = Err DagNotFound
  | Ok (Some b), Ok (triggers, s') =>
      (is_Some execution_date → localized = true) ∧ (∀ start, b_default_start_date b = Some start → start ≤ d) ∧
      conf_readable conf ∧ (∀ dag, dag ∈ b_dag b :: b_subdags b → unused d rid s dag) ∧
      Forall2 (triggered d rid) (b_dag b :: b_subdags b) triggers.*1 ∧
      (∀ x, x ∈ triggers → Ok x.2 = load_conf json_loads conf) ∧
      dag_run s' = dag_run s ++ triggers.*1 ∧ dag_model s' = dag_model s
  | Ok (Some b), Err e =>
      (e = ValueError ∧ ((is_Some execution_date ∧ localized = false) ∨
                         (∃ start, b_default_start_date b = Some start ∧ d < start) ∨ ¬ conf_readable conf)) ∨
      (e = DagRunAlreadyExists ∧ ∃ r, r ∈ dag_run s ∧ DR.dag_id r = did ∧ DR.run_id r = Some rid) ∨
      (e = DBAPIError ∧ ∃ dag, dag ∈ b_dag b :: b_subdags b ∧ ¬ unused d rid s dag)
  end.
Proof.
  intros d rid. assert (rid ≠ "") as Hne.
  { unfold rid, trigger_id. destruct run_id as [r|]; [case_bool_decide; [|done]|]; by unfold generate_run_id. }
  unfold _trigger_dag. destruct (get_dag did) as [[b|]|e] eqn:Hfound; cbn [mbind result_bind]; [|done..].
  destruct (Hbag b eq_refl) as (Hid & Hnd & Hready). fold (trigger_date execution_date replace_microseconds s). fold d.
  change (match run_id with Some r => _ | None => _ end) with rid.
  destruct (match execution_date with Some _ => negb localized | None => false end) eqn:E1.
  { left. split; [done|]. left. destruct execution_date; [|done]. by destruct localized. }
  destruct (match b_default_start_date b with Some start => d <? start | None => false end) eqn:E2.
  { left. split; [done|]. right; left. destruct (b_default_start_date b) as [start|]; [|done]. apply Z.ltb_lt in E2. by exists start. }
  destruct (is_nil _) eqn:E3; cbn [negb]; [|right; left; split; [done|by apply find_used]].
  pose proof (load_conf_ok conf) as Hconf. destruct (load_conf json_loads conf) as [c|e]; cbn [mbind result_bind outcome] in *;
    [|left; destruct Hconf as [-> Hc]; auto].
  pose proof (trigger_each d rid c (b_hash b) (b_dag b :: b_subdags b) [] s Hready Hne Hnd) as Hloop.
  destruct (foldM _ (b_dag b :: b_subdags b) ([], s)) as [[triggers s']|e]; cbn [outcome fst snd app] in Hloop; [|right; by right].
  destruct Hloop as (Hu & new & -> & Hn & Hr & Hm). rewrite <-list_fmap_compose, list_fmap_id.
  split_and!; [|intros start Hs; rewrite Hs in E2; by apply Z.ltb_ge|done..|by intros x (r & -> & _)%list_elem_of_fmap|done|done].
  intros [x Hx]. rewrite Hx in E1. by destruct localized.
Qed.
End TriggerFacts.

(** ** Deleting *)

(** Without characters that [LIKE] interprets, the condition is that of a DAG and
    its sub-DAGs. *)
Fixpoint literal (s : string) : bool :=
  match s with EmptyString => true | String c s => negb (c ∈? ["%"; "_"]%char) && literal s end.

Lemma like_percent s : like "%" s = true.
Proof.
  induction s as [|c s IH]; [done|]. change (like "%" (String c s)) with ((String c s ≟ "") || like "%" s).
  by rewrite IH, orb_true_r.
Qed.

Lemma like_literal p s : literal p = true → like (p +:+ ".%") s = true ↔ ∃ rest, s = p +:+ "." +:+ rest.
Proof.
  revert s. induction p as [|c p IH]; intros s Hp.
  - change ("" +:+ ".%") with ".%". destruct s as [|c s]; [split; [done|by intros [? ?]]|].
    change (like ".%" (String c s)) with (("."%char ≟ c) && like "%" s). rewrite like_percent, andb_true_r, bool_decide_eq_true.
    split; [intros <-; by exists s|intros (rest & E); by injection E as ->].
  - cbn [literal] in Hp. apply andb_true_iff in Hp as [Hc%negb_true_iff%bool_decide_eq_false Hp].
    change (String c p +:+ ".%") with (String c (p +:+ ".%")). cbn [like].
    rewrite bool_decide_eq_false_2 by (intros ->; apply Hc; left). destruct s as [|c' s]; [split; [done|by intros [? ?]]|].
    rewrite (bool_decide_eq_false_2 (c = "_"%char)) by (intros ->; apply Hc; right; left). cbn [orb].
    rewrite andb_true_iff, bool_decide_eq_true, IH by done. split.
    + intros [<- (rest & ->)]. by exists rest.
    + intros (rest & E). injection E as -> ->. split; [done|]. by exists rest.
Qed.

Lemma subdag_cond_literal did i : literal did = true → subdag_cond did i = true ↔ i = did ∨ ∃ rest, i = did +:+ "." +:+ rest.
Proof. intros Hl. unfold subdag_cond. by rewrite orb_true_iff, bool_decide_eq_true, like_literal. Qed.

(** A DAG and what is below it. *)
Definition related (did i : string) : Prop := i = did ∨ ∃ rest, i = did +:+ "." +:+ rest.

(** Deleting a DAG that is no sub-DAG removes exactly the rows of the DAG and of
    the ids below it from every table, except the log if it is to be kept; a DAG that
    is not there is an error. *)
Lemma delete_dag_correct did keep db dag : literal did = true → find_row did (db_dags db) = Some dag → row_is_subdag dag = false →
  ∃ db' n, delete_dag did keep db = Ok (db', n) ∧
    (∀ r, r ∈ db_dags db' ↔ r ∈ db_dags db ∧ ¬ related did (row_id r)) ∧
    (db_tables db').*1 = (db_tables db).*1 ∧
    ∀ i name rows rows', db_tables db !! i = Some (name, rows) → db_tables db' !! i = Some (name, rows') →
      if keep && (name ≟ "Log") then rows' = rows else ∀ r, r ∈ rows' ↔ r ∈ rows ∧ ¬ related did (ar_dag_id r).
Proof.
  intros Hlit Hdag Hsub. unfold delete_dag. rewrite Hdag. cbn [delete_from]. rewrite Hsub. cbn [mbind result_bind].
  eexists _, _. split; [done|]. cbn [db_dags db_tables].
  assert (∀ i, negb (subdag_cond did i) = true ↔ ¬ related did i) as Hcond.
  { intros i. rewrite negb_true_iff, <-not_true_iff_false, subdag_cond_literal by done. done. }
  split_and!.
  - intros r. rewrite elem_of_filterb, Hcond. tauto.
  - rewrite <-!list_fmap_compose. apply list_fmap_ext. intros _ [name rows] _. cbn. by repeat case_ifs.
  - intros i name rows rows' Hi. rewrite !list_lookup_fmap, Hi. cbn [fmap option_fmap option_map fst snd].
    destruct (keep && (name ≟ "Log")) eqn:E.
    + apply andb_true_iff in E as [-> ->%bool_decide_eq_true]. by intros [= <-].
    + destruct (name ≟ "SerializedDagModel"); cbn [fst snd]; rewrite E; cbn [negb delete_rows fst snd]; intros [= <-] r;
        rewrite !elem_of_filterb, ?Hcond; [|tauto].
      rewrite negb_true_iff, bool_decide_eq_false. unfold related. naive_solver.
Qed.

(** ** Samples *)

Module DagApiSample.
Import Sample CreateSample DagSyncSample.
Local Open Scope Z_scope.

Definition bag_dag_sample : BagDag :=
  {| b_dag := every_100; b_subdags := [mk_dag "diamond.s" []]; b_default_start_date := Some 0; b_hash := Some "h" |}.
Definition sample_bag (did : string) : result (option BagDag) :=
  if did ≟ "diamond" then Ok (Some bag_dag_sample) else Err SerializedDagNotFound.
Definition iso (d : datetime) : string := if d =? 3000000 then "1970-01-01T00:00:03" else "1970".
Definition api_session : Session := mk_session [] [manual_run].

Lemma subdag_ready : dag_ready no_cron (mk_dag "diamond.s" []).
Proof. split; [by intros t ?%elem_of_nil|]. by intros now [d|]. Qed.

(** A reader of the JSON texts that are used here. *)
Definition loads_sample (text : string) : option nat := if text ≟ "{}" then Some 0%nat else None.

Lemma trigger_dag_correct_witness :
  let d := trigger_date (Some 3000456) true api_session in
  let rid := trigger_id iso None d in
  match _trigger_dag loads_sample (λ t, t) iso sample_bag "diamond" None (Some (ConfText "{}")) (Some 3000456) true true api_session with
  | Ok (triggers, s') =>
      Forall2 (triggered d rid) (b_dag bag_dag_sample :: b_subdags bag_dag_sample) triggers.*1 ∧ dag_run s' = dag_run api_session ++ triggers.*1
  | Err e => False
  end.
Proof.
  pose proof (trigger_dag_correct loads_sample no_cron (λ t, t) iso sample_bag "diamond" None (Some (ConfText "{}")) (Some 3000456) true true api_session) as H.
  destruct (_trigger_dag _ _ _ _ _ _ _ _ _ _ _) as [[triggers s']|e] eqn:E.
  - cbv zeta in H. assert (sample_bag "diamond" = Ok (Some bag_dag_sample)) as Hb by done. rewrite Hb in H.
    destruct H as (_ & _ & _ & _ & H1 & _ & H2 & _); [|by split].
    intros b [= <-]. split; [done|]. split; [apply (bool_decide_unpack _); by vm_compute|].
    intros dag [->|[->|?%elem_of_nil]%elem_of_cons]%elem_of_cons; [apply every_100_ready|apply subdag_ready|done].
  - vm_compute in E. discriminate E.
Defined.

Abbreviation trigger_sample run_id conf date replace :=
  ((λ x : list (DagRun * option (RunConf nat)) * Session,
      (λ r : DagRun * option (RunConf nat), (DR.dag_id r.1, DR.execution_date r.1, DR.run_id r.1, DR.start_date r.1, r.2)) <$> x.1) <$>
     _trigger_dag loads_sample (λ t, t) iso sample_bag "diamond" run_id conf date true replace api_session).
Example sample_trigger :
  trigger_sample None (Some (ConfText "{}")) (Some 3000456) true =
  Ok [("diamond", 3000000, Some "manual__1970-01-01T00:00:03", None, Some (LoadedConf 0%nat));
      ("diamond.s", 3000000, Some "manual__1970-01-01T00:00:03", None, Some (LoadedConf 0%nat))].
Proof. by vm_compute. Qed.

(** A configuration that is no JSON is refused. *)
Example bad_conf_refused : trigger_sample None (Some (ConfText "{")) (Some 3000456) true = Err ValueError.
Proof. by vm_compute. Qed.

(** A second run for the same date with another id is refused by the database. *)
Example same_date_refused :
  trigger_sample (Some "mine") None (Some 1000) false = Err DBAPIError.
Proof. by vm_compute. Qed.

(** Deleting a DAG deletes the sub-DAGs of another one whose id matches the
    pattern. *)
Definition api_db : ApiDb :=
  {| db_dags := [{| model := mk_dm "my_dag"; root_dag_id := None; row_is_subdag := false; last_parsed_time := None; row_last_expired := None;
                    owners := None; default_view := None; description := None; row_schedule_interval := None; row_tags := [] |}];
     db_tables := [("DagRun", [{| ar_dag_id := "my_dag"; ar_task_id := None |}; {| ar_dag_id := "my-dag.sub"; ar_task_id := None |};
                               {| ar_dag_id := "my-dag"; ar_task_id := None |}])];
     db_import_errors := [] |}.
Example wildcard_in_dag_id :
  (λ x : ApiDb * Z, ((λ t : string * list ApiRow, ar_dag_id <$> t.2) <$> db_tables x.1, x.2)) <$> delete_dag "my_dag" true api_db = Ok ([["my-dag"]], 3).
Proof. by vm_compute. Qed.

Example default_pool_stays : delete_pool "default_pool" api_session = Err AirflowBadRequest.
Proof. by vm_compute. Qed.
End DagApiSample.
