(* ===== verification/Url.v ===== *)
(** * Url: texts, dictionaries of texts and URIs

    What the sources use of Python's texts, of dictionaries whose keys are texts, and of
    [urllib.parse]: percent encoding, query strings and the parts of a URI.  A text
    is the list of the bytes of its UTF-8 form; lower and upper case are those of the
    ASCII letters.  The theorems say that what is quoted is read back and that a URI
    falls into the parts it was made of. *)

From S2P Require Import Prelude.
From Stdlib Require Import Ascii.
From stdpp Require Import strings.

Module Url.
Local Open Scope Z_scope.
Local Open Scope char_scope.

Definition Text := list ascii.
Definition text (s : string) : Text := String.list_ascii_of_string s.

(** ** Characters *)

Definition code_of (c : ascii) : Z := Z.of_N (N_of_ascii c).
Definition char_of (n : Z) : ascii := ascii_of_N (Z.to_N n).
Definition between (lo hi c : ascii) : bool := ((code_of lo <=? code_of c) && (code_of c <=? code_of hi))%Z.
Definition is_upper (c : ascii) : bool := between "A" "Z" c.
Definition is_lower (c : ascii) : bool := between "a" "z" c.
Definition is_digit (c : ascii) : bool := between "0" "9" c.
Definition lower_char (c : ascii) : ascii := if is_upper c then char_of (code_of c + 32) else c.
Definition lower (s : Text) : Text := lower_char <$> s.
Definition upper_char (c : ascii) : ascii := if is_lower c then char_of (code_of c - 32) else c.
Definition upper (s : Text) : Text := upper_char <$> s.
Definition replace_char (old new : ascii) (s : Text) : Text := (λ c, if c ≟ old then new else c) <$> s.

(** White space of ASCII. *)
Definition is_space (c : ascii) : bool := (c ∈? [" "; "009"; "010"; "011"; "012"; "013"; "028"; "029"; "030"; "031"]).

(** The rest of a text after a prefix, and [sub in s]. *)
Fixpoint starts_with (p s : Text) : option Text :=
  match p, s with
  | [], s => Some s
  | a :: p, b :: s => if a ≟ b then starts_with p s else None
  | _ :: _, [] => None
  end.
Fixpoint contains (sub s : Text) : bool :=
  match starts_with sub s with
  | Some _ => true
  | None => match s with [] => false | _ :: s' => contains sub s' end
  end.

Fixpoint lstrip (s : Text) : Text := match s with c :: s' => if is_space c then lstrip s' else s | [] => [] end.
Definition strip (s : Text) : Text := reverse (lstrip (reverse (lstrip s))).

(** [s.partition(c)]: the text before and after the first [c]. *)
Fixpoint partition (c : ascii) (s : Text) : Text * option Text :=
  match s with
  | [] => ([], None)
  | x :: s => if x ≟ c then ([], Some s) else let (a, b) := partition c s in (x :: a, b)
  end.
(** [s.rpartition(c)]: before and after the last one. *)
Fixpoint rpartition (c : ascii) (s : Text) : option Text * Text :=
  match s with
  | [] => (None, [])
  | x :: s =>
      match rpartition c s with
      | (Some a, b) => (Some (x :: a), b)
      | (None, b) => if x ≟ c then (Some [], b) else (None, x :: b)
      end
  end.

(** ** [urllib.parse] *)

Definition hex_digit (n : Z) : ascii := if (n <? 10)%Z then char_of (48 + n) else char_of (55 + n).
Definition hex_value (c : ascii) : option Z :=
  if is_digit c then Some (code_of c - 48)%Z
  else if between "A" "F" c then Some (code_of c - 55)%Z
  else if between "a" "f" c then Some (code_of c - 87)%Z
  else None.

Definition always_safe (c : ascii) : bool := is_upper c || is_lower c || is_digit c || (c ∈? ["_"; "."; "-"; "~"]).

(** [quote(s, safe='')]. *)
Definition quote_char (c : ascii) : Text :=
  if always_safe c then [c] else ["%"; hex_digit (code_of c / 16); hex_digit (code_of c mod 16)].
Definition quote (s : Text) : Text := s ≫= quote_char.

Fixpoint unquote (s : Text) : Text :=
  match s with
  | [] => []
  | c :: s1 =>
      match s1 with
      | a :: b :: rest =>
          if c ≟ "%" then
            match hex_value a, hex_value b with
            | Some x, Some y => char_of (16 * x + y) :: unquote rest
            | _, _ => c :: unquote s1
            end
          else c :: unquote s1
      | _ => c :: unquote s1
      end
  end.

Definition quote_plus (s : Text) : Text := s ≫= λ c, if c ≟ " " then ["+"] else quote_char c.
Definition unquote_plus (s : Text) : Text := unquote (replace_char "+" " " s).

(** [sep.join(l)] and [s.split(sep)]. *)
Fixpoint join (sep : ascii) (l : list Text) : Text :=
  match l with
  | [] => []
  | [x] => x
  | x :: l => x ++ sep :: join sep l
  end.
Fixpoint split (sep : ascii) (s : Text) : list Text :=
  match s with
  | [] => [[]]
  | c :: s =>
      if c ≟ sep then [] :: split sep s
      else match split sep s with x :: l => (c :: x) :: l | [] => [[c]] end
  end.

Definition urlencode (query : list (Text * Text)) : Text :=
  join "&" ((λ e, quote_plus e.1 ++ "=" :: quote_plus e.2) <$> query).

(** [parse_qsl(query, keep_blank_values=True)]. *)
Definition parse_qsl (query : Text) : list (Text * Text) :=
  (λ name_value, let (n, v) := partition "=" name_value in (unquote_plus n, unquote_plus (default [] v))) <$>
    List.filter (λ x, match x with [] => false | _ => true end) (split "&" query).

(** A text until the first of some characters. *)
Fixpoint until (stop : ascii → bool) (s : Text) : Text * Text :=
  match s with
  | [] => ([], [])
  | c :: s' => if stop c then ([], s) else let (a, b) := until stop s' in (c :: a, b)
  end.

Record ParseResult := {
  scheme : Text;
  netloc : Text;
  path : Text;
  query : Text;
}.

Definition scheme_char (c : ascii) : bool := is_upper c || is_lower c || is_digit c || (c ∈? ["+"; "-"; "."]).

(** [uses_params]: the parameters of a path after a semicolon are only split off
    for these schemes. *)
Definition uses_params : list Text :=
  text <$> [""; "ftp"; "hdl"; "prospero"; "http"; "https"; "shttp"; "rtsp"; "rtspu"; "sip"; "sips"; "mms"; "sftp"; "tel"]%string.

Definition _splitparams (url : Text) : Text :=
  match rpartition "/" url with
  | (Some a, b) => a ++ "/" :: (partition ";" b).1
  | (None, b) => (partition ";" b).1
  end.

(** [urlparse] of a text without tabs and line breaks. *)
Definition urlparse (url : Text) : result ParseResult :=
  let (scheme, url) :=
    match partition ":" url with
    | (s, Some rest) => if negb (s ≟ []) && forallb scheme_char s then (lower s, rest) else ([], url)
    | (_, None) => ([], url)
    end in
  let (netloc, url) :=
    match url with
    | "/" :: "/" :: rest => until (λ c, c ∈? ["/"; "?"; "#"]) rest
    | _ => ([], url)
    end in
  if Bool.eqb ("[" ∈? netloc) ("]" ∈? netloc) then
    let url := (partition "#" url).1 in
    let (path, query) := partition "?" url in
    Ok {| scheme := scheme; netloc := netloc;
          path := if (scheme ∈? uses_params) && (";" ∈? path) then _splitparams path else path;
          query := default [] query |}
  else Err ValueError.

(** The properties of the result. *)
Definition userinfo (r : ParseResult) : option Text * option Text :=
  match rpartition "@" (netloc r) with
  | (Some info, _) => let (username, password) := partition ":" info in (Some username, password)
  | (None, _) => (None, None)
  end.

Definition hostinfo (r : ParseResult) : Text * Text :=
  let hostinfo := (rpartition "@" (netloc r)).2 in
  match partition "[" hostinfo with
  | (_, Some bracketed) =>
      let (hostname, port) := partition "]" bracketed in (hostname, default [] (partition ":" (default [] port)).2)
  | (_, None) => let (hostname, port) := partition ":" hostinfo in (hostname, default [] port)
  end.

(** Only the text before a percent sign becomes lower case. *)
Definition hostname (r : ParseResult) : Text :=
  match partition "%" (hostinfo r).1 with
  | (host, Some zone) => lower host ++ "%" :: zone
  | (host, None) => lower host
  end.

(** [int(port, 10)] of digits. *)
Definition parse_int (s : Text) : option Z :=
  if negb (s ≟ []) && forallb is_digit s then Some (foldl (λ n c, 10 * n + (code_of c - 48))%Z 0%Z s) else None.

Definition port_of (r : ParseResult) : result (option Z) :=
  match (hostinfo r).2 with
  | [] => Ok None
  | p =>
      match parse_int p with
      | Some n => if (n <=? 65535)%Z then Ok (Some n) else Err ValueError
      | None => Err ValueError
      end
  end.

(** [str(n)] of a number in 32 bits, which has at most ten digits. *)
Fixpoint str_digits (digits : nat) (n : Z) : Text :=
  match digits with
  | O => []
  | S digits => (if (n <? 10)%Z then [] else str_digits digits (n / 10)) ++ [char_of (48 + n mod 10)]
  end.
Definition str_int (n : Z) : Text := if (n <? 0)%Z then "-" :: str_digits 10 (- n) else str_digits 10 n.

(** Dictionaries of texts. *)
Definition tget {V} (k : Text) (d : list (Text * V)) : option V := snd <$> List.find (λ e, e.1 ≟ k) d.
Definition tset {V} (k : Text) (v : V) (d : list (Text * V)) : list (Text * V) :=
  if existsb (λ e, e.1 ≟ k) d then (λ e, if e.1 ≟ k then (k, v) else e) <$> d else d ++ [(k, v)].
Definition tdict {V} (l : list (Text * V)) : list (Text * V) := foldl (λ d e, tset e.1 e.2 d) [] l.
End Url.

Import Url.

(** ** Percent encoding *)
Section UrlFacts.
Local Open Scope Z_scope.
Local Open Scope char_scope.
Implicit Types (s t : Text) (c : ascii).

(** A statement about all characters is checked on each. *)
Ltac all_chars := intros [[] [] [] [] [] [] [] []]; vm_compute; done.

Definition quoted_char c : bool := always_safe c || (c ≟ "%").

Lemma quote_char_quoted c : forallb quoted_char (quote_char c) = true.
Proof. revert c. all_chars. Qed.

Lemma quote_char_back c : always_safe c = false →
  hex_value (hex_digit (code_of c / 16)) = Some (code_of c / 16)%Z ∧ hex_value (hex_digit (code_of c mod 16)) = Some (code_of c mod 16)%Z ∧
  char_of (16 * (code_of c / 16) + code_of c mod 16) = c.
Proof. revert c. all_chars. Qed.

Lemma safe_not_percent c : always_safe c = true → c ≠ "%".
Proof. by intros H ->. Qed.

Lemma quote_elem s x : x ∈ quote s → quoted_char x = true.
Proof.
  unfold quote. rewrite list_elem_of_bind. intros (c & Hx & _). pose proof (quote_char_quoted c) as Hq.
  rewrite forallb_elem in Hq. by apply Hq.
Qed.

Lemma unquote_other c t : c ≠ "%" → unquote (c :: t) = c :: unquote t.
Proof. intros Hc. cbn [unquote]. destruct t as [|a [|b t]]; [done|done|]. by rewrite bool_decide_eq_false_2. Qed.

Lemma unquote_char c t : unquote (quote_char c ++ t) = c :: unquote t.
Proof.
  unfold quote_char. destruct (always_safe c) eqn:E; [by apply unquote_other, safe_not_percent|].
  destruct (quote_char_back c E) as (Ha & Hb & Hc). cbn [app unquote]. rewrite bool_decide_eq_true_2 by done. by rewrite Ha, Hb, Hc.
Qed.

Lemma unquote_quote s : unquote (quote s) = s.
Proof. induction s as [|c s IH]; [done|]. unfold quote. rewrite bind_cons, unquote_char. f_equal. exact IH. Qed.

Lemma quote_nil s : quote s = [] ↔ s = [].
Proof.
  split; [|by intros ->]. destruct s as [|c s]; [done|]. unfold quote. rewrite bind_cons. unfold quote_char. by destruct (always_safe c).
Qed.

Lemma replace_plus c t : c ≠ " " → replace_char "+" " " (quote_char c ++ t) = quote_char c ++ replace_char "+" " " t.
Proof.
  intros _. unfold replace_char. rewrite fmap_app. f_equal. revert c. all_chars.
Qed.

Lemma unquote_plus_quote_plus s : unquote_plus (quote_plus s) = s.
Proof.
  unfold unquote_plus, quote_plus. induction s as [|c s IH]; [done|]. rewrite bind_cons. destruct (c ≟ " ") eqn:E.
  - apply bool_decide_eq_true in E as ->. cbn [app]. unfold replace_char in *. rewrite fmap_cons, bool_decide_eq_true_2 by done.
    rewrite unquote_other by done. by rewrite IH.
  - rewrite replace_plus by (by apply bool_decide_eq_false in E). by rewrite unquote_char, IH.
Qed.

Lemma quote_plus_elem s x : x ∈ quote_plus s → quoted_char x = true ∨ x = "+".
Proof.
  unfold quote_plus. rewrite list_elem_of_bind. intros (c & Hx & _). destruct (c ≟ " "); [right; by apply list_elem_of_singleton in Hx|left].
  pose proof (quote_char_quoted c) as Hq. rewrite forallb_elem in Hq. by apply Hq.
Qed.
End UrlFacts.

(** ** Cutting texts *)
Section CutFacts.
Local Open Scope char_scope.
Implicit Types (s t : Text) (c : ascii).

Lemma partition_at c s t : c ∉ s → partition c (s ++ c :: t) = (s, Some t).
Proof.
  induction s as [|x s IH]; intros Hc; cbn.
  - by rewrite bool_decide_eq_true_2.
  - apply not_elem_of_cons in Hc as [Hx Hc]. rewrite bool_decide_eq_false_2 by congruence. by rewrite IH.
Qed.

Lemma partition_none c s : c ∉ s → partition c s = (s, None).
Proof.
  induction s as [|x s IH]; intros Hc; cbn; [done|]. apply not_elem_of_cons in Hc as [Hx Hc].
  rewrite bool_decide_eq_false_2 by congruence. by rewrite IH.
Qed.

(** With or without the rest. *)
Definition some_after (c : ascii) (o : option Text) : Text := match o with Some t => c :: t | None => [] end.

Lemma partition_opt c s (o : option Text) : c ∉ s → partition c (s ++ some_after c o) = (s, o).
Proof. intros Hc. destruct o; cbn [some_after]; [by apply partition_at|]. rewrite app_nil_r. by apply partition_none. Qed.

Lemma partition_whole c s : s = (partition c s).1 ++ match (partition c s).2 with Some t => c :: t | None => [] end.
Proof.
  induction s as [|x s IH]; [done|]. cbn. destruct (x ≟ c) eqn:E; [by apply bool_decide_eq_true in E as ->|].
  destruct (partition c s) as [a b]. cbn in *. by f_equal.
Qed.

Lemma rpartition_none c s : c ∉ s → rpartition c s = (None, s).
Proof.
  induction s as [|x s IH]; intros Hc; cbn; [done|]. apply not_elem_of_cons in Hc as [Hx Hc]. rewrite IH by done.
  by rewrite bool_decide_eq_false_2.
Qed.

Lemma rpartition_at c s t : c ∉ t → rpartition c (s ++ c :: t) = (Some s, t).
Proof.
  intros Hc. induction s as [|x s IH]; cbn.
  - by rewrite rpartition_none, bool_decide_eq_true_2.
  - by rewrite IH.
Qed.

Lemma until_all stop s t : (∀ x, x ∈ s → stop x = false) → match t with [] => True | c :: _ => stop c = true end → until stop (s ++ t) = (s, t).
Proof.
  intros Hs Ht. induction s as [|x s IH]; cbn.
  - destruct t as [|c t]; [done|]. cbn. by rewrite Ht.
  - rewrite (Hs x) by left. rewrite IH; [done|]. intros y Hy. apply Hs. by right.
Qed.

Lemma starts_with_app (p s : Text) : starts_with p (p ++ s) = Some s.
Proof. induction p as [|a p IH]; [done|]. cbn. by rewrite bool_decide_eq_true_2. Qed.

Lemma starts_with_Some (p s r : Text) : starts_with p s = Some r → s = p ++ r.
Proof.
  revert s. induction p as [|a p IH]; intros s; cbn; [by intros [= ->]|]. destruct s as [|b s]; [done|].
  destruct (bool_decide_reflect (a = b)) as [->|]; [|done]. intros ->%IH. done.
Qed.

Lemma split_none c s : c ∉ s → split c s = [s].
Proof.
  induction s as [|x s IH]; intros Hc; cbn; [done|]. apply not_elem_of_cons in Hc as [Hx Hc].
  rewrite bool_decide_eq_false_2 by congruence. by rewrite IH.
Qed.

Lemma split_at c s t : c ∉ s → split c (s ++ c :: t) = s :: split c t.
Proof.
  induction s as [|x s IH]; intros Hc; cbn.
  - by rewrite bool_decide_eq_true_2.
  - apply not_elem_of_cons in Hc as [Hx Hc]. rewrite bool_decide_eq_false_2 by congruence. by rewrite IH.
Qed.

Lemma split_join c l : l ≠ [] → (∀ x, x ∈ l → c ∉ x) → split c (join c l) = l.
Proof.
  induction l as [|x [|y l] IH]; intros Hl Hc; [done| |].
  - cbn. apply split_none. apply Hc. left.
  - change (join c (x :: y :: l)) with (x ++ c :: join c (y :: l)). rewrite split_at by (apply Hc; left).
    rewrite IH; [done..|]. intros z Hz. apply Hc. by right.
Qed.

(** Query strings. *)
Lemma delimiter_not_quoted (x : ascii) s : x ∈ ["&"; "="; "?"; "#"; "/"; "@"; ":"; "["; "]"; ";"] → x ∉ quote s.
Proof. intros Hx Hq%quote_elem. revert Hq. repeat (apply elem_of_cons in Hx as [->|Hx]; [by vm_compute|]). by apply elem_of_nil in Hx. Qed.

Lemma delimiter_not_quoted_plus (x : ascii) s : x ∈ ["&"; "="; "?"; "#"; "/"; "@"; ":"; "["; "]"; ";"] → x ∉ quote_plus s.
Proof.
  intros Hx [Hq|Hq]%quote_plus_elem; revert Hq; (repeat (apply elem_of_cons in Hx as [->|Hx]; [by vm_compute|])); by apply elem_of_nil in Hx.
Qed.

Lemma parse_urlencode (items : list (Text * Text)) : parse_qsl (urlencode items) = items.
Proof.
  unfold urlencode. set (pieces := (λ e, quote_plus e.1 ++ "=" :: quote_plus e.2) <$> items).
  destruct (decide (items = [])) as [->|Hne]; [done|]. unfold parse_qsl. rewrite split_join.
  - rewrite filterb_all.
    + unfold pieces. rewrite <-list_fmap_compose. rewrite <-(list_fmap_id items) at 2. apply list_fmap_ext. intros _ [k v] _.
      cbn [compose fst snd]. rewrite partition_at by (apply delimiter_not_quoted_plus; set_solver). simpl.
      by rewrite !unquote_plus_quote_plus.
    + intros x (e & -> & _)%list_elem_of_fmap. by destruct (quote_plus e.1).
  - unfold pieces. by destruct items.
  - intros x (e & -> & _)%list_elem_of_fmap [H|[H|H]%elem_of_cons]%elem_of_app; [|done|];
      by apply delimiter_not_quoted_plus in H; [|set_solver].
Qed.

(** Dictionaries. *)
Lemma tset_new {V} k (v : V) d : k ∉ d.*1 → tset k v d = d ++ [(k, v)].
Proof.
  intros Hk. unfold tset. destruct (existsb _ d) eqn:E; [|done]. apply existsb_elem in E as (e & He & Hek%bool_decide_eq_true).
  destruct Hk. rewrite <-Hek. apply list_elem_of_fmap. by exists e.
Qed.

Lemma tdict_NoDup {V} (l : list (Text * V)) : NoDup l.*1 → tdict l = l.
Proof.
  unfold tdict. assert (∀ acc, NoDup (acc ++ l).*1 → foldl (λ d e, tset e.1 e.2 d) acc l = acc ++ l) as Hg.
  { induction l as [|[k v] l IH]; intros acc; [by rewrite app_nil_r|]. intros Hd. cbn [foldl fst snd]. rewrite tset_new.
    - rewrite IH; rewrite <-app_assoc; done.
    - rewrite fmap_app, NoDup_app in Hd. destruct Hd as (_ & Hd & _). intros Hk. destruct (Hd k Hk). left. }
  intros Hd. by apply (Hg []).
Qed.

Lemma tget_NoDup {V} k (v : V) d : NoDup d.*1 → (k, v) ∈ d → tget k d = Some v.
Proof.
  unfold tget. induction d as [|[k' w] d IH]; [by intros _ ?%elem_of_nil|]. cbn [fmap list_fmap fst].
  intros [Hk Hd]%NoDup_cons [[= -> ->]|Hin]%elem_of_cons; cbn [List.find fst]; [by rewrite bool_decide_eq_true_2|].
  rewrite bool_decide_eq_false_2; [auto|]. intros ->. apply Hk, list_elem_of_fmap. by exists (k, v).
Qed.

Lemma tget_None {V} k (d : list (Text * V)) : k ∉ d.*1 → tget k d = None.
Proof.
  unfold tget. intros Hk. destruct (List.find _ d) as [e|] eqn:E; [|done].
  apply List.find_some in E as [He%list_elem_of_In Hek%bool_decide_eq_true]. destruct Hk. rewrite <-Hek. apply list_elem_of_fmap. by exists e.
Qed.

Lemma tget_cons {V} k k' (v : V) d : tget k ((k', v) :: d) = if k' ≟ k then Some v else tget k d.
Proof. unfold tget. cbn. by destruct (k' ≟ k). Qed.

Lemma tget_app {V} k (d1 d2 : list (Text * V)) : tget k (d1 ++ d2) = match tget k d1 with Some v => Some v | None => tget k d2 end.
Proof. induction d1 as [|[k' v] d1 IH]; [done|]. cbn [app]. rewrite !tget_cons, IH. by destruct (k' ≟ k). Qed.

Lemma tget_tset {V} k k' (v : V) d : tget k (tset k' v d) = if k' ≟ k then Some v else tget k d.
Proof.
  unfold tset. destruct (existsb _ d) eqn:E.
  - assert (k' = k → tget k d ≠ None) as Hk.
    { intros ->. unfold tget. destruct (List.find _ d) eqn:F; [done|]. apply existsb_elem in E as (e & He & Hek).
      apply list_elem_of_In in He. by rewrite (List.find_none _ _ F e He) in Hek. }
    clear E. induction d as [|[k0 w] d IH]; [case_bool_decide as E; [by destruct (Hk E)|done]|]. rewrite fmap_cons. cbn [fst].
    rewrite (tget_cons k k0 w) in *. destruct (bool_decide_reflect (k0 = k')) as [->|Hne]; rewrite tget_cons.
    + destruct (bool_decide_reflect (k' = k)) as [->|Hne]; [done|]. by rewrite IH by done.
    + destruct (bool_decide_reflect (k0 = k)) as [->|Hne']; [by rewrite bool_decide_eq_false_2 by congruence|by apply IH].
  - rewrite tget_app, tget_cons. case_bool_decide as Hk; [subst k'|by destruct (tget k d)].
    destruct (tget k d) as [w|] eqn:F; [|done]. unfold tget in F. destruct (List.find _ d) as [e|] eqn:G; [|done].
    apply List.find_some in G as [G1%list_elem_of_In G2]. by rewrite (proj2 (existsb_elem _ _)) in E by eauto.
Qed.

Lemma tget_foldl_tset {V W} (f : V → W) k (l : list (Text * V)) acc : NoDup l.*1 →
  tget k (foldl (λ (d : list (Text * W)) o, tset o.1 (f o.2) d) acc l) = match tget k l with Some v => Some (f v) | None => tget k acc end.
Proof.
  revert acc. induction l as [|[k' v] l IH]; intros acc; [done|]. cbn [fmap list_fmap fst foldl snd]. intros [Hk Hl]%NoDup_cons.
  rewrite IH, tget_tset, tget_cons by done. destruct (bool_decide_reflect (k' = k)) as [->|]; [|done]. by rewrite tget_None.
Qed.

(** Numbers. *)
Lemma digit_char n : (0 ≤ n < 10)%Z → is_digit (char_of (48 + n)) = true ∧ code_of (char_of (48 + n)) = (48 + n)%Z.
Proof.
  intros Hn. assert (n ∈ seqZ 0 10) as Hin by (apply elem_of_seqZ; lia). revert n Hin Hn.
  assert (Forall (λ n, is_digit (char_of (48 + n)) = true ∧ code_of (char_of (48 + n)) = (48 + n)%Z) (seqZ 0 10)) as H.
  { cbn. repeat constructor. }
  intros n Hin _. rewrite Forall_forall in H. by apply H.
Qed.

Lemma str_digits_back k n : (0 ≤ n < 10 ^ Z.of_nat k)%Z →
  forallb is_digit (str_digits k n) = true ∧ foldl (λ m c, 10 * m + (code_of c - 48))%Z 0%Z (str_digits k n) = n ∧
  (0 < k → str_digits k n ≠ []).
Proof.
  revert n. induction k as [|k IH]; intros n Hn.
  - cbn in *. split_and!; [done|lia|lia].
  - pose proof (Z.mod_pos_bound n 10 ltac:(lia)) as Hm. pose proof (Z.div_mod n 10 ltac:(lia)) as Hdm.
    destruct (digit_char (n mod 10) Hm) as [Hd Hc]. cbn [str_digits]. rewrite forallb_app, foldl_app. cbn [forallb foldl].
    rewrite Hd, Hc. destruct (n <? 10)%Z eqn:E; [apply Z.ltb_lt in E|apply Z.ltb_ge in E].
    + cbn [app forallb foldl andb]. rewrite Z.mod_small by lia. split_and!; [done|lia|done].
    + assert (0 ≤ n / 10 < 10 ^ Z.of_nat k)%Z as Hk.
      { split; [apply Z.div_pos; lia|]. apply Z.div_lt_upper_bound; [lia|]. replace (Z.of_nat (S k)) with (Z.of_nat k + 1)%Z in Hn by lia.
        rewrite Z.pow_add_r in Hn by lia. lia. }
      destruct (IH _ Hk) as (H1 & H2 & _). rewrite H1, H2. split_and!; [done|lia|]. intros _ [_ ?]%app_eq_nil. done.
Qed.

Lemma parse_str_int n : (0 ≤ n < 10 ^ 10)%Z → parse_int (str_int n) = Some n ∧ str_int n ≠ [] ∧ forallb is_digit (str_int n) = true.
Proof.
  intros Hn. unfold str_int. rewrite (proj2 (Z.ltb_ge _ _)) by lia. destruct (str_digits_back 10 n Hn) as (H1 & H2 & H3).
  unfold parse_int. rewrite H1, H2. specialize (H3 ltac:(lia)). by rewrite bool_decide_eq_false_2.
Qed.
End CutFacts.

(** ** The parts of a URI *)
Section UriFacts.
Local Open Scope Z_scope.
Local Open Scope char_scope.
Implicit Types (s t h : Text) (c : ascii).

Ltac all_chars := intros [[] [] [] [] [] [] [] []]; vm_compute; done.

(** The characters of a connection type that a scheme can carry: no hyphen, which
    stands for the underscore there. *)
Definition type_char c : bool := is_lower c || is_digit c || (c ∈? ["_"; "+"; "."]).
Definition to_scheme c : ascii := if c ≟ "_" then "-" else c.
Definition from_scheme c : ascii := if c ≟ "-" then "_" else c.

Lemma type_char_facts c : type_char c = true →
  lower_char c = c ∧ scheme_char (to_scheme c) = true ∧ lower_char (to_scheme c) = to_scheme c ∧ from_scheme (to_scheme c) = c ∧
  to_scheme c ≠ ":".
Proof. revert c. all_chars. Qed.

Lemma map_id_on (f : ascii → ascii) s : (∀ x, x ∈ s → f x = x) → f <$> s = s.
Proof.
  induction s as [|x s IH]; intros H; [done|]. rewrite fmap_cons, (H x) by left. f_equal. apply IH. intros y Hy. apply H. by right.
Qed.

Lemma scheme_of_type t : t ≠ [] → forallb type_char t = true →
  lower t = t ∧
  let S := replace_char "_" "-" t in
  S ≠ [] ∧ forallb scheme_char S = true ∧ lower S = S ∧ replace_char "-" "_" S = t ∧ ":" ∉ S.
Proof.
  intros Ht Hc. rewrite forallb_elem in Hc. split; [apply map_id_on; intros x Hx; by apply type_char_facts, Hc|].
  cbv zeta. unfold replace_char. split_and!.
  - by destruct t.
  - apply forallb_elem. intros x (y & -> & Hy)%list_elem_of_fmap. by apply type_char_facts, Hc.
  - apply map_id_on. intros x (y & -> & Hy)%list_elem_of_fmap. by apply (type_char_facts y), Hc.
  - rewrite <-list_fmap_compose. apply map_id_on. intros x Hx. by apply (type_char_facts x), Hc.
  - intros (y & Hy & Hin)%list_elem_of_fmap. by apply (type_char_facts y (Hc y Hin)).
Qed.

(** A URI with the four parts that a connection has. *)
Definition uri_of (scheme netloc : Text) (path query : option Text) : Text :=
  scheme ++ text "://" ++ netloc ++ some_after "/" path ++ some_after "?" query.

Lemma urlparse_uri_of S N (p q : option Text) :
  S ≠ [] → forallb scheme_char S = true → lower S = S → ":" ∉ S →
  (∀ c, c ∈ ["/"; "?"; "#"; "["; "]"] → c ∉ N) →
  (∀ c, c ∈ ["?"; "#"; ";"] → c ∉ default [] p) → "#" ∉ default [] q →
  urlparse (uri_of S N p q) = Ok {| scheme := S; netloc := N; path := some_after "/" p; query := default [] q |}.
Proof.
  intros HS Hc Hl Hcolon HN Hp Hq. unfold urlparse, uri_of. change (text "://") with [":"; "/"; "/"]. cbn [app].
  rewrite partition_at by done. rewrite bool_decide_eq_false_2 by done. rewrite Hc, Hl. cbn [andb negb].
  rewrite until_all.
  - rewrite !bool_decide_eq_false_2 by (apply HN; set_solver). cbn [Bool.eqb].
    rewrite (partition_none "#").
    2:{ intros [H|H]%elem_of_app; [destruct p|destruct q]; cbn in H; try (by apply elem_of_nil in H); apply elem_of_cons in H as [H|H]; try done.
        by apply (Hp "#"); [set_solver|]. }
    cbn [fst]. assert (∀ c, c ∈ ["?"; ";"] → c ∉ some_after "/" p) as Hp'.
    { intros c Hin. destruct p as [p|]; cbn [some_after]; [|apply not_elem_of_nil]. apply not_elem_of_cons. split; [set_solver|]. apply Hp. set_solver. }
    rewrite (partition_opt "?" (some_after "/" p) q) by (apply Hp'; set_solver).
    rewrite (bool_decide_eq_false_2 (";" ∈ _)) by (apply Hp'; set_solver). by rewrite andb_false_r.
  - intros x Hx. apply bool_decide_eq_false. intros Hin. apply (HN x); [set_solver|done].
  - by destruct p, q.
Qed.

(** The authority: who, where and on which port. *)
Definition netloc_of (info : option Text) (h : Text) (port : option Z) : Text :=
  match info with Some i => i ++ ["@"] | None => [] end ++ quote h ++ some_after ":" (str_int <$> port).

Lemma digits_plain c s : forallb is_digit s = true → is_digit c = false → c ∉ s.
Proof. intros Hs Hc Hin. rewrite forallb_elem in Hs. specialize (Hs c Hin). congruence. Qed.

Definition port_ok (port : option Z) : Prop := match port with Some p => (1 ≤ p ≤ 65535)%Z | None => True end.

Lemma port_text (port : option Z) : port_ok port →
  ∀ c, is_digit c = false → c ∉ default [] (str_int <$> port).
Proof.
  intros Hp c Hc. destruct port as [p|]; cbn in *; [|apply not_elem_of_nil].
  apply digits_plain; [|done]. apply parse_str_int. lia.
Qed.

Lemma host_port_plain h port : port_ok port →
  ∀ c, c ∈ ["@"; "/"; "?"; "#"; "["; "]"] → c ∉ quote h ++ some_after ":" (str_int <$> port).
Proof.
  intros Hp c Hc [H|H]%elem_of_app.
  - by apply delimiter_not_quoted in H; [|set_solver].
  - pose proof (port_text port Hp c) as Hd. destruct port as [p|]; cbn in *; [|by apply elem_of_nil in H].
    apply elem_of_cons in H as [->|H]; [set_solver|]. apply Hd; [|done]. clear -Hc.
    repeat (apply elem_of_cons in Hc as [->|Hc]; [done|]). by apply elem_of_nil in Hc.
Qed.

Lemma rpartition_netloc info h port : port_ok port →
  rpartition "@" (netloc_of info h port) = (info, quote h ++ some_after ":" (str_int <$> port)).
Proof.
  intros Hp. unfold netloc_of. assert ("@" ∉ quote h ++ some_after ":" (str_int <$> port)) as Hat by (apply host_port_plain; [done|set_solver]).
  destruct info as [i|]; [|by apply rpartition_none]. rewrite <-app_assoc. cbn [app]. by apply rpartition_at.
Qed.

Lemma hostinfo_netloc S info h port p q : port_ok port →
  hostinfo {| scheme := S; netloc := netloc_of info h port; path := p; query := q |} = (quote h, default [] (str_int <$> port)).
Proof.
  intros Hp. unfold hostinfo. cbn [netloc]. rewrite rpartition_netloc by done. cbn [snd].
  rewrite (partition_none "[") by (apply host_port_plain; [done|set_solver]).
  by rewrite partition_opt by (apply delimiter_not_quoted; set_solver).
Qed.

Lemma port_of_netloc S info h port p q : port_ok port →
  port_of {| scheme := S; netloc := netloc_of info h port; path := p; query := q |} = Ok port.
Proof.
  intros Hp. unfold port_of. rewrite hostinfo_netloc by done. cbn [snd]. destruct port as [n|]; [|done]. cbn in Hp |- *.
  destruct (parse_str_int n ltac:(lia)) as (Hn & Hne & _). destruct (str_int n) eqn:E; [done|]. rewrite Hn.
  by rewrite (proj2 (Z.leb_le n 65535)) by lia.
Qed.

(** The part of a quoted text that the host name's lower case touches is text of the
    host itself. *)
Lemma quote_prefix h x : x ∈ (partition "%" (quote h)).1 → x ∈ h.
Proof.
  induction h as [|c h IH]; [by intros ?%elem_of_nil|]. unfold quote in *. rewrite bind_cons. unfold quote_char at 1.
  destruct (always_safe c) eqn:E.
  - cbn [app partition]. rewrite bool_decide_eq_false_2 by (by apply safe_not_percent). destruct (partition _ _) as [a b]. cbn [fst] in *.
    intros [->|H]%elem_of_cons; [left|right; auto].
  - cbn [app partition]. rewrite bool_decide_eq_true_2 by done. by intros ?%elem_of_nil.
Qed.

Lemma lower_plain s : forallb (λ c, negb (is_upper c)) s = true → lower s = s.
Proof.
  intros Hs. rewrite forallb_elem in Hs. apply map_id_on. intros x Hx. specialize (Hs x Hx). unfold lower_char. by destruct (is_upper x).
Qed.

Lemma hostname_quoted S info h port p q : port_ok port → forallb (λ c, negb (is_upper c)) h = true →
  hostname {| scheme := S; netloc := netloc_of info h port; path := p; query := q |} = quote h.
Proof.
  intros Hp Hh. unfold hostname. rewrite hostinfo_netloc by done. cbn [fst].
  assert (lower (partition "%" (quote h)).1 = (partition "%" (quote h)).1) as Hl.
  { apply lower_plain, forallb_elem. intros x Hx%quote_prefix. rewrite forallb_elem in Hh. by apply Hh. }
  pose proof (partition_whole "%" (quote h)) as Hw. destruct (partition "%" (quote h)) as [a [b|]]; cbn [fst snd] in *; rewrite Hl, Hw;
    [done|by rewrite app_nil_r].
Qed.

End UriFacts.
