(* ===== verification/Connection.v ===== *)
(** * Connection: connections and their URIs

    [models/connection.py] and [models/crypto.py].  The JSON form of a dictionary and
    the encryption with a Fernet key are parameters, whose laws say that they can be
    undone. *)

From S2P Require Import Prelude Url.
From Stdlib Require Import Ascii.
From stdpp Require Import strings.
Import Url.

Module Connection.
Local Open Scope Z_scope.
Local Open Scope char_scope.

(** ** [models/crypto.py] *)

(** The protocol [FernetProtocol]; without a key nothing is encrypted. *)
Record Fernet := {
  fernet_is_encrypted : bool;
  encrypt : Text → Text;
  decrypt : Text → result Text;
  rotate : Text → result Text;
}.
Definition NullFernet : Fernet :=
  {| fernet_is_encrypted := false; encrypt := λ b, b; decrypt := λ b, Ok b; rotate := λ _, Err AttributeError |}.

(** [get_fernet]: [multi_fernet] is that of the [cryptography] package, which raises
    for keys that are not valid. *)
Definition get_fernet (fernet_key : Text) (multi_fernet : Text → option Fernet) : result Fernet :=
  match fernet_key with
  | [] => Ok NullFernet
  | _ => match multi_fernet fernet_key with Some f => Ok f | None => Err AirflowException end
  end.

(** ** Connections *)

Record Connection := {
  conn_type : option Text;
  host : option Text;
  schema : option Text;
  login : option Text;
  _password : option Text;
  port : option Z;
  is_encrypted : bool;
  is_extra_encrypted : bool;
  _extra : option Text;
}.

Definition new_connection : Connection :=
  {| conn_type := None; host := None; schema := None; login := None; _password := None; port := None; is_encrypted := false;
     is_extra_encrypted := false; _extra := None |}.

Definition truthy (o : option Text) : bool := match o with Some (_ :: _) => true | _ => false end.

(** A JSON document: an object whose values are texts or have a [str], or another
    value. *)
Inductive JsonValue := JText (t : Text) | JOther (str : Text).
Inductive Json := JObject (items : list (Text * JsonValue)) | JNoObject.

#[export] Instance JsonValue_eq_dec : EqDecision JsonValue.
Proof. solve_decision. Defined.

Definition dict_eqb (d1 d2 : list (Text * JsonValue)) : bool :=
  (length d1 =? length d2)%nat && forallb (λ e, tget e.1 d2 ≟ Some e.2) d1.

Section Connections.
(** [json_loads] is None for a text that is no JSON. *)
Context (fernet : Fernet) (json_loads : Text → option Json) (json_dumps : list (Text * Text) → Text).

Definition EXTRA_KEY : Text := text "__extra__".

Definition get_password (c : Connection) : result (option Text) :=
  match _password c with
  | Some (x :: p) =>
      if is_encrypted c then if fernet_is_encrypted fernet then Some <$> decrypt fernet (x :: p) else Err AirflowException
      else Ok (Some (x :: p))
  | p => Ok p
  end.

Definition set_password (value : option Text) (c : Connection) : Connection :=
  match value with
  | Some (x :: v) =>
      {| conn_type := conn_type c; host := host c; schema := schema c; login := login c; _password := Some (encrypt fernet (x :: v));
         port := port c; is_encrypted := fernet_is_encrypted fernet; is_extra_encrypted := is_extra_encrypted c; _extra := _extra c |}
  | _ => c
  end.

Definition get_extra (c : Connection) : result (option Text) :=
  match _extra c with
  | Some (x :: e) =>
      if is_extra_encrypted c then if fernet_is_encrypted fernet then Some <$> decrypt fernet (x :: e) else Err AirflowException
      else Ok (Some (x :: e))
  | e => Ok e
  end.

Definition set_extra (value : option Text) (c : Connection) : Connection :=
  let (e, enc) := match value with
                  | Some (x :: v) => (Some (encrypt fernet (x :: v)), fernet_is_encrypted fernet)
                  | v => (v, false)
                  end in
  {| conn_type := conn_type c; host := host c; schema := schema c; login := login c; _password := _password c; port := port c;
     is_encrypted := is_encrypted c; is_extra_encrypted := enc; _extra := e |}.

Definition rotate_if (encrypted : bool) (o : option Text) : result (option Text) :=
  match o with
  | Some (x :: p) => if encrypted then p' ← rotate fernet (x :: p); Ok (Some p') else Ok o
  | o => Ok o
  end.

Definition rotate_fernet_key (c : Connection) : result Connection :=
  p ← rotate_if (is_encrypted c) (_password c);
  e ← rotate_if (is_extra_encrypted c) (_extra c);
  Ok {| conn_type := conn_type c; host := host c; schema := schema c; login := login c; _password := p; port := port c;
        is_encrypted := is_encrypted c; is_extra_encrypted := is_extra_encrypted c; _extra := e |}.

(** The attributes without the two that are encrypted. *)
Definition set_plain (conn_type host login schema : option Text) (port : option Z) (c : Connection) : Connection :=
  {| conn_type := conn_type; host := host; schema := schema; login := login; _password := _password c; port := port;
     is_encrypted := is_encrypted c; is_extra_encrypted := is_extra_encrypted c; _extra := _extra c |}.

Definition extra_dejson (c : Connection) : result Json :=
  extra ← get_extra c;
  match extra with
  | Some (x :: e) => Ok (default (JObject []) (json_loads (x :: e)))
  | _ => Ok (JObject [])
  end.

Definition _parse_netloc_to_hostname (r : ParseResult) : Text :=
  let h := unquote (hostname r) in
  if "/" ∈? h then
    let h := netloc r in
    let h := match rpartition "@" h with (Some _, b) => b | (None, _) => h end in
    let h := (partition ":" h).1 in
    unquote h
  else h.

Definition unquote_if (o : option Text) : option Text :=
  match o with Some (x :: s) => Some (unquote (x :: s)) | o => o end.

Definition _parse_from_uri (uri : Text) (c : Connection) : result Connection :=
  uri_parts ← urlparse uri;
  let conn_type := scheme uri_parts in
  let conn_type := if conn_type ≟ text "postgresql" then text "postgres"
                   else if "-" ∈? conn_type then replace_char "-" "_" conn_type else conn_type in
  let quoted_schema := drop 1 (path uri_parts) in
  let '(username, password) := userinfo uri_parts in
  port ← port_of uri_parts;
  let c := set_plain (Some conn_type) (Some (_parse_netloc_to_hostname uri_parts)) (unquote_if username)
             (unquote_if (Some quoted_schema)) port c in
  let c := set_password (unquote_if password) c in
  match query uri_parts with
  | [] => Ok c
  | q =>
      let query := tdict (parse_qsl q) in
      Ok (set_extra (Some (match tget EXTRA_KEY query with Some e => e | None => json_dumps query end)) c)
  end.

(** The query string of the extra: [urlencode(self.extra_dejson)], None or empty for
    what is no object or has no items. *)
Definition json_str (v : JsonValue) : Text := match v with JText t => t | JOther s => s end.
Definition extra_query (j : Json) : Text :=
  match j with JObject items => urlencode ((λ e, (e.1, json_str e.2)) <$> items) | JNoObject => [] end.

(** Login and password, with the at sign when there is something to write. *)
Definition authority_block (login password : option Text) : Text :=
  let block := match login with Some l => quote l | None => [] end in
  let block := block ++ match password with Some p => ":" :: quote p | None => [] end in
  match block with [] => [] | _ => block ++ ["@"] end.

(** Host and port. *)
Definition host_block (host : option Text) (port : option Z) : Text :=
  let block := match host with Some h => quote h | None => [] end in
  match port with
  | Some p => if (p =? 0)%Z then block
              else match block with [] => text "@:" ++ str_int p | _ => block ++ ":" :: str_int p end
  | None => block
  end.

Definition schema_block (schema : option Text) : Text :=
  match schema with Some (x :: s) => "/" :: quote (x :: s) | _ => [] end.

(** The items of the extra, or the extra as it is where they would not be read back. *)
Definition extra_block (j : Json) (extra : Text) : Text :=
  let query := extra_query j in
  "?" ::
  if negb (query ≟ []) &&
     match j with JObject items => dict_eqb items (tdict ((λ e, (e.1, JText e.2)) <$> parse_qsl query)) | JNoObject => false end
  then query
  else urlencode [(EXTRA_KEY, extra)].

Definition get_uri (c : Connection) : result Text :=
  password ← get_password c;
  extra ← get_extra c;
  let uri := replace_char "_" "-" (lower (default (text "None") (conn_type c))) ++ text "://" in
  let uri := uri ++ authority_block (login c) password in
  let uri := uri ++ host_block (host c) (port c) ++ schema_block (schema c) in
  match extra with
  | Some (x :: e) => j ← extra_dejson c; Ok (uri ++ extra_block j (x :: e))
  | _ => Ok uri
  end.

(** [__init__]. *)
Record ConnectionArgs := {
  arg_conn_type : option Text;
  arg_host : option Text;
  arg_login : option Text;
  arg_password : option Text;
  arg_schema : option Text;
  arg_port : option Z;
  arg_extra : option Text;
  arg_uri : option Text;
}.

(** [Connection(uri=uri)]. *)
Definition uri_args (uri : Text) : ConnectionArgs :=
  {| arg_conn_type := None; arg_host := None; arg_login := None; arg_password := None; arg_schema := None; arg_port := None;
     arg_extra := None; arg_uri := Some uri |}.

Definition connection_init (a : ConnectionArgs) : result Connection :=
  if truthy (arg_uri a) &&
     (truthy (arg_conn_type a) || truthy (arg_host a) || truthy (arg_login a) || truthy (arg_password a) || truthy (arg_schema a) ||
      match arg_port a with Some p => negb (p =? 0)%Z | None => false end || truthy (arg_extra a))
  then Err AirflowException
  else
    match arg_uri a with
    | Some (x :: u) => _parse_from_uri (x :: u) new_connection
    | _ =>
        Ok (set_extra (arg_extra a) (set_password (arg_password a)
             (set_plain (arg_conn_type a) (arg_host a) (arg_login a) (arg_schema a) (arg_port a) new_connection)))
    end.
End Connections.
End Connection.

Import Connection.

(** ** What connections rely on *)

(** A Fernet key undoes its encryption; without one nothing is encrypted. *)
Class FernetLaws (f : Fernet) : Prop := {
  decrypt_encrypt v : decrypt f (encrypt f v) = Ok v;
  encrypt_given v : v ≠ [] → encrypt f v ≠ [];
  encrypt_plain v : fernet_is_encrypted f = false → encrypt f v = v;
}.

#[export] Instance NullFernet_laws : FernetLaws NullFernet.
Proof. by constructor. Qed.

(** [MultiFernet.rotate] replaces a token that one of the keys can decrypt, and raises
    [InvalidToken] for any other text; a token is not empty. *)
Class RotateLaws (f : Fernet) : Prop := {
  rotate_token t : fernet_is_encrypted f = true →
    match rotate f t with
    | Ok t' => t' ≠ [] ∧ is_ok (decrypt f t) = true ∧ decrypt f t' = decrypt f t
    | Err e => e = InvalidToken ∧ is_ok (decrypt f t) = false
    end;
  token_given v : fernet_is_encrypted f = true → encrypt f v ≠ [];
}.

#[export] Instance NullFernet_rotate : RotateLaws NullFernet.
Proof. by constructor. Qed.

(** A column of a connection is plain or empty, or its token can be decrypted. *)
Definition token_ok (f : Fernet) (encrypted : bool) (o : option Text) : bool :=
  match o with Some (x :: t) => negb encrypted || is_ok (decrypt f (x :: t)) | _ => true end.
Definition tokens_ok (f : Fernet) (c : Connection) : bool :=
  token_ok f (is_encrypted c) (_password c) && token_ok f (is_extra_encrypted c) (_extra c).

(** The [json] module reads back the dictionaries of texts it writes; an object has one
    value for a key; the empty text is no document. *)
Class JsonLaws (json_loads : Text → option Json) (json_dumps : list (Text * Text) → Text) : Prop := {
  json_keys t items : json_loads t = Some (JObject items) → NoDup items.*1;
  json_loads_dumps q : NoDup q.*1 → json_loads (json_dumps q) = Some (JObject ((λ e, (e.1, JText e.2)) <$> q));
  json_loads_empty : json_loads [] = None;
}.

(** A text, None if it is empty or missing. *)
Definition given (o : option Text) : option Text := if truthy o then o else None.

(** The items of an object that has some, all of them texts. *)
Definition is_text (v : JsonValue) : bool := match v with JText _ => true | JOther _ => false end.
Definition flat_items (j : option Json) : option (list (Text * Text)) :=
  match j with
  | Some (JObject items) =>
      if negb (items ≟ []) && forallb (λ e, is_text e.2) items then Some ((λ e, (e.1, json_str e.2)) <$> items) else None
  | _ => None
  end.

Section FieldFacts.
Context (fernet : Fernet) {FL : FernetLaws fernet}.
Implicit Types (c : Connection) (v : option Text).

Lemma encrypted_read (t : Text) : t ≠ [] →
  match Some (encrypt fernet t) with
  | Some (x :: p) =>
      if fernet_is_encrypted fernet then if fernet_is_encrypted fernet then Some <$> decrypt fernet (x :: p) else Err AirflowException
      else Ok (Some (x :: p))
  | p => Ok p
  end = Ok (Some t).
Proof.
  intros Ht. pose proof (encrypt_given t Ht) as Hg. pose proof (decrypt_encrypt t) as Hd. pose proof (encrypt_plain t) as Hp.
  destruct (encrypt fernet t) as [|x p]; [done|]. destruct (fernet_is_encrypted fernet); [by rewrite Hd|by rewrite Hp].
Qed.

Lemma get_set_password v c : _password c = None → get_password fernet (set_password fernet v c) = Ok (given v).
Proof.
  intros Hc. destruct v as [[|x t]|]; [by unfold get_password; cbn; rewrite Hc| |by unfold get_password; cbn; rewrite Hc].
  exact (encrypted_read (x :: t) ltac:(done)).
Qed.

Lemma get_set_extra v c : get_extra fernet (set_extra fernet v c) = Ok v.
Proof. destruct v as [[|x t]|]; [done| |done]. exact (encrypted_read (x :: t) ltac:(done)). Qed.

(** The attributes that the setters of the others leave. *)
Lemma set_password_plain v c : let c' := set_password fernet v c in
  conn_type c' = conn_type c ∧ host c' = host c ∧ schema c' = schema c ∧ login c' = login c ∧ port c' = port c ∧
  get_extra fernet c' = get_extra fernet c.
Proof. by destruct v as [[|x t]|]. Qed.

Lemma set_extra_plain v c : let c' := set_extra fernet v c in
  conn_type c' = conn_type c ∧ host c' = host c ∧ schema c' = schema c ∧ login c' = login c ∧ port c' = port c ∧
  get_password fernet c' = get_password fernet c.
Proof. by destruct v as [[|x t]|]. Qed.

(** A new key leaves what is read, unless a token cannot be decrypted. *)
Lemma rotate_if_spec {RL : RotateLaws fernet} enc o : (enc = true → fernet_is_encrypted fernet = true) →
  match rotate_if fernet enc o with
  | Ok o' => token_ok fernet enc o = true ∧ token_ok fernet enc o' = true ∧
      (o' = o ∨ enc = true ∧ ∃ x t y u, o = Some (x :: t) ∧ o' = Some (y :: u) ∧ decrypt fernet (y :: u) = decrypt fernet (x :: t))
  | Err e => e = InvalidToken ∧ token_ok fernet enc o = false
  end.
Proof.
  intros Henc. destruct o as [[|x t]|]; [by split_and!; [..|left]| |by split_and!; [..|left]].
  destruct enc; [|by split_and!; [..|left]]. cbn [rotate_if token_ok negb orb]. pose proof (rotate_token (f := fernet) (x :: t) (Henc eq_refl)) as Hr.
  destruct (rotate fernet (x :: t)) as [u|e]; cbn [mbind result_bind]; [|done]. destruct Hr as (Hne & Hok & Hd).
  destruct u as [|y u]; [done|]. cbn [token_ok negb orb]. rewrite Hd. split_and!; [done..|]. right. split; [done|]. by exists x, t, y, u.
Qed.

Lemma rotate_fernet_key_keeps {RL : RotateLaws fernet} c : (is_encrypted c || is_extra_encrypted c = true → fernet_is_encrypted fernet = true) →
  match rotate_fernet_key fernet c with
  | Ok c' => tokens_ok fernet c = true ∧ tokens_ok fernet c' = true ∧
      is_encrypted c' = is_encrypted c ∧ is_extra_encrypted c' = is_extra_encrypted c ∧
      get_password fernet c' = get_password fernet c ∧ get_extra fernet c' = get_extra fernet c
  | Err e => e = InvalidToken ∧ tokens_ok fernet c = false
  end.
Proof.
  intros Hc. unfold rotate_fernet_key, tokens_ok.
  pose proof (rotate_if_spec (is_encrypted c) (_password c) ltac:(intros E; apply Hc; by rewrite E)) as Hp.
  pose proof (rotate_if_spec (is_extra_encrypted c) (_extra c) ltac:(intros E; apply Hc; by rewrite E, orb_true_r)) as He.
  destruct (rotate_if _ (is_encrypted c) _) as [p|x]; cbn [mbind result_bind]; [|by destruct Hp as [-> ->]].
  destruct (rotate_if _ (is_extra_encrypted c) _) as [e|x]; cbn [mbind result_bind]; [|by destruct Hp as [-> _], He as [-> ->]].
  destruct Hp as (-> & Hp1 & Hp2), He as (-> & He1 & He2). unfold get_password, get_extra. cbn. rewrite Hp1, He1. do 4 (split; [done|]).
  split; [destruct Hp2 as [->|(-> & x & t & y & u & -> & -> & Hd)]|destruct He2 as [->|(-> & x & t & y & u & -> & -> & Hd)]];
    rewrite ?Hd; done.
Qed.
End FieldFacts.

(** ** Writing and reading the URI of a connection *)
Section RoundTrip.
Local Open Scope Z_scope.
Local Open Scope char_scope.

Lemma hostname_netloc S info (h : Text) port p q : port_ok port → forallb (λ c, negb (is_upper c)) h = true →
  _parse_netloc_to_hostname {| scheme := S; netloc := netloc_of info h port; path := p; query := q |} = h.
Proof.
  intros Hp Hh. unfold _parse_netloc_to_hostname. rewrite hostname_quoted, unquote_quote by done. cbn [netloc].
  destruct ("/" ∈? h); [|done]. rewrite rpartition_netloc by done.
  destruct info as [i|]; [|unfold netloc_of; cbn [app]];
    (rewrite partition_opt by (apply delimiter_not_quoted; set_solver)); cbn [fst]; apply unquote_quote.
Qed.

Context (fernet : Fernet) {FL : FernetLaws fernet}.
Context (json_loads : Text → option Json) (json_dumps : list (Text * Text) → Text) {JL : JsonLaws json_loads json_dumps}.
Implicit Types (c : Connection) (a : ConnectionArgs).

Abbreviation init := (connection_init fernet json_dumps).
Abbreviation uri_text := (get_uri fernet json_loads).

(** A port without a host is only written well without login and password. *)
Definition locates_port a : Prop :=
  arg_port a = None ∨ truthy (arg_host a) = true ∨ truthy (arg_login a) || truthy (arg_password a) = false.

(** The arguments whose attributes a URI can carry. *)
Record uri_ready (a : ConnectionArgs) : Prop := {
  ready_uri : arg_uri a = None;
  ready_type : ∃ t, arg_conn_type a = Some t ∧ t ≠ [] ∧ forallb type_char t = true ∧ t ≠ text "postgresql";
  ready_host : forallb (λ x, negb (is_upper x)) (default [] (arg_host a)) = true;
  ready_port : port_ok (arg_port a);
  ready_where : locates_port a;
  ready_extra : ∀ items, flat_items (json_loads (default [] (arg_extra a))) = Some items → EXTRA_KEY ∉ items.*1;
}.

(** What stands before the at sign: login and password, or nothing when the port has
    to be kept from the scheme. *)
Definition user_info a : option Text :=
  if truthy (arg_login a) || truthy (arg_password a)
  then Some (quote (default [] (arg_login a)) ++ some_after ":" (quote <$> given (arg_password a)))
  else if negb (truthy (arg_host a)) && bool_decide (is_Some (arg_port a)) then Some [] else None.

Definition extra_part (e : option Text) : option Text :=
  match given e with
  | Some e => Some (urlencode (default [(EXTRA_KEY, e)] (flat_items (json_loads e))))
  | None => None
  end.

Lemma urlencode_nil (l : list (Text * Text)) : urlencode l = [] → l = [].
Proof.
  destruct l as [|e l]; [done|]. unfold urlencode. rewrite fmap_cons.
  destruct ((λ e, _) <$> l) as [|y r]; cbn [join]; intros H; repeat apply app_eq_nil in H as [? H]; done.
Qed.

Lemma flat_query (items : list (Text * JsonValue)) : NoDup items.*1 →
  (let query := extra_query (JObject items) in
   negb (query ≟ []) && dict_eqb items (tdict ((λ e, (e.1, JText e.2)) <$> parse_qsl query))) =
  negb (items ≟ []) && forallb (λ e, is_text e.2) items.
Proof.
  intros Hnd. cbv zeta. unfold extra_query. rewrite parse_urlencode, <-list_fmap_compose.
  set (d := (compose _ _) <$> items). assert (d.*1 = items.*1) as Hd by (unfold d; by rewrite <-list_fmap_compose).
  rewrite tdict_NoDup by (by rewrite Hd). destruct (decide (items = [])) as [->|Hi]; [done|].
  rewrite !bool_decide_eq_false_2; [|done|by intros ?%urlencode_nil%fmap_nil_inv].
  cbn [negb andb]. assert (length d = length items) as Hlen by apply length_fmap. unfold dict_eqb.
  rewrite Hlen, Nat.eqb_refl. cbn [andb]. apply forallb_ext_elem. intros [k v] He.
  rewrite (tget_NoDup k (JText (json_str v))).
  - cbn [snd]. destruct v as [t|t]; cbn; [by apply bool_decide_eq_true|by apply bool_decide_eq_false].
  - by rewrite Hd.
  - unfold d. apply list_elem_of_fmap. by exists (k, v).
Qed.

Lemma init_uri uri : uri ≠ [] → init (uri_args uri) = _parse_from_uri fernet json_dumps uri new_connection.
Proof. by destruct uri. Qed.

(** The connection that the arguments make. *)
Definition built a : Connection :=
  set_extra fernet (arg_extra a) (set_password fernet (arg_password a)
    (set_plain (arg_conn_type a) (arg_host a) (arg_login a) (arg_schema a) (arg_port a) new_connection)).

Lemma init_built a : arg_uri a = None → init a = Ok (built a).
Proof. intros Hu. unfold connection_init. rewrite Hu. done. Qed.

Lemma built_fields a :
  conn_type (built a) = arg_conn_type a ∧ host (built a) = arg_host a ∧ schema (built a) = arg_schema a ∧
  login (built a) = arg_login a ∧ port (built a) = arg_port a ∧
  get_password fernet (built a) = Ok (given (arg_password a)) ∧ get_extra fernet (built a) = Ok (arg_extra a).
Proof.
  unfold built. set (c0 := set_plain _ _ _ _ _ _). destruct (set_extra_plain fernet (arg_extra a) (set_password fernet (arg_password a) c0)) as (-> & -> & -> & -> & -> & ->).
  destruct (set_password_plain fernet (arg_password a) c0) as (-> & -> & -> & -> & -> & _).
  split_and!; [done..|by apply get_set_password|apply (get_set_extra fernet)].
Qed.

(** The blocks that [get_uri] writes are the authority of a URI. *)
Lemma authority_netloc a : locates_port a → port_ok (arg_port a) →
  authority_block (arg_login a) (given (arg_password a)) ++ host_block (arg_host a) (arg_port a) =
  netloc_of (user_info a) (default [] (arg_host a)) (arg_port a).
Proof.
  intros Hw Hp. unfold authority_block, host_block, netloc_of, user_info, given. cbv zeta.
  assert (∀ x (t : Text), ∃ y r, quote (x :: t) = y :: r) as Hq.
  { intros x t. destruct (quote (x :: t)) eqn:E; [by apply (proj1 (quote_nil _)) in E|eauto]. }
  destruct (arg_port a) as [p|] eqn:Ep; unfold port_ok in Hp; [rewrite (proj2 (Z.eqb_neq p 0)) by lia; destruct Hw as [Hw|Hw]; [congruence|]|clear Hw];
    destruct (arg_host a) as [[|x h]|] eqn:Eh, (arg_login a) as [[|y l]|] eqn:El, (arg_password a) as [[|z w]|] eqn:Ew;
    try (exfalso; clear -Hw Eh El Ew; rewrite ?Eh, ?El, ?Ew in Hw; by destruct Hw).
  all: cbn [truthy from_option id orb fmap option_fmap option_map].
  all: repeat match goal with |- context [quote (?x :: ?t)] => let y := fresh "y" in let r := fresh "r" in let E := fresh "E" in
    destruct (Hq x t) as (y & r & E); rewrite E; clear E end.
  all: cbn; rewrite ?app_nil_r, <-?app_assoc; try done.
Qed.

Lemma schema_block_given (o : option Text) : schema_block o = some_after "/" (quote <$> given o).
Proof. by destruct o as [[|x s]|]. Qed.

(** The query that stands for an extra. *)
Lemma extra_block_part (e : Text) : e ≠ [] →
  extra_block (default (JObject []) (json_loads e)) e = some_after "?" (extra_part (Some e)).
Proof.
  intros He. unfold extra_block, extra_part. destruct e as [|x e]; [done|]. cbn [given truthy some_after]. f_equal.
  destruct (json_loads (x :: e)) as [[items|]|] eqn:Ej.
  - cbn [from_option id]. pose proof (flat_query items (json_keys _ _ Ej)) as Hf. cbv zeta in Hf |- *. rewrite Hf. unfold flat_items.
    by destruct (negb (items ≟ []) && forallb (λ e, is_text e.2) items).
  - by rewrite andb_false_r.
  - done.
Qed.

Lemma get_uri_built a t : arg_conn_type a = Some t → t ≠ [] → forallb type_char t = true → locates_port a → port_ok (arg_port a) →
  uri_text (built a) =
  Ok (uri_of (replace_char "_" "-" t) (netloc_of (user_info a) (default [] (arg_host a)) (arg_port a))
        (quote <$> given (arg_schema a)) (extra_part (arg_extra a))).
Proof.
  intros Ht Hne Hc Hw Hp. destruct (built_fields a) as (Hty & Hh & Hs & Hl & Hpo & Hpw & Hex). unfold get_uri. rewrite Hpw, Hex.
  cbn [mbind result_bind]. rewrite Hty, Hh, Hs, Hl, Hpo, Ht. cbn [from_option id]. destruct (scheme_of_type t Hne Hc) as [-> _].
  pose proof (authority_netloc a Hw Hp) as Hn. rewrite schema_block_given.
  unfold uri_of. rewrite <-Hn.
  destruct (arg_extra a) as [[|x e]|]; [cbn [extra_part given truthy some_after]; by rewrite app_nil_r, <-!app_assoc
    | |cbn [extra_part given truthy some_after]; by rewrite app_nil_r, <-!app_assoc].
  assert (extra_dejson fernet json_loads (built a) = Ok (default (JObject []) (json_loads (x :: e)))) as ->
    by (unfold extra_dejson; by rewrite Hex).
  cbn [mbind result_bind]. rewrite extra_block_part by done. by rewrite <-!app_assoc.
Qed.

(** Reading such a URI. *)
Definition read_user (info : option Text) : option Text * option Text :=
  match info with Some i => let (u, p) := partition ":" i in (Some u, p) | None => (None, None) end.

Definition read_extra (q : option Text) (c : Connection) : Connection :=
  match default [] q with
  | [] => c
  | q => let query := tdict (parse_qsl q) in
         set_extra fernet (Some (match tget EXTRA_KEY query with Some e => e | None => json_dumps query end)) c
  end.

Lemma unquote_if_quote (t : Text) : unquote_if (Some (quote t)) = Some t.
Proof.
  destruct (quote t) eqn:E; [apply (proj1 (quote_nil _)) in E as ->; done|]. cbn [unquote_if]. by rewrite <-E, unquote_quote.
Qed.

Lemma unquote_schema (s : option Text) : unquote_if (Some (drop 1 (some_after "/" (quote <$> s)))) = Some (default [] s).
Proof. destruct s as [s|]; [|done]. cbn [fmap option_fmap option_map some_after drop]. rewrite drop_0. apply unquote_if_quote. Qed.

Lemma type_back (t S : Text) : replace_char "-" "_" S = t → (if "-" ∈? S then replace_char "-" "_" S else S) = t.
Proof.
  intros <-. destruct (bool_decide_reflect ("-" ∈ S)); [done|]. symmetry. apply map_id_on. intros x Hx.
  by rewrite bool_decide_eq_false_2 by congruence.
Qed.

Lemma urlencode_plain (l : list (Text * Text)) : "#" ∉ urlencode l.
Proof.
  unfold urlencode. induction l as [|e [|e' l] IH]; [apply not_elem_of_nil| |]; cbn [fmap list_fmap join] in *;
    rewrite ?not_elem_of_app, ?not_elem_of_cons, ?not_elem_of_app, ?not_elem_of_cons; split_and?; try done;
    apply delimiter_not_quoted_plus; set_solver.
Qed.

Lemma parse_uri_of (t : Text) (info : option Text) (h : Text) port (s q : option Text) :
  t ≠ [] → forallb type_char t = true → t ≠ text "postgresql" → forallb (λ x, negb (is_upper x)) h = true → port_ok port →
  (∀ x, x ∈ ["/"; "?"; "#"; "["; "]"] → x ∉ default [] info) → "#" ∉ default [] q →
  _parse_from_uri fernet json_dumps (uri_of (replace_char "_" "-" t) (netloc_of info h port) (quote <$> s) q) new_connection =
  Ok (read_extra q (set_password fernet (unquote_if (read_user info).2)
    (set_plain (Some t) (Some h) (unquote_if (read_user info).1) (Some (default [] s)) port new_connection))).
Proof.
  intros Hne Hc Hpg Hh Hp Hi Hq. destruct (scheme_of_type t Hne Hc) as (_ & HS1 & HS2 & HS3 & HS4 & HS5).
  unfold _parse_from_uri. rewrite urlparse_uri_of; [|done..| | |done].
  - cbn [mbind result_bind]. rewrite hostname_netloc, port_of_netloc by done. cbn [scheme path query]. cbn [mbind result_bind].
    unfold userinfo. cbn [netloc]. rewrite rpartition_netloc by done.
    rewrite (bool_decide_eq_false_2 (_ = text "postgresql")) by (intros E; apply Hpg; by rewrite <-HS4, E).
    rewrite (type_back t) by done. rewrite unquote_schema. unfold read_extra.
    destruct info as [i|]; [cbn [read_user]; destruct (partition ":" i)|]; cbn [read_user fst snd]; by destruct (default [] q).
  - intros x Hx [H|H]%elem_of_app.
    + destruct info as [i|]; [|by apply elem_of_nil in H]. apply elem_of_app in H as [H|H]; [by apply (Hi x)|].
      apply list_elem_of_singleton in H as ->. set_solver.
    + revert H. apply host_port_plain; [done|set_solver].
  - intros x Hx. destruct s; cbn; [|apply not_elem_of_nil]. apply delimiter_not_quoted. set_solver.
Qed.

Lemma user_info_plain a x : x ∈ ["/"; "?"; "#"; "["; "]"] → x ∉ default [] (user_info a).
Proof.
  intros Hx. unfold user_info. destruct (_ || _); cbn [from_option id]; [|destruct (_ && _); apply not_elem_of_nil].
  intros [H|H]%elem_of_app; [by apply delimiter_not_quoted in H; [|set_solver]|].
  destruct (given (arg_password a)); cbn in H; [|by apply elem_of_nil in H].
  apply elem_of_cons in H as [->|H]; [set_solver|]. by apply delimiter_not_quoted in H; [|set_solver].
Qed.

Lemma extra_part_plain e : "#" ∉ default [] (extra_part e).
Proof.
  unfold extra_part. destruct (given e) as [t|]; [|apply not_elem_of_nil]. cbn [from_option id]. apply urlencode_plain.
Qed.

(** The user information is read as it was given. *)
Lemma read_user_info a :
  given (unquote_if (read_user (user_info a)).1) = given (arg_login a) ∧ given (unquote_if (read_user (user_info a)).2) = given (arg_password a).
Proof.
  unfold user_info. destruct (truthy (arg_login a) || truthy (arg_password a)) eqn:E.
  - cbn [read_user]. rewrite partition_opt by (apply delimiter_not_quoted; set_solver). cbn [fst snd].
    rewrite unquote_if_quote. split; [by destruct (arg_login a) as [[]|]|].
    unfold given. destruct (arg_password a) as [[|x p]|]; cbn [truthy fmap option_fmap option_map]; [done| |done]. by rewrite unquote_if_quote.
  - apply orb_false_iff in E as [El Ep]. unfold given. rewrite El, Ep. by destruct (_ && _).
Qed.

Lemma read_extra_plain q c : let c' := read_extra q c in
  conn_type c' = conn_type c ∧ port c' = port c ∧ host c' = host c ∧ schema c' = schema c ∧ login c' = login c ∧
  get_password fernet c' = get_password fernet c.
Proof.
  unfold read_extra. destruct (default [] q) as [|x t]; [done|]. cbv zeta.
  by destruct (set_extra_plain fernet (Some (match tget EXTRA_KEY (tdict (parse_qsl (x :: t))) with Some e => e | None => json_dumps (tdict (parse_qsl (x :: t))) end)) c)
    as (-> & -> & -> & -> & -> & ->).
Qed.

(** The extra is read as the text it was, or as one that stands for the same items. *)
Lemma read_extra_part e c :
  (∀ items, flat_items (json_loads (default [] e)) = Some items → EXTRA_KEY ∉ items.*1) → _extra c = None →
  ∃ e', get_extra fernet (read_extra (extra_part e) c) = Ok e' ∧
    match given e with
    | None => e' = None
    | Some t => match flat_items (json_loads t) with Some items => e' = Some (json_dumps items) | None => e' = Some t end
    end.
Proof.
  intros Hk Hc. unfold read_extra, extra_part. destruct e as [[|x t]|]; cbn [given truthy from_option id] in *;
    [exists None; split; [unfold get_extra; by rewrite Hc|done]| |exists None; split; [unfold get_extra; by rewrite Hc|done]].
  set (e := x :: t) in *. destruct (urlencode _) eqn:E.
  { apply urlencode_nil in E. destruct (flat_items (json_loads e)) as [items|] eqn:Ef; [|done]. cbn in E. subst items.
    unfold flat_items in Ef. destruct (json_loads e) as [[items|]|]; try done. destruct (decide (items = [])) as [->|Hi]; [done|].
    destruct (negb _ && _); [|done]. injection Ef as Ef. by apply fmap_nil_inv in Ef. }
  rewrite <-E, parse_urlencode. eexists. split; [apply (get_set_extra fernet)|].
  destruct (flat_items (json_loads e)) as [items|] eqn:Ef; cbn [from_option id]; [|done].
  rewrite tdict_NoDup; [by rewrite tget_None by auto|]. unfold flat_items in Ef. destruct (json_loads e) as [[its|]|] eqn:Ej; try done.
  destruct (negb _ && _); [|done]. injection Ef as <-. rewrite <-list_fmap_compose. exact (json_keys _ _ Ej).
Qed.

Lemma flat_dumps t items : flat_items (json_loads t) = Some items →
  json_loads (json_dumps items) = json_loads t ∧ json_dumps items ≠ [].
Proof.
  unfold flat_items. destruct (json_loads t) as [[its|]|] eqn:Ej; try done.
  destruct (negb _ && _) eqn:E; [|done]. intros [= <-]. apply andb_true_iff in E as [_ Ht]. rewrite forallb_elem in Ht.
  assert (json_loads (json_dumps ((λ e, (e.1, json_str e.2)) <$> its)) = Some (JObject its)) as Hl.
  { rewrite json_loads_dumps by (rewrite <-list_fmap_compose; exact (json_keys _ _ Ej)). do 2 f_equal. rewrite <-list_fmap_compose.
    rewrite <-(list_fmap_id its) at 2. apply list_fmap_ext. intros k [n v] Hkv%list_elem_of_lookup_2. specialize (Ht _ Hkv). by destruct v. }
  split; [done|]. intros E. rewrite E, json_loads_empty in Hl. done.
Qed.

(** C32: the URI of a connection made from attributes that a URI can carry makes, given
    to the constructor, a connection with the same type, port, password and JSON
    extra, with the same host, schema and login up to what is empty or missing, and
    with the text of the extra itself unless it is a dictionary of texts; the password and
    the extra may be encrypted. *)
Theorem connection_uri_round_trip a : uri_ready a →
  ∃ c uri c', init a = Ok c ∧ uri_text c = Ok uri ∧ init (uri_args uri) = Ok c' ∧
    conn_type c' = conn_type c ∧ port c' = port c ∧
    given (host c') = given (host c) ∧ given (schema c') = given (schema c) ∧ given (login c') = given (login c) ∧
    get_password fernet c' = get_password fernet c ∧
    extra_dejson fernet json_loads c' = extra_dejson fernet json_loads c ∧
    (flat_items (json_loads (default [] (arg_extra a))) = None → given <$> get_extra fernet c' = given <$> get_extra fernet c).
Proof.
  intros [Hu (t & Ht & Hne & Htc & Hpg) Hh Hp Hw Hx]. destruct (built_fields a) as (Hb1 & Hb2 & Hb3 & Hb4 & Hb5 & Hb6 & Hb7).
  exists (built a). eexists _, _. split; [by apply init_built|]. split; [by eapply get_uri_built|]. split.
  { rewrite init_uri by (by destruct t). apply parse_uri_of; [done..|apply user_info_plain|apply extra_part_plain]. }
  set (c0 := set_plain _ _ _ _ _ _). set (c1 := set_password _ _ _).
  destruct (read_extra_plain (extra_part (arg_extra a)) c1) as (-> & -> & -> & -> & -> & ->).
  pose proof (set_password_plain fernet (unquote_if (read_user (user_info a)).2) c0) as Hs. fold c1 in Hs.
  destruct Hs as (-> & -> & -> & -> & -> & _).
  destruct (read_user_info a) as [Hl Hpw]. rewrite Hb1, Hb2, Hb3, Hb4, Hb5, Hb6, Hb7. cbn [conn_type host schema login port set_plain].
  destruct (read_extra_part (arg_extra a) c1 Hx) as (e' & He & Hr). { unfold c1. by destruct (unquote_if (read_user (user_info a)).2) as [[]|]. }
  split_and!; [done|done|by destruct (arg_host a) as [[]|]|by destruct (arg_schema a) as [[]|]|done| | |].
  - unfold c1. by rewrite get_set_password, Hpw.
  - unfold extra_dejson. rewrite He, Hb7. cbn [mbind result_bind]. destruct (arg_extra a) as [[|x e]|]; cbn in Hr; [by subst| |by subst].
    destruct (flat_items (json_loads (x :: e))) as [items|] eqn:Ef; subst e'; [|done].
    destruct (flat_dumps _ _ Ef) as [Hd Hdn]. destruct (json_dumps items) eqn:Ed; [done|]. by rewrite Hd.
  - intros Hf. rewrite He. cbn. f_equal. destruct (arg_extra a) as [[|x e]|]; cbn in Hr, Hf; [by subst| |by subst]. rewrite Hf in Hr. by subst.
Qed.
End RoundTrip.

(** ** A sample *)
Module ConnectionSample.
Local Open Scope char_scope.

(** A key that writes texts backwards behind a mark. *)
Definition key : Fernet :=
  {| fernet_is_encrypted := true; encrypt := λ t, "g" :: reverse t; decrypt := λ t, match t with c :: t => if c ≟ "g" then Ok (reverse t) else Err InvalidToken | [] => Err InvalidToken end;
     rotate := λ t, match t with c :: _ => if c ≟ "g" then Ok t else Err InvalidToken | [] => Err InvalidToken end |}.

#[export] Instance key_laws : FernetLaws key.
Proof. constructor; [|done|done]. intros v. cbn. f_equal. apply reverse_involutive. Qed.
#[export] Instance key_rotate : RotateLaws key.
Proof. constructor; [|done]. intros [|c t] _; [done|]. cbn. destruct (c ≟ "g") eqn:E; cbn; rewrite ?E; by split_and!. Qed.

(** Documents of one dictionary of texts, its items written like a query. *)
Definition dumps (q : list (Text * Text)) : Text := "{" :: urlencode q.
Definition loads (t : Text) : option Json :=
  match t with
  | c :: r => if c ≟ "{" then Some (JObject ((λ e, (e.1, JText e.2)) <$> tdict (parse_qsl r))) else None
  | [] => None
  end.

Lemma tset_keys {V} k (v : V) d : NoDup d.*1 → NoDup (tset k v d).*1.
Proof.
  intros Hd. unfold tset. destruct (existsb _ d) eqn:E.
  - assert (((λ e : Text * V, if e.1 ≟ k then (k, v) else e) <$> d).*1 = d.*1) as ->; [|done].
    clear. induction d as [|[k' w] d IH]; [done|]. rewrite !fmap_cons, IH. f_equal. cbn. by destruct (bool_decide_reflect (k' = k)) as [->|].
  - rewrite fmap_app, NoDup_app. split_and!; [done| |cbn; apply NoDup_singleton]. intros x Hx ->%list_elem_of_singleton.
    apply list_elem_of_fmap in Hx as (e & Hk & He). apply Bool.not_true_iff_false in E. apply E, existsb_elem. exists e. split; [done|].
    by apply bool_decide_eq_true.
Qed.

Lemma tdict_keys {V} (l : list (Text * V)) : NoDup (tdict l).*1.
Proof.
  unfold tdict. assert (∀ acc, NoDup acc.*1 → NoDup (foldl (λ d e, tset e.1 e.2 d) acc l).*1) as H; [|apply H; constructor].
  induction l as [|e l IH]; intros acc Ha; [done|]. cbn [foldl]. by apply IH, tset_keys.
Qed.

#[export] Instance sample_json : JsonLaws loads dumps.
Proof.
  constructor; [|intros q Hq; cbn; by rewrite parse_urlencode, tdict_NoDup|done].
  intros [|c r] items; [done|]. cbn. destruct (c ≟ "{"); [|done]. intros [= <-]. rewrite <-list_fmap_compose. apply tdict_keys.
Qed.

Definition args : ConnectionArgs :=
  {| arg_conn_type := Some (text "google_cloud"); arg_host := Some (text "/var/db.sock"); arg_login := Some (text "me@home");
     arg_password := Some (text "a:b/c?"); arg_schema := Some (text "s#1"); arg_port := Some 5432%Z;
     arg_extra := Some (dumps [(text "k", text "v 1")]); arg_uri := None |}.

Example sample_uri : (c ← connection_init key dumps args; get_uri key loads c) =
  Ok (text "google-cloud://me%40home:a%3Ab%2Fc%3F@%2Fvar%2Fdb.sock:5432/s%231?k=v+1").
Proof. by vm_compute. Qed.

(** A port without a host behind a login: the login changes. *)
Example login_of_port_without_host :
  (c ← connection_init key dumps {| arg_conn_type := Some (text "http"); arg_host := None; arg_login := Some (text "me"); arg_password := None;
         arg_schema := None; arg_port := Some 80%Z; arg_extra := None; arg_uri := None |};
   u ← get_uri key loads c; c' ← connection_init key dumps (uri_args u); Ok (u, login c')) =
  Ok (text "http://me@@:80", Some (text "me@")).
Proof. by vm_compute. Qed.

(** A host with upper case letters does not come back. *)
Example upper_case_host :
  (c ← connection_init key dumps {| arg_conn_type := Some (text "http"); arg_host := Some (text "MyHost"); arg_login := None; arg_password := None;
         arg_schema := None; arg_port := None; arg_extra := None; arg_uri := None |};
   u ← get_uri key loads c; c' ← connection_init key dumps (uri_args u); Ok (u, host c')) =
  Ok (text "http://MyHost", Some (text "myhost")).
Proof. by vm_compute. Qed.

Lemma connection_uri_round_trip_witness :
  uri_ready loads args ∧
  ∃ c uri c', connection_init key dumps args = Ok c ∧ get_uri key loads c = Ok uri ∧ connection_init key dumps (uri_args uri) = Ok c' ∧
    get_password key c' = Ok (Some (text "a:b/c?")) ∧ port c' = Some 5432%Z.
Proof.
  assert (uri_ready loads args) as Hr.
  { constructor; [done| |by vm_compute|by vm_compute|right; left; done|].
    - exists (text "google_cloud"). by split_and!.
    - intros items Hi. vm_compute in Hi. injection Hi as <-. apply (bool_decide_unpack _). by vm_compute. }
  split; [exact Hr|]. destruct (connection_uri_round_trip key loads dumps args Hr) as (c & uri & c' & Hc & Hu & Hc' & _ & Hp & _ & _ & _ & Hpw & _).
  exists c, uri, c'. rewrite Hp, Hpw. split_and!; [done..| |]; injection Hc as <-; by vm_compute.
Defined.
End ConnectionSample.
