(* ===== verification/Secrets.v ===== *)
(** * Secrets: variables and the backends that secrets are read from

    [models/variable.py], the backends of [secrets/] (environment variables, the
    metadata database, local files) and the order in which [configuration.py] asks
    them.  The values of variables are those of a type [V], with [None] for Python's None;
    how a value is written as a text or as JSON, the encryption and a custom backend are
    parameters.  The theorem says that variables behave like a dictionary of texts
    behind the custom backend and the environment. *)

From S2P Require Import Prelude Dict Url Connection.
From Stdlib Require Import Ascii.
From stdpp Require Import strings.
Import Url Connection.

Module Secrets.
Local Open Scope char_scope.

(** ** Backends *)

(** A value of a file of secrets: a text, a list of values, an object that describes a
    connection, or another value. *)
Record SecretObject := {
  so_conn_id : option Text;
  so_args : ConnectionArgs;
  so_has_extra : bool;
  so_extra_dejson : option Text;          (* its JSON text *)
  so_illegal_keys : list Text;
}.
#[warnings="-register-all"]
Inductive SecretValue := SText (t : Text) | SList (l : list SecretValue) | SObject (o : SecretObject) | SNull | SOther.

(** What a secrets backend answers: None for a secret it does not know. *)
Record SecretsBackend := {
  sb_get_connection : Text → result (option Connection);
  sb_get_variable : Text → result (option SecretValue);
}.

Record VariableRow := {
  key : Text;
  _val : option Text;
  v_is_encrypted : bool;
}.

(** The places that secrets are kept in. *)
Record World := {
  environ : list (Text * Text);
  variables : list VariableRow;
  connections : list (Text * Connection);
}.

Definition set_variables (vs : list VariableRow) (w : World) : World :=
  {| environ := environ w; variables := vs; connections := connections w |}.

Definition CONN_ENV_PREFIX : Text := text "AIRFLOW_CONN_".
Definition VAR_ENV_PREFIX : Text := text "AIRFLOW_VAR_".

Section Backends.
Context (fernet : Fernet) (json_dumps : list (Text * Text) → Text).

(** [BaseSecretsBackend.get_connection], from the URI of a connection. *)
Definition base_get_connection (get_conn_uri : Text → option Text) (conn_id : Text) : result (option Connection) :=
  match get_conn_uri conn_id with
  | Some (x :: u) => Some <$> connection_init fernet json_dumps (uri_args (x :: u))
  | _ => Ok None
  end.

Definition EnvironmentVariablesBackend (w : World) : SecretsBackend :=
  {| sb_get_connection := base_get_connection (λ conn_id, tget (CONN_ENV_PREFIX ++ upper conn_id) (environ w));
     sb_get_variable := λ key, Ok (SText <$> tget (VAR_ENV_PREFIX ++ upper key) (environ w)) |}.

(** [Variable.get_val]: a token that cannot be decrypted is None. *)
Definition get_val (v : VariableRow) : option Text :=
  match _val v with
  | Some t => if v_is_encrypted v then match decrypt fernet t with Ok d => Some d | Err _ => None end else Some t
  | None => None
  end.

Definition set_val (value : option Text) (v : VariableRow) : VariableRow :=
  match value with
  | Some t => {| key := key v; _val := Some (encrypt fernet t); v_is_encrypted := fernet_is_encrypted fernet |}
  | None => v
  end.

Definition variable_init (k : Text) (val : option Text) : VariableRow := set_val val {| key := k; _val := None; v_is_encrypted := false |}.

Definition find_variable (k : Text) (vs : list VariableRow) : option VariableRow := kfind key k vs.

Definition MetastoreBackend (w : World) : SecretsBackend :=
  {| sb_get_connection := λ conn_id, Ok (tget conn_id (connections w));
     sb_get_variable := λ k, Ok (SText <$> (find_variable k (variables w) ≫= get_val)) |}.

(** ** The order of the backends *)

Definition initialize_secrets_backends (custom : option SecretsBackend) (w : World) : list SecretsBackend :=
  match custom with Some b => [b] | None => [] end ++ [EnvironmentVariablesBackend w; MetastoreBackend w].

(** The list that was made when the configuration was imported, with the custom backend
    of that time; it is made anew while it has only the two default backends. *)
Definition ensure_secrets_loaded (imported custom : option SecretsBackend) (w : World) : list SecretsBackend :=
  let secrets_backend_list := initialize_secrets_backends imported w in
  if (length secrets_backend_list =? 2)%nat then initialize_secrets_backends custom w else secrets_backend_list.

Fixpoint get_variable_from_secrets (backends : list SecretsBackend) (k : Text) : result (option SecretValue) :=
  match backends with
  | [] => Ok None
  | b :: backends =>
      var_val ← sb_get_variable b k;
      match var_val with Some v => Ok (Some v) | None => get_variable_from_secrets backends k end
  end.

Fixpoint get_connection_from_secrets (backends : list SecretsBackend) (conn_id : Text) : result Connection :=
  match backends with
  | [] => Err AirflowNotFoundException
  | b :: backends =>
      conn ← sb_get_connection b conn_id;
      match conn with Some c => Ok c | None => get_connection_from_secrets backends conn_id end
  end.
End Backends.

(** ** Variables *)
Section Variables.
Context (fernet : Fernet) (json_dumps : list (Text * Text) → Text) (imported custom : option SecretsBackend).
(** Values: those that backends give, [str], and the JSON functions, of which [loads] is None
    for a text that is no JSON. *)
Context {V : Type} (of_secret : SecretValue → V) (str dumps : option V → Text) (loads : Text → option (option V)).

Definition backends (w : World) : list SecretsBackend := ensure_secrets_loaded fernet json_dumps imported custom w.

(** What [Variable.get] makes of the value that was found; without a default a missing
    variable raises. *)
Definition decode_value (var_val : option SecretValue) (default_var : option (option V)) (deserialize_json : bool) : result (option V) :=
  match var_val with
  | None => match default_var with Some d => Ok d | None => Err KeyError end
  | Some v =>
      if deserialize_json then
        match v with SText t => match loads t with Some o => Ok o | None => Err ValueError end | _ => Err TypeError end
      else Ok (Some (of_secret v))
  end.

Definition variable_get (k : Text) (default_var : option (option V)) (deserialize_json : bool) (w : World) : result (option V) :=
  var_val ← get_variable_from_secrets (backends w) k;
  decode_value var_val default_var deserialize_json.

Definition variable_delete (k : Text) (w : World) : World := set_variables (List.filter (λ v, negb (key v ≟ k)) (variables w)) w.

(** The key of the table is unique. *)
Definition add_variable (v : VariableRow) (w : World) : result World :=
  if existsb (λ v', key v' ≟ key v) (variables w) then Err DBAPIError else Ok (set_variables (variables w ++ [v]) w).

Definition stored_value (value : option V) (serialize_json : bool) : Text := if serialize_json then dumps value else str value.

Definition variable_set (k : Text) (value : option V) (serialize_json : bool) (w : World) : result World :=
  add_variable (variable_init fernet k (Some (stored_value value serialize_json))) (variable_delete k w).

Definition setdefault (k : Text) (default : option V) (deserialize_json : bool) (w : World) : result (option V * World) :=
  obj ← variable_get k (Some None) deserialize_json w;
  match obj with
  | None =>
      match default with
      | Some d => w ← variable_set k (Some d) deserialize_json w; Ok (Some d, w)
      | None => Err ValueError
      end
  | Some o => Ok (Some o, w)
  end.

Definition variable_rotate_fernet_key (v : VariableRow) : result VariableRow :=
  match _val v with
  | Some (x :: t) =>
      if v_is_encrypted v then t' ← rotate fernet (x :: t); Ok {| key := key v; _val := Some t'; v_is_encrypted := true |} else Ok v
  | _ => Ok v
  end.

(** The command [airflow rotate-fernet-key]; an exception rolls everything back. *)
Definition rotate_fernet_key_command (w : World) : result World :=
  cs ← foldM (λ cs e, c ← (if is_encrypted e.2 || is_extra_encrypted e.2 then rotate_fernet_key fernet e.2 else Ok e.2); Ok (cs ++ [(e.1, c)]))
         (connections w) [];
  vs ← foldM (λ vs v, v' ← (if v_is_encrypted v then variable_rotate_fernet_key v else Ok v); Ok (vs ++ [v'])) (variables w) [];
  Ok {| environ := environ w; variables := vs; connections := cs |}.
End Variables.

(** ** Local files *)

(** [COMMENT_PATTERN.match(line)]. *)
Fixpoint is_comment (line : Text) : bool :=
  match line with
  | c :: rest => if c ≟ "#" then true else if is_space c then is_comment rest else false
  | [] => false
  end.

(** [secrets[key].append(value)] of a [defaultdict(list)]. *)
Definition append_secret (k v : Text) (secrets : list (Text * list Text)) : list (Text * list Text) :=
  tset k (default [] (tget k secrets) ++ [v]) secrets.

(** [_parse_env_file]: the lines of the file; the errors are the numbers of their lines. *)
Fixpoint parse_env_lines (line_no : nat) (lines : list Text) (secrets : list (Text * list Text)) (errors : list nat) :
    list (Text * list Text) * list nat :=
  match lines with
  | [] => (secrets, errors)
  | line :: lines =>
      match line with
      | [] => parse_env_lines (S line_no) lines secrets errors
      | _ =>
          if is_comment line then parse_env_lines (S line_no) lines secrets errors
          else
            (* line.split("=", 2) has two parts *)
            match partition "=" line with
            | (k, Some v) =>
                if "=" ∈? v then parse_env_lines (S line_no) lines secrets (errors ++ [line_no])
                else
                  let errors := match k with [] => errors ++ [line_no] | _ => errors end in
                  parse_env_lines (S line_no) lines (append_secret k v secrets) errors
            | (_, None) => parse_env_lines (S line_no) lines secrets (errors ++ [line_no])
            end
      end
  end.
Definition _parse_env_file (lines : list Text) : list (Text * list Text) * list nat := parse_env_lines 1 lines [] [].

(** What the parser for the extension of the file gives: the secrets, unless it found errors. *)
Inductive SecretFile := NoFile | Unsupported | Parsed (secrets : list (Text * SecretValue)) (errors : list nat).

Definition env_file (lines : list Text) : SecretFile :=
  let (secrets, errors) := _parse_env_file lines in Parsed ((λ e, (e.1, SList (SText <$> e.2))) <$> secrets) errors.

Definition _parse_secret_file (f : SecretFile) : result (list (Text * SecretValue)) :=
  match f with
  | NoFile | Unsupported => Err AirflowException
  | Parsed secrets errors => match errors with [] => Ok secrets | _ => Err AirflowFileParseException end
  end.

Definition load_variables (f : SecretFile) : result (list (Text * SecretValue)) :=
  secrets ← _parse_secret_file f;
  if existsb (λ e, match e.2 with SList l => negb (length l =? 1)%nat | _ => false end) secrets then Err AirflowException
  else Ok ((λ e, (e.1, match e.2 with SList (v :: _) => v | v => v end)) <$> secrets).

Section LocalFiles.
Context (fernet : Fernet) (json_dumps : list (Text * Text) → Text).

Definition with_extra (e : option Text) (a : ConnectionArgs) : ConnectionArgs :=
  {| arg_conn_type := arg_conn_type a; arg_host := arg_host a; arg_login := arg_login a; arg_password := arg_password a;
     arg_schema := arg_schema a; arg_port := arg_port a; arg_extra := e; arg_uri := arg_uri a |}.

Definition _create_connection (conn_id : Text) (value : SecretValue) : result Connection :=
  match value with
  | SText t => connection_init fernet json_dumps (uri_args t)
  | SObject o =>
      if negb (so_illegal_keys o ≟ []) then Err AirflowException
      else if so_has_extra o && bool_decide (is_Some (so_extra_dejson o)) then Err AirflowException
      else
        let args := match so_extra_dejson o with Some e => with_extra (Some e) (so_args o) | None => so_args o end in
        match so_conn_id o with
        | Some c => if c ≟ conn_id then connection_init fernet json_dumps args else Err AirflowException
        | None => connection_init fernet json_dumps args
        end
  | SList _ | SNull | SOther => Err AirflowException
  end.

Definition load_connections_dict (f : SecretFile) : result (list (Text * Connection)) :=
  secrets ← _parse_secret_file f;
  foldM (λ d e,
    match e.2 with
    | SList l =>
        if (1 <? length l)%nat then Err ConnectionNotUnique
        else foldM (λ d v, c ← _create_connection e.1 v; Ok (tset e.1 c d)) l d
    | v => c ← _create_connection e.1 v; Ok (tset e.1 c d)
    end) secrets [].

(** The backend reads its files at every call; a file may not be configured. *)
Definition LocalFilesystemBackend (variables_file connections_file : option SecretFile) : SecretsBackend :=
  {| sb_get_connection := λ conn_id,
       match connections_file with Some f => d ← load_connections_dict f; Ok (tget conn_id d) | None => Ok None end;
     sb_get_variable := λ k,
       match variables_file with
       | Some f => d ← load_variables f; Ok (match tget k d with Some SNull | None => None | Some v => Some v end)
       | None => Ok None
       end |}.
End LocalFiles.
End Secrets.

Import Secrets.

(** ** Variables as a dictionary *)

(** A loop that makes a new row from each row: it raises [e] exactly if a row is not
    [ok]. *)
Lemma foldM_rows {A B C} (f : A → result B) (g : A → B → C) (P : A → C → Prop) (ok : A → bool) e l acc :
  (∀ x, x ∈ l → match f x with Ok y => ok x = true ∧ P x (g x y) | Err e' => e' = e ∧ ok x = false end) →
  match foldM (λ acc x, y ← f x; Ok (acc ++ [g x y])) l acc with
  | Ok l1 => forallb ok l = true ∧ ∃ l', l1 = acc ++ l' ∧ Forall2 P l l'
  | Err e' => e' = e ∧ forallb ok l = false
  end.
Proof.
  revert acc. induction l as [|x l IH]; intros acc H.
  - split; [done|]. exists []. split; [by rewrite app_nil_r|constructor].
  - pose proof (H x ltac:(left)) as Hx. cbn [foldM forallb]. destruct (f x) as [y|e']; cbn [mbind result_bind]; [|by destruct Hx as [-> ->]].
    destruct Hx as [-> HP]. specialize (IH (acc ++ [g x y]) ltac:(intros z Hz; apply H; by right)). cbn [andb].
    destruct (foldM _ l _) as [l1|e']; [|done]. destruct IH as (Hl & l' & -> & HF). split; [done|]. exists (g x y :: l').
    by rewrite <-app_assoc; split; [|constructor].
Qed.

Section Store.
Context (fernet : Fernet) {FL : FernetLaws fernet} {RL : RotateLaws fernet} (json_dumps : list (Text * Text) → Text).
Context (imported custom : option SecretsBackend) {V : Type} (of_secret : SecretValue → V) (str dumps : option V → Text)
  (loads : Text → option (option V)).
Implicit Types (w : World) (m : gmap Text (option Text)) (k : Text) (v : VariableRow).

(** The custom backend in use answers, and its answers are [cv]. *)
Definition custom_answers (cv : Text → option SecretValue) : Prop :=
  match imported, custom with
  | Some b, _ | None, Some b => ∀ k, sb_get_variable b k = Ok (cv k)
  | None, None => ∀ k, cv k = None
  end.

(** The table holds the dictionary [m]: one row for a key, which is read as the value of
    the key, None if its token cannot be decrypted, as after the loss of a key.  Rows
    are encrypted exactly if there is a key, and a token is not empty.  [rotatable]
    says whether the tokens of all connections can be decrypted. *)
Definition row_ok v : Prop :=
  v_is_encrypted v = fernet_is_encrypted fernet ∧
  match _val v with Some t => v_is_encrypted v = true → t ≠ [] | None => False end.
Record stores (rotatable : bool) (env : list (Text * Text)) w m : Prop := {
  st_env : environ w = env;
  st_keys : NoDup (key <$> variables w);
  st_rows v : v ∈ variables w → row_ok v;
  st_read k : get_val fernet <$> find_variable k (variables w) = m !! k;
  st_conns e : e ∈ connections w → is_encrypted e.2 || is_extra_encrypted e.2 = true → fernet_is_encrypted fernet = true;
  st_tokens : forallb (λ e, tokens_ok fernet e.2) (connections w) = rotatable;
}.

(** The specification: the custom backend, then the environment, then the dictionary. *)
Section Spec.
Context (rotatable : bool) (cv : Text → option SecretValue) (env : list (Text * Text)).

Definition spec_read m k : option SecretValue :=
  match cv k with
  | Some v => Some v
  | None => match tget (VAR_ENV_PREFIX ++ upper k) env with Some t => Some (SText t) | None => SText <$> mjoin (m !! k) end
  end.

(** Everything in the dictionary can be read. *)
Definition all_readable m : bool := bool_decide (map_Forall (λ _ o, is_Some o) m).

Inductive VariableOp :=
| OpSet (k : Text) (value : option V) (serialize_json : bool)
| OpDelete (k : Text)
| OpSetdefault (k : Text) (default : option V) (deserialize_json : bool)
| OpRotate.

Definition spec_op m (o : VariableOp) : result (gmap Text (option Text)) :=
  match o with
  | OpSet k value json => Ok (<[k := Some (stored_value str dumps value json)]> m)
  | OpDelete k => Ok (delete k m)
  | OpSetdefault k d json =>
      obj ← decode_value of_secret loads (spec_read m k) (Some None) json;
      match obj, d with
      | Some _, _ => Ok m
      | None, Some _ => Ok (<[k := Some (stored_value str dumps d json)]> m)
      | None, None => Err ValueError
      end
  | OpRotate => if rotatable && all_readable m then Ok m else Err InvalidToken
  end.

Definition run_op w (o : VariableOp) : result World :=
  match o with
  | OpSet k value json => variable_set fernet str dumps k value json w
  | OpDelete k => Ok (variable_delete k w)
  | OpSetdefault k d json => snd <$> setdefault fernet json_dumps imported custom of_secret str dumps loads k d json w
  | OpRotate => rotate_fernet_key_command fernet w
  end.
End Spec.

Lemma get_val_stored k (t : Text) : get_val fernet (variable_init fernet k (Some t)) = Some t.
Proof.
  unfold get_val, variable_init, set_val. cbn. pose proof (decrypt_encrypt t) as Hd. pose proof (encrypt_plain t) as Hp.
  destruct (fernet_is_encrypted fernet); [by rewrite Hd|by rewrite Hp].
Qed.

Lemma find_delete k k' (vs : list VariableRow) :
  find_variable k' (List.filter (λ v, negb (key v ≟ k)) vs) = if k ≟ k' then None else find_variable k' vs.
Proof.
  unfold find_variable. induction vs as [|v vs IH]; [by case_bool_decide|]. cbn [List.filter]. rewrite (kfind_cons key k' v vs).
  destruct (key v ≟ k) eqn:E; cbn [negb]; [|rewrite kfind_cons]; rewrite IH.
  - apply bool_decide_eq_true in E. subst k. by case_bool_decide.
  - apply bool_decide_eq_false in E. repeat case_bool_decide; congruence.
Qed.

Lemma delete_stores b env w m k : stores b env w m → stores b env (variable_delete k w) (delete k m).
Proof.
  intros [He Hk Hr Hm Hc Ht]. unfold variable_delete, set_variables. constructor; cbn [environ variables connections]; [done|by apply NoDup_fmap_filterb| | |done..].
  - intros v Hv%elem_of_filterb. naive_solver.
  - intros k'. rewrite find_delete, lookup_delete. case_bool_decide as E; [by rewrite decide_True|by rewrite decide_False].
Qed.

Lemma set_stores b env w m k value json : stores b env w m →
  ∃ w', variable_set fernet str dumps k value json w = Ok w' ∧ stores b env w' (<[k := Some (stored_value str dumps value json)]> m).
Proof.
  intros Hs. pose proof (delete_stores b env w m k Hs) as [He Hk Hr Hm Hc Ht]. unfold variable_set, add_variable.
  set (w1 := variable_delete k w) in *. set (t := stored_value str dumps value json).
  assert (k ∉ key <$> variables w1) as Hnk.
  { unfold w1, variable_delete. cbn. intros (v & -> & Hv)%list_elem_of_fmap. apply elem_of_filterb in Hv as [Hv _].
    by rewrite bool_decide_eq_true_2 in Hv. }
  destruct (existsb _ _) eqn:E.
  { apply existsb_elem in E as (v & Hv & Hkv%bool_decide_eq_true). destruct Hnk. apply list_elem_of_fmap. by exists v. }
  eexists. split; [done|]. constructor; cbn [environ variables connections set_variables]; [done| | | |done..].
  - rewrite fmap_app, NoDup_app. split_and!; [done| |apply NoDup_singleton]. intros x Hx Hx'.
    apply list_elem_of_singleton in Hx'. by subst.
  - intros v [Hv|Hv]%elem_of_app; [auto|]. apply list_elem_of_singleton in Hv as ->. by split; [|intros ?; apply token_given].
  - intros k'. specialize (Hm k'). unfold find_variable in *. rewrite kfind_app, lookup_insert. destruct (decide (k = k')) as [<-|Hne].
    + rewrite (proj2 (kfind_None key k _) Hnk), kfind_cons, bool_decide_eq_true_2 by done. cbn [fmap option_fmap option_map]. f_equal. apply get_val_stored.
    + rewrite lookup_delete_ne in Hm by done. rewrite <-Hm, kfind_cons, bool_decide_eq_false_2 by done. by destruct (kfind key k' _).
Qed.

(** A row whose token was replaced is read as before. *)
Definition same_read v v' : Prop := key v' = key v ∧ row_ok v' ∧ get_val fernet v' = get_val fernet v.

Definition readable v : bool := match get_val fernet v with Some _ => true | None => false end.

Lemma rotate_row v : row_ok v →
  match (if v_is_encrypted v then variable_rotate_fernet_key fernet v else Ok v) with
  | Ok v' => readable v = true ∧ same_read v v'
  | Err e => e = InvalidToken ∧ readable v = false
  end.
Proof.
  intros Hv. pose proof Hv as [He Ht]. unfold variable_rotate_fernet_key, readable, get_val at 1 2.
  destruct (v_is_encrypted v) eqn:E; [|by destruct (_val v)].
  destruct (_val v) as [[|x t]|] eqn:Ev; [by destruct (Ht eq_refl)| |done]. pose proof (rotate_token (f := fernet) (x :: t) ltac:(done)) as Hr.
  destruct (rotate fernet (x :: t)) as [t'|e]; cbn [mbind result_bind].
  - destruct Hr as (Hne & Hok & Hd). destruct (decrypt fernet (x :: t)) as [d|] eqn:Ed; [|done]. split; [done|].
    unfold same_read, row_ok, get_val. cbn. by rewrite E, Ev, Hd, Ed.
  - destruct Hr as [-> Hok]. by destruct (decrypt fernet (x :: t)).
Qed.

Lemma same_read_find k vs vs' : Forall2 same_read vs vs' →
  get_val fernet <$> find_variable k vs' = get_val fernet <$> find_variable k vs.
Proof.
  induction 1 as [|v v' vs vs' (Hk & _ & Hg) _ IH]; [done|]. unfold find_variable in *. rewrite !kfind_cons, Hk. case_bool_decide; [|done].
  cbn. by rewrite Hg.
Qed.

Lemma readable_rows b env w m : stores b env w m → forallb readable (variables w) = all_readable m.
Proof.
  intros [_ Hk _ Hm _ _]. apply eq_bool_prop_intro. rewrite !Is_true_true. unfold all_readable. rewrite bool_decide_eq_true, forallb_forall. split.
  - intros H k o. rewrite <-Hm. intros (v & [Hv%list_elem_of_In _]%kfind_Some & ->)%fmap_Some. specialize (H v Hv). revert H. unfold readable.
    by destruct (get_val fernet v).
  - intros H v Hv%list_elem_of_In. specialize (Hm (key v)). unfold find_variable in Hm. rewrite (kfind_elem key _ _ v) in Hm by done.
    unfold readable. destruct (H _ _ (eq_sym Hm)) as [d ->]. done.
Qed.

(** The connections after a rotation. *)
Lemma rotate_connections w :
  (∀ e, e ∈ connections w → is_encrypted e.2 || is_extra_encrypted e.2 = true → fernet_is_encrypted fernet = true) →
  match foldM (λ cs e, c ← (if is_encrypted e.2 || is_extra_encrypted e.2 then rotate_fernet_key fernet e.2 else Ok e.2); Ok (cs ++ [(e.1, c)]))
          (connections w) [] with
  | Ok cs => forallb (λ e, tokens_ok fernet e.2) (connections w) = true ∧ forallb (λ e, tokens_ok fernet e.2) cs = true ∧
      ∀ e, e ∈ cs → is_encrypted e.2 || is_extra_encrypted e.2 = true → fernet_is_encrypted fernet = true
  | Err e => e = InvalidToken ∧ forallb (λ e, tokens_ok fernet e.2) (connections w) = false
  end.
Proof.
  intros Hc. pose proof (foldM_rows (λ e, if is_encrypted e.2 || is_extra_encrypted e.2 then rotate_fernet_key fernet e.2 else Ok e.2)
    (λ e c, (e.1, c)) (λ e e', tokens_ok fernet e'.2 = true ∧ is_encrypted e'.2 || is_extra_encrypted e'.2 = is_encrypted e.2 || is_extra_encrypted e.2)
    (λ e, tokens_ok fernet e.2) InvalidToken (connections w) []) as H.
  destruct (foldM _ (connections w) []) as [cs|e].
  - destruct H as (H1 & cs' & -> & HF).
    { intros e He. specialize (Hc e He). destruct (_ || _) eqn:E.
      - pose proof (rotate_fernet_key_keeps fernet e.2 ltac:(auto)) as Hr. destruct (rotate_fernet_key fernet e.2); [|done]. cbn.
        destruct Hr as (? & ? & -> & -> & _). by rewrite E.
      - cbn. apply orb_false_iff in E as [E1 E2]. unfold tokens_ok, token_ok. rewrite E1, E2. by destruct (_password e.2) as [[]|], (_extra e.2) as [[]|]. }
    split; [done|]. cbn [app]. split.
    + apply forallb_forall. intros e' He'%list_elem_of_In. apply list_elem_of_lookup in He' as [i Hi].
      by destruct (Forall2_lookup_r _ _ _ _ _ HF Hi) as (e & _ & ? & _).
    + intros e' He'. apply list_elem_of_lookup in He' as [i Hi]. destruct (Forall2_lookup_r _ _ _ _ _ HF Hi) as (e & Hv & _ & ->).
      apply list_elem_of_lookup_2 in Hv. by apply Hc.
  - apply H. intros e' He. specialize (Hc e' He). destruct (_ || _) eqn:E.
    + pose proof (rotate_fernet_key_keeps fernet e'.2 ltac:(auto)) as Hr. destruct (rotate_fernet_key fernet e'.2); [|done]. cbn.
      destruct Hr as (? & ? & -> & -> & _). by rewrite E.
    + cbn. apply orb_false_iff in E as [E1 E2]. unfold tokens_ok, token_ok. rewrite E1, E2. by destruct (_password e'.2) as [[]|], (_extra e'.2) as [[]|].
Qed.

Lemma rotate_stores b env w m : stores b env w m →
  match rotate_fernet_key_command fernet w with
  | Ok w' => b && all_readable m = true ∧ stores b env w' m
  | Err e => e = InvalidToken ∧ b && all_readable m = false
  end.
Proof.
  intros Hs. pose proof (readable_rows b env w m Hs) as Hread. destruct Hs as [He Hk Hr Hm Hc Ht]. unfold rotate_fernet_key_command.
  pose proof (rotate_connections w Hc) as Hcs. rewrite Ht in Hcs. destruct (foldM _ (connections w) []) as [cs|e]; cbn [mbind result_bind];
    [|by destruct Hcs as [-> ->]]. destruct Hcs as (-> & Hcs & Hc').
  pose proof (foldM_rows (λ v, if v_is_encrypted v then variable_rotate_fernet_key fernet v else Ok v) (λ _ v, v) same_read readable
    InvalidToken (variables w) [] ltac:(intros v Hv; apply rotate_row; auto)) as H. cbn [andb]. rewrite <-Hread.
  cbn [mbind result_bind] in H |- *. destruct (foldM _ (variables w) []) as [vs|e]; [|done]. destruct H as (-> & vs' & -> & HG). split; [done|].
  cbn [app]. constructor; cbn [environ variables connections]; [done| | | |done..].
  - replace (key <$> vs') with (key <$> variables w); [done|]. clear -HG. induction HG as [|v v' l l' (H & _) _ IH]; [done|]. by rewrite !fmap_cons, IH, H.
  - intros v' Hv'. apply list_elem_of_lookup in Hv' as [i Hi]. by destruct (Forall2_lookup_r _ _ _ _ _ HG Hi) as (v & _ & _ & ? & _).
  - intros k. by rewrite (same_read_find _ _ _ HG).
Qed.

Lemma read_backends ro cv env w m k : custom_answers cv → stores ro env w m →
  get_variable_from_secrets (backends fernet json_dumps imported custom w) k = Ok (spec_read cv env m k).
Proof.
  intros Hcv [He _ _ Hm _ _].
  assert (∀ cu, (match cu with Some b => ∀ k, sb_get_variable b k = Ok (cv k) | None => ∀ k, cv k = None end) →
    get_variable_from_secrets (initialize_secrets_backends fernet json_dumps cu w) k = Ok (spec_read cv env m k)) as H.
  { intros cu Hcu. unfold spec_read. assert (mjoin (m !! k) = find_variable k (variables w) ≫= get_val fernet) as ->
      by (rewrite <-Hm; by destruct (find_variable k (variables w))).
    unfold initialize_secrets_backends. destruct cu as [b|]; cbn [app get_variable_from_secrets]; rewrite Hcu;
      [cbn [mbind result_bind]; destruct (cv k); [done|]|]; cbn; rewrite He; (destruct (tget _ env); [done|]); cbn;
      by destruct (find_variable k (variables w) ≫= get_val fernet). }
  unfold backends, ensure_secrets_loaded, custom_answers in *.
  destruct imported as [b|]; [cbn [length app initialize_secrets_backends Nat.eqb]; by apply (H (Some b))|].
  cbn [length app initialize_secrets_backends Nat.eqb]. by apply (H custom).
Qed.

(** C33: let the custom backend answer every look-up, let rows be encrypted exactly if
    there is a key, with tokens that may be lost, and let [rotatable] say whether all
    the tokens of connections can be decrypted.  Over any sequence of settings,
    deletions, set-defaults and rotations of the key, variables then behave like a
    dictionary: every operation raises exactly when the operation on the dictionary
    does, with the same exception, the table keeps one row for a key, and a look-up
    gives what the custom backend, the environment and then the dictionary give.  On
    the dictionary, a set-default stores its default if the look-up gives None, be it
    that nothing is found or that a JSON null is, and a rotation raises
    [InvalidToken] and changes nothing if a token of a connection or of a variable
    cannot be decrypted, and otherwise changes no value. *)
Theorem variables_refine_dictionary rotatable cv env w m ops :
  custom_answers cv → stores rotatable env w m →
  match foldM run_op ops w, foldM (spec_op rotatable cv env) ops m with
  | Ok w', Ok m' =>
      stores rotatable env w' m' ∧
      ∀ k d json, variable_get fernet json_dumps imported custom of_secret loads k d json w' =
        decode_value of_secret loads (spec_read cv env m' k) d json
  | Err e, Err e' => e = e'
  | _, _ => False
  end.
Proof.
  intros Hcv. assert (∀ w m k d json, stores rotatable env w m → variable_get fernet json_dumps imported custom of_secret loads k d json w =
    decode_value of_secret loads (spec_read cv env m k) d json) as Hget.
  { intros w1 m1 k d json Hs. unfold variable_get. by rewrite (read_backends rotatable cv env w1 m1). }
  revert w m. induction ops as [|o ops IH]; intros w m Hs; [split; [done|]; intros; by apply Hget|].
  cbn [foldM]. assert (match run_op w o, spec_op rotatable cv env m o with
    | Ok w', Ok m' => stores rotatable env w' m' | Err e, Err e' => e = e' | _, _ => False end) as Ho.
  { destruct o as [k value json|k|k d json|]; cbn [run_op spec_op].
    - by destruct (set_stores rotatable env w m k value json Hs) as (w' & -> & Hw').
    - by apply delete_stores.
    - unfold setdefault. rewrite (Hget w m) by done. destruct (decode_value _ _ _ _) as [[o|]|e]; [done| |done]. cbn [mbind result_bind].
      destruct d as [d|]; [|done]. by destruct (set_stores rotatable env w m k (Some d) json Hs) as (w' & -> & Hw').
    - pose proof (rotate_stores rotatable env w m Hs) as H. 
      destruct (rotate_fernet_key_command fernet w); destruct H as [H1 H2]; [by rewrite H1|by rewrite H2]. }
  destruct (run_op w o), (spec_op rotatable cv env m o); cbn [mbind result_bind]; try done. by apply IH.
Qed.
End Store.

(** ** Files of secrets *)
Section Files.
Local Open Scope char_scope.

(** A line that the parser of [.env] files takes as a definition. *)
Definition env_line (k v : Text) : Text := k ++ "=" :: v.
Definition env_key_ok (k : Text) : Prop := k ≠ [] ∧ ("=" ∉ k) ∧ is_comment k = false.

Lemma is_comment_app k v : "=" ∉ k → is_comment (env_line k v) = is_comment k.
Proof.
  unfold env_line. induction k as [|c k IH]; [done|]. intros [_ Hk]%not_elem_of_cons. cbn. destruct (c ≟ "#"); [done|]. by destruct (is_space c); [apply IH|].
Qed.

Lemma parse_env_line n k v lines secrets errors : env_key_ok k → "=" ∉ v →
  parse_env_lines n (env_line k v :: lines) secrets errors = parse_env_lines (S n) lines (append_secret k v secrets) errors.
Proof.
  intros (Hne & Hk & Hc) Hv. cbn [parse_env_lines]. rewrite is_comment_app, Hc by done. unfold env_line at 1 2.
  rewrite partition_at by done. destruct k as [|c k]; [done|]. cbn [app].
  by rewrite bool_decide_eq_false_2.
Qed.

(** Distinct definitions without an equal sign in their values are read as written. *)
Lemma parse_env_file_correct (items : list (Text * Text)) :
  NoDup items.*1 → (∀ k v, (k, v) ∈ items → env_key_ok k ∧ "=" ∉ v) →
  _parse_env_file ((λ e, env_line e.1 e.2) <$> items) = ((λ e, (e.1, [e.2])) <$> items, []).
Proof.
  intros Hd Hi. unfold _parse_env_file.
  assert (∀ n acc, NoDup (acc.*1 ++ items.*1) → parse_env_lines n ((λ e, env_line e.1 e.2) <$> items) acc [] =
    (acc ++ ((λ e, (e.1, [e.2])) <$> items), [])) as H; [|by apply (H 1)].
  clear Hd. induction items as [|[k v] items IH]; intros n acc Hd; [by rewrite app_nil_r|].
  rewrite fmap_cons. destruct (Hi k v ltac:(left)) as [Hk Hv]. rewrite parse_env_line by done.
  assert (k ∉ acc.*1) as Hka by (apply NoDup_app in Hd as (_ & Hd & _); intros Hin; destruct (Hd k Hin); left).
  unfold append_secret. rewrite tget_None, tset_new by done. cbn [from_option]. rewrite IH.
  - by rewrite <-app_assoc.
  - intros k' v' Hin. apply Hi. by right.
  - rewrite fmap_app, <-app_assoc. exact Hd.
Qed.
End Files.

(** ** A sample *)
Module SecretsSample.
Import ConnectionSample.
Local Open Scope char_scope.

(** Values that are texts; only a text in quotes is JSON. *)
Definition str (o : option Text) : Text := default (text "None") o.
Definition json (o : option Text) : Text := match o with Some t => "'" :: t | None => text "null" end.
Definition unjson (t : Text) : option (option Text) :=
  match t with
  | c :: t' => if c ≟ "'" then Some (Some t') else if t ≟ text "null" then Some None else None
  | [] => None
  end.
Definition of_secret (v : SecretValue) : Text := match v with SText t => t | _ => [] end.

Definition env : list (Text * Text) := [(text "AIRFLOW_VAR_SHADOWED", text "from the environment")].
Definition empty : World := {| environ := env; variables := []; connections := [] |}.

Definition ops : list VariableOp :=
  [OpSet (text "a") (Some (text "1")) false; OpSet (text "shadowed") (Some (text "2")) false; OpSet (text "a") (Some (text "3")) true;
   OpRotate; OpSetdefault (text "b") (Some (text "4")) true; OpSetdefault (text "a") (Some (text "5")) true; OpDelete (text "b")].

Abbreviation run w ops := (foldM (run_op key dumps None None of_secret str json unjson) ops w).
Abbreviation read k w := (variable_get key dumps None None of_secret unjson k None false w).

Example sample_reads : (λ w, (read (text "a") w, read (text "b") w, read (text "shadowed") w)) <$> run empty ops =
  Ok (Ok (Some (text "'3")), Err KeyError, Ok (Some (text "from the environment"))).
Proof. by vm_compute. Qed.

Lemma variables_refine_dictionary_witness :
  custom_answers None None (λ _, None) ∧ stores key true env empty ∅ ∧
  match run empty ops with
  | Ok w => ∃ m, stores key true env w m ∧ read (text "a") w = Ok (Some (text "'3"))
  | Err _ => False
  end.
Proof.
  assert (custom_answers None None (λ _, None)) as Hc by done.
  assert (stores key true env empty ∅) as Hs.
  { constructor; cbn; [done|constructor|by intros v ?%elem_of_nil|done|by intros e ?%elem_of_nil|done]. }
  split; [done|]. split; [done|].
  pose proof (variables_refine_dictionary key dumps None None of_secret str json unjson true (λ _, None) env empty ∅ ops Hc Hs) as H.
  destruct (run empty ops) as [w|e] eqn:E; [|by vm_compute in E].
  destruct (foldM (spec_op _ _ _ _ _ _ _) ops ∅) as [m|e]; [|done]. destruct H as [H _].
  exists m. split; [done|]. vm_compute in E. injection E as <-. by vm_compute.
Defined.

(** Without the key, an encrypted variable is read as its token. *)
Example token_read_as_value :
  (w ← run empty [OpSet (text "password") (Some (text "abc")) false];
   variable_get NullFernet dumps None None of_secret unjson (text "password") None false w) = Ok (Some (text "gcba")).
Proof. by vm_compute. Qed.

(** A single token that cannot be decrypted makes the rotation of all fail. *)
Example lost_token :
  let w := {| environ := []; variables := [{| Secrets.key := text "a"; _val := Some (text "x"); v_is_encrypted := true |}]; connections := [] |} in
  (run w [OpSet (text "b") (Some (text "1")) false; OpRotate] = Err InvalidToken) ∧ read (text "a") w = Err KeyError.
Proof. by vm_compute. Qed.

(** A URI with parameters cannot stand in a file of secrets. *)
Example env_file_refuses_uri :
  _parse_env_file [text "MY_CONN_ID=my-conn-type://my-host:5432/my-schema?param1=val1&param2=val2"] = ([], [1]).
Proof. by vm_compute. Qed.

(** A default for a variable whose JSON is null is stored again. *)
Example null_is_missing :
  (λ w, read (text "a") w) <$> run empty [OpSet (text "a") None true; OpSetdefault (text "a") (Some (text "d")) true] = Ok (Ok (Some (text "'d"))).
Proof. by vm_compute. Qed.
End SecretsSample.
