(* ===== verification/Config.v ===== *)
(** * Config: the configuration

    [AirflowConfigParser] of [configuration.py].  An option is looked for in the
    environment, the file, the output of a command, the secrets backend and the default
    configuration, under its name and then its deprecated name.  The values of a parser
    are those after interpolation and the [[DEFAULT]] section is empty.  The password
    database, commands, the secrets backend and floating point numbers are parameters.  The
    theorem says that a whole section agrees with the look-up of its options. *)

From S2P Require Import Prelude Url.
From Stdlib Require Import Ascii.
From stdpp Require Import strings.
Import Url.

Module Config.
Local Open Scope char_scope.

(** ** Texts *)

Definition ends_with (suffix s : Text) : bool := bool_decide (is_Some (starts_with (reverse suffix) (reverse s))).

(** [s.replace(sub, '')]; [fuel] is the length of the text. *)
Fixpoint remove_all (fuel : nat) (sub s : Text) : Text :=
  match fuel with
  | O => s
  | S fuel =>
      match s with
      | [] => []
      | c :: s' => match starts_with sub s with Some rest => remove_all fuel sub rest | None => c :: remove_all fuel sub s' end
      end
  end.
Definition remove_text (sub s : Text) : Text := remove_all (length s) sub s.


(** [int(s)]: digits, with single underscores between them, after a sign. *)
Fixpoint int_digits (s : Text) (n : Z) : option Z :=
  match s with
  | [] => Some n
  | c :: s' =>
      if is_digit c then int_digits s' (10 * n + (code_of c - 48))%Z
      else if c ≟ "_" then
        match s' with
        | d :: s'' => if is_digit d then int_digits s'' (10 * n + (code_of d - 48))%Z else None
        | [] => None
        end
      else None
  end.
Definition py_int (s : Text) : option Z :=
  let unsigned t := match t with c :: _ => if is_digit c then int_digits t 0 else None | [] => None end in
  match strip s with
  | "-" :: t => Z.opp <$> unsigned t
  | "+" :: t => unsigned t
  | t => unsigned t
  end.

(** ** Environment variables in values *)

Definition is_word (c : ascii) : bool := is_upper c || is_lower c || is_digit c || (c ≟ "_").
Fixpoint word (s : Text) : Text * Text :=
  match s with
  | c :: s' => if is_word c then let (a, b) := word s' in (c :: a, b) else ([], s)
  | [] => ([], [])
  end.

(** [os.path.expandvars]; [fuel] is the length of the text. *)
Fixpoint expand_vars (fuel : nat) (environ : list (Text * Text)) (s : Text) : Text :=
  match fuel with
  | O => s
  | S fuel =>
      match s with
      | [] => []
      | c :: s' =>
          if c ≟ "$" then
            let name := match s' with
                        | "{" :: r => match partition "}" r with (n, Some rest) => Some (n, rest) | _ => None end
                        | _ => match word s' with ([], _) => None | (n, rest) => Some (n, rest) end
                        end in
            match name with
            | Some (n, rest) =>
                match tget n environ with
                | Some v => v ++ expand_vars fuel environ rest
                | None => take (length s - length rest) s ++ expand_vars fuel environ rest
                end
            | None => c :: expand_vars fuel environ s'
            end
          else c :: expand_vars fuel environ s'
      end
  end.

Record Environment := {
  env : list (Text * Text);
  expanduser : Text → Text;                           (* asks the password database *)
  run_command : Text → result Text;
  secret_config : Text → result (option Text);        (* [_get_config_value_from_secret_backend] *)
}.

(** [expand_env_var]: until nothing changes.  The rounds are bounded by [fuel]: the code has
    no bound. *)
Fixpoint expand_loop (fuel : nat) (e : Environment) (s : Text) : result Text :=
  match fuel with
  | O => Err OutOfFuel
  | S fuel =>
      let interpolated := expanduser e (expand_vars (length s) (env e) s) in
      if interpolated ≟ s then Ok interpolated else expand_loop fuel e interpolated
  end.
Definition expand_env_var (fuel : nat) (e : Environment) (s : Text) : result Text :=
  match s with [] => Ok [] | _ => expand_loop fuel e s end.

(** ** Options *)

Definition Parser := list (Text * list (Text * Text)).
Record Conf := {
  file : Parser;
  airflow_defaults : Parser;
}.

Definition option_of (p : Parser) (section key : Text) : option Text := tget section p ≫= tget key.

Definition sensitive_config_values : list (Text * Text) :=
  (λ e, (text e.1, text e.2)) <$>
    [("core", "sql_alchemy_conn"); ("core", "fernet_key"); ("celery", "broker_url"); ("celery", "flower_basic_auth");
     ("celery", "result_backend"); ("atlas", "password"); ("smtp", "smtp_password"); ("webserver", "secret_key")]%string.
Definition is_sensitive (section key : Text) : bool := ((section, key) ∈? sensitive_config_values).

(** The new option with the section and the name it had. *)
Definition deprecated_options : list ((Text * Text) * (Text * Text)) :=
  (λ e, ((text e.1.1, text e.1.2), (text e.2.1, text e.2.2))) <$>
    [(("celery", "worker_precheck"), ("core", "worker_precheck"));
     (("logging", "base_log_folder"), ("core", "base_log_folder"));
     (("logging", "remote_logging"), ("core", "remote_logging"));
     (("logging", "remote_log_conn_id"), ("core", "remote_log_conn_id"));
     (("logging", "remote_base_log_folder"), ("core", "remote_base_log_folder"));
     (("logging", "encrypt_s3_logs"), ("core", "encrypt_s3_logs"));
     (("logging", "logging_level"), ("core", "logging_level"));
     (("logging", "fab_logging_level"), ("core", "fab_logging_level"));
     (("logging", "logging_config_class"), ("core", "logging_config_class"));
     (("logging", "colored_console_log"), ("core", "colored_console_log"));
     (("logging", "colored_log_format"), ("core", "colored_log_format"));
     (("logging", "colored_formatter_class"), ("core", "colored_formatter_class"));
     (("logging", "log_format"), ("core", "log_format"));
     (("logging", "simple_log_format"), ("core", "simple_log_format"));
     (("logging", "task_log_prefix_template"), ("core", "task_log_prefix_template"));
     (("logging", "log_filename_template"), ("core", "log_filename_template"));
     (("logging", "log_processor_filename_template"), ("core", "log_processor_filename_template"));
     (("logging", "dag_processor_manager_log_location"), ("core", "dag_processor_manager_log_location"));
     (("logging", "task_log_reader"), ("core", "task_log_reader"));
     (("metrics", "statsd_on"), ("scheduler", "statsd_on"));
     (("metrics", "statsd_host"), ("scheduler", "statsd_host"));
     (("metrics", "statsd_port"), ("scheduler", "statsd_port"));
     (("metrics", "statsd_prefix"), ("scheduler", "statsd_prefix"));
     (("metrics", "statsd_allow_list"), ("scheduler", "statsd_allow_list"));
     (("metrics", "stat_name_handler"), ("scheduler", "stat_name_handler"));
     (("metrics", "statsd_datadog_enabled"), ("scheduler", "statsd_datadog_enabled"));
     (("metrics", "statsd_datadog_tags"), ("scheduler", "statsd_datadog_tags"));
     (("metrics", "statsd_custom_client_path"), ("scheduler", "statsd_custom_client_path"));
     (("scheduler", "parsing_processes"), ("scheduler", "max_threads"));
     (("operators", "default_queue"), ("celery", "default_queue"));
     (("core", "hide_sensitive_var_conn_fields"), ("admin", "hide_sensitive_variable_fields"));
     (("core", "sensitive_var_conn_names"), ("admin", "sensitive_variable_fields"));
     (("core", "default_pool_task_slot_count"), ("core", "non_pooled_task_slot_count"));
     (("core", "max_active_tasks_per_dag"), ("core", "dag_concurrency"))]%string.
Definition deprecated_name (section key : Text) : option (Text * Text) :=
  snd <$> List.find (λ e, e.1 ≟ (section, key)) deprecated_options.

Definition ENV_VAR_PREFIX : Text := text "AIRFLOW__".
Definition _env_var_name (section key : Text) : Text := ENV_VAR_PREFIX ++ upper section ++ text "__" ++ upper key.

(** The argument [fallback]: left out, the marker [_UNSET], or a value. *)
Inductive FallbackArg := NoFallback | Unset | Fallback (v : option Text).

Section Options.
Context (fuel : nat) (e : Environment) (c : Conf).

Definition _get_env_var_option (section key : Text) : result (option Text) :=
  let env_var := _env_var_name section key in
  match tget env_var (env e) with
  | Some v => Some <$> expand_env_var fuel e v
  | None =>
      match (if is_sensitive section key then tget (env_var ++ text "_CMD") (env e) else None) with
      | Some cmd => Some <$> run_command e cmd
      | None =>
          match (if is_sensitive section key then tget (env_var ++ text "_SECRET") (env e) else None) with
          | Some path => secret_config e path
          | None => Ok None
          end
      end
  end.

Definition _get_cmd_option (section key : Text) : result (option Text) :=
  match (if is_sensitive section key then option_of (file c) section (key ++ text "_cmd") else None) with
  | Some cmd => Some <$> run_command e cmd
  | None => Ok None
  end.

Definition _get_secret_option (section key : Text) : result (option Text) :=
  match (if is_sensitive section key then option_of (file c) section (key ++ text "_secret") else None) with
  | Some path => secret_config e path
  | None => Ok None
  end.

(** The option, or the one with the deprecated name. *)
Definition or_deprecated (deprecated : option (Text * Text)) (found : option Text → bool) (look : Text → Text → result (option Text))
    (section key : Text) : result (option Text) :=
  option ← look section key;
  if found option then Ok option
  else
    match deprecated with
    | Some (s, k) => option ← look s k; Ok (if found option then option else None)
    | None => Ok None
    end.

Definition not_none (o : option Text) : bool := match o with Some _ => true | None => false end.
Definition not_empty (o : option Text) : bool := match o with Some (_ :: _) => true | _ => false end.

Definition _get_environment_variables (d : option (Text * Text)) (section key : Text) : result (option Text) :=
  or_deprecated d not_none _get_env_var_option section key.
Definition _get_option_from_config_file (d : option (Text * Text)) (section key : Text) : result (option Text) :=
  or_deprecated d not_none
    (λ s k, match option_of (file c) s k with Some v => Some <$> expand_env_var fuel e v | None => Ok None end) section key.
Definition _get_option_from_commands (d : option (Text * Text)) (section key : Text) : result (option Text) :=
  or_deprecated d not_empty _get_cmd_option section key.
Definition _get_option_from_secrets (d : option (Text * Text)) (section key : Text) : result (option Text) :=
  or_deprecated d not_empty _get_secret_option section key.

Definition _get_option_from_default_config (section key : Text) (fallback : FallbackArg) : result (option Text) :=
  match option_of (airflow_defaults c) section key with
  | Some v => Some <$> expand_env_var fuel e v
  | None =>
      match fallback with
      | NoFallback => Err AirflowConfigException
      | Unset => Err NoOptionError
      | Fallback None => Ok None
      | Fallback (Some v) => Some <$> expand_env_var fuel e v
      end
  end.

Definition get (section key : Text) (fallback : FallbackArg) : result (option Text) :=
  let section := lower section in
  let key := lower key in
  let d := deprecated_name section key in
  option ← _get_environment_variables d section key;
  if not_none option then Ok option else
  option ← _get_option_from_config_file d section key;
  if not_none option then Ok option else
  option ← _get_option_from_commands d section key;
  if not_none option then Ok option else
  option ← _get_option_from_secrets d section key;
  if not_none option then Ok option else
  _get_option_from_default_config section key fallback.

Definition has_option (section option : Text) : result bool :=
  match get section option Unset with
  | Ok _ => Ok true
  | Err NoOptionError => Ok false
  | Err x => Err x
  end.

(** ** Options of other types *)

(** [str(val)]. *)
Definition str_option (o : option Text) : Text := default (text "None") o.

Definition getboolean (section key : Text) (fallback : FallbackArg) : result bool :=
  o ← get section key fallback;
  let val := strip (lower (str_option o)) in
  let val := if "#" ∈? val then strip (partition "#" val).1 else val in
  if (val ∈? (text <$> ["t"; "true"; "1"]%string)) then Ok true
  else if (val ∈? (text <$> ["f"; "false"; "0"]%string)) then Ok false
  else Err AirflowConfigException.

Definition getint (section key : Text) (fallback : FallbackArg) : result Z :=
  o ← get section key fallback;
  match o with
  | None => Err TypeError
  | Some t => match py_int t with Some n => Ok n | None => Err AirflowConfigException end
  end.

(** ** A whole section *)

Context {F : Type} (py_float : Text → option F).

Definition getfloat (section key : Text) (fallback : FallbackArg) : result F :=
  o ← get section key fallback;
  match o with
  | None => Err TypeError
  | Some t => match py_float t with Some x => Ok x | None => Err AirflowConfigException end
  end.

Inductive ConfigValue := CInt (n : Z) | CFloat (x : F) | CBool (b : bool) | CText (t : Text).

Definition convert (val : option Text) : result ConfigValue :=
  match val with
  | None => Err TypeError
  | Some t =>
      match py_int t with
      | Some n => Ok (CInt n)
      | None =>
          match py_float t with
          | Some x => Ok (CFloat x)
          | None =>
              Ok (if (lower t ∈? (text <$> ["t"; "true"]%string)) then CBool true
                  else if (lower t ∈? (text <$> ["f"; "false"]%string)) then CBool false
                  else CText t)
          end
      end
  end.

(** The option that the rest of the name of an environment variable stands for. *)
Definition env_key (section_prefix env_var : Text) : Text :=
  let key := remove_text section_prefix env_var in
  let key := if ends_with (text "_CMD") key then take (length key - 4) key else key in
  lower key.

Definition env_keys (section : Text) : list Text :=
  let section_prefix := _env_var_name section [] in
  env_key section_prefix <$>
    List.filter (λ v, bool_decide (is_Some (starts_with section_prefix v))) ((env e).*1).

(** The environment variables are read in the order of their names, which does not
    matter: those of one key give the same value. *)
Definition getsection (section : Text) : result (option (list (Text * ConfigValue))) :=
  match tget section (airflow_defaults c), tget section (file c) with
  | None, None => Ok None
  | d, f =>
      let _section := foldl (λ s o, tset o.1 (Some o.2) s) [] (default [] d ++ default [] f) in
      _section ← foldM (λ s k, o ← _get_env_var_option section k; Ok (tset k o s)) (env_keys section) _section;
      Some <$> foldM (λ s o, v ← convert o.2; Ok (s ++ [(o.1, v)])) _section []
  end.
End Options.

(** [remove_option]. *)
Definition remove_from (section option : Text) (p : Parser) : Parser :=
  (λ s, if s.1 ≟ section then (s.1, List.filter (λ o, negb (o.1 ≟ option)) s.2) else s) <$> p.
Definition remove_option (section option : Text) (remove_default : bool) (c : Conf) : Conf :=
  {| file := remove_from section option (file c);
     airflow_defaults := if remove_default then remove_from section option (airflow_defaults c) else airflow_defaults c |}.

(** ** Validation *)

(** The old values: how one is recognised and replaced. *)
Definition deprecated_values : list ((Text * Text) * ((Text → bool) * (Text → Text))) :=
  [((text "core", text "hostname_callable"), ((λ v, ":" ∈? v), replace_char ":" "."));
   ((text "webserver", text "navbar_color"), ((λ v, lower v ≟ text "#007a87"), (λ _, text "#fff")));
   ((text "email", text "email_backend"),
     let old := text "airflow.contrib.utils.sendgrid.send_email" in
     ((λ v, (v ≟ old) || (v ≟ old ++ ["010"])),
      (λ v, text "airflow.providers.sendgrid.utils.emailer.send_email" ++ drop (length old) v)))].

Section Validation.
Context (fuel : nat).

(** [self.set] needs the section in the file. *)
Definition set_option (section name value : Text) (c : Conf) : result Conf :=
  match tget section (file c) with
  | Some opts => Ok {| file := tset section (tset name value opts) (file c); airflow_defaults := airflow_defaults c |}
  | None => Err NoOptionError
  end.

Definition _update_env_var (section name new_value : Text) (s : Environment * Conf) : result (Environment * Conf) :=
  let (e, c) := s in
  let e := {| env := List.filter (λ v, negb (v.1 ≟ _env_var_name section name)) (env e); expanduser := expanduser e;
              run_command := run_command e; secret_config := secret_config e |} in
  c ← set_option section name new_value c;
  Ok (e, c).

Definition validate_value (s : Environment * Conf) (d : (Text * Text) * ((Text → bool) * (Text → Text))) : result (Environment * Conf) :=
  let '((section, name), (old, new)) := d in
  current_value ← get fuel s.1 s.2 section name (Fallback None);
  match current_value with
  | None => Err TypeError
  | Some v => if old v then _update_env_var section name (new v) s else Ok s
  end.

(** What the validation asks the system: whether the version of sqlite is too old, and the start
    methods of processes. *)
Definition _validate_config_dependencies (sqlite_too_old : bool) (start_methods : list Text) (s : Environment * Conf) : result unit :=
  executor ← get fuel s.1 s.2 (text "core") (text "executor") NoFallback;
  conn ← get fuel s.1 s.2 (text "core") (text "sql_alchemy_conn") NoFallback;
  match conn with
  | None => Err TypeError
  | Some conn =>
      let is_sqlite := contains (text "sqlite") conn in
      let without_sqlite := negb (executor ∈? (Some ∘ text <$> ["DebugExecutor"; "SequentialExecutor"]%string)) in
      if is_sqlite && without_sqlite then Err AirflowConfigException
      else if is_sqlite && sqlite_too_old then Err AirflowConfigException
      else
        has_method ← has_option fuel s.1 s.2 (text "core") (text "mp_start_method");
        method ← (if has_method then get fuel s.1 s.2 (text "core") (text "mp_start_method") NoFallback else Ok None);
        if has_method && negb (method ∈? (Some <$> start_methods)) then Err AirflowConfigException
        else
          has_mode ← has_option fuel s.1 s.2 (text "scheduler") (text "file_parsing_sort_mode");
          mode ← (if has_mode then get fuel s.1 s.2 (text "scheduler") (text "file_parsing_sort_mode") NoFallback else Ok None);
          if has_mode && negb (mode ∈? (Some ∘ text <$> ["modified_time"; "random_seeded_by_host"; "alphabetical"]%string))
          then Err AirflowConfigException
          else Ok ()
  end.

Definition validate (sqlite_too_old : bool) (start_methods : list Text) (s : Environment * Conf) : result (Environment * Conf) :=
  _validate_config_dependencies sqlite_too_old start_methods s ≫= λ _, foldM validate_value deprecated_values s.
End Validation.
End Config.

Import Config.

(** ** A section agrees with its options *)
Section Agreement.
Context (fuel : nat) (e : Environment) (c : Conf) {F : Type} (py_float : Text → option F).

Lemma remove_all_fuel (sub : Text) n m (s : Text) : sub ≠ [] → length s ≤ n → length s ≤ m → remove_all n sub s = remove_all m sub s.
Proof.
  intros Hs. revert m s. induction n as [|n IH]; intros m s Hn Hm.
  - destruct s; [|cbn in Hn; lia]. by destruct m.
  - destruct m as [|m]; [destruct s; [done|cbn in Hm; lia]|]. destruct s as [|b s]; [done|]. cbn [remove_all]. cbn in Hn, Hm.
    destruct (starts_with sub (b :: s)) as [r|] eqn:E; [|f_equal; apply IH; lia].
    apply starts_with_Some in E. destruct sub as [|a sub]; [done|]. injection E as _ ->. rewrite length_app in *. apply IH; lia.
Qed.

Lemma remove_prefix p s : p ≠ [] → remove_text p (p ++ s) = remove_text p s.
Proof.
  intros Hp. unfold remove_text. rewrite length_app. destruct p as [|a p]; [done|]. cbn [length Nat.add remove_all app].
  change (a :: p ++ s) with ((a :: p) ++ s). rewrite starts_with_app. apply remove_all_fuel; [done|lia|lia].
Qed.

Lemma case_back k : lower k = k → lower (upper k) = k.
Proof.
  induction k as [|x k IH]; [done|]. unfold lower, upper in *. rewrite !fmap_cons. intros [= Hx Hk]. rewrite IH by done. f_equal.
  revert Hx. clear. destruct x as [[] [] [] [] [] [] [] []]; vm_compute; done.
Qed.

(** An option that only has one name, whose upper case form is not taken apart. *)
Record plain_option (s k : Text) : Prop := {
  po_section : lower s = s;
  po_lower : lower k = k;
  po_not_cmd : ends_with (text "_CMD") (upper k) = false;
  po_no_prefix : remove_text (_env_var_name s []) (upper k) = upper k;
  po_not_sensitive : is_sensitive s k = false;
  po_not_deprecated : deprecated_name s k = None;
}.

Lemma env_key_of s k : plain_option s k → env_key (_env_var_name s []) (_env_var_name s k) = k.
Proof.
  intros [_ Hk Hc Hp _ _]. unfold env_key. assert (_env_var_name s k = _env_var_name s [] ++ upper k) as ->.
  { unfold _env_var_name. by rewrite <-!app_assoc. }
  rewrite remove_prefix, Hp, Hc by done. by apply case_back.
Qed.

Lemma env_keys_elem s k v : plain_option s k → tget (_env_var_name s k) (env e) = Some v → k ∈ env_keys e s.
Proof.
  intros Hk Hv. unfold env_keys. apply list_elem_of_fmap. exists (_env_var_name s k). split; [by rewrite env_key_of|].
  apply elem_of_filterb. split.
  - apply bool_decide_eq_true. assert (_env_var_name s k = _env_var_name s [] ++ upper k) as ->; [|by rewrite starts_with_app].
    unfold _env_var_name. by rewrite <-!app_assoc.
  - destruct (decide (_env_var_name s k ∈ (env e).*1)) as [|Hn]; [done|]. by rewrite tget_None in Hv.
Qed.

(** The two loops of [getsection]. *)
Lemma env_loop (g : Text → result (option Text)) (l : list Text) s s' k :
  foldM (λ s k, o ← g k; Ok (tset k o s)) l s = Ok s' →
  if (k ∈? l) then ∃ o, g k = Ok o ∧ tget k s' = Some o else tget k s' = tget k s.
Proof.
  revert s. induction l as [|x l IH]; intros s; [by intros [= <-]|]. cbn [foldM]. intros (s1 & (o & Hx & [= <-])%result_bind_ok & Hl)%result_bind_ok.
  specialize (IH _ Hl). destruct (bool_decide_reflect (k ∈ l)) as [Hin|Hin].
  - rewrite bool_decide_eq_true_2 by by right. done.
  - rewrite IH, tget_tset. destruct (bool_decide_reflect (x = k)) as [->|Hne]; [rewrite bool_decide_eq_true_2 by left; by exists o|].
    rewrite bool_decide_eq_false_2; [done|]. by intros [?|?]%elem_of_cons.
Qed.

Lemma convert_loop (s : list (Text * option Text)) acc d k :
  foldM (λ s o, v ← convert py_float o.2; Ok (s ++ [(o.1, v)])) s acc = Ok d →
  match tget k acc, tget k s with
  | Some x, _ => tget k d = Some x
  | None, Some o => ∃ v, convert py_float o = Ok v ∧ tget k d = Some v
  | None, None => tget k d = None
  end.
Proof.
  revert acc. induction s as [|[x o] s IH]; intros acc; [intros [= <-]; by destruct (tget k acc)|]. cbn [foldM fst snd].
  intros (s1 & (v & Hv & [= <-])%result_bind_ok & Hl)%result_bind_ok. specialize (IH _ Hl). rewrite tget_app, !tget_cons in *.
  destruct (tget k acc); [done|]. destruct (x ≟ k); [by exists v|]. done.
Qed.

End Agreement.

(** ** A sample *)
Module ConfigSample.
Local Open Scope char_scope.

(** No user directories; a command prints its text, the backend knows no secret; no number is a
    floating point number. *)
Definition environment (vars : list (string * string)) : Environment :=
  {| env := (λ v, (text v.1, text v.2)) <$> vars; expanduser := λ t, t; run_command := λ t, Ok t; secret_config := λ _, Ok None |}.
Definition no_float (t : Text) : option unit := None.

Definition parser (p : list (string * list (string * string))) : Parser :=
  (λ s : string * list (string * string), (text s.1, (λ o, (text o.1, text o.2)) <$> s.2)) <$> p.

Definition env1 : Environment := environment [("AIRFLOW__CORE__PARALLELISM", "$SLOTS"); ("SLOTS", "8"); ("HOME", "/root")]%string.
Definition conf1 : Conf :=
  {| file := parser [("core", [("parallelism", "16"); ("load_examples", "True")])];
     airflow_defaults := parser [("core", [("parallelism", "32"); ("load_examples", "False"); ("executor", "SequentialExecutor")]);
                                 ("scheduler", [("max_threads", "2")])] |}%string.

Example sample_section : getsection 9 env1 conf1 no_float (text "core") =
  Ok (Some [(text "parallelism", CInt 8); (text "load_examples", CBool true); (text "executor", CText (text "SequentialExecutor"))]).
Proof. by vm_compute. Qed.


(** Two variables that stand for each other: the expansion goes round for ever. *)
Definition loop_env : Environment := environment [("A", "$B"); ("B", "$A")]%string.
Lemma expansion_does_not_end fuel : expand_env_var fuel loop_env (text "$A") = Err OutOfFuel.
Proof.
  assert (∀ fuel, expand_loop fuel loop_env (text "$A") = Err OutOfFuel ∧ expand_loop fuel loop_env (text "$B") = Err OutOfFuel) as H.
  { clear fuel. induction fuel as [|fuel [IHa IHb]]; [done|]. split; [exact IHb|exact IHa]. }
  apply H.
Qed.

(** A command for an option that may not have one ends [getsection]; [get] ignores it. *)
Definition cmd_env : Environment := environment [("AIRFLOW__CORE__EXECUTOR_CMD", "cat /etc/executor")]%string.
Example command_ends_section :
  getsection 9 cmd_env conf1 no_float (text "core") = Err TypeError ∧
  get 9 cmd_env conf1 (text "core") (text "executor") NoFallback = Ok (Some (text "SequentialExecutor")).
Proof. by vm_compute. Qed.

(** The path of a secret becomes an option of its own. *)
Example secret_becomes_option :
  (λ d, d ≫= tget (text "fernet_key_secret")) <$>
    getsection 9 (environment [("AIRFLOW__CORE__FERNET_KEY_SECRET", "path")]%string) conf1 no_float (text "core") = Ok (Some (CText (text "path"))).
Proof. by vm_compute. Qed.

(** Without an [[email]] section in the file an old value ends the validation. *)
Definition mail_env : Environment :=
  environment [("AIRFLOW__EMAIL__EMAIL_BACKEND", "airflow.contrib.utils.sendgrid.send_email")]%string.
Example old_value_ends_validation :
  validate_value 9 (mail_env, conf1)
    ((text "email", text "email_backend"),
     ((λ v, v ≟ text "airflow.contrib.utils.sendgrid.send_email"), (λ _, text "airflow.providers.sendgrid.utils.emailer.send_email"))) =
  Err NoOptionError.
Proof. by vm_compute. Qed.
End ConfigSample.
