(* ===== verification/Masker.v ===== *)
(** * Masker: secrets in the logs of tasks

    [utils/log/secrets_masker.py].  The values that are logged are texts, dictionaries,
    tuples, sets, lists and other objects, without references to themselves.  The order
    in which a set of patterns is joined is a parameter.  The theorem says that a
    secret that was masked does not appear in the values that are logged, down to the
    depth that the masker looks at; the samples show what it does not cover, the keys of
    dictionaries and what is nested deeper. *)

From S2P Require Import Prelude Url.
From Stdlib Require Import Ascii.
From stdpp Require Import strings.
Import Url.

Module Masker.
Local Open Scope char_scope.

(** Keys of dictionaries: texts or numbers. *)
Inductive DictKey := KText (t : Text) | KNumber (n : Z).
#[warnings="-register-all"]
Inductive Redactable :=
| RText (t : Text)
| RDict (items : list (DictKey * Redactable))
| RTuple (l : list Redactable)
| RSet (l : list Redactable)
| RList (l : list Redactable)
| ROther (n : Z).

Record Settings := {
  HIDE_SENSITIVE_VAR_CONN_FIELDS : bool;
  MASK_SECRETS_IN_LOGS : bool;
  sensitive_var_conn_names : option Text;
}.

Definition DEFAULT_SENSITIVE_FIELDS : list Text :=
  text <$> ["access_token"; "api_key"; "apikey"; "authorization"; "passphrase"; "passwd"; "password"; "private_key"; "secret"; "token"]%string.

(** The patterns are kept unescaped; the replacer is their alternation, in the order in
    which the set was joined. *)
Record SecretsMasker := {
  patterns : list Text;
  replacer : option (list Text);
}.
Definition new_masker : SecretsMasker := {| patterns := []; replacer := None |}.

Definition MAX_RECURSION_DEPTH : nat := 5.
Definition stars : Text := text "***".

(** [re.sub] of an alternation of literals: at every place the first alternative that
    matches; [fuel] is the length of the text. *)
Fixpoint first_match (alternatives : list Text) (s : Text) : option Text :=
  match alternatives with
  | [] => None
  | p :: ps => match starts_with p s with Some rest => Some rest | None => first_match ps s end
  end.
Fixpoint replace_matches (fuel : nat) (alternatives : list Text) (s : Text) : Text :=
  match fuel with
  | O => s
  | S fuel =>
      match s with
      | [] => []
      | c :: s' =>
          match first_match alternatives s with
          | Some rest => stars ++ replace_matches fuel alternatives rest
          | None => c :: replace_matches fuel alternatives s'
          end
      end
  end.
Definition regex_sub (alternatives : list Text) (s : Text) : Text := replace_matches (length s) alternatives s.

Section Masking.
Context (st : Settings) (set_order : list Text → list Text).

Definition get_sensitive_variables_fields : list Text :=
  DEFAULT_SENSITIVE_FIELDS ++
  match sensitive_var_conn_names st with
  | Some (x :: t) => strip <$> split "," (x :: t)
  | _ => []
  end.

Definition should_hide_value_for_key (name : DictKey) : bool :=
  match name with
  | KText t => HIDE_SENSITIVE_VAR_CONN_FIELDS st && existsb (λ s, contains s (lower (strip t))) get_sensitive_variables_fields
  | KNumber _ => false
  end.

Definition key_truthy (k : DictKey) : bool := match k with KText [] => false | KText _ => true | KNumber n => negb (n =? 0)%Z end.
(** [name and should_hide_value_for_key(name)], and [not name or ...]. *)
Definition sensitive (name : option DictKey) : bool :=
  match name with Some k => key_truthy k && should_hide_value_for_key k | None => false end.
Definition masks (name : option DictKey) : bool :=
  match name with Some k => negb (key_truthy k) || should_hide_value_for_key k | None => true end.

Fixpoint _redact_all (item : Redactable) (depth : nat) : Redactable :=
  if (MAX_RECURSION_DEPTH <? depth)%nat then RText stars
  else
    match item with
    | RText _ => RText stars
    | RDict items => RDict ((λ e, (e.1, _redact_all e.2 (S depth))) <$> items)
    | RTuple l | RSet l => RTuple ((λ x, _redact_all x (S depth)) <$> l)
    | RList l => RList ((λ x, _redact_all x (S depth)) <$> l)
    | ROther n => ROther n
    end.

Fixpoint _redact (m : SecretsMasker) (item : Redactable) (name : option DictKey) (depth : nat) : Redactable :=
  if (MAX_RECURSION_DEPTH <? depth)%nat then item
  else if sensitive name then _redact_all item depth
  else
    match item with
    | RDict items => RDict ((λ e, (e.1, _redact m e.2 (Some e.1) (S depth))) <$> items)
    | RText t => RText (match replacer m with Some ps => regex_sub ps t | None => t end)
    | RTuple l | RSet l => RTuple ((λ x, _redact m x None (S depth)) <$> l)
    | RList l => RList ((λ x, _redact m x None (S depth)) <$> l)
    | ROther n => ROther n
    end.

Definition redact (m : SecretsMasker) (item : Redactable) (name : option DictKey) : Redactable := _redact m item name 0.

Definition add_pattern (t : Text) (name : option DictKey) (m : SecretsMasker) : SecretsMasker :=
  match t with
  | [] => m
  | _ =>
      if negb (t ∈? patterns m) && masks name
      then {| patterns := patterns m ++ [t]; replacer := Some (set_order (patterns m ++ [t])) |}
      else m
  end.

Fixpoint add_mask (secret : Redactable) (name : option DictKey) (m : SecretsMasker) : SecretsMasker :=
  match secret with
  | RDict items => foldl (λ m e, add_mask e.2 (Some e.1) m) m items
  | RText t => add_pattern t name m
  | RTuple l | RSet l | RList l => foldl (λ m v, add_mask v name m) m l
  | ROther _ => m
  end.

(** [not secret]. *)
Definition falsy (v : Redactable) : bool :=
  match v with
  | RText t => bool_decide (t = [])
  | RDict items => match items with [] => true | _ => false end
  | RTuple l | RSet l | RList l => match l with [] => true | _ => false end
  | ROther n => (n =? 0)%Z
  end.

Definition mask_secret (secret : Redactable) (name : option DictKey) (m : SecretsMasker) : SecretsMasker :=
  if negb (MASK_SECRETS_IN_LOGS st) || falsy secret then m else add_mask secret name m.

(** ** Log records *)

(** The attributes of a record that are not those of every record, with the message and its
    arguments, and the arguments of its exception. *)
Record LogRecord := {
  attributes : list (Text * Redactable);
  exc_args : option (list Redactable);
  already_filtered : bool;
}.

Definition filter (m : SecretsMasker) (r : LogRecord) : LogRecord :=
  if already_filtered r then r
  else
    match replacer m with
    | Some _ =>
        {| attributes := (λ e, (e.1, redact m e.2 None)) <$> attributes r;
           exc_args := (λ l : list Redactable, (λ v, redact m v None) <$> l) <$> exc_args r;
           already_filtered := true |}
    | None => {| attributes := attributes r; exc_args := exc_args r; already_filtered := true |}
    end.
End Masking.
End Masker.

Import Masker.

(** ** What a value shows *)

(** The texts among its values, the keys of dictionaries apart, down to the depth that
    the masker looks at: those in at most five containers. *)
Fixpoint texts_from (depth : nat) (v : Redactable) : list Text :=
  if (MAX_RECURSION_DEPTH <? depth)%nat then []
  else
    match v with
    | RText t => [t]
    | RDict items => mjoin ((λ e, texts_from (S depth) e.2) <$> items)
    | RTuple l | RSet l | RList l => mjoin (texts_from (S depth) <$> l)
    | ROther _ => []
    end.
Definition texts (v : Redactable) : list Text := texts_from 0 v.

(** The value without its texts, down to this depth; a set is taken for a tuple. *)
Fixpoint shape_from (depth : nat) (v : Redactable) : Redactable :=
  if (MAX_RECURSION_DEPTH <? depth)%nat then RText []
  else
    match v with
    | RText _ => RText []
    | RDict items => RDict ((λ e, (e.1, shape_from (S depth) e.2)) <$> items)
    | RTuple l | RSet l => RTuple (shape_from (S depth) <$> l)
    | RList l => RList (shape_from (S depth) <$> l)
    | ROther n => ROther n
    end.
Definition shape (v : Redactable) : Redactable := shape_from 0 v.

(** How deep it is nested, for inductions. *)
Fixpoint nesting (v : Redactable) : nat :=
  match v with
  | RDict items => S (max_list ((λ e, nesting e.2) <$> items))
  | RTuple l | RSet l | RList l => S (max_list (nesting <$> l))
  | RText _ | ROther _ => 0
  end.

Lemma max_list_elem (n : nat) l : n ∈ l → n ≤ max_list l.
Proof. induction 1; cbn; lia. Qed.

(** The parts of a container are less nested than it. *)
Lemma nesting_part {A} (f : A → nat) (l : list A) x n : S (max_list (f <$> l)) ≤ S n → x ∈ l → f x ≤ n.
Proof. intros Hn Hx. pose proof (max_list_elem (f x) (f <$> l)) as H. rewrite list_elem_of_fmap in H. specialize (H ltac:(eauto)). lia. Qed.

(** ** Replacing *)
Section Replace.
Local Open Scope char_scope.
Implicit Types (p s t : Text) (ps : list Text).

Lemma first_match_None ps s p : first_match ps s = None → p ∈ ps → starts_with p s = None.
Proof.
  induction ps as [|q ps IH]; [by intros _ ?%elem_of_nil|]. cbn. destruct (starts_with q s) eqn:E; [done|].
  intros H [->|Hin]%elem_of_cons; auto.
Qed.

(** A prefix without stars of the result is a prefix of the text. *)
Lemma starts_replaced n ps q s : "*" ∉ q → is_Some (starts_with q (replace_matches n ps s)) → is_Some (starts_with q s).
Proof.
  revert q s. induction n as [|n IH]; intros q s Hq; [done|]. destruct q as [|a q]; [done|]. destruct s as [|c s]; [done|].
  apply not_elem_of_cons in Hq as [Ha Hq]. cbn [replace_matches]. destruct (first_match ps (c :: s)) as [rest|] eqn:E.
  - cbn. rewrite bool_decide_eq_false_2 by done. by intros [? ?].
  - cbn. destruct (a ≟ c); [|done]. by apply IH.
Qed.

Lemma replaced_clean n ps p s : length s ≤ n → p ∈ ps → (∀ q, q ∈ ps → q ≠ []) → "*" ∉ p →
  contains p (replace_matches n ps s) = false.
Proof.
  intros Hn Hp Hne Hstar. revert s Hn. induction n as [|n IH]; intros s Hn.
  { destruct s; [|cbn in Hn; lia]. cbn. destruct p; [by destruct (Hne [])|done]. }
  destruct s as [|c s]; [cbn; destruct p; [by destruct (Hne [])|done]|]. cbn in Hn. cbn [replace_matches].
  destruct (first_match ps (c :: s)) as [rest|] eqn:E.
  - assert (length rest ≤ n) as Hr.
    { clear -E Hne Hn. induction ps as [|q ps IH]; [done|]. cbn in E. destruct (starts_with q (c :: s)) as [r|] eqn:F.
      - injection E as ->. apply starts_with_Some in F. destruct q as [|b q]; [by destruct (Hne []); [left|]|].
        injection F as _ ->. rewrite length_app in Hn. lia.
      - apply IH; [|done]. intros x Hx. apply Hne. by right. }
    specialize (IH rest Hr). destruct p as [|b p]; [by destruct (Hne [])|]. apply not_elem_of_cons in Hstar as [Hb _].
    unfold stars. cbn. rewrite !bool_decide_eq_false_2 by done. exact IH.
  - assert (starts_with p (c :: replace_matches n ps s) = None) as Hs.
    { destruct (starts_with p _) eqn:F; [|done]. pose proof (first_match_None ps (c :: s) p E Hp) as Hnone.
      destruct p as [|b p]; [by destruct (Hne [])|]. apply not_elem_of_cons in Hstar as [_ Hstar]. cbn in F, Hnone.
      destruct (b ≟ c); [|done]. by destruct (starts_replaced n ps p s Hstar ltac:(by eexists)) as [? Hr]; rewrite Hr in Hnone. }
    cbn [contains]. rewrite Hs. apply IH. lia.
Qed.

(** Alternatives that do not match leave the text. *)
Lemma replace_nothing n ps s : (∀ p, p ∈ ps → contains p s = false) → replace_matches n ps s = s.
Proof.
  revert s. induction n as [|n IH]; intros s H; [done|]. destruct s as [|c s]; [done|]. cbn [replace_matches].
  assert (first_match ps (c :: s) = None) as ->.
  { clear IH. induction ps as [|q ps IH]; [done|]. cbn [first_match]. pose proof (H q ltac:(left)) as Hq. cbn [contains] in Hq.
    destruct (starts_with q (c :: s)); [done|]. apply IH. intros p Hp. apply H. by right. }
  f_equal. apply IH. intros p Hp. specialize (H p Hp). cbn [contains] in H. by destruct (starts_with p (c :: s)).
Qed.
End Replace.

(** ** Redacting *)
Section Redact.
Local Open Scope char_scope.
Context (st : Settings) (set_order : list Text → list Text) (set_order_perm : ∀ l, set_order l ≡ₚ l).
Implicit Types (v : Redactable) (m : SecretsMasker) (p t : Text).

(** What a call of [add_mask] masks. *)
Fixpoint masked v (name : option DictKey) : list Text :=
  match v with
  | RText t => if bool_decide (t ≠ []) && masks st name then [t] else []
  | RDict items => mjoin ((λ e, masked e.2 (Some e.1)) <$> items)
  | RTuple l | RSet l | RList l => mjoin ((λ x, masked x name) <$> l)
  | ROther _ => []
  end.

Definition masker_ok m : Prop :=
  (∀ p, p ∈ patterns m → p ≠ []) ∧ match replacer m with Some ps => ps ≡ₚ patterns m | None => patterns m = [] end.

Lemma add_loop {A} (f : A → SecretsMasker → SecretsMasker) (M : A → list Text) l m :
  (∀ x m, x ∈ l → masker_ok m → masker_ok (f x m) ∧ ∀ p, p ∈ patterns (f x m) ↔ p ∈ patterns m ∨ p ∈ M x) →
  masker_ok m →
  masker_ok (foldl (λ m x, f x m) m l) ∧
  ∀ p, p ∈ patterns (foldl (λ m x, f x m) m l) ↔ p ∈ patterns m ∨ p ∈ mjoin (M <$> l).
Proof.
  revert m. induction l as [|x l IH]; intros m H Hm; [split; [done|]; set_solver|]. cbn [foldl].
  destruct (H x m ltac:(left) Hm) as [Hx Hp]. destruct (IH (f x m)) as [Hl Hq]; [intros; apply H; [by right|done]|done|].
  split; [done|]. intros p. rewrite Hq, Hp. cbn. rewrite elem_of_app. tauto.
Qed.

Lemma add_pattern_spec t name m : masker_ok m →
  masker_ok (add_pattern st set_order t name m) ∧ ∀ p, p ∈ patterns (add_pattern st set_order t name m) ↔ p ∈ patterns m ∨ p ∈ masked (RText t) name.
Proof.
  intros [Hne Hr]. destruct (decide (t = [])) as [->|Ht]; [split; [by split|]; cbn; set_solver|].
  assert (add_pattern st set_order t name m = if negb (t ∈? patterns m) && masks st name
    then {| patterns := patterns m ++ [t]; replacer := Some (set_order (patterns m ++ [t])) |} else m) as -> by (by destruct t).
  cbn [masked].
  rewrite (bool_decide_eq_true_2 (t ≠ [])) by done. cbn [andb]. destruct (masks st name); rewrite ?andb_true_r, ?andb_false_r; [|split; [by split|]; set_solver].
  destruct (t ∈? patterns m) eqn:E; cbn [negb]; [apply bool_decide_eq_true in E; split; [by split|]; set_solver|].
  split; [split; cbn|cbn; set_solver]; [|by rewrite set_order_perm]. intros p [Hp|Hp]%elem_of_app; [auto|].
  by apply list_elem_of_singleton in Hp as ->.
Qed.

Lemma add_mask_spec v name m : masker_ok m →
  masker_ok (add_mask st set_order v name m) ∧ ∀ p, p ∈ patterns (add_mask st set_order v name m) ↔ p ∈ patterns m ∨ p ∈ masked v name.
Proof.
  remember (nesting v) as n eqn:Hn. assert (nesting v ≤ n) as Hle by lia. clear Hn. revert v name m Hle.
  induction n as [|n IH]; intros [t|items|l|l|l|k] name m Hle Hm; try (by apply add_pattern_spec); try (cbn in Hle; lia);
    try (split; [done|]; cbn; set_solver).
  { apply (add_loop (λ e, add_mask st set_order e.2 (Some e.1))); [|done]. intros e m' He Hm'. apply IH; [|done].
    by apply (nesting_part (λ e, nesting e.2) items). }
  all: apply (add_loop (λ x, add_mask st set_order x name)); [intros x m' Hx Hm'; apply IH; [by apply (nesting_part nesting l)|done]|done].
Qed.

(** The texts and the shape of a redacted value, part by part. *)
Definition good (P : Text → Prop) d v v' : Prop := (∀ t, t ∈ texts_from d v' → P t) ∧ shape_from d v' = shape_from d v.

Lemma good_deep P d v v' : (MAX_RECURSION_DEPTH <? d)%nat = true → good P d v v'.
Proof. intros Hd. split; [intros t; destruct v'; cbn [texts_from]; rewrite Hd; by intros ?%elem_of_nil|]. by destruct v, v'; cbn [shape_from]; rewrite Hd. Qed.

Lemma good_other P d n : good P d (ROther n) (ROther n).
Proof. split; [|done]. intros t. cbn [texts_from]. by destruct (_ <? d)%nat; intros ?%elem_of_nil. Qed.

Lemma good_text (P : Text → Prop) d t t' : P t' → good P d (RText t) (RText t').
Proof. intros HP. split; [|done]. intros x. cbn [texts_from]. destruct (_ <? d)%nat; [by intros ?%elem_of_nil|by intros ->%list_elem_of_singleton]. Qed.

Lemma good_parts {A} (P : Text → Prop) d (f g : A → Redactable) (l : list A) : (∀ x, x ∈ l → good P d (g x) (f x)) →
  (∀ t, t ∈ mjoin (texts_from d <$> (f <$> l)) → P t) ∧ shape_from d <$> (f <$> l) = shape_from d <$> (g <$> l).
Proof.
  intros H. split.
  - intros t Ht. apply list_elem_of_join in Ht as (ts & Ht & Hts). rewrite <-list_fmap_compose in Hts.
    apply list_elem_of_fmap in Hts as (x & -> & Hx). by apply (H x Hx).
  - rewrite <-!list_fmap_compose. apply list_fmap_ext. intros i x Hx%list_elem_of_lookup_2. by apply H.
Qed.

Lemma good_list (P : Text → Prop) d (f : Redactable → Redactable) (l : list Redactable) : (∀ x, x ∈ l → good P (S d) x (f x)) →
  good P d (RTuple l) (RTuple (f <$> l)) ∧ good P d (RSet l) (RTuple (f <$> l)) ∧ good P d (RList l) (RList (f <$> l)).
Proof.
  intros H. destruct (good_parts P (S d) f id l H) as [Ht Hs]. rewrite list_fmap_id in Hs.
  unfold good. cbn [texts_from shape_from]. rewrite Hs. destruct (_ <? d)%nat; [|done]. repeat split; by intros ? ?%elem_of_nil.
Qed.

Lemma good_dict (P : Text → Prop) d (f : DictKey * Redactable → Redactable) (l : list (DictKey * Redactable)) :
  (∀ e, e ∈ l → good P (S d) e.2 (f e)) → good P d (RDict l) (RDict ((λ e, (e.1, f e)) <$> l)).
Proof.
  intros H. destruct (good_parts P (S d) f snd l H) as [Ht _]. rewrite <-list_fmap_compose in Ht. split; cbn [texts_from shape_from].
  - rewrite <-list_fmap_compose. destruct (_ <? d)%nat; [by intros ? ?%elem_of_nil|exact Ht].
  - destruct (_ <? d)%nat; [done|]. f_equal. rewrite <-list_fmap_compose. apply list_fmap_ext. intros i e He%list_elem_of_lookup_2. cbn. f_equal.
    by apply H.
Qed.

(** Whatever is under a sensitive name becomes stars. *)
Lemma redact_all_good v d : good (λ t, t = stars) d v (_redact_all v d).
Proof.
  remember (nesting v) as n eqn:Hn. assert (nesting v ≤ n) as Hle by lia. clear Hn. revert v d Hle.
  induction n as [|n IH]; intros [t|items|l|l|l|k] d Hle; try (cbn in Hle; lia); cbn [_redact_all];
    (destruct (MAX_RECURSION_DEPTH <? d)%nat eqn:Ed; [by apply good_deep|]); try (by apply good_text); try apply good_other.
  { apply good_dict. intros e He. apply IH. by apply (nesting_part (λ e, nesting e.2) items). }
  all: apply (good_list _ d (λ x, _redact_all x (S d)) l); intros x Hx; apply IH; by apply (nesting_part nesting l).
Qed.

Lemma stars_clean p : p ≠ [] → "*" ∉ p → contains p stars = false.
Proof. intros Hp Hs. destruct p as [|b p]; [done|]. apply not_elem_of_cons in Hs as [Hb _]. cbn. by rewrite !bool_decide_eq_false_2. Qed.

Lemma good_mono (P Q : Text → Prop) d v v' : (∀ t, P t → Q t) → good P d v v' → good Q d v v'.
Proof. intros H [H1 H2]. split; [auto|done]. Qed.

Lemma redact_text_clean m p t : masker_ok m → p ∈ patterns m → "*" ∉ p →
  contains p (match replacer m with Some ps => regex_sub ps t | None => t end) = false.
Proof.
  intros [Hnil Hr] Hp Hs. destruct (replacer m) as [ps|]; [|rewrite Hr in Hp; by apply elem_of_nil in Hp].
  apply replaced_clean; [done|by rewrite Hr| |done]. intros q Hq. apply Hnil. by rewrite <-Hr.
Qed.

(** A masked text is in no part of a redacted value. *)
Lemma redact_good m p v name d : masker_ok m → p ∈ patterns m → "*" ∉ p → good (λ t, contains p t = false) d v (_redact st m v name d).
Proof.
  intros Hm Hp Hs. remember (nesting v) as n eqn:Hn. assert (nesting v ≤ n) as Hle by lia. clear Hn. revert v name d Hle.
  assert (p ≠ []) as Hne by (by apply Hm). induction n as [|n IH]; intros [t|items|l|l|l|k] name d Hle; try (cbn in Hle; lia);
    cbn [_redact]; (destruct (MAX_RECURSION_DEPTH <? d)%nat eqn:Ed; [by apply good_deep|]); (destruct (sensitive st name);
      [eapply good_mono; [|apply redact_all_good]; intros ? ->; by apply stars_clean|]); try (by apply good_text, redact_text_clean);
    try apply good_other.
  { apply good_dict. intros e He. apply IH. by apply (nesting_part (λ e, nesting e.2) items). }
  all: apply (good_list _ d (λ x, _redact st m x None (S d)) l); intros x Hx; apply IH; by apply (nesting_part nesting l).
Qed.

(** The calls of [mask_secret] until now. *)
Definition masker_after (calls : list (Redactable * option DictKey)) : SecretsMasker :=
  foldl (λ m c, mask_secret st set_order c.1 c.2 m) new_masker calls.

Lemma masked_falsy v name : falsy v = true → masked v name = [].
Proof. destruct v as [t|l|l|l|l|n]; cbn; [by intros ->%bool_decide_eq_true|by destruct l..|done]. Qed.

Lemma masker_after_ok calls : MASK_SECRETS_IN_LOGS st = true →
  masker_ok (masker_after calls) ∧
  ∀ p, p ∈ patterns (masker_after calls) ↔ p ∈ mjoin ((λ c, masked c.1 c.2) <$> calls).
Proof.
  intros Hst. destruct (add_loop (λ c, mask_secret st set_order c.1 c.2) (λ c, masked c.1 c.2) calls new_masker) as [H1 H2].
  - intros [v name] m _ Hm. unfold mask_secret. rewrite Hst. cbn [negb orb fst snd]. destruct (falsy v) eqn:E; [|by apply add_mask_spec].
    split; [done|]. rewrite masked_falsy by done. set_solver.
  - split; [by intros p ?%elem_of_nil|done].
  - split; [exact H1|]. intros p. rewrite H2. cbn. set_solver.
Qed.

(** C35: a secret without stars that was given to the masker while masking is on,
    alone or within a structure under a name that [add_mask] masks, is a part of no
    text in at most five containers that is redacted afterwards, and of no such text
    of a record that is filtered for the first time, whatever else was masked.  Down
    to this depth the values keep their structure, but for sets, which become tuples,
    and what is under a sensitive name becomes stars; a text without a secret stays.
    Of a dictionary these are the values: its keys are not redacted, and neither are
    texts in six containers or more. *)
Theorem masked_secret_hidden calls secret name p :
  MASK_SECRETS_IN_LOGS st = true → (secret, name) ∈ calls → p ∈ masked secret name → "*" ∉ p →
  let m := masker_after calls in
  (∀ v k, (∀ t, t ∈ texts (redact st m v k) → contains p t = false) ∧ shape (redact st m v k) = shape v ∧
    (sensitive st k = true → ∀ t, t ∈ texts (redact st m v k) → t = stars)) ∧
  (∀ r, already_filtered r = false →
    ∀ v, v ∈ (attributes (filter st m r)).*2 ++ default [] (exc_args (filter st m r)) → ∀ t, t ∈ texts v → contains p t = false) ∧
  (∀ t, (∀ q, q ∈ mjoin ((λ c, masked c.1 c.2) <$> calls) → contains q t = false) → redact st m (RText t) None = RText t).
Proof.
  intros Hst Hin Hp Hs m. destruct (masker_after_ok calls Hst) as [Hm Hpat]. fold m in Hm, Hpat.
  assert (p ∈ patterns m) as Hpm.
  { apply Hpat, list_elem_of_join. exists (masked secret name). split; [done|]. apply list_elem_of_fmap. by exists (secret, name). }
  split_and!.
  - intros v k. destruct (redact_good m p v k 0 Hm Hpm Hs) as [H1 H2]. split_and!; [exact H1|exact H2|]. intros Hk t. unfold redact.
    destruct v; cbn [_redact]; rewrite Hk; by apply redact_all_good.
  - intros r Hr v Hv t Ht. unfold filter in Hv. rewrite Hr in Hv. destruct Hm as [Hnil Hrep].
    destruct (replacer m) as [ps|] eqn:E; [|rewrite Hrep in Hpm; by apply elem_of_nil in Hpm]. cbn [attributes exc_args] in Hv.
    assert (∃ v0, v = redact st m v0 None) as (v0 & ->).
    { apply elem_of_app in Hv as [Hv|Hv].
      - rewrite <-list_fmap_compose in Hv. apply list_elem_of_fmap in Hv as (e & -> & _). by exists e.2.
      - destruct (exc_args r) as [l|]; [|by apply elem_of_nil in Hv]. apply list_elem_of_fmap in Hv as (x & -> & _). by exists x. }
    apply (redact_good m p v0 None 0) in Ht; [done|by split; [|rewrite E]|done|done].
  - intros t Ht. unfold redact. cbn [_redact sensitive]. change (MAX_RECURSION_DEPTH <? 0)%nat with false. cbv iota. f_equal.
    destruct Hm as [_ Hr]. destruct (replacer m) as [ps|]; [|done]. apply replace_nothing. intros q Hq. apply Ht, Hpat. by rewrite <-Hr.
Qed.
End Redact.

(** ** A sample *)
Module MaskerSample.
Local Open Scope char_scope.

Definition settings : Settings :=
  {| HIDE_SENSITIVE_VAR_CONN_FIELDS := true; MASK_SECRETS_IN_LOGS := true; sensitive_var_conn_names := None |}.
Definition order (l : list Text) : list Text := l.

(** A connection's extra: only what is under a sensitive name is masked. *)
Definition extra : Redactable := RDict [(KText (text "user"), RText (text "bob")); (KText (text "api_key"), RText (text "k-1"))].
Definition calls : list (Redactable * option DictKey) := [(RText (text "hunter2"), None); (extra, None)].
Definition logged : Redactable :=
  RList [RText (text "bob logs in with hunter2"); RDict [(KText (text "url"), RText (text "x?key=k-1&y=1")); (KText (text "token"), RText (text "abc"))]].

Example sample_redacted : redact settings (masker_after settings order calls) logged None =
  RList [RText (text "bob logs in with ***"); RDict [(KText (text "url"), RText (text "x?key=***&y=1")); (KText (text "token"), RText (text "***"))]].
Proof. by vm_compute. Qed.

Lemma masked_secret_hidden_witness :
  (extra, None) ∈ calls ∧ text "k-1" ∈ masked settings extra None ∧
  ∀ t, t ∈ texts (redact settings (masker_after settings order calls) logged None) → contains (text "k-1") t = false.
Proof.
  assert ((extra, None) ∈ calls) as H1 by (right; left).
  assert (text "k-1" ∈ masked settings extra None) as H2 by (apply (bool_decide_unpack _); by vm_compute).
  split; [done|]. split; [done|].
  apply (masked_secret_hidden settings order (λ l, Permutation_refl l) calls extra None (text "k-1")); [done|done|done|].
  apply (bool_decide_unpack _). by vm_compute.
Defined.

(** The first alternative wins, not the longest: the rest of a longer secret is shown. *)
Example rest_of_longer_secret :
  redact settings (masker_after settings order [(RText (text "pass"), None); (RText (text "password1"), None)]) (RText (text "my password1")) None =
  RText (text "my ***word1").
Proof. by vm_compute. Qed.

(** A comma at the end of the configured names makes every name sensitive. *)
Example trailing_comma :
  should_hide_value_for_key
    {| HIDE_SENSITIVE_VAR_CONN_FIELDS := true; MASK_SECRETS_IN_LOGS := true; sensitive_var_conn_names := Some (text "pin,") |} (KText (text "user")) = true.
Proof. by vm_compute. Qed.

(** Keys of dictionaries are not looked at, nor are texts in six containers. *)
Example key_shown :
  redact settings (masker_after settings order calls) (RDict [(KText (text "hunter2"), ROther 1)]) None = RDict [(KText (text "hunter2"), ROther 1)].
Proof. by vm_compute. Qed.
Example deep_text_shown :
  let v := RList [RList [RList [RList [RList [RList [RText (text "hunter2")]]]]]] in
  redact settings (masker_after settings order calls) v None = v.
Proof. by vm_compute. Qed.
End MaskerSample.
